(* ===== verification/_CoqProject ===== *)
-Q . S2P
Prelude.v
Prog.v
Hoare.v
Text.v
World.v
Formatter.v
I18n.v
CircuitBreaker.v
Dispatch.v
RateLimit.v
Codec.v
Cache.v
Locale.v
Roles.v
Replies.v
Auth.v
Records.v
Warns.v
ProofUpload.v
DemoteFlow.v
BanFlow.v
WarnFlow.v
Duration.v
MuteFlow.v
KickFlow.v
WarnManage.v
AppealReview.v
JoinFlow.v
Prefixes.v
Extract.v
Handler.v
UserData.v
AppealSubmit.v
Lease.v
MtStore.v
PromoteFlow.v
Admins.v
BanSession.v
Commands.v
ReasonFlow.v
ConnectedFlow.v
Syncing.v
Maintenance.v
Language.v
Jobs.v
Identity.v
Drills.v
CheckViews.v
Checkme.v
Reporter.v
ErrorReport.v
Faults.v
Intake.v
Stats.v
LogCards.v
Settings.v
GroupList.v
Menus.v
Clients.v
Scheduler.v
Startup.v
Schema.v
