(* ===== verification/Prelude.v ===== *)
(** * Verification development of the TCF moderation bot

    The program ([tcbot/]) is an asynchronous Telegram bot that runs one
    moderation federation over many chats: federation roles, bans, warnings,
    mutes and kicks that are recorded in MongoDB and then applied in every
    connected chat, appeals against bans, a two-level cache and rate limits in
    front of them, and translated MarkdownV2 messages behind them.

    ** How the parts interact

    An update reaches a command handler through the throttle and an
    authorization tier ([decorators/ratelimit.py], [auth.py]).  The handler
    compares the executor's and the target's roles ([checks.py], over
    [users_roles.py] and the cache), collects reason and evidence in a
    conversation, and hands over to an executor under [helper/workflows/].
    The executor writes the record, fans the change out to the chats
    ([utils/dispatch.py], behind [utils/circuit_breaker.py]), and reports to
    the log channel and the chat in a resolved locale ([helper/locale.py],
    [utils/i18n.py], [utils/formatter.py]).

    ** The files, in dependency order

    - [Prelude]: Python exceptions and results, truthiness, the lemmas and
      tactics everything shares.
    - [Prog]: programs as trees of external calls, their executions and
      traces, and the program logic ([wp], [never], [guarded], [waits]).
      [Hoare]: rules for programs that keep state.
    - [Text]: Python strings as code points.  [World]: documents, the calls
      the bot makes ([eff]), configuration, classes of calls.
    - [Formatter] (formatter.py, parse_link.py), [I18n] (i18n.py),
      [CircuitBreaker] (circuit_breaker.py), [Dispatch] (dispatch.py),
      [RateLimit] (the limiters of ratelimit.py, with the Lua script).
    - [Codec] (cache/codec.py), [Cache] (cache/twolevel.py, memory.py,
      mutations.py), [Locale] (settings_db.py, locale.py, group locales),
      [Roles] (users_roles.py), [Replies] (parse_editmsg.py, replies.py).
    - [Auth] (auth.py, checks.py, the handlers of ratelimit.py, identity.py).
    - [Records] (bans_db, groups_db.py, kicks_db, mutes_db), [Warns] (warns_db).
    - [ProofUpload] (proof_flow.py), [DemoteFlow] (demote_flow.py), [BanFlow]
      (ban_flow/executor.py, persist.py), [WarnFlow] (warning_flow/issue.py,
      autoban.py), [Duration] (muting_flow/duration.py, pagination.py),
      [MuteFlow] (muting_flow/mute.py, unmute.py), [KickFlow]
      (kicking_flow.py, unban_flow.py), [WarnManage] (warning_flow/manage.py),
      [AppealReview] (appeal_review_flow/), [JoinFlow] (greeting/).
    - [Prefixes] (prefixes.py), [Extract] (extraction/): what a command's
      text names.  [Handler]: the calls a handler is observed by, and the
      update it is given.  [UserData]: the dictionary PTB keeps per user and
      the programs that read and write it.
    - [AppealSubmit] (appeal_submit_flow/), [Lease] (mtproto_store/lease.py,
      retry.py, mtproto/lifecycle.py), [MtStore] (mtproto_store/storage.py,
      peers.py).
    - [PromoteFlow] (promote_flow.py, queues_db.py), [Admins] (the handlers of
      promotions, of the queue and of the transfer of ownership), [BanSession]
      (ban_flow/handlers.py), [Commands] (the banning, kicking, muting,
      unbanning and warning commands), [ReasonFlow] (reason_flow/: the
      conversation that collects reason and evidence), [ConnectedFlow]
      (connected_flow/, connecting.py, disconnecting.py), [Syncing]
      (syncing/), [Maintenance] (maintenance/, broadcasting.py), [Language]
      (language.py), [Jobs] (scheduler/jobs.py), [Identity]
      (extraction/sync.py).
    - [Drills], [CheckViews], [Checkme] (check_flow/, checking/): the lookup of a
      user, its drill-down views and its cards.  [Stats] (stats_flow/, stats/),
      [GroupList] (groups.py), [Menus] (start.py, help/, privacy.py, about.py and
      their keyboards, the loading of modules).  [LogCards] (parse_logmsg/): the
      messages of the log channel, as text.
    - [Reporter], [ErrorReport] (error_reporter/), [Faults] (runtime/errors.py),
      [Intake] (alive.py, serverless.py, api/),
      [Settings] (config/).
    - [Clients] (redis_client.py, mongos/client.py), [Scheduler] (scheduler/), [Startup] (mongos/indexes.py,
      runtime/lifecycle.py, runtime/entry.py, the draining of tasks).
    - [Schema] (documents.py): the types of the documents, and the functions of
      the database layer and the programs above them checked against them.

    Definitions carry the names of the functions they translate; a piece of a
    long function has a name of its own and is composed where the code has it.

    ** Two kinds of model

    Pure code and code that owns its state is a function: the formatter, the
    renderer, the durations, the codec; the breaker and the limiter take the
    clock reading and the state and return the new state.

    Everything [async] is a [prog]: a tree whose nodes are the calls of
    [World.eff] and whose branches are the answers, exceptions included.
    [exec p t r] says that [p] makes the calls [t], in this order and with
    these answers, and ends with [r].  The environment is demonic: a service
    may answer any value of the call's type or raise anything, cancellation
    included; only calls on the process's own memory are assumed to return.
    So a theorem about [exec] covers every failure of MongoDB, Redis and
    Telegram, and relies on nothing a correct database would have to provide.
    Where a claim does need it, what the database promises is a hypothesis
    with a name: a status kept and claimed atomically ([Admins.stored],
    [AppealSubmit.atomic_claims]), a row changed in one step ([Lease]), the
    laws of a collection ([MtStore.mongo]).  [asyncio.gather] and awaited tasks are [Par]: their calls
    interleave arbitrarily.  Programs are well-founded trees, so every run
    ends; [replay] runs one against scripted answers, which is how the
    witnesses are computed and how a run is known to exist.

    Interleavings between separate handlers are step relations of their own:
    the lock protocol and the mutation queue in [Cache], the pool of a fan-out
    in [Dispatch], the fleet of processes that share a session in [Lease].
    The parts that hold connections and tasks open, [Clients] and [Scheduler], are
    programs run against a handler that owns that state and takes every answer
    from a script ([Hoare.ends]); their theorems hold for every script, and the
    scheduler's task is a resumable program of its own beside [start] and [stop].
    A conversation is the sequence of the updates PTB gives its handlers, one
    after the other ([UserData.dict_run]); its theorems speak of every such
    sequence, and [ReasonFlow.double_done_executes] of two at once.

    ** What the theorems show

    - Authority: a protected handler runs only after a successful lookup that
      clears the caller ([auth_gate]); roles come only from the records that
      grant them ([effective_role_sound]); nobody acts on an equal or a
      superior ([resolve_and_check_sound], and at every entry to a command
      [entry_gate], [flow_gate]); only a Founder or Admin decides an
      appeal, on a ban open for review ([decision_gate]).
    - Staff: who may promote, who may decide a request and that one decision
      is taken ([promote_by_staff], [decision_by_founder], [one_decision]);
      ownership moves only on the founder's own confirmation
      ([transfer_sound]).
    - Targets: the user a command acts on is one its text, its entities or the
      reply names ([extract_target_sound], [parse_command_spec],
      [mention_name_spec]), and is the one the conversation started with
      ([conversation_target], [session_executes_once]).
    - Joins: a banned user who joins a connected group is restricted again
      ([member_enforced]).
    - Appeals: one is opened only by the banned user, for a ban that stands,
      keeps one card, and waits out the cooldown ([appeal_of_own_ban],
      [one_card_stays], [cooldown_bounds], [reference_is_standalone]).
    - The MTProto session: one process at a time owns it and only the owner
      connects ([one_owner], [connects_under_lease]); every operation of the
      store does on the documents what it means on a session
      ([storage_refines]).
    - Groups: a group counts as connected, and is sanctioned, only once its
      row is written ([connected_is_recorded]), on a decision of its owner or
      administrators ([join_gate]); the join replays every ban and mute
      ([join_replays_all]); the bot leaves it only once its row is inactive
      ([leaves_deactivated]).
    - Sweeps: the resync asks about a bounded number of pairs and sanctions
      only who has an active record and is there ([sweep_sound],
      [summary_accounts]); pruning follows Telegram's word ([cleanup_sound]).
    - Records first: no chat is touched and nothing announced before the
      record is written ([ban_record_first], [mute_record_first],
      [kick_recorded_and_lifted], [unban_record_first],
      [verdict_written_first], [removal_logged_after_delete]), and records
      half written are taken back ([add_warn_atomic], [mute_record_first]).
    - Automatic sanctions: they follow a recorded threshold and spare staff
      ([warn_bans_at_threshold], [autoban_spares_staff]).
    - Infrastructure: the fan-out and its breaker ([fan_out_outcomes],
      [fan_out_slot_counts], [closed_below_threshold], [open_then_recovers],
      [half_open_single_probe]), the limiters as refinements of one abstract
      window ([check_refines_window], [lua_matches_window]),
      the cache ([get_or_fetch_spec], [single_flight], [redis_queue_fifo]).
    - Lookups: a clean record is shown on answered reads, after a failed one
      only under a notice ([no_clean_bill], [standing_honest],
      [card_survives_outage]); its buttons come back to the same user
      ([taps_stay]).
    - Statistics, groups and menus: lists of people sit behind a gate
      ([users_behind_gate], [detail_is_tapped], [search_input_scoped]); a listing
      accounts for every group within its budget ([listing_accounts],
      [groups_shown_are_read]); every button leads somewhere ([menu_taps_resolve],
      [topic_taps_resolve], [section_taps_resolve], [help_answer_sound]).
    - Errors: a report holds no configured secret ([report_hides_secrets]), an
      incident is reported once ([one_report_per_incident]), the rate of
      messages is bounded ([owner_rate], [send_rate]).
    - Intake: nothing happens without the secret ([endpoints_gated],
      [queued_is_authentic]), and an acknowledged update was processed
      ([acknowledged_is_processed]).
    - Log cards: a sanction's card is well formed and names its accounts
      ([moderation_cards], [federation_cards]).
    - Settings: what loads is in range ([settings_valid]), what does not is an
      error ([load_errors]), and text reads back ([port_roundtrip],
      [chat_id_roundtrip], [csv_roundtrip]).
    - The process: a connection pool is the current one, was told to close or
      was lost to a cancellation ([pools_accounted]); no living scheduler task is
      replaced, and what a failed start, a cancelled one and a stop leave behind
      ([one_scheduler]); updates are accepted after the boot
      ([boot_before_updates]) that fails fast ([indexes_fail_fast]), and the
      database is closed last ([shutdown_closes_last]).
    - Documents: the database layer and the programs over it store no field a
      collection does not declare, and no value of another type
      ([writes_typed]).
    - Preferences and identities: a tap stores the language it shows, for
      whom it may ([tap_stores_choice], [offered_choice_kept]); a profile is
      shown unasked only when recent, and stored as it was found live
      ([sync_sound]); expiry reaches no recent warning ([expiry_sound]).
    - Text: what is built or translated as MarkdownV2 from well-formed values is
      well formed ([formatters_wf], [t_wf]), escaping and durations parse back ([esc_roundtrip],
      [fmt_duration_parses]), as does what is cached ([codec_roundtrip]).

    Lemmas that end in a failure mode ([late_release_admits_second_probe],
    [local_denial_reads_as_allowed], [zero_duration_mutes_forever],
    [seconds_overflow_as_years], [exempt_staff_claims_demotion] and others)
    record where the code departs from its comments.

    ** Bounds and fuel

    The fuel of [I18n.render_loop] is the length of the template and one more,
    which [render_template_terminates] shows is enough; the heartbeat of
    [Lease], which the code runs until it is cancelled, takes the number of its
    beats, and its theorems hold for every number.  Substitutions and cuts over a
    text ([ErrorReport], [Reporter], [LogCards]) take its length, and consume a
    character with each step.  Every other recursion is structural.  Retry loops run over the list of their attempts.  Python integers are [Z];
    where the code depends on a limit it is written out (the range of
    [timedelta] in [Duration], Telegram's gallery size in [ProofUpload]).
    Clocks: [CircuitBreaker] and [RateLimit] count nanoseconds, dates in
    documents are microseconds.

    ** Conventions

    - Log lines and projections of a query are left out: no modelled
      behaviour depends on them.
    - A field read from a document through [World.dget_int] or [World.dget_str]
      is taken to have its declared type; one that has not reads as the default,
      where the code would keep, compare or raise on the foreign value.  Code
      that checks types itself reads the field as it is ([World.dget]).
    - A task that is started and not awaited is modelled to its end where it
      was started beside a known block ([ConnectedFlow.beside_harvest]); what it
      does after that block has returned is not told apart.
    - A [db_call] is one call: retries and timeouts inside the driver wrapper
      are part of its arbitrary answer.
    - [asyncio.timeout] around a block is [World.with_timeout]: the cancelled
      call is one more answer, and whether the deadline passed is a call.
    - A task that the code creates and awaits later is the other arm of a
      gather around what happens in between.
    - [gather] without [return_exceptions] raises the first error in argument
      order; siblings that Python would leave running finish first here.
    - Texts are symbolic ([World.text]): which key or builder, with which
      arguments.  Rendering is verified separately; [parse_mode] is not
      tracked.
    - A missing chat id is 0.
    - Message text is a [string] of code points below 256 where a handler
      compares or cuts it ([Extract], [Handler], [Admins], [Commands],
      [AppealSubmit]); [Formatter], [I18n] and [Prefixes] have all code points.
    - The parts a file does not model but starts are calls with any outcome: a
      background refresh in a lookup, the boot's components in [Startup].  The
      error reporter is taken as attached.
    - Python's limit on the digits of [int()] is left out; [ast.literal_eval],
      random tokens and the modules' own help texts are parameters.
    - [user_data], module variables and lookups through the MTProto client are
      calls.  [user_data] belongs to one user and is missing exactly when the
      update has no user.

    ** Not modelled

    The member scan of the MTProto client ([mtproto/harvest.py]), a loop over a
    third-party iterator; the formatting of log lines ([utils/logger.py]); the
    speed test ([netspeed.py]), a third-party client and floating-point
    formatting; keyboards and reply texts whose rows and wording the models keep
    symbolic; re-exports. *)

From Stdlib Require Export ZArith List Bool Ascii String Lia.
From stdpp Require Export base tactics list gmap strings.

#[global] Open Scope Z_scope.
#[global] Open Scope list_scope.
#[global] Set Default Goal Selector "!".
#[global] Set Warnings "-register-all".

(** * Python exceptions

    The classes the source raises or distinguishes in an [except] clause.
    [is_Exception] is membership of the [Exception] subtree: [CancelledError]
    derives from [BaseException] directly, so [except Exception] never sees
    it. *)
Inductive exn : Type :=
  | CancelledError
  | DuplicateKeyError (key_pattern : option (list string)) (msg : string)
  | AlreadyPendingError (msg : string)
  | PyMongoError (msg : string)
  | WriteConcernError (retryable : bool)
  | TimeoutError
  | ValueError (msg : string)
  | RuntimeError (msg : string)
  | AssertionError (msg : string)
  | OverflowError
  | KeyError (key : string)
  | CircuitOpenError
  | TelegramError (msg : string)
  | Forbidden (msg : string)
  | NetworkError (msg : string)
  | BadRequest (msg : string)
  | TimedOut
  | RetryAfter (seconds : Z)
  | ApplicationHandlerStop
  | OtherException (name : string).

#[global] Instance exn_eq_dec : EqDecision exn.
Proof. solve_decision. Defined.

Definition is_Exception (e : exn) : bool :=
  match e with CancelledError => false | _ => true end.

(** In python-telegram-bot [BadRequest] and [TimedOut] are subclasses of
    [NetworkError]. *)
Definition is_NetworkError (e : exn) : bool :=
  match e with NetworkError _ | BadRequest _ | TimedOut => true | _ => false end.

Definition is_BadRequest (e : exn) : bool :=
  match e with BadRequest _ => true | _ => false end.

(** * Outcomes: a value, or the exception that escaped *)
Inductive result (A : Type) : Type :=
  | Ok (a : A)
  | Err (e : exn).
Arguments Ok {A} a.
Arguments Err {A} e.

Definition is_err {A} (r : result A) : bool :=
  match r with Ok _ => false | Err _ => true end.

Definition is_cancel {A} (r : result A) : bool :=
  match r with Err CancelledError => true | _ => false end.

Definition rbind {A B} (r : result A) (k : A -> result B) : result B :=
  match r with Ok a => k a | Err e => Err e end.

Declare Scope result_scope.
Notation "x <~ r ;; k" := (rbind r (fun x => k)) (at level 62, r at next level, right associativity) : result_scope.

Lemma rbind_Ok {A B} (r : result A) (k : A -> result B) b : rbind r k = Ok b -> exists a, r = Ok a /\ k a = Ok b.
Proof. destruct r; [eauto|done]. Qed.

Lemma rbind_Err {A B} (r : result A) (k : A -> result B) e :
  rbind r k = Err e -> r = Err e \/ exists a, r = Ok a /\ k a = Err e.
Proof. destruct r; [eauto|]. intros [= <-]. auto. Qed.

Definition ok_or {A} (d : A) (r : result A) : A :=
  match r with Ok a => a | Err _ => d end.

(** * Python truthiness *)
Definition truthy_str (s : string) : bool := negb (String.eqb s "").
Definition truthy_Z (z : Z) : bool := negb (z =? 0).
Definition truthy_optZ (o : option Z) : bool :=
  match o with Some z => truthy_Z z | None => false end.
Definition truthy_optstr (o : option string) : bool :=
  match o with Some s => truthy_str s | None => false end.

(** First entry of an association list. *)
Fixpoint assoc {A} (k : string) (l : list (string * A)) : option A :=
  match l with
  | [] => None
  | (k', v) :: l' => if String.eqb k k' then Some v else assoc k l'
  end.

(** * Shared list lemmas *)

Lemma Forall_app_iff {A} (P : A -> Prop) l1 l2 :
  Forall P (l1 ++ l2) <-> Forall P l1 /\ Forall P l2.
Proof. apply Forall_app. Qed.

Lemma existsb_app_true {A} (f : A -> bool) l1 l2 :
  existsb f (l1 ++ l2) = existsb f l1 || existsb f l2.
Proof. apply existsb_app. Qed.

Lemma existsb_false_Forall {A} (f : A -> bool) l :
  existsb f l = false <-> Forall (fun x => f x = false) l.
Proof.
  induction l as [|x l IH]; simpl; [split; constructor|].
  rewrite orb_false_iff, IH, Forall_cons. done.
Qed.

Lemma length_filter_le {A} (f : A -> bool) (l : list A) :
  (length (List.filter f l) <= length l)%nat.
Proof. induction l as [|x l IH]; simpl; [lia|]. destruct (f x); simpl; lia. Qed.

Lemma filter_none {A} (f : A -> bool) (l : list A) :
  Forall (fun x => f x = false) l -> List.filter f l = [].
Proof. induction 1 as [|x l Hx _ IH]; simpl; [done|by rewrite Hx]. Qed.

Lemma filter_none_inv {A} (f : A -> bool) (l : list A) x :
  List.filter f l = [] -> In x l -> f x = false.
Proof.
  intros H Hx. destruct (f x) eqn:Hf; [|done].
  by assert (In x (List.filter f l)) as Hin by (by apply List.filter_In); rewrite H in Hin.
Qed.

(** * Tactics and hint databases *)

Create HintDb tcbot discriminated.
Create HintDb traces discriminated.
Create Rewrite HintDb tcbot.

(** Boolean hypotheses and goals to propositions. *)
Ltac to_prop :=
  repeat match goal with
  | H : _ && _ = true |- _ => apply andb_true_iff in H as [? ?]
  | H : _ || _ = false |- _ => apply orb_false_iff in H as [? ?]
  | H : negb _ = true |- _ => apply negb_true_iff in H
  | H : negb _ = false |- _ => apply negb_false_iff in H
  | H : (_ <? _) = true |- _ => apply Z.ltb_lt in H
  | H : (_ <? _) = false |- _ => apply Z.ltb_ge in H
  | H : (_ <=? _) = true |- _ => apply Z.leb_le in H
  | H : (_ <=? _) = false |- _ => apply Z.leb_gt in H
  | H : (_ >=? _) = _ |- _ => rewrite Z.geb_leb in H
  | H : (_ >? _) = _ |- _ => rewrite Z.gtb_ltb in H
  | H : (_ =? _) = true |- _ => apply Z.eqb_eq in H
  | H : (_ =? _) = false |- _ => apply Z.eqb_neq in H
  | H : String.eqb _ _ = true |- _ => apply String.eqb_eq in H
  | H : String.eqb _ _ = false |- _ => apply String.eqb_neq in H
  | H : bool_decide _ = true |- _ => apply bool_decide_eq_true in H
  | H : bool_decide _ = false |- _ => apply bool_decide_eq_false in H
  end.

(** Case analysis on every [if]/[match] scrutinee in sight, keeping the
    equation. *)
Ltac cases :=
  repeat (case_match; simplify_eq/=; try done).

