(* ===== verification/Prog.v ===== *)
(** Effectful programs: trees of external calls, their traces under an
    arbitrary environment, and the program logic used by every workflow. *)

From S2P Require Import Prelude.

(** * Programs

    [prog E A] is an [async def] of the source with the external calls [E]:
    [Vis ev k] awaits the call [ev] and continues with what came back, a value
    or an exception (so [try]/[except] is a case analysis in [k]);
    [Par p q k] is [asyncio.gather(p, q, return_exceptions=True)].  The
    continuation of [Par] receives [Err CancelledError] when the gathering
    task itself is cancelled. *)
Inductive prog (E : Type -> Type) (A : Type) : Type :=
  | Ret (a : A)
  | Raise (e : exn)
  | Vis {X : Type} (ev : E X) (k : result X -> prog E A)
  | Par {X Y : Type} (p : prog E X) (q : prog E Y)
        (k : result (result X * result Y) -> prog E A).
Arguments Ret {E A} a.
Arguments Raise {E A} e.
Arguments Vis {E A X} ev k.
Arguments Par {E A X Y} p q k.

Declare Scope prog_scope.
Delimit Scope prog_scope with prog.
#[global] Open Scope prog_scope.

Fixpoint bind {E A B} (p : prog E A) (f : A -> prog E B) : prog E B :=
  match p with
  | Ret a => f a
  | Raise e => Raise e
  | Vis ev k => Vis ev (fun r => bind (k r) f)
  | Par q1 q2 k => Par q1 q2 (fun r => bind (k r) f)
  end.

(** [attempt p]: run [p] and hand its outcome, exceptions included, to the
    caller; every [try] statement is a match on it. *)
Fixpoint attempt {E A} (p : prog E A) : prog E (result A) :=
  match p with
  | Ret a => Ret (Ok a)
  | Raise e => Ret (Err e)
  | Vis ev k => Vis ev (fun r => attempt (k r))
  | Par q1 q2 k => Par q1 q2 (fun r => attempt (k r))
  end.

Notation "x <- p ;; q" := (bind p (fun x => q))
  (at level 62, p at next level, right associativity) : prog_scope.
Notation "'let!' pat := p 'in' q" := (bind p (fun x => match x with pat => q end))
  (at level 62, pat strict pattern, p at level 200, q at level 200,
   right associativity) : prog_scope.
Notation "p ;;; q" := (bind p (fun _ => q))
  (at level 62, right associativity) : prog_scope.

Definition of_result {E A} (r : result A) : prog E A :=
  match r with Ok a => Ret a | Err e => Raise e end.

Definition call {E X} (ev : E X) : prog E X := Vis ev of_result.

(** [try: p  except Exception as exc: h exc]: cancellation passes through. *)
Definition try_except {E A} (p : prog E A) (h : exn -> prog E A) : prog E A :=
  r <- attempt p ;;
  match r with
  | Ok a => Ret a
  | Err e => if is_Exception e then h e else Raise e
  end.

(** [asyncio.gather(..., return_exceptions=True)] *)
Definition gather2 {E X Y} (p : prog E X) (q : prog E Y)
  : prog E (result X * result Y) := Par p q of_result.

Definition gather3 {E X Y Z} (p : prog E X) (q : prog E Y) (s : prog E Z)
  : prog E (result X * result Y * result Z) :=
  let! (rx, ryz) := gather2 p (gather2 q s) in
  match ryz with
  | Ok (ry, rz) => Ret (rx, ry, rz)
  | Err e => Raise e
  end.

Definition gather4 {E X Y Z W} (p : prog E X) (q : prog E Y) (s : prog E Z) (v : prog E W)
  : prog E (result X * result Y * result Z * result W) :=
  let! (rxy, rzw) := gather2 (gather2 p q) (gather2 s v) in
  rxy <- of_result rxy ;;
  rzw <- of_result rzw ;;
  Ret (rxy.1, rxy.2, rzw.1, rzw.2).

Fixpoint gather_list {E X} (ps : list (prog E X)) : prog E (list (result X)) :=
  match ps with
  | [] => Ret []
  | p :: ps' =>
      let! (r, rs) := gather2 p (gather_list ps') in
      rs <- of_result rs ;;
      Ret (r :: rs)
  end.

(** [for x in xs: body x] *)
Fixpoint for_each {E X} (xs : list X) (body : X -> prog E unit) : prog E unit :=
  match xs with
  | [] => Ret tt
  | x :: xs' => body x ;;; for_each xs' body
  end.

(** * Traces

    What the outside world observes: the calls in the order they were made,
    each with its answer. *)
Inductive obs (E : Type -> Type) : Type :=
  | Obs {X : Type} (ev : E X) (r : result X).
Arguments Obs {E X} ev r.

Abbreviation trace E := (list (obs E)).

(** Every interleaving of two traces. *)
Inductive interleave {A} : list A -> list A -> list A -> Prop :=
  | il_nil : interleave [] [] []
  | il_left x l1 l2 l : interleave l1 l2 l -> interleave (x :: l1) l2 (x :: l)
  | il_right x l1 l2 l : interleave l1 l2 l -> interleave l1 (x :: l2) (x :: l).
#[export] Hint Constructors interleave : traces.

(** Which answers an environment may give a call.  External services may
    return any value of the call's type or raise anything; calls on the
    process's own memory always return. *)
Class Env (E : Type -> Type) := admits : forall {X}, E X -> result X -> Prop.

(** [exec p t r]: against some admissible environment and some schedule, [p]
    makes the calls [t] and ends with [r]. *)
Fixpoint exec {E} `{Env E} {A} (p : prog E A) (t : trace E) (r : result A) : Prop :=
  match p with
  | Ret a => t = [] /\ r = Ok a
  | Raise e => t = [] /\ r = Err e
  | Vis ev k => exists x t', admits ev x /\ t = Obs ev x :: t' /\ exec (k x) t' r
  | Par p1 p2 k =>
      exists t1 t2 t12 t3 r1 r2,
        exec p1 t1 r1 /\ exec p2 t2 r2 /\ interleave t1 t2 t12 /\
        t = t12 ++ t3 /\
        (exec (k (Ok (r1, r2))) t3 r \/ exec (k (Err CancelledError)) t3 r)
  end.

(** * Interleaving lemmas *)

Lemma interleave_Forall {A} (P : A -> Prop) l1 l2 l :
  interleave l1 l2 l -> Forall P l <-> Forall P l1 /\ Forall P l2.
Proof.
  induction 1 as [|x l1 l2 l H IH|x l1 l2 l H IH];
    [split; auto|rewrite !Forall_cons, IH; tauto..].
Qed.

Lemma interleave_existsb {A} (f : A -> bool) l1 l2 l :
  interleave l1 l2 l -> existsb f l = existsb f l1 || existsb f l2.
Proof.
  induction 1 as [|x l1 l2 l H IH|x l1 l2 l H IH]; simpl; [done|..]; rewrite IH.
  - by rewrite orb_assoc.
  - destruct (f x), (existsb f l1); done.
Qed.

Lemma interleave_Exists {A} (P : A -> Prop) l1 l2 l :
  interleave l1 l2 l -> Exists P l1 \/ Exists P l2 -> Exists P l.
Proof.
  induction 1 as [|x l1 l2 l H IH|x l1 l2 l H IH]; [tauto|..]; rewrite !Exists_cons; tauto.
Qed.

Lemma interleave_sym {A} (l1 l2 l : list A) : interleave l1 l2 l -> interleave l2 l1 l.
Proof. induction 1; auto with traces. Qed.

Lemma interleave_nil_l {A} (l : list A) : interleave [] l l.
Proof. induction l; auto with traces. Qed.

Lemma interleave_nil_r {A} (l : list A) : interleave l [] l.
Proof. induction l; auto with traces. Qed.

Lemma interleave_app {A} (l1 l2 : list A) : interleave l1 l2 (l1 ++ l2).
Proof. induction l1; simpl; auto using interleave_nil_l with traces. Qed.

Lemma interleave_In {A} (x : A) l1 l2 l :
  interleave l1 l2 l -> In x l <-> In x l1 \/ In x l2.
Proof.
  induction 1 as [|y l1 l2 l H IH|y l1 l2 l H IH]; simpl; [tauto|..];
    rewrite IH; tauto.
Qed.

(** * Inversion of executions *)

Lemma exec_bind {E} `{HE : Env E} {A B} (p : prog E A) (f : A -> prog E B) t r :
  exec (bind p f) t r <->
  (exists t1 a t2, exec p t1 (Ok a) /\ exec (f a) t2 r /\ t = t1 ++ t2)
  \/ (exists e, exec p t (Err e) /\ r = Err e).
Proof.
  revert t. induction p as [A a|A e|A X ev k IH|A X Y p1 _ p2 _ k IH]; intros t; simpl.
  - split.
    + intros H. left. exists [], a, t. auto.
    + intros [(t1 & a' & t2 & [-> Ha] & Hf & ->)|(e & [_ ?] & _)]; [by injection Ha as ->|congruence].
  - split.
    + intros [-> ->]. right. eauto.
    + intros [(t1 & a' & t2 & [_ ?] & _)|(e' & [-> He] & ->)]; [congruence|by injection He as ->].
  - split.
    + intros (x & t' & Hx & -> & Hk).
      apply IH in Hk as [(t1 & a & t2 & H1 & H2 & ->)|(e & H1 & ->)].
      * left. exists (Obs ev x :: t1), a, t2. eauto 10.
      * right. eauto 10.
    + intros [(t1 & a & t2 & (x & t' & Hx & -> & H1) & H2 & ->)|(e & (x & t' & Hx & -> & H1) & ->)].
      * exists x, (t' ++ t2). do 2 (split; [done|]). apply IH. eauto 10.
      * exists x, t'. do 2 (split; [done|]). apply IH. eauto 10.
  - split.
    + intros (t1 & t2 & t12 & t3 & r1 & r2 & H1 & H2 & Hi & -> & [Hk|Hk]);
        apply IH in Hk as [(u1 & a & u2 & Hu1 & Hu2 & ->)|(e & Hu & ->)];
        solve [left; exists (t12 ++ u1), a, u2; rewrite app_assoc; eauto 20 | right; eauto 20].
    + intros [(s1 & a & s2 & (t1 & t2 & t12 & t3 & r1 & r2 & H1 & H2 & Hi & -> & Hk) & Hf & ->)
             |(e & (t1 & t2 & t12 & t3 & r1 & r2 & H1 & H2 & Hi & -> & Hk) & ->)].
      * exists t1, t2, t12, (t3 ++ s2), r1, r2. rewrite app_assoc. do 4 (split; [done|]).
        destruct Hk; [left|right]; apply IH; eauto 10.
      * exists t1, t2, t12, t3, r1, r2. do 4 (split; [done|]).
        destruct Hk; [left|right]; apply IH; eauto 10.
Qed.

Lemma exec_bind_ok {E} `{HE : Env E} {A B} (p : prog E A) (f : A -> prog E B) t b :
  exec (bind p f) t (Ok b) -> exists t1 a t2, exec p t1 (Ok a) /\ exec (f a) t2 (Ok b) /\ t = t1 ++ t2.
Proof. by intros [H|(e & _ & [=])]%exec_bind. Qed.

Lemma exec_attempt {E} `{HE : Env E} {A} (p : prog E A) t r :
  exec (attempt p) t r <-> exists ra, r = Ok ra /\ exec p t ra.
Proof.
  revert t. induction p as [A a|A e|A X ev k IH|A X Y p1 _ p2 _ k IH]; intros t; simpl.
  - split; [intros [-> ->]; eauto|intros (ra & -> & -> & ->); done].
  - split; [intros [-> ->]; eauto|intros (ra & -> & -> & ->); done].
  - split.
    + intros (x & t' & Hx & -> & Hk). apply IH in Hk as (ra & -> & Hk). eauto 10.
    + intros (ra & -> & x & t' & Hx & -> & Hk). do 2 eexists. do 2 (split; [done|]).
      apply IH. eauto.
  - split.
    + intros (t1 & t2 & t12 & t3 & r1 & r2 & H1 & H2 & Hi & -> & [Hk|Hk]);
        apply IH in Hk as (ra & -> & Hk); eauto 20.
    + intros (ra & -> & t1 & t2 & t12 & t3 & r1 & r2 & H1 & H2 & Hi & -> & Hk).
      exists t1, t2, t12, t3, r1, r2. do 4 (split; [done|]).
      destruct Hk; [left|right]; apply IH; eauto.
Qed.

(** * Postconditions over traces

    [wp p Q]: every execution of [p], whatever the environment answers and
    however concurrent parts interleave, satisfies [Q trace outcome]. *)
Definition wp {E} `{Env E} {A} (p : prog E A) (Q : trace E -> result A -> Prop) : Prop :=
  forall t r, exec p t r -> Q t r.

Lemma bind_ret {E A B} (a : A) (f : A -> prog E B) : bind (Ret a) f = f a.
Proof. done. Qed.

Lemma bind_raise {E A B} e (f : A -> prog E B) : bind (Raise e) f = Raise e.
Proof. done. Qed.

#[global] Arguments bind : simpl never.
#[global] Arguments attempt : simpl never.
#[global] Arguments call : simpl never.
#[global] Arguments try_except : simpl never.

Section wp.
Context {E : Type -> Type} `{HE : Env E}.

Lemma wp_mono {A} (p : prog E A) (Q Q' : trace E -> result A -> Prop) :
  wp p Q -> (forall t r, Q t r -> Q' t r) -> wp p Q'.
Proof. unfold wp. eauto. Qed.

Lemma wp_conj {A} (p : prog E A) (Q Q' : trace E -> result A -> Prop) :
  wp p Q -> wp p Q' -> wp p (fun t r => Q t r /\ Q' t r).
Proof. unfold wp. eauto. Qed.

Lemma wp_elim {A} (p : prog E A) (Q : trace E -> result A -> Prop) t r :
  wp p Q -> exec p t r -> Q t r.
Proof. intros H Hr. by apply H. Qed.

Lemma wp_elim' {A} (p : prog E A) (Q : trace E -> result A -> Prop) :
  wp p Q -> forall t r, exec p t r -> Q t r.
Proof. exact (fun H => H). Qed.

Lemma wp_elim_ok {A} (p : prog E A) (a : A) (P : trace E -> Prop) :
  wp p (fun t r => r = Ok a -> P t) -> forall t, exec p t (Ok a) -> P t.
Proof. intros H t Ht. by apply (H _ _ Ht). Qed.

Lemma wp_intro {A} (p : prog E A) (Q : trace E -> result A -> Prop) :
  (forall t r, exec p t r -> Q t r) -> wp p Q.
Proof. intros H. exact H. Qed.

(** The outcome and trace of a run, as the postcondition that names them. *)
Lemma wp_exec {A} (p : prog E A) : wp p (exec p).
Proof. by intros t r. Qed.

Lemma wp_ret {A} (a : A) (Q : trace E -> result A -> Prop) :
  wp (Ret a) Q <-> Q [] (Ok a).
Proof. split; [intros H; by apply H|intros H t r [-> ->]; done]. Qed.

Lemma wp_raise {A} e (Q : trace E -> result A -> Prop) :
  wp (Raise e) Q <-> Q [] (Err e).
Proof. split; [intros H; by apply H|intros H t r [-> ->]; done]. Qed.

Lemma wp_vis {A X} (ev : E X) (k : result X -> prog E A) Q :
  wp (Vis ev k) Q <-> forall x, admits ev x -> wp (k x) (fun t => Q (Obs ev x :: t)).
Proof.
  split.
  - intros H x Ha t r Hx. apply H. exists x, t. done.
  - intros H t r (x & t' & Ha & -> & Hx). by apply (H x Ha).
Qed.

Lemma wp_bind {A B} (p : prog E A) (f : A -> prog E B) Q :
  wp p (fun t r => match r with
                   | Ok a => wp (f a) (fun t' => Q (t ++ t'))
                   | Err e => Q t (Err e)
                   end) ->
  wp (bind p f) Q.
Proof.
  intros H t r [(t1 & a & t2 & H1 & H2 & ->)|(e & H1 & ->)]%exec_bind.
  - exact (H _ _ H1 _ _ H2).
  - exact (H _ _ H1).
Qed.

Lemma wp_attempt {A} (p : prog E A) Q :
  wp p (fun t r => Q t (Ok r)) -> wp (attempt p) Q.
Proof. intros H t r (ra & -> & Hr)%exec_attempt. by apply H. Qed.

Lemma wp_call {X} (ev : E X) Q :
  (forall x, admits ev x -> Q [Obs ev x] x) -> wp (call ev) Q.
Proof.
  intros H. apply wp_vis. intros [a|e] Ha; [apply wp_ret|apply wp_raise]; by apply H.
Qed.

Lemma wp_try {A} (p : prog E A) h Q :
  wp p (fun t r => match r with
                   | Ok a => Q t (Ok a)
                   | Err e => if is_Exception e then wp (h e) (fun t' => Q (t ++ t'))
                              else Q t (Err e)
                   end) ->
  wp (try_except p h) Q.
Proof.
  intros H. apply wp_bind, wp_attempt. eapply wp_mono; [exact H|].
  intros t [a|e]; simpl.
  - intros HQ. apply wp_ret. by rewrite app_nil_r.
  - destruct (is_Exception e); [done|]. intros HQ. apply wp_raise. by rewrite app_nil_r.
Qed.

Lemma wp_par {A X Y} (p : prog E X) (q : prog E Y)
    (k : result (result X * result Y) -> prog E A) P1 P2 Q :
  wp p P1 -> wp q P2 ->
  (forall t1 t2 t r1 r2, P1 t1 r1 -> P2 t2 r2 -> interleave t1 t2 t ->
     wp (k (Ok (r1, r2))) (fun t' => Q (t ++ t')) /\
     wp (k (Err CancelledError)) (fun t' => Q (t ++ t'))) ->
  wp (Par p q k) Q.
Proof.
  intros Hp Hq H t r (t1 & t2 & t12 & t3 & r1 & r2 & H1 & H2 & Hi & -> & Hk).
  destruct (H t1 t2 t12 r1 r2) as [HO HC]; [by apply Hp|by apply Hq|done|].
  destruct Hk; [by apply HO|by apply HC].
Qed.
End wp.

#[global] Opaque wp.

(** Symbolic execution, one construct at a time. *)
Ltac wp_step :=
  lazymatch goal with
  | |- wp (Ret _) _ => apply wp_ret
  | |- wp (Raise _) _ => apply wp_raise
  | |- wp (bind _ _) _ => apply wp_bind
  | |- wp (attempt _) _ => apply wp_attempt
  | |- wp (call _) _ =>
      apply wp_call; let x := fresh "x" in let Hx := fresh "Hx" in intros x Hx;
      try (destruct x as [x|]; [|discriminate Hx])
  | |- wp (try_except _ _) _ => apply wp_try
  | |- wp (if ?b then _ else _) _ => destruct b eqn:?
  | |- wp (match ?x with _ => _ end) _ => destruct x eqn:?
  end; cbn beta iota.

(** Runs symbolic execution to the end: what is left are the postconditions
    of the paths. *)
Ltac wp_auto :=
  repeat match goal with
  | |- wp (of_result ?x) _ => destruct x eqn:?; cbn [of_result]
  | |- wp _ _ => wp_step; simpl
  | |- match ?x with _ => _ end => destruct x eqn:?; simpl
  end.

(** * Running a program against a concrete environment

    [run h p s] answers each call with the handler [h] on the environment's
    own state, concurrent parts one after the other: one of the executions
    [exec] allows ([run_exec]), and an executable one. *)
Section run.
Context {E : Type -> Type} `{HE : Env E} {S : Type} (h : forall X, E X -> S -> result X * S).

Fixpoint run {A} (p : prog E A) (s : S) : trace E * result A * S :=
  match p with
  | Ret a => ([], Ok a, s)
  | Raise e => ([], Err e, s)
  | Vis ev k =>
      let '(x, s1) := h _ ev s in
      let '(t, r, s2) := run (k x) s1 in
      (Obs ev x :: t, r, s2)
  | Par p1 p2 k =>
      let '(t1, r1, s1) := run p1 s in
      let '(t2, r2, s2) := run p2 s1 in
      let '(t3, r, s3) := run (k (Ok (r1, r2))) s2 in
      ((t1 ++ t2) ++ t3, r, s3)
  end.

Definition run_result {A} (p : prog E A) (s : S) : result A := (run p s).1.2.
Definition run_state {A} (p : prog E A) (s : S) : S := (run p s).2.
Definition run_trace {A} (p : prog E A) (s : S) : trace E := (run p s).1.1.

(** [p], run in [s], returns [a] and leaves [s']. *)
Definition returns {A} (p : prog E A) (s : S) (a : A) (s' : S) : Prop :=
  run_result p s = Ok a /\ run_state p s = s'.

Lemma run_bind {A B} (p : prog E A) (k : A -> prog E B) s :
  (run (bind p k) s).1.2 = match run_result p s with Ok a => run_result (k a) (run_state p s) | Err e => Err e end /\
  (run (bind p k) s).2 = match run_result p s with Ok a => run_state (k a) (run_state p s) | Err _ => run_state p s end.
Proof.
  unfold run_result, run_state. revert k s. induction p as [A a|A e|A X ev p IH|A X Y p1 IH1 p2 IH2 p IH]; intros k s; simpl.
  - done.
  - done.
  - destruct (h X ev s) as [x s1]. specialize (IH x k s1). destruct (run (bind (p x) k) s1) as [[t r] s2].
    destruct (run (p x) s1) as [[t' r'] s2']. cbn in *. exact IH.
  - destruct (run p1 s) as [[t1 r1] s1], (run p2 s1) as [[t2 r2] s2].
    specialize (IH (Ok (r1, r2)) k s2). destruct (run (bind (p (Ok (r1, r2))) k) s2) as [[t r] s3].
    destruct (run (p (Ok (r1, r2))) s2) as [[t' r'] s3']. cbn in *. exact IH.
Qed.

Lemma returns_ret {A} (a : A) s : returns (Ret a) s a s.
Proof. done. Qed.

Lemma returns_bind {A B} (p : prog E A) (k : A -> prog E B) s a s1 b s2 :
  returns p s a s1 -> returns (k a) s1 b s2 -> returns (bind p k) s b s2.
Proof.
  intros [Hr Hs] [Hr' Hs']. destruct (run_bind p k s) as [H1 H2]. unfold returns, run_result at 1, run_state at 1.
  rewrite H1, H2, Hr, Hs. done.
Qed.

Lemma returns_call {X} (ev : E X) s a s' : h X ev s = (Ok a, s') -> returns (call ev) s a s'.
Proof. intros H. unfold returns, run_result, run_state. unfold call. simpl. rewrite H. done. Qed.

Lemma returns_attempt {A} (p : prog E A) s a s' : returns p s a s' -> returns (attempt p) s (Ok a) s'.
Proof.
  unfold returns, run_result, run_state. revert s. induction p as [A b|A e|A X ev p IH|A X Y p1 IH1 p2 IH2 p IH]; intros s; simpl.
  - intros [[= ->] Hs]. done.
  - intros [[=] _].
  - destruct (h X ev s) as [x s1]. specialize (IH x a s1). destruct (run (attempt (p x)) s1) as [[t r] s2].
    destruct (run (p x) s1) as [[t' r'] s2']. cbn in *. exact IH.
  - destruct (run p1 s) as [[t1 r1] s1], (run p2 s1) as [[t2 r2] s2].
    specialize (IH (Ok (r1, r2)) a s2). destruct (run (attempt (p (Ok (r1, r2)))) s2) as [[t r] s3].
    destruct (run (p (Ok (r1, r2))) s2) as [[t' r'] s3']. cbn in *. exact IH.
Qed.
Hypothesis h_admits : forall X (ev : E X) s, admits ev (h X ev s).1.

Lemma run_exec {A} (p : prog E A) s t r s' :
  run p s = (t, r, s') -> exec p t r.
Proof.
  revert s t r s'.
  induction p as [A a|A e|A X ev k IH|A X Y p1 IH1 p2 IH2 k IH];
    intros s t r s'; simpl.
  - intros [= <- <- _]. done.
  - intros [= <- <- _]. done.
  - specialize (h_admits X ev s).
    destruct (h X ev s) as [x s1], (run (k x) s1) as [[t' r'] s2] eqn:Hk.
    intros [= <- <- _]. eauto 10.
  - destruct (run p1 s) as [[t1 r1] s1] eqn:H1, (run p2 s1) as [[t2 r2] s2] eqn:H2.
    destruct (run (k (Ok (r1, r2))) s2) as [[t3 r3] s3] eqn:H3.
    intros [= <- <- _]. exists t1, t2, (t1 ++ t2), t3, r1, r2.
    eauto 10 using interleave_app.
Qed.

End run.

#[global] Arguments exec : simpl never.

(** * Rules for [gather] *)

(** How many calls of a class a trace holds. *)
Definition tcount {E} (f : obs E -> bool) (t : trace E) : nat := length (List.filter f t).

Lemma tcount_app {E} (f : obs E -> bool) t1 t2 : tcount f (t1 ++ t2) = (tcount f t1 + tcount f t2)%nat.
Proof. unfold tcount. by rewrite List.filter_app, length_app. Qed.

Lemma tcount_interleave {E} (f : obs E -> bool) t1 t2 t :
  interleave t1 t2 t -> tcount f t = (tcount f t1 + tcount f t2)%nat.
Proof.
  unfold tcount. induction 1 as [|x l1 l2 l H IH|x l1 l2 l H IH]; simpl; [done|..];
    destruct (f x); simpl; lia.
Qed.

Lemma existsb_tcount {E} (f : obs E -> bool) t : existsb f t = negb (Nat.eqb (tcount f t) 0).
Proof. unfold tcount. induction t as [|o t IH]; simpl; [done|]. by destruct (f o). Qed.

Lemma tcount_cons {E} (f : obs E -> bool) o t :
  tcount f (o :: t) = ((if f o then 1 else 0) + tcount f t)%nat.
Proof. unfold tcount. simpl. by destruct (f o). Qed.

Lemma tcount_nil {E} (f : obs E -> bool) : tcount f [] = 0%nat.
Proof. done. Qed.

Lemma tcount_zero {E} (f : obs E -> bool) t : Forall (fun o => f o = false) t -> tcount f t = 0%nat.
Proof. unfold tcount. induction 1 as [|o t Ho _ IH]; simpl; [done|]. by rewrite Ho. Qed.

(** [guarded f g t]: no call of class [g] happens before the first of class
    [f]. *)
Fixpoint guarded {E} (f g : obs E -> bool) (t : trace E) : bool :=
  match t with
  | [] => true
  | o :: t' => if f o then true else if g o then false else guarded f g t'
  end.

Lemma guarded_none {E} (f g : obs E -> bool) t :
  Forall (fun o => g o = false) t -> guarded f g t = true.
Proof. induction 1 as [|o t Ho _ IH]; simpl; [done|]. rewrite Ho, IH. by destruct (f o). Qed.

Lemma guarded_app {E} (f g : obs E -> bool) t1 t2 :
  guarded f g (t1 ++ t2) = guarded f g t1 && (existsb f t1 || guarded f g t2).
Proof.
  induction t1 as [|o t1 IH]; simpl; [done|]. destruct (f o); simpl; [done|].
  destruct (g o); [done|exact IH].
Qed.

Lemma guarded_interleave {E} (f g : obs E -> bool) t1 t2 t :
  interleave t1 t2 t -> guarded f g t1 = true -> Forall (fun o => g o = false) t2 ->
  guarded f g t = true.
Proof.
  induction 1 as [|x l1 l2 l H IH|x l1 l2 l H IH]; simpl; [done|..].
  - destruct (f x); [done|]. destruct (g x); [done|]. exact IH.
  - intros H1 [H2 H3]%Forall_cons. destruct (f x); [done|]. rewrite H2. by apply IH.
Qed.

(** Nothing of class [g] happened unless something of class [f] did. *)
Lemma guarded_absent {E} (f g : obs E -> bool) t :
  guarded f g t = true -> existsb f t = false -> existsb g t = false.
Proof.
  induction t as [|o t IH]; simpl; [done|]. destruct (f o); simpl; [done|].
  destruct (g o); simpl; [done|exact IH].
Qed.

Section gather.
Context {E : Type -> Type} `{HE : Env E}.

(** Two traces run side by side keep every property of traces that
    interleaving and concatenation preserve. *)
Lemma wp_gather2 {X Y} (p : prog E X) (q : prog E Y) P1 P2 Q :
  wp p P1 -> wp q P2 ->
  (forall t1 t2 t r1 r2, P1 t1 r1 -> P2 t2 r2 -> interleave t1 t2 t ->
     Q t (Ok (r1, r2)) /\ Q t (Err CancelledError)) ->
  wp (gather2 p q) Q.
Proof.
  intros Hp Hq H. eapply wp_par; [exact Hp|exact Hq|].
  intros t1 t2 t r1 r2 H1 H2 Hi. destruct (H _ _ _ _ _ H1 H2 Hi) as [HO HC].
  split; [apply wp_ret|apply wp_raise]; by rewrite app_nil_r.
Qed.

Lemma wp_gather3 {X Y Z} (p : prog E X) (q : prog E Y) (s : prog E Z) P1 P2 P3 Q :
  wp p P1 -> wp q P2 -> wp s P3 ->
  (forall t1 t2 t3 t23 t r1 r2 r3, P1 t1 r1 -> P2 t2 r2 -> P3 t3 r3 ->
     interleave t2 t3 t23 -> interleave t1 t23 t ->
     Q t (Ok (r1, r2, r3)) /\ Q t (Err CancelledError)) ->
  wp (gather3 p q s) Q.
Proof.
  intros Hp Hq Hs H. unfold gather3. apply wp_bind. eapply (wp_gather2 _ _ P1 (fun t r =>
    exists t2 t3 r2 r3, P2 t2 r2 /\ P3 t3 r3 /\ interleave t2 t3 t /\ (r = Ok (r2, r3) \/ r = Err CancelledError))).
  - exact Hp.
  - eapply wp_gather2; [exact Hq|exact Hs|]. intros t2 t3 t r2 r3 H2 H3 Hi. split; exists t2, t3, r2, r3; auto.
  - intros t1 t23 t r1 r23 H1 (t2 & t3 & r2 & r3 & H2 & H3 & Hi23 & Hr) Hi.
    destruct (H _ _ _ _ _ _ _ _ H1 H2 H3 Hi23 Hi) as [HO HC]. split; [|exact HC].
    destruct Hr as [-> | ->]; [apply wp_ret|apply wp_raise]; by rewrite app_nil_r.
Qed.

(** A gathered list returns one outcome per program, in order; it raises
    only when it is itself cancelled. *)
Lemma wp_gather_list {X Y} (f : Y -> prog E X) (ys : list Y) (P : trace E -> Prop)
    (R : Y -> result X -> Prop) :
  P [] -> (forall t1 t2 t, P t1 -> P t2 -> interleave t1 t2 t -> P t) ->
  (forall y, In y ys -> wp (f y) (fun t r => P t /\ R y r)) ->
  wp (gather_list (map f ys))
     (fun t r => P t /\ match r with
                        | Ok rs => Forall2 R ys rs
                        | Err e => e = CancelledError
                        end).
Proof.
  intros H0 Hi. induction ys as [|y ys IH]; intros Hps; cbn [gather_list map].
  - apply wp_ret. split; [done|constructor].
  - apply wp_bind. eapply wp_gather2.
    + apply Hps. by left.
    + apply IH. intros q Hq. apply Hps. by right.
    + cbn beta iota. intros t1 t2 t r1 r2 [HP1 HR1] [HP2 HR2] Hil.
      assert (P t) by eauto. split; [|done]. apply wp_bind.
      destruct r2 as [rs|e]; cbn [of_result].
      * apply wp_ret, wp_ret. rewrite app_nil_r. split; auto.
      * apply wp_raise. rewrite app_nil_r. subst. split; auto.
Qed.

(** An outcome of a kind that only ever comes with a call of class [g]: one
    such outcome in a gathered list, one such call in the trace. *)
Lemma wp_gather_list_exists {X Y} (f : Y -> prog E X) (ys : list Y) (good : result X -> bool)
    (g : obs E -> bool) :
  (forall y, In y ys -> wp (f y) (fun t r => good r = true -> existsb g t = true)) ->
  wp (gather_list (map f ys))
     (fun t r => match r with
                 | Ok rs => length rs = length ys /\ (existsb good rs = true -> existsb g t = true)
                 | Err _ => True
                 end).
Proof.
  induction ys as [|y ys IH]; intros Hps; cbn [gather_list map]; [by apply wp_ret|].
  apply wp_bind. eapply wp_gather2; [apply Hps; by left|apply IH; intros q Hq; apply Hps; by right|].
  cbn beta iota. intros t1 t2 t r1 r2 H1 H2 Hi. split; [|done]. apply wp_bind.
  destruct r2 as [rs|e]; cbn [of_result]; [|by apply wp_raise].
  apply wp_ret, wp_ret. rewrite !app_nil_r. destruct H2 as [Hl H2]. simpl. split; [by f_equal|].
  rewrite (interleave_existsb g _ _ _ Hi), orb_true_iff. intros [Hg|Hg];
    [rewrite (H1 Hg)|rewrite (H2 Hg), orb_true_r]; done.
Qed.
End gather.

(** * Calls a program never makes *)
Definition never {E} `{Env E} {A} (f : obs E -> bool) (p : prog E A) : Prop :=
  wp p (fun t _ => Forall (fun o => f o = false) t).

Section never.
Context {E : Type -> Type} `{HE : Env E} (f : obs E -> bool).

Lemma never_ret {A} (a : A) : never f (Ret a).
Proof. apply wp_ret. constructor. Qed.

Lemma never_raise {A} e : never f (Raise (A := A) e).
Proof. apply wp_raise. constructor. Qed.

Lemma never_call {X} (ev : E X) : (forall r, f (Obs ev r) = false) -> never f (call ev).
Proof. intros H. apply wp_call. intros x _. by repeat constructor. Qed.

Lemma never_bind {A B} (p : prog E A) (k : A -> prog E B) :
  never f p -> (forall a, never f (k a)) -> never f (bind p k).
Proof.
  intros Hp Hk. apply wp_bind. eapply wp_mono; [exact Hp|]. intros t [a|e] Ht; [|done].
  eapply wp_mono; [apply Hk|]. intros t' r Ht'. by apply Forall_app.
Qed.

Lemma never_attempt {A} (p : prog E A) : never f p -> never f (attempt p).
Proof. intros Hp. apply wp_attempt. eapply wp_mono; [exact Hp|]. done. Qed.

Lemma never_try {A} (p : prog E A) h :
  never f p -> (forall e, never f (h e)) -> never f (try_except p h).
Proof.
  intros Hp Hh. apply wp_try. eapply wp_mono; [exact Hp|]. intros t [a|e] Ht; [done|].
  destruct (is_Exception e); [|done]. eapply wp_mono; [apply Hh|]. intros t' r Ht'. by apply Forall_app.
Qed.

Lemma never_gather2 {A B} (p : prog E A) (q : prog E B) :
  never f p -> never f q -> never f (gather2 p q).
Proof.
  intros Hp Hq. eapply wp_gather2; [exact Hp|exact Hq|]. intros t1 t2 t r1 r2 H1 H2 Hi.
  assert (Forall (fun o => f o = false) t) by exact (proj2 (interleave_Forall _ _ _ _ Hi) (conj H1 H2)). done.
Qed.

Lemma never_weaken {A} (g : obs E -> bool) (p : prog E A) :
  never g p -> (forall o, g o = false -> f o = false) -> never f p.
Proof. intros Hp Hg. eapply wp_mono; [exact Hp|]. intros t r Ht. eapply Forall_impl; [exact Ht|exact Hg]. Qed.

Lemma never_gather3 {A B C} (p : prog E A) (q : prog E B) (s : prog E C) :
  never f p -> never f q -> never f s -> never f (gather3 p q s).
Proof.
  intros Hp Hq Hs. unfold gather3. apply never_bind; [by repeat apply never_gather2|].
  intros [rx [[ry rz]|e]]; [apply never_ret|apply never_raise].
Qed.

Lemma never_gather_list {A} (ps : list (prog E A)) : Forall (never f) ps -> never f (gather_list ps).
Proof.
  induction 1 as [|p ps Hp _ IH]; cbn [gather_list]; [apply never_ret|].
  apply never_bind; [by apply never_gather2|intros [r rs]]. destruct rs; [|apply never_raise].
  apply never_bind; intros; apply never_ret.
Qed.

(** What a program never does, no execution of it did. *)
Lemma never_elim {A} (p : prog E A) t r :
  never f p -> exec p t r -> Forall (fun o => f o = false) t.
Proof. intros Hp Hr. exact (wp_elim _ _ _ _ Hp Hr). Qed.
End never.

Ltac never_step :=
  lazymatch goal with
  | |- never _ (Ret _) => apply never_ret
  | |- never _ (Raise _) => apply never_raise
  | |- never _ (bind _ _) => apply never_bind; [|intros ?]
  | |- never _ (attempt _) => apply never_attempt
  | |- never _ (try_except _ _) => apply never_try; [|intros ?]
  | |- never _ (gather2 _ _) => apply never_gather2
  | |- never _ (call _) => apply never_call; intros ?; reflexivity
  | |- never _ (of_result ?x) => destruct x; cbn [of_result]
  | |- never _ (if ?b then _ else _) => destruct b
  | |- never _ (match ?x with _ => _ end) => destruct x
  end.

Create HintDb never discriminated.
Ltac never_auto := repeat (first [never_step | solve [eauto 3 with never]]; cbn beta iota zeta).

(** * Calls that must wait for another one

    [waits f g P p]: in every run of [p] no call of class [g] precedes the
    first of class [f], and an outcome satisfying [P] means one of class [f]
    was made. *)
Definition waits {E} `{Env E} {A} (f g : obs E -> bool) (P : result A -> bool) (p : prog E A) : Prop :=
  wp p (fun t r => guarded f g t = true /\ (P r = true -> existsb f t = true)).

Section waits.
Context {E : Type -> Type} `{HE : Env E} (f g : obs E -> bool).

Lemma waits_never {A} (P : result A -> bool) (p : prog E A) :
  never g p -> (forall t r, exec p t r -> P r = false) -> waits f g P p.
Proof.
  intros Hp HP. apply wp_intro. intros t r Hr. split; [apply guarded_none; by eapply never_elim|].
  by rewrite (HP t r Hr).
Qed.

Lemma waits_from {A} (P : result A -> bool) (p : prog E A) :
  never g p -> wp p (fun t r => P r = true -> existsb f t = true) -> waits f g P p.
Proof.
  intros Hn Hp. eapply wp_mono; [exact (wp_conj _ _ _ Hn Hp)|]. intros t r [Ht Hr].
  split; [by apply guarded_none|done].
Qed.

Lemma waits_attempt {A} (P : result A -> bool) (p : prog E A) :
  waits f g P p -> waits f g (fun r => match r with Ok r => P r | Err _ => false end) (attempt p).
Proof. intros Hp. apply wp_attempt. exact Hp. Qed.

(** Harmless calls first. *)
Lemma waits_after {A B} (P : result B -> bool) (p : prog E A) (k : A -> prog E B) :
  never g p -> (forall a, waits f g P (k a)) -> (forall e, P (Err e) = false) ->
  waits f g P (bind p k).
Proof.
  intros Hp Hk He. apply wp_bind. eapply wp_mono; [exact Hp|]. intros t [a|e] Ht.
  - eapply wp_mono; [apply Hk|]. intros t' r [Hg Hr].
    rewrite guarded_app, existsb_app, Hg, (guarded_none f g t Ht), orb_true_r. split; [done|].
    intros HP. by rewrite (Hr HP), orb_true_r.
  - rewrite (guarded_none f g t Ht), He. done.
Qed.

(** The awaited call, then anything: what follows a success is unrestricted,
    what follows another outcome waits on. *)
Lemma waits_then {A B} (P : result A -> bool) (P' : result B -> bool) (p : prog E A) (k : A -> prog E B) :
  waits f g P p -> (forall a, P (Ok a) = false -> waits f g P' (k a)) -> (forall e, P' (Err e) = false) ->
  waits f g P' (bind p k).
Proof.
  intros Hp Hk He. apply wp_bind. eapply wp_mono; [exact Hp|]. intros t [a|e] [Hg Hr].
  - destruct (P (Ok a)) eqn:HP.
    + apply wp_intro. intros t' r _. rewrite guarded_app, existsb_app, Hg, (Hr eq_refl). done.
    + eapply wp_mono; [by apply Hk|]. intros t' r [Hg' Hr'].
      rewrite guarded_app, existsb_app, Hg, Hg', orb_true_r. split; [done|].
      intros HP'. by rewrite (Hr' HP'), orb_true_r.
  - by rewrite Hg, He.
Qed.

(** Beside a program that makes no call of class [g]. *)
Lemma waits_gather2 {A B} (P : result B -> bool) (p : prog E A) (q : prog E B) :
  never g p -> waits f g P q ->
  waits f g (fun r => match r with Ok (_, rb) => P rb | Err _ => false end) (gather2 p q).
Proof.
  intros Hp Hq. eapply wp_gather2; [exact Hp|exact Hq|]. intros t1 t2 t r1 r2 H1 [Hg Hr] Hi.
  assert (guarded f g t = true) as Hgt.
  { eapply guarded_interleave; [|exact Hg|exact H1]. by apply interleave_sym. }
  split; [|done]. split; [done|]. intros HP. rewrite (interleave_existsb f _ _ _ Hi), (Hr HP). apply orb_true_r.
Qed.

Lemma waits_gather2_l {A B} (P : result A -> bool) (p : prog E A) (q : prog E B) :
  waits f g P p -> never g q ->
  waits f g (fun r => match r with Ok (ra, _) => P ra | Err _ => false end) (gather2 p q).
Proof.
  intros Hp Hq. eapply wp_gather2; [exact Hp|exact Hq|]. intros t1 t2 t r1 r2 [Hg Hr] H2 Hi.
  assert (guarded f g t = true) as Hgt by (eapply guarded_interleave; eauto).
  split; [|done]. split; [done|]. intros HP. by rewrite (interleave_existsb f _ _ _ Hi), (Hr HP).
Qed.

(** The first and the last of four. *)
Lemma waits_gather4_first {A B C D} (P : result A -> bool) (p : prog E A) (q : prog E B) (s : prog E C) (v : prog E D) :
  waits f g P p -> never g q -> never g s -> never g v ->
  waits f g (fun r => match r with Ok (rp, _, _, _) => P rp | Err _ => false end) (gather4 p q s v).
Proof.
  intros Hp Hq Hs Hv. unfold gather4. apply wp_bind.
  eapply wp_mono; [apply (waits_gather2_l (fun r => match r with Ok (rp, _) => P rp | Err _ => false end))|].
  - by apply waits_gather2_l.
  - by apply never_gather2.
  - intros t [[[[rp rq]|e] [[rs rv]|e']]|e] [Hg Hr]; cbn beta iota in *; try (by split);
      apply wp_bind; cbn [of_result]; [apply wp_ret, wp_bind, wp_ret, wp_ret|apply wp_ret, wp_bind, wp_raise|apply wp_raise|
        apply wp_raise]; rewrite !app_nil_r; by split.
Qed.

Lemma waits_gather4_last {A B C D} (P : result D -> bool) (p : prog E A) (q : prog E B) (s : prog E C) (v : prog E D) :
  never g p -> never g q -> never g s -> waits f g P v ->
  waits f g (fun r => match r with Ok (_, _, _, rv) => P rv | Err _ => false end) (gather4 p q s v).
Proof.
  intros Hp Hq Hs Hv. unfold gather4. apply wp_bind.
  eapply wp_mono; [apply (waits_gather2 (fun r => match r with Ok (_, rv) => P rv | Err _ => false end))|].
  - by apply never_gather2.
  - by apply waits_gather2.
  - intros t [[[[rp rq]|e] [[rs rv]|e']]|e] [Hg Hr]; cbn beta iota in *; try (by split);
      apply wp_bind; cbn [of_result]; [apply wp_ret, wp_bind, wp_ret, wp_ret|apply wp_ret, wp_bind, wp_raise|apply wp_raise|
        apply wp_raise]; rewrite !app_nil_r; by split.
Qed.

(** A handler waits on whatever the tried program waited on. *)
Lemma waits_try {A} (P : result A -> bool) (p : prog E A) h :
  waits f g P p -> (forall e, waits f g P (h e)) -> waits f g P (try_except p h).
Proof.
  intros Hp Hh. apply wp_try. eapply wp_mono; [exact Hp|]. intros t [a|e] [Hg Hr]; [done|].
  destruct (is_Exception e); [|done]. eapply wp_mono; [apply Hh|]. intros t' r [Hg' Hr'].
  rewrite guarded_app, existsb_app, Hg, Hg', orb_true_r. split; [done|]. intros HP. by rewrite (Hr' HP), orb_true_r.
Qed.

(** A result passed on in another form. *)
Lemma waits_map {A B} (P : result A -> bool) (P' : result B -> bool) (p : prog E A) (k : A -> B) :
  waits f g P p -> (forall a, P' (Ok (k a)) = P (Ok a)) -> (forall e, P' (Err e) = false) ->
  waits f g P' (bind p (fun a => Ret (k a))).
Proof.
  intros Hp Hk He. apply wp_bind. eapply wp_mono; [exact Hp|]. intros t [a|e] [Hg Hr]; [|by rewrite He].
  apply wp_ret. rewrite app_nil_r, Hk. by split.
Qed.

Lemma waits_weaken {A} (P P' : result A -> bool) (p : prog E A) :
  waits f g P p -> (forall r, P' r = true -> P r = true) -> waits f g P' p.
Proof. intros H HP. eapply wp_mono; [exact H|]. intros t r [Hg Hr]. auto. Qed.
End waits.

(** Sequencing after a program that makes no call of class [f], remembering
    its run. *)
Lemma wp_never_bind {E} `{Env E} {A B} (f : obs E -> bool) (p : prog E A) (k : A -> prog E B)
    (Q : trace E -> result B -> Prop) :
  never f p ->
  (forall t a, Forall (fun o => f o = false) t -> exec p t (Ok a) -> wp (k a) (fun t' => Q (t ++ t'))) ->
  (forall t e, Forall (fun o => f o = false) t -> exec p t (Err e) -> Q t (Err e)) ->
  wp (bind p k) Q.
Proof.
  intros Hp Hok Herr. apply wp_bind, wp_intro. intros t [a|e] Ht; eauto using never_elim.
Qed.

(** The same, after calls [tp] that are not of class [f] either. *)
Lemma never_bind_after {E} `{Env E} {A B} (f : obs E -> bool) (p : prog E A) (k : A -> prog E B) (tp : trace E)
    (Q : trace E -> result B -> Prop) :
  never f p -> Forall (fun o => f o = false) tp ->
  (forall t a, Forall (fun o => f o = false) (tp ++ t) -> exec p t (Ok a) -> wp (k a) (fun t' => Q ((tp ++ t) ++ t'))) ->
  (forall t e, Forall (fun o => f o = false) (tp ++ t) -> exec p t (Err e) -> Q (tp ++ t) (Err e)) ->
  wp (bind p k) (fun t => Q (tp ++ t)).
Proof.
  intros Hp Htp Hk He. eapply wp_never_bind; [exact Hp| |].
  - intros t a Ht Hr. eapply wp_mono; [apply Hk; [by apply Forall_app|exact Hr]|]. intros t' r. cbn beta. by rewrite <- app_assoc.
  - intros t e Ht Hr. apply He; [by apply Forall_app|done].
Qed.

Lemma never_rest_after {E} `{Env E} {A} (f : obs E -> bool) (p : prog E A) (tp : trace E) (Q : trace E -> result A -> Prop) :
  never f p -> Forall (fun o => f o = false) tp -> (forall t r, Forall (fun o => f o = false) t -> Q t r) ->
  wp p (fun t => Q (tp ++ t)).
Proof. intros Hp Htp HQ. eapply wp_mono; [exact Hp|]. intros t r Ht. apply HQ. by apply Forall_app. Qed.
