(* ===== verification/Hoare.v ===== *)
(** Programs that keep state: rules for the programs of [Prog] run against a
    handler.  The handler owns the state - the module's variables, what the
    process holds open - and answers the calls that leave the process from a
    script, so a statement about every initial state is one about every answer
    the outside can give. *)

From S2P Require Import Prelude Prog.

Section hoare.
Context {E : Type -> Type} {S : Type} (h : forall X, E X -> S -> result X * S).

(** [p], run in [s], ends with an outcome and a state that satisfy [Q]. *)
Definition ends {A} (p : prog E A) (Q : result A -> S -> Prop) (s : S) : Prop :=
  Q (run_result h p s) (run_state h p s).

Lemma hoare_mono {A} (p : prog E A) (Q Q' : result A -> S -> Prop) s :
  ends p Q s -> (forall r s', Q r s' -> Q' r s') -> ends p Q' s.
Proof. unfold ends. auto. Qed.

Lemma hoare_ret {A} (a : A) (Q : result A -> S -> Prop) s : Q (Ok a) s -> ends (Ret a) Q s.
Proof. done. Qed.

Lemma hoare_raise {A} e (Q : result A -> S -> Prop) s : Q (Err e) s -> ends (Raise e) Q s.
Proof. done. Qed.

Lemma hoare_call {X} (ev : E X) (Q : result X -> S -> Prop) s :
  Q (h X ev s).1 (h X ev s).2 -> ends (call ev) Q s.
Proof.
  unfold ends, run_result, run_state, call. cbn. destruct (h X ev s) as [[a|e] s']; done.
Qed.

Lemma hoare_bind {A B} (p : prog E A) (f : A -> prog E B) Q s :
  ends p (fun r s' => match r with Ok a => ends (f a) Q s' | Err e => Q (Err e) s' end) s ->
  ends (bind p f) Q s.
Proof.
  unfold ends. destruct (run_bind h p f s) as [H1 H2]. fold (run_result h (bind p f) s) in H1.
  fold (run_state h (bind p f) s) in H2. rewrite H1, H2. by destruct (run_result h p s).
Qed.

Lemma run_attempt {A} (p : prog E A) s :
  run_result h (attempt p) s = Ok (run_result h p s) /\ run_state h (attempt p) s = run_state h p s.
Proof.
  unfold run_result, run_state. revert s.
  induction p as [A a|A e|A X ev k IH|A X Y p1 _ p2 _ k IH]; intros s; simpl; [done..| |].
  - destruct (h X ev s) as [x s1]. specialize (IH x s1). destruct (run h (attempt (k x)) s1) as [[t r] s2].
    destruct (run h (k x) s1) as [[t' r'] s2']. exact IH.
  - destruct (run h p1 s) as [[t1 r1] s1], (run h p2 s1) as [[t2 r2] s2].
    specialize (IH (Ok (r1, r2)) s2). destruct (run h (attempt (k (Ok (r1, r2)))) s2) as [[t r] s3].
    destruct (run h (k (Ok (r1, r2))) s2) as [[t' r'] s3']. exact IH.
Qed.

Lemma hoare_attempt {A} (p : prog E A) Q s : ends p (fun r s' => Q (Ok r) s') s -> ends (attempt p) Q s.
Proof. unfold ends. destruct (run_attempt p s) as [-> ->]. done. Qed.

Lemma hoare_try {A} (p : prog E A) (f : exn -> prog E A) Q s :
  ends p (fun r s' => match r with
                      | Ok a => Q (Ok a) s'
                      | Err e => if is_Exception e then ends (f e) Q s' else Q (Err e) s'
                      end) s ->
  ends (try_except p f) Q s.
Proof.
  intros H. apply hoare_bind, hoare_attempt. eapply hoare_mono; [exact H|].
  intros [a|e] s' Hs; [by apply hoare_ret|]. destruct (is_Exception e); [exact Hs|by apply hoare_raise].
Qed.

(** One operation after another, in any order. *)
Inductive reachable {A} (ops : prog E A -> Prop) : S -> S -> Prop :=
  | reach_refl s : reachable ops s s
  | reach_step s p s' : ops p -> reachable ops (run_state h p s) s' -> reachable ops s s'.

Lemma reachable_inv {A} (ops : prog E A -> Prop) (I : S -> Prop) s s' :
  (forall p s, ops p -> I s -> I (run_state h p s)) -> reachable ops s s' -> I s -> I s'.
Proof. intros Hstep. induction 1 as [|s p s' Hp _ IH]; eauto. Qed.
End hoare.

Ltac hoare_step :=
  cbn [of_result negb is_Exception]; cbn match;
  lazymatch goal with
  | |- ends _ (bind _ _) _ _ => apply hoare_bind
  | |- ends _ (attempt _) _ _ => apply hoare_attempt
  | |- ends _ (try_except _ _) _ _ => apply hoare_try
  | |- ends _ (call _) _ _ => apply hoare_call
  | |- ends _ (Ret _) _ _ => apply hoare_ret
  | |- ends _ (Raise _) _ _ => apply hoare_raise
  end; cbn beta iota.
