(* ===== verification/Text.v ===== *)
(** Python strings: sequences of Unicode code points and the [str] methods
    the source uses on user text. *)

From Stdlib Require Import DecimalZ DecimalPos DecimalFacts.
From S2P Require Import Prelude.

(** A Python [str]. *)
Abbreviation ustr := (list Z).

Fixpoint u (s : string) : ustr :=
  match s with
  | EmptyString => []
  | String c s' => Z.of_N (N_of_ascii c) :: u s'
  end.

(** The [string] of code points below 256. *)
Fixpoint s_of (s : ustr) : string :=
  match s with
  | [] => EmptyString
  | c :: s' => String (ascii_of_N (Z.to_N c)) (s_of s')
  end.

Lemma s_of_u s : s_of (u s) = s.
Proof. induction s as [|c s IH]; simpl; [done|]. by rewrite N2Z.id, ascii_N_embedding, IH. Qed.

Definition ch (c : ascii) : Z := Z.of_N (N_of_ascii c).
Definition c_minus := ch "-".
Definition c_plus := ch "+".
Definition c_under := ch "_".
Definition c_slash := ch "/".
Definition c_at := ch "@".

(** * The Unicode character database

    The interpreter's per-character tables.  The laws fix them on ASCII, which
    is all the theorems use; [ascii_ucd] is the table that knows nothing
    else. *)
Definition ascii_digit (c : Z) : option Z :=
  if (48 <=? c) && (c <=? 57) then Some (c - 48) else None.
Definition ascii_lower_letter (c : Z) : bool := (97 <=? c) && (c <=? 122).
Definition ascii_upper_letter (c : Z) : bool := (65 <=? c) && (c <=? 90).
Definition ascii_space (c : Z) : bool := ((9 <=? c) && (c <=? 13)) || ((28 <=? c) && (c <=? 32)).
Definition ascii_alnum (c : Z) : bool :=
  match ascii_digit c with Some _ => true | None => ascii_lower_letter c || ascii_upper_letter c end.
Definition ascii_lower (c : Z) : Z := if ascii_upper_letter c then c + 32 else c.
Definition ascii_upper (c : Z) : Z := if ascii_lower_letter c then c - 32 else c.

Class UCD := {
  decimal_digit : Z -> option Z;
  is_space : Z -> bool;
  is_alnum : Z -> bool;
  is_digit : Z -> bool;
  lower : Z -> ustr;
  upper : Z -> ustr;
  casefold : Z -> ustr;
  decimal_digit_ascii c : c < 128 -> decimal_digit c = ascii_digit c;
  is_space_ascii c : c < 128 -> is_space c = ascii_space c;
  is_alnum_ascii c : c < 128 -> is_alnum c = ascii_alnum c;
  is_digit_ascii c : c < 128 -> is_digit c = bool_decide (is_Some (ascii_digit c));
  lower_ascii c : c < 128 -> lower c = [ascii_lower c];
  upper_ascii c : c < 128 -> upper c = [ascii_upper c];
  casefold_ascii c : c < 128 -> casefold c = [ascii_lower c];
  decimal_digit_range c d : decimal_digit c = Some d -> 0 <= d <= 9;
  is_digit_decimal c : is_Some (decimal_digit c) -> is_digit c = true
}.

Lemma ascii_digit_range c d : ascii_digit c = Some d -> 0 <= d <= 9 /\ c = 48 + d.
Proof.
  unfold ascii_digit. destruct (_ && _) eqn:H; [|done]. intros [= <-]. to_prop. lia.
Qed.

#[global, program] Instance ascii_ucd : UCD := {|
  decimal_digit := ascii_digit;
  is_space := ascii_space;
  is_alnum := ascii_alnum;
  is_digit c := bool_decide (is_Some (ascii_digit c));
  lower c := [ascii_lower c];
  upper c := [ascii_upper c];
  casefold c := [ascii_lower c]
|}.
Solve Obligations with try done.
Next Obligation. simpl. intros c d H%ascii_digit_range. tauto. Defined.
Next Obligation. simpl. intros c H. by apply bool_decide_eq_true. Defined.
(* Only a default for examples: statements quantify over every [UCD]. *)
#[global] Typeclasses Opaque ascii_ucd.
#[global] Remove Hints ascii_ucd : typeclass_instances.

(** * Methods of [str] *)
Section str.
Context `{UCD}.

Definition str_lower (s : ustr) : ustr := flat_map lower s.
Definition str_upper (s : ustr) : ustr := flat_map upper s.
Definition str_casefold (s : ustr) : ustr := flat_map casefold s.

Fixpoint drop_while (f : Z -> bool) (s : ustr) : ustr :=
  match s with
  | [] => []
  | c :: s' => if f c then drop_while f s' else s
  end.

(** [s.lstrip(chars)], [s.rstrip(chars)], [s.strip(chars)]; with no argument
    the set is white space. *)
Definition lstrip (f : Z -> bool) (s : ustr) : ustr := drop_while f s.
Definition rstrip (f : Z -> bool) (s : ustr) : ustr := rev (drop_while f (rev s)).
Definition strip (f : Z -> bool) (s : ustr) : ustr := rstrip f (lstrip f s).
Definition strip_ws (s : ustr) : ustr := strip is_space s.

(** [s.split()]: maximal runs of non-space characters. *)
Fixpoint split_ws_acc (cur : ustr) (s : ustr) : list ustr :=
  match s with
  | [] => match cur with [] => [] | _ => [rev cur] end
  | c :: s' =>
      if is_space c then
        match cur with [] => split_ws_acc [] s' | _ => rev cur :: split_ws_acc [] s' end
      else split_ws_acc (c :: cur) s'
  end.
Definition split_ws (s : ustr) : list ustr := split_ws_acc [] s.

Fixpoint take_while (f : Z -> bool) (s : ustr) : ustr :=
  match s with
  | [] => []
  | c :: s' => if f c then c :: take_while f s' else []
  end.

(** [s.split(None, 1)]: the first word and the rest, which keeps its
    trailing but not its leading white space. *)
Definition split_ws_1 (s : ustr) : list ustr :=
  let s1 := drop_while is_space s in
  match s1 with
  | [] => []
  | _ =>
      let w := take_while (fun c => negb (is_space c)) s1 in
      let rest := drop_while is_space (drop_while (fun c => negb (is_space c)) s1) in
      match rest with [] => [w] | _ => [w; rest] end
  end.

(** [s.isdigit()] *)
Definition isdigit (s : ustr) : bool :=
  match s with [] => false | _ => forallb is_digit s end.
End str.

Fixpoint startswith (s p : ustr) {struct p} : bool :=
  match p, s with
  | [], _ => true
  | a :: p', b :: s' => (a =? b) && startswith s' p'
  | _ :: _, [] => false
  end.

(** [p in s] for strings *)
Fixpoint contains (s p : ustr) : bool :=
  startswith s p || match s with [] => false | _ :: s' => contains s' p end.

(** [s.partition(sep)] for a one-character separator: head, found, tail. *)
Fixpoint partition1 (sep : Z) (s : ustr) : ustr * bool * ustr :=
  match s with
  | [] => ([], false, [])
  | c :: s' =>
      if c =? sep then ([], true, s')
      else let '(h, b, t) := partition1 sep s' in (c :: h, b, t)
  end.

(** [sep.join(parts)] *)
Fixpoint join (sep : ustr) (parts : list ustr) : ustr :=
  match parts with
  | [] => []
  | [p] => p
  | p :: ps => p ++ sep ++ join sep ps
  end.

Definition ueqb (a b : ustr) : bool := bool_decide (a = b).

(** * Integers as text *)

Fixpoint uint_str (d : Decimal.uint) : ustr :=
  match d with
  | Decimal.Nil => []
  | Decimal.D0 d => 48 :: uint_str d | Decimal.D1 d => 49 :: uint_str d
  | Decimal.D2 d => 50 :: uint_str d | Decimal.D3 d => 51 :: uint_str d
  | Decimal.D4 d => 52 :: uint_str d | Decimal.D5 d => 53 :: uint_str d
  | Decimal.D6 d => 54 :: uint_str d | Decimal.D7 d => 55 :: uint_str d
  | Decimal.D8 d => 56 :: uint_str d | Decimal.D9 d => 57 :: uint_str d
  end.

(** [str(z)] *)
Definition str_int (z : Z) : ustr :=
  match Z.to_int z with
  | Decimal.Pos d => uint_str d
  | Decimal.Neg d => c_minus :: uint_str d
  end.

Section int.
Context `{UCD}.

(** The digits of a literal: an underscore is allowed between two digits. *)
Fixpoint int_digits (acc : Z) (after_digit : bool) (s : ustr) : option Z :=
  match s with
  | [] => if after_digit then Some acc else None
  | c :: s' =>
      match decimal_digit c with
      | Some d => int_digits (10 * acc + d) true s'
      | None => if (c =? c_under) && after_digit then int_digits acc false s' else None
      end
  end.

(** [int(s)]; [None] is [ValueError]. *)
Definition py_int (s : ustr) : option Z :=
  match strip_ws s with
  | [] => None
  | c :: s' =>
      if c =? c_minus then Z.opp <$> int_digits 0 false s'
      else if c =? c_plus then int_digits 0 false s'
      else int_digits 0 false (c :: s')
  end.
End int.

(** * Lemmas *)

Lemma startswith_app s t : startswith (s ++ t) s = true.
Proof. induction s as [|c s IH]; simpl; [done|]. by rewrite Z.eqb_refl. Qed.

Lemma startswith_spec s p : startswith s p = true <-> exists t, s = p ++ t.
Proof.
  revert s. induction p as [|a p IH]; intros s; simpl.
  - split; [eauto|done].
  - destruct s as [|b s]; [split; [done|intros [t [=]]]|].
    rewrite andb_true_iff, Z.eqb_eq, IH. split.
    + intros [-> [t ->]]. eauto.
    + intros [t [= -> ->]]. eauto.
Qed.

Lemma uint_str_digits d : Forall (fun c => 48 <= c <= 57) (uint_str d).
Proof. induction d; simpl; constructor; auto; lia. Qed.

Lemma str_int_chars z : Forall (fun c => 48 <= c <= 57 \/ (z < 0 /\ c = c_minus)) (str_int z).
Proof.
  unfold str_int. destruct (Z.to_int z) as [d|d] eqn:Hz.
  - eapply Forall_impl; [apply uint_str_digits|]. simpl. lia.
  - constructor; [|eapply Forall_impl; [apply uint_str_digits|]; simpl; lia].
    right. split; [|done]. destruct z as [|p|p]; simpl in Hz; try discriminate; lia.
Qed.

Lemma uint_str_nonnil d : d <> Decimal.Nil -> uint_str d <> [].
Proof. by destruct d. Qed.

Lemma to_int_nonnil z d : Z.to_int z = Decimal.Pos d \/ Z.to_int z = Decimal.Neg d -> d <> Decimal.Nil.
Proof.
  destruct z as [|p|p]; simpl; intros [[= <-]|[= <-]]; try done;
    apply DecimalPos.Unsigned.to_uint_nonnil.
Qed.

Lemma str_int_nonnil z : str_int z <> [].
Proof.
  unfold str_int. destruct (Z.to_int z) as [d|d] eqn:Hz; [|done].
  apply uint_str_nonnil. eauto using to_int_nonnil.
Qed.

Lemma drop_while_none f s : Forall (fun c => f c = false) s -> drop_while f s = s.
Proof. destruct 1 as [|c s Hc]; simpl; [done|]. by rewrite Hc. Qed.

Lemma strip_none f s : Forall (fun c => f c = false) s -> strip f s = s.
Proof.
  intros H. unfold strip, lstrip, rstrip. rewrite (drop_while_none f s H).
  rewrite drop_while_none; [apply rev_involutive|]. by apply Forall_rev.
Qed.

Lemma take_while_all f s : Forall (fun c => f c = true) s -> take_while f s = s.
Proof. induction 1 as [|c s Hc _ IH]; simpl; [done|]. by rewrite Hc, IH. Qed.

Lemma drop_while_all f s : Forall (fun c => f c = true) s -> drop_while f s = [].
Proof. induction 1 as [|c s Hc _ IH]; simpl; [done|]. by rewrite Hc, IH. Qed.

Section int_lemmas.
Context `{UCD}.

Lemma decimal_digit_48 d : 0 <= d <= 9 -> decimal_digit (48 + d) = Some d.
Proof.
  intros Hd. rewrite decimal_digit_ascii by lia. unfold ascii_digit.
  replace ((48 <=? 48 + d) && (48 + d <=? 57)) with true; [f_equal; lia|].
  symmetry. apply andb_true_iff. rewrite !Z.leb_le. lia.
Qed.

Ltac digit_step :=
  match goal with
  | |- context[decimal_digit ?n] =>
      replace (decimal_digit n) with (Some (n - 48))
        by (symmetry; apply (decimal_digit_48 (n - 48)); lia); simpl
  end.

Lemma int_digits_uint_acc d acc b :
  b = true \/ d <> Decimal.Nil ->
  int_digits (Z.pos acc) b (uint_str d) = Some (Z.pos (Pos.of_uint_acc d acc)).
Proof.
  revert acc b. induction d as [|d IH|d IH|d IH|d IH|d IH|d IH|d IH|d IH|d IH|d IH];
    intros acc b Hb; cbn [uint_str int_digits Pos.of_uint_acc];
    [by destruct Hb as [->|?]|..];
    digit_step; rewrite <- (IH _ true) by auto; f_equal; lia.
Qed.

Lemma int_digits_uint d b :
  b = true \/ d <> Decimal.Nil -> int_digits 0 b (uint_str d) = Some (Z.of_uint d).
Proof.
  revert b. induction d as [|d IH|d _|d _|d _|d _|d _|d _|d _|d _|d _];
    intros b Hb; cbn [uint_str int_digits]; [by destruct Hb as [->|?]|..];
    digit_step; [by apply IH; left|..]; unfold Z.of_uint; simpl;
    match goal with |- int_digits ?z _ _ = Some (Z.pos (Pos.of_uint_acc _ ?p)) =>
      change z with (Z.pos p) end;
    apply int_digits_uint_acc; auto.
Qed.

Lemma str_int_no_space z : Forall (fun c => is_space c = false) (str_int z).
Proof.
  eapply Forall_impl; [apply str_int_chars|]. intros c Hc.
  rewrite is_space_ascii by (unfold c_minus, ch in *; simpl in *; lia).
  unfold ascii_space, c_minus, ch in *. simpl in *.
  destruct Hc as [Hc|[_ ->]]; [|done]. apply orb_false_iff.
  rewrite !andb_false_iff, !Z.leb_gt. lia.
Qed.

(** [int(str(z)) == z] *)
Lemma py_int_str_int z : py_int (str_int z) = Some z.
Proof.
  unfold py_int, strip_ws. rewrite strip_none by apply str_int_no_space.
  pose proof (DecimalZ.of_to z) as Hz. unfold str_int.
  destruct (Z.to_int z) as [d|d] eqn:Hd;
    assert (d <> Decimal.Nil) as Hn by eauto using to_int_nonnil.
  - pose proof (uint_str_digits d) as Hf. pose proof (int_digits_uint d false (or_intror Hn)) as Hi.
    destruct (uint_str d) as [|c s] eqn:Hu; [by destruct (uint_str_nonnil d)|].
    inversion Hf as [|? ? Hc]; subst.
    replace (c =? c_minus) with false by (symmetry; apply Z.eqb_neq; unfold c_minus, ch; simpl; lia).
    replace (c =? c_plus) with false by (symmetry; apply Z.eqb_neq; unfold c_plus, ch; simpl; lia).
    rewrite Hi. done.
  - rewrite Z.eqb_refl, int_digits_uint by auto. simpl. by rewrite <- Hz.
Qed.
End int_lemmas.

Lemma u_s_of s : Forall (fun c => 0 <= c < 256) s -> u (s_of s) = s.
Proof.
  induction 1 as [|c s Hc _ IH]; [done|]. cbn [s_of u]. rewrite IH, N_ascii_embedding by lia. f_equal. lia.
Qed.

Lemma append_inj (p x y : string) : (p ++ x = p ++ y)%string -> x = y.
Proof. induction p as [|c p IH]; simpl; [done|]. intros [= H]. by apply IH. Qed.

Lemma prefix_append (p x : string) : String.prefix p (p ++ x) = true.
Proof.
  induction p as [|c p IH]; simpl; [by destruct x|]. destruct (Ascii.ascii_dec c c); [exact IH|done].
Qed.

Lemma append_assoc (x y z : string) : (x ++ (y ++ z) = (x ++ y) ++ z)%string.
Proof. induction x as [|c x IH]; [done|]. exact (f_equal (String c) IH). Qed.
