(* ===== verification/World.v ===== *)
(** The outside world of the bot: the calls it makes to MongoDB, Telegram, the
    two-level cache and the clock, the documents they exchange, and the
    configuration.  Nothing here gives these calls a meaning: an answer is
    whatever the environment returns. *)

From S2P Require Import Prelude Prog Text.

(** * Documents

    BSON values as the source's dicts hold them: a document is the list of its
    fields in order; a date is its microseconds since the epoch. *)
Inductive bson : Type :=
  | BNull
  | BBool (b : bool)
  | BInt (z : Z)
  | BStr (s : string)
  | BDate (us : Z)
  | BId (s : string)
  | BDoc (fields : list (string * bson))
  | BArr (items : list bson).

Abbreviation doc := (list (string * bson)).

(** [d.get(k)] *)
Fixpoint dget (k : string) (d : doc) : option bson :=
  match d with
  | [] => None
  | (k', v) :: d' => if String.eqb k k' then Some v else dget k d'
  end.

Definition bint (b : bson) : option Z :=
  match b with BInt z => Some z | _ => None end.
Definition bstr (b : bson) : option string :=
  match b with BStr s => Some s | _ => None end.
Definition boptZ (o : option Z) : bson :=
  match o with Some z => BInt z | None => BNull end.
Definition boptstr (o : option string) : bson :=
  match o with Some s => BStr s | None => BNull end.

(** [d.get(k, default)] for an integer and for a string field, which a document
    that follows its [TypedDict] holds: a value of another type reads as the
    default. *)
Definition dget_int (k : string) (d : doc) (dflt : Z) : Z :=
  match dget k d ≫= bint with Some z => z | None => dflt end.
Definition dget_str (k : string) (d : doc) (dflt : string) : string :=
  match dget k d ≫= bstr with Some s => s | None => dflt end.

(** * Message texts and keyboards

    Texts are kept symbolic: which catalog key or builder produced them and
    with which arguments.  Rendering them is the business of [i18n] and of the
    [parse_logmsg] and [keyboards] builders. *)
Inductive text : Type :=
  | TStr (s : string)
  | TInt (z : Z)
  | TNone
  | TKey (key : string) (locale : ustr) (args : list (string * text))
  | TBuild (builder : string) (args : list text)
  | TCat (parts : list text).

Definition TOptStr (o : option string) : text :=
  match o with Some s => TStr s | None => TNone end.
Definition TOptInt (o : option Z) : text :=
  match o with Some z => TInt z | None => TNone end.
(** [user_ref(id, name)] *)
Definition TUser (user_id : Z) (name : string) : text :=
  TBuild "user_ref" [TInt user_id; TStr name].
(** [user_ref(id, name, username)] *)
Definition TUserRef (user_id : Z) (name : string) (username : option string) : text :=
  TBuild "user_ref" [TInt user_id; TStr name; TOptStr username].

Abbreviation markup := (option text).

(** * Incoming updates: the fields the modelled handlers read. *)
Record message := Message {
  message_id : Z;
  msg_chat_id : Z;
  msg_chat_type : string;
  msg_text : option string
}.

Record update := Update {
  effective_user : option Z;
  effective_chat : option (string * Z);
  effective_message : option message;
  has_callback : bool
}.

(** What Telegram says of a chat or an account, through the Bot API and
    through the MTProto client. *)
Record chat_info := ChatInfo {
  ci_id : Z;
  ci_first_name : option string;
  ci_username : option string;
  ci_last_name : option string
}.

Record mt_user := MtUser {
  mt_id : Z;
  mt_first_name : option string;
  mt_username : option string;
  mt_last_name : option string;
  mt_is_bot : bool
}.

(** Write acknowledgements of the MongoDB driver. *)
Record update_result := UpdateResult {
  matched_count : Z;
  modified_count : Z;
  upserted : bool
}.

(** The media fields of a proof message: the file ids of its photo sizes, and
    of its video, animation and document. *)
Record proof_message := ProofMessage {
  photo : list string;
  video : option string;
  animation : option string;
  document : option string
}.

(** A value of [ctx.user_data]. *)
Inductive ud_value : Type := UdBson (v : bson) | UdText (t : text) | UdMsgs (ms : list proof_message).
Coercion UdBson : bson >-> ud_value.

(** * The calls *)
Inductive eff : Type -> Type :=
  (* MongoDB; [sort] pairs a field with 1 or -1.  Projections only drop fields
     no caller reads and are left out. *)
  | FindOne (c : string) (filter : doc) (sort : list (string * Z)) : eff (option doc)
  | Find (c : string) (filter : doc) (sort : list (string * Z))
         (skip : Z) (limit : option Z) : eff (list doc)
  | InsertOne (c : string) (d : doc) : eff string
  | UpdateOne (c : string) (filter update : doc) (upsert : bool) : eff update_result
  | UpdateMany (c : string) (filter update : doc) : eff update_result
  | ReplaceOne (c : string) (filter replacement : doc) (upsert : bool) : eff update_result
  | DeleteOne (c : string) (filter : doc) : eff Z
  | DeleteMany (c : string) (filter : doc) : eff Z
  | FindOneAndUpdate (c : string) (filter update : doc) (upsert : bool)
      : eff (option doc)
  | FindOneAndReplace (c : string) (filter replacement : doc) (upsert : bool)
      (sort : list (string * Z)) : eff (option doc)
  | FindOneAndDelete (c : string) (filter : doc) : eff (option doc)
  | CountDocuments (c : string) (filter : doc) : eff Z
  | EstimatedDocumentCount (c : string) : eff Z
  | Distinct (c : string) (field : string) (filter : doc) : eff (list bson)
  | Aggregate (c : string) (pipeline : list doc) : eff (list doc)
  (* in-process and Redis layers of a [TwoLevelCache], named by its prefix *)
  | MemGet (cache key : string) : eff (option bson)
  | MemPut (cache key : string) (v : bson) : eff unit
  | MemInvalidate (cache key : string) : eff unit
  | MemClear (cache : string) : eff unit
  | LockAcquire (cache key : string) : eff unit
  | LockRelease (cache key : string) : eff unit
  | LockDrop (cache key : string) : eff unit
  | RedisClient : eff bool
  | RedisGet (rkey : string) : eff (option string)
  (* the codec of [Codec] over the third-party JSON library: either may raise *)
  | DecodeRedisValue (raw : string) : eff bson
  | EncodeRedisValue (v : bson) : eff string
  | RedisEnqueueSet (rkey payload : string) : eff unit
  | RedisEnqueueDelete (rkey : string) : eff unit
  | RedisEnqueueClear (prefix : string) : eff bool
  | RedisAwaitClear (prefix : string) : eff unit
  | RedisMarkOp (ok : bool) : eff unit
  (* a bare [cachetools.TTLCache] *)
  | TtlGet (cache : string) (key : Z) : eff (option bson)
  | TtlPut (cache : string) (key : Z) (v : bson) : eff unit
  | TtlPop (cache : string) (key : Z) : eff unit
  (* the Telegram circuit breaker *)
  | CbTryAcquire : eff bool
  | CbRecordSuccess : eff unit
  | CbRecordFailure : eff unit
  | CbReleaseProbe : eff unit
  (* Telegram *)
  | BanChatMember (chat user : Z) : eff unit
  | UnbanChatMember (chat user : Z) (only_if_banned : bool) : eff unit
  | RestrictChatMember (chat user : Z) (can_send : bool) (until : option Z) : eff unit
  | DeclineChatJoinRequest (chat user : Z) : eff unit
  | LeaveChat (chat : Z) : eff unit
  | SendMessage (chat : Z) (t : text) (thread : option Z) (kb : markup) : eff Z
  | SendMedia (chat : Z) (kind file_id : string) (caption : option text)
      (thread : option Z) : eff Z
  | SendMediaGroup (chat : Z) (media : list (string * string * option text))
      (thread : option Z) : eff (list Z)
  | ForwardMessage (from_chat msg chat : Z) (thread : option Z) : eff Z
  | DeleteMessage (chat msg : Z) : eff unit
  | EditMessageText (chat msg : Z) (t : text) (kb : markup) : eff unit
  | EditMessageReplyMarkup (chat msg : Z) (kb : markup) : eff unit
  | ReplyText (msg : Z) (t : text) (kb : markup) : eff Z
  | AnswerCallback (t : option text) : eff unit
  | GetChatMember (chat user : Z) : eff doc
  | GetChatAdministrators (chat : Z) : eff (list mt_user)
  (* [get_chat] by id or by ["@name"], within its deadline *)
  | GetChat (ident : Z + string) : eff chat_info
  (* the MTProto client: whether it is up; its two lookups *)
  | MtReady : eff bool
  (* the client object: created, connected?, started, stopped *)
  | MtNew : eff bson
  | MtConnected (client : bson) : eff bool
  | MtStart (client : bson) : eff unit
  | MtStop (client : bson) : eff unit
  | MtGetUsers (user : Z) : eff mt_user
  | MtResolveUsername (name : string) : eff (list mt_user)
  (* the conversation's own data: [ctx.user_data] *)
  | UdGet (key : string) : eff (option ud_value)
  | UdPut (key : string) (v : ud_value) : eff unit
  | UdPop (key : string) : eff unit
  | UdPopPrefix (prefix : string) : eff unit
  (* a module's own variables *)
  | VarGet (name : string) : eff bson
  | VarPut (name : string) (v : bson) : eff unit
  (* one round trip of a Redis-backed limiter, [0] when the call is allowed *)
  | LimiterCheck (prefix : string) (user : Z) : eff Z
  | HandlerBody : eff unit
  (* clock, in microseconds, and randomness *)
  | UtcNow : eff Z
  | Sleep (ms : Z) : eff unit
  (* whether the deadline of an [asyncio.timeout] block passed before its end *)
  | DeadlinePassed (ms : Z) : eff bool
  | MakeShortId : eff string.

(** Calls answered by the process's own memory: they always return. *)
Definition in_process {X} (ev : eff X) : bool :=
  match ev with
  | MemGet _ _ | MemPut _ _ _ | MemInvalidate _ _ | MemClear _
  | LockRelease _ _ | LockDrop _ _
  | RedisClient | RedisEnqueueSet _ _ | RedisEnqueueDelete _ | RedisEnqueueClear _
  | RedisMarkOp _ | TtlGet _ _ | TtlPut _ _ _ | TtlPop _ _
  | CbTryAcquire | CbRecordSuccess | CbRecordFailure | CbReleaseProbe
  | MtReady | MtNew | MtConnected _ | VarGet _ | VarPut _ _ | UdGet _ | UdPut _ _ | UdPop _ | UdPopPrefix _
  | UtcNow | DeadlinePassed _ | MakeShortId => true
  | _ => false
  end.

(** Calls that do not suspend: they may raise, but cannot be cancelled. *)
Definition synchronous {X} (ev : eff X) : bool :=
  match ev with DecodeRedisValue _ | EncodeRedisValue _ => true | _ => false end.

#[global] Instance world_env : Env eff :=
  fun X ev r =>
    if in_process ev then is_err r = false
    else if synchronous ev then is_cancel r = false
    else True.

Lemma synchronous_Exception {X} (ev : eff X) e :
  synchronous ev = true -> admits ev (Err e) -> is_Exception e = true.
Proof. destruct ev; try discriminate; intros _; destruct e; done. Qed.

(** [asyncio] program over these calls. *)
Abbreviation io := (prog eff).

(** [db_call(coro)]: the awaited MongoDB command.  The breaker it goes through
    ([CircuitBreaker.cb_call]) adds one more exception the command may end
    with, [CircuitOpenError]. *)
Definition db_call {X} (ev : eff X) : io X := call ev.

(** [async with asyncio.timeout(..)]: when the deadline passes, the call the
    block waits for is cancelled - one more answer it may give - and what the
    block ends with becomes a [TimeoutError]. *)
Definition with_timeout {A} (ms : Z) (p : io A) : io A :=
  r <- attempt p ;;
  late <- call (DeadlinePassed ms) ;;
  if late : bool then Raise TimeoutError else of_result r.

(** * Configuration

    The values of [cfg] the modelled code reads. *)
Record config := Config {
  cfg_warn_limit : Z;
  cfg_fed_warn_limit : Z;
  cfg_logs : Z * option Z;
  cfg_proofs : Z * option Z;
  cfg_main_group : Z;
  cfg_exec_group : Z;
  cfg_community_name : string;
  cfg_appeals : Z * option Z;
  cfg_appeal_log_handle : string;
  cfg_appeal_discussion_topic : Z;
  cfg_mtproto_enabled : bool;
  cfg_mtproto_session : string
}.

(** * Classes of calls, for statements about traces *)
Definition obs_ban (o : obs eff) : bool :=
  match o with Obs ev _ => match ev with BanChatMember _ _ => true | _ => false end end.

(** Any call that changes what a user may do in a chat. *)
Definition obs_enforce (o : obs eff) : bool :=
  match o with
  | Obs ev _ => match ev with
                | BanChatMember _ _ | UnbanChatMember _ _ _
                | RestrictChatMember _ _ _ _ => true
                | _ => false
                end
  end.

(** Any write to MongoDB. *)
Definition obs_write (o : obs eff) : bool :=
  match o with
  | Obs ev _ => match ev with
                | InsertOne _ _ | UpdateOne _ _ _ _ | UpdateMany _ _ _ | ReplaceOne _ _ _ _
                | DeleteOne _ _ | DeleteMany _ _ | FindOneAndUpdate _ _ _ _
                | FindOneAndReplace _ _ _ _ _ | FindOneAndDelete _ _ => true
                | _ => false
                end
  end.

(** A user-visible message. *)
Definition obs_reply (o : obs eff) : bool :=
  match o with Obs ev _ => match ev with ReplyText _ _ _ => true | _ => false end end.

(** The wrapped handler ran. *)
Definition obs_handler (o : obs eff) : bool :=
  match o with Obs ev _ => match ev with HandlerBody => true | _ => false end end.

(** Reading, caching, throttling and talking: no write to MongoDB, no change of
    anybody's rights, no handler. *)
Definition obs_passive (o : obs eff) : bool :=
  negb (obs_write o || obs_enforce o || obs_handler o).

Definition passive (t : trace eff) : Prop := Forall (fun o => obs_passive o = true) t.

Lemma passive_app t1 t2 : passive t1 -> passive t2 -> passive (t1 ++ t2).
Proof. intros H1 H2. by apply Forall_app. Qed.

Lemma passive_interleave t1 t2 t : passive t1 -> passive t2 -> interleave t1 t2 t -> passive t.
Proof. intros H1 H2 Hi. apply (interleave_Forall _ _ _ _ Hi). done. Qed.

Lemma passive_nil : passive [].
Proof. constructor. Qed.

Lemma passive_class (f : obs eff -> bool) t :
  (forall o, obs_passive o = true -> f o = false) -> passive t -> Forall (fun o => f o = false) t.
Proof. intros Hf H. eapply Forall_impl; [exact H|]. exact Hf. Qed.

Lemma passive_no_handler t : passive t -> Forall (fun o => obs_handler o = false) t.
Proof.
  apply passive_class. intros o. unfold obs_passive. destruct (obs_handler o); [|done].
  by rewrite orb_true_r.
Qed.

Lemma passive_no_enforce t : passive t -> Forall (fun o => obs_enforce o = false) t.
Proof.
  apply passive_class. intros o. unfold obs_passive. destruct (obs_enforce o); [|done].
  by rewrite orb_true_r.
Qed.

Lemma passive_no_write t : passive t -> Forall (fun o => obs_write o = false) t.
Proof. apply passive_class. intros o. unfold obs_passive. by destruct (obs_write o). Qed.

Lemma passive_no_ban t : passive t -> Forall (fun o => obs_ban o = false) t.
Proof.
  apply passive_class. intros [X ev r] H. destruct ev; try done.
Qed.

#[export] Hint Resolve passive_app passive_interleave passive_nil : traces.

(** A program whose runs are passive. *)
Definition is_passive {A} (p : io A) : Prop := wp p (fun t _ => passive t).

Lemma passive_bind {A B} (p : io A) (f : A -> io B) :
  is_passive p -> (forall a, is_passive (f a)) -> is_passive (bind p f).
Proof.
  intros Hp Hf. apply wp_bind. eapply wp_mono; [exact Hp|]. intros t [a|e] Ht; [|done].
  eapply wp_mono; [apply Hf|]. intros t' r Ht'. by apply passive_app.
Qed.

Lemma passive_attempt {A} (p : io A) : is_passive p -> is_passive (attempt p).
Proof. intros Hp. apply wp_attempt. eapply wp_mono; [exact Hp|]. done. Qed.

Lemma passive_try {A} (p : io A) h :
  is_passive p -> (forall e, is_passive (h e)) -> is_passive (try_except p h).
Proof.
  intros Hp Hh. apply wp_try. eapply wp_mono; [exact Hp|]. intros t [a|e] Ht; [done|].
  destruct (is_Exception e); [|done]. eapply wp_mono; [apply Hh|]. intros t' r Ht'. by apply passive_app.
Qed.

Lemma passive_gather2 {A B} (p : io A) (q : io B) :
  is_passive p -> is_passive q -> is_passive (gather2 p q).
Proof.
  intros Hp Hq. eapply wp_gather2; [exact Hp|exact Hq|]. intros t1 t2 t r1 r2 H1 H2 Hi.
  assert (passive t) by exact (passive_interleave _ _ _ H1 H2 Hi). done.
Qed.

Lemma passive_ret {A} (a : A) : is_passive (Ret a).
Proof. apply wp_ret, passive_nil. Qed.

Lemma passive_raise {A} e : is_passive (A := A) (Raise e).
Proof. apply wp_raise, passive_nil. Qed.

Lemma passive_call {X} (ev : eff X) :
  (forall r, obs_passive (Obs ev r) = true) -> is_passive (call ev).
Proof. intros H. apply wp_call. intros x _. by repeat constructor. Qed.

(** Structural: each construct of a passive program is passive. *)
Ltac passive_step :=
  lazymatch goal with
  | |- is_passive (Ret _) => apply passive_ret
  | |- is_passive (Raise _) => apply passive_raise
  | |- is_passive (bind _ _) => apply passive_bind; [|intros ?]
  | |- is_passive (attempt _) => apply passive_attempt
  | |- is_passive (try_except _ _) => apply passive_try; [|intros ?]
  | |- is_passive (gather2 _ _) => apply passive_gather2
  | |- is_passive (call _) => apply passive_call; intros ?; reflexivity
  | |- is_passive (of_result ?x) => destruct x; cbn [of_result]
  | |- is_passive (if ?b then _ else _) => destruct b
  | |- is_passive (match ?x with _ => _ end) => destruct x
  | |- is_passive (let _ := _ in _) => cbv zeta
  end.

Create HintDb passive discriminated.
Ltac passive_auto := repeat (first [passive_step | solve [eauto 2 with passive]]; cbn beta iota).

(** * A concrete environment

    Answers every call with a default, except where [ov] says otherwise; used
    to run programs on concrete inputs. *)
Definition default_answer {X} (ev : eff X) : X :=
  match ev with
  | FindOne _ _ _ => None
  | Find _ _ _ _ _ => []
  | InsertOne _ _ => "id"%string
  | UpdateOne _ _ _ _ => UpdateResult 1 1 false
  | UpdateMany _ _ _ => UpdateResult 1 1 false
  | ReplaceOne _ _ _ _ => UpdateResult 1 1 false
  | DeleteOne _ _ => 1
  | DeleteMany _ _ => 1
  | FindOneAndUpdate _ _ _ _ => None
  | FindOneAndReplace _ _ _ _ _ => None
  | FindOneAndDelete _ _ => None
  | CountDocuments _ _ => 0
  | EstimatedDocumentCount _ => 0
  | Distinct _ _ _ => []
  | Aggregate _ _ => []
  | MemGet _ _ => None
  | MemPut _ _ _ | MemInvalidate _ _ | MemClear _ => tt
  | LockAcquire _ _ | LockRelease _ _ | LockDrop _ _ => tt
  | RedisClient => false
  | RedisGet _ => None
  | DecodeRedisValue _ => BNull
  | EncodeRedisValue _ => ""%string
  | RedisEnqueueSet _ _ | RedisEnqueueDelete _ | RedisAwaitClear _ | RedisMarkOp _ => tt
  | RedisEnqueueClear _ => true
  | TtlGet _ _ => None
  | TtlPut _ _ _ | TtlPop _ _ => tt
  | CbTryAcquire => true
  | CbRecordSuccess | CbRecordFailure | CbReleaseProbe => tt
  | BanChatMember _ _ | UnbanChatMember _ _ _ | RestrictChatMember _ _ _ _ => tt
  | DeclineChatJoinRequest _ _ | LeaveChat _ => tt
  | SendMessage _ _ _ _ => 1
  | SendMedia _ _ _ _ _ => 1
  | SendMediaGroup _ _ _ => [1]
  | ForwardMessage _ _ _ _ => 1
  | DeleteMessage _ _ => tt
  | EditMessageText _ _ _ _ | EditMessageReplyMarkup _ _ _ => tt
  | ReplyText _ _ _ => 1
  | AnswerCallback _ | HandlerBody => tt
  | GetChatMember _ _ => []
  | GetChatAdministrators _ => []
  | GetChat _ => ChatInfo 1 (Some "x"%string) None None
  | MtReady => false
  | MtNew => BId "client"%string
  | MtConnected _ => false
  | MtStart _ | MtStop _ | VarPut _ _ => tt
  | VarGet _ => BNull
  | MtGetUsers u => MtUser u None None None false
  | MtResolveUsername _ => []
  | UdGet _ => None
  | UdPut _ _ | UdPop _ | UdPopPrefix _ => tt
  | LimiterCheck _ _ => 0
  | UtcNow => 0
  | Sleep _ => tt
  | DeadlinePassed _ => false
  | MakeShortId => "abcd"%string
  end.

Abbreviation script := (forall X, eff X -> option (result X)).

Definition no_script : script := fun _ _ => None.

(** An answer the call cannot give is replaced by the default one. *)
Definition replay_env (ov : script) (X : Type) (ev : eff X) (s : unit) : result X * unit :=
  (match ov X ev with
   | None => Ok (default_answer ev)
   | Some r =>
       if (in_process ev && is_err r) || (synchronous ev && is_cancel r)
       then Ok (default_answer ev) else r
   end, s).

Lemma replay_env_admits ov X (ev : eff X) s : admits ev (replay_env ov X ev s).1.
Proof.
  unfold replay_env, admits, world_env. simpl.
  destruct (ov X ev) as [r|], (in_process ev), (synchronous ev); simpl; try done;
    repeat case_match; simpl in *; try done; by destruct (is_err r), (is_cancel r).
Qed.

Definition replay {A} (ov : script) (p : io A) : trace eff * result A :=
  (run (replay_env ov) p tt).1.

Lemma replay_exec {A} ov (p : io A) : exec p (replay ov p).1 (replay ov p).2.
Proof.
  unfold replay. destruct (run (replay_env ov) p tt) as [[t r] []] eqn:Hr.
  eapply run_exec; [apply replay_env_admits|exact Hr].
Qed.

(** Passive programs make no call of any class outside the passive ones. *)
Lemma passive_never {A} (f : obs eff -> bool) (p : io A) :
  (forall o, obs_passive o = true -> f o = false) -> is_passive p -> never f p.
Proof.
  intros Hf Hp. eapply wp_mono; [exact Hp|]. intros t r Ht. by apply passive_class.
Qed.
