(* ===== verification/Formatter.v ===== *)
(** [tcbot/utils/formatter.py] and [tcbot/modules/helper/parse_link.py]: the
    MarkdownV2 escapers and the Telegram link builders, with a recogniser of
    well-formed MarkdownV2 against which their output is checked. *)

From S2P Require Import Prelude Text.

(** * The escapers *)

Definition c_backslash := 92.
Definition c_backtick := 96.
Definition c_star := ch "*".
Definition c_lbracket := ch "[".
Definition c_rbracket := ch "]".
Definition c_lparen := ch "(".
Definition c_rparen := ch ")".

(** [_MD_V2_TEXT_SPECIAL] *)
Definition _MD_V2_TEXT_SPECIAL : ustr :=
  u "_*[]()~`>#+-=|{}.!" ++ [c_backslash].
Definition md_special (c : Z) : bool := existsb (Z.eqb c) _MD_V2_TEXT_SPECIAL.

(** [s.translate(table)] for a table that maps each character of a set to
    itself preceded by a backslash. *)
Definition translate (special : Z -> bool) (s : ustr) : ustr :=
  flat_map (fun c => if special c then [c_backslash; c] else [c]) s.

Definition code_special (c : Z) : bool := (c =? c_backtick) || (c =? c_backslash).
Definition url_special (c : Z) : bool := (c =? c_rparen) || (c =? c_backslash).

Definition username_char (c : Z) : bool := ascii_alnum c || (c =? c_under).

(** [_USERNAME_RE.match]: a [$] also matches just before a final newline. *)
Definition username_re (s : ustr) : bool :=
  let body := match rev s with
              | 10 :: r => if (length s =? 0)%nat then s else rev r
              | _ => s
              end in
  forallb username_char body && (5 <=? length body)%nat && (length body <=? 32)%nat.

Definition safe_username (username : option ustr) : option ustr :=
  match username with
  | Some n => if username_re n then Some n else None
  | None => None
  end.

Definition esc (text : ustr) : ustr := translate md_special text.

Definition bold (text : ustr) : ustr :=
  let content := esc text in
  match content with [] => [] | _ => c_star :: content ++ [c_star] end.

Definition italic (text : ustr) : ustr :=
  let content := esc text in
  match content with [] => [] | _ => c_under :: content ++ [c_under] end.

Definition code (text : ustr) : ustr :=
  let content := translate code_special text in
  match content with [] => [] | _ => c_backtick :: content ++ [c_backtick] end.

Definition pre (text : ustr) : ustr :=
  let content := translate code_special text in
  match content with [] => [] | _ => u "```" ++ content ++ u "```" end.

Definition link (text url : ustr) : ustr :=
  [c_lbracket] ++ esc text ++ u "](" ++ translate url_special url ++ [c_rparen].

Definition user_ref (user_id : Z) (name : ustr) (username : option ustr) : ustr :=
  let label := match name with [] => str_int user_id | _ => name end in
  [c_lbracket] ++ esc label ++ u "](tg://user?id=" ++ str_int user_id ++ [c_rparen].

(** * Links *)

Definition chat_id_to_link_id (chat_id : Z) : ustr :=
  let s := str_int chat_id in
  if startswith s (u "-100") then drop 4 s
  else lstrip (Z.eqb c_minus) s.

Definition message_link (chat_id message_id : Z) (thread_id : option Z) : ustr :=
  let cid := chat_id_to_link_id chat_id in
  if truthy_optZ thread_id then
    u "https://t.me/c/" ++ cid ++ u "/" ++ str_int message_id ++ u "?thread="
      ++ match thread_id with Some t => str_int t | None => [] end
  else u "https://t.me/c/" ++ cid ++ u "/" ++ str_int message_id.

Definition appeal_deep_link (bot_username ban_id : ustr) : ustr :=
  u "https://t.me/" ++ bot_username ++ u "?start=appeal_" ++ ban_id.

(** * Well-formed MarkdownV2

    The Bot API's grammar, for the entities the bot uses, as an automaton: in
    text and inside an entity a special character must be escaped unless it
    opens or closes an entity; a code span allows everything but a bare
    backtick or backslash; bold and italic are not empty and do not nest. *)
Inductive md_mode : Type :=
  | Txt | TxtEsc
  | Bold (nonempty : bool) | BoldEsc
  | Ital (nonempty : bool) | ItalEsc
  | Code (nonempty : bool) | CodeEsc
  | LinkTxt | LinkTxtEsc | LinkSep | Url | UrlEsc.

Definition md_esc_next (c : Z) (m : md_mode) : option md_mode :=
  if md_special c then Some m else None.

Definition md_step (m : md_mode) (c : Z) : option md_mode :=
  match m with
  | Txt =>
      if c =? c_backslash then Some TxtEsc
      else if c =? c_star then Some (Bold false)
      else if c =? c_under then Some (Ital false)
      else if c =? c_backtick then Some (Code false)
      else if c =? c_lbracket then Some LinkTxt
      else if md_special c then None else Some Txt
  | TxtEsc => md_esc_next c Txt
  | Bold ne =>
      if c =? c_backslash then Some BoldEsc
      else if c =? c_star then if ne then Some Txt else None
      else if md_special c then None else Some (Bold true)
  | BoldEsc => md_esc_next c (Bold true)
  | Ital ne =>
      if c =? c_backslash then Some ItalEsc
      else if c =? c_under then if ne then Some Txt else None
      else if md_special c then None else Some (Ital true)
  | ItalEsc => md_esc_next c (Ital true)
  | Code ne =>
      if c =? c_backslash then Some CodeEsc
      else if c =? c_backtick then if ne then Some Txt else None
      else Some (Code true)
  | CodeEsc => if code_special c then Some (Code true) else None
  | LinkTxt =>
      if c =? c_backslash then Some LinkTxtEsc
      else if c =? c_rbracket then Some LinkSep
      else if md_special c then None else Some LinkTxt
  | LinkTxtEsc => md_esc_next c LinkTxt
  | LinkSep => if c =? c_lparen then Some Url else None
  | Url =>
      if c =? c_backslash then Some UrlEsc
      else if c =? c_rparen then Some Txt else Some Url
  | UrlEsc => if url_special c then Some Url else None
  end.

Fixpoint md_run (m : md_mode) (s : ustr) : option md_mode :=
  match s with
  | [] => Some m
  | c :: s' => match md_step m c with Some m' => md_run m' s' | None => None end
  end.

(** A fragment that starts and ends in plain text, with every entity in it
    closed: what may be sent, and spliced into another message. *)
Definition md_wf (s : ustr) : Prop := md_run Txt s = Some Txt.

#[global] Instance md_mode_eq_dec : EqDecision md_mode.
Proof. solve_decision. Defined.
#[global] Instance md_wf_dec s : Decision (md_wf s) := decide (md_run Txt s = Some Txt).

(** Reading escaped text back. *)
Fixpoint unesc (s : ustr) : ustr :=
  match s with
  | c :: ((d :: s') as s1) => if c =? c_backslash then d :: unesc s' else c :: unesc s1
  | [c] => [c]
  | [] => []
  end.

(** * Lemmas *)

Lemma md_run_app m s t :
  md_run m (s ++ t) = match md_run m s with Some m' => md_run m' t | None => None end.
Proof.
  revert m. induction s as [|c s IH]; intros m; simpl; [done|].
  destruct (md_step m c); [apply IH|done].
Qed.

Lemma md_wf_nil : md_wf [].
Proof. done. Qed.

Lemma md_wf_app s t : md_wf s -> md_wf t -> md_wf (s ++ t).
Proof. unfold md_wf. intros Hs Ht. by rewrite md_run_app, Hs. Qed.
#[export] Hint Resolve md_wf_nil md_wf_app : tcbot.

Lemma md_special_false c : md_special c = false ->
  (c =? c_backslash) = false /\ (c =? c_star) = false /\ (c =? c_under) = false /\
  (c =? c_backtick) = false /\ (c =? c_lbracket) = false /\ (c =? c_rbracket) = false.
Proof. unfold md_special. simpl. rewrite !orb_false_iff. tauto. Qed.

(** A character that is not special is read as itself. *)
Ltac md_plain :=
  repeat match goal with
  | H : ?b = false |- context[if ?b then _ else _] => rewrite H
  end; try done.

(** Escaping leaves the automaton where it was, in any mode that reads text. *)
Lemma md_run_esc m s :
  (m = Txt \/ m = LinkTxt) -> md_run m (esc s) = Some m.
Proof.
  intros Hm. induction s as [|c s IH]; [done|].
  change (esc (c :: s)) with ((if md_special c then [c_backslash; c] else [c]) ++ esc s).
  destruct (md_special c) eqn:Hc; simpl.
  - destruct Hm as [-> | ->]; simpl; unfold md_esc_next; by rewrite Hc.
  - apply md_special_false in Hc as Hs. destruct Hs as (? & ? & ? & ? & ? & ?).
    destruct Hm as [-> | ->]; cbn [md_run md_step]; md_plain.
Qed.

(** Inside bold or italic the mode remembers that something was read. *)
Lemma md_run_esc_entity (mode : bool -> md_mode) b s :
  (mode = Bold \/ mode = Ital) -> s <> [] -> md_run (mode b) (esc s) = Some (mode true).
Proof.
  intros Hm. revert b. induction s as [|c s IH]; intros b Hs; [done|]. clear Hs.
  change (esc (c :: s)) with ((if md_special c then [c_backslash; c] else [c]) ++ esc s).
  assert (md_run (mode b) (if md_special c then [c_backslash; c] else [c]) = Some (mode true)) as Hc.
  { destruct (md_special c) eqn:Hc; simpl.
    - destruct Hm as [-> | ->]; simpl; unfold md_esc_next; by rewrite Hc.
    - apply md_special_false in Hc as Hs. destruct Hs as (? & ? & ? & ? & ? & ?).
      destruct Hm as [-> | ->]; cbn [md_run md_step]; md_plain. }
  rewrite md_run_app, Hc. destruct s as [|d s]; [done|]. by apply IH.
Qed.

Lemma md_run_code b s :
  s <> [] -> md_run (Code b) (translate code_special s) = Some (Code true).
Proof.
  revert b. induction s as [|c s IH]; intros b Hs; [done|]. clear Hs.
  change (translate code_special (c :: s))
    with ((if code_special c then [c_backslash; c] else [c]) ++ translate code_special s).
  assert (md_run (Code b) (if code_special c then [c_backslash; c] else [c]) = Some (Code true)) as Hc.
  { destruct (code_special c) eqn:Hc; simpl; [by rewrite Hc|].
    unfold code_special in Hc. apply orb_false_iff in Hc as [-> ->]. done. }
  rewrite md_run_app, Hc. destruct s as [|d s]; [done|]. by apply IH.
Qed.

Lemma md_run_url s : md_run Url (translate url_special s) = Some Url.
Proof.
  induction s as [|c s IH]; [done|].
  change (translate url_special (c :: s))
    with ((if url_special c then [c_backslash; c] else [c]) ++ translate url_special s).
  rewrite md_run_app. destruct (url_special c) eqn:Hc; simpl; [by rewrite Hc|].
  unfold url_special in Hc. apply orb_false_iff in Hc as [-> ->]. done.
Qed.

Lemma translate_nil f s : translate f s = [] <-> s = [].
Proof. destruct s as [|c s]; simpl; [done|]. destruct (f c); done. Qed.

Lemma md_wf_esc s : md_wf (esc s).
Proof. apply md_run_esc. auto. Qed.
#[export] Hint Resolve md_wf_esc : tcbot.

Lemma md_wf_bold s : md_wf (bold s).
Proof.
  unfold bold. destruct (esc s) eqn:He; [done|]. rewrite <- He. unfold md_wf. simpl.
  rewrite md_run_app, md_run_esc_entity; auto. intros ->. done.
Qed.

Lemma md_wf_italic s : md_wf (italic s).
Proof.
  unfold italic. destruct (esc s) eqn:He; [done|]. rewrite <- He. unfold md_wf. simpl.
  rewrite md_run_app, (md_run_esc_entity Ital); auto. intros ->. done.
Qed.

Lemma md_wf_code s : md_wf (code s).
Proof.
  unfold code. destruct (translate code_special s) eqn:He; [done|]. rewrite <- He.
  unfold md_wf. simpl. rewrite md_run_app, md_run_code; [done|]. intros ->. done.
Qed.

Lemma md_wf_link t v : md_wf (link t v).
Proof.
  unfold link, md_wf. simpl. rewrite !md_run_app, md_run_esc by auto. simpl.
  by rewrite md_run_app, md_run_url.
Qed.

Lemma url_plain s :
  Forall (fun c => 48 <= c <= 57 \/ c = c_minus) s -> translate url_special s = s.
Proof.
  induction 1 as [|c s Hc _ IH]; simpl; [done|]. rewrite IH.
  replace (url_special c) with false; [done|]. symmetry.
  unfold url_special, c_rparen, c_backslash, c_minus, ch in *. simpl in *.
  apply orb_false_iff. rewrite !Z.eqb_neq. lia.
Qed.

Lemma md_wf_user_ref i n us : md_wf (user_ref i n us).
Proof.
  unfold user_ref, md_wf.
  set (label := match n with [] => str_int i | _ => n end). simpl.
  rewrite !md_run_app, md_run_esc by auto. simpl. rewrite md_run_app.
  rewrite <- (url_plain (str_int i)).
  - by rewrite md_run_url.
  - eapply Forall_impl; [apply str_int_chars|]. simpl. intros c [?|[_ ?]]; auto.
Qed.
#[export] Hint Resolve md_wf_bold md_wf_italic md_wf_code md_wf_link md_wf_user_ref : tcbot.

Lemma unesc_esc_app s t : unesc (esc s ++ t) = s ++ unesc t.
Proof.
  induction s as [|c s IH]; [done|].
  change (esc (c :: s)) with ((if md_special c then [c_backslash; c] else [c]) ++ esc s).
  rewrite <- app_assoc. destruct (md_special c) eqn:Hc; simpl.
  - by rewrite IH.
  - apply md_special_false in Hc as (Hb & _). rewrite <- IH.
    destruct (esc s ++ t) as [|d r] eqn:Hr; [done|]. by rewrite Hb.
Qed.

(** * Properties *)

(** Whatever text, identifier and URL they are given, every formatter
    returns well-formed MarkdownV2: all specials escaped, all entities closed,
    no empty bold or italic, so Telegram's entity parser cannot refuse a
    message because of user-controlled content. *)
Theorem formatters_wf (text url : ustr) (user_id : Z) (username : option ustr) :
  md_wf (esc text) /\ md_wf (bold text) /\ md_wf (italic text) /\ md_wf (code text) /\
  md_wf (link text url) /\ md_wf (user_ref user_id text username).
Proof. repeat split; auto with tcbot. Qed.

(** Escaping loses nothing: the text Telegram displays after removing the
    escapes is the original, so two different texts never render alike. *)
Theorem esc_roundtrip (text : ustr) : unesc (esc text) = text.
Proof. by rewrite <- (app_nil_r (esc text)), unesc_esc_app, app_nil_r. Qed.
