(* ===== verification/I18n.v ===== *)
(** [tcbot/utils/i18n.py]: locale resolution and the template renderer.  The
    TOML files are the [catalog] argument; loading them is file I/O. *)

From S2P Require Import Prelude Text Formatter.

(** * Placeholder values

    What a caller may pass for a [{name}] placeholder.  [VFloat] carries
    Python's [str] of the number, [VOther] the [str] of any other object. *)
Inductive value : Type :=
  | VSafe (s : ustr)
  | VStr (s : ustr)
  | VNone
  | VBool (b : bool)
  | VInt (z : Z)
  | VFloat (repr : ustr)
  | VOther (repr : ustr).

Definition c_lbrace := ch "{".
Definition c_rbrace := ch "}".

(** [I18nError] is a subclass of [KeyError]. *)
Definition I18nError (why : string) : exn := KeyError why.

Definition _prepare_value (v : value) (escape : bool) : result ustr :=
  match v with
  | VSafe s => Ok s
  | VStr s => Ok (if escape then esc s else s)
  | VNone => Err (I18nError "placeholder got None")
  | VBool b => Ok (if b then u "True" else u "False")
  | VInt z => Ok (str_int z)
  | VFloat r => Ok r
  | VOther r => Ok (if escape then esc r else r)
  end.

(** [_FIELD_RE]: [[A-Za-z_][A-Za-z0-9_]*\Z] *)
Definition field_re (s : ustr) : bool :=
  match s with
  | [] => false
  | c :: s' =>
      (ascii_lower_letter c || ascii_upper_letter c || (c =? c_under))
      && forallb username_char s'
  end.

Fixpoint lookup_field {A} (name : ustr) (d : list (ustr * A)) : option A :=
  match d with
  | [] => None
  | (k, v) :: d' => if ueqb k name then Some v else lookup_field name d'
  end.

(** [template.find(c, i)]: what lies before the next [c] and what follows. *)
Fixpoint break_at (c : Z) (s : ustr) : option (ustr * ustr) :=
  match s with
  | [] => None
  | x :: s' =>
      if x =? c then Some ([], s')
      else match break_at c s' with
           | Some (a, b) => Some (x :: a, b)
           | None => None
           end
  end.

Definition mem (c : Z) (s : ustr) : bool := existsb (Z.eqb c) s.

Definition check_span (inner : ustr) (kind : string) : result unit :=
  match inner with
  | [] => Err (I18nError (append "empty span: " kind))
  | _ => if mem c_lbrace inner || mem c_rbrace inner
         then Err (I18nError (append "braces in span: " kind)) else Ok tt
  end.

(** One turn of the [while] loop over what is left of the template.  [parts]
    is the output so far and [literal] the pending literal characters, both in
    order.  [None] is running out of fuel, which [render_fuel] rules out. *)
Fixpoint render_loop (fuel : nat) (prepared : list (ustr * ustr)) (escape : bool)
    (parts literal rest : ustr) : option (result ustr) :=
  let flushed := parts ++ (if escape then esc literal else literal) in
  match fuel with
  | O => None
  | S fuel =>
      match rest with
      | [] => Some (Ok flushed)
      | c :: s =>
          if c =? c_backtick then
            match break_at c_backtick s with
            | None => Some (Err (I18nError "unbalanced backtick"))
            | Some (inner, s') =>
                match check_span inner "code" with
                | Err e => Some (Err e)
                | Ok _ =>
                    let piece := if escape
                                 then [c_backtick] ++ translate (Z.eqb c_backslash) inner ++ [c_backtick]
                                 else inner in
                    render_loop fuel prepared escape (flushed ++ piece) [] s'
                end
            end
          else if c =? c_star then
            match break_at c_star s with
            | None => Some (Err (I18nError "unbalanced asterisk"))
            | Some (inner, s') =>
                match check_span inner "bold" with
                | Err e => Some (Err e)
                | Ok _ =>
                    if mem c_backtick inner || mem c_star inner
                    then Some (Err (I18nError "nesting inside bold"))
                    else
                      let piece := if escape then [c_star] ++ esc inner ++ [c_star] else inner in
                      render_loop fuel prepared escape (flushed ++ piece) [] s'
                end
            end
          else if c =? c_lbrace then
            match s with
            | d :: s' =>
                if d =? c_lbrace
                then render_loop fuel prepared escape parts (literal ++ [c_lbrace]) s'
                else
                  match break_at c_rbrace s with
                  | None => Some (Err (I18nError "unbalanced brace"))
                  | Some (name, s'') =>
                      if negb (field_re name) then Some (Err (I18nError "not a bare field"))
                      else match lookup_field name prepared with
                           | None => Some (Err (I18nError "missing value"))
                           | Some v => render_loop fuel prepared escape (flushed ++ v) [] s''
                           end
                  end
            | [] => Some (Err (I18nError "unbalanced brace"))
            end
          else if c =? c_rbrace then
            match s with
            | d :: s' =>
                if d =? c_rbrace
                then render_loop fuel prepared escape parts (literal ++ [c_rbrace]) s'
                else Some (Err (I18nError "unbalanced brace"))
            | [] => Some (Err (I18nError "unbalanced brace"))
            end
          else render_loop fuel prepared escape parts (literal ++ [c]) s
      end
  end.

Definition _render_template (template : ustr) (prepared : list (ustr * ustr))
    (escape : bool) : result ustr :=
  match render_loop (S (length template)) prepared escape [] [] template with
  | Some r => r
  | None => Err (AssertionError "out of fuel")
  end.

(** [{name: _prepare_value(name, value) for ...}], stopping at the first
    value that raises. *)
Fixpoint prepare_all (escape : bool) (kwargs : list (ustr * value))
  : result (list (ustr * ustr)) :=
  match kwargs with
  | [] => Ok []
  | (k, v) :: rest =>
      match _prepare_value v escape with
      | Err e => Err e
      | Ok s => match prepare_all escape rest with
                | Err e => Err e
                | Ok l => Ok ((k, s) :: l)
                end
      end
  end.

Abbreviation catalog := (list (ustr * list (ustr * ustr))).
Definition DEFAULT_LOCALE : ustr := u "en-US".

Section i18n.
Context `{UCD} (data : catalog).

Definition locale_names : list ustr := map fst data.

Definition _canonical_locale (locale : option ustr) : option ustr :=
  match locale with
  | None | Some [] => None
  | Some l =>
      List.find (fun existing => ueqb (str_lower existing) (str_lower (strip_ws l)))
        locale_names
  end.

Definition is_known_locale (locale : option ustr) : bool :=
  match locale with
  | None | Some [] => false
  | Some l =>
      existsb (fun existing => ueqb (str_lower existing) (str_lower (strip_ws l)))
        locale_names
  end.

Definition resolve_locale (chat_type : ustr)
    (user_locale group_locale explicit : option ustr) : ustr :=
  match _canonical_locale explicit with
  | Some c => c
  | None =>
      match _canonical_locale
              (if ueqb chat_type (u "private") then user_locale else group_locale) with
      | Some c => c
      | None => DEFAULT_LOCALE
      end
  end.

(** [data.get(canonical, {}).get(key, data[DEFAULT_LOCALE].get(key))]; the
    default locale is present in every catalog [load_catalog] returns, and
    its absence is the [KeyError] of [data[DEFAULT_LOCALE]]. *)
Definition find_template (locale : option ustr) (key : ustr) : result (option ustr) :=
  let canonical := match _canonical_locale locale with Some c => c | None => DEFAULT_LOCALE end in
  match lookup_field DEFAULT_LOCALE data with
  | None => Err (KeyError "en-US")
  | Some dflt =>
      Ok match lookup_field canonical data ≫= lookup_field key with
         | Some tpl => Some tpl
         | None => lookup_field key dflt
         end
  end.

(** [t(key, locale, plain=plain, **kwargs)] *)
Definition t (key : ustr) (locale : option ustr) (plain : bool)
    (kwargs : list (ustr * value)) : result ustr :=
  match find_template locale key with
  | Err e => Err e
  | Ok None => Ok ([c_lbracket] ++ key ++ [c_rbracket])
  | Ok (Some template) =>
      let escape := negb plain in
      match prepare_all escape kwargs with
      | Err e => Err e
      | Ok prepared => _render_template template prepared escape
      end
  end.
End i18n.

(** * Lemmas *)

Lemma break_at_spec c s a b : break_at c s = Some (a, b) -> s = a ++ c :: b /\ mem c a = false.
Proof.
  revert a b. induction s as [|x s IH]; intros a b; simpl; [done|].
  destruct (x =? c) eqn:Hx; [intros [= <- <-]; to_prop; by subst|].
  destruct (break_at c s) as [[a' b']|]; [|done]. intros [= <- <-].
  destruct (IH a' b') as [-> Hm]; [done|]. split; [done|].
  unfold mem in *. simpl. by rewrite Z.eqb_sym, Hx.
Qed.

Lemma break_at_length c s a b : break_at c s = Some (a, b) -> (length b < length s)%nat.
Proof. intros [-> _]%break_at_spec. rewrite length_app. simpl. lia. Qed.

(** The loop turns at most once per template character. *)
Lemma render_fuel fuel prepared escape parts literal rest :
  (length rest < fuel)%nat ->
  is_Some (render_loop fuel prepared escape parts literal rest).
Proof.
  revert parts literal rest. induction fuel as [|fuel IH]; intros parts literal rest Hf; [lia|].
  destruct rest as [|c s]; simpl; [eauto|]. simpl in Hf.
  repeat match goal with
  | |- is_Some (match ?x with _ => _ end) => destruct x eqn:?; subst; try by eauto
  end;
  repeat match goal with H : break_at _ _ = Some _ |- _ => apply break_at_length in H end;
  simpl in *; apply IH; lia.
Qed.

Lemma md_run_code_bs s b :
  s <> [] -> mem c_backtick s = false ->
  md_run (Code b) (translate (Z.eqb c_backslash) s) = Some (Code true).
Proof.
  intros Hs Hm. replace (translate (Z.eqb c_backslash) s) with (translate code_special s).
  - by apply md_run_code.
  - clear Hs. induction s as [|c s IH]; [done|]. unfold mem in *. cbn [existsb] in Hm.
    apply orb_false_iff in Hm as [Hc Hm]. cbn [translate flat_map].
    fold (translate code_special s) (translate (Z.eqb c_backslash) s). rewrite (IH Hm).
    unfold code_special. by rewrite (Z.eqb_sym c c_backtick), Hc, (Z.eqb_sym c c_backslash).
Qed.

Lemma check_span_ok inner kind x : check_span inner kind = Ok x -> inner <> [].
Proof. by destruct inner. Qed.

Lemma lookup_field_Forall {A} (P : A -> Prop) name d v :
  Forall (fun kv => P kv.2) d -> lookup_field name d = Some v -> P v.
Proof.
  induction 1 as [|[k w] d Hw _ IH]; simpl; [done|].
  destruct (ueqb k name); [intros [= <-]; done|done].
Qed.

(** Every piece the loop appends is well-formed. *)
Lemma render_wf fuel prepared parts literal rest s :
  Forall (fun kv => md_wf kv.2) prepared -> md_wf parts ->
  render_loop fuel prepared true parts literal rest = Some (Ok s) -> md_wf s.
Proof.
  intros Hp. revert parts literal rest.
  induction fuel as [|fuel IH]; intros parts literal rest Hparts; simpl; [done|].
  assert (Hf : md_wf (parts ++ esc literal)) by auto with tcbot.
  destruct rest as [|c r]; [by intros [= <-]|].
  repeat match goal with
  | |- (match ?x with _ => _ end) = _ -> _ => destruct x eqn:?; subst; try done
  end; intros Hr; eapply IH in Hr; try done; apply md_wf_app; try done.
  - (* code span *)
    match goal with H : break_at _ _ = _ |- _ => apply break_at_spec in H as [-> Hm] end.
    match goal with H : check_span _ _ = _ |- _ => apply check_span_ok in H end.
    unfold md_wf. simpl. by rewrite md_run_app, md_run_code_bs.
  - (* bold span *)
    match goal with H : check_span _ _ = _ |- _ => apply check_span_ok in H end.
    unfold md_wf. simpl. by rewrite md_run_app, md_run_esc_entity by auto.
  - (* placeholder *)
    eapply lookup_field_Forall; [|done]. done.
Qed.

(** Values that render as well-formed MarkdownV2: raw strings of any content,
    fragments already built by the formatters, booleans and naturals. *)
Definition value_ok (v : value) : Prop :=
  match v with
  | VSafe s => md_wf s
  | VStr _ | VOther _ | VBool _ => True
  | VInt z => 0 <= z
  | VNone | VFloat _ => False
  end.

Lemma md_wf_digits s : Forall (fun c => 48 <= c <= 57) s -> md_wf s.
Proof.
  intros H. replace s with (esc s); [apply md_wf_esc|].
  induction H as [|c s Hc _ IH]; [done|]. unfold esc in *. simpl. rewrite IH.
  replace (md_special c) with false; [done|]. symmetry.
  unfold md_special. apply existsb_false_Forall, Forall_forall. intros x Hx.
  apply Z.eqb_neq. cbv in Hx.
  repeat (apply elem_of_cons in Hx as [->|Hx]; [lia|]). by apply elem_of_nil in Hx.
Qed.

Lemma prepare_all_wf kwargs l :
  Forall (fun kv => value_ok kv.2) kwargs -> prepare_all true kwargs = Ok l ->
  Forall (fun kv => md_wf kv.2) l.
Proof.
  intros H. revert l. induction H as [|[k v] kwargs Hv _ IH]; intros l; simpl.
  - by intros [= <-].
  - destruct (_prepare_value v true) as [s|] eqn:Hs; [|done].
    destruct (prepare_all true kwargs) as [l'|]; [|done]. intros [= <-].
    constructor; [|by apply IH]. simpl in *.
    destruct v as [| | |[]|z| |]; simplify_eq/=; auto with tcbot; try done.
    apply md_wf_digits. eapply Forall_impl; [apply str_int_chars|]. simpl. lia.
Qed.

Lemma canonical_in `{UCD} data locale c :
  _canonical_locale data locale = Some c -> In c (locale_names data).
Proof.
  unfold _canonical_locale. destruct locale as [[|x l]|]; [done| |done].
  intros H1. by apply find_some in H1 as [H1 _].
Qed.

(** A closing bracket returns to plain text only as an escaped character, and
    only a backslash opens an escape. *)
Lemma md_step_rbracket m : md_step m c_rbracket = Some Txt -> m = TxtEsc.
Proof. destruct m as [| |[]| |[]| |[]| | | | | |]; vm_compute; congruence. Qed.

Lemma md_step_TxtEsc m c : md_step m c = Some TxtEsc -> c = c_backslash.
Proof.
  destruct m; simpl; unfold md_esc_next;
    repeat (case_match; try discriminate); intros; to_prop; congruence.
Qed.

Lemma md_run_TxtEsc_last m s :
  m <> TxtEsc -> md_run m s = Some TxtEsc -> exists s', s = s' ++ [c_backslash].
Proof.
  intros Hm Hr. destruct (exists_last (l := s)) as [s' [c ->]]; [intros ->; by injection Hr|].
  rewrite md_run_app in Hr. destruct (md_run m s') as [m1|]; [|done]. simpl in Hr.
  destruct (md_step m1 c) as [m2|] eqn:Hc; [|done]. injection Hr as ->.
  apply md_step_TxtEsc in Hc as ->. eauto.
Qed.

(** * Properties *)

(** C15: the renderer is total on templates: every template, well-formed or
    not, yields a rendering or the [I18nError] naming its defect, within one
    loop turn per character. *)
Theorem render_template_terminates template prepared escape :
  exists r, render_loop (S (length template)) prepared escape [] [] template = Some r
            /\ _render_template template prepared escape = r.
Proof.
  destruct (render_fuel (S (length template)) prepared escape [] [] template) as [r Hr]; [lia|].
  exists r. split; [done|]. unfold _render_template. by rewrite Hr.
Qed.

(** C14: when the catalog has a template for the key and the MarkdownV2
    translation returns a text, it is well-formed MarkdownV2 whatever the
    template says, if every placeholder's value is a string, a boolean, a
    natural number, an object shown through [str] (these are escaped or need no
    escape) or a [Safe] text that is well-formed itself: translator markup and
    user-controlled names cannot break each other's entities.  A key without a
    template is the exception ([t_missing_key_not_wf]). *)
Theorem t_wf `{UCD} (data : catalog) (key : ustr) (locale : option ustr)
    (kwargs : list (ustr * value)) (template s : ustr)
    (Hfound : find_template data locale key = Ok (Some template))
    (Hargs : Forall (fun kv => value_ok kv.2) kwargs)
    (Ht : t data key locale false kwargs = Ok s) :
  md_wf s.
Proof.
  unfold t in Ht. rewrite Hfound in Ht. simpl in Ht.
  destruct (prepare_all true kwargs) as [l|] eqn:Hl; [|done].
  unfold _render_template in Ht.
  destruct (render_loop _ _ _ _ _ _) as [r|] eqn:Hr; [|done]. subst r.
  eapply render_wf; [| |exact Hr]; [by eapply prepare_all_wf|done].
Qed.

Lemma t_wf_witness :
  exists s,
    t (H := ascii_ucd) [(DEFAULT_LOCALE, [(u "ban.done", u "*Banned* {user}: {why} (`/tcban`).")])]
      (u "ban.done") None false
      [(u "user", VSafe (user_ref 42 (u "A_b") None)); (u "why", VStr (u "spam!"))] = Ok s
    /\ md_wf s.
Proof.
  eexists. split; [vm_compute; reflexivity|].
  eapply (t_wf (H := ascii_ucd)
    [(DEFAULT_LOCALE, [(u "ban.done", u "*Banned* {user}: {why} (`/tcban`).")])]
    (u "ban.done") None
    [(u "user", VSafe (user_ref 42 (u "A_b") None)); (u "why", VStr (u "spam!"))]).
  - vm_compute. reflexivity.
  - constructor; [vm_compute; reflexivity|constructor; [exact I|constructor]].
  - vm_compute. reflexivity.
Defined.

(** A key missing from every catalog is rendered as [[key]], which is not
    well-formed MarkdownV2: sent with that parse mode, as every formatted
    message is, the fallback is refused by Telegram. *)
Theorem t_missing_key_not_wf `{UCD} (data : catalog) (key : ustr) (locale : option ustr)
    (kwargs : list (ustr * value)) (Hmiss : find_template data locale key = Ok None)
    (Hkey : mem c_backslash key = false) :
  exists s, t data key locale false kwargs = Ok s /\ ~ md_wf s.
Proof.
  exists ([c_lbracket] ++ key ++ [c_rbracket]). unfold t. rewrite Hmiss. split; [done|].
  rewrite app_assoc. unfold md_wf. rewrite md_run_app. intros Hw.
  destruct (md_run Txt ([c_lbracket] ++ key)) as [m|] eqn:Hm; [|done].
  simpl in Hw. destruct (md_step m c_rbracket) as [m'|] eqn:Hs; [|done].
  injection Hw as ->. apply md_step_rbracket in Hs as ->.
  apply md_run_TxtEsc_last in Hm as [s Hs]; [|done].
  assert (mem c_backslash ([c_lbracket] ++ key) = false) as Hk by done.
  rewrite Hs in Hk. unfold mem in Hk. rewrite existsb_app, orb_false_iff in Hk. by destruct Hk.
Qed.

Lemma t_missing_key_not_wf_witness :
  exists s, t (H := ascii_ucd) [(DEFAULT_LOCALE, [])] (u "ban.done") None false [] = Ok s /\ ~ md_wf s.
Proof.
  apply (t_missing_key_not_wf (H := ascii_ucd) [(DEFAULT_LOCALE, [])] (u "ban.done") None []);
    vm_compute; reflexivity.
Defined.

(** Locale resolution always lands on a locale of the catalog, honours
    the explicit choice first, and in a group never depends on the sender's
    personal preference (one audience, one language). *)
Theorem resolve_locale_spec `{UCD} (data : catalog) (chat_type : ustr)
    (user_locale group_locale explicit : option ustr)
    (Hdefault : In DEFAULT_LOCALE (locale_names data)) :
  let l := resolve_locale data chat_type user_locale group_locale explicit in
  In l (locale_names data) /\
  (forall c, _canonical_locale data explicit = Some c -> l = c) /\
  (chat_type <> u "private" ->
   forall other, resolve_locale data chat_type other group_locale explicit = l).
Proof.
  simpl. unfold resolve_locale. repeat split.
  - repeat case_match; eauto using canonical_in.
  - intros c ->. done.
  - intros Hne other. unfold ueqb. rewrite bool_decide_eq_false_2 by done. done.
Qed.

Lemma resolve_locale_spec_witness :
  In (resolve_locale (H := ascii_ucd) [(DEFAULT_LOCALE, []); (u "id", [])] (u "group")
        (Some (u "en-us")) (Some (u " ID ")) None)
     [DEFAULT_LOCALE; u "id"].
Proof.
  apply (resolve_locale_spec (H := ascii_ucd) [(DEFAULT_LOCALE, []); (u "id", [])]).
  left. reflexivity.
Defined.
