(* ===== verification/CircuitBreaker.v ===== *)
(** [tcbot/utils/circuit_breaker.py]: the breaker's state machine, operation by
    operation, and the [call] wrapper.  Clock readings are nanoseconds, the
    resolution of [time.monotonic()], passed to the operation that takes
    them. *)

From S2P Require Import Prelude Prog.

Definition seconds (s : Z) : Z := s * 1000000000.

Inductive CircuitState : Type := CLOSED | OPEN | HALF_OPEN.

#[global] Instance CircuitState_eq_dec : EqDecision CircuitState.
Proof. solve_decision. Defined.

Record CircuitBreaker := MkBreaker {
  _failure_threshold : Z;
  _recovery_timeout : Z;
  _state : CircuitState;
  _failure_count : Z;
  _half_open_probe_in_flight : bool;
  _opened_at : Z
}.

Definition with_state (st : CircuitState) (b : CircuitBreaker) : CircuitBreaker :=
  MkBreaker (_failure_threshold b) (_recovery_timeout b) st (_failure_count b)
    (_half_open_probe_in_flight b) (_opened_at b).

(** * Operations *)

Definition breaker_init (failure_threshold recovery_timeout : Z) : CircuitBreaker :=
  MkBreaker failure_threshold recovery_timeout CLOSED 0 false 0.

(** The two module-level breakers, [telegram] and [mongodb]. *)
Definition telegram : CircuitBreaker := breaker_init 5 (seconds 60).
Definition mongodb : CircuitBreaker := breaker_init 5 (seconds 60).

(** The [state] property: reading it may move OPEN to HALF_OPEN. *)
Definition state (now : Z) (b : CircuitBreaker) : CircuitBreaker * CircuitState :=
  let b := if bool_decide (_state b = OPEN) && (now - _opened_at b >=? _recovery_timeout b)
           then with_state HALF_OPEN b else b in
  (b, _state b).

Definition peek_state (b : CircuitBreaker) : CircuitState := _state b.

Definition is_open (now : Z) (b : CircuitBreaker) : CircuitBreaker * bool :=
  let '(b, s) := state now b in (b, bool_decide (s = OPEN)).

Definition release_probe (b : CircuitBreaker) : CircuitBreaker :=
  MkBreaker (_failure_threshold b) (_recovery_timeout b) (_state b) (_failure_count b)
    false (_opened_at b).

Definition try_acquire (now : Z) (b : CircuitBreaker) : CircuitBreaker * bool :=
  let '(b, s) := state now b in
  match s with
  | OPEN => (b, false)
  | HALF_OPEN =>
      if _half_open_probe_in_flight b then (b, false)
      else (MkBreaker (_failure_threshold b) (_recovery_timeout b) (_state b)
              (_failure_count b) true (_opened_at b), true)
  | CLOSED => (b, true)
  end.

Definition record_success (b : CircuitBreaker) : CircuitBreaker :=
  release_probe
    (MkBreaker (_failure_threshold b) (_recovery_timeout b) CLOSED 0
       (_half_open_probe_in_flight b) (_opened_at b)).

Definition record_failure (now : Z) (b : CircuitBreaker) : CircuitBreaker :=
  let count := _failure_count b + 1 in
  let opened st at_ := MkBreaker (_failure_threshold b) (_recovery_timeout b) st count
                         (_half_open_probe_in_flight b) at_ in
  release_probe
    (if bool_decide (_state b = HALF_OPEN) then opened OPEN now
     else if count >=? _failure_threshold b then opened OPEN now
     else opened (_state b) (_opened_at b)).

Definition reset (b : CircuitBreaker) : CircuitBreaker :=
  release_probe
    (MkBreaker (_failure_threshold b) (_recovery_timeout b) CLOSED 0
       (_half_open_probe_in_flight b) (_opened_at b)).

(** [CircuitBreaker.call]: the awaited coroutine between the reservation and
    exactly one settlement. *)
Section call.
Context {E : Type -> Type}
  (acquire : prog E bool) (success failure release : prog E unit).

Definition cb_call {T} (coro : prog E T) : prog E T :=
  ok <- acquire ;;
  if negb ok then Raise CircuitOpenError
  else
    r <- attempt coro ;;
    match r with
    | Ok result => success ;;; Ret result
    | Err exc =>
        if is_Exception exc then failure ;;; Raise exc
        else release ;;; Raise exc
    end.
End call.

(** * Behaviour over time

    What callers do to a breaker, in the order it happens: reservations that
    are granted or refused, settlements, reads of [state] and resets, each
    with the clock reading it takes. *)
Inductive event : Type :=
  | EvAcquire (now : Z) (granted : bool)
  | EvRead (now : Z)
  | EvSuccess
  | EvFailure (now : Z)
  | EvRelease
  | EvReset.

Inductive step (b : CircuitBreaker) : event -> CircuitBreaker -> Prop :=
  | step_acquire now b' ok : try_acquire now b = (b', ok) -> step b (EvAcquire now ok) b'
  | step_read now b' s : state now b = (b', s) -> step b (EvRead now) b'
  | step_success : step b EvSuccess (record_success b)
  | step_failure now : step b (EvFailure now) (record_failure now b)
  | step_release : step b EvRelease (release_probe b)
  | step_reset : step b EvReset (reset b).

Inductive steps : CircuitBreaker -> list event -> CircuitBreaker -> Prop :=
  | steps_nil b : steps b [] b
  | steps_snoc b1 evs b2 ev b3 : steps b1 evs b2 -> step b2 ev b3 -> steps b1 (evs ++ [ev]) b3.
#[export] Hint Constructors step steps : tcbot.

(** The same relation as a function, to replay a concrete history. *)
Definition apply_event (b : CircuitBreaker) (ev : event) : option CircuitBreaker :=
  match ev with
  | EvAcquire now g => let '(b', ok) := try_acquire now b in
                       if Bool.eqb ok g then Some b' else None
  | EvRead now => Some (state now b).1
  | EvSuccess => Some (record_success b)
  | EvFailure now => Some (record_failure now b)
  | EvRelease => Some (release_probe b)
  | EvReset => Some (reset b)
  end.

Fixpoint replay (b : CircuitBreaker) (evs : list event) : option CircuitBreaker :=
  match evs with
  | [] => Some b
  | ev :: evs' => match apply_event b ev with Some b' => replay b' evs' | None => None end
  end.

(** Failures recorded since the last success or reset. *)
Fixpoint consecutive_failures (rev_evs : list event) : Z :=
  match rev_evs with
  | [] => 0
  | EvFailure _ :: l => 1 + consecutive_failures l
  | EvSuccess :: _ | EvReset :: _ => 0
  | _ :: l => consecutive_failures l
  end.

(** A settlement: the end of a granted call. *)
Definition settles (ev : event) : bool :=
  match ev with EvSuccess | EvFailure _ | EvRelease | EvReset => true | _ => false end.

(** * Invariant *)

Definition wf (b : CircuitBreaker) : Prop :=
  0 <= _failure_count b /\
  (_state b = CLOSED -> _failure_count b < _failure_threshold b) /\
  (_half_open_probe_in_flight b = true -> _state b = HALF_OPEN).

Ltac breaker :=
  unfold state, try_acquire, record_success, record_failure, reset, release_probe,
    with_state, wf in *; simpl in *;
  repeat (case_match; simplify_eq/=); to_prop; try done.

Lemma wf_step b ev b' : 1 <= _failure_threshold b -> wf b -> step b ev b' -> wf b'.
Proof.
  intros Ht (H0 & H1 & H2) Hs.
  inversion Hs as [now ? ok He|now ? s He| |now| |]; subst; breaker;
    repeat split; intros; simpl in *; try done; try lia; try congruence; auto.
Qed.

Lemma threshold_step b ev b' :
  step b ev b' ->
  _failure_threshold b' = _failure_threshold b /\ _recovery_timeout b' = _recovery_timeout b.
Proof.
  inversion 1 as [now ? ok He|now ? s He| |now| |]; subst; breaker; auto.
Qed.

Lemma threshold_steps b evs b' : steps b evs b' -> _failure_threshold b' = _failure_threshold b.
Proof. induction 1 as [|b1 evs b2 ev b3 _ IH Hs]; [done|]. by destruct (threshold_step _ _ _ Hs) as [-> _]. Qed.

Lemma wf_init th tmo : 1 <= th -> wf (breaker_init th tmo).
Proof. intros. repeat split; simpl; try done; lia. Qed.

Lemma wf_steps b evs b' : 1 <= _failure_threshold b -> wf b -> steps b evs b' -> wf b'.
Proof.
  intros Ht Hw Hs. induction Hs as [|b1 evs b2 ev b3 Hs IH Hstep]; [done|].
  eapply wf_step; [|by apply IH|done]. by rewrite (threshold_steps _ _ _ Hs).
Qed.

Lemma count_step b ev b' n :
  _failure_count b = n -> step b ev b' ->
  _failure_count b' = match ev with
                      | EvFailure _ => n + 1 | EvSuccess | EvReset => 0 | _ => n end.
Proof. intros <- Hs. inversion Hs; subst; breaker. Qed.

Lemma count_steps th tmo evs b :
  steps (breaker_init th tmo) evs b -> _failure_count b = consecutive_failures (rev evs).
Proof.
  remember (breaker_init th tmo) as b0 eqn:H0.
  induction 1 as [b|b1 evs b2 ev b3 Hs IH Hstep]; [by subst|].
  rewrite rev_app_distr, (count_step _ _ _ _ (IH H0) Hstep). simpl. destruct ev; lia.
Qed.

(** Leaving CLOSED takes a failure that reaches the threshold. *)
Lemma closed_step b ev b' :
  step b ev b' -> _state b = CLOSED ->
  _state b' = CLOSED \/ _failure_threshold b <= _failure_count b'.
Proof.
  intros Hs Hc. inversion Hs as [now ? ok He|now ? s He| |now| |]; subst; breaker; auto; solve [congruence | right; lia | by split].
Qed.

Lemma steps_cons b ev b1 evs b2 : step b ev b1 -> steps b1 evs b2 -> steps b (ev :: evs) b2.
Proof.
  intros Hb Hs. revert b Hb. induction Hs as [b1|b1 evs b2 ev' b3 _ IH Hstep]; intros b Hb.
  - apply (steps_snoc b [] b); [constructor|done].
  - apply (steps_snoc b (ev :: evs) b2); auto.
Qed.

Lemma replay_steps b evs b' : replay b evs = Some b' -> steps b evs b'.
Proof.
  revert b. induction evs as [|ev evs IH]; intros b; simpl; [intros [= <-]; constructor|].
  destruct (apply_event b ev) as [b1|] eqn:He; [|done]. intros Hr.
  eapply steps_cons; [|by apply IH]. destruct ev as [now g|now| |now| |]; simplify_eq/=;
    try by constructor.
  - destruct (try_acquire now b) as [b2 ok] eqn:Ht. destruct (Bool.eqb ok g) eqn:Hg; [|done].
    apply Bool.eqb_prop in Hg. simplify_eq. by constructor.
  - destruct (state now b) as [b2 st] eqn:Ht. by econstructor.
Qed.

(** * Properties *)

(** The breaker opens only after [failure_threshold] consecutive failures:
    from start-up, as long as every run of failures since the last success or
    reset is shorter than the threshold, it is CLOSED and every reservation is
    granted. *)
Theorem closed_below_threshold (th tmo : Z) (evs : list event) (b : CircuitBreaker)
    (Hth : 1 <= th) (Hs : steps (breaker_init th tmo) evs b)
    (Hfew : forall pre post, evs = pre ++ post -> consecutive_failures (rev pre) < th) :
  _state b = CLOSED /\ forall now, try_acquire now b = (b, true).
Proof.
  assert (_state b = CLOSED) as Hc.
  { remember (breaker_init th tmo) as b0 eqn:H0.
    induction Hs as [b|b1 evs b2 ev b3 Hs IH Hstep]; [by subst|].
    assert (_state b2 = CLOSED) as H2.
    { apply IH; [done|]. intros pre post ->. apply (Hfew pre (post ++ [ev])). by rewrite app_assoc. }
    destruct (closed_step _ _ _ Hstep H2) as [?|Hge]; [done|]. exfalso. subst b1.
    assert (steps (breaker_init th tmo) (evs ++ [ev]) b3) as Hall by eauto with tcbot.
    rewrite (count_steps _ _ _ _ Hall), (threshold_steps _ _ _ Hs) in Hge. simpl in Hge.
    specialize (Hfew (evs ++ [ev]) [] (eq_sym (app_nil_r _))). lia. }
  split; [done|]. intros now. unfold try_acquire, state. rewrite Hc. simpl. by rewrite Hc.
Qed.

Lemma closed_below_threshold_witness :
  exists b, steps (breaker_init 2 (seconds 60)) [EvFailure 1; EvSuccess; EvFailure 3] b /\
            _state b = CLOSED.
Proof.
  assert (steps (breaker_init 2 (seconds 60)) [EvFailure 1; EvSuccess; EvFailure 3] _) as Hs
    by (apply replay_steps; reflexivity).
  eexists. split; [exact Hs|].
  apply (closed_below_threshold 2 (seconds 60) _ _ ltac:(lia) Hs).
  intros pre post Hp.
  destruct pre as [|? [|? [|? [|? pre]]]]; simplify_eq/=; vm_compute; reflexivity.
Defined.

(** C11: an open breaker fails fast, then always recovers: until
    [recovery_timeout] has elapsed every reservation is refused and nothing
    changes; from then on the next reservation is granted as the probe, and
    the probe's success closes the breaker again. *)
Theorem open_then_recovers (th tmo : Z) (evs : list event) (b : CircuitBreaker)
    (Hth : 1 <= th) (Hs : steps (breaker_init th tmo) evs b) (Hopen : _state b = OPEN) :
  (forall now, now - _opened_at b < _recovery_timeout b -> try_acquire now b = (b, false)) /\
  (forall now, _recovery_timeout b <= now - _opened_at b ->
     exists b', try_acquire now b = (b', true) /\ _state b' = HALF_OPEN /\
                _state (record_success b') = CLOSED /\
                _state (record_failure now b') = OPEN).
Proof.
  assert (wf b) as (_ & _ & Hprobe) by (eapply wf_steps; [|by apply wf_init|done]; done).
  unfold try_acquire, state. rewrite Hopen. simpl. split; intros now Hn.
  - rewrite Z.geb_leb. destruct (Z.leb_spec (_recovery_timeout b) (now - _opened_at b)); [lia|].
    by rewrite Hopen.
  - rewrite Z.geb_leb. destruct (Z.leb_spec (_recovery_timeout b) (now - _opened_at b)); [|lia].
    simpl. destruct (_half_open_probe_in_flight b) eqn:Hp; [|eauto 10].
    rewrite Hprobe in Hopen by done. done.
Qed.

Lemma open_then_recovers_witness :
  let b := record_failure 7 (breaker_init 1 (seconds 60)) in
  exists b', try_acquire (seconds 61) b = (b', true) /\ _state b' = HALF_OPEN.
Proof.
  intros b.
  destruct (open_then_recovers 1 (seconds 60) [EvFailure 7] b) as [_ H].
  - lia.
  - by apply replay_steps.
  - reflexivity.
  - destruct (H (seconds 61)) as (b' & H1 & H2 & _); [vm_compute; discriminate|eauto].
Defined.

(** While HALF_OPEN holds its probe, no further reservation is granted,
    at any time, until some call settles. *)
Theorem half_open_single_probe (b b' : CircuitBreaker) (evs : list event)
    (Hhalf : _state b = HALF_OPEN) (Hprobe : _half_open_probe_in_flight b = true)
    (Hs : steps b evs b') (Hopen : Forall (fun ev => settles ev = false) evs) :
  b' = b /\ Forall (fun ev => forall now ok, ev = EvAcquire now ok -> ok = false) evs.
Proof.
  induction Hs as [b|b1 evs b2 ev b3 Hs IH Hstep]; [done|].
  apply Forall_app in Hopen as [Hevs Hev]. apply Forall_cons in Hev as [Hev _].
  destruct (IH Hhalf Hprobe Hevs) as [-> Hall].
  inversion Hstep as [now ? ok He|now ? s He| |now| |]; subst; try done;
    unfold try_acquire, state in He; rewrite Hhalf in He; simpl in He; rewrite Hhalf in He;
    try rewrite Hprobe in He; simplify_eq;
    (split; [done|]; apply Forall_app; split; [done|]; constructor; [|constructor]; congruence).
Qed.

Lemma half_open_single_probe_witness :
  let b := MkBreaker 5 (seconds 60) HALF_OPEN 5 true 0 in
  exists b', steps b [EvAcquire 3 false] b' /\ b' = b.
Proof.
  intros b. assert (steps b [EvAcquire 3 false] b) as Hs by (by apply replay_steps).
  exists b. split; [exact Hs|].
  apply (half_open_single_probe b b [EvAcquire 3 false]); [done|done|exact Hs|].
  constructor; [reflexivity|constructor].
Defined.

(** The reservation does not remember whose it is.  A call admitted while
    the breaker was CLOSED that settles late with [release_probe] clears the
    flag of the probe admitted since, and a second call is then granted while
    HALF_OPEN: the "only one HALF_OPEN probe" of [try_acquire] does not hold
    across such an interleaving. *)
Theorem late_release_admits_second_probe :
  exists b, steps telegram
    [EvAcquire 0 true;                       (* a slow call, breaker CLOSED *)
     EvFailure 1; EvFailure 1; EvFailure 1; EvFailure 1; EvFailure 1;
     EvAcquire (seconds 61) true;            (* the probe *)
     EvRelease;                              (* the slow call is refused with a 400 *)
     EvAcquire (seconds 61) true]            (* a second probe *)
    b /\ _state b = HALF_OPEN.
Proof.
  eexists. split.
  - apply replay_steps. vm_compute. reflexivity.
  - reflexivity.
Qed.
