(* ===== verification/Dispatch.v ===== *)
(** [tcbot/utils/dispatch.py]: the bounded fan-out, cancellation, and the
    classification of Telegram refusals. *)

From S2P Require Import Prelude Prog Text World.

(** * Benign refusals *)

Definition _BENIGN_BAD_REQUEST_SUBSTRINGS : list ustr :=
  map u ["USER_NOT_PARTICIPANT"; "USER_ID_INVALID"; "CHAT_NOT_FOUND"; "PEER_ID_INVALID";
         "USER_NOT_FOUND"; "USER_IS_A_BOT"; "USER_IS_ANONYMOUS"; "PARTICIPANT_ID_INVALID";
         "CHAT_ADMIN_REQUIRED"]%string.

Section benign.
Context `{UCD}.

Definition _normalize (s : ustr) : ustr := List.filter is_alnum s.

Definition _BENIGN_NORMALIZED : list ustr := map _normalize _BENIGN_BAD_REQUEST_SUBSTRINGS.

Definition is_benign_telegram_error (exc : exn) : bool :=
  match exc with
  | BadRequest msg =>
      let raw := str_upper (u msg) in
      let normalized := _normalize raw in
      existsb (fun target => contains raw target || contains normalized target)
        _BENIGN_NORMALIZED
  | _ => false
  end.

(** The condition both summaries share: a failure that is not benign. *)
Definition transient {T} (r : result T) : bool :=
  match r with Ok _ => false | Err e => negb (is_benign_telegram_error e) end.

Definition count_transient_errors {T} (results : list (result T)) : Z :=
  Z.of_nat (length (List.filter transient results)).

Fixpoint first_transient_error {T} (results : list (result T)) : option exn :=
  match results with
  | [] => None
  | Err e :: rs => if negb (is_benign_telegram_error e) then Some e else first_transient_error rs
  | Ok _ :: rs => first_transient_error rs
  end.
End benign.

(** * Cancellation *)

Fixpoint throw_if_cancelled {T} (results : list (result T)) : io unit :=
  match results with
  | [] => Ret tt
  | r :: rs => if is_cancel r then Raise CancelledError else throw_if_cancelled rs
  end.

(** * Fan-out

    A slot is one iteration of the pool: reserve the Telegram breaker, await
    the coroutine, settle.  What a slot returns as data is an outcome. *)
Definition fan_out_slot {T} (thunk : io T) : io (result T) :=
  ok <- call CbTryAcquire ;;
  if negb ok then Ret (Err CircuitOpenError)
  else
    r <- attempt thunk ;;
    match r with
    | Ok v => call CbRecordSuccess ;;; Ret (Ok v)
    | Err TimedOut => call CbRecordFailure ;;; Ret (Err TimedOut)
    | Err exc =>
        if is_NetworkError exc then
          if is_BadRequest exc then call CbReleaseProbe ;;; Ret (Err exc)
          else call CbRecordFailure ;;; Ret (Err exc)
        else if is_Exception exc then call CbReleaseProbe ;;; Ret (Err exc)
        else call CbReleaseProbe ;;; Raise exc
    end.

(** [gather(return_exceptions=True)] over slots: a slot's own exception is the
    data, like the one it caught. *)
Definition flatten {T} (r : result (result T)) : result T :=
  match r with Ok r => r | Err e => Err e end.

Definition fan_out {T} (coros : list (io T)) : io (list (result T)) :=
  match coros with
  | [] => Ret []
  | _ =>
      rs <- gather_list (map fan_out_slot coros) ;;
      let results := map flatten rs in
      throw_if_cancelled results ;;;
      Ret results
  end.

Definition gather_bounded_slot {T} (coro : io T) : io (result T) :=
  r <- attempt coro ;;
  match r with
  | Ok v => Ret (Ok v)
  | Err exc => if is_Exception exc then Ret (Err exc) else Raise exc
  end.

Definition gather_bounded {T} (coros : list (io T)) : io (list (result T)) :=
  match coros with
  | [] => Ret []
  | _ =>
      rs <- gather_list (map gather_bounded_slot coros) ;;
      let results := map flatten rs in
      throw_if_cancelled results ;;;
      Ret results
  end.

(** * The semaphore

    [asyncio.Semaphore(max_concurrent)] around the slots, as a step relation
    on who waits, runs and is done. *)
Record pool := Pool { waiting : list nat; running : list nat; finished : list nat }.

(** [max_concurrent] below one is taken as one. *)
Definition pool_limit (max_concurrent : Z) : nat := Z.to_nat (Z.max 1 max_concurrent).

Inductive pool_step (limit : nat) : pool -> pool -> Prop :=
  | pool_enter i w r d :
      (length r < limit)%nat ->
      pool_step limit (Pool (i :: w) r d) (Pool w (i :: r) d)
  | pool_leave i w r1 r2 d :
      pool_step limit (Pool w (r1 ++ i :: r2) d) (Pool w (r1 ++ r2) (i :: d)).

Inductive pool_steps (limit : nat) : pool -> nat -> pool -> Prop :=
  | pool_refl p : pool_steps limit p 0 p
  | pool_trans p n q r : pool_steps limit p n q -> pool_step limit q r -> pool_steps limit p (S n) r.

Definition pool_init (n : nat) : pool := Pool (seq 0 n) [] [].

(** * Lemmas *)

Definition obs_granted (o : obs eff) : bool :=
  match o with
  | Obs ev r => match ev in eff X return result X -> bool with
                | CbTryAcquire => fun r => match r with Ok true => true | _ => false end
                | _ => fun _ => false
                end r
  end.

Definition obs_settled (o : obs eff) : bool :=
  match o with
  | Obs ev _ => match ev with
                | CbRecordSuccess | CbRecordFailure | CbReleaseProbe => true
                | _ => false
                end
  end.

Definition obs_failure (o : obs eff) : bool :=
  match o with Obs ev _ => match ev with CbRecordFailure => true | _ => false end end.

(** The traces of a coroutine that leaves the breaker alone. *)
Definition breaker_free (t : trace eff) : Prop :=
  Forall (fun o => obs_granted o = false /\ obs_settled o = false) t.

Definition balanced (t : trace eff) : Prop := tcount obs_granted t = tcount obs_settled t.

Lemma breaker_free_counts t : breaker_free t -> tcount obs_granted t = 0%nat /\ tcount obs_settled t = 0%nat.
Proof.
  intros H. split; apply tcount_zero; eapply Forall_impl; try exact H; simpl; tauto.
Qed.

Lemma balanced_interleave t1 t2 t : balanced t1 -> balanced t2 -> interleave t1 t2 t -> balanced t.
Proof.
  unfold balanced. intros H1 H2 Hi.
  rewrite !(tcount_interleave _ _ _ _ Hi). lia.
Qed.

Lemma throw_if_cancelled_spec {T} (rs : list (result T)) Q :
  wp (throw_if_cancelled rs) Q <->
  Q [] (if existsb is_cancel rs then Err CancelledError else Ok tt).
Proof.
  induction rs as [|r rs IH]; simpl; [apply wp_ret|].
  destruct (is_cancel r); simpl; [apply wp_raise|exact IH].
Qed.

(** A granted reservation, a breaker-free run, one settlement. *)
Lemma balanced_slot t o :
  breaker_free t -> obs_settled o = true -> obs_granted o = false ->
  balanced (Obs CbTryAcquire (Ok true) :: t ++ [o]).
Proof.
  intros [Hg Hs]%breaker_free_counts Ho Hog. unfold balanced.
  rewrite (app_comm_cons t), !tcount_app. unfold tcount in *. simpl. rewrite Ho, Hog. simpl. lia.
Qed.

(** What one slot does: it reserves, settles once if the reservation was
    granted, and either returns an outcome of its coroutine or is cancelled. *)
Lemma fan_out_slot_spec {T} (thunk : io T) (R : result T -> Prop) :
  wp thunk (fun t r => breaker_free t /\ R r) ->
  wp (fan_out_slot thunk)
     (fun t r => balanced t /\
        match r with
        | Ok (Err CircuitOpenError) => True
        | Ok r => R r /\ is_cancel r = false
        | Err e => e = CancelledError /\ R (Err CancelledError)
        end).
Proof.
  intros Hth. unfold fan_out_slot. do 2 wp_step.
  destruct x; cbn [negb]; [|wp_step; done].
  do 2 wp_step. eapply wp_mono; [exact Hth|]. intros t r [Hfree HR].
  destruct r as [v|[]]; cbn [is_NetworkError is_BadRequest is_Exception];
    do 2 wp_step; destruct x; wp_step;
    rewrite app_nil_r; (split; [by apply balanced_slot|done]).
Qed.

Lemma throw_never {T} f (rs : list (result T)) : never f (throw_if_cancelled rs).
Proof. induction rs as [|r rs IH]; simpl; never_auto; done. Qed.

(** A fan-out does what its coroutines do, and uses the breaker. *)
Lemma fan_out_never {T} (f : obs eff -> bool) (coros : list (io T)) :
  (forall r, f (Obs CbTryAcquire r) = false) -> (forall r, f (Obs CbRecordSuccess r) = false) ->
  (forall r, f (Obs CbRecordFailure r) = false) -> (forall r, f (Obs CbReleaseProbe r) = false) ->
  (forall c, In c coros -> never f c) -> never f (fan_out coros).
Proof.
  intros H1 H2 H3 H4 Hc. unfold fan_out. destruct coros as [|c0 cs] eqn:He; [apply never_ret|].
  rewrite <- He in *. clear He c0 cs. apply never_bind.
  - eapply wp_mono; [apply (wp_gather_list fan_out_slot coros (Forall (fun o => f o = false)) (fun _ _ => True))|].
    + constructor.
    + intros t1 t2 t Ht1 Ht2 Hi. by apply (interleave_Forall _ _ _ _ Hi).
    + intros c Hin. apply wp_intro. intros t r Hr. split; [|done]. revert Hr. apply never_elim.
      unfold fan_out_slot. never_auto; first [by apply never_call|by apply Hc].
    + by intros t r [Ht _].
  - intros rs. never_auto. apply throw_never.
Qed.

(** A slot adds calls on the breaker to its coroutine's. *)
Lemma slot_surrounds {T} (thunk : io T) (P : trace eff -> result T -> Prop) (Q : trace eff -> Prop) :
  wp thunk P -> Q [Obs CbTryAcquire (Ok false)] ->
  (forall t r o, P t r -> obs_settled o = true -> Q (Obs CbTryAcquire (Ok true) :: t ++ [o])) ->
  wp (fan_out_slot thunk) (fun t _ => Q t).
Proof.
  intros Hth Hno Hyes. unfold fan_out_slot. do 2 wp_step. destruct x; cbn [negb]; [|by apply wp_ret].
  do 2 wp_step. eapply wp_mono; [exact Hth|]. intros t r HP.
  destruct r as [v|[]]; cbn [is_NetworkError is_BadRequest is_Exception];
    do 2 wp_step; destruct x; wp_step; rewrite ?app_nil_r; by eapply Hyes.
Qed.

(** A property of traces that interleaving and the breaker keep. *)
Lemma fan_out_keeps {T} (P : trace eff -> Prop) (coros : list (io T)) :
  (forall t1 t2 t, P t1 -> P t2 -> interleave t1 t2 t -> P t) ->
  (forall o, obs_settled o = true \/ (exists r, o = Obs CbTryAcquire r) -> P [o]) -> P [] ->
  (forall c, In c coros -> wp c (fun t _ => P t)) -> wp (fan_out coros) (fun t _ => P t).
Proof.
  intros Hi Ho H0 Hc. unfold fan_out. destruct coros as [|c0 cs] eqn:He; [by apply wp_ret|]. rewrite <- He in *. clear He c0 cs.
  apply wp_bind. eapply wp_mono; [apply (wp_gather_list fan_out_slot coros P (fun _ _ => True) H0 Hi)|].
  - intros c Hin. eapply wp_mono; [|intros t r Ht; split; [exact Ht|done]].
    eapply slot_surrounds; [by apply Hc|apply Ho; eauto|]. intros t r o Ht Hset.
    eapply Hi; [| |apply (interleave_app [_] (t ++ [o]))]; [apply Ho; eauto|].
    eapply Hi; [exact Ht| |apply interleave_app]. apply Ho; auto.
  - intros t [rs|e] [Ht _]; [|done]. apply wp_bind, throw_if_cancelled_spec.
    destruct (existsb is_cancel _); rewrite ?app_nil_r; [done|]. apply wp_ret. by rewrite !app_nil_r.
Qed.

(** Each coroutine makes at most one call of class [g]. *)
Lemma fan_out_counts {A T} (g : obs eff -> bool) (f : A -> io T) (xs : list A) :
  (forall o, obs_settled o = true \/ (exists r, o = Obs CbTryAcquire r) -> g o = false) ->
  (forall x, In x xs -> wp (f x) (fun t _ => (tcount g t <= 1)%nat)) ->
  wp (fan_out (map f xs)) (fun t _ => (tcount g t <= length xs)%nat).
Proof.
  intros Hg Hf. unfold fan_out. destruct (map f xs) as [|c0 cs] eqn:He; [apply wp_ret; rewrite tcount_nil; lia|].
  rewrite <- He. clear He c0 cs. apply wp_bind.
  assert (wp (gather_list (map fan_out_slot (map f xs))) (fun t _ => (tcount g t <= length xs)%nat)) as Hall.
  { induction xs as [|x xs IH]; cbn [gather_list map]; [apply wp_ret; by rewrite tcount_nil|]. apply wp_bind.
    eapply wp_gather2; [|apply IH; intros y Hy; apply Hf; by right|].
    - eapply (slot_surrounds _ _ (fun t => (tcount g t <= 1)%nat)); [apply Hf; by left| |].
      + rewrite tcount_cons, tcount_nil, Hg by eauto. lia.
      + intros t r o Ht Hset. rewrite tcount_cons, tcount_app, tcount_cons, tcount_nil, !Hg by eauto. cbn beta in Ht. lia.
    - cbn beta. intros t1 t2 t r1 r2 H1 H2 Hi. assert (tcount g t <= length (x :: xs))%nat as Ht
        by (rewrite (tcount_interleave g _ _ _ Hi); simpl; lia).
      split; [|done]. apply wp_bind. destruct r2; [apply wp_ret, wp_ret|apply wp_raise]; by rewrite !app_nil_r. }
  eapply wp_mono; [exact Hall|]. intros t [rs|e] Ht; [|done]. apply wp_bind, throw_if_cancelled_spec.
  destruct (existsb is_cancel _); rewrite ?app_nil_r; [done|]. apply wp_ret. by rewrite !app_nil_r.
Qed.

(** A fan-out that is not a total failure made a call that landed: [g] holds of
    a call of every coroutine that does not fail transiently. *)
Lemma fan_out_lands `{UCD} {T} (coros : list (io T)) (g : obs eff -> bool) :
  (forall c, In c coros -> wp c (fun t r => transient r = false -> existsb g t = true)) ->
  wp (fan_out coros)
     (fun t r => match r with
                 | Ok rs => length rs = length coros /\
                     (count_transient_errors rs < Z.of_nat (length coros) -> existsb g t = true)
                 | Err _ => True
                 end).
Proof.
  intros Hc. unfold fan_out. destruct coros as [|c0 cs] eqn:He; [by apply wp_ret|]. rewrite <- He in *. clear He c0 cs.
  apply wp_bind. eapply wp_mono.
  { apply (wp_gather_list_exists fan_out_slot coros (fun r => negb (transient (flatten r))) g).
    intros c Hin. unfold fan_out_slot. do 2 wp_step. destruct x; cbn [negb]; [|by apply wp_ret].
    do 2 wp_step. eapply wp_mono; [by apply Hc|]. intros t r Hr.
    destruct r as [v|[]]; cbn [is_NetworkError is_BadRequest is_Exception];
      do 2 wp_step; destruct x; wp_step; cbn [flatten]; intros Ht%negb_true_iff; simpl;
      apply orb_true_iff; right; rewrite existsb_app, (Hr Ht); done. }
  intros t [rs|e] Ht; [|done]. destruct Ht as [Hl Hg]. apply wp_bind, throw_if_cancelled_spec.
  destruct (existsb is_cancel _); [done|]. apply wp_ret. rewrite app_nil_r, length_map. split; [done|].
  unfold count_transient_errors. intros Hlt. apply Hg. rewrite <- Hl in Hlt.
  clear -Hlt. induction rs as [|r rs IH]; simpl in *; [lia|].
  destruct (transient (flatten r)); [|done]. simpl in *. apply IH. lia.
Qed.

(** Waiting on a fan-out that was no total failure. *)
Lemma fan_out_waits `{UCD} {T} (f g : obs eff -> bool) (coros : list (io T)) :
  (forall o, obs_granted o || obs_settled o = true -> g o = false) ->
  (forall r, g (Obs CbTryAcquire r) = false) ->
  (forall c, In c coros -> never g c) ->
  (forall c, In c coros -> wp c (fun t r => transient r = false -> existsb f t = true)) ->
  waits f g (fun r => match r with
                      | Ok rs => count_transient_errors rs <? Z.of_nat (length coros)
                      | Err _ => false
                      end) (fan_out coros).
Proof.
  intros Hg Ha Hn Hl. eapply wp_mono.
  { apply wp_conj; [apply (fan_out_never g coros)|apply (fan_out_lands coros f)]; auto. }
  intros t r [Ht Hr]. split; [by apply guarded_none|].
  destruct r as [rs|e]; [|done]. intros Hc%Z.ltb_lt. by apply Hr.
Qed.

Lemma pool_inv limit n k p :
  pool_steps limit (pool_init n) k p ->
  (length (running p) <= limit)%nat /\
  Permutation (waiting p ++ running p ++ finished p) (seq 0 n) /\
  (2 * length (waiting p) + length (running p) + k = 2 * n)%nat.
Proof.
  remember (pool_init n) as p0 eqn:Hp0.
  induction 1 as [p|p m q r _ IH Hs]; [subst; simpl|destruct (IH Hp0) as (Hl & Hp & Hm)].
  - rewrite !app_nil_r, length_seq. split; [lia|split; [done|lia]].
  - inversion Hs as [i w r0 d Hlt|i w r1 r2 d]; subst; simpl in *.
    + split; [lia|split; [|lia]]. rewrite <- Hp.
      apply Permutation_sym, Permutation_middle.
    + rewrite length_app in *. simpl in *. split; [lia|split; [|lia]].
      rewrite <- Hp. apply Permutation_app_head. rewrite <- !app_assoc.
      apply Permutation_app_head. simpl. apply Permutation_sym, Permutation_middle.
Qed.

(** * Properties *)

(** C10: a fan-out returns one outcome per coroutine, in order; each is that
    coroutine's own value or exception, or [CircuitOpenError] for a slot the
    breaker skipped; cancellation is never among them, it propagates; and
    every reservation of the breaker is settled exactly once, whatever the
    calls answer and however the slots interleave. *)
Theorem fan_out_outcomes {T} (coros : list (io T)) (R : io T -> result T -> Prop)
    (Hcoros : forall c, In c coros -> wp c (fun t r => breaker_free t /\ R c r)) :
  wp (fan_out coros) (fun t r =>
    balanced t /\
    match r with
    | Ok results =>
        Forall2 (fun c r => r = Err CircuitOpenError \/ R c r) coros results /\
        Forall (fun r => is_cancel r = false) results
    | Err e => e = CancelledError
    end).
Proof.
  unfold fan_out. destruct coros as [|c0 cs] eqn:Hc; [apply wp_ret; done|]. rewrite <- Hc in *. clear Hc c0 cs.
  apply wp_bind. eapply wp_mono.
  { apply (wp_gather_list fan_out_slot coros balanced
      (fun c r => flatten r = Err CircuitOpenError \/ R c (flatten r)));
      [done|apply balanced_interleave|].
    intros c Hin. eapply wp_mono; [by apply (fan_out_slot_spec c (R c)), Hcoros|].
    intros t r [Hb Hr]. split; [done|].
    destruct r as [[v|e]|e]; simpl in *; [tauto|destruct e; tauto|].
    destruct Hr as [-> ?]. by right. }
  intros t [rs|e] [Hb Hr]; [|by subst]. apply wp_bind, throw_if_cancelled_spec.
  destruct (existsb is_cancel (map flatten rs)) eqn:Hx; simpl.
  - by rewrite app_nil_r.
  - apply wp_ret. rewrite app_nil_r. split; [done|]. split; [|by apply existsb_false_Forall].
    by apply Forall2_fmap_r.
Qed.

Lemma fan_out_outcomes_witness :
  let coros := [Ret 1; Raise (BadRequest "USER_NOT_PARTICIPANT"); Raise TimedOut] in
  wp (fan_out coros) (fun t r =>
    balanced t /\ match r with
                  | Ok results => length results = 3%nat
                  | Err e => e = CancelledError
                  end).
Proof.
  intros coros. eapply wp_mono; [apply (fan_out_outcomes coros (fun _ _ => True))|].
  - intros c [<-|[<-|[<-|[]]]]; wp_step; split; try constructor.
  - simpl. intros t [rs|e]; [|done]. intros (Hb & HF & _). split; [done|].
    symmetry. exact (Forall2_length _ _ _ HF).
Defined.

(** Refusals never trip the breaker: a slot whose call is refused (a 400,
    a 403, a flood wait or any failure that is not a timeout or a network
    error) records no failure, while a timeout or a network error records
    exactly one. *)
Theorem fan_out_slot_counts {T} (thunk : io T)
    (Hfree : wp thunk (fun t _ => breaker_free t /\ tcount obs_failure t = 0%nat)) :
  wp (fan_out_slot thunk) (fun t r =>
    tcount obs_failure t =
      match r with
      | Ok (Err (NetworkError _)) | Ok (Err TimedOut) => 1%nat
      | _ => 0%nat
      end).
Proof.
  unfold fan_out_slot. do 2 wp_step. destruct x; cbn [negb]; [|wp_step; done].
  do 2 wp_step. eapply wp_mono; [exact Hfree|]. intros t r [_ H0].
  destruct r as [v|[]]; cbn [is_NetworkError is_BadRequest is_Exception];
    do 2 wp_step; destruct x; wp_step; rewrite app_nil_r, !tcount_app, H0; done.
Qed.

Lemma fan_out_slot_counts_witness :
  wp (fan_out_slot (Raise (BadRequest "CHAT_NOT_FOUND") : io unit))
     (fun t r => r = Ok (Err (BadRequest "CHAT_NOT_FOUND")) -> tcount obs_failure t = 0%nat).
Proof.
  eapply wp_mono; [apply fan_out_slot_counts|].
  - wp_step. split; [constructor|reflexivity].
  - intros t r H ->. exact H.
Defined.

(** At most [max(1, max_concurrent)] slots run at once, and the pool
    always finishes: no state with work left is stuck, and every run of [n]
    slots takes exactly [2 n] transitions, each slot entering and leaving
    once. *)
Theorem pool_bounded_and_live (max_concurrent : Z) (n k : nat) (p : pool)
    (Hp : pool_steps (pool_limit max_concurrent) (pool_init n) k p) :
  (length (running p) <= pool_limit max_concurrent)%nat /\
  (k <= 2 * n)%nat /\
  (k = 2 * n <-> Permutation (finished p) (seq 0 n))%nat /\
  ((k < 2 * n)%nat -> exists q, pool_step (pool_limit max_concurrent) p q).
Proof.
  destruct (pool_inv _ _ _ _ Hp) as (Hl & HP & Hm).
  pose proof (Permutation_length HP) as HL. rewrite !length_app, length_seq in HL.
  split; [done|split; [lia|split; [split|]]].
  - intros ->. destruct p as [[|? ?] [|? ?] d]; simpl in *; try lia. done.
  - intros Hf%Permutation_length. rewrite length_seq in Hf. lia.
  - intros Hk. destruct p as [w [|i r] d]; simpl in *.
    + destruct w as [|i w]; [simpl in *; lia|]. eexists. apply pool_enter.
      unfold pool_limit. simpl. lia.
    + eexists. apply (pool_leave _ i w [] r d).
Qed.

Lemma pool_bounded_and_live_witness :
  exists p, pool_steps (pool_limit 0) (pool_init 2) 1 p /\ (length (running p) <= 1)%nat.
Proof.
  assert (pool_steps (pool_limit 0) (pool_init 2) 1 (Pool [1%nat] [0%nat] [])) as Hs.
  { eapply pool_trans; [constructor|]. apply pool_enter. unfold pool_limit. simpl. lia. }
  eexists. split; [exact Hs|].
  apply (pool_bounded_and_live 0 2 1 _ Hs).
Defined.

(** The two summaries agree and partition the outcomes: there is a
    representative transient error exactly when the transient count is not
    zero; successes, benign refusals and transient errors add up to the
    number of groups. *)
Theorem summary_consistent `{UCD} {T} (results : list (result T)) :
  (first_transient_error results = None <-> count_transient_errors results = 0) /\
  (forall e, first_transient_error results = Some e ->
     In (Err e) results /\ is_benign_telegram_error e = false) /\
  count_transient_errors results
    + Z.of_nat (length (List.filter (fun r => negb (is_err r)) results))
    + Z.of_nat (length (List.filter (fun r => is_err r && negb (transient r)) results))
  = Z.of_nat (length results).
Proof.
  unfold count_transient_errors. induction results as [|r rs (IH1 & IH2 & IH3)]; simpl.
  - repeat split; done.
  - destruct r as [v|e]; simpl.
    + split; [done|]. split; [|lia]. intros e He. destruct (IH2 e He). auto.
    + destruct (is_benign_telegram_error e) eqn:Hb; simpl.
      * split; [done|]. split; [|lia]. intros e' He. destruct (IH2 e' He). auto.
      * split; [split; [done|lia]|]. split; [|lia]. intros e' [= <-]. auto.
Qed.
