(* ===== verification/RateLimit.v ===== *)
(** [tcbot/modules/helper/decorators/ratelimit.py], the limiters: the
    in-process sliding window, the Lua script run by Redis, the fallback
    between them, and the abstract sliding window both implement.

    Times are nanoseconds (the clock's resolution) and waits are tenths of a
    second, what [round(seconds, 1)] and the script's [ceil(wait * 10)]
    return; binary floating-point rounding below that is not modelled. *)

From Stdlib Require Import Sorting.Sorted.
From S2P Require Import Prelude Text.

Definition tenth : Z := 100000000.

(** [round(x, 1)] in tenths: nearest, ties to even. *)
Definition round_tenths (ns : Z) : Z :=
  let q := ns / tenth in
  let r := ns mod tenth in
  if 2 * r <? tenth then q
  else if 2 * r >? tenth then q + 1
  else if Z.even q then q else q + 1.

(** [math.ceil(x * 10)] *)
Definition ceil_tenths (ns : Z) : Z := - ((- ns) / tenth).

Record limiter := Limiter { max_calls : Z; window : Z }.

(** Buckets past which a new user triggers the cleanup sweep. *)
Definition cleanup_threshold : Z := 10000.

Section limiter.
Context (lim : limiter).

Definition expired (now t : Z) : bool := now - t >=? window lim.

(** * [_RateLimiter.check] *)
Definition check (now uid : Z) (buckets : gmap Z (list Z)) : gmap Z (list Z) * Z :=
  match buckets !! uid with
  | None =>
      let buckets := <[uid := [now]]> buckets in
      let buckets :=
        if Z.of_nat (size buckets) >? cleanup_threshold then
          let cutoff := now - window lim * 2 in
          filter (fun kv : Z * list Z =>
                    Is_true match kv.2 with [] => false | t :: _ => t >? cutoff end)
                 buckets
        else buckets in
      (buckets, 0)
  | Some dq =>
      let dq := drop_while (expired now) dq in
      match dq with
      | [] => (<[uid := [now]]> buckets, 0)
      | oldest :: _ =>
          if Z.of_nat (length dq) >=? max_calls lim
          then (<[uid := dq]> buckets, round_tenths (window lim - (now - oldest)))
          else (<[uid := dq ++ [now]]> buckets, 0)
      end
  end.

(** * [_RL_LUA]

    The script on one key: a sorted set holds its scores in order, each
    under a member of its own. *)
Definition rl_lua (now : Z) (zset : list Z) : list Z * Z :=
  let zset := List.filter (fun score => negb (score <=? now - window lim)) zset in
  if Z.of_nat (length zset) <? max_calls lim
  then (zset ++ [now], 0)
  else match zset with
       | oldest :: _ =>
           let wait := window lim - (now - oldest) in
           let wait := if wait <? tenth then tenth else wait in
           (zset, ceil_tenths wait)
       | [] => (zset, ceil_tenths (window lim))
       end.

(** * [_AsyncRateLimiter.check]

    [redis] is [None] without a client; otherwise what the bounded round
    trip gave.  Any failure but cancellation falls back to the in-process
    window. *)
Definition async_check (redis : option (result Z)) (now uid : Z)
    (buckets : gmap Z (list Z)) : gmap Z (list Z) * result Z :=
  let local := let '(b, w) := check now uid buckets in (b, Ok w) in
  match redis with
  | None => local
  | Some (Ok result) => if result =? 0 then (buckets, Ok 0) else (buckets, Ok result)
  | Some (Err exc) => if is_Exception exc then local else (buckets, Err exc)
  end.

(** * The abstract sliding window

    Every recorded call of every user, for ever.  A call is allowed when
    fewer than [max_calls] of the user's recorded calls are still inside the
    window, and is then recorded. *)
Definition recent (now : Z) (h : list Z) : list Z := List.filter (fun t => negb (expired now t)) h.
Definition allows (now : Z) (h : list Z) : bool := Z.of_nat (length (recent now h)) <? max_calls lim.
Definition record (now uid : Z) (hist : Z -> list Z) : Z -> list Z :=
  fun u => if u =? uid then if allows now (hist uid) then hist uid ++ [now] else hist uid
           else hist u.

(** ** Simulation *)
Definition bucket_rel (now : Z) (h : list Z) (b : option (list Z)) : Prop :=
  match b with
  | None => Forall (fun t => expired now t = true) h
  | Some dq =>
      exists old, h = old ++ dq /\ Forall (fun t => expired now t = true) old /\
        Sorted Z.le dq /\ Forall (fun t => t <= now) dq /\
        (forall x dq', dq = x :: dq' -> Forall (fun t => t < x + window lim) dq')
  end.

Definition sim (now : Z) (hist : Z -> list Z) (buckets : gmap Z (list Z)) : Prop :=
  forall uid, bucket_rel now (hist uid) (buckets !! uid).

Lemma expired_later now now' t : now <= now' -> expired now t = true -> expired now' t = true.
Proof. unfold expired. rewrite !Z.geb_le. lia. Qed.

Lemma recent_app now a b : recent now (a ++ b) = recent now a ++ recent now b.
Proof. apply List.filter_app. Qed.

Lemma recent_expired now h : Forall (fun t => expired now t = true) h -> recent now h = [].
Proof. unfold recent. induction 1 as [|t h Ht _ IH]; simpl; [done|]. by rewrite Ht. Qed.

(** In a sorted bucket the expired calls are a prefix. *)
Lemma recent_sorted now dq : Sorted Z.le dq -> recent now dq = drop_while (expired now) dq.
Proof.
  intros Hs%Sorted_StronglySorted; [|intros ???; apply Z.le_trans].
  unfold recent. induction Hs as [|t dq Hs IH Ht]; simpl; [done|].
  destruct (expired now t) eqn:He; simpl; [done|]. f_equal.
  rewrite <- (List.filter_ext_in (fun _ => true)); [by rewrite List.filter_true|].
  intros x Hx. rewrite List.Forall_forall in Ht. specialize (Ht x Hx).
  unfold expired in *. symmetry. rewrite negb_true_iff. rewrite Z.geb_leb in *.
  rewrite Z.leb_gt in *. lia.
Qed.

Lemma drop_while_split f s : exists pre, s = pre ++ drop_while f s /\ Forall (fun c => f c = true) pre.
Proof.
  induction s as [|c s (pre & Hs & Hp)]; simpl; [exists []; auto|].
  destruct (f c) eqn:Hc; [|exists []; auto].
  exists (c :: pre). simpl. rewrite <- Hs. auto.
Qed.

Lemma Sorted_app_r (a b : list Z) : Sorted Z.le (a ++ b) -> Sorted Z.le b.
Proof. induction a as [|x a IH]; simpl; [done|]. intros Hs. inversion Hs; auto. Qed.

Lemma Sorted_snoc (l : list Z) x : Sorted Z.le l -> Forall (fun t => t <= x) l -> Sorted Z.le (l ++ [x]).
Proof.
  induction 1 as [|y l Hs IH Hy]; simpl; intros Hx; [auto|].
  apply Forall_cons in Hx as [Hyx Hx]. constructor; [by apply IH|].
  destruct l as [|z l]; simpl; constructor; [done|]. by inversion Hy.
Qed.

Lemma bucket_rel_later now now' h b : now <= now' -> bucket_rel now h b -> bucket_rel now' h b.
Proof.
  intros Hn. destruct b as [dq|]; simpl.
  - intros (old & -> & Ho & Hs & Ht & Hw). exists old. repeat split; auto.
    + eapply Forall_impl; [exact Ho|]. simpl. eauto using expired_later.
    + eapply Forall_impl; [exact Ht|]. simpl. lia.
  - intros H. eapply Forall_impl; [exact H|]. simpl. eauto using expired_later.
Qed.

Lemma bucket_rel_fresh now h :
  Forall (fun t => expired now t = true) h -> bucket_rel now (h ++ [now]) (Some [now]).
Proof.
  intros H. exists h. repeat split; auto; [repeat constructor; lia|].
  intros x dq' [= <- <-]. constructor.
Qed.

(** Purging a bucket keeps the relation and leaves exactly the recent calls. *)
Lemma bucket_purge now h dq :
  bucket_rel now h (Some dq) ->
  recent now h = drop_while (expired now) dq /\
  bucket_rel now h (Some (drop_while (expired now) dq)).
Proof.
  intros (old & -> & Ho & Hs & Ht & Hw).
  split; [by rewrite recent_app, (recent_expired _ old Ho), recent_sorted|].
  destruct (drop_while_split (expired now) dq) as (pre & Hpre & He).
  remember (drop_while (expired now) dq) as dq' eqn:Hdq'. clear Hdq'.
  exists (old ++ pre). rewrite <- app_assoc, <- Hpre. split; [done|].
  rewrite Hpre in Hs, Ht. apply Forall_app in Ht as [_ Ht].
  split; [by apply Forall_app|]. split; [by eapply Sorted_app_r|]. split; [done|].
  intros x l Hx. destruct pre as [|y pre]; [apply Hw; rewrite Hpre; by rewrite Hx|].
  assert (y <= x) as Hyx.
  { rewrite Hx in Hs. apply Sorted_StronglySorted in Hs; [|intros ???; apply Z.le_trans].
    simpl in Hs. inversion Hs as [|? ? _ Hall]; subst.
    apply Forall_app in Hall as [_ Hall]. by inversion Hall. }
  specialize (Hw y (pre ++ dq')). rewrite Hpre in Hw. specialize (Hw eq_refl).
  apply Forall_app in Hw as [_ Hw]. rewrite Hx in Hw. apply Forall_cons in Hw as [_ Hw].
  eapply Forall_impl; [exact Hw|]. simpl. lia.
Qed.

(** The sweep drops only buckets whose every call has expired: a bucket spans
    less than one window. *)
Lemma bucket_cleanup now h dq :
  0 < window lim ->
  match dq with [] => false | t :: _ => t >? now - window lim * 2 end = false ->
  bucket_rel now h (Some dq) -> bucket_rel now h None.
Proof.
  intros Hwin Hd (old & -> & Ho & _ & _ & Hw). simpl. apply Forall_app. split; [done|].
  destruct dq as [|t dq]; [constructor|]. specialize (Hw t dq eq_refl).
  rewrite Z.gtb_ltb in Hd. apply Z.ltb_ge in Hd.
  assert (expired now t = true) as Ht by (unfold expired; rewrite Z.geb_le; lia).
  constructor; [done|]. eapply Forall_impl; [exact Hw|]. simpl. intros x Hx.
  unfold expired. rewrite Z.geb_le. lia.
Qed.

Lemma record_other now uid hist v : v <> uid -> record now uid hist v = hist v.
Proof. intros H. unfold record. by replace (v =? uid) with false by (symmetry; by apply Z.eqb_neq). Qed.

Lemma record_self now uid hist :
  record now uid hist uid = if allows now (hist uid) then hist uid ++ [now] else hist uid.
Proof. unfold record. by rewrite Z.eqb_refl. Qed.

(** Updating the caller's bucket and history together keeps the simulation. *)
Lemma sim_insert now uid hist buckets dq :
  (forall v, v <> uid -> bucket_rel now (hist v) (buckets !! v)) ->
  bucket_rel now (record now uid hist uid) (Some dq) ->
  sim now (record now uid hist) (<[uid := dq]> buckets).
Proof.
  intros Hother Hself v. destruct (decide (v = uid)) as [->|Hne].
  - by rewrite lookup_insert_eq.
  - rewrite lookup_insert_ne, record_other by done. by apply Hother.
Qed.

Lemma bucket_append now h dq :
  bucket_rel now h (Some dq) ->
  (forall x l, dq = x :: l -> expired now x = false) ->
  bucket_rel now (h ++ [now]) (Some (dq ++ [now])).
Proof.
  intros (old & -> & Ho & Hs & Ht & Hw) Hx. exists old. rewrite app_assoc.
  repeat split; auto.
  - by apply Sorted_snoc.
  - apply Forall_app. split; [done|]. constructor; [lia|constructor].
  - intros x l Hl. destruct dq as [|y dq]; simplify_eq/=; [constructor|].
    apply Forall_app. split; [by apply Hw|]. constructor; [|constructor].
    specialize (Hx x dq eq_refl). unfold expired in Hx. rewrite Z.geb_leb in Hx.
    apply Z.leb_gt in Hx. lia.
Qed.

Lemma drop_while_head (f : Z -> bool) s x l : drop_while f s = x :: l -> f x = false.
Proof.
  induction s as [|c s IH]; simpl; [done|]. destruct (f c) eqn:Hc; [done|]. by intros [= <- _].
Qed.

Lemma sim_check now uid hist buckets :
  1 <= max_calls lim -> 0 < window lim -> sim now hist buckets ->
  let '(b', w) := check now uid buckets in
  sim now (record now uid hist) b' /\
  (if allows now (hist uid) then w = 0
   else exists oldest rest, recent now (hist uid) = oldest :: rest /\
          w = round_tenths (window lim - (now - oldest))).
Proof.
  intros Hmax Hwin Hsim. pose proof (Hsim uid) as Hu. unfold check.
  assert (Hother : forall v, v <> uid -> bucket_rel now (hist v) (buckets !! v)) by auto.
  pose proof (record_self now uid hist) as Hself. unfold allows in *.
  destruct (buckets !! uid) as [dq|] eqn:Hb.
  - destruct (bucket_purge now (hist uid) dq Hu) as [Hr Hrel]. rewrite Hr in *.
    destruct (drop_while (expired now) dq) as [|oldest l] eqn:Hdq.
    + cbn [length] in *. replace (Z.of_nat 0 <? max_calls lim) with true in * by (symmetry; apply Z.ltb_lt; lia).
      split; [|done]. apply sim_insert; [done|]. rewrite Hself.
      destruct Hrel as (old & Heq & Ho & _). rewrite app_nil_r in Heq. rewrite Heq.
      by apply bucket_rel_fresh.
    + rewrite Z.geb_leb. destruct (Z.leb_spec (max_calls lim) (Z.of_nat (length (oldest :: l)))) as [Hle|Hlt].
      * replace (_ <? _) with false in * by (symmetry; apply Z.ltb_ge; lia).
        split; [apply sim_insert; [done|by rewrite Hself]|]. eauto.
      * replace (_ <? _) with true in * by (symmetry; apply Z.ltb_lt; lia).
        split; [|done]. apply sim_insert; [done|]. rewrite Hself.
        apply bucket_append; [done|]. intros x l' [= <- <-]. by eapply drop_while_head.
  - simpl in Hu. rewrite (recent_expired _ _ Hu) in *. cbn [length] in *.
    replace (Z.of_nat 0 <? max_calls lim) with true in * by (symmetry; apply Z.ltb_lt; lia).
    assert (sim now (record now uid hist) (<[uid := [now]]> buckets)) as Hs.
    { apply sim_insert; [done|]. rewrite Hself. by apply bucket_rel_fresh. }
    split; [|done]. destruct (_ >? _); [|done]. intros v. rewrite map_lookup_filter.
    specialize (Hs v). destruct (<[uid := [now]]> buckets !! v) as [dqv|]; simpl; [|done].
    case_guard as Hg; simpl; [done|]. apply (bucket_cleanup now _ dqv Hwin); [|done].
    simpl in Hg. destruct (match dqv with [] => false | t :: _ => _ end); [|done]. by destruct Hg.
Qed.
End limiter.

(** * Whole histories *)

(** The module's limiters: 8 commands per 30 s, 16 for staff, 20 presses per
    10 s. *)
Definition _cmd_limiter : limiter := Limiter 8 30000000000.
Definition _cmd_staff_limiter : limiter := Limiter 16 30000000000.
Definition _cbq_limiter : limiter := Limiter 20 10000000000.

Section history.
Context (lim : limiter).

(** A sequence of calls [(now, uid)] served by the in-process limiter. *)
Fixpoint local_run (calls : list (Z * Z)) (buckets : gmap Z (list Z)) : list Z :=
  match calls with
  | [] => []
  | (now, uid) :: calls' =>
      let '(b, w) := check lim now uid buckets in w :: local_run calls' b
  end.

(** The same sequence under the abstract window: [None] is allowed, [Some
    ns] is denied with that much left until the oldest call expires. *)
Fixpoint spec_run (calls : list (Z * Z)) (hist : Z -> list Z) : list (option Z) :=
  match calls with
  | [] => []
  | (now, uid) :: calls' =>
      (if allows lim now (hist uid) then None
       else Some match recent lim now (hist uid) with
                 | oldest :: _ => window lim - (now - oldest)
                 | [] => window lim
                 end)
      :: spec_run calls' (record lim now uid hist)
  end.

Fixpoint spec_hist (calls : list (Z * Z)) (hist : Z -> list Z) : Z -> list Z :=
  match calls with
  | [] => hist
  | (now, uid) :: calls' => spec_hist calls' (record lim now uid hist)
  end.

(** The clock never goes back. *)
Fixpoint clock_ok (from : Z) (calls : list (Z * Z)) : Prop :=
  match calls with
  | [] => True
  | (now, _) :: calls' => from <= now /\ clock_ok now calls'
  end.

(** How the in-process limiter answers what the window decides.  A denial is
    answered the time that is left, rounded to the nearest tenth; with no more
    than 50 ms left that is 0, the answer of an allowed call, although the call
    is not recorded. *)
Definition answers (w : Z) (decision : option Z) : Prop :=
  match decision with
  | None => w = 0
  | Some ns => 0 < ns /\ w = round_tenths ns /\ 0 <= w /\ (w = 0 <-> 2 * ns <= tenth)
  end.

Lemma answers_denied ns : 0 < ns -> answers (round_tenths ns) (Some ns).
Proof.
  intros Hns. split; [done|]. split; [done|]. unfold round_tenths, tenth.
  pose proof (Z.div_mod ns 100000000 ltac:(lia)) as Hdm. pose proof (Z.mod_pos_bound ns 100000000 ltac:(lia)) as Hm.
  assert (0 <= ns / 100000000) as Hq by (apply Z.div_pos; lia).
  set (q := ns / 100000000) in *. set (r := ns mod 100000000) in *. clearbody q r. rewrite Z.gtb_ltb.
  destruct (Z.ltb_spec (2 * r) 100000000); [lia|]. destruct (Z.ltb_spec 100000000 (2 * r)); [lia|].
  destruct (Z.even q) eqn:He; [lia|]. assert (q <> 0) by (intros ->; discriminate). lia.
Qed.

Lemma recent_live now h x l : recent lim now h = x :: l -> 0 < window lim - (now - x).
Proof.
  intros H. assert (In x (recent lim now h)) as Hx by (rewrite H; by left).
  apply List.filter_In in Hx as [_ Hx]. unfold expired in Hx. rewrite Z.geb_leb in Hx.
  apply negb_true_iff, Z.leb_gt in Hx. lia.
Qed.

Lemma local_run_spec from calls buckets hist :
  1 <= max_calls lim -> 0 < window lim -> clock_ok from calls -> sim lim from hist buckets ->
  Forall2 answers (local_run calls buckets) (spec_run calls hist).
Proof.
  intros Hmax Hwin. revert from buckets hist.
  induction calls as [|[now uid] calls IH]; intros from buckets hist; simpl; [constructor|].
  intros [Hle Hclk] Hsim.
  assert (sim lim now hist buckets) as Hsim' by (intros v; eapply bucket_rel_later; eauto).
  pose proof (sim_check lim now uid hist buckets Hmax Hwin Hsim') as Hc.
  destruct (check lim now uid buckets) as [b w]. destruct Hc as [Hs Hw].
  constructor; [|by eapply IH].
  destruct (allows lim now (hist uid)); [done|]. destruct Hw as (o & r & Hr & ->). rewrite Hr.
  by eapply answers_denied, recent_live.
Qed.

(** Each recorded call found room in its own window. *)
Definition roomy (h : list Z) : Prop :=
  forall a x b, h = a ++ x :: b -> Z.of_nat (length (recent lim x a)) < max_calls lim.

Definition hist_ok (from : Z) (hist : Z -> list Z) : Prop :=
  forall uid, roomy (hist uid) /\ Sorted Z.le (hist uid) /\ Forall (fun t => t <= from) (hist uid).

Lemma roomy_snoc h x : roomy h -> Z.of_nat (length (recent lim x h)) < max_calls lim -> roomy (h ++ [x]).
Proof.
  intros Hr Hx a y b Heq. destruct (exists_last (l := y :: b)) as (b' & z & Hb); [done|].
  rewrite Hb, app_assoc in Heq. apply app_inj_tail in Heq as [Hh ->].
  destruct b' as [|y' b']; simpl in Hb, Hh; injection Hb as -> ->.
  - rewrite app_nil_r in Hh. by subst.
  - by apply (Hr a y' b').
Qed.

Lemma hist_ok_run from calls hist :
  clock_ok from calls -> hist_ok from hist ->
  exists last, hist_ok last (spec_hist calls hist).
Proof.
  revert from hist. induction calls as [|[now uid] calls IH]; intros from hist; simpl; [eauto|].
  intros [Hle Hclk] Hok. apply (IH now); [done|]. intros v.
  destruct (Hok v) as (Hr & Hs & Ht).
  assert (Forall (fun t => t <= now) (hist v)) as Ht'
    by (eapply Forall_impl; [exact Ht|]; simpl; lia).
  destruct (decide (v = uid)) as [->|Hne]; [|rewrite record_other by done; done].
  rewrite record_self. destruct (allows lim now (hist uid)) eqn:Ha; [|done].
  unfold allows in Ha. apply Z.ltb_lt in Ha. repeat split.
  - by apply roomy_snoc.
  - by apply Sorted_snoc.
  - apply Forall_app. split; [done|]. constructor; [lia|constructor].
Qed.

Definition in_window (T t : Z) : bool := (T - window lim <? t) && (t <=? T).

Lemma roomy_window T h :
  0 <= max_calls lim -> roomy h ->
  Z.of_nat (length (List.filter (in_window T) h)) <= max_calls lim.
Proof.
  intros Hmax. induction h as [|x h IH] using rev_ind; intros Hr; [simpl; lia|].
  assert (roomy h) as Hh by (intros a y b ->; apply (Hr a y (b ++ [x])); by rewrite <- app_assoc).
  specialize (IH Hh). rewrite List.filter_app, length_app. simpl.
  destruct (in_window T x) eqn:Hx; simpl; [|lia].
  specialize (Hr h x [] eq_refl).
  assert (length (List.filter (in_window T) h) <= length (recent lim x h))%nat; [|lia].
  unfold in_window in Hx. to_prop. unfold recent. clear IH Hh Hr. induction h as [|t h IHh]; simpl; [lia|].
  destruct (in_window T t) eqn:Ht; [|destruct (negb _); simpl; lia].
  replace (expired lim x t) with false; [simpl; lia|]. symmetry.
  unfold in_window, expired in *. to_prop. rewrite Z.geb_leb. apply Z.leb_gt. lia.
Qed.
End history.

(** * Properties *)

(** C12: the in-process limiter, with its lazy purging and its memory sweep,
    keeps the abstract per-user sliding window: over any sequence of calls by any
    users on a clock that does not go back, a call the window allows is answered
    0, and one it denies, which has some time left to wait, is answered that time
    rounded to the nearest tenth of a second.  This is positive when more than
    50 ms are left, and 0 otherwise: such a denial reads as allowed
    ([local_denial_reads_as_allowed]). *)
Theorem check_refines_window (lim : limiter) (from : Z) (calls : list (Z * Z))
    (Hmax : 1 <= max_calls lim) (Hwin : 0 < window lim) (Hclk : clock_ok from calls) :
  Forall2 answers (local_run lim calls ∅) (spec_run lim calls (fun _ => [])).
Proof.
  apply (local_run_spec lim from); try done. intros uid. rewrite lookup_empty. constructor.
Qed.

Lemma check_refines_window_witness :
  local_run (Limiter 2 1000000000) [(0, 7); (10, 7); (20, 7); (20, 8); (1000000000, 7)] ∅ = [0; 0; 10; 0; 0] /\
  Forall2 answers
    (local_run (Limiter 2 1000000000) [(0, 7); (10, 7); (20, 7); (20, 8); (1000000000, 7)] ∅)
    [None; None; Some 999999980; None; None].
Proof.
  split; [by vm_compute|].
  refine (check_refines_window (Limiter 2 1000000000) 0
            [(0, 7); (10, 7); (20, 7); (20, 8); (1000000000, 7)] _ _ _); simpl; lia.
Defined.

(** The quota holds over every window of time, not only at the moments
    of the calls: at most [max_calls] calls of a user are let through and
    recorded between [T - window] and [T], for every [T]. *)
Theorem window_quota (lim : limiter) (from : Z) (calls : list (Z * Z)) (uid T : Z)
    (Hmax : 1 <= max_calls lim) (Hclk : clock_ok from calls) :
  Z.of_nat (length (List.filter (in_window lim T) (spec_hist lim calls (fun _ => []) uid)))
  <= max_calls lim.
Proof.
  destruct (hist_ok_run lim from calls (fun _ => []) Hclk) as [last Hok].
  - intros v. repeat split; try constructor. intros a x b Hx. by destruct a.
  - apply roomy_window; [lia|]. apply (Hok uid).
Qed.

Lemma window_quota_witness :
  Z.of_nat (length (List.filter (in_window (Limiter 2 1000) 500)
    (spec_hist (Limiter 2 1000) [(0, 7); (10, 7); (20, 7); (30, 7)] (fun _ => []) 7))) <= 2.
Proof.
  apply (window_quota (Limiter 2 1000) 0 [(0, 7); (10, 7); (20, 7); (30, 7)] 7 500); simpl; lia.
Defined.

(** C13: the Redis script takes the same decision as the abstract window on
    the same history, records exactly the allowed calls, and answers at least
    one tenth of a second when it denies, so a denial is never read as
    permission. *)
Theorem lua_matches_window (lim : limiter) (now : Z) (old zset : list Z)
    (Hold : Forall (fun t => expired lim now t = true) old) (Hwin : 0 < window lim) :
  let h := old ++ zset in
  let '(zset', w) := rl_lua lim now zset in
  (exists old', Forall (fun t => expired lim now t = true) old' /\
     Permutation (if allows lim now h then h ++ [now] else h) (old' ++ zset')) /\
  (w = 0 <-> allows lim now h = true) /\ (allows lim now h = false -> 1 <= w).
Proof.
  intros h. unfold rl_lua, allows, h. rewrite recent_app, (recent_expired _ _ _ Hold). cbn [app].
  assert (List.filter (fun score => negb (score <=? now - window lim)) zset = recent lim now zset) as Hf.
  { apply List.filter_ext. intros t. unfold expired. f_equal. rewrite Z.geb_leb.
    apply eq_true_iff_eq. rewrite !Z.leb_le. lia. }
  rewrite Hf. set (gone := List.filter (expired lim now) zset).
  assert (Forall (fun t => expired lim now t = true) (old ++ gone)) as Hgone.
  { apply Forall_app. split; [done|]. apply List.Forall_forall. intros t Ht.
    apply List.filter_In in Ht. tauto. }
  assert (Permutation (old ++ zset) ((old ++ gone) ++ recent lim now zset)) as HP.
  { rewrite <- app_assoc. apply Permutation_app_head. clear Hf Hgone. subst gone. unfold recent.
    induction zset as [|t z IH]; simpl; [done|]. destruct (expired lim now t); simpl.
    - by constructor.
    - rewrite <- Permutation_middle. by constructor. }
  destruct (Z.of_nat (length (recent lim now zset)) <? max_calls lim).
  - split; [|done]. exists (old ++ gone). split; [done|]. rewrite app_assoc. by apply Permutation_app_tail.
  - assert (forall x, tenth <= x -> 1 <= ceil_tenths x) as Hceil.
    { intros x Hx. unfold ceil_tenths, tenth in *.
      pose proof (Z.div_le_mono (- x) (- 100000000) 100000000).
      change (- 100000000 / 100000000) with (-1) in *. lia. }
    assert (forall x, 0 < x -> 1 <= ceil_tenths x) as Hceil0.
    { intros x Hx. unfold ceil_tenths, tenth.
      pose proof (Z.div_lt_upper_bound (- x) 100000000 0). lia. }
    destruct (recent lim now zset) as [|oldest z].
    + split; [eauto|]. specialize (Hceil0 (window lim)). split; [split; [lia|done]|lia].
    + split; [eauto|]. case_match; to_prop; [specialize (Hceil tenth)|];
        [|match goal with |- context[ceil_tenths ?x] => specialize (Hceil x) end];
        split; try (split; [lia|done]); lia.
Qed.

Lemma lua_matches_window_witness :
  let '(zset', w) := rl_lua (Limiter 1 1000) 5 [0] in 1 <= w.
Proof.
  destruct (lua_matches_window (Limiter 1 1000) 5 [] [0] (List.Forall_nil _) ltac:(simpl; lia))
    as (_ & _ & H).
  apply H. reflexivity.
Defined.

(** The in-process fallback can read a denial as permission.  In the
    last 50 ms before a full bucket frees a slot the wait rounds to 0.0, which
    every caller takes as "allowed", while nothing is recorded: the quota
    stops counting. *)
Theorem local_denial_reads_as_allowed (lim : limiter) (now uid : Z) (hist : Z -> list Z)
    (buckets : gmap Z (list Z)) (oldest : Z) (rest : list Z)
    (Hmax : 1 <= max_calls lim) (Hwin : 0 < window lim) (Hsim : sim lim now hist buckets)
    (Hfull : allows lim now (hist uid) = false)
    (Hrecent : recent lim now (hist uid) = oldest :: rest)
    (Hlate : 0 < window lim - (now - oldest) <= 50000000) :
  (check lim now uid buckets).2 = 0 /\ record lim now uid hist uid = hist uid.
Proof.
  pose proof (sim_check lim now uid hist buckets Hmax Hwin Hsim) as Hc.
  destruct (check lim now uid buckets) as [b w]. rewrite Hfull, Hrecent in Hc.
  destruct Hc as [_ (o & r & [= <- <-] & ->)]. rewrite record_self, Hfull. split; [|done].
  simpl. unfold round_tenths, tenth. rewrite Z.div_small, Z.mod_small by lia.
  destruct (Z.ltb_spec (2 * (window lim - (now - oldest))) 100000000); [done|].
  rewrite Z.gtb_ltb. destruct (Z.ltb_spec 100000000 (2 * (window lim - (now - oldest)))); [lia|done].
Qed.

Lemma local_denial_reads_as_allowed_witness :
  (check (Limiter 1 1000000000) 960000000 7 {[7 := [0]]}).2 = 0.
Proof.
  apply (local_denial_reads_as_allowed (Limiter 1 1000000000) 960000000 7
           (fun v => if v =? 7 then [0] else []) {[7 := [0]]} 0 []); simpl; try lia; try reflexivity.
  intros v. destruct (decide (v = 7)) as [->|Hne].
  - rewrite lookup_singleton_eq. exists []. repeat split; try constructor; try lia; try constructor.
    intros x dq' [= <- <-]. constructor.
  - rewrite lookup_singleton_ne by done. replace (v =? 7) with false by (symmetry; by apply Z.eqb_neq).
    constructor.
Defined.
