(* ===== verification/Codec.v ===== *)
(** [tcbot/database/cache/codec.py]: the tagged representation that carries
    dates and ObjectIds through JSON, and its inverse.

    A JSON value is a [bson] value without dates and ObjectIds ([is_json]);
    documents have string keys, so the stringification of other keys never
    applies.  [datetime.isoformat] and [bson.ObjectId] with their parsers are
    the interface [Scalars]. *)

From S2P Require Import Prelude World.

Definition _MONGO_TYPE_KEY : string := "__tcbot_type__".
Definition _MONGO_DATETIME_TYPE : string := "datetime".
Definition _MONGO_OBJECT_ID_TYPE : string := "objectid".

(** What the codec needs of the scalar types; parsers answer [None] where
    Python raises. *)
Class Scalars := {
  isoformat : Z -> string;
  fromisoformat : string -> option Z;
  oid_parse : string -> option string;
}.

(** Printing then parsing a scalar gives it back; an ObjectId is held by its
    hexadecimal text. *)
Class ScalarLaws (S : Scalars) := {
  fromisoformat_isoformat : forall d, fromisoformat (isoformat d) = Some d;
  oid_ok : string -> Prop;
  oid_parse_ok : forall s, oid_ok s -> oid_parse s = Some s;
}.

Definition tagged (ty raw : string) : bson :=
  BDoc [(_MONGO_TYPE_KEY, BStr ty); ("value", BStr raw)].

Section codec.
Context `{SC : Scalars}.

Fixpoint _tag_scalars (value : bson) : bson :=
  match value with
  | BDate d => tagged _MONGO_DATETIME_TYPE (isoformat d)
  | BId o => tagged _MONGO_OBJECT_ID_TYPE o
  | BDoc fields => BDoc (map (fun kv => (kv.1, _tag_scalars kv.2)) fields)
  | BArr items => BArr (map _tag_scalars items)
  | v => v
  end.

(** [set(d.keys()) == {_MONGO_TYPE_KEY, "value"}] *)
Definition exact_shape (d : doc) : bool :=
  forallb (fun kv => String.eqb kv.1 _MONGO_TYPE_KEY || String.eqb kv.1 "value") d
  && existsb (fun kv => String.eqb kv.1 _MONGO_TYPE_KEY) d
  && existsb (fun kv => String.eqb kv.1 "value") d.

(** The check on one mapping whose children are restored. *)
Definition restore_doc (restored : doc) : bson :=
  if negb (exact_shape restored) then BDoc restored
  else match dget _MONGO_TYPE_KEY restored, dget "value" restored with
       | Some (BStr ty), Some (BStr raw) =>
           if String.eqb ty _MONGO_DATETIME_TYPE then
             match fromisoformat raw with Some dt => BDate dt | None => BDoc restored end
           else if String.eqb ty _MONGO_OBJECT_ID_TYPE then
             match oid_parse raw with Some o => BId o | None => BDoc restored end
           else BDoc restored
       | _, _ => BDoc restored
       end.

Fixpoint _restore_tagged (value : bson) : bson :=
  match value with
  | BDoc fields => restore_doc (map (fun kv => (kv.1, _restore_tagged kv.2)) fields)
  | BArr items => BArr (map _restore_tagged items)
  | v => v
  end.

(** [_decode_redis_value] over a JSON parser, which may refuse its input. *)
Definition _decode_redis_value (json_decode : string -> option bson) (raw : string) : option bson :=
  match json_decode raw with Some v => Some (_restore_tagged v) | None => None end.

(** * Structural facts *)

Fixpoint is_json (v : bson) : bool :=
  match v with
  | BDate _ | BId _ => false
  | BDoc fields => forallb (fun kv => is_json kv.2) fields
  | BArr items => forallb is_json items
  | _ => true
  end.

(** The values the codec promises to carry: no document anywhere has exactly
    the two keys of a tag, and ObjectIds are well formed. *)
Fixpoint carried (ok : string -> Prop) (v : bson) : Prop :=
  match v with
  | BId o => ok o
  | BDoc fields =>
      exact_shape fields = false /\
      (fix go (l : doc) := match l with [] => True | kv :: l' => carried ok kv.2 /\ go l' end) fields
  | BArr items =>
      (fix go (l : list bson) := match l with [] => True | x :: l' => carried ok x /\ go l' end) items
  | _ => True
  end.

(** Induction on values with the hypothesis on every nested one. *)
Section bson_rect.
Context (P : bson -> Prop)
  (Hflat : forall v, match v with BDoc _ | BArr _ => False | _ => True end -> P v)
  (Hdoc : forall fields, Forall (fun kv : string * bson => P kv.2) fields -> P (BDoc fields))
  (Harr : forall items, Forall P items -> P (BArr items)).

Fixpoint bson_ind' (v : bson) : P v :=
  match v as v return P v with
  | BDoc fields =>
      Hdoc fields ((fix go (l : doc) : Forall (fun kv => P kv.2) l :=
        match l with [] => List.Forall_nil _ | kv :: l' => List.Forall_cons _ kv l' (bson_ind' kv.2) (go l') end) fields)
  | BArr items =>
      Harr items ((fix go (l : list bson) : Forall P l :=
        match l with [] => List.Forall_nil _ | x :: l' => List.Forall_cons _ x l' (bson_ind' x) (go l') end) items)
  | BNull => Hflat BNull I | BBool b => Hflat (BBool b) I | BInt z => Hflat (BInt z) I
  | BStr s => Hflat (BStr s) I | BDate d => Hflat (BDate d) I | BId o => Hflat (BId o) I
  end.
End bson_rect.

Lemma forallb_map {A B} (f : A -> B) (g : B -> bool) l :
  forallb g (map f l) = forallb (fun x => g (f x)) l.
Proof. induction l as [|x l IH]; simpl; [done|by rewrite IH]. Qed.

Lemma existsb_map {A B} (f : A -> B) (g : B -> bool) l :
  existsb g (map f l) = existsb (fun x => g (f x)) l.
Proof. induction l as [|x l IH]; simpl; [done|by rewrite IH]. Qed.

Lemma exact_shape_map (f : bson -> bson) (d : doc) :
  exact_shape (map (fun kv => (kv.1, f kv.2)) d) = exact_shape d.
Proof. unfold exact_shape. by rewrite forallb_map, !existsb_map. Qed.

Lemma tag_is_json v : is_json (_tag_scalars v) = true.
Proof.
  induction v as [v Hv|fields IH|items IH] using bson_ind'; [by destruct v|..]; simpl;
    rewrite forallb_map; apply forallb_forall; by apply List.Forall_forall.
Qed.
End codec.

(** C37: what is cached comes back: tagging, the JSON round trip and restoring
    give the original value, dates and ObjectIds included, for every value
    without a document shaped exactly like a tag; and what is sent to the JSON
    library never holds a date or an ObjectId. *)
Theorem codec_roundtrip `{SL : ScalarLaws} (json_encode : bson -> string)
    (json_decode : string -> option bson) (v : bson)
    (Hjson : is_json (_tag_scalars v) = true ->
             json_decode (json_encode (_tag_scalars v)) = Some (_tag_scalars v))
    (Hv : carried oid_ok v) :
  _decode_redis_value json_decode (json_encode (_tag_scalars v)) = Some v.
Proof.
  unfold _decode_redis_value. rewrite (Hjson (tag_is_json v)). f_equal. clear Hjson.
  induction v as [v Hf|fields IH|items IH] using bson_ind'.
  - destruct v; try done; simpl; unfold restore_doc; simpl.
    + by rewrite fromisoformat_isoformat.
    + by rewrite (oid_parse_ok _ Hv).
  - simpl. destruct Hv as [Hshape Hv]. unfold restore_doc.
    assert (map (fun kv => (kv.1, _restore_tagged kv.2))
              (map (fun kv => (kv.1, _tag_scalars kv.2)) fields) = fields) as ->; [|by rewrite Hshape].
    clear Hshape. induction IH as [|[k x] fields Hx _ IH]; simpl in *; [done|].
    destruct Hv as [H1 H2]. f_equal; [by rewrite Hx|by apply IH].
  - simpl. f_equal. induction IH as [|x items Hx _ IH]; simpl in *; [done|].
    destruct Hv as [H1 H2]. f_equal; [by apply Hx|by apply IH].
Qed.

(** Scalars of a concrete world: dates in unary. *)
Fixpoint ticks (n : nat) : string :=
  match n with O => "" | S n' => String "." (ticks n') end.

Lemma length_ticks n : String.length (ticks n) = n.
Proof. induction n as [|n IH]; simpl; congruence. Qed.

Definition unary_scalars : Scalars := {|
  isoformat d := if d <? 0 then String "-" (ticks (Z.to_nat (- d))) else ticks (Z.to_nat d);
  fromisoformat s :=
    match s with
    | String "-" t => Some (- Z.of_nat (String.length t))
    | _ => Some (Z.of_nat (String.length s))
    end;
  oid_parse s := Some s |}.

Lemma unary_roundtrip d :
  fromisoformat (Scalars := unary_scalars) (isoformat (Scalars := unary_scalars) d) = Some d.
Proof.
  unfold fromisoformat, isoformat; simpl. destruct (Z.ltb_spec d 0); simpl.
  - rewrite length_ticks. f_equal. lia.
  - destruct (Z.to_nat d) as [|n] eqn:Hn; simpl; rewrite ?length_ticks; f_equal; lia.
Qed.

Definition unary_laws : ScalarLaws unary_scalars := {|
  fromisoformat_isoformat := unary_roundtrip;
  oid_ok _ := True;
  oid_parse_ok _ _ := eq_refl |}.

Lemma codec_roundtrip_witness :
  let v := BDoc [("ban_id", BStr "x"); ("_id", BId "65a0"); ("on", BArr [BInt 3; BDate (-2)])] in
  let S := unary_scalars in
  _decode_redis_value (fun _ => Some (_tag_scalars v)) "payload" = Some v.
Proof.
  intros v S.
  refine (codec_roundtrip (SL := unary_laws) (fun _ => "payload"%string)
            (fun _ => Some (_tag_scalars v)) v (fun _ => eq_refl) _).
  simpl. tauto.
Defined.
