(* ===== verification/Cache.v ===== *)
(** [tcbot/database/cache]: the two-level cache ([twolevel.py],
    [memory.py]) as programs over its layers, the per-key lock protocol of
    [get_or_fetch] as a step relation over concurrent callers, and the ordered
    queue of Redis mutations ([mutations.py]). *)

From S2P Require Import Prelude Prog World.

(** * Operations

    A cache is named by its Redis prefix. *)
Definition _rkey (prefix key : string) : string := ("tcbot:" ++ prefix ++ ":v2:" ++ key)%string.

Definition redis_put_background (cache key : string) (val : bson) : io unit :=
  rc <- call RedisClient ;;
  if negb rc then Ret tt
  else
    payload <- try_except (p <- call (EncodeRedisValue val) ;; Ret (Some p)) (fun _ => Ret None) ;;
    match payload with
    | None => Ret tt
    | Some payload => call (RedisEnqueueSet (_rkey cache key) payload)
    end.

Definition redis_del_background (cache key : string) : io unit :=
  rc <- call RedisClient ;;
  if negb rc then Ret tt else call (RedisEnqueueDelete (_rkey cache key)).

Definition put (cache key : string) (val : bson) : io unit :=
  call (MemPut cache key val) ;;; redis_put_background cache key val.

Definition invalidate (cache key : string) : io unit :=
  call (MemInvalidate cache key) ;;;
  call (LockDrop cache key) ;;;
  redis_del_background cache key.

Definition clear (cache : string) : io unit := call (MemClear cache).

(** The Redis sweep is enqueued undroppable; waiting for it is bounded. *)
Definition clear_all (cache : string) : io unit :=
  call (MemClear cache) ;;;
  task <- call (RedisEnqueueClear cache) ;;
  if negb task then Ret tt
  else
    r <- attempt (call (RedisAwaitClear cache)) ;;
    match r with
    | Err TimeoutError => Ret tt
    | r => of_result r
    end.

(** The second layer: [Some] is a usable value, [None] a miss, an outage or a
    corrupt payload. *)
Definition read_redis (cache key : string) : io (option bson) :=
  rc <- call RedisClient ;;
  if negb rc then Ret None
  else
    raw <- attempt (call (RedisGet (_rkey cache key))) ;;
    match raw with
    | Err e =>
        if is_Exception e then call (RedisMarkOp false) ;;; Ret None else Raise e
    | Ok raw =>
        call (RedisMarkOp true) ;;;
        match raw with
        | None => Ret None
        | Some raw => try_except (v <- call (DecodeRedisValue raw) ;; Ret (Some v)) (fun _ => Ret None)
        end
    end.

(** The body run under the key's lock. *)
Definition locked_fetch (cache key : string) (fetch : io bson) : io bson :=
  hit <- call (MemGet cache key) ;;
  match hit with
  | Some val => Ret val
  | None =>
      loaded <- read_redis cache key ;;
      match loaded with
      | Some loaded => call (MemPut cache key loaded) ;;; Ret loaded
      | None =>
          val <- fetch ;;
          call (MemPut cache key val) ;;;
          payload <- try_except (p <- call (EncodeRedisValue val) ;; Ret (Some p)) (fun _ => Ret None) ;;
          match payload with
          | None => Ret val
          | Some payload => call (RedisEnqueueSet (_rkey cache key) payload) ;;; Ret val
          end
      end
  end.

Definition get_or_fetch (cache key : string) (fetch : io bson) : io bson :=
  hit <- call (MemGet cache key) ;;
  match hit with
  | Some val => Ret val
  | None =>
      r <- attempt (call (LockAcquire cache key) ;;;
                    r <- attempt (locked_fetch cache key fetch) ;;
                    call (LockRelease cache key) ;;;
                    of_result r) ;;
      call (LockDrop cache key) ;;;
      of_result r
  end.

(** * What a trace does to one cache *)

Definition obs_mem_put (cache : string) (o : obs eff) : bool :=
  match o with
  | Obs ev _ => match ev with MemPut c _ _ => String.eqb c cache | _ => false end
  end.

(** The values a trace writes to the in-process layer under a key. *)
Fixpoint mem_puts (cache key : string) (t : trace eff) : list bson :=
  match t with
  | [] => []
  | Obs ev _ :: t' =>
      match ev with
      | MemPut c k v => if (String.eqb c cache && String.eqb k key)%bool then v :: mem_puts cache key t'
                        else mem_puts cache key t'
      | _ => mem_puts cache key t'
      end
  end.

(** A successful read of a layer in a trace. *)
Definition obs_serves (cache key : string) (v : bson) (o : obs eff) : Prop :=
  match o with
  | Obs ev r =>
      match ev in eff X return result X -> Prop with
      | MemGet c k => fun r => c = cache /\ k = key /\ r = Ok (Some v)
      | DecodeRedisValue _ => fun r => r = Ok v
      | _ => fun _ => False
      end r
  end.

(** A trace leaves the in-process layer of [cache] alone, and holds no lock
    operation on it. *)
Definition obs_touches (cache : string) (o : obs eff) : bool :=
  match o with
  | Obs ev _ =>
      match ev with
      | MemPut c _ _ | MemInvalidate c _ | MemClear c
      | LockAcquire c _ | LockRelease c _ | LockDrop c _ => String.eqb c cache
      | _ => false
      end
  end.

Definition obs_acquired (cache key : string) (o : obs eff) : bool :=
  match o with
  | Obs ev r =>
      match ev with
      | LockAcquire c k => (negb (is_err r) && String.eqb c cache && String.eqb k key)%bool
      | _ => false
      end
  end.

Definition obs_released (cache key : string) (o : obs eff) : bool :=
  match o with
  | Obs ev _ =>
      match ev with
      | LockRelease c k => (String.eqb c cache && String.eqb k key)%bool
      | _ => false
      end
  end.

Lemma mem_puts_app cache key t1 t2 :
  mem_puts cache key (t1 ++ t2) = (mem_puts cache key t1 ++ mem_puts cache key t2)%list.
Proof.
  induction t1 as [|[X ev r] t1 IH]; simpl; [done|].
  destruct ev; try done. case_match; simpl; by rewrite IH.
Qed.

Definition untouched (cache : string) (t : trace eff) : Prop :=
  Forall (fun o => obs_touches cache o = false) t.

Lemma mem_puts_untouched cache key t : untouched cache t -> mem_puts cache key t = [].
Proof.
  induction 1 as [|[X ev r] t Ho _ IH]; simpl in *; [done|].
  destruct ev; try done. by rewrite Ho.
Qed.

Lemma untouched_locks cache key t :
  untouched cache t -> tcount (obs_acquired cache key) t = 0%nat /\ tcount (obs_released cache key) t = 0%nat.
Proof.
  intros H. split; apply tcount_zero; (eapply Forall_impl; [exact H|]);
    intros [X ev r] Ho; destruct ev; simpl in *; try done; rewrite Ho, ?andb_false_r; done.
Qed.

(** * [get_or_fetch] *)

(** Reading the second layer leaves the first one alone; what it yields is
    what the codec decoded. *)
Lemma read_redis_spec cache key :
  wp (read_redis cache key)
     (fun t r => untouched cache t /\
        forall v, r = Ok (Some v) -> Exists (obs_serves cache key v) t).
Proof.
  unfold read_redis. wp_auto;
    (split; [unfold untouched; repeat constructor; done|]); intros v [=]; subst;
    rewrite !Exists_cons; simpl; tauto.
Qed.

Section get_or_fetch.
Context (cache key : string) (fetch : io bson) (F : result bson -> Prop).
Context (Hfetch : wp fetch (fun t r => untouched cache t /\ F r)).

(** What an execution may have done to the cache by the time it ends. *)
Definition fetch_post (t : trace eff) (r : result bson) : Prop :=
  match r with
  | Ok v => (Exists (obs_serves cache key v) t \/ F (Ok v)) /\
            (mem_puts cache key t = [] \/ mem_puts cache key t = [v])
  | Err e => mem_puts cache key t = []
  end.

Definition lock_neutral (t : trace eff) : Prop :=
  tcount (obs_acquired cache key) t = 0%nat /\ tcount (obs_released cache key) t = 0%nat.

Lemma lock_neutral_app t1 t2 : lock_neutral t1 -> lock_neutral t2 -> lock_neutral (t1 ++ t2).
Proof. unfold lock_neutral. rewrite !tcount_app. lia. Qed.

Lemma lock_neutral_cons o t :
  obs_acquired cache key o = false -> obs_released cache key o = false ->
  lock_neutral t -> lock_neutral (o :: t).
Proof. unfold lock_neutral, tcount. simpl. by intros -> ->. Qed.

Lemma Exists_app_l {A} (P : A -> Prop) l1 l2 : Exists P l1 -> Exists P (l1 ++ l2).
Proof. rewrite Exists_app. auto. Qed.

Lemma locked_fetch_spec :
  wp (locked_fetch cache key fetch) (fun t r => fetch_post t r /\ lock_neutral t).
Proof.
  unfold locked_fetch. wp_step. wp_step. wp_step.
  - apply wp_ret. simpl. split; [|done]. split; [|by left]. left. constructor. simpl. auto.
  - apply wp_bind. eapply wp_mono; [apply read_redis_spec|]. intros t [loaded|e] [Ht Hv].
    2: { simpl. rewrite (mem_puts_untouched _ _ _ Ht). split; [done|].
         apply lock_neutral_cons; [done..|]. by apply untouched_locks. }
    pose proof (untouched_locks _ key _ Ht) as Hl.
    destruct loaded as [v|].
    + wp_step. wp_step. apply wp_ret. simpl.
      rewrite !mem_puts_app, (mem_puts_untouched _ _ _ Ht). simpl. rewrite !String.eqb_refl. simpl.
      split; [split; [left; right; apply Exists_app_l; by apply Hv|by right]|].
      apply lock_neutral_cons; [done..|]. by apply lock_neutral_app.
    + apply wp_bind. eapply wp_mono; [exact Hfetch|]. intros tf [v|e] [Htf HF]; simpl.
      2: { rewrite mem_puts_app, (mem_puts_untouched _ _ _ Ht), (mem_puts_untouched _ _ _ Htf).
           split; [done|]. apply lock_neutral_cons; [done..|]. apply lock_neutral_app; [done|].
           by apply untouched_locks. }
      pose proof (untouched_locks _ key _ Htf) as Hlf.
      wp_auto; (split;
        [ rewrite ?mem_puts_app, (mem_puts_untouched _ _ _ Ht), (mem_puts_untouched _ _ _ Htf); simpl;
          rewrite ?mem_puts_app; simpl; rewrite ?String.eqb_refl; simpl
        | apply lock_neutral_cons; [done..|]; apply lock_neutral_app; [done|]; apply lock_neutral_app; [done|done]]).
      all: try (split; [by right|by right]).
      all: match goal with H : _ |- _ =>
             apply synchronous_Exception in H; [congruence|done] end.
Qed.
End get_or_fetch.

(** C33: a lookup through both layers is sound and never caches a failure.
    Against every behaviour of the two layers, of Redis and of the fetch: a
    value returned was served by a layer or by the fetch, the only value it may
    leave in the in-process layer under the key is the one it returned, a
    lookup that raises leaves nothing there, and the key's lock is released as
    often as it was acquired. *)
Theorem get_or_fetch_spec (cache key : string) (fetch : io bson) (F : result bson -> Prop)
    (t : trace eff) (r : result bson)
    (Hfetch : wp fetch (fun t r => untouched cache t /\ F r))
    (Hrun : exec (get_or_fetch cache key fetch) t r) :
  match r with
  | Ok v => (Exists (obs_serves cache key v) t \/ F (Ok v)) /\
            (mem_puts cache key t = [] \/ mem_puts cache key t = [v])
  | Err _ => mem_puts cache key t = []
  end /\
  tcount (obs_acquired cache key) t = tcount (obs_released cache key) t.
Proof.
  revert t r Hrun. change (wp (get_or_fetch cache key fetch) (fun t r => fetch_post cache key F t r /\
    tcount (obs_acquired cache key) t = tcount (obs_released cache key) t)).
  unfold get_or_fetch. wp_step. wp_step. wp_step.
  { apply wp_ret. simpl. split; [|done]. split; [left; constructor; simpl; auto|by left]. }
  wp_step. wp_step. wp_step. wp_step. destruct x0 as [[]|e].
  2: { wp_step. wp_step. apply wp_raise. done. }
  wp_step. wp_step. eapply wp_mono; [by apply locked_fetch_spec|]. intros t r [Hpost [Hacq Hrel]].
  wp_step. wp_step. wp_auto; simpl; unfold tcount in *; simpl;
    rewrite ?mem_puts_app, ?List.filter_app; simpl; rewrite ?String.eqb_refl; simpl;
    rewrite ?String.eqb_refl, ?app_nil_r, ?length_app; simpl; rewrite ?Hacq, ?Hrel; (split; [|lia]).
  - destruct Hpost as [[Hs|HF] Hp]; (split; [|done]); [left|by right].
    do 2 right. rewrite <- !app_assoc. by apply Exists_app_l.
  - done.
Qed.

Lemma get_or_fetch_spec_witness :
  let '(t, r) := replay no_script (get_or_fetch "role" "7" (Ret (BStr "admin"))) in
  r = Ok (BStr "admin") /\ mem_puts "role" "7" t = [BStr "admin"].
Proof.
  pose proof (get_or_fetch_spec "role" "7" (Ret (BStr "admin")) (fun r => r = Ok (BStr "admin"))
    _ _ (proj2 (wp_ret _ _) (conj (List.Forall_nil _) eq_refl))
    (replay_exec no_script (get_or_fetch "role" "7" (Ret (BStr "admin"))))) as H.
  vm_compute in H |- *. destruct H as [[_ [H|H]] _]; [discriminate|done].
Defined.

(** ** The shape of its traces, for the clients of the cache *)

(** The calls [get_or_fetch] makes of its own. *)
Definition cache_obs (cache key : string) (o : obs eff) : bool :=
  match o with
  | Obs ev _ =>
      match ev with
      | MemGet c k | MemPut c k _ | LockAcquire c k | LockRelease c k | LockDrop c k =>
          (String.eqb c cache && String.eqb k key)%bool
      | RedisClient | RedisGet _ | DecodeRedisValue _ | EncodeRedisValue _
      | RedisEnqueueSet _ _ | RedisMarkOp _ => true
      | _ => false
      end
  end.

Section get_or_fetch_trace.
Context (cache key : string) (fetch : io bson) (R : trace eff -> result bson -> Prop).
Context (Hfetch : wp fetch R).

(** Either the fetch ran, between the cache's own calls, and its outcome is
    the lookup's; or it did not, and a value returned was served by a layer. *)
Definition lookup_post (t : trace eff) (r : result bson) : Prop :=
  exists t1 tf t2, t = t1 ++ tf ++ t2 /\
    Forall (fun o => cache_obs cache key o = true) t1 /\
    Forall (fun o => cache_obs cache key o = true) t2 /\
    (R tf r \/
     tf = [] /\ match r with Ok v => Exists (obs_serves cache key v) t1 | Err _ => True end).

Lemma lookup_post_pre o t r :
  cache_obs cache key o = true -> lookup_post t r -> lookup_post (o :: t) r.
Proof.
  intros Ho (t1 & tf & t2 & -> & H1 & H2 & H). exists (o :: t1), tf, t2.
  split; [done|]. split; [by constructor|]. split; [done|].
  destruct H as [H|[-> H]]; [by left|right]. split; [done|]. destruct r; [by right|done].
Qed.

Lemma lookup_post_post o t r :
  cache_obs cache key o = true -> lookup_post t r -> lookup_post (t ++ [o]) r.
Proof.
  intros Ho (t1 & tf & t2 & -> & H1 & H2 & H). exists t1, tf, (t2 ++ [o]).
  rewrite <- !app_assoc. split; [done|]. split; [done|]. split; [|done].
  apply Forall_app. split; [done|by repeat constructor].
Qed.

Lemma lookup_post_served t r :
  Forall (fun o => cache_obs cache key o = true) t ->
  match r with Ok v => Exists (obs_serves cache key v) t | Err _ => True end -> lookup_post t r.
Proof. intros Ht Hr. exists t, [], []. simpl. rewrite app_nil_r. auto 6. Qed.

Lemma lookup_post_fetched t tf r :
  Forall (fun o => cache_obs cache key o = true) t -> R tf r -> lookup_post (t ++ tf) r.
Proof. intros Ht Hr. exists t, tf, []. rewrite app_nil_r. auto 6. Qed.

Lemma cache_obs_refl : String.eqb cache cache && String.eqb key key = true.
Proof. by rewrite !String.eqb_refl. Qed.

Lemma read_redis_trace :
  wp (read_redis cache key)
     (fun t r => Forall (fun o => cache_obs cache key o = true) t /\
        forall v, r = Ok (Some v) -> Exists (obs_serves cache key v) t).
Proof.
  unfold read_redis. wp_auto; (split; [repeat constructor; done|]); intros v [=]; subst;
    rewrite !Exists_cons; simpl; tauto.
Qed.

Lemma locked_fetch_trace : wp (locked_fetch cache key fetch) lookup_post.
Proof.
  pose proof cache_obs_refl as Hr.
  unfold locked_fetch. wp_step. wp_step. wp_step.
  - apply wp_ret. apply lookup_post_served; [by repeat constructor|]. constructor. simpl. auto.
  - apply wp_bind. eapply wp_mono; [apply read_redis_trace|]. intros t [loaded|e] [Ht Hv]; cbn beta iota.
    2: { apply lookup_post_pre; [done|]. by apply lookup_post_served. }
    destruct loaded as [v|].
    + wp_step. wp_step. apply wp_ret. apply lookup_post_pre; [done|].
      rewrite app_nil_r. apply lookup_post_post; [done|].
      apply lookup_post_served; [done|by apply Hv].
    + apply wp_bind. eapply wp_mono; [exact Hfetch|]. intros tf rf HR; cbn beta iota.
      destruct rf as [v|e].
      2: { apply lookup_post_pre; [done|]. by apply lookup_post_fetched. }
      assert (forall t2, Forall (fun o => cache_obs cache key o = true) t2 ->
                lookup_post ([Obs (MemGet cache key) (Ok None)] ++ t ++ tf ++ t2) (Ok v)) as Hk.
      { intros t2 H2. apply lookup_post_pre; [done|]. exists t, tf, t2. auto 6. }
      wp_auto; try (match goal with H : _ |- _ => apply synchronous_Exception in H; [congruence|done] end);
        apply Hk; repeat constructor; done.
Qed.

Lemma get_or_fetch_trace : wp (get_or_fetch cache key fetch) lookup_post.
Proof.
  pose proof cache_obs_refl as Hr.
  unfold get_or_fetch. wp_step. wp_step. wp_step.
  { apply wp_ret. apply lookup_post_served; [by repeat constructor|]. constructor. simpl. auto. }
  wp_step. wp_step. wp_step. wp_step. destruct x0 as [[]|e].
  2: { wp_step. wp_step. apply wp_raise. apply lookup_post_served; [by repeat constructor|done]. }
  wp_step. wp_step. eapply wp_mono; [by apply locked_fetch_trace|]. intros t r Hpost.
  wp_step. wp_step. wp_auto; do 2 (apply lookup_post_pre; [done|]); rewrite ?app_nil_r;
    do 2 (apply lookup_post_post; [done|]); done.
Qed.
End get_or_fetch_trace.

(** Clients inherit what the cache's own calls and the fetch never do. *)
Lemma get_or_fetch_never (f : obs eff -> bool) cache key fetch :
  (forall c k o, cache_obs c k o = true -> f o = false) ->
  never f fetch -> never f (get_or_fetch cache key fetch).
Proof.
  intros Hf Hfetch. unfold never.
  pose proof (get_or_fetch_trace cache key fetch _ Hfetch) as Ht.
  eapply wp_mono; [exact Ht|].
  intros t r (t1 & tf & t2 & -> & H1 & H2 & Htf).
  assert (forall t', Forall (fun o => cache_obs cache key o = true) t' -> Forall (fun o => f o = false) t') as Hc
    by (intros t' H; eapply Forall_impl; [exact H|]; intros o Ho; exact (Hf _ _ _ Ho)).
  apply Forall_app. split; [by apply Hc|]. apply Forall_app. split; [|by apply Hc].
  destruct Htf as [H|[-> _]]; [exact H|constructor].
Qed.

(** * Single flight

    Concurrent callers of [get_or_fetch] on one key, as the lock dictionary
    sees them.  A lock is an identity; the dictionary holds at most the one
    registered now, while a waiter keeps its own reference.  Reading the
    layers under the lock up to the fetch does not suspend here. *)
Module Flight.

Inductive caller (V : Type) : Type :=
  | Idle
  | Waiting (l : nat)
  | Fetching (l : nat)
  | Returned (v : V)
  | Failed.
Arguments Idle {V}.
Arguments Waiting {V} l.
Arguments Fetching {V} l.
Arguments Returned {V} v.
Arguments Failed {V}.

Record flight (V : Type) := Flight {
  store : option V;
  registered : option nat;
  fresh : nat;
  callers : list (caller V)
}.
Arguments Flight {V} store registered fresh callers.
Arguments store {V} f.
Arguments registered {V} f.
Arguments fresh {V} f.
Arguments callers {V} f.

Inductive label (V : Type) : Type :=
  | Arrive (i : nat)
  | Enter (i : nat)
  | FetchOk (i : nat) (v : V)
  | FetchFail (i : nat)
  | CancelWait (i : nat)
  | Invalidate.
Arguments Arrive {V} i.
Arguments Enter {V} i.
Arguments FetchOk {V} i v.
Arguments FetchFail {V} i.
Arguments CancelWait {V} i.
Arguments Invalidate {V}.

Section flight.
Context {V : Type}.

Definition fetching (c : caller V) : bool := match c with Fetching _ => true | _ => false end.
Definition holds (l : nat) (c : caller V) : bool :=
  match c with Fetching l' => Nat.eqb l l' | _ => false end.

(** One step; [None] when the label is not enabled. *)
Definition step (s : flight V) (a : label V) : option (flight V) :=
  match a with
  | Arrive i =>
      match callers s !! i, store s with
      | Some Idle, Some v => Some (Flight (store s) (registered s) (fresh s) (<[i := Returned v]> (callers s)))
      | Some Idle, None =>
          let l := match registered s with Some l => l | None => fresh s end in
          let next := match registered s with Some _ => fresh s | None => S (fresh s) end in
          Some (Flight None (Some l) next (<[i := Waiting l]> (callers s)))
      | _, _ => None
      end
  | Enter i =>
      match callers s !! i with
      | Some (Waiting l) =>
          if existsb (holds l) (callers s) then None
          else match store s with
               | Some v => Some (Flight (store s) None (fresh s) (<[i := Returned v]> (callers s)))
               | None => Some (Flight None (registered s) (fresh s) (<[i := Fetching l]> (callers s)))
               end
      | _ => None
      end
  | FetchOk i v =>
      match callers s !! i with
      | Some (Fetching _) => Some (Flight (Some v) None (fresh s) (<[i := Returned v]> (callers s)))
      | _ => None
      end
  | FetchFail i =>
      match callers s !! i with
      | Some (Fetching _) => Some (Flight (store s) None (fresh s) (<[i := Failed]> (callers s)))
      | _ => None
      end
  | CancelWait i =>
      match callers s !! i with
      | Some (Waiting _) => Some (Flight (store s) None (fresh s) (<[i := Failed]> (callers s)))
      | _ => None
      end
  | Invalidate => Some (Flight None None (fresh s) (callers s))
  end.

Fixpoint steps (s : flight V) (tr : list (label V)) : option (flight V) :=
  match tr with
  | [] => Some s
  | a :: tr' => match step s a with Some s' => steps s' tr' | None => None end
  end.

Definition start (n : nat) : flight V := Flight None None 0 (replicate n Idle).

(** Nothing fails, is cancelled or invalidated. *)
Definition calm (a : label V) : bool :=
  match a with Arrive _ | Enter _ | FetchOk _ _ => true | _ => false end.

Definition fetches (s : flight V) : nat := length (List.filter fetching (callers s)).

(** How many fetches a run completes. *)
Definition fetch_ok (a : label V) : bool := match a with FetchOk _ _ => true | _ => false end.

Definition completed (tr : list (label V)) : nat := length (List.filter fetch_ok tr).

(** In a calm run every live caller shares the registered lock until the value
    is stored; then nobody fetches. *)
Definition inv (s : flight V) (n : nat) : Prop :=
  match store s with
  | None => n = 0%nat /\ (fetches s <= 1)%nat /\
            forall i l, callers s !! i = Some (Waiting l) \/ callers s !! i = Some (Fetching l) ->
                        registered s = Some l
  | Some v => n = 1%nat /\ fetches s = 0%nat
  end /\
  forall i v, callers s !! i = Some (Returned v) -> store s = Some v.

Lemma fetches_insert cs i c c' :
  cs !! i = Some c ->
  (length (List.filter fetching (<[i := c']> cs)) + (if fetching c then 1 else 0))%nat
  = (length (List.filter fetching cs) + (if fetching c' then 1 else 0))%nat.
Proof.
  revert i. induction cs as [|x cs IH]; intros [|i] Hi; simplify_eq/=.
  - destruct (fetching c), (fetching c'); simpl; lia.
  - specialize (IH _ Hi). destruct (fetching x); simpl; lia.
Qed.

Lemma no_holder cs (l : nat) :
  (forall i l', cs !! i = Some (Fetching l') -> l' = l) -> existsb (holds l) cs = false ->
  length (List.filter fetching cs) = 0%nat.
Proof.
  intros Hl Hno. apply existsb_false_Forall in Hno. rewrite filter_none; [done|].
  apply Forall_lookup. intros i c Hc. destruct c as [|l'|l'|v|]; try done.
  rewrite Forall_lookup in Hno. specialize (Hno _ _ Hc). rewrite (Hl _ _ Hc) in Hno. simpl in Hno.
  by rewrite Nat.eqb_refl in Hno.
Qed.

Lemma inv_start n : inv (start n) 0.
Proof.
  unfold inv, start, fetches; simpl. split; [split; [done|split]|].
  - rewrite filter_none; [simpl; lia|]. apply Forall_replicate. done.
  - intros i l [H|H]; by apply lookup_replicate in H as [? ?].
  - intros i v H. by apply lookup_replicate in H as [? ?].
Qed.

Lemma lookup_insert_cases {A} (cs : list A) i j (c c' x : A) :
  cs !! i = Some c -> <[i := c']> cs !! j = Some x -> (j = i /\ x = c') \/ (j <> i /\ cs !! j = Some x).
Proof.
  intros Hi Hj. destruct (decide (j = i)) as [->|Hne].
  - rewrite list_lookup_insert_eq in Hj by (by eapply lookup_lt_Some). left. by simplify_eq.
  - rewrite list_lookup_insert_ne in Hj by done. by right.
Qed.

Lemma inv_step s a s' n :
  calm a = true -> inv s n -> step s a = Some s' ->
  inv s' (n + if fetch_ok a then 1 else 0).
Proof.
  destruct s as [st rg fr cs]. unfold inv, fetches; simpl. intros Hcalm [Hst Hret] Hstep.
  destruct a as [i|i|i v|i|i|]; try done; simpl in Hstep; destruct (cs !! i) as [c|] eqn:Hc; try done;
    destruct c as [|l|l|w|]; try done.
  - destruct st as [v|]; injection Hstep as <-; simpl; rewrite Nat.add_0_r;
      match goal with |- context[<[i := ?c']> cs] => pose proof (fetches_insert cs i _ c' Hc) as Hf end;
      simpl in Hf.
    + split; [split; [tauto|lia]|]. intros j w Hj.
      destruct (lookup_insert_cases _ _ _ _ _ _ Hc Hj) as [[-> [= ->]]|[_ Hj']]; [done|by eapply Hret].
    + destruct Hst as (-> & Hle & Hreg). split; [split; [done|split; [lia|]]|].
      * intros j l [Hj|Hj]; destruct (lookup_insert_cases _ _ _ _ _ _ Hc Hj) as [[_ Hx]|[_ Hj']];
          try done; [by injection Hx as ->|rewrite (Hreg j l); auto..].
      * intros j w Hj. destruct (lookup_insert_cases _ _ _ _ _ _ Hc Hj) as [[_ ?]|[_ Hj']];
          [done|by eapply Hret].
  - destruct (existsb (holds l) cs) eqn:Hex; [done|].
    destruct st as [v|]; injection Hstep as <-; simpl; rewrite Nat.add_0_r;
      match goal with |- context[<[i := ?c']> cs] => pose proof (fetches_insert cs i _ c' Hc) as Hf end;
      simpl in Hf.
    + split; [split; [tauto|lia]|]. intros j w Hj.
      destruct (lookup_insert_cases _ _ _ _ _ _ Hc Hj) as [[-> [= ->]]|[_ Hj']]; [done|by eapply Hret].
    + destruct Hst as (-> & Hle & Hreg). assert (rg = Some l) as Hrg by eauto.
      assert (length (List.filter fetching cs) = 0%nat) as H0.
      { apply (no_holder cs l); [|done]. intros j l' Hj.
        assert (rg = Some l') by eauto. congruence. }
      split; [split; [done|split; [lia|]]|].
      * intros j l' [Hj|Hj]; destruct (lookup_insert_cases _ _ _ _ _ _ Hc Hj) as [[_ Hx]|[_ Hj']];
          try done; [eauto|by injection Hx as ->|eauto].
      * intros j w Hj. destruct (lookup_insert_cases _ _ _ _ _ _ Hc Hj) as [[_ ?]|[_ Hj']];
          [done|by eapply Hret].
  - injection Hstep as <-. simpl. pose proof (fetches_insert cs i _ (Returned v) Hc) as Hf. simpl in Hf.
    destruct st as [v'|]; [lia|]. destruct Hst as (-> & Hle & Hreg).
    split; [lia|]. intros j w Hj.
    destruct (lookup_insert_cases _ _ _ _ _ _ Hc Hj) as [[_ [= ->]]|[_ Hj']]; [done|].
    by specialize (Hret _ _ Hj').
Qed.

Lemma inv_steps s tr s' n :
  forallb calm tr = true -> inv s n -> steps s tr = Some s' -> inv s' (n + completed tr).
Proof.
  unfold completed. revert s n. induction tr as [|a tr IH]; intros s n Hc Hi Hs; simpl in *.
  - injection Hs as <-. by rewrite Nat.add_0_r.
  - apply andb_true_iff in Hc as [Ha Hc]. destruct (step s a) as [s1|] eqn:Hs1; [|done].
    pose proof (IH s1 _ Hc (inv_step _ _ _ _ Ha Hi Hs1) Hs) as H.
    destruct (fetch_ok a); simpl in *; by rewrite <- ?Nat.add_assoc, ?Nat.add_0_r in H.
Qed.
End flight.
End Flight.

(** C34: concurrent misses of one key fetch once in a calm run.  Whatever the
    order in which any number of callers arrive, wait and enter, as long as no
    fetch fails or is cancelled, no waiter is cancelled, and the entry neither
    expires nor is invalidated meanwhile: at most one fetch runs at any time, at
    most one ever completes, and every caller that has returned got the value it
    stored.  (After a failed fetch two may run at once.) *)
Theorem single_flight {V} (n : nat) (tr : list (Flight.label V)) (s : Flight.flight V)
    (Hcalm : forallb Flight.calm tr = true) (Hrun : Flight.steps (Flight.start n) tr = Some s) :
  (Flight.fetches s <= 1)%nat /\ (Flight.completed tr <= 1)%nat /\
  (forall i v, Flight.callers s !! i = Some (Flight.Returned v) -> Flight.store s = Some v).
Proof.
  pose proof (Flight.inv_steps _ _ _ _ Hcalm (Flight.inv_start n) Hrun) as [H Hret].
  split; [|split; [|exact Hret]]; destruct (Flight.store s) as [v|]; lia.
Qed.

Lemma single_flight_witness :
  let tr := [Flight.Arrive 0; Flight.Arrive 1; Flight.Enter 0; Flight.Arrive 2;
             Flight.FetchOk 0 true; Flight.Enter 2; Flight.Enter 1] in
  match Flight.steps (Flight.start 3) tr with
  | Some s => Flight.callers s = [Flight.Returned true; Flight.Returned true; Flight.Returned true]
              /\ (Flight.completed tr <= 1)%nat
  | None => False
  end.
Proof.
  intros tr. split; [reflexivity|].
  refine (proj1 (proj2 (single_flight 3 tr _ _ _))); reflexivity.
Defined.

(** A failing fetch breaks the single flight.  Its [finally] removes the
    registered lock while a second caller still waits on it; a third caller
    registers a new lock, and both enter at once. *)
Theorem failed_fetch_splits_flight :
  exists (tr : list (Flight.label bool)) s,
    Flight.steps (Flight.start 3) tr = Some s /\ Flight.fetches s = 2%nat /\
    Forall (fun a => match a with Flight.CancelWait _ | Flight.Invalidate => False | _ => True end) tr.
Proof.
  exists [Flight.Arrive 0; Flight.Arrive 1; Flight.Enter 0; Flight.FetchFail 0;
          Flight.Arrive 2; Flight.Enter 1; Flight.Enter 2].
  eexists. split; [reflexivity|split; [reflexivity|repeat constructor]].
Qed.

(** * The ordered queue of Redis mutations

    [_enqueue_redis_mutation] for one prefix and one event loop: each task
    first awaits the task that was the tail when it was enqueued.  Cancelling
    tasks at shutdown is not modelled. *)
Module RedisQueue.

Definition _REDIS_MAX_PENDING : Z := 200.

Inductive phase : Type := Queued | Running | Finished | Settled.

Record task (O : Type) := Task { previous : option nat; operation : O; at_phase : phase }.
Arguments Task {O} previous operation at_phase.
Arguments previous {O} t.
Arguments operation {O} t.
Arguments at_phase {O} t.

Record queue (O : Type) := Queue {
  tail : option nat;
  pending : Z;
  drop_warned : bool;
  tasks : list (task O);
  log : list O
}.
Arguments Queue {O} tail pending drop_warned tasks log.
Arguments tail {O} q.
Arguments pending {O} q.
Arguments drop_warned {O} q.
Arguments tasks {O} q.
Arguments log {O} q.

Section queue.
Context {O : Type}.

Definition empty_queue : queue O := Queue None 0 false [] [].

Definition over (p : phase) : bool :=
  match p with Finished | Settled => true | _ => false end.

Definition set_phase (p : phase) (t : task O) : task O := Task (previous t) (operation t) p.

(** [_enqueue_redis_mutation]: the new queue, and whether a task was made. *)
Definition enqueue_redis_mutation (op : O) (droppable : bool) (q : queue O) : queue O * bool :=
  let depth := pending q in
  if droppable && (depth >=? _REDIS_MAX_PENDING) then
    (Queue (tail q) (pending q) true (tasks q) (log q), false)
  else
    (Queue (Some (length (tasks q))) (depth + 1) (drop_warned q)
           (tasks q ++ [Task (tail q) op Queued]) (log q), true).

(** [_run] gets past [await previous] and starts its operation. *)
Definition begin (i : nat) (q : queue O) : option (queue O) :=
  match tasks q !! i with
  | Some (Task prev op Queued) =>
      let ready := match prev with
                   | None => true
                   | Some j => match tasks q !! j with Some t => over (at_phase t) | None => false end
                   end in
      if ready then
        Some (Queue (tail q) (pending q) (drop_warned q)
                    (<[i := Task prev op Running]> (tasks q)) (log q ++ [op]))
      else None
  | _ => None
  end.

Definition finish (i : nat) (q : queue O) : option (queue O) :=
  match tasks q !! i with
  | Some (Task prev op Running) =>
      Some (Queue (tail q) (pending q) (drop_warned q) (<[i := Task prev op Finished]> (tasks q)) (log q))
  | _ => None
  end.

(** The done callbacks: [_clear_redis_tail], then [_release_redis_slot]. *)
Definition settle (i : nat) (q : queue O) : option (queue O) :=
  match tasks q !! i with
  | Some (Task prev op Finished) =>
      let tail' := match tail q with
                   | Some j => if Nat.eqb j i then None else Some j
                   | None => None
                   end in
      let remaining := pending q - 1 in
      let pending' := if remaining <=? 0 then 0 else remaining in
      let warned' := if remaining <=? 0 then false else drop_warned q in
      Some (Queue tail' pending' warned' (<[i := Task prev op Settled]> (tasks q)) (log q))
  | _ => None
  end.

Inductive qstep (q : queue O) : queue O -> Prop :=
  | q_enqueue op droppable : qstep q (enqueue_redis_mutation op droppable q).1
  | q_begin i q' : begin i q = Some q' -> qstep q q'
  | q_finish i q' : finish i q = Some q' -> qstep q q'
  | q_settle i q' : settle i q = Some q' -> qstep q q'.

Inductive qreach : queue O -> Prop :=
  | q_init : qreach empty_queue
  | q_next q q' : qreach q -> qstep q q' -> qreach q'.

Definition started (p : phase) : bool := match p with Queued => false | _ => true end.
Definition unsettled (t : task O) : bool :=
  match at_phase t with Settled => false | _ => true end.

(** Every task before position [i] is over. *)
Definition over_before (ts : list (task O)) (i : nat) : Prop :=
  forall j t, (j < i)%nat -> ts !! j = Some t -> over (at_phase t) = true.

Record qinv (q : queue O) : Prop := {
  inv_prev : forall i t, tasks q !! i = Some t ->
    match previous t with Some j => S j = i | None => over_before (tasks q) i end;
  inv_started : forall i t, tasks q !! i = Some t -> started (at_phase t) = true ->
    over_before (tasks q) i;
  inv_tail : match tail q with
             | Some j => S j = length (tasks q)
             | None => over_before (tasks q) (length (tasks q))
             end;
  inv_log : log q = map operation (List.filter (fun t => started (at_phase t)) (tasks q));
  inv_pending : pending q = Z.of_nat (length (List.filter unsettled (tasks q)))
}.

(** Moving a task forward keeps everything that was over. *)
Lemma over_before_insert ts i j (t t' : task O) :
  ts !! i = Some t -> (over (at_phase t) = true -> over (at_phase t') = true) ->
  over_before ts j -> over_before (<[i := t']> ts) j.
Proof.
  intros Hi Hm H k u Hk Hu.
  destruct (Flight.lookup_insert_cases _ _ _ _ _ _ Hi Hu) as [[-> ->]|[_ Hu']]; [|by eapply H].
  apply Hm. by eapply H.
Qed.

Lemma filter_insert {A} (f : A -> bool) ts i (t t' : A) :
  ts !! i = Some t ->
  (length (List.filter f (<[i := t']> ts)) + (if f t then 1 else 0))%nat
  = (length (List.filter f ts) + (if f t' then 1 else 0))%nat.
Proof.
  revert i. induction ts as [|x ts IH]; intros [|i] Hi; simplify_eq/=.
  - destruct (f t), (f t'); simpl; lia.
  - specialize (IH _ Hi). destruct (f x); simpl; lia.
Qed.

(** Phases that only move forward among started ones leave the log alone. *)
Lemma started_insert ts i (t : task O) p :
  ts !! i = Some t -> started (at_phase t) = true -> started p = true ->
  map operation (List.filter (fun t => started (at_phase t)) (<[i := set_phase p t]> ts))
  = map operation (List.filter (fun t => started (at_phase t)) ts).
Proof.
  intros Hi Ht Hp. revert i Hi. induction ts as [|x ts IH]; intros [|i] Hi; simplify_eq/=.
  - by rewrite Ht, Hp.
  - destruct (started (at_phase x)); simpl; by rewrite IH.
Qed.

(** Starting the first task that is not over appends it to the log. *)
Lemma begin_insert ts i (t : task O) :
  ts !! i = Some t -> at_phase t = Queued -> over_before ts i ->
  (forall k u, (i < k)%nat -> ts !! k = Some u -> started (at_phase u) = false) ->
  map operation (List.filter (fun t => started (at_phase t)) (<[i := set_phase Running t]> ts))
  = map operation (List.filter (fun t => started (at_phase t)) ts) ++ [operation t].
Proof.
  intros Hi Ht. revert i Hi. induction ts as [|x ts IH]; intros [|i] Hi Hb Hk; simplify_eq/=.
  - rewrite Ht. simpl. rewrite filter_none; [done|]. apply Forall_lookup. intros k u Hu.
    apply (Hk (S k) u); [lia|done].
  - assert (started (at_phase x) = true) as ->.
    { specialize (Hb 0%nat x ltac:(lia) eq_refl). by destruct (at_phase x). }
    simpl. f_equal. apply IH; [done|intros j u Hj; apply (Hb (S j)); lia|].
    intros k u Hlt. apply (Hk (S k)). lia.
Qed.

Lemma over_before_snoc ts x i : (i <= length ts)%nat -> over_before ts i -> over_before (ts ++ [x]) i.
Proof. intros Hi H j t Hj Ht. rewrite lookup_app_l in Ht by lia. by eapply H. Qed.

(** The order invariants survive a phase moving forward. *)
Lemma order_insert ts i (t : task O) p tl :
  ts !! i = Some t -> (over (at_phase t) = true -> over p = true) ->
  over_before ts i ->
  (forall j u, ts !! j = Some u ->
     match previous u with Some k => S k = j | None => over_before ts j end) ->
  (forall j u, ts !! j = Some u -> started (at_phase u) = true -> over_before ts j) ->
  match tl with Some j => S j = length ts | None => over_before ts (length ts) end ->
  let ts' := <[i := set_phase p t]> ts in
  (forall j u, ts' !! j = Some u ->
     match previous u with Some k => S k = j | None => over_before ts' j end) /\
  (forall j u, ts' !! j = Some u -> started (at_phase u) = true -> over_before ts' j) /\
  match tl with Some j => S j = length ts' | None => over_before ts' (length ts') end.
Proof.
  intros Hi Hm Hb Hp Hs Ht ts'. subst ts'.
  assert (forall j, over_before ts j -> over_before (<[i := set_phase p t]> ts) j) as Hmono
    by (intros j; by apply (over_before_insert ts i j t)).
  rewrite length_insert. repeat split.
  - intros j u Hu. destruct (Flight.lookup_insert_cases _ _ _ _ _ _ Hi Hu) as [[-> ->]|[_ Hu']]; simpl.
    + specialize (Hp _ _ Hi). destruct (previous t); [done|by apply Hmono].
    + specialize (Hp _ _ Hu'). destruct (previous u); [done|by apply Hmono].
  - intros j u Hu Hst. apply Hmono.
    destruct (Flight.lookup_insert_cases _ _ _ _ _ _ Hi Hu) as [[-> ->]|[_ Hu']]; [done|by eapply Hs].
  - destruct tl; [done|by apply Hmono].
Qed.

Lemma qinv_enqueue op droppable q : qinv q -> qinv (enqueue_redis_mutation op droppable q).1.
Proof.
  intros [Hp Hs Ht Hl Hn]. unfold enqueue_redis_mutation.
  destruct (droppable && _); [by constructor|]. constructor; simpl.
  - intros i t Hi. apply lookup_app_Some in Hi as [Hi|[Hge Hi]].
    + specialize (Hp _ _ Hi). destruct (previous t); [done|]. apply over_before_snoc; [|done].
      apply lookup_lt_Some in Hi. lia.
    + destruct (i - length (tasks q))%nat as [|k] eqn:Hk; [|by destruct k]. injection Hi as <-. simpl.
      assert (i = length (tasks q)) as -> by lia. destruct (tail q); [done|by apply over_before_snoc].
  - intros i t Hi Hst. apply lookup_app_Some in Hi as [Hi|[Hge Hi]].
    + apply over_before_snoc; [|by eapply Hs]. apply lookup_lt_Some in Hi. lia.
    + destruct (i - length (tasks q))%nat as [|k]; [|by destruct k]. by injection Hi as <-.
  - rewrite length_app. simpl. lia.
  - by rewrite List.filter_app, map_app, Hl, app_nil_r.
  - rewrite List.filter_app, length_app, Hn. simpl. lia.
Qed.

Lemma qinv_begin i q q' : qinv q -> begin i q = Some q' -> qinv q'.
Proof.
  intros [Hp Hs Ht Hl Hn] Hb. unfold begin in Hb.
  destruct (tasks q !! i) as [[prev op ph]|] eqn:Hi; [|done]. destruct ph; try done.
  destruct (match prev with None => true | Some j => _ end) eqn:Hready; [|done].
  injection Hb as <-.
  assert (over_before (tasks q) i) as Hov.
  { pose proof (Hp _ _ Hi) as Hprev. simpl in Hprev. destruct prev as [j|]; [|done].
    destruct (tasks q !! j) as [tj|] eqn:Hj; [|done]. subst i. intros k u Hk Hu.
    destruct (decide (k = j)) as [->|Hne]; [by simplify_eq|].
    assert (started (at_phase tj) = true) as Hst by (by destruct (at_phase tj)).
    apply (Hs _ _ Hj Hst k u); [lia|done]. }
  destruct (order_insert _ _ _ Running _ Hi ltac:(done) Hov Hp Hs Ht) as (H1 & H2 & H3).
  constructor; simpl; [exact H1|exact H2|exact H3|..].
  - change (Task prev op Running) with (set_phase Running (Task prev op Queued)).
    rewrite (begin_insert _ _ _ Hi eq_refl Hov), Hl; [done|].
    intros k u Hlt Hu. destruct (started (at_phase u)) eqn:Hst; [|done].
    by specialize (Hs _ _ Hu Hst i _ Hlt Hi).
  - pose proof (filter_insert unsettled _ _ _ (Task prev op Running) Hi). simpl in *. lia.
Qed.

Lemma qinv_finish i q q' : qinv q -> finish i q = Some q' -> qinv q'.
Proof.
  intros [Hp Hs Ht Hl Hn] Hf. unfold finish in Hf.
  destruct (tasks q !! i) as [[prev op ph]|] eqn:Hi; [|done]. destruct ph; try done. injection Hf as <-.
  assert (over_before (tasks q) i) as Hov by (by eapply Hs).
  destruct (order_insert _ _ _ Finished _ Hi ltac:(done) Hov Hp Hs Ht) as (H1 & H2 & H3).
  constructor; simpl; [exact H1|exact H2|exact H3|..].
  - rewrite Hl. symmetry. apply (started_insert _ _ _ Finished Hi eq_refl eq_refl).
  - pose proof (filter_insert unsettled _ _ _ (Task prev op Finished) Hi). simpl in *. lia.
Qed.

Lemma qinv_settle i q q' : qinv q -> settle i q = Some q' -> qinv q'.
Proof.
  intros [Hp Hs Ht Hl Hn] Hf. unfold settle in Hf.
  destruct (tasks q !! i) as [[prev op ph]|] eqn:Hi; [|done]. destruct ph; try done. injection Hf as <-.
  assert (over_before (tasks q) i) as Hov by (by eapply Hs).
  assert (match (match tail q with Some j => if Nat.eqb j i then None else Some j | None => None end) with
          | Some j => S j = length (tasks q) | None => over_before (tasks q) (length (tasks q)) end) as Ht'.
  { destruct (tail q) as [j|]; [|done]. destruct (Nat.eqb_spec j i) as [->|]; [|done].
    intros k u Hk Hu. destruct (decide (k = i)) as [->|]; [by simplify_eq|]. apply (Hov k u); [lia|done]. }
  destruct (order_insert _ _ _ Settled _ Hi ltac:(done) Hov Hp Hs Ht') as (H1 & H2 & H3).
  constructor; simpl; [exact H1|exact H2|exact H3|..].
  - rewrite Hl. symmetry. apply (started_insert _ _ _ Settled Hi eq_refl eq_refl).
  - pose proof (filter_insert unsettled _ _ _ (Task prev op Settled) Hi). simpl in *.
    destruct (Z.leb_spec (pending q - 1) 0); lia.
Qed.

Lemma qreach_inv q : qreach q -> qinv q.
Proof.
  induction 1 as [|q q' _ IH Hs].
  - constructor; simpl; done.
  - destruct Hs; eauto using qinv_enqueue, qinv_begin, qinv_finish, qinv_settle.
Qed.

Lemma filter_prefix (ts : list (task O)) :
  (forall i t, ts !! i = Some t -> started (at_phase t) = true ->
     forall j u, (j < i)%nat -> ts !! j = Some u -> started (at_phase u) = true) ->
  exists n, map operation (List.filter (fun t => started (at_phase t)) ts) = take n (map operation ts).
Proof.
  induction ts as [|t ts IH]; intros H; [by exists 0%nat|]. simpl.
  destruct (started (at_phase t)) eqn:Ht.
  - destruct IH as [n Hn]; [|exists (S n); simpl; by rewrite Hn].
    intros i u Hu Hst j w Hj Hw. apply (H (S i) u Hu Hst (S j) w); [lia|done].
  - exists 0%nat. simpl. rewrite filter_none; [done|]. apply Forall_lookup. intros i u Hu.
    destruct (started (at_phase u)) eqn:Hst; [|done].
    rewrite <- Ht. symmetry. by apply (H (S i) u Hu Hst 0%nat t ltac:(lia)).
Qed.
End queue.
End RedisQueue.

Import RedisQueue.

(** Redis sees the mutations of a prefix in the order they were enqueued,
    one at a time: in every reachable state of the queue the operations that
    have started are the first ones accepted, in order, each started only
    after all earlier ones were over, so a delete or a sweep is never
    overtaken by an older write; the depth counter is the number of tasks not
    yet retired; and an undroppable mutation is accepted whatever the depth. *)
Theorem redis_queue_fifo {O} (q : queue O) (Hq : qreach q) :
  (exists n, log q = take n (map operation (tasks q))) /\
  (forall i j t u, (i < j)%nat -> tasks q !! i = Some t -> tasks q !! j = Some u ->
     at_phase u <> Queued -> over (at_phase t) = true) /\
  (forall op, (enqueue_redis_mutation op false q).2 = true /\
     map operation (tasks (enqueue_redis_mutation op false q).1) = map operation (tasks q) ++ [op]) /\
  pending q = Z.of_nat (length (List.filter unsettled (tasks q))) /\
  (Forall (fun t => over (at_phase t) = true) (tasks q) -> log q = map operation (tasks q)).
Proof.
  destruct (qreach_inv q Hq) as [Hp Hs Ht Hl Hn]. split; [|split; [|split; [|split; [done|]]]].
  - rewrite Hl. apply filter_prefix. intros i t Hi Hst j u Hj Hu.
    specialize (Hs _ _ Hi Hst j u Hj Hu). by destruct (at_phase u).
  - intros i j t u Hij Hi Hj Hu. apply (Hs _ _ Hj) with (j := i); [by destruct (at_phase u)|done..].
  - intros op. unfold enqueue_redis_mutation. simpl. by rewrite map_app.
  - intros Hall. rewrite Hl. f_equal. clear -Hall. induction Hall as [|t ts Hx _ IH]; simpl; [done|].
    destruct (at_phase t); simpl in *; try done; by rewrite IH.
Qed.

Lemma redis_queue_fifo_witness :
  let q0 := (enqueue_redis_mutation "del"%string false
               (enqueue_redis_mutation "set"%string true empty_queue).1).1 in
  match begin 0 q0 with
  | Some q => begin 1 q = None /\ log q = take 1 ["set"; "del"]%string
              /\ pending q = 2
  | None => False
  end.
Proof.
  intros q0. assert (qreach q0) as Hq by (repeat (eapply q_next; [|constructor]); constructor).
  destruct (begin 0 q0) as [q|] eqn:Hb; [|discriminate].
  pose proof (redis_queue_fifo q (q_next _ _ Hq (q_begin _ 0 _ Hb))) as (_ & _ & _ & Hn & _).
  injection Hb as <-. split; [reflexivity|]. split; [reflexivity|]. rewrite Hn. reflexivity.
Defined.
