(* ===== verification/Locale.v ===== *)
(** Locale preferences and the locale a message is rendered in:
    [tcbot/database/settings_db.py], the locale part of
    [tcbot/database/groups_db.py] and [tcbot/modules/helper/locale.py]. *)

From S2P Require Import Prelude Prog Text World I18n Dispatch.

(** The translation catalog loaded at start, over the Unicode tables. *)
Class Catalog := {
  cat_ucd :: UCD;
  cat_data : catalog;
}.

(** An outcome without its value, for [throw_if_cancelled] over results of
    different types. *)
Definition void {A} (r : result A) : result unit :=
  match r with Ok _ => Ok tt | Err e => Err e end.

Definition some_of {A} (r : result (option A)) : option A :=
  match r with Ok o => o | Err _ => None end.

Definition str_value (v : option bson) : option string :=
  match v with
  | Some (BStr s) => if truthy_str s then Some s else None
  | _ => None
  end.

(** A cached preference, or the row's, remembered; unset is remembered too. *)
Definition cached_locale (l1 : string) (key : Z) (read : io (option doc)) : io (option string) :=
  hit <- call (TtlGet l1 key) ;;
  match hit with
  | Some v => Ret (str_value (Some v))
  | None =>
      row <- read ;;
      match row with
      | None => call (TtlPut l1 key BNull) ;;; Ret None
      | Some row =>
          let value := str_value (dget "locale" row) in
          call (TtlPut l1 key (boptstr value)) ;;; Ret value
      end
  end.

Definition get_user_locale (user_id : Z) : io (option string) :=
  cached_locale "_LOCALE_L1" user_id
    (db_call (FindOne "user_settings" [("user_id", BInt user_id)] [])).

Definition set_user_locale (user_id : Z) (locale : option string) : io unit :=
  match locale with
  | None =>
      db_call (DeleteOne "user_settings" [("user_id", BInt user_id)]) ;;;
      call (TtlPop "_LOCALE_L1" user_id)
  | Some locale =>
      db_call (UpdateOne "user_settings" [("user_id", BInt user_id)]
        [("$set", BDoc [("user_id", BInt user_id); ("locale", BStr locale)])] true) ;;;
      call (TtlPop "_LOCALE_L1" user_id)
  end.

Definition get_group_locale (chat_id : Z) : io (option string) :=
  cached_locale "_GROUP_LOCALE_L1" chat_id
    (db_call (FindOne "federated_groups" [("chat_id", BInt chat_id)] [])).

Definition set_group_locale (chat_id : Z) (locale : option string) : io bool :=
  r <- db_call (UpdateOne "federated_groups" [("chat_id", BInt chat_id)]
         match locale with
         | None => [("$unset", BDoc [("locale", BStr "")])]
         | Some locale => [("$set", BDoc [("locale", BStr locale)])]
         end false) ;;
  call (TtlPop "_GROUP_LOCALE_L1" chat_id) ;;;
  Ret (matched_count r >? 0).

Section locale.
Context {CAT : Catalog}.

Definition effective_locale (chat_type : option string) (user_id chat_id : Z) : io ustr :=
  let! (user_locale, group_locale) := gather2 (get_user_locale user_id) (get_group_locale chat_id) in
  throw_if_cancelled [void user_locale; void group_locale] ;;;
  Ret (resolve_locale cat_data
         (u match chat_type with Some c => if truthy_str c then c else "private" | None => "private" end)
         (u <$> some_of user_locale) (u <$> some_of group_locale) None).

Definition locale_for_update (upd : update) : io ustr :=
  match effective_chat upd, effective_user upd with
  | Some (chat_type, chat_id), Some user_id => effective_locale (Some chat_type) user_id chat_id
  | _, _ => Ret DEFAULT_LOCALE
  end.

Definition locale_for_user (user_id : Z) : io ustr :=
  user_locale <- try_except (get_user_locale user_id) (fun _ => Ret None) ;;
  Ret (resolve_locale cat_data (u "private") (u <$> user_locale) None None).

Definition locale_for_chat (chat_type : option string) (chat_id : Z) : io ustr :=
  group_locale <- try_except (get_group_locale chat_id) (fun _ => Ret None) ;;
  Ret (resolve_locale cat_data (u match chat_type with Some c => c | None => "group" end)
         None (u <$> group_locale) None).
End locale.

(** * What resolving a locale may do

    Reads of the two preference stores and their memo: nothing else, and no
    failure but cancellation. *)
Definition obs_locale (o : obs eff) : bool :=
  match o with
  | Obs ev _ =>
      match ev with
      | TtlGet c _ | TtlPut c _ _ => String.eqb c "_LOCALE_L1" || String.eqb c "_GROUP_LOCALE_L1"
      | FindOne c _ _ => String.eqb c "user_settings" || String.eqb c "federated_groups"
      | _ => false
      end
  end.

Definition quiet_locale (t : trace eff) : Prop := Forall (fun o => obs_locale o = true) t.

Lemma quiet_locale_interleave t1 t2 t :
  quiet_locale t1 -> quiet_locale t2 -> interleave t1 t2 t -> quiet_locale t.
Proof. intros H1 H2 Hi. apply (interleave_Forall _ _ _ _ Hi). done. Qed.

Lemma get_user_locale_quiet uid : wp (get_user_locale uid) (fun t _ => quiet_locale t).
Proof. unfold get_user_locale, cached_locale, db_call. wp_auto; repeat constructor. Qed.

Lemma get_group_locale_quiet cid : wp (get_group_locale cid) (fun t _ => quiet_locale t).
Proof. unfold get_group_locale, cached_locale, db_call. wp_auto; repeat constructor. Qed.

Definition locale_post {A} (t : trace eff) (r : result A) : Prop :=
  quiet_locale t /\ match r with Ok _ => True | Err e => e = CancelledError end.

Lemma is_cancel_void {A} (r : result A) : is_cancel (void r) = is_cancel r.
Proof. by destruct r. Qed.

Section locale_lemmas.
Context {CAT : Catalog}.

Lemma effective_locale_quiet ct uid cid : wp (effective_locale ct uid cid) locale_post.
Proof.
  unfold effective_locale. apply wp_bind.
  eapply wp_gather2; [apply get_user_locale_quiet|apply get_group_locale_quiet|].
  cbn beta. intros t1 t2 t r1 r2 H1 H2 Hi. pose proof (quiet_locale_interleave _ _ _ H1 H2 Hi) as Ht.
  split; [|done]. cbn [throw_if_cancelled].
  wp_auto; rewrite ?app_nil_r; done.
Qed.

Lemma locale_for_update_quiet upd : wp (locale_for_update upd) locale_post.
Proof.
  unfold locale_for_update. destruct (effective_chat upd) as [[ct cid]|], (effective_user upd);
    try apply effective_locale_quiet; apply wp_ret; split; constructor.
Qed.

Lemma locale_for_user_quiet uid : wp (locale_for_user uid) locale_post.
Proof.
  unfold locale_for_user. apply wp_bind, wp_try.
  eapply wp_mono; [apply get_user_locale_quiet|]. intros t [l|e] Ht; simpl.
  - apply wp_ret. by rewrite app_nil_r.
  - destruct (is_Exception e) eqn:He; [|by destruct e].
    apply wp_ret, wp_ret. rewrite !app_nil_r. done.
Qed.

Lemma locale_for_chat_quiet ct cid : wp (locale_for_chat ct cid) locale_post.
Proof.
  unfold locale_for_chat. apply wp_bind, wp_try.
  eapply wp_mono; [apply get_group_locale_quiet|]. intros t [l|e] Ht; simpl.
  - apply wp_ret. by rewrite app_nil_r.
  - destruct (is_Exception e) eqn:He; [|by destruct e].
    apply wp_ret, wp_ret. rewrite !app_nil_r. done.
Qed.

(** Calls of a class no preference read belongs to are never made. *)
Lemma locale_never (f : obs eff -> bool) (p : io ustr) :
  wp p locale_post -> (forall o, obs_locale o = true -> f o = false) -> never f p.
Proof.
  intros Hp Hf. eapply wp_mono; [exact Hp|]. intros t r [Ht _]. eapply Forall_impl; [exact Ht|exact Hf].
Qed.

Lemma locale_for_update_never f upd :
  (forall o, obs_locale o = true -> f o = false) -> never f (locale_for_update upd).
Proof. apply locale_never, locale_for_update_quiet. Qed.

Lemma locale_for_user_never f uid :
  (forall o, obs_locale o = true -> f o = false) -> never f (locale_for_user uid).
Proof. apply locale_never, locale_for_user_quiet. Qed.

Lemma locale_for_chat_never f ct cid :
  (forall o, obs_locale o = true -> f o = false) -> never f (locale_for_chat ct cid).
Proof. apply locale_never, locale_for_chat_quiet. Qed.
End locale_lemmas.

#[export] Hint Resolve quiet_locale_interleave : traces.

(** A catalog with the default locale only, for concrete runs. *)
Definition demo_catalog : Catalog := {| cat_ucd := ascii_ucd; cat_data := [(DEFAULT_LOCALE, [])] |}.
