(* ===== verification/Roles.v ===== *)
(** [tcbot/database/users_roles.py]: owner, admins and custom roles, and the
    effective role every authorization decision reads.

    A role is the BSON value the code passes around: a string, or [BNull] for
    no role.  A role of another type cannot get past [fetch_effective_role],
    which raises on an array or a document (they are not hashable) and drops
    the rest, nor into the cache it fills, so [role_rank] and the comparisons
    are the code's on strings and [BNull] only. *)

From stdpp Require Import pretty.
From S2P Require Import Prelude Prog Text World I18n Dispatch Cache Locale.

Definition VALID_ROLES : list string := ["developer"; "tester"]%string.

Definition ROLE_RANK : list (string * Z) :=
  [("founder", 4); ("admin", 3); ("developer", 2); ("tester", 1)]%string.

Definition ROLE_LABEL : list (string * string) :=
  [("founder", "Founder"); ("admin", "Admin"); ("developer", "Developer"); ("tester", "Tester")]%string.

Definition role_rank (role : bson) : Z :=
  match role with
  | BStr s => match assoc s ROLE_RANK with Some r => r | None => 0 end
  | _ => 0
  end.

Definition role_is (s : string) (role : bson) : bool :=
  match role with BStr s' => String.eqb s s' | _ => false end.

Definition id_is (user_id : Z) (v : bson) : bool :=
  match v with BInt z => z =? user_id | _ => false end.

Definition _OWNER_KEY : string := "__owner__".

(** * Owner *)
(** The projection keeps [user_id] only: a row without it reads as the empty
    document, which is as false as none. *)
Definition fetch_owner_id : io bson :=
  doc <- db_call (FindOne "tc_owners" [] [("user_id"%string, 1)]) ;;
  match doc with
  | None | Some [] => Ret BNull
  | Some d => match dget "user_id" d with Some v => Ret v | None => Raise (KeyError "user_id") end
  end.

Definition get_owner_id : io bson := get_or_fetch "owner" _OWNER_KEY fetch_owner_id.

Definition is_owner (user_id : Z) : io bool :=
  owner <- get_owner_id ;; Ret (id_is user_id owner).

Definition ensure_initial_owner (initial_id : Z) : io unit :=
  n <- db_call (EstimatedDocumentCount "tc_owners") ;;
  if n >? 0 then Ret tt
  else
    r <- attempt (db_call (InsertOne "tc_owners" [("user_id"%string, BInt initial_id)]) ;;;
                  put "owner" _OWNER_KEY (BInt initial_id)) ;;
    match r with
    | Err (DuplicateKeyError _ _) => invalidate "owner" _OWNER_KEY
    | r => of_result r
    end.

(** The convergence delete: up to three attempts with a growing pause. *)
Fixpoint converge_owner (user_id : Z) (attempts : list Z) : io unit :=
  match attempts with
  | [] => Ret tt
  | n :: rest =>
      r <- attempt (db_call (DeleteMany "tc_owners"
             [("user_id"%string, BDoc [("$ne"%string, BInt user_id)])])) ;;
      match r with
      | Ok _ => Ret tt
      | Err e =>
          if negb (is_Exception e) then Raise e
          else if n <? 2 then call (Sleep (500 * (n + 1))) ;;; converge_owner user_id rest
          else Raise e
      end
  end.

Definition set_owner (user_id : Z) : io unit :=
  db_call (FindOneAndReplace "tc_owners" [] [("user_id"%string, BInt user_id)] true
             [("user_id"%string, 1)]) ;;;
  converge_owner user_id [0; 1; 2] ;;;
  put "owner" _OWNER_KEY (BInt user_id) ;;;
  try_except (db_call (EstimatedDocumentCount "tc_owners") ;;; Ret tt) (fun _ => Ret tt) ;;;
  clear_all "role".

(** * Admins *)
Definition is_admin (user_id : Z) : io bool :=
  doc <- db_call (FindOne "tc_admins" [("user_id"%string, BInt user_id)] []) ;;
  Ret match doc with Some _ => true | None => false end.

Definition add_admin (user_id promoted_by : Z) : io unit :=
  now <- call UtcNow ;;
  db_call (UpdateOne "tc_admins" [("user_id", BInt user_id)]
    [("$setOnInsert", BDoc [("user_id", BInt user_id); ("promoted_by", BInt promoted_by);
                            ("promoted_date", BDate now)])]%string true) ;;;
  invalidate "role" (pretty user_id).

Definition remove_admin (user_id : Z) : io bool :=
  deleted <- db_call (DeleteOne "tc_admins" [("user_id"%string, BInt user_id)]) ;;
  invalidate "role" (pretty user_id) ;;;
  Ret (deleted >? 0).

Definition all_admins : io (list doc) := db_call (Find "tc_admins" [] [] 0 None).
Definition admin_count : io Z := db_call (EstimatedDocumentCount "tc_admins").

(** * Custom roles *)
Definition set_role (user_id : Z) (role : string) (assigned_by : Z) : io unit :=
  if negb (existsb (String.eqb role) VALID_ROLES) then
    Raise (ValueError "Refusing to store invalid custom role")
  else
    now <- call UtcNow ;;
    db_call (UpdateOne "tc_roles" [("user_id", BInt user_id)]
      [("$set", BDoc [("user_id", BInt user_id); ("role", BStr role);
                      ("assigned_by", BInt assigned_by); ("assigned_at", BDate now)])]%string true) ;;;
    invalidate "role" (pretty user_id).

Definition remove_role (user_id : Z) : io bool :=
  deleted <- db_call (DeleteOne "tc_roles" [("user_id"%string, BInt user_id)]) ;;
  invalidate "role" (pretty user_id) ;;;
  Ret (deleted >? 0).

Definition get_role (user_id : Z) : io bson :=
  doc <- db_call (FindOne "tc_roles" [("user_id"%string, BInt user_id)] []) ;;
  match doc with
  | None => Ret BNull
  | Some doc => match dget "role" doc with Some r => Ret r | None => Raise (KeyError "role") end
  end.

Definition all_by_role (role : string) : io (list doc) :=
  db_call (Find "tc_roles" [("role"%string, BStr role)] [] 0 None).
Definition role_count (role : string) : io Z :=
  db_call (CountDocuments "tc_roles" [("role"%string, BStr role)]).

(** * Effective role *)

(** A stored custom role counts only when it is one of [VALID_ROLES]. *)
Definition custom_role (role : bson) : result bson :=
  match role with
  | BStr s => Ok (if existsb (String.eqb s) VALID_ROLES then role else BNull)
  | BDoc _ | BArr _ => Err (OtherException "TypeError")
  | _ => Ok BNull
  end.

Definition fetch_effective_role (user_id : Z) : io bson :=
  let! (owner, admin, role) := gather3 (is_owner user_id) (is_admin user_id) (get_role user_id) in
  throw_if_cancelled [void owner; void admin; void role] ;;;
  owner <- of_result owner ;;
  admin <- of_result admin ;;
  role <- of_result role ;;
  role <- of_result (custom_role role) ;;
  Ret (if owner : bool then BStr "founder" else if admin : bool then BStr "admin" else role).

Definition get_effective_role (user_id : Z) : io bson :=
  get_or_fetch "role" (pretty user_id) (fetch_effective_role user_id).

Definition is_staff (user_id : Z) : io bool :=
  role <- try_except (role <- get_effective_role user_id ;; Ret (Some role)) (fun _ => Ret None) ;;
  Ret match role with
      | None => false
      | Some role => role_is "founder" role || role_is "admin" role
      end.

(** The role with who gave it and when. *)
Definition role_meta (user_id : Z) : io (bson * bson * bson) :=
  let field k d := match dget k d with Some v => v | None => BNull end in
  role <- get_effective_role user_id ;;
  match role with
  | BNull => Ret (BNull, BNull, BNull)
  | _ =>
      if role_is "founder" role then Ret (role, BNull, BNull)
      else if role_is "admin" role then
        doc <- db_call (FindOne "tc_admins" [("user_id"%string, BInt user_id)] []) ;;
        Ret match doc with
            | Some doc => (role, field "promoted_by"%string doc, field "promoted_date"%string doc)
            | None => (role, BNull, BNull)
            end
      else
        doc <- db_call (FindOne "tc_roles" [("user_id"%string, BInt user_id)] []) ;;
        Ret match doc with
            | Some doc => (role, field "assigned_by"%string doc, field "assigned_at"%string doc)
            | None => (role, BNull, BNull)
            end
  end.

(** * Who may hold a role *)

(** A database lookup of this trace failed. *)
Definition obs_lookup_failed (o : obs eff) : bool :=
  match o with
  | Obs ev r => match ev with FindOne _ _ _ => is_err r | _ => false end
  end.

(** The first document a lookup on [c] with this filter answered satisfies
    [P]. *)
Definition obs_row (c : string) (filter : doc) (P : doc -> Prop) (o : obs eff) : Prop :=
  match o with
  | Obs ev r =>
      match ev in eff X return result X -> Prop with
      | FindOne c' f' _ => fun r => c' = c /\ f' = filter /\ match r with Ok (Some d) => P d | _ => False end
      | _ => fun _ => False
      end r
  end.

(** The owner row, or the owner cache, named this user. *)
Definition owner_evidence (user_id : Z) (t : trace eff) : Prop :=
  Exists (obs_row "tc_owners" [] (fun d => dget "user_id" d = Some (BInt user_id))) t \/
  Exists (obs_serves "owner" _OWNER_KEY (BInt user_id)) t.

Definition no_failed_lookup (t : trace eff) : Prop :=
  Forall (fun o => obs_lookup_failed o = false) t.

Lemma cache_obs_lookup cache key t :
  Forall (fun o => cache_obs cache key o = true) t -> no_failed_lookup t.
Proof.
  intros H. eapply Forall_impl; [exact H|]. intros [X ev r]; by destruct ev.
Qed.

Lemma fetch_owner_id_spec :
  wp fetch_owner_id (fun t r =>
    (is_err r = false -> no_failed_lookup t) /\
    forall z, r = Ok (BInt z) -> Exists (obs_row "tc_owners" [] (fun d => dget "user_id" d = Some (BInt z))) t).
Proof.
  unfold fetch_owner_id, db_call. wp_step. wp_step. destruct x as [d|e].
  - destruct d as [[|f d]|]; [apply wp_ret; split; [by repeat constructor|done]| |apply wp_ret; split; [by repeat constructor|done]].
    destruct (dget "user_id" (f :: d)) as [v|] eqn:Hd; [|by apply wp_raise].
    apply wp_ret. split; [by repeat constructor|]. intros z [= ->]. by constructor.
  - simpl. done.
Qed.

Lemma get_owner_id_spec :
  wp get_owner_id (fun t r =>
    (is_err r = false -> no_failed_lookup t) /\ forall z, r = Ok (BInt z) -> owner_evidence z t).
Proof.
  eapply wp_mono; [apply get_or_fetch_trace, fetch_owner_id_spec|].
  intros t r (t1 & tf & t2 & -> & H1 & H2 & [[Hn Hr]|[-> Hr]]).
  - split.
    + intros He. apply Forall_app. split; [by eapply cache_obs_lookup|].
      apply Forall_app. split; [exact (Hn He)|by eapply cache_obs_lookup].
    + intros z Hz. left. rewrite !Exists_app. auto.
  - split.
    + intros He. apply Forall_app. split; by eapply cache_obs_lookup.
    + intros z ->. right. rewrite !Exists_app. auto.
Qed.

Lemma is_owner_spec uid :
  wp (is_owner uid) (fun t r =>
    (is_err r = false -> no_failed_lookup t) /\ (r = Ok true -> owner_evidence uid t)).
Proof.
  unfold is_owner. apply wp_bind. eapply wp_mono; [apply get_owner_id_spec|].
  intros t [v|e] [Hn Hr]; [|done]. apply wp_ret. rewrite app_nil_r. split; [done|].
  intros [= Hv]. unfold id_is in Hv. destruct v; try done. to_prop. subst. auto.
Qed.

Lemma is_admin_spec uid :
  wp (is_admin uid) (fun t r =>
    (is_err r = false -> no_failed_lookup t) /\
    (r = Ok true -> Exists (obs_row "tc_admins" [("user_id"%string, BInt uid)] (fun _ => True)) t)).
Proof.
  unfold is_admin, db_call. wp_step. wp_step. destruct x as [d|e]; [apply wp_ret|done].
  split; [by repeat constructor|]. intros [= Hd]. constructor. simpl. by destruct d.
Qed.

Lemma get_role_spec uid :
  wp (get_role uid) (fun t r =>
    (is_err r = false -> no_failed_lookup t) /\
    forall s, r = Ok (BStr s) ->
      Exists (obs_row "tc_roles" [("user_id"%string, BInt uid)] (fun d => dget "role" d = Some (BStr s))) t).
Proof.
  unfold get_role, db_call. wp_step. wp_step. destruct x as [[d|]|e].
  - destruct (dget "role" d) as [v|] eqn:Hd; [apply wp_ret|apply wp_raise; done].
    split; [by repeat constructor|]. intros s [= ->]. by repeat constructor.
  - apply wp_ret. split; [by repeat constructor|done].
  - done.
Qed.

(** What justifies a resolved role. *)
Definition role_evidence (user_id : Z) (t : trace eff) (role : bson) : Prop :=
  role = BStr "founder" /\ owner_evidence user_id t \/
  role = BStr "admin" /\
    Exists (obs_row "tc_admins" [("user_id"%string, BInt user_id)] (fun _ => True)) t \/
  (exists s, In s VALID_ROLES /\ role = BStr s /\
    Exists (obs_row "tc_roles" [("user_id"%string, BInt user_id)]
              (fun d => dget "role" d = Some (BStr s))) t) \/
  role = BNull.

Lemma admin_and_role_spec uid :
  wp (gather2 (is_admin uid) (get_role uid)) (fun t rr =>
    match rr with
    | Ok (ra, rr) =>
        (is_err ra = false -> is_err rr = false -> no_failed_lookup t) /\
        (ra = Ok true -> Exists (obs_row "tc_admins" [("user_id"%string, BInt uid)] (fun _ => True)) t) /\
        (forall s, rr = Ok (BStr s) -> Exists (obs_row "tc_roles" [("user_id"%string, BInt uid)]
           (fun d => dget "role" d = Some (BStr s))) t)
    | Err e => e = CancelledError
    end).
Proof.
  eapply wp_gather2; [apply is_admin_spec|apply get_role_spec|].
  intros t1 t2 t r1 r2 [Hn1 Ha] [Hn2 Hr] Hi. split; [|done]. split; [|split].
  - intros He1 He2. apply (interleave_Forall _ _ _ _ Hi). split; [exact (Hn1 He1)|exact (Hn2 He2)].
  - intros Hra. eapply interleave_Exists; [exact Hi|]. auto.
  - intros s Hs. eapply interleave_Exists; [exact Hi|]. auto.
Qed.

Lemma fetch_effective_role_spec user_id :
  wp (fetch_effective_role user_id) (fun t r =>
    forall role, r = Ok role -> no_failed_lookup t /\ role_evidence user_id t role).
Proof.
  unfold fetch_effective_role, gather3. wp_step. wp_step.
  eapply wp_gather2; [apply is_owner_spec|apply admin_and_role_spec|].
  cbn beta iota. intros t1 t2 t ro rr [Hn1 Ho] H2 Hi. split; [|by intros role].
  destruct rr as [[ra rr]|e].
  2: { apply wp_raise. by intros role. }
  destruct H2 as (Hn2 & Ha & Hr).
  apply wp_ret. rewrite app_nil_r.
  destruct ro as [o|e1], ra as [a|e2], rr as [c|e3];
    cbn [throw_if_cancelled void is_cancel of_result];
    wp_auto; rewrite ?app_nil_r; intros role Hrole; try discriminate Hrole; injection Hrole as <-;
    (split; [apply (interleave_Forall _ _ _ _ Hi); split; [by apply Hn1|by apply Hn2]|]).
  destruct o; [left; split; [done|]|destruct a; [right; left; split; [done|]|right; right]].
  - destruct (Ho eq_refl) as [H|H]; [left|right]; (eapply interleave_Exists; [exact Hi|by left]).
  - eapply interleave_Exists; [exact Hi|]. right. auto.
  - destruct c as [| | |s| | | |]; simplify_eq/=; auto.
    destruct (_ || _) eqn:Hv; [left|by right].
    assert (In s VALID_ROLES) as Hin.
    { simpl. apply orb_true_iff in Hv as [->%String.eqb_eq|Hv]; [auto|].
      rewrite orb_false_r in Hv. apply String.eqb_eq in Hv as ->. auto. }
    exists s. split; [done|]. split; [done|]. eapply interleave_Exists; [exact Hi|]. right. auto.
Qed.

(** C4: privilege only ever comes from the matching record.  Against every
    answer of the database, Redis and the caches, in every interleaving of the
    three parallel lookups: a role is resolved only when no lookup of it
    failed; it is one of the four roles or none; "founder" means the owner
    record (or its cache) named the user, "admin" that an admin record exists,
    "developer" or "tester" that the user's custom-role record says so; and a
    custom-role record holding "admin" or "founder" grants nothing. *)
Theorem effective_role_sound (user_id : Z) (t : trace eff) (role : bson)
    (Hrun : exec (fetch_effective_role user_id) t (Ok role)) :
  no_failed_lookup t /\ role_evidence user_id t role.
Proof. exact (wp_elim _ _ _ _ (fetch_effective_role_spec user_id) Hrun role eq_refl). Qed.

(** Only an owner record exists in this world, naming user 7. *)
Definition owner_script : script := fun X ev =>
  match ev in eff X return option (result X) with
  | FindOne "tc_owners" _ _ => Some (Ok (Some [("user_id"%string, BInt 7)]))
  | _ => None
  end.

Lemma effective_role_sound_witness :
  owner_evidence 7 (replay owner_script (fetch_effective_role 7)).1.
Proof.
  pose proof (effective_role_sound 7 _ _ (replay_exec owner_script (fetch_effective_role 7)))
    as [_ [[_ H]|[[H _]|[(s & [<-|[<-|[]]] & H & _)|H]]]]; [exact H|discriminate H..].
Defined.

(** * Ownership transfer *)

Definition obs_replace_owner (o : obs eff) : bool :=
  match o with
  | Obs ev r => match ev with FindOneAndReplace "tc_owners" _ _ _ _ => negb (is_err r) | _ => false end
  end.

Definition obs_delete_owners (o : obs eff) : bool :=
  match o with Obs ev _ => match ev with DeleteMany "tc_owners" _ => true | _ => false end end.

Definition obs_deleted_owners (o : obs eff) : bool :=
  match o with
  | Obs ev r => match ev with DeleteMany "tc_owners" _ => negb (is_err r) | _ => false end
  end.

Definition obs_sweep_roles (o : obs eff) : bool :=
  match o with Obs ev _ => match ev with MemClear "role" => true | _ => false end end.

Lemma converge_owner_spec uid :
  wp (converge_owner uid [0; 1; 2]) (fun t r =>
    (tcount obs_delete_owners t <= 3)%nat /\
    Forall (fun o => obs_replace_owner o = false /\ obs_sweep_roles o = false /\ obs_mem_put "owner" o = false) t /\
    (is_err r = existsb obs_deleted_owners t -> False)).
Proof.
  unfold converge_owner, db_call. wp_auto; (split; [unfold tcount; simpl; lia|]);
    (split; [by repeat constructor|done]).
Qed.

(** What follows the writes: the owner cache, the verification read and the
    sweep of the cached roles. *)
Definition announce_owner (user_id : Z) : io unit :=
  put "owner" _OWNER_KEY (BInt user_id) ;;;
  try_except (db_call (EstimatedDocumentCount "tc_owners") ;;; Ret tt) (fun _ => Ret tt) ;;;
  clear_all "role".

Definition no_owner_write (o : obs eff) : Prop :=
  obs_replace_owner o = false /\ obs_delete_owners o = false.

Lemma announce_owner_spec uid :
  wp (announce_owner uid) (fun t r => Forall no_owner_write t /\ (r = Ok tt -> existsb obs_sweep_roles t = true)).
Proof.
  unfold announce_owner. apply wp_bind.
  apply (wp_mono _ (fun t r => Forall no_owner_write t)).
  { unfold put, redis_put_background. wp_auto; by repeat constructor. }
  intros t1 [[]|e] H1; [|done]. apply wp_bind.
  apply (wp_mono _ (fun t r => Forall no_owner_write t)).
  { unfold db_call. wp_auto; by repeat constructor. }
  intros t2 [[]|e] H2; cbn beta iota; [|split; [by apply Forall_app|done]].
  apply (wp_mono _ (fun t r => Forall no_owner_write t /\ existsb obs_sweep_roles t = true)).
  { unfold clear_all. wp_auto; (split; [by repeat constructor|done]). }
  intros t3 r [H3 Hs]. split; [by repeat (apply Forall_app; split)|].
  intros _. rewrite !existsb_app, Hs. by rewrite !orb_true_r.
Qed.

(** An ownership transfer never leaves the federation without an owner nor
    half announced.  The owner row is replaced by one upsert before anything
    else; leftover rows are deleted at most three times, and only after it;
    the owner cache names the new owner, and the cached roles are swept, only
    after a delete succeeded; and a transfer that returns has swept them. *)
Theorem set_owner_order (user_id : Z) (t : trace eff) (r : result unit)
    (Hrun : exec (set_owner user_id) t r) :
  guarded obs_replace_owner
    (fun o => obs_delete_owners o || obs_mem_put "owner" o || obs_sweep_roles o) t = true /\
  guarded obs_deleted_owners (fun o => obs_mem_put "owner" o || obs_sweep_roles o) t = true /\
  (tcount obs_delete_owners t <= 3)%nat /\
  (r = Ok tt -> existsb obs_replace_owner t = true /\ existsb obs_deleted_owners t = true /\
                existsb obs_sweep_roles t = true).
Proof.
  revert t r Hrun. apply wp_elim'. unfold set_owner. fold (announce_owner user_id). unfold db_call at 1.
  wp_step. wp_step. destruct x as [d|e]; [|split; [done|split; [done|split; [unfold tcount; simpl; lia|done]]]].
  cbn beta iota. wp_step. eapply wp_mono; [apply converge_owner_spec|].
  intros t2 r2 (Hc & Hf & Hr).
  assert (guarded obs_deleted_owners (fun o => obs_mem_put "owner" o || obs_sweep_roles o) t2 = true) as Hg
    by (apply guarded_none; eapply Forall_impl; [exact Hf|]; simpl; intros o (_ & -> & ->); done).
  destruct r2 as [[]|e]; cbn beta iota; [|split; [done|split; [exact Hg|split; [exact Hc|done]]]].
  destruct (existsb obs_deleted_owners t2) eqn:Hd; [|by exfalso; apply Hr].
  eapply wp_mono; [apply announce_owner_spec|]. intros t3 r3 [H3 Hs].
  split; [done|]. split; [|split].
  - simpl. by rewrite guarded_app, Hg, Hd.
  - assert (tcount obs_delete_owners t3 = 0%nat) as H0.
    { apply tcount_zero. eapply Forall_impl; [exact H3|]. by intros o [_ ?]. }
    change (tcount obs_delete_owners (t2 ++ t3) <= 3)%nat. rewrite tcount_app. lia.
  - intros Hok. simpl. rewrite !existsb_app, Hd, (Hs Hok). by rewrite orb_true_r.
Qed.

Lemma set_owner_order_witness :
  existsb obs_sweep_roles (replay no_script (set_owner 7)).1 = true.
Proof.
  apply (set_owner_order 7 _ _ (replay_exec no_script (set_owner 7))). reflexivity.
Defined.
