(* ===== verification/Replies.v ===== *)
(** Answering the user: [tcbot/modules/helper/parse_editmsg.py] and the texts
    of [tcbot/modules/helper/replies.py] the decorators send.  Log lines are
    left out; a message is the pair of its chat and id. *)

From S2P Require Import Prelude Prog Text World I18n Dispatch Locale.

(** The keyboard a text is edited with is the caller's. *)
Definition edit_with (edit : io unit) (catch_all : bool) : io unit :=
  r <- attempt edit ;;
  match r with
  | Ok _ => Ret tt
  | Err (BadRequest _) => Ret tt
  | Err e => if is_Exception e && catch_all then Ret tt else Raise e
  end.

Definition safe_edit (msg : message) (t : text) (kb : markup) (catch_all : bool) : io unit :=
  edit_with (call (EditMessageText (msg_chat_id msg) (message_id msg) t kb)) catch_all.

(** A callback query edits the message its button belongs to. *)
Definition safe_edit_cb (q : message) (t : text) (kb : markup) (catch_all : bool) : io unit :=
  edit_with (call (EditMessageText (msg_chat_id q) (message_id q) t kb)) catch_all.

Definition safe_edit_message (chat_id message_id : Z) (t : text) (kb : markup) (catch_all : bool) : io unit :=
  edit_with (call (EditMessageText chat_id message_id t kb)) catch_all.

Definition clear_markup_cb (q : message) : io unit :=
  r <- attempt (call (EditMessageReplyMarkup (msg_chat_id q) (message_id q) None)) ;;
  match r with
  | Ok _ | Err (BadRequest _) => Ret tt
  | Err e => Raise e
  end.

Definition answer_and_edit (q : message) (t : text) (kb : markup) : io unit :=
  let! (a, e) := gather2 (call (AnswerCallback None)) (safe_edit_cb q t kb false) in
  throw_if_cancelled [a; e].

Definition ack_and_render (q : message) (data : io (text * markup)) : io unit :=
  let! (ans, r) := gather2 (call (AnswerCallback None)) data in
  throw_if_cancelled [void ans; void r] ;;;
  match r with
  | Err _ => Ret tt
  | Ok (t, kb) => safe_edit_cb q t kb false
  end.

Definition safe_reply (msg : message) (t : text) : io unit :=
  try_except (call (ReplyText (message_id msg) t None) ;;; Ret tt) (fun _ => Ret tt).

(** With a keyboard. *)
Definition safe_reply_kb (msg : message) (t : text) (kb : markup) : io unit :=
  try_except (call (ReplyText (message_id msg) t kb) ;;; Ret tt) (fun _ => Ret tt).

(** [safe_reply] on the update's message, when it has one. *)
Definition reply_if (msg : option message) (t : text) : io unit :=
  match msg with Some msg => safe_reply msg t | None => Ret tt end.

(** * Texts *)

(** [round(wait)] of tenths of a second, ties to even. *)
Definition round_wait (tenths : Z) : Z :=
  let q := tenths / 10 in
  let r := tenths mod 10 in
  if r <? 5 then q else if 5 <? r then q + 1 else if Z.even q then q else q + 1.

Definition rate_limit_text (wait : Z) (locale : ustr) : text :=
  TKey "common.limit.text" locale [("wait"%string, TInt (Z.max 1 (round_wait wait)))].
Definition refuse_rank_insufficient (locale : ustr) : text := TKey "common.refuse.rank_insufficient" locale [].
Definition refuse_role_lookup (locale : ustr) : text := TKey "common.refuse.role_lookup" locale [].
Definition refuse_anon_admin (locale : ustr) : text := TKey "common.refuse.anon_admin" locale [].
Definition refuse_outranked (role : string) (locale : ustr) : text :=
  TKey "common.refuse.outranked" locale [("role"%string, TStr role)].

(** [replies.no_reason(locale, plain=True)]: stored as the reason itself. *)
Definition no_reason {CAT : Catalog} (locale : ustr) : io string :=
  s <- of_result (t cat_data (u "common.action.no_reason") (Some locale) true []) ;; Ret (s_of s).

Lemma no_reason_never {CAT : Catalog} f locale : never f (no_reason locale).
Proof. unfold no_reason. destruct (t _ _ _ _ _); [apply never_ret|apply never_raise]. Qed.
#[export] Hint Resolve no_reason_never : never.

(** * Replies only talk *)
Definition obs_talk (o : obs eff) : bool :=
  match o with
  | Obs ev _ =>
      match ev with
      | ReplyText _ _ _ | EditMessageText _ _ _ _ | EditMessageReplyMarkup _ _ _ | AnswerCallback _ => true
      | _ => false
      end
  end.

Definition talk_post {A} (t : trace eff) (r : result A) : Prop :=
  Forall (fun o => obs_talk o = true) t /\ match r with Ok _ => True | Err e => e = CancelledError end.

Lemma safe_reply_talks msg txt : wp (safe_reply msg txt) talk_post.
Proof.
  unfold safe_reply. wp_auto; (split; [by repeat constructor|]); try done;
    match goal with H : is_Exception ?e = false |- _ => by destruct e end.
Qed.

Lemma reply_if_talks msg txt : wp (reply_if msg txt) talk_post.
Proof.
  destruct msg as [msg|]; [apply safe_reply_talks|apply wp_ret; by split; constructor].
Qed.

Lemma edit_cb_talks q txt kb : wp (safe_edit_cb q txt kb true) talk_post.
Proof.
  unfold safe_edit_cb, edit_with. wp_auto; (split; [by repeat constructor|]); try done;
    match goal with H : _ && _ = false |- _ => rewrite andb_true_r in H end;
    match goal with H : is_Exception ?e = false |- _ => by destruct e end.
Qed.

(** Answers make no call outside talking. *)
Lemma note_never f chat mid txt kb :
  (forall o, obs_talk o = true -> f o = false) -> never f (safe_edit_message chat mid txt kb true).
Proof.
  intros Hf. unfold safe_edit_message, edit_with. never_auto. apply never_call. intros r. by apply Hf.
Qed.

Lemma reply_never f msg txt :
  (forall o, obs_talk o = true -> f o = false) -> never f (safe_reply msg txt).
Proof.
  intros Hf. eapply wp_mono; [apply safe_reply_talks|]. intros t r [Ht _].
  eapply Forall_impl; [exact Ht|]. exact Hf.
Qed.

Lemma reply_if_never f msg txt :
  (forall o, obs_talk o = true -> f o = false) -> never f (reply_if msg txt).
Proof. intros Hf. destruct msg; [by apply reply_never|apply never_ret]. Qed.

Lemma reply_kb_never f msg txt kb :
  (forall o, obs_talk o = true -> f o = false) -> never f (safe_reply_kb msg txt kb).
Proof. intros Hf. unfold safe_reply_kb. never_auto. apply never_call. intros r. by apply Hf. Qed.

Lemma talk_enforce o : obs_talk o = true -> obs_enforce o = false.
Proof. by destruct o as [X [] r]. Qed.
#[export] Hint Resolve talk_enforce : never.
