(* ===== verification/Auth.v ===== *)
(** Who may act: [tcbot/modules/helper/decorators] (the authorization tiers,
    the executor-against-target checks and the throttling handlers), and the
    identity of a target ([tcbot/modules/helper/identity.py], over
    [tcbot/database/users_cache/reads.py]). *)

From stdpp Require Import pretty.
From S2P Require Import Prelude Prog Text World I18n Dispatch Cache Locale Roles Replies.

Definition ANONYMOUS_BOT_ID : Z := 1087968824.
Definition TELEGRAM_USER_ID : Z := 777000.

Definition _is_anon_admin (upd : update) : bool :=
  match effective_user upd with Some u => u =? ANONYMOUS_BOT_ID | None => false end.

(** [if uid]: a present, non-zero id. *)
Definition acting_user (upd : update) : option Z :=
  match effective_user upd with Some u => if truthy_Z u then Some u else None | None => None end.

Section auth.
Context {CAT : Catalog}.

(** * Authorization tiers *)
Definition _REFUSAL_BY_LABEL (refusal : string) (locale : ustr) : text :=
  TKey ("common.refuse." ++ refusal)%string locale [].

Definition authorized (min_role : option string) (uid : Z) : io bool :=
  match min_role with
  | None => owner <- get_owner_id ;; Ret (id_is uid owner)
  | Some min_role =>
      role <- get_effective_role uid ;;
      Ret (role_rank (BStr min_role) <=? role_rank role)
  end.

Definition _auth_only {A} (refusal : string) (min_role : option string) (func : io A)
    (upd : update) : io (option A) :=
  locale <- locale_for_update upd ;;
  if _is_anon_admin upd then
    reply_if (effective_message upd) (refuse_anon_admin locale) ;;; Ret None
  else
    let refuse :=
      reply_if (effective_message upd) (_REFUSAL_BY_LABEL refusal locale) ;;; Ret None in
    match acting_user upd with
    | None => refuse
    | Some uid =>
        ok <- attempt (authorized min_role uid) ;;
        match ok with
        | Err e =>
            if is_Exception e then
              reply_if (effective_message upd) (refuse_role_lookup locale) ;;; Ret None
            else Raise e
        | Ok true => a <- func ;; Ret (Some a)
        | Ok false => refuse
        end
    end.

Definition owner_only {A} (func : io A) := _auth_only "owner_only" None func.
Definition staff_only {A} (func : io A) := _auth_only "staff_only" (Some "admin"%string) func.
Definition mod_only {A} (func : io A) := _auth_only "mod_only" (Some "developer"%string) func.
Definition basic_mod_only {A} (func : io A) := _auth_only "basic_mod_only" (Some "tester"%string) func.

(** * Executor against target *)

(** [str.capitalize] on the ASCII role names. *)
Definition capitalize (s : string) : string :=
  match s with
  | EmptyString => s
  | String c s' => String (ascii_of_N (Z.to_N (ascii_upper (ch c)))) s'
  end.

Definition role_label (role : bson) : string :=
  match role with
  | BStr s => match assoc s ROLE_LABEL with Some l => l | None => capitalize s end
  | _ => ""
  end.

Definition truthy_role (role : bson) : bool :=
  match role with BStr s => truthy_str s | _ => false end.

(** [(None, None)] is [(BNull, BNull)]. *)
Definition resolve_and_check (msg : message) (executor_id target_id : Z) (min_role : string)
    : io (bson * bson) :=
  let! (executor_role, target_role) :=
    gather2 (get_effective_role executor_id) (get_effective_role target_id) in
  throw_if_cancelled [void executor_role; void target_role] ;;;
  locale <- effective_locale (Some (msg_chat_type msg)) executor_id (msg_chat_id msg) ;;
  match executor_role, target_role with
  | Ok executor_role, Ok target_role =>
      if role_rank executor_role <? role_rank (BStr min_role) then
        safe_reply msg (refuse_rank_insufficient locale) ;;; Ret (BNull, BNull)
      else if truthy_role target_role && (role_rank executor_role <=? role_rank target_role) then
        safe_reply msg (refuse_outranked (role_label target_role) locale) ;;; Ret (BNull, BNull)
      else Ret (executor_role, target_role)
  | _, _ => safe_reply msg (refuse_role_lookup locale) ;;; Ret (BNull, BNull)
  end.

Definition recheck_executor_rank (msg : message) (executor_id : Z) (min_role : string) : io bool :=
  locale <- effective_locale (Some (msg_chat_type msg)) executor_id (msg_chat_id msg) ;;
  role <- attempt (get_effective_role executor_id) ;;
  match role with
  | Err e =>
      if is_Exception e then safe_reply msg (refuse_role_lookup locale) ;;; Ret false else Raise e
  | Ok role =>
      if role_rank role <? role_rank (BStr min_role)
      then safe_reply msg (refuse_rank_insufficient locale) ;;; Ret false
      else Ret true
  end.

(** * Identity of a target *)
Definition _fetch_mention_triple (user_id : Z) : io bson :=
  doc <- db_call (FindOne "member_cache" [("user_id"%string, BInt user_id)] []) ;;
  let field k d := match dget k d with Some v => v | None => BNull end in
  Ret match doc with
      | None => BArr [BNull; BNull; BNull]
      | Some doc =>
          BArr [match dget "first_name" doc with
                | Some (BStr s) => if truthy_str s then BStr s else BStr (pretty user_id)
                | _ => BStr (pretty user_id)
                end; field "username"%string doc; field "last_name"%string doc]
      end.

(** [(data[0] or str(user_id), data[1])]; a cached list that is too short
    raises. *)
Definition get_user_mention_data (user_id : Z) : io (string * option string) :=
  data <- get_or_fetch "umention" (pretty user_id) (_fetch_mention_triple user_id) ;;
  match data with
  | BArr (name :: username :: _) =>
      Ret (match name with BStr s => s | _ => pretty user_id end, bstr username)
  | BArr _ => Raise (OtherException "IndexError")
  | _ => Raise (OtherException "TypeError")
  end.

Inductive kind : Type :=
  | Self | ThisBot | OtherBot | Telegram | AnonAdmin
  | Founder | Admin | Developer | Tester | RegularUser.

Record Identity := MkIdentity {
  id_kind : kind;
  target_id : Z;
  fname : string;
  username : option string;
  is_bot : bool
}.

(** [name.lstrip("-").isdigit()] *)
Definition numeric_name (s : string) : bool :=
  isdigit (lstrip (Z.eqb c_minus) (u s)).

Definition classify (bot_id executor_id tid : Z) (target_fname : option string)
    (target_is_bot : option bool) : io Identity :=
  let! (mention_data, role_result) :=
    gather2 (get_user_mention_data tid) (get_effective_role tid) in
  throw_if_cancelled [void mention_data; void role_result] ;;;
  let cached_fname := match mention_data with Ok (n, _) => Some n | Err _ => None end in
  let target_username := match mention_data with Ok (_, un) => un | Err _ => None end in
  let role := match role_result with Ok r => r | Err _ => BNull end in
  let target_fname :=
    match target_fname with
    | Some n => if negb (truthy_str n) || String.prefix "User " n || numeric_name n
                then cached_fname else Some n
    | None => cached_fname
    end in
  let name := match target_fname with
              | Some n => if truthy_str n then n else pretty tid
              | None => pretty tid
              end in
  let ident k b := Ret (MkIdentity k tid name target_username b) in
  if tid =? executor_id then ident Self false
  else if tid =? bot_id then ident ThisBot true
  else if tid =? TELEGRAM_USER_ID then ident Telegram false
  else if tid =? ANONYMOUS_BOT_ID then ident AnonAdmin true
  else if match target_is_bot with Some b => b | None => false end then ident OtherBot true
  else if role_is "founder" role then ident Founder false
  else if role_is "admin" role then ident Admin false
  else if role_is "developer" role then ident Developer false
  else if role_is "tester" role then ident Tester false
  else ident RegularUser false.

Definition classify_and_check (bot_id admin_id tid : Z) (target_name : option string)
    (msg : message) (min_role : string) (target_is_bot : option bool)
    : io (option (Identity * bson)) :=
  let! (ident, role_result) :=
    gather2 (classify bot_id admin_id tid target_name target_is_bot)
            (resolve_and_check msg admin_id tid min_role) in
  throw_if_cancelled [void ident; void role_result] ;;;
  match ident, role_result with
  | Ok ident, Ok (BNull, _) => Ret None
  | Ok ident, Ok (_, target_role) => Ret (Some (ident, target_role))
  | _, _ => Ret None
  end.

(** Which actions refuse which identities. *)
Definition refused_kinds (action : string) : list kind :=
  match assoc action
    [("ban", [Self; ThisBot; Telegram; AnonAdmin; Founder]);
     ("kick", [Self; ThisBot; Telegram; AnonAdmin; Founder]);
     ("mute", [Self; ThisBot; Telegram; AnonAdmin; Founder]);
     ("warn", [Self; ThisBot; Telegram; OtherBot; AnonAdmin; Founder]);
     ("unban", [Self; ThisBot; Telegram; AnonAdmin; Founder; Admin; Developer; Tester]);
     ("unmute", [Self; ThisBot; Telegram; OtherBot; AnonAdmin; Founder]);
     ("promote", [Self; ThisBot; Telegram; OtherBot; AnonAdmin; Founder; Admin]);
     ("demote", [Self; ThisBot; Telegram; OtherBot; AnonAdmin; Founder]);
     ("transfer", [Self; ThisBot; Telegram; OtherBot; AnonAdmin]);
     ("unwarn", [Self; ThisBot; Telegram; OtherBot; AnonAdmin; Founder]);
     ("resetwarns", [Self; ThisBot; Telegram; OtherBot; AnonAdmin; Founder])]%string
  with Some ks => ks | None => [] end.

#[global] Instance kind_eq_dec : EqDecision kind.
Proof. solve_decision. Defined.

Definition kind_name (k : kind) : string :=
  match k with
  | Self => "self" | ThisBot => "this_bot" | OtherBot => "other_bot" | Telegram => "telegram"
  | AnonAdmin => "anon_admin" | Founder => "founder" | Admin => "admin" | Developer => "developer"
  | Tester => "tester" | RegularUser => "user"
  end.

Definition _line (ident : Identity) : text :=
  TBuild "user_ref" [TInt (target_id ident); TStr (fname ident); TOptStr (username ident)].

Definition refuse_message (action : string) (ident : Identity) (locale : ustr) : option text :=
  if existsb (fun k => bool_decide (k = id_kind ident)) (refused_kinds action)
  then Some (TKey ("identity.refuse." ++ action ++ "." ++ kind_name (id_kind ident))%string locale
               [("line"%string, _line ident)])
  else None.

(** [can_manage_group] *)
Definition can_manage_group (chat_id user_id : Z) : io bool :=
  staff <- is_staff user_id ;;
  if staff : bool then Ret true
  else
    member <- try_except (m <- call (GetChatMember chat_id user_id) ;; Ret (Some m)) (fun _ => Ret None) ;;
    Ret match member with
        | Some m => match dget "status" m with Some (BStr s) => String.eqb s "creator" | _ => false end
        | None => false
        end.

(** * Throttling *)
Definition _is_exempt (uid : Z) : io bool :=
  owner_id <- try_except (o <- get_owner_id ;; Ret (Some o)) (fun _ => Ret None) ;;
  Ret match owner_id with Some o => id_is uid o | None => false end.

Inductive tier : Type := exempt | staff | regular.

Definition _throttle_tier (uid : Z) : io tier :=
  role <- try_except (r <- get_effective_role uid ;; Ret (Some r)) (fun _ => Ret None) ;;
  Ret match role with
      | None => regular
      | Some role =>
          if role_is "founder" role then exempt
          else if role_rank (BStr "tester") <=? role_rank role then staff
          else regular
      end.

Definition answer_throttled (upd : update) (wait : Z) : io unit :=
  try_except (locale <- locale_for_update upd ;;
              call (AnswerCallback (Some (rate_limit_text wait locale)))) (fun _ => Ret tt).

Definition global_rate_limit_handler (prefixes : list string) (upd : update) : io unit :=
  match acting_user upd with
  | None => Ret tt
  | Some uid =>
      if has_callback upd then
        ex <- _is_exempt uid ;;
        if ex : bool then Ret tt
        else
          wait <- call (LimiterCheck "cbq" uid) ;;
          if truthy_Z wait then answer_throttled upd wait ;;; Raise ApplicationHandlerStop
          else Ret tt
      else
        let text := match effective_message upd ≫= msg_text with Some t => t | None => "" end in
        if negb (truthy_str text) then Ret tt
        else if negb (existsb (fun p => truthy_str p && String.prefix p text) prefixes) then Ret tt
        else
          tr <- _throttle_tier uid ;;
          match tr with
          | exempt => Ret tt
          | _ =>
              let limiter := match tr with staff => "cmd_staff" | _ => "cmd" end in
              wait <- call (LimiterCheck limiter uid) ;;
              if truthy_Z wait then
                match effective_message upd with
                | Some msg =>
                    locale <- locale_for_update upd ;;
                    safe_reply msg (rate_limit_text wait locale)
                | None => Ret tt
                end ;;;
                Raise ApplicationHandlerStop
              else Ret tt
          end
  end.

(** The wrapper [ratelimiter] puts around a handler. *)
Definition ratelimiter_wrapper {A} (name : string) (func : io A) (upd : update) : io (option A) :=
  let go := a <- func ;; Ret (Some a) in
  match acting_user upd with
  | None => go
  | Some uid =>
      ex <- _is_exempt uid ;;
      if ex : bool then go
      else
        wait <- call (LimiterCheck ("h:" ++ name) uid) ;;
        if negb (truthy_Z wait) then go
        else if has_callback upd then answer_throttled upd wait ;;; Ret None
        else match effective_message upd with
             | Some msg =>
                 locale <- locale_for_update upd ;;
                 safe_reply msg (rate_limit_text wait locale) ;;; Ret None
             | None => go
             end
  end.
End auth.

(** * Lookups and replies are passive *)

Lemma throw_if_cancelled_passive {T} (rs : list (result T)) : is_passive (throw_if_cancelled rs).
Proof. induction rs as [|r rs IH]; simpl; passive_auto; done. Qed.
#[export] Hint Resolve throw_if_cancelled_passive : passive.

Lemma get_or_fetch_passive cache key fetch : is_passive fetch -> is_passive (get_or_fetch cache key fetch).
Proof. intros Hf. unfold get_or_fetch, locked_fetch, read_redis. passive_auto; done. Qed.
#[export] Hint Resolve get_or_fetch_passive : passive.

Lemma get_owner_id_passive : is_passive get_owner_id.
Proof. apply get_or_fetch_passive. unfold fetch_owner_id, db_call. passive_auto. Qed.
#[export] Hint Resolve get_owner_id_passive : passive.

Lemma get_effective_role_passive uid : is_passive (get_effective_role uid).
Proof.
  apply get_or_fetch_passive.
  unfold fetch_effective_role, gather3, is_owner, is_admin, get_role, db_call. passive_auto.
Qed.
#[export] Hint Resolve get_effective_role_passive : passive.

Lemma is_staff_passive uid : is_passive (is_staff uid).
Proof. unfold is_staff. passive_auto. Qed.

Lemma cached_locale_passive l1 k read : is_passive read -> is_passive (cached_locale l1 k read).
Proof. intros H. unfold cached_locale. passive_auto; done. Qed.

Lemma get_user_locale_passive uid : is_passive (get_user_locale uid).
Proof. apply cached_locale_passive. unfold db_call. passive_auto. Qed.
Lemma get_group_locale_passive cid : is_passive (get_group_locale cid).
Proof. apply cached_locale_passive. unfold db_call. passive_auto. Qed.
#[export] Hint Resolve get_user_locale_passive get_group_locale_passive is_staff_passive : passive.

Section passive.
Context {CAT : Catalog}.

Lemma effective_locale_passive ct uid cid : is_passive (effective_locale ct uid cid).
Proof. unfold effective_locale. passive_auto. Qed.

Lemma locale_for_update_passive upd : is_passive (locale_for_update upd).
Proof. unfold locale_for_update. passive_auto; apply effective_locale_passive. Qed.

Lemma locale_for_user_passive uid : is_passive (locale_for_user uid).
Proof. unfold locale_for_user. passive_auto. Qed.

Lemma locale_for_chat_passive ct cid : is_passive (locale_for_chat ct cid).
Proof. unfold locale_for_chat. passive_auto. Qed.
End passive.
#[export] Hint Resolve effective_locale_passive locale_for_update_passive locale_for_user_passive
  locale_for_chat_passive : passive.

Lemma safe_reply_passive msg txt : is_passive (safe_reply msg txt).
Proof. unfold safe_reply. passive_auto. Qed.
Lemma reply_if_passive msg txt : is_passive (reply_if msg txt).
Proof. unfold reply_if, safe_reply. passive_auto. Qed.
Lemma edit_with_passive p b : is_passive p -> is_passive (edit_with p b).
Proof. intros H. unfold edit_with. passive_auto; done. Qed.
#[export] Hint Resolve safe_reply_passive reply_if_passive : passive.

(** * Properties *)

(** A run that ends in [Ok], split at a call whose run is remembered. *)
Lemma wp_passive_bind {A B} (p : io A) (f : A -> io B) (Q : trace eff -> result B -> Prop) :
  is_passive p ->
  (forall t a, passive t -> exec p t (Ok a) -> wp (f a) (fun t' => Q (t ++ t'))) ->
  (forall t e, passive t -> exec p t (Err e) -> Q t (Err e)) ->
  wp (bind p f) Q.
Proof.
  intros Hp Hok Herr. apply wp_bind. apply wp_intro. intros t [a|e] Ht.
  - apply Hok; [exact (wp_elim _ _ _ _ Hp Ht)|done].
  - apply Herr; [exact (wp_elim _ _ _ _ Hp Ht)|done].
Qed.

Lemma no_handler_existsb t : passive t -> existsb obs_handler t = false.
Proof. intros H. apply existsb_false_Forall. by apply passive_no_handler. Qed.

Section gates.
Context {CAT : Catalog}.

Lemma authorized_passive min_role uid : is_passive (authorized min_role uid).
Proof. unfold authorized. passive_auto. Qed.

(** What authorizes a user for a tier. *)
Definition cleared (min_role : option string) (uid : Z) (t : trace eff) : Prop :=
  match min_role with
  | None => exec get_owner_id t (Ok (BInt uid))
  | Some m => exists role, exec (get_effective_role uid) t (Ok role) /\
                           role_rank (BStr m) <= role_rank role
  end.

Lemma authorized_true min_role uid t :
  exec (authorized min_role uid) t (Ok true) -> cleared min_role uid t.
Proof.
  unfold authorized, cleared. destruct min_role as [m|];
    intros [(t1 & v & t2 & H1 & [-> [= Hv]] & ->)|(e & _ & [=])]%exec_bind; rewrite app_nil_r.
  - exists v. split; [done|]. symmetry in Hv. by to_prop.
  - unfold id_is in Hv. destruct v; try done. symmetry in Hv. to_prop. by subst.
Qed.

End gates.

(** C1: a protected handler runs only for a user cleared for its tier.
    Whatever the databases, caches and Telegram answer: if the handler ran,
    the update carried a real, non-anonymous user, the lookup of that user's
    clearance succeeded first (the owner id for the Founder tier, otherwise an
    effective role of at least the tier's rank) and nothing was written or
    enforced before it.  In particular a lookup that fails, or is interrupted,
    never lets the handler run. *)
Theorem auth_gate {CAT : Catalog} (refusal : string) (min_role : option string) (upd : update)
    (t : trace eff) (r : result (option unit))
    (Hrun : exec (_auth_only refusal min_role (call HandlerBody) upd) t r)
    (Hran : existsb obs_handler t = true) :
  exists uid t1 t2 t3,
    effective_user upd = Some uid /\ uid <> 0 /\ uid <> ANONYMOUS_BOT_ID /\
    t = t1 ++ t2 ++ t3 /\ cleared min_role uid t2 /\ passive (t1 ++ t2).
Proof.
  revert t r Hrun Hran. refine (wp_elim' _ _ _). unfold _auth_only.
  apply wp_passive_bind; [apply locale_for_update_passive| |].
  2: { intros t e Ht _. by rewrite no_handler_existsb. }
  intros t1 locale Ht1 _.
  assert (forall (p : io (option unit)) t2, passive t2 -> is_passive p ->
            wp p (fun t r => existsb obs_handler (t1 ++ t2 ++ t) = true ->
              exists uid ta tb tc, effective_user upd = Some uid /\ uid <> 0 /\ uid <> ANONYMOUS_BOT_ID /\
                t1 ++ t2 ++ t = ta ++ tb ++ tc /\ cleared min_role uid tb /\ passive (ta ++ tb))) as Hskip.
  { intros p t2 H2 Hp. eapply wp_mono; [exact Hp|]. intros t r Ht Hh. exfalso.
    rewrite !existsb_app, !no_handler_existsb in Hh by done. done. }
  destruct (_is_anon_admin upd) eqn:Hanon; [apply (Hskip _ []); [constructor|passive_auto]|].
  destruct (acting_user upd) as [uid|] eqn:Hact; [|apply (Hskip _ []); [constructor|passive_auto]].
  assert (effective_user upd = Some uid /\ uid <> 0) as [Hu H0].
  { unfold acting_user in Hact. destruct (effective_user upd) as [v|]; [|done].
    destruct (truthy_Z v) eqn:Hv; [|done]. injection Hact as ->. split; [done|].
    unfold truthy_Z in Hv. by to_prop. }
  apply wp_bind, wp_attempt, wp_intro. intros t2 ok Hok.
  assert (passive t2) as Ht2 by exact (wp_elim _ _ _ _ (authorized_passive min_role uid) Hok).
  destruct ok as [[]|e]; [|apply (Hskip _ t2); [done|passive_auto]..].
  apply wp_intro. intros t3 r _ _. exists uid, t1, t2, t3.
  split; [done|]. split; [done|]. split.
  - intros ->. unfold _is_anon_admin in Hanon. rewrite Hu in Hanon. by rewrite Z.eqb_refl in Hanon.
  - split; [done|]. split; [by apply authorized_true|by apply passive_app].
Qed.

Lemma safe_reply_replies msg txt :
  wp (safe_reply msg txt) (fun t _ => existsb obs_reply t = true).
Proof. unfold safe_reply. wp_auto; done. Qed.

(** A refusal: reply, then return [a]. *)
Lemma wp_refuse {A} msg txt (a : A) (Q : trace eff -> result A -> Prop) :
  (forall t, existsb obs_reply t = true -> Q t (Ok a)) ->
  (forall t e, existsb obs_reply t = true -> Q t (Err e)) ->
  wp (safe_reply msg txt ;;; Ret a) Q.
Proof.
  intros H1 H2. apply wp_bind. eapply wp_mono; [apply safe_reply_replies|].
  intros t [x|e] Ht; [apply wp_ret; rewrite app_nil_r; auto|auto].
Qed.

(** A moderation command passes the rank check only for an executor who
    outranks the target.  When the check returns roles, both lookups
    succeeded with exactly these roles, the executor's rank is at least the
    command's and, unless the target holds no role, strictly above the
    target's; when it returns none, the refusal was sent (or sending it
    failed); and in both cases nothing was written or enforced. *)
Theorem resolve_and_check_sound {CAT : Catalog} (msg : message) (executor_id target_id : Z)
    (min_role : string) (t : trace eff) (executor_role target_role : bson)
    (Hrun : exec (resolve_and_check msg executor_id target_id min_role) t
              (Ok (executor_role, target_role))) :
  passive t /\
  ((executor_role = BNull /\ target_role = BNull /\ existsb obs_reply t = true) \/
   (role_rank (BStr min_role) <= role_rank executor_role /\
    (truthy_role target_role = true -> role_rank target_role < role_rank executor_role) /\
    exists te tt, exec (get_effective_role executor_id) te (Ok executor_role) /\
                  exec (get_effective_role target_id) tt (Ok target_role))).
Proof.
  split.
  { assert (is_passive (resolve_and_check msg executor_id target_id min_role)) as Hp
      by (unfold resolve_and_check; passive_auto).
    exact (wp_elim _ _ _ _ Hp Hrun). }
  eapply (wp_elim _ (fun t r => forall er tr, r = Ok (er, tr) ->
      (er = BNull /\ tr = BNull /\ existsb obs_reply t = true) \/
      (role_rank (BStr min_role) <= role_rank er /\
       (truthy_role tr = true -> role_rank tr < role_rank er) /\
       exists te tt, exec (get_effective_role executor_id) te (Ok er) /\
                     exec (get_effective_role target_id) tt (Ok tr)))); [|exact Hrun|done].
  clear Hrun executor_role target_role t. unfold resolve_and_check.
  apply wp_bind. eapply wp_gather2; [apply wp_exec|apply wp_exec|].
  intros t1 t2 t re rt He Ht Hi. split; [|by intros er tr]. cbn beta iota.
  apply wp_passive_bind; [apply throw_if_cancelled_passive| |by intros].
  intros t3 _ _ _. apply wp_passive_bind; [apply effective_locale_passive| |by intros].
  intros t4 locale _ _.
  assert (forall txt, wp (safe_reply msg txt ;;; Ret (BNull, BNull)) (fun t' r => forall er tr,
      r = Ok (er, tr) ->
      (er = BNull /\ tr = BNull /\ existsb obs_reply (t ++ t3 ++ t4 ++ t') = true) \/
      (role_rank (BStr min_role) <= role_rank er /\
       (truthy_role tr = true -> role_rank tr < role_rank er) /\
       exists te tt, exec (get_effective_role executor_id) te (Ok er) /\
                     exec (get_effective_role target_id) tt (Ok tr)))) as Hrefuse.
  { intros txt. apply wp_refuse; intros t'; [intros Hr er tr [= <- <-]|intros e Hr er tr [=]].
    left. rewrite !existsb_app, Hr, !orb_true_r. done. }
  destruct re as [er|e1], rt as [tr|e2]; try apply Hrefuse.
  destruct (role_rank er <? role_rank (BStr min_role)) eqn:Hmin; [apply Hrefuse|].
  destruct (truthy_role tr && (role_rank er <=? role_rank tr)) eqn:Hout; [apply Hrefuse|].
  apply wp_ret. intros er' tr' [= <- <-]. right. to_prop. split; [done|]. split.
  - intros Htr. rewrite Htr in Hout. simpl in Hout. by to_prop.
  - eauto.
Qed.

(** ** Throttling *)

Definition obs_allowed (prefix : string) (uid : Z) (o : obs eff) : Prop :=
  match o with
  | Obs ev r =>
      match ev in eff X return result X -> Prop with
      | LimiterCheck p v => fun r => p = prefix /\ v = uid /\ r = Ok 0
      | _ => fun _ => False
      end r
  end.

Lemma is_exempt_true uid :
  wp (_is_exempt uid) (fun t r => passive t /\ (r = Ok true -> exec get_owner_id t (Ok (BInt uid)))).
Proof.
  unfold _is_exempt. apply wp_bind, wp_try, wp_bind, wp_intro. intros t r Hr.
  pose proof (wp_elim _ _ _ _ get_owner_id_passive Hr) as Hp. destruct r as [v|e].
  - apply wp_ret, wp_ret. rewrite !app_nil_r. split; [done|]. intros [= Hv]. unfold id_is in Hv.
    destruct v; try done. to_prop. by subst.
  - destruct (is_Exception e); [|done]. apply wp_ret, wp_ret. rewrite !app_nil_r. done.
Qed.

Lemma throttle_tier_spec uid :
  wp (_throttle_tier uid) (fun t r => passive t /\
    (r = Ok exempt -> exec (get_effective_role uid) t (Ok (BStr "founder"))) /\
    (r = Ok staff -> exists role, exec (get_effective_role uid) t (Ok role) /\ 1 <= role_rank role)).
Proof.
  unfold _throttle_tier. apply wp_bind, wp_try, wp_bind, wp_intro. intros t r Hr.
  pose proof (wp_elim _ _ _ _ (get_effective_role_passive uid) Hr) as Hp. destruct r as [v|e].
  - apply wp_ret, wp_ret. rewrite !app_nil_r. split; [done|].
    destruct (role_is "founder" v) eqn:Hf; [|destruct (role_rank (BStr "tester") <=? role_rank v) eqn:Ht].
    + split; [|done]. intros _. unfold role_is in Hf. destruct v; try done. to_prop. by subst.
    + split; [done|]. intros _. to_prop. by exists v.
    + done.
  - destruct (is_Exception e); [|done]. apply wp_ret, wp_ret. rewrite !app_nil_r. done.
Qed.

Section throttle.
Context {CAT : Catalog}.

Lemma answer_throttled_passive upd w : is_passive (answer_throttled upd w).
Proof. unfold answer_throttled. passive_auto. Qed.
End throttle.

(** The per-handler quota is enforced.  If a wrapped handler ran then
    either the update has no user, or the owner lookup answered exactly this
    user, or the handler's own bucket answered that the call is allowed; the
    one remaining way in is an update with neither a button press nor a
    message, where the throttled user cannot be told and the handler runs. *)
Theorem ratelimiter_gate {CAT : Catalog} (name : string) (upd : update)
    (t : trace eff) (r : result (option unit))
    (Hrun : exec (ratelimiter_wrapper name (call HandlerBody) upd) t r)
    (Hran : existsb obs_handler t = true) :
  match acting_user upd with
  | None => True
  | Some uid =>
      (exists t1 t2, t = t1 ++ t2 /\ exec get_owner_id t1 (Ok (BInt uid))) \/
      Exists (obs_allowed ("h:" ++ name) uid) t \/
      (has_callback upd = false /\ effective_message upd = None)
  end.
Proof.
  destruct (acting_user upd) as [uid|] eqn:Hact; [|done].
  revert t r Hrun Hran. refine (wp_elim' _ _ _). unfold ratelimiter_wrapper. rewrite Hact. cbv zeta.
  apply wp_bind. eapply wp_mono; [apply is_exempt_true|]. intros t1 [[]|e] [Hp1 Hex].
  - apply wp_intro. intros t2 r _ _. left. eauto.
  - wp_step. wp_step. destruct x as [w|e].
    2: { simpl. rewrite existsb_app, no_handler_existsb by done. done. }
    simpl. destruct (truthy_Z w) eqn:Hw; simpl.
    2: { apply wp_intro. intros t2 r _ _. right; left. apply Exists_app. right. constructor.
         unfold truthy_Z in Hw. to_prop. subst. done. }
    assert (forall p : io (option unit), is_passive p -> wp p (fun t r =>
              existsb obs_handler (t1 ++ Obs (LimiterCheck ("h:" ++ name) uid) (Ok w) :: t) = true -> False)) as Hskip.
    { intros p Hp. eapply wp_mono; [exact Hp|]. intros t r Ht Hh.
      rewrite existsb_app in Hh. simpl in Hh. by rewrite !no_handler_existsb in Hh by done. }
    destruct (has_callback upd).
    { eapply wp_mono; [apply Hskip; pose proof answer_throttled_passive; passive_auto; auto|].
      intros t r Hf Hh. by exfalso; apply Hf. }
    destruct (effective_message upd) as [m|].
    { eapply wp_mono; [apply Hskip; passive_auto|]. intros t r Hf Hh. by exfalso; apply Hf. }
    apply wp_intro. auto.
  - by rewrite no_handler_existsb.
Qed.

(** The global flood limiter lets a command or a button press through only
    when a bucket allowed it or the user is the Founder, and a failed role
    lookup never loosens it: without an authenticated staff role the strict
    bucket is the one consulted. *)
Theorem global_limit_gate {CAT : Catalog} (prefixes : list string) (upd : update) (uid : Z)
    (t : trace eff) (Huser : acting_user upd = Some uid)
    (Hrun : exec (global_rate_limit_handler prefixes upd) t (Ok tt)) :
  passive t /\
  if has_callback upd then
    exec get_owner_id t (Ok (BInt uid)) \/ Exists (obs_allowed "cbq" uid) t
  else
    let text := match effective_message upd ≫= msg_text with Some t => t | None => "" end in
    truthy_str text = true -> existsb (fun p => truthy_str p && String.prefix p text) prefixes = true ->
    exec (get_effective_role uid) t (Ok (BStr "founder")) \/
    Exists (obs_allowed "cmd" uid) t \/
    (Exists (obs_allowed "cmd_staff" uid) t /\
     exists t1 t2 role, t = t1 ++ t2 /\ exec (get_effective_role uid) t1 (Ok role) /\ 1 <= role_rank role).
Proof.
  split.
  { assert (is_passive (global_rate_limit_handler prefixes upd)) as Hp.
    { unfold global_rate_limit_handler, _is_exempt, _throttle_tier, answer_throttled. passive_auto. }
    exact (wp_elim _ _ _ _ Hp Hrun). }
  revert Hrun. unfold global_rate_limit_handler. rewrite Huser.
  destruct (has_callback upd).
  - revert t. refine (wp_elim_ok _ _ _ _). clear.
    apply wp_bind. eapply wp_mono; [apply is_exempt_true|]. intros t1 [[]|e] [Hp1 Hex]; [| |done].
    + apply wp_ret. intros _. left. rewrite app_nil_r. auto.
    + wp_step. wp_step. destruct x as [w|e]; [|done]. simpl. destruct (truthy_Z w) eqn:Hw.
      * apply wp_bind, wp_intro. intros t2 [x|e] _; [|done]. apply wp_raise. done.
      * apply wp_ret. intros _. right. apply Exists_app. right. constructor.
        unfold truthy_Z in Hw. to_prop. by subst.
  - cbv zeta. intros Hrun H1 H2. rewrite H1, H2 in Hrun. simpl in Hrun.
    revert t Hrun. refine (wp_elim_ok _ _ _ _). clear.
    apply wp_bind. eapply wp_mono; [apply throttle_tier_spec|]. intros t1 [tr|e] (Hp & He & Hs); [|done].
    assert (forall prefix, wp (wait <- call (LimiterCheck prefix uid) ;;
        if truthy_Z wait then
          match effective_message upd with
          | Some msg => locale <- locale_for_update upd ;; safe_reply msg (rate_limit_text wait locale)
          | None => Ret tt
          end ;;; Raise ApplicationHandlerStop
        else Ret tt) (fun t r => r = Ok tt -> Exists (obs_allowed prefix uid) t)) as Hlim.
    { intros prefix. wp_step. wp_step. destruct x as [w|e]; [|done]. simpl.
      destruct (truthy_Z w) eqn:Hw.
      - apply wp_bind, wp_intro. intros t2 [x|e] _; [|done]. apply wp_raise. done.
      - apply wp_ret. intros _. constructor. unfold truthy_Z in Hw. to_prop. by subst. }
    destruct tr.
    + apply wp_ret. intros _. left. rewrite app_nil_r. auto.
    + eapply wp_mono; [apply Hlim|]. intros t2 r Hr Hok. right; right.
      split; [apply Exists_app; auto|]. destruct (Hs eq_refl) as (role & H1 & H2). eauto 10.
    + eapply wp_mono; [apply Hlim|]. intros t2 r Hr Hok. right; left. apply Exists_app; auto.
Qed.

(** * Concrete runs *)
Definition demo_message : message := Message 5 (-100) "supergroup" (Some "/ban @x"%string).
Definition demo_update (uid : Z) : update :=
  Update (Some uid) (Some ("supergroup"%string, -100)) (Some demo_message) false.

(** User 7 is the owner; user 8 is an admin. *)
Definition staff_script : script := fun X ev =>
  match ev in eff X return option (result X) with
  | FindOne "tc_owners" _ _ => Some (Ok (Some [("user_id"%string, BInt 7)]))
  | FindOne "tc_admins" [(_, BInt 8)] _ => Some (Ok (Some [("user_id"%string, BInt 8)]))
  | _ => None
  end.

Lemma auth_gate_witness :
  exists uid, effective_user (demo_update 8) = Some uid /\ uid <> ANONYMOUS_BOT_ID.
Proof.
  destruct (@auth_gate demo_catalog "mod_only" (Some "developer"%string) (demo_update 8) _ _
    (replay_exec staff_script (@_auth_only demo_catalog _ "mod_only" (Some "developer"%string)
       (call HandlerBody) (demo_update 8))))
    as (uid & t1 & t2 & t3 & Hu & _ & Hanon & _).
  - vm_compute. reflexivity.
  - exists uid. split; [exact Hu|exact Hanon].
Defined.

Lemma resolve_and_check_sound_witness :
  passive (replay staff_script (@resolve_and_check demo_catalog demo_message 7 8 "developer")).1.
Proof.
  refine (proj1 (@resolve_and_check_sound demo_catalog demo_message 7 8 "developer" _
    (BStr "founder") (BStr "admin") _)).
  exact (replay_exec staff_script (@resolve_and_check demo_catalog demo_message 7 8 "developer")).
Defined.

Lemma ratelimiter_gate_witness :
  Exists (obs_allowed "h:ban" 8)
    (replay staff_script (@ratelimiter_wrapper demo_catalog _ "ban" (call HandlerBody) (demo_update 8))).1 \/
  exists t1, exec get_owner_id t1 (Ok (BInt 8)).
Proof.
  destruct (@ratelimiter_gate demo_catalog "ban" (demo_update 8) _ _
    (replay_exec staff_script (@ratelimiter_wrapper demo_catalog _ "ban" (call HandlerBody) (demo_update 8))))
    as [(t1 & t2 & _ & H)|[H|[_ H]]].
  - vm_compute. reflexivity.
  - right. exists t1. exact H.
  - left. exact H.
  - discriminate H.
Defined.

Lemma global_limit_gate_witness :
  passive (replay staff_script (@global_rate_limit_handler demo_catalog ["/"%string] (demo_update 8))).1.
Proof.
  refine (proj1 (@global_limit_gate demo_catalog ["/"%string] (demo_update 8) 8 _ eq_refl _)).
  exact (replay_exec staff_script (@global_rate_limit_handler demo_catalog ["/"%string] (demo_update 8))).
Defined.
