(* ===== verification/Records.v ===== *)
(** The moderation records: [tcbot/database/bans_db], [warns_db], [mutes_db],
    [kicks_db] and the group part of [groups_db.py].  Every operation issues
    exactly the MongoDB commands of the source; projections, which only drop
    fields, are left out. *)

From stdpp Require Import pretty.
From S2P Require Import Prelude Prog Text World Dispatch Cache.

Declare Scope doc_scope.
Notation "k ~> v" := (@pair string bson k%string v) (at level 60, no associativity) : doc_scope.
Open Scope doc_scope.

Definition by_time_desc : list (string * Z) := [("timestamp"%string, -1); ("ban_id"%string, -1)].

(** * Bans *)
Section bans.

Definition create_ban (target_id : Z) (reason : string) (admin_id proof_msg_id log_msg_id : Z)
    (ban_id : option string) (until_date : bson) (duration_str : option string) : io doc :=
  bid <- match ban_id with Some b => Ret b | None => call MakeShortId end ;;
  now <- call UtcNow ;;
  let mk bid : doc :=
    ["ban_id" ~> BStr bid; "banned_user_id" ~> BInt target_id; "reason" ~> BStr reason;
     "admin_user_id" ~> BInt admin_id; "proof_message_id" ~> BInt proof_msg_id;
     "log_message_id" ~> BInt log_msg_id; "previous_proof_message_id" ~> BNull;
     "previous_log_message_id" ~> BNull; "timestamp" ~> BDate now; "updated_timestamp" ~> BNull;
     "until_date" ~> until_date; "duration_str" ~> boptstr duration_str;
     "is_active" ~> BBool true; "update_count" ~> BInt 0;
     "review_message_id" ~> BNull; "review_timestamp" ~> BNull] in
  r <- attempt (db_call (InsertOne "bans" (mk bid))) ;;
  match r with
  | Ok _ => Ret (mk bid)
  | Err (DuplicateKeyError k m) =>
      match ban_id with
      | Some _ => Raise (DuplicateKeyError k m)
      | None =>
          bid' <- call MakeShortId ;;
          db_call (InsertOne "bans" (mk bid')) ;;;
          Ret (mk bid')
      end
  | Err e => Raise e
  end.

Definition update_ban (ban_id reason : string) (admin_id : Z) (new_proof_id : bson)
    (new_log_id : Z) (old_proof_id : bson) (old_log_id : Z)
    (until_date : bson) (duration_str : option string) : io (option doc) :=
  now <- call UtcNow ;;
  db_call (FindOneAndUpdate "bans" ["ban_id" ~> BStr ban_id]
    ["$set" ~> BDoc ["reason" ~> BStr reason; "admin_user_id" ~> BInt admin_id;
        "proof_message_id" ~> new_proof_id; "log_message_id" ~> BInt new_log_id;
        "previous_proof_message_id" ~> old_proof_id; "previous_log_message_id" ~> BInt old_log_id;
        "updated_timestamp" ~> BDate now; "until_date" ~> until_date;
        "duration_str" ~> boptstr duration_str];
     "$inc" ~> BDoc ["update_count" ~> BInt 1]] false).

Definition set_log_message_id (ban_id : string) (log_msg_id : Z) : io unit :=
  db_call (UpdateOne "bans" ["ban_id" ~> BStr ban_id]
    ["$set" ~> BDoc ["log_message_id" ~> BInt log_msg_id]] false) ;;;
  Ret tt.

Definition deactivate_ban (ban_id : string) : io bool :=
  r <- db_call (UpdateOne "bans" ["ban_id" ~> BStr ban_id]
         ["$set" ~> BDoc ["is_active" ~> BBool false]] false) ;;
  Ret (modified_count r >? 0).

Definition deactivate_all_active_bans (user_id : Z) : io Z :=
  r <- db_call (UpdateMany "bans"
         ["banned_user_id" ~> BInt user_id; "is_active" ~> BBool true]
         ["$set" ~> BDoc ["is_active" ~> BBool false]]) ;;
  Ret (modified_count r).

Definition deactivate_extra_active_bans (user_id : Z) (keep_ban_id : bson) : io Z :=
  r <- db_call (UpdateMany "bans"
         ["banned_user_id" ~> BInt user_id; "is_active" ~> BBool true;
          "ban_id" ~> BDoc ["$ne" ~> keep_ban_id]]
         ["$set" ~> BDoc ["is_active" ~> BBool false]]) ;;
  Ret (modified_count r).

Definition set_review (ban_id : string) (msg_id : Z) : io unit :=
  now <- call UtcNow ;;
  db_call (UpdateOne "bans" ["ban_id" ~> BStr ban_id]
    ["$set" ~> BDoc ["review_message_id" ~> BInt msg_id; "review_timestamp" ~> BDate now]] false) ;;;
  Ret tt.

Definition set_review_if_absent (ban_id : string) (msg_id : Z) : io bool :=
  now <- call UtcNow ;;
  r <- db_call (UpdateOne "bans" ["ban_id" ~> BStr ban_id; "review_message_id" ~> BNull]
    ["$set" ~> BDoc ["review_message_id" ~> BInt msg_id; "review_timestamp" ~> BDate now]] false) ;;
  Ret (modified_count r >? 0).

Definition clear_review (ban_id : string) : io unit :=
  db_call (UpdateOne "bans" ["ban_id" ~> BStr ban_id]
    ["$set" ~> BDoc ["review_message_id" ~> BNull; "review_timestamp" ~> BNull]] false) ;;;
  Ret tt.

Definition set_rejected_by (ban_id : string) (admin_id : Z) (admin_name : string) : io unit :=
  now <- call UtcNow ;;
  db_call (UpdateOne "bans" ["ban_id" ~> BStr ban_id]
    ["$set" ~> BDoc ["rejected_by_id" ~> BInt admin_id; "rejected_by_name" ~> BStr admin_name;
                     "rejected_at" ~> BDate now]] false) ;;;
  Ret tt.

Definition set_appeal_log_msg (ban_id : string) (msg_id : Z) (submitted_at : option Z)
    (appeal_link : string) : io unit :=
  at_ <- match submitted_at with Some d => Ret d | None => call UtcNow end ;;
  db_call (UpdateOne "bans" ["ban_id" ~> BStr ban_id]
    ["$set" ~> BDoc ["appeal_log_msg_id" ~> BInt msg_id; "appeal_submitted_at" ~> BDate at_;
                     "appeal_link" ~> BStr appeal_link]] false) ;;;
  Ret tt.

Definition get_active_ban (user_id : Z) : io (option doc) :=
  db_call (FindOne "bans" ["banned_user_id" ~> BInt user_id; "is_active" ~> BBool true] by_time_desc).

Definition get_ban (ban_id : string) : io (option doc) :=
  db_call (FindOne "bans" ["ban_id" ~> BStr ban_id] []).

Definition active_ban_count : io Z :=
  db_call (CountDocuments "bans" ["is_active" ~> BBool true]).

Definition active_bans_page (skip limit : Z) : io (list doc) :=
  db_call (Find "bans" ["is_active" ~> BBool true] by_time_desc (Z.max 0 skip) (Some (Z.max 1 limit))).

Definition active_bans_for_users (user_ids : list Z) : io (list doc) :=
  match user_ids with
  | [] => Ret []
  | _ => db_call (Find "bans" ["banned_user_id" ~> BDoc ["$in" ~> BArr (map BInt user_ids)];
                               "is_active" ~> BBool true] by_time_desc 0 None)
  end.

(** The page a [limit=None] caller gets is the whole list. *)
Definition page_limit (limit : option Z) : option Z := option_map (Z.max 1) limit.

Definition user_appealable_bans (user_id skip : Z) (limit : option Z) : io (list doc) :=
  db_call (Find "bans" ["banned_user_id" ~> BInt user_id;
                        "appeal_log_msg_id" ~> BDoc ["$ne" ~> BNull; "$exists" ~> BBool true]]
             by_time_desc (Z.max 0 skip) (page_limit limit)).

Definition active_ban_user_ids : io (list bson) :=
  db_call (Distinct "bans" "banned_user_id" ["is_active" ~> BBool true]).

Definition user_bans (user_id skip : Z) (limit : option Z) : io (list doc) :=
  db_call (Find "bans" ["banned_user_id" ~> BInt user_id] by_time_desc (Z.max 0 skip) (page_limit limit)).

Definition user_ban_count (user_id : Z) : io Z :=
  db_call (CountDocuments "bans" ["banned_user_id" ~> BInt user_id]).

Definition user_appeal_count (user_id : Z) : io Z :=
  db_call (CountDocuments "bans" ["banned_user_id" ~> BInt user_id;
    "appeal_log_msg_id" ~> BDoc ["$ne" ~> BNull; "$exists" ~> BBool true]]).
End bans.

(** * Groups *)
Definition _ALL_GROUPS_KEY : string := "__all__".

(** [d.get("chat_id", 0)] of the groups a fan-out visits. *)
Definition chat_of (g : doc) : Z := dget_int "chat_id" g 0.

(** Connected groups, then the primaries and extra chats not among them. *)
Fixpoint append_missing (ids : list Z) (seen : list Z) (merged : list doc) : list doc :=
  match ids with
  | [] => merged
  | cid :: ids' =>
      if negb (truthy_Z cid) || existsb (Z.eqb cid) seen then append_missing ids' seen merged
      else append_missing ids' (cid :: seen)
             (merged ++ [["chat_id" ~> BInt cid; "title" ~> BStr ""]])
  end.

Definition with_primary_groups (groups : list doc) (primary_ids extra_ids : list Z) : list doc :=
  append_missing (primary_ids ++ extra_ids) (map chat_of groups) groups.

Definition refresh_group_title (chat_id : Z) (title : string) : io bool :=
  r <- db_call (UpdateOne "federated_groups"
         ["chat_id" ~> BInt chat_id; "title" ~> BDoc ["$ne" ~> BStr title]]
         ["$set" ~> BDoc ["title" ~> BStr title]] false) ;;
  if matched_count r =? 0 then Ret false
  else invalidate "groups" _ALL_GROUPS_KEY ;;; Ret true.

Definition is_connected (chat_id : Z) : io bson :=
  get_or_fetch "conn" (pretty chat_id)
    (d <- db_call (FindOne "federated_groups" ["chat_id" ~> BInt chat_id; "is_active" ~> BBool true] []) ;;
     Ret (BBool match d with Some _ => true | None => false end)).

Definition add_group (chat_id : Z) (title : string) (added_by : Z) : io unit :=
  now <- call UtcNow ;;
  db_call (UpdateOne "federated_groups" ["chat_id" ~> BInt chat_id]
    ["$set" ~> BDoc ["chat_id" ~> BInt chat_id; "title" ~> BStr title; "added_by" ~> BInt added_by;
                     "is_active" ~> BBool true];
     "$setOnInsert" ~> BDoc ["added_date" ~> BDate now]] true) ;;;
  put "conn" (pretty chat_id) (BBool true) ;;;
  invalidate "groups" _ALL_GROUPS_KEY.

Definition deactivate_group (chat_id : Z) : io bool :=
  r <- db_call (UpdateOne "federated_groups" ["chat_id" ~> BInt chat_id]
         ["$set" ~> BDoc ["is_active" ~> BBool false]] false) ;;
  if matched_count r =? 0 then Ret false
  else
    put "conn" (pretty chat_id) (BBool false) ;;;
    invalidate "groups" _ALL_GROUPS_KEY ;;;
    Ret true.

(** Cached as an array of documents. *)
Definition active_groups : io (list doc) :=
  v <- get_or_fetch "groups" _ALL_GROUPS_KEY
         (ds <- db_call (Find "federated_groups" ["is_active" ~> BBool true] [] 0 None) ;;
          Ret (BArr (map BDoc ds))) ;;
  Ret match v with
      | BArr items => map (fun x => match x with BDoc d => d | _ => [] end) items
      | _ => []
      end.

Definition active_group_count : io Z :=
  db_call (CountDocuments "federated_groups" ["is_active" ~> BBool true]).

(** Repoint one document; [None] stands for a merged-away stale row. *)
Definition repoint_row (c : string) (old_chat_id new_chat_id : Z) : io (result (option update_result)) :=
  r <- attempt (db_call (UpdateOne c ["chat_id" ~> BInt old_chat_id]
                  ["$set" ~> BDoc ["chat_id" ~> BInt new_chat_id]] false)) ;;
  match r with
  | Ok res => Ret (Ok (Some res))
  | Err (DuplicateKeyError _ _) =>
      d <- attempt (db_call (DeleteOne c ["chat_id" ~> BInt old_chat_id])) ;;
      match d with
      | Ok _ => Ret (Ok None)
      | Err e => if is_Exception e then Ret (Err e) else Raise e
      end
  | Err e => if is_Exception e then Ret (Err e) else Raise e
  end.

Definition migrate_group (old_chat_id new_chat_id : Z) : io bool :=
  group_res <- repoint_row "federated_groups" old_chat_id new_chat_id ;;
  match group_res with
  | Err _ => Ret false
  | Ok group_res =>
      pending_res <- repoint_row "pending_joins" old_chat_id new_chat_id ;;
      let group_matched := match group_res with None => true | Some r => matched_count r >? 0 end in
      let pending_matched :=
        match pending_res with Ok (Some r) => matched_count r >? 0 | _ => false end in
      let matched_any := group_matched || pending_matched in
      (if matched_any then
         put "conn" (pretty old_chat_id) (BBool false) ;;;
         (if group_matched then
            put "conn" (pretty new_chat_id) (BBool true) ;;;
            invalidate "groups" _ALL_GROUPS_KEY
          else Ret tt)
       else Ret tt) ;;;
      Ret matched_any
  end.

Definition add_pending (chat_id : Z) (title : string) (owner_id message_id : Z) : io unit :=
  now <- call UtcNow ;;
  db_call (UpdateOne "pending_joins" ["chat_id" ~> BInt chat_id]
    ["$set" ~> BDoc ["chat_id" ~> BInt chat_id; "title" ~> BStr title; "owner_id" ~> BInt owner_id;
                     "message_id" ~> BInt message_id; "added_date" ~> BDate now]] true) ;;;
  Ret tt.

Definition get_pending (chat_id : Z) : io (option doc) :=
  db_call (FindOne "pending_joins" ["chat_id" ~> BInt chat_id] []).

Definition remove_pending (chat_id : Z) : io unit :=
  db_call (DeleteOne "pending_joins" ["chat_id" ~> BInt chat_id]) ;;; Ret tt.

(** * Member profiles ([users_cache/writes.py]) *)
Definition upsert_user (user_id : Z) (username : option string) (first_name : string)
    (last_name : option string) : io unit :=
  now <- call UtcNow ;;
  db_call (UpdateOne "member_cache" ["user_id" ~> BInt user_id]
    ["$set" ~> BDoc (["user_id" ~> BInt user_id; "first_name" ~> BStr first_name; "last_updated" ~> BDate now] ++
        match username with Some un => ["username" ~> BStr un] | None => [] end ++
        match last_name with Some ln => ["last_name" ~> BStr ln] | None => [] end);
     "$setOnInsert" ~> BDoc ["commit_date" ~> BDate now]] true) ;;;
  invalidate "umention" (pretty user_id).

(** A cached profile and one at hand hold the same field. *)
Definition field_is (b : bson) (v : option string) : bool :=
  match b, v with
  | BStr s, Some s' => String.eqb s s'
  | BNull, None => true
  | _, _ => false
  end.

(** Missing elements of an older, shorter entry read as [None]. *)
Definition _cached_triple (data : list bson) : bson * bson * bson :=
  let at_ i := match data !! i with Some b => b | None => BNull end in
  (at_ 0%nat, at_ 1%nat, at_ 2%nat).

Definition upsert_user_if_changed (user_id : Z) (username : option string) (first_name : string)
    (last_name : option string) : io bool :=
  cached <- call (MemGet "umention" (pretty user_id)) ;;
  let same := match cached with
              | Some (BArr data) =>
                  let '(f, un, ln) := _cached_triple data in
                  field_is f (Some first_name) && field_is un username && field_is ln last_name
              | _ => false
              end in
  if same then Ret false
  else upsert_user user_id username first_name last_name ;;; Ret true.

(** A snapshot of a live account: a field it does not have is cleared. *)
Definition harvest_user_identity (user_id : Z) (username : option string) (first_name : string)
    (last_name : option string) : io bool :=
  let known v := Some match v with Some s => s | None => ""%string end in
  upsert_user_if_changed user_id (known username) first_name (known last_name).

Definition remember_identity (user_id : Z) (first_name username last_name : option string) : io unit :=
  put "umention" (pretty user_id)
    match first_name with
    | None => BArr [BNull; BNull; BNull]
    | Some f => BArr [BStr f; boptstr username; boptstr last_name]
    end.

(** * Migration of audit records *)
Definition _repoint_chat (c : string) (old_chat_id new_chat_id : Z) : io bool :=
  r <- attempt (db_call (UpdateMany c ["chat_id" ~> BInt old_chat_id]
                  ["$set" ~> BDoc ["chat_id" ~> BInt new_chat_id]])) ;;
  match r with
  | Ok res => Ret (matched_count res >? 0)
  | Err e => if is_Exception e then Ret false else Raise e
  end.

(** * Kicks and mutes *)
Definition log_kick (user_id chat_id : Z) (reason : string) (admin_id : Z) : io unit :=
  now <- call UtcNow ;;
  db_call (InsertOne "kicks" ["user_id" ~> BInt user_id; "chat_id" ~> BInt chat_id;
    "reason" ~> BStr reason; "admin_id" ~> BInt admin_id; "timestamp" ~> BDate now]) ;;;
  Ret tt.

Definition user_kicks (user_id skip : Z) (limit : option Z) : io (list doc) :=
  db_call (Find "kicks" ["user_id" ~> BInt user_id] [("timestamp"%string, -1)] (Z.max 0 skip) (page_limit limit)).

Definition user_kick_count (user_id : Z) : io Z :=
  db_call (CountDocuments "kicks" ["user_id" ~> BInt user_id]).

Definition migrate_kicks (old_chat_id new_chat_id : Z) : io bool :=
  _repoint_chat "kicks" old_chat_id new_chat_id.

Definition log_mute (user_id chat_id : Z) (reason : string) (admin_id : Z)
    (duration_secs : option Z) : io unit :=
  now <- call UtcNow ;;
  db_call (InsertOne "mutes" (["user_id" ~> BInt user_id; "chat_id" ~> BInt chat_id;
    "reason" ~> BStr reason; "admin_id" ~> BInt admin_id; "timestamp" ~> BDate now] ++
    match duration_secs with Some d => ["duration_secs" ~> BInt d] | None => [] end)) ;;;
  Ret tt.

Definition _not_expired_clause (now : Z) : doc :=
  ["$or" ~> BArr [BDoc ["until_date" ~> BNull]; BDoc ["until_date" ~> BDoc ["$gt" ~> BDate now]]]].

Definition set_active_mute (user_id : Z) (until : option Z) : io unit :=
  now <- call UtcNow ;;
  db_call (UpdateOne "active_mutes" ["user_id" ~> BInt user_id]
    ["$set" ~> BDoc ["user_id" ~> BInt user_id;
                     "until_date" ~> match until with Some d => BDate d | None => BNull end;
                     "timestamp" ~> BDate now]] true) ;;;
  Ret tt.

Definition clear_active_mute (user_id : Z) : io unit :=
  db_call (DeleteOne "active_mutes" ["user_id" ~> BInt user_id]) ;;; Ret tt.

Definition get_active_mute (user_id : Z) : io (option doc) :=
  now <- call UtcNow ;;
  db_call (FindOne "active_mutes" (("user_id" ~> BInt user_id) :: _not_expired_clause now) []).

Definition active_mute_docs : io (list doc) :=
  now <- call UtcNow ;;
  db_call (Find "active_mutes" (_not_expired_clause now) [] 0 None).

Definition user_mutes (user_id skip : Z) (limit : option Z) : io (list doc) :=
  db_call (Find "mutes" ["user_id" ~> BInt user_id] [("timestamp"%string, -1)] (Z.max 0 skip) (page_limit limit)).

Definition user_mute_count (user_id : Z) : io Z :=
  db_call (CountDocuments "mutes" ["user_id" ~> BInt user_id]).

Definition migrate_mutes (old_chat_id new_chat_id : Z) : io bool :=
  _repoint_chat "mutes" old_chat_id new_chat_id.

Lemma groups_never f :
  (forall c k o, cache_obs c k o = true -> f o = false) ->
  (forall c d s k n r, f (Obs (Find c d s k n) r) = false) -> never f active_groups.
Proof.
  intros Hc Hf. unfold active_groups, db_call. never_auto.
  apply get_or_fetch_never; [apply Hc|]. never_auto. apply never_call. apply Hf.
Qed.

(** * The groups a federation-wide action visits *)

Lemma append_missing_spec ids seen merged :
  exists new,
    append_missing ids seen merged =
      merged ++ map (fun cid => ["chat_id" ~> BInt cid; "title" ~> BStr ""]) new /\
    NoDup new /\
    (forall c, In c new <-> In c ids /\ c <> 0 /\ ~ In c seen).
Proof.
  revert seen merged. induction ids as [|cid ids IH]; intros seen merged; simpl.
  - exists []. rewrite app_nil_r. split; [done|]. split; [constructor|]. simpl. tauto.
  - destruct (negb (truthy_Z cid) || existsb (Z.eqb cid) seen) eqn:Hskip.
    + destruct (IH seen merged) as (new & Heq & Hnd & Hin). exists new. split; [done|]. split; [done|].
      intros c. rewrite Hin. split; [tauto|]. intros ([->|Hc] & H0 & Hs); [|tauto]. exfalso.
      apply orb_true_iff in Hskip as [Hz|Hz].
      * unfold truthy_Z in Hz. rewrite negb_involutive in Hz. to_prop. done.
      * apply existsb_exists in Hz as (y & Hy & ->%Z.eqb_eq). done.
    + apply orb_false_iff in Hskip as [Hz Hs].
      assert (cid <> 0) as H0 by (unfold truthy_Z in Hz; rewrite negb_involutive in Hz; by to_prop).
      assert (~ In cid seen) as Hns.
      { intros Hin. apply existsb_false_Forall in Hs. rewrite List.Forall_forall in Hs.
        specialize (Hs _ Hin). by rewrite Z.eqb_refl in Hs. }
      destruct (IH (cid :: seen) (merged ++ [["chat_id" ~> BInt cid; "title" ~> BStr ""]]))
        as (new & Heq & Hnd & Hin).
      exists (cid :: new). split; [by rewrite Heq, <- app_assoc|]. split.
      * constructor; [|done]. rewrite list_elem_of_In, Hin. simpl. tauto.
      * intros c. simpl. rewrite Hin. simpl. split.
        { intros [<-|(H1 & H2 & H3)]; tauto. }
        { intros ([->|Hc] & H2 & H3); [tauto|]. destruct (decide (cid = c)); [tauto|]. right. tauto. }
Qed.

(** With a primary group configured there is always somewhere to go. *)
Lemma with_primary_nonempty groups primary_ids extra_ids c :
  In c primary_ids -> c <> 0 -> 0 < Z.of_nat (length (with_primary_groups groups primary_ids extra_ids)).
Proof.
  intros Hc H0. unfold with_primary_groups.
  destruct (append_missing_spec (primary_ids ++ extra_ids) (map chat_of groups) groups)
    as (new & -> & _ & Hin).
  rewrite length_app, length_map. destruct groups as [|g groups]; [|simpl; lia].
  assert (In c new) as Hn by (apply Hin; rewrite in_app_iff; simpl; tauto).
  destruct new; [done|simpl; lia].
Qed.

(** A federation-wide action visits every connected group, in order, then
    every configured primary and contextual chat it does not already visit,
    once each; an unset (zero) chat id is never visited because of the
    configuration, and if the connected groups are distinct so are the visits. *)
Theorem with_primary_groups_visits (groups : list doc) (primary_ids extra_ids : list Z) :
  let visited := map chat_of (with_primary_groups groups primary_ids extra_ids) in
  (exists new, visited = map chat_of groups ++ new /\ NoDup new /\
     (forall c, In c new <-> In c (primary_ids ++ extra_ids) /\ c <> 0 /\ ~ In c (map chat_of groups))) /\
  (forall c, In c (primary_ids ++ extra_ids) -> c <> 0 -> In c visited) /\
  (NoDup (map chat_of groups) -> NoDup visited).
Proof.
  intros visited. unfold visited, with_primary_groups.
  destruct (append_missing_spec (primary_ids ++ extra_ids) (map chat_of groups) groups)
    as (new & -> & Hnd & Hin).
  assert (map chat_of (map (fun cid => ["chat_id" ~> BInt cid; "title" ~> BStr ""]) new) = new) as Hmap
    by (rewrite map_map; apply map_id).
  rewrite map_app, Hmap. split; [eauto|]. split.
  - intros c Hc H0. apply in_app_iff. destruct (in_dec Z.eq_dec c (map chat_of groups)); [by left|right].
    by apply Hin.
  - intros Hg. apply NoDup_app. split; [done|]. split; [|done].
    intros c Hc Hnew. apply list_elem_of_In in Hc, Hnew. by apply Hin in Hnew as (_ & _ & ?).
Qed.
