(* ===== verification/Warns.v ===== *)
(** Warnings: [tcbot/database/warns_db].  The history ([warns]) and the
    per-pair counters ([warn_counts]) that gate the automatic ban. *)

From S2P Require Import Prelude Prog Text World Dispatch Locale Records.

Definition _warn_key (user_id chat_id : Z) : doc := ["user_id" ~> BInt user_id; "chat_id" ~> BInt chat_id].

(** * Counters *)

(** [for attempt in range(2)]; the loop never falls through. *)
Fixpoint inc_loop (user_id chat_id : Z) (attempts : list Z) : io (option Z) :=
  match attempts with
  | [] => Raise (AssertionError "_inc_warn_count retry loop exhausted")
  | attempt_no :: rest =>
      r <- attempt (now <- call UtcNow ;;
        db_call (FindOneAndUpdate "warn_counts" (_warn_key user_id chat_id)
          ["$inc" ~> BDoc ["count" ~> BInt 1]; "$set" ~> BDoc ["updated_at" ~> BDate now];
           "$setOnInsert" ~> BDoc ["user_id" ~> BInt user_id; "chat_id" ~> BInt chat_id]] true)) ;;
      match r with
      | Err (DuplicateKeyError k m) =>
          if attempt_no =? 0 then inc_loop user_id chat_id rest else Raise (DuplicateKeyError k m)
      | Err e => Raise e
      | Ok None => Ret None
      | Ok (Some counter) => Ret (Some (dget_int "count" counter 0))
      end
  end.

Definition _inc_warn_count (user_id chat_id : Z) : io (option Z) := inc_loop user_id chat_id [0; 1].

Definition _sync_warn_count (user_id chat_id : Z) : io Z :=
  d <- db_call (FindOne "warn_counts" (_warn_key user_id chat_id) []) ;;
  match d with
  | Some d => Ret (dget_int "count" d 0)
  | None =>
      count <- db_call (CountDocuments "warns" (_warn_key user_id chat_id)) ;;
      if count >? 0 then
        updated <- attempt (now <- call UtcNow ;;
          db_call (FindOneAndUpdate "warn_counts" (_warn_key user_id chat_id)
            ["$setOnInsert" ~> BDoc ["user_id" ~> BInt user_id; "chat_id" ~> BInt chat_id;
                                     "count" ~> BInt count; "updated_at" ~> BDate now]] true)) ;;
        updated <- match updated with
                   | Err (DuplicateKeyError _ _) => db_call (FindOne "warn_counts" (_warn_key user_id chat_id) [])
                   | r => of_result r
                   end ;;
        Ret match updated with Some d => dget_int "count" d count | None => count end
      else Ret count
  end.

Definition _store_warn_count (user_id chat_id count : Z) : io unit :=
  if count <=? 0 then db_call (DeleteOne "warn_counts" (_warn_key user_id chat_id)) ;;; Ret tt
  else
    now <- call UtcNow ;;
    db_call (UpdateOne "warn_counts" (_warn_key user_id chat_id)
      ["$set" ~> BDoc ["count" ~> BInt count; "updated_at" ~> BDate now];
       "$setOnInsert" ~> BDoc ["user_id" ~> BInt user_id; "chat_id" ~> BInt chat_id]] true) ;;;
    Ret tt.

Definition _recount_and_store (user_id chat_id : Z) : io unit :=
  count <- db_call (CountDocuments "warns" (_warn_key user_id chat_id)) ;;
  _store_warn_count user_id chat_id count.

(** The retried delete: three attempts, the last failure only logged. *)
Fixpoint delete_counts_loop (counts_filter : doc) (attempts : list Z) : io unit :=
  match attempts with
  | [] => Ret tt
  | n :: rest =>
      r <- attempt (db_call (DeleteMany "warn_counts" counts_filter)) ;;
      match r with
      | Ok _ => Ret tt
      | Err e =>
          if negb (is_Exception e) then Raise e
          else if n =? 2 then delete_counts_loop counts_filter rest
          else call (Sleep (500 * (n + 1))) ;;; delete_counts_loop counts_filter rest
      end
  end.

Definition _repair_counter_delete (counts_filter : doc) (delete_all_counts : bool) : io unit :=
  if delete_all_counts then delete_counts_loop counts_filter [0; 1; 2]
  else try_except (_recount_and_store (dget_int "user_id" counts_filter 0) (dget_int "chat_id" counts_filter 0))
         (fun _ => Ret tt).

Definition warn_count (user_id chat_id : Z) : io Z := _sync_warn_count user_id chat_id.

(** * Records *)
Definition add_warn (user_id : Z) (reason : string) (admin_id chat_id : Z) : io Z :=
  now <- call UtcNow ;;
  inserted_id <- db_call (InsertOne "warns" ["user_id" ~> BInt user_id; "reason" ~> BStr reason;
    "admin_id" ~> BInt admin_id; "chat_id" ~> BInt chat_id; "timestamp" ~> BDate now]) ;;
  counter <- attempt (_inc_warn_count user_id chat_id) ;;
  match counter with
  | Err e =>
      if is_Exception e then
        try_except (db_call (DeleteOne "warns" ["_id" ~> BId inserted_id]) ;;; Ret tt) (fun _ => Ret tt) ;;;
        Raise e
      else Raise e
  | Ok None => _sync_warn_count user_id chat_id
  | Ok (Some counter) => Ret counter
  end.

Definition _clear_warn_docs (warns_filter counts_filter : doc) (delete_all_counts : bool) : io Z :=
  let! (warn_del, cnt_del) :=
    gather2 (db_call (DeleteMany "warns" warns_filter))
            (db_call (if delete_all_counts then DeleteMany "warn_counts" counts_filter
                      else DeleteOne "warn_counts" counts_filter)) in
  match cnt_del with
  | Err CancelledError => Raise CancelledError
  | Err _ => _repair_counter_delete counts_filter delete_all_counts
  | Ok _ => Ret tt
  end ;;;
  of_result warn_del.

Definition clear_warns (user_id chat_id : Z) : io Z :=
  _clear_warn_docs (_warn_key user_id chat_id) (_warn_key user_id chat_id) false.

Definition clear_all_warns (user_id : Z) : io Z :=
  _clear_warn_docs ["user_id" ~> BInt user_id] ["user_id" ~> BInt user_id] true.

Definition get_warns (user_id chat_id skip : Z) (limit : option Z) (newest_first : bool) : io (list doc) :=
  db_call (Find "warns" (_warn_key user_id chat_id)
    [("timestamp"%string, if newest_first then -1 else 1)] (Z.max 0 skip) (page_limit limit)).

Definition remove_last_warn (user_id chat_id : Z) : io bool :=
  d <- db_call (FindOne "warns" (_warn_key user_id chat_id)
         [("timestamp"%string, -1); ("_id"%string, -1)]) ;;
  match d with
  | None => Ret false
  | Some d =>
      id <- match dget "_id" d with Some v => Ret v | None => Raise (KeyError "_id") end ;;
      now <- call UtcNow ;;
      let! (del_res, counter) :=
        gather2 (db_call (DeleteOne "warns" ["_id" ~> id]))
                (db_call (FindOneAndUpdate "warn_counts"
                   (_warn_key user_id chat_id ++ ["count" ~> BDoc ["$gt" ~> BInt 0]])
                   ["$inc" ~> BDoc ["count" ~> BInt (-1)]; "$set" ~> BDoc ["updated_at" ~> BDate now]] false)) in
      match del_res with
      | Err CancelledError => Raise CancelledError
      | Err e => _recount_and_store user_id chat_id ;;; Raise e
      | Ok deleted =>
          if deleted =? 0 then _recount_and_store user_id chat_id ;;; Ret false
          else
            match counter with
            | Err CancelledError => Raise CancelledError
            | Err _ | Ok None => _recount_and_store user_id chat_id
            | Ok (Some _) => Ret tt
            end ;;;
            Ret true
      end
  end.

Definition user_total_warns (user_id : Z) : io Z :=
  db_call (CountDocuments "warns" ["user_id" ~> BInt user_id]).

Definition user_warn_groups (user_id : Z) : io (list (Z * Z)) :=
  ds <- db_call (Find "warn_counts" ["user_id" ~> BInt user_id; "count" ~> BDoc ["$gt" ~> BInt 0]]
          [("updated_at"%string, -1)] 0 None) ;;
  Ret (map (fun d => (dget_int "chat_id" d 0, dget_int "count" d 0)) ds).

Definition federation_warn_count (user_id : Z) : io Z :=
  ds <- db_call (Aggregate "warn_counts"
    [["$match" ~> BDoc ["user_id" ~> BInt user_id; "count" ~> BDoc ["$gt" ~> BInt 0]]];
     ["$group" ~> BDoc ["_id" ~> BNull; "total" ~> BDoc ["$sum" ~> BStr "$count"]]]]) ;;
  match ds with
  | [] => Ret 0
  | d :: _ => match dget "total" d with Some (BInt z) => Ret z | _ => Raise (KeyError "total") end
  end.

(** * Migration to a supergroup *)

(** Take one counter away from the old pair and add it to the new one. *)
Definition merge_counter (uid cnt old_chat_id new_chat_id : Z) : io bool :=
  try_except
    (taken <- db_call (FindOneAndDelete "warn_counts" ["user_id" ~> BInt uid; "chat_id" ~> BInt old_chat_id]) ;;
     match taken with
     | None => Ret false
     | Some _ =>
         now <- call UtcNow ;;
         res <- db_call (UpdateOne "warn_counts" ["user_id" ~> BInt uid; "chat_id" ~> BInt new_chat_id]
           ["$inc" ~> BDoc ["count" ~> BInt cnt]; "$set" ~> BDoc ["updated_at" ~> BDate now];
            "$setOnInsert" ~> BDoc ["user_id" ~> BInt uid; "chat_id" ~> BInt new_chat_id]] true) ;;
         Ret ((matched_count res >? 0) || upserted res)
     end)
    (fun _ => Ret false).

Fixpoint merge_counters (docs : list doc) (old_chat_id new_chat_id : Z) (matched_any : bool) : io bool :=
  match docs with
  | [] => Ret matched_any
  | d :: docs =>
      let cnt := dget_int "count" d 0 in
      match dget "user_id" d with
      | Some (BInt uid) =>
          if cnt <=? 0 then merge_counters docs old_chat_id new_chat_id matched_any
          else
            m <- merge_counter uid cnt old_chat_id new_chat_id ;;
            merge_counters docs old_chat_id new_chat_id (matched_any || m)
      | _ => merge_counters docs old_chat_id new_chat_id matched_any
      end
  end.

Definition migrate_records (old_chat_id new_chat_id : Z) : io bool :=
  matched_any <- _repoint_chat "warns" old_chat_id new_chat_id ;;
  old_counters <- attempt (db_call (Find "warn_counts" ["chat_id" ~> BInt old_chat_id] [] 0 None)) ;;
  match old_counters with
  | Err e => if is_Exception e then Ret matched_any else Raise e
  | Ok docs =>
      matched_any <- merge_counters docs old_chat_id new_chat_id matched_any ;;
      try_except (db_call (DeleteMany "warn_counts" ["chat_id" ~> BInt old_chat_id]) ;;; Ret tt) (fun _ => Ret tt) ;;;
      Ret matched_any
  end.

(** * Classes of calls *)
Definition obs_warn_insert (o : obs eff) : bool :=
  match o with Obs ev r => match ev with InsertOne "warns" _ => negb (is_err r) | _ => false end end.

(** Deleting the very document an insert answered with. *)
Definition obs_warn_rollback (o : obs eff) : bool :=
  match o with
  | Obs ev _ => match ev with DeleteOne "warns" [("_id", BId _)] => true | _ => false end
  end.

(** A completed increment of a counter. *)
Definition obs_counted (o : obs eff) : bool :=
  match o with
  | Obs ev r => match ev with FindOneAndUpdate "warn_counts" _ (("$inc", _) :: _) _ => negb (is_err r) | _ => false end
  end.

(** The increments of one counter update: at most two are sent, at most one
    is applied, and only a lost first-insert race is retried. *)
Lemma inc_warn_count_spec uid cid :
  wp (_inc_warn_count uid cid) (fun t r =>
    (tcount obs_counted t <= 1)%nat /\
    Forall (fun o => obs_warn_insert o = false /\ obs_warn_rollback o = false) t /\
    (is_err r = negb (existsb obs_counted t))).
Proof.
  unfold _inc_warn_count, inc_loop, db_call.
  wp_auto; (split; [unfold tcount; simpl; lia|]); (split; [by repeat constructor|done]).
Qed.

Definition warn_history_untouched (o : obs eff) : Prop :=
  obs_warn_insert o = false /\ obs_warn_rollback o = false /\ obs_counted o = false.

Lemma sync_warn_count_spec uid cid :
  wp (_sync_warn_count uid cid) (fun t _ => Forall warn_history_untouched t).
Proof. unfold _sync_warn_count, db_call. wp_auto; by repeat constructor. Qed.

(** A warning is counted or it is not recorded.  In every execution: the
    history row is inserted before its counter moves, and the counter moves at
    most once per warning even when the first insert of two racing warnings is
    retried; a call that returns inserted exactly one row, counted it, and
    removed nothing; and when the counter could not be moved for any reason
    but cancellation, the inserted row is rolled back before the error goes to
    the caller. *)
Theorem add_warn_atomic (user_id : Z) (reason : string) (admin_id chat_id : Z)
    (t : trace eff) (r : result Z)
    (Hrun : exec (add_warn user_id reason admin_id chat_id) t r) :
  guarded obs_warn_insert obs_counted t = true /\
  (tcount obs_warn_insert t <= 1)%nat /\ (tcount obs_counted t <= 1)%nat /\
  match r with
  | Ok _ => tcount obs_warn_insert t = 1%nat /\ tcount obs_counted t = 1%nat /\
            existsb obs_warn_rollback t = false
  | Err e => is_Exception e = true -> existsb obs_warn_insert t = true ->
             existsb obs_counted t = false -> existsb obs_warn_rollback t = true
  end.
Proof.
  revert t r Hrun. refine (wp_elim' _ _ _). unfold add_warn. unfold db_call at 1.
  wp_step. wp_step. wp_step. wp_step. destruct x0 as [id|e]; cbn beta iota.
  2: { unfold tcount; simpl. split; [done|]. split; [lia|]. split; [lia|done]. }
  wp_step. wp_step. eapply wp_mono; [apply inc_warn_count_spec|].
  intros t1 r1 (Hc & Hf & Hr). cbn beta iota.
  assert (tcount obs_warn_insert t1 = 0%nat) as Hi
    by (apply tcount_zero; eapply Forall_impl; [exact Hf|]; by intros o [? _]).
  assert (existsb obs_warn_rollback t1 = false) as Hb
    by (apply existsb_false_Forall; eapply Forall_impl; [exact Hf|]; by intros o [_ ?]).
  rewrite existsb_tcount, negb_involutive in Hr.
  assert (guarded obs_warn_insert obs_counted (Obs UtcNow (Ok x) ::
            Obs (InsertOne "warns" ["user_id" ~> BInt user_id; "reason" ~> BStr reason;
              "admin_id" ~> BInt admin_id; "chat_id" ~> BInt chat_id; "timestamp" ~> BDate x]) (Ok id) :: t1) = true)
    as Hg by done.
  destruct r1 as [[n|]|e]; cbn beta iota.
  - apply wp_ret. rewrite app_nil_r. cbn [app]. rewrite !tcount_cons, Hi. simpl in *.
    symmetry in Hr. apply Nat.eqb_neq in Hr. repeat split; try lia; done.
  - eapply wp_mono; [apply sync_warn_count_spec|]. intros t2 r2 Hf2.
    assert (tcount obs_warn_insert t2 = 0%nat /\ tcount obs_counted t2 = 0%nat) as [H1 H2]
      by (split; apply tcount_zero; (eapply Forall_impl; [exact Hf2|]); intros o (? & ? & ?); done).
    assert (existsb obs_warn_rollback t2 = false) as H3
      by (apply existsb_false_Forall; eapply Forall_impl; [exact Hf2|]; by intros o (? & ? & ?)).
    symmetry in Hr. apply Nat.eqb_neq in Hr.
    simpl app. rewrite !tcount_cons, !tcount_app, Hi, H1, H2. simpl.
    split; [done|]. split; [lia|]. split; [lia|]. destruct r2 as [m|e].
    + split; [lia|]. split; [lia|]. by rewrite existsb_app, Hb, H3.
    + intros _ _ Hno. rewrite existsb_app, existsb_tcount in Hno.
      destruct (tcount obs_counted t1); simpl in Hno; [lia|done].
  - symmetry in Hr. apply Nat.eqb_eq in Hr. simpl in Hr.
    destruct (is_Exception e) eqn:He.
     2: { apply wp_raise. rewrite app_nil_r. cbn [app]. rewrite !tcount_cons, Hi, Hr. simpl. rewrite He.
         split; [done|]. split; [lia|]. split; [lia|done]. }
    unfold db_call. wp_auto; simpl app; rewrite !tcount_cons, ?tcount_app, Hi, Hr; simpl;
      (split; [done|]); (split; [unfold tcount; simpl; lia|]); (split; [unfold tcount; simpl; lia|]);
      intros _ _ _; rewrite ?existsb_app; simpl; by rewrite ?orb_true_r.
Qed.

Lemma add_warn_atomic_witness :
  let '(t, r) := replay (fun X ev => match ev in eff X return option (result X) with
      | FindOneAndUpdate _ _ _ _ => Some (Err TimeoutError) | _ => None end) (add_warn 7 "spam" 8 (-100)) in
  r = Err TimeoutError /\ existsb obs_warn_rollback t = true.
Proof.
  pose proof (add_warn_atomic 7 "spam" 8 (-100) _ _
    (replay_exec (fun X ev => match ev in eff X return option (result X) with
      | FindOneAndUpdate _ _ _ _ => Some (Err TimeoutError) | _ => None end) (add_warn 7 "spam" 8 (-100))))
    as (_ & _ & _ & H).
  split; [reflexivity|]. apply H; reflexivity.
Defined.

(** * Migration adds nothing *)

(** A counter of the old chat was taken away; a counter was added to. *)
Definition obs_taken (o : obs eff) : bool :=
  match o with
  | Obs ev r =>
      match ev in eff X return result X -> bool with
      | FindOneAndDelete "warn_counts" _ => fun r => match r with Ok (Some _) => true | _ => false end
      | _ => fun _ => false
      end r
  end.
Definition obs_added (o : obs eff) : bool :=
  match o with
  | Obs ev _ => match ev with UpdateOne "warn_counts" _ (("$inc", _) :: _) _ => true | _ => false end
  end.

(** At every moment of a run at most as many counters were added to as were
    taken. *)
Definition covered (t : trace eff) : Prop :=
  forall t1 t2, t = t1 ++ t2 -> (tcount obs_added t1 <= tcount obs_taken t1)%nat.

Lemma covered_app t1 t2 : covered t1 -> covered t2 -> covered (t1 ++ t2).
Proof.
  intros H1 H2 u1 u2 Hu. apply app_eq_app in Hu as [l [[-> ->]|[-> ->]]].
  - by apply (H1 u1 l).
  - rewrite !tcount_app. specialize (H1 t1 [] (eq_sym (app_nil_r t1))). specialize (H2 l u2 eq_refl). lia.
Qed.

Lemma covered_calm t : Forall (fun o => obs_added o = false) t -> covered t.
Proof. intros H u1 u2 ->. apply Forall_app in H as [H _]. rewrite (tcount_zero _ _ H). lia. Qed.

(** A take, calls that add nothing, and one addition. *)
Lemma covered_pair o t o' :
  obs_taken o = true -> obs_added o = false -> Forall (fun o => obs_added o = false) t ->
  covered (o :: t ++ [o']).
Proof.
  intros Ho Ho' Ht u1 u2 Hu. destruct u1 as [|x u1]; [unfold tcount; simpl; lia|].
  injection Hu as <- Hu. rewrite !tcount_cons, Ho, Ho'.
  assert (tcount obs_added (u1 ++ u2) <= 1)%nat as Hc.
  { rewrite <- Hu, tcount_app, (tcount_zero _ _ Ht). unfold tcount. simpl. destruct (obs_added o'); simpl; lia. }
  rewrite tcount_app in Hc. lia.
Qed.

Lemma merge_counter_covered uid cnt oc nc : wp (merge_counter uid cnt oc nc) (fun t _ => covered t).
Proof.
  unfold merge_counter, db_call.
  wp_auto; try (apply covered_calm; by repeat constructor);
    apply (covered_pair _ [_]); by repeat constructor.
Qed.

Lemma merge_counters_covered ds oc nc m : wp (merge_counters ds oc nc m) (fun t _ => covered t).
Proof.
  revert m. induction ds as [|d ds IH]; intros m; cbn [merge_counters]; [apply wp_ret, covered_calm; constructor|].
  destruct (dget "user_id" d) as [[]|]; try apply IH. destruct (_ <=? 0); [apply IH|].
  apply wp_bind. eapply wp_mono; [apply merge_counter_covered|]. intros t [b|e] Ht; [|done].
  eapply wp_mono; [apply IH|]. intros t' r Ht'. by apply covered_app.
Qed.

(** Moving a chat's warnings never counts one twice.  At every moment of a
    migration, cut off there or not, the counters added to the new chat are at
    most those already taken away from the old one: an interrupted migration,
    run again, can only have lost counts. *)
Theorem migrate_never_double_counts (old_chat_id new_chat_id : Z) (t1 t2 : trace eff) (r : result bool)
    (Hrun : exec (migrate_records old_chat_id new_chat_id) (t1 ++ t2) r) :
  (tcount obs_added t1 <= tcount obs_taken t1)%nat.
Proof.
  enough (wp (migrate_records old_chat_id new_chat_id) (fun t _ => covered t)) as Hw
    by exact (wp_elim _ _ _ _ Hw Hrun t1 t2 eq_refl). clear t1 t2 r Hrun.
  assert (forall A (p : io A), never obs_added p -> wp p (fun t _ => covered t)) as Hcalm.
  { intros A p Hp. eapply wp_mono; [exact Hp|]. intros t r. apply covered_calm. }
  assert (forall A B (p : io A) (k : A -> io B), never obs_added p ->
    (forall a, wp (k a) (fun t _ => covered t)) -> wp (bind p k) (fun t _ => covered t)) as Hafter.
  { intros A B p k Hp Hk. apply (wp_never_bind obs_added); [done| |intros; by apply covered_calm].
    intros t a Ht _. eapply wp_mono; [apply Hk|]. intros t' r Ht'. apply covered_app; [by apply covered_calm|done]. }
  unfold migrate_records, _repoint_chat, db_call.
  apply Hafter; [never_auto|intros matched]. apply Hafter; [never_auto|intros [ds|e]].
  2: { apply Hcalm. never_auto. }
  apply wp_bind. eapply wp_mono; [apply merge_counters_covered|]. intros t [b|e] Ht; [|done].
  eapply wp_mono; [apply Hcalm; never_auto|]. intros t' r Ht'. by apply covered_app.
Qed.

(** One counter in the old chat. *)
Definition one_counter : script := fun X ev =>
  match ev in eff X return option (result X) with
  | Find "warn_counts" _ _ _ _ => Some (Ok [["user_id" ~> BInt 9; "count" ~> BInt 2]])
  | FindOneAndDelete _ _ => Some (Ok (Some []))
  | _ => None
  end.

Lemma migrate_never_double_counts_witness :
  let t := (replay one_counter (migrate_records (-5) (-100))).1 in
  (tcount obs_added t <= tcount obs_taken t)%nat /\ tcount obs_added t = 1%nat.
Proof.
  intros t. split; [|vm_compute; reflexivity].
  apply (migrate_never_double_counts (-5) (-100) t [] (replay one_counter (migrate_records (-5) (-100))).2).
  rewrite app_nil_r. apply replay_exec.
Defined.
