(* ===== verification/ProofUpload.v ===== *)
(** [tcbot/modules/helper/workflows/proof_flow.py], the channel upload: a
    gallery of photos and videos, then the documents one by one. *)

From S2P Require Import Prelude Prog Text World.

Definition media_kind (m : proof_message) : option (string * string) :=
  match List.rev (photo m), video m, animation m, document m with
  | f :: _, _, _, _ => Some ("photo", f)
  | [], Some f, _, _ => Some ("video", f)
  | [], None, Some f, _ => Some ("document", f)
  | [], None, None, Some f => Some ("document", f)
  | [], None, None, None => None
  end%string.

Fixpoint media_kinds (msgs : list proof_message) : list (string * string) :=
  match msgs with
  | [] => []
  | m :: msgs' => match media_kind m with Some kf => kf :: media_kinds msgs' | None => media_kinds msgs' end
  end.

Definition is_visual (kf : string * string) : bool :=
  String.eqb kf.1 "photo" || String.eqb kf.1 "video".

Section upload.
Context (caption : text) (proof_chat : Z) (proof_thread : option Z).

Definition send_single (kind file_id : string) (cap : option text) : io Z :=
  call (SendMedia proof_chat kind file_id cap proof_thread).

(** [caption if idx == 0 else None] along the gallery. *)
Definition captioned (gallery : list (string * string)) : list (string * string * option text) :=
  match gallery with
  | [] => []
  | kf :: rest => (kf, Some caption) :: map (fun kf => (kf, None)) rest
  end.

(** The gallery: the first id, and whether the upload returns right there. *)
Definition upload_gallery (gallery : list (string * string)) (docs : list string) : io (option Z * bool) :=
  let no_docs := match docs with [] => true | _ => false end in
  match gallery with
  | [] => Ret (None, false)
  | [(kind, file_id)] =>
      id <- send_single kind file_id (Some caption) ;;
      Ret (Some id, no_docs)
  | _ =>
      sent <- call (SendMediaGroup proof_chat (captioned gallery) proof_thread) ;;
      Ret match sent with
          | id :: _ => (Some id, false)
          | [] => (None, no_docs)
          end
  end.

Fixpoint upload_docs (idx : nat) (docs : list string) (first_id : option Z) : io (option Z) :=
  match docs with
  | [] => Ret first_id
  | file_id :: docs' =>
      let cap := match first_id, idx with None, O => Some caption | _, _ => None end in
      r <- attempt (send_single "document" file_id cap) ;;
      match r with
      | Ok one_id =>
          upload_docs (S idx) docs' match first_id with None => Some one_id | Some _ => first_id end
      | Err e => if is_Exception e then upload_docs (S idx) docs' first_id else Raise e
      end
  end.

Definition upload_proof (msgs : list proof_message) : io (option Z) :=
  match media_kinds msgs with
  | [] => Ret None
  | kinds =>
      let gallery := List.filter is_visual kinds in
      let docs := map snd (List.filter (fun kf => String.eqb kf.1 "document") kinds) in
      r <- attempt (upload_gallery gallery docs) ;;
      match r with
      | Ok (first_id, true) => Ret first_id
      | Ok (first_id, false) => upload_docs 0 docs first_id
      | Err e => if is_Exception e then upload_docs 0 docs None else Raise e
      end
  end.

(** * What landed *)

(** The id of the first proof message a trace sent successfully. *)
Fixpoint first_landed (t : trace eff) : option Z :=
  match t with
  | [] => None
  | Obs ev r :: t' =>
      match match ev in eff X return result X -> option Z with
            | SendMedia _ _ _ _ _ => fun r => match r with Ok id => Some id | Err _ => None end
            | SendMediaGroup _ _ _ => fun r => match r with Ok (id :: _) => Some id | _ => None end
            | _ => fun _ => None
            end r with
      | Some id => Some id
      | None => first_landed t'
      end
  end.

Lemma first_landed_app t1 t2 :
  first_landed (t1 ++ t2) = match first_landed t1 with Some id => Some id | None => first_landed t2 end.
Proof.
  induction t1 as [|[X ev r] t1 IH]; simpl; [done|]. by destruct (match ev with _ => _ end r).
Qed.

(** A trace that only sends proof. *)
Definition obs_proof (o : obs eff) : bool :=
  match o with
  | Obs ev _ => match ev with SendMedia _ _ _ _ _ | SendMediaGroup _ _ _ => true | _ => false end
  end.

Lemma upload_docs_spec idx docs first_id :
  wp (upload_docs idx docs first_id) (fun t r =>
    Forall (fun o => obs_proof o = true) t /\
    match r with
    | Ok o => o = match first_id with Some id => Some id | None => first_landed t end
    | Err e => e = CancelledError
    end).
Proof.
  revert idx first_id. induction docs as [|f docs IH]; intros idx first_id; cbn [upload_docs].
  - apply wp_ret. split; [constructor|]. by destruct first_id.
  - unfold send_single. wp_step. wp_step. wp_step. destruct x as [id|e].
    + eapply wp_mono; [apply IH|]. intros t r [Hf Hr]. split; [by constructor|].
      destruct r as [o|e]; [|done]. rewrite Hr. by destruct first_id.
    + wp_step; [|apply wp_raise; split; [by repeat constructor|by destruct e]].
      eapply wp_mono; [apply IH|]. intros t r [Hf Hr]. split; [by constructor|].
      destruct r as [o|e']; [|done]. rewrite Hr. by destruct first_id.
Qed.

Lemma upload_gallery_spec gallery docs :
  wp (upload_gallery gallery docs) (fun t r =>
    Forall (fun o => obs_proof o = true) t /\
    match r with
    | Ok (o, stop) => o = first_landed t
    | Err e => first_landed t = None
    end).
Proof.
  unfold upload_gallery, send_single. destruct gallery as [|[k f] [|kf rest]].
  - apply wp_ret. by split; constructor.
  - wp_auto; (split; [by repeat constructor|done]).
  - wp_step. wp_step. destruct x as [sent|e]; cbn beta iota.
    + apply wp_ret. split; [by repeat constructor|]. by destruct sent.
    + split; [by repeat constructor|done].
Qed.
End upload.

(** The evidence upload reports exactly what landed.  Whatever fails on
    the way, the upload returns the id of the first message that reached the
    proof channel, and none exactly when none did: a failing gallery or
    document never hides evidence that was stored, and only cancellation
    escapes. *)
Theorem upload_proof_reports (caption : text) (proof_chat : Z) (proof_thread : option Z)
    (msgs : list proof_message) (t : trace eff) (r : result (option Z))
    (Hrun : exec (upload_proof caption proof_chat proof_thread msgs) t r) :
  Forall (fun o => obs_proof o = true) t /\
  match r with
  | Ok first_id => first_id = first_landed t
  | Err e => e = CancelledError
  end.
Proof.
  revert t r Hrun. refine (wp_elim' _ _ _). unfold upload_proof.
  destruct (media_kinds msgs) as [|kf kinds]; [apply wp_ret; by split; constructor|].
  cbv zeta. wp_step. wp_step.
  eapply wp_mono; [apply upload_gallery_spec|]. intros t1 [[o stop]|e] [Hf Hr]; cbn beta iota.
  - destruct stop; [apply wp_ret; by rewrite app_nil_r|].
    eapply wp_mono; [apply upload_docs_spec|]. intros t2 r [Hf2 Hr2]. split; [by apply Forall_app|].
    destruct r as [o2|e]; [|done]. rewrite Hr2, Hr, first_landed_app. done.
  - destruct (is_Exception e) eqn:He; [|apply wp_raise; rewrite app_nil_r; split; [done|by destruct e]].
    eapply wp_mono; [apply upload_docs_spec|]. intros t2 r [Hf2 Hr2]. split; [by apply Forall_app|].
    destruct r as [o2|e2]; [|done]. by rewrite Hr2, first_landed_app, Hr.
Qed.

Lemma upload_proof_reports_witness :
  let p := upload_proof (TStr "proof") (-5) None
             [ProofMessage ["a"%string] None None None; ProofMessage [] None None (Some "b"%string)] in
  let ov : script := fun X ev => match ev in eff X return option (result X) with
    | SendMedia _ "photo" _ _ _ => Some (Err TimedOut) | SendMedia _ _ _ _ _ => Some (Ok 42) | _ => None end in
  (replay ov p).2 = Ok (Some 42).
Proof.
  intros p ov. destruct (upload_proof_reports _ _ _ _ _ _ (replay_exec ov p)) as [_ H].
  vm_compute in H |- *. exact (f_equal Ok H).
Defined.

(** The first document cannot be sent. *)
Definition first_document_fails : script := fun X ev =>
  match ev in eff X return option (result X) with
  | SendMedia _ _ "a" _ _ => Some (Err TimedOut)
  | SendMedia _ _ _ _ _ => Some (Ok 42)
  | _ => None
  end.

(** Without a gallery the caption only ever goes with the first document: if
    that one fails, the message that does land carries none, in whatever chat
    and with whatever caption. *)
Theorem caption_lost_with_first_document (caption : text) (chat : Z) (thread : option Z) :
  exec (upload_proof caption chat thread
          [ProofMessage [] None None (Some "a"%string); ProofMessage [] None None (Some "b"%string)])
    [Obs (SendMedia chat "document" "a" (Some caption) thread) (Err TimedOut);
     Obs (SendMedia chat "document" "b" None thread) (Ok 42)] (Ok (Some 42)).
Proof. exact (replay_exec first_document_fails (upload_proof caption chat thread _)). Qed.
