(* ===== verification/DemoteFlow.v ===== *)
(** [tcbot/modules/helper/workflows/demote_flow.py]: removing a federation
    role, alone or before a ban, kick or mute. *)

From S2P Require Import Prelude Prog Text World I18n Dispatch Cache Locale Roles Replies Auth.

Definition role_str (role : bson) : string := match role with BStr s => s | _ => "" end.

Definition demoted (target_id : Z) (target_fname : string) (target_role : bson)
    (executor_id : Z) (executor_fname : string) : text :=
  TBuild "parse_logmsg.demoted"
    [TInt target_id; TStr target_fname; TStr (role_str target_role); TInt executor_id; TStr executor_fname].

(** [role in ("admin", "developer", "tester")] *)
Definition demotable (role : bson) : bool :=
  role_is "admin" role || role_is "developer" role || role_is "tester" role.

Section demote.
Context {CAT : Catalog} (cfg : config).

(** [asyncio.gather] without [return_exceptions]: the first failure is raised;
    with both failing, the first argument's stands for it. *)
Definition remove_role (target_id : Z) : io bool :=
  let! (cleared_admin, cleared_role) := gather2 (remove_admin target_id) (Roles.remove_role target_id) in
  cleared_admin <- of_result cleared_admin ;;
  cleared_role <- of_result cleared_role ;;
  Ret (cleared_admin || cleared_role).

Definition user_msg (target_role : bson) (executor_fname : string) (trigger : option string)
    (target_locale : ustr) : text :=
  let role := ("role"%string, TBuild "bold" [TStr (role_label target_role)]) in
  let community := ("community"%string, TStr (cfg_community_name cfg)) in
  match trigger with
  | None => TKey "demote.dm.manual" target_locale [role; community; ("name"%string, TStr executor_fname)]
  | Some trigger =>
      let verb := if String.eqb trigger "ban" then "banned"%string
                  else if String.eqb trigger "mute" then "muted"%string else "kicked"%string in
      TKey "demote.dm.auto" target_locale [role; community; ("verb"%string, TStr verb)]
  end.

Definition execute (target_id : Z) (target_fname : string) (target_role : bson)
    (executor_id : Z) (executor_fname : string) (trigger : option string) : io bool :=
  removed <- remove_role target_id ;;
  if negb removed then Ret false
  else
    let (lc, lt) := cfg_logs cfg in
    target_locale <- locale_for_user target_id ;;
    gather2
      (call (SendMessage lc (demoted target_id target_fname target_role executor_id executor_fname) lt None))
      (call (SendMessage target_id (user_msg target_role executor_fname trigger target_locale) None None)) ;;;
    Ret true.

Definition redemote_before_fanout (target_id : Z) (target_fname : string)
    (executor_id : Z) (executor_fname : string) (trigger : string) : io unit :=
  pre_fanout_role <- attempt (get_effective_role target_id) ;;
  match pre_fanout_role with
  | Err e => if is_Exception e then Ret tt else Raise e
  | Ok role =>
      if negb (truthy_role role) then Ret tt
      else try_except (execute target_id target_fname role executor_id executor_fname (Some trigger) ;;; Ret tt)
             (fun _ => Ret tt)
  end.

Definition auto_demote_or_abort (msg : message) (target_id : Z) (target_display : string)
    (target_role : bson) (executor_id : Z) (executor_fname trigger : string) : io bool :=
  removed <- try_except (execute target_id target_display target_role executor_id executor_fname (Some trigger))
               (fun _ => Ret false) ;;
  if removed : bool then Ret true
  else
    live_role <- try_except (get_effective_role target_id) (fun _ => Ret target_role) ;;
    if demotable live_role then
      mod_locale <- effective_locale (Some (msg_chat_type msg)) executor_id (msg_chat_id msg) ;;
      safe_reply msg (TKey "demote.abort.body" mod_locale
        [("user"%string, TUser target_id target_display); ("target_role"%string, TStr (role_str live_role));
         ("action"%string, TStr trigger)]) ;;;
      Ret false
    else Ret true.
End demote.

(** * What a demotion may do: clear role records, log and tell *)
Definition obs_cleared (uid : Z) (o : obs eff) : Prop :=
  match o with
  | Obs ev r =>
      match ev in eff X return result X -> Prop with
      | DeleteOne c f => fun r => (c = "tc_admins"%string \/ c = "tc_roles"%string) /\
          f = [("user_id"%string, BInt uid)] /\ match r with Ok n => 0 < n | Err _ => False end
      | _ => fun _ => False
      end r
  end.

Lemma get_effective_role_never f uid :
  (forall o, obs_passive o = true -> f o = false) -> never f (get_effective_role uid).
Proof. intros Hf. apply passive_never; [done|]. apply get_effective_role_passive. Qed.

(** Resolving a role only reads MongoDB and uses the cache. *)
Lemma get_effective_role_reads f uid :
  (forall c k o, cache_obs c k o = true -> f o = false) ->
  (forall c q s r, f (Obs (FindOne c q s) r) = false) -> never f (get_effective_role uid).
Proof.
  intros Hc Hf. apply get_or_fetch_never; [apply Hc|].
  unfold fetch_effective_role, is_owner, get_owner_id, is_admin, get_role, db_call.
  assert (forall c q s, never f (call (FindOne c q s))) as Hfind by (intros; by apply never_call).
  pose proof (fun rs => throw_never (T := unit) f rs). pose proof (Hc "owner"%string "id"%string).
  apply never_bind; [apply never_gather3|intros [[o a] ro]]; never_auto; auto.
  apply get_or_fetch_never; [apply Hc|]. unfold fetch_owner_id, db_call. never_auto.
Qed.

Lemma invalidate_never_enforce c k : never obs_enforce (invalidate c k).
Proof. unfold invalidate, redis_del_background. never_auto. Qed.

Section demote_lemmas.
Context {CAT : Catalog} (cfg : config).

Lemma passive_enforce_false o : obs_passive o = true -> obs_enforce o = false.
Proof. unfold obs_passive. destruct (obs_enforce o); [|done]. by rewrite orb_true_r. Qed.

Lemma execute_never_enforce tid n role eid en tr : never obs_enforce (execute cfg tid n role eid en tr).
Proof.
  unfold execute, remove_role, remove_admin, Roles.remove_role, invalidate, redis_del_background, db_call.
  destruct (cfg_logs cfg) as [lc lt]. never_auto.
  apply passive_never; [apply passive_enforce_false|apply locale_for_user_passive].
Qed.

Lemma redemote_never_enforce tid n eid en tr : never obs_enforce (redemote_before_fanout cfg tid n eid en tr).
Proof.
  unfold redemote_before_fanout. pose proof execute_never_enforce. never_auto; auto.
  apply get_effective_role_never, passive_enforce_false.
Qed.

(** A demotion that reports success cleared a record of the target. *)
Lemma remove_record_spec c uid :
  c = "tc_admins"%string \/ c = "tc_roles"%string ->
  wp (deleted <- db_call (DeleteOne c [("user_id"%string, BInt uid)]) ;;
      invalidate "role" (pretty.pretty uid) ;;; Ret (deleted >? 0))
     (fun t r => r = Ok true -> Exists (obs_cleared uid) t).
Proof.
  intros Hc. unfold db_call. wp_step. wp_step. destruct x as [n|e]; [|done].
  apply wp_bind, wp_intro. intros t [u|e] _; [|done]. apply wp_ret. intros [= Hn]. constructor. simpl.
  split; [done|]. split; [done|]. apply Z.gtb_lt in Hn. lia.
Qed.

Lemma remove_role_true tid :
  wp (remove_role tid) (fun t r => r = Ok true -> Exists (obs_cleared tid) t).
Proof.
  unfold remove_role. apply wp_bind.
  eapply wp_gather2; [apply remove_record_spec; by left|apply remove_record_spec; by right|].
  intros t1 t2 t r1 r2 H1 H2 Hi. split; [|done]. cbn beta iota.
  destruct r1 as [a|e1], r2 as [b|e2]; cbn [of_result]; wp_auto; try done.
  rewrite !app_nil_r. intros [= Hab]. eapply interleave_Exists; [exact Hi|].
  destruct a, b; try done; auto.
Qed.

Lemma execute_true tid n role eid en tr :
  wp (execute cfg tid n role eid en tr) (fun t r => r = Ok true -> Exists (obs_cleared tid) t).
Proof.
  unfold execute. apply wp_bind. eapply wp_mono; [apply remove_role_true|].
  intros t [[]|e] Ht; cbn beta iota; [|apply wp_ret; by rewrite app_nil_r|done].
  apply wp_intro. intros t2 r _ _. apply Exists_app. left. auto.
Qed.
End demote_lemmas.

(** An automatic demotion lets the moderation action proceed only when the
    target no longer holds a staff role: either a record of the target was
    actually deleted, or the role re-read afterwards is not a staff role (when
    that read fails, the role known at entry stands for it).  Nobody's rights
    in any chat change meanwhile. *)
Theorem auto_demote_sound {CAT : Catalog} (cfg : config) (msg : message) (target_id : Z)
    (target_display : string) (target_role : bson) (executor_id : Z) (executor_fname trigger : string)
    (t : trace eff)
    (Hrun : exec (auto_demote_or_abort cfg msg target_id target_display target_role
                    executor_id executor_fname trigger) t (Ok true)) :
  Forall (fun o => obs_enforce o = false) t /\
  (Exists (obs_cleared target_id) t \/
   (exists t1 t2 live, t = t1 ++ t2 /\ exec (get_effective_role target_id) t2 (Ok live) /\
                       demotable live = false) \/
   demotable target_role = false).
Proof.
  split.
  { refine (never_elim _ _ _ _ _ Hrun). unfold auto_demote_or_abort.
    pose proof execute_never_enforce as He. pose proof passive_enforce_false as Hp.
    never_auto; auto; apply passive_never; auto with passive. }
  revert t Hrun. refine (wp_elim_ok _ _ _ _). unfold auto_demote_or_abort.
  apply wp_bind, wp_try. eapply wp_mono; [apply execute_true|].
  assert (forall t1, wp (live_role <- try_except (get_effective_role target_id) (fun _ => Ret target_role) ;;
      if demotable live_role then
        mod_locale <- effective_locale (Some (msg_chat_type msg)) executor_id (msg_chat_id msg) ;;
        safe_reply msg (TKey "demote.abort.body" mod_locale
          [("user"%string, TUser target_id target_display); ("target_role"%string, TStr (role_str live_role));
           ("action"%string, TStr trigger)]) ;;; Ret false
      else Ret true) (fun t r => r = Ok true ->
        Exists (obs_cleared target_id) (t1 ++ t) \/
        (exists ta tb live, t1 ++ t = ta ++ tb /\ exec (get_effective_role target_id) tb (Ok live) /\
                            demotable live = false) \/ demotable target_role = false)) as Hre.
  { intros t1. apply wp_bind, wp_try, wp_intro. intros t2 [live|e] Hlive; cbn beta iota.
    - destruct (demotable live) eqn:Hd.
      + apply wp_intro. intros t r Hr Hok. exfalso. subst. revert t Hr. refine (wp_elim_ok _ _ (fun _ => False) _).
        wp_step. apply wp_intro. intros ? [?|?] _; [|done]. wp_step. apply wp_intro. intros ? [?|?] _; [|done].
        by apply wp_ret.
      + apply wp_ret. intros _. right; left. rewrite app_nil_r. eauto 10.
    - destruct (is_Exception e); [|done]. apply wp_ret. destruct (demotable target_role) eqn:Hd; [|apply wp_ret; auto].
      apply wp_intro. intros t r Hr Hok. exfalso. subst. revert t Hr. refine (wp_elim_ok _ _ (fun _ => False) _).
      wp_step. apply wp_intro. intros ? [?|?] _; [|done]. wp_step. apply wp_intro. intros ? [?|?] _; [|done].
      by apply wp_ret. }
  intros t1 [[]|e] Ht1; cbn beta iota.
  - apply wp_ret. intros _. left. rewrite app_nil_r. auto.
  - apply Hre.
  - destruct (is_Exception e); [|done]. apply wp_ret. rewrite app_nil_r. apply Hre.
Qed.

Definition demo_config : config := Config 3 0 (-11, None) (-12, None) (-1) (-2) "TCF" (-13, None) "@logs" 0 true "tcbot_mtproto".

Lemma auto_demote_sound_witness :
  Forall (fun o => obs_enforce o = false)
    (replay staff_script (@auto_demote_or_abort demo_catalog demo_config demo_message 8 "x"
       (BStr "admin") 7 "boss" "ban")).1.
Proof.
  refine (proj1 (@auto_demote_sound demo_catalog demo_config demo_message 8 "x" (BStr "admin") 7 "boss" "ban" _ _)).
  exact (replay_exec staff_script (@auto_demote_or_abort demo_catalog demo_config demo_message 8 "x"
       (BStr "admin") 7 "boss" "ban")).
Defined.
