(* ===== verification/BanFlow.v ===== *)
(** The ban executor: [ban_flow/executor.py] and [ban_flow/persist.py] under
    [tcbot/modules/helper/workflows]. *)

From S2P Require Import Prelude Prog Text World Formatter I18n Dispatch Cache Locale Roles Replies Auth Records ProofUpload DemoteFlow.

(** * Summaries ([replies.applied_summary]) *)

(** The names of the first [n] groups. *)
Definition sample_titles (n : nat) (groups : list doc) : text :=
  TCat (map (fun g => match dget "title" g with
                      | Some (BStr s) => if truthy_str s then TStr s else TInt (chat_of g)
                      | _ => TInt (chat_of g)
                      end) (take n groups)).

Definition applied_summary (locale : ustr) (key_prefix : string) (total failed : Z)
    (transient : list doc) : text :=
  let n := Z.of_nat (length transient) in
  if total =? 0 then TKey (key_prefix ++ ".empty") locale []
  else if failed =? total then
    TKey (key_prefix ++ ".none") locale
      [("total"%string, TInt total); ("sample"%string, sample_titles 5 transient);
       ("more"%string, TStr (if 5 <? n then " ..." else ""))]
  else if 0 <? failed then
    TKey (key_prefix ++ ".partial") locale
      [("done"%string, TInt (total - failed)); ("total"%string, TInt total); ("failed"%string, TInt failed);
       ("sample"%string, sample_titles 3 transient);
       ("more"%string, TStr (if 3 <? n then " ...)" else ")"))]
  else TKey (key_prefix ++ ".full") locale [("total"%string, TInt total)].

(** Groups whose outcome is an error of the given kind. *)
Fixpoint groups_where {A} (f : exn -> bool) (groups : list doc) (results : list (result A)) : list doc :=
  match groups, results with
  | g :: gs, Err e :: rs => if f e then g :: groups_where f gs rs else groups_where f gs rs
  | _ :: gs, Ok _ :: rs => groups_where f gs rs
  | _, _ => []
  end.

(** * The collected ban request

    [meta] with the defaults of its [get] calls applied. *)
Record ban_meta := BanMeta {
  ban_target_id : Z;
  ban_target_fname : string;
  ban_locale : ustr;
  ban_reason : string;
  ban_admin_id : Z;
  ban_admin_fname : string;
  ban_prompt_msg_id : Z;
  ban_prompt_chat_id : Z
}.

(** [int(d.get(k, default))] *)
Definition get_int (k : string) (d : doc) (dflt : Z) : io Z :=
  match dget k d with
  | None => Ret dflt
  | Some (BInt z) => Ret z
  | Some _ => Raise (OtherException "TypeError")
  end.

Definition timestamp_of (d : doc) (now : Z) : Z :=
  match dget "timestamp" d with Some (BDate n) => n | _ => now end.

Definition TLink (chat msg : Z) (thread : option Z) : text :=
  TBuild "message_link" [TInt chat; TInt msg; TOptInt thread].

Definition TOpt (o : option text) : text := match o with Some t => t | None => TNone end.

Section ban.
Context {CAT : Catalog} (cfg : config) (bot_username : string).

(** [users_cache.get_first_name] *)
Definition get_first_name (user_id : Z) (fallback : string) : io string :=
  data <- get_or_fetch "umention" (pretty.pretty user_id) (_fetch_mention_triple user_id) ;;
  match data with
  | BArr (BStr name :: _) => Ret name
  | BArr (_ :: _) => Ret fallback
  | BArr [] => Raise (OtherException "IndexError")
  | _ => Raise (OtherException "TypeError")
  end.

Definition appeal_url (ban_id : string) : text := TBuild "appeal_deep_link" [TStr bot_username; TStr ban_id].

(** The log card goes out only once the record is written. *)
Definition post_ban_log (log_text : text) (kb : markup) : io (Z * bool) :=
  let (logs_chat, logs_thread) := cfg_logs cfg in
  try_except (id <- call (SendMessage logs_chat log_text logs_thread kb) ;; Ret (id, true))
    (fun _ => Ret (0, true)).

Definition _execute_ban_update (existing : doc) (meta : ban_meta) (proof_msg_id : option Z)
    (proof_link prev_proof_link : option text) : io (Z * bool) :=
  let ban_id := dget_str "ban_id" existing "" in
  old_admin_id <- get_int "admin_user_id" existing (ban_admin_id meta) ;;
  old_proof_msg_id <- get_int "proof_message_id" existing 0 ;;
  old_log_msg_id <- get_int "log_message_id" existing 0 ;;
  let new_proof_msg_id := match proof_msg_id with
                          | Some p => if truthy_Z p then p else old_proof_msg_id
                          | None => old_proof_msg_id
                          end in
  old_admin_fname <- try_except (get_first_name old_admin_id "Admin") (fun _ => Ret "Admin"%string) ;;
  now <- call UtcNow ;;
  let log_text := TBuild "parse_logmsg.ban_update_log"
    [TInt (ban_target_id meta); TStr (ban_target_fname meta); TInt (ban_admin_id meta);
     TStr (ban_admin_fname meta); TInt old_admin_id; TStr old_admin_fname; TStr (ban_reason meta);
     TStr ban_id; TInt (timestamp_of existing now)] in
  let kb := match proof_link, prev_proof_link with
            | Some p, Some q => Some (TBuild "keyboards.ban_log_update" [TInt (ban_target_id meta); p; q; appeal_url ban_id])
            | Some p, None => Some (TBuild "keyboards.ban_log_new" [TInt (ban_target_id meta); p; appeal_url ban_id])
            | None, _ => None
            end in
  ok <- try_except
          (update_ban ban_id (ban_reason meta) (ban_admin_id meta) (BInt new_proof_msg_id) 0
             (BInt old_proof_msg_id) old_log_msg_id BNull None ;;; Ret true)
          (fun _ => Ret false) ;;
  if negb ok then Ret (0, false) else post_ban_log log_text kb.

Definition _execute_new_ban (meta : ban_meta) (proof_msg_id : option Z) (proof_link : option text)
    (now : Z) (ban_id : string) : io (Z * bool) :=
  let log_text := TBuild "parse_logmsg.ban_log"
    [TInt (ban_target_id meta); TStr (ban_target_fname meta); TInt (ban_admin_id meta);
     TStr (ban_admin_fname meta); TStr (ban_reason meta); TStr ban_id; TInt now] in
  let kb := match proof_link with
            | Some p => Some (TBuild "keyboards.ban_log_new" [TInt (ban_target_id meta); p; appeal_url ban_id])
            | None => None
            end in
  ok <- try_except
          (create_ban (ban_target_id meta) (ban_reason meta) (ban_admin_id meta)
             (match proof_msg_id with Some p => p | None => 0 end) 0 (Some ban_id) BNull None ;;; Ret true)
          (fun _ => Ret false) ;;
  if negb ok then Ret (0, false) else post_ban_log log_text kb.

(** [_execute_ban] up to the record and its log card: the ban id, the log
    message id and whether the record was written. *)
Definition ban_record (meta : ban_meta) (msgs : list proof_message) (now : Z) : io (string * Z * bool) :=
  let (proof_chat, proof_thread) := cfg_proofs cfg in
  let target_id := ban_target_id meta in
  let link := option_map (fun id => TLink proof_chat id proof_thread) in
  let truthy := fun o : option Z => match o with Some p => if truthy_Z p then Some p else None | None => None end in
  existing <- get_active_ban target_id ;;
  match existing with
  | Some existing =>
      let ban_id := dget_str "ban_id" existing "" in
      deactivate_extra_active_bans target_id
        (match dget "ban_id" existing with Some v => v | None => BStr "" end) ;;;
      let prev_proof_link := link (truthy (dget "proof_message_id" existing ≫= bint)) in
      let caption := TBuild "parse_logmsg.proof_caption_update"
        [TInt target_id; TInt (ban_admin_id meta); TStr (ban_admin_fname meta);
         TInt (timestamp_of existing now); TOpt prev_proof_link] in
      proof_msg_id <- upload_proof caption proof_chat proof_thread msgs ;;
      let! (log_msg_id, db_ok) :=
        _execute_ban_update existing meta proof_msg_id (link (truthy proof_msg_id)) prev_proof_link in
      Ret (ban_id, log_msg_id, db_ok)
  | None =>
      ban_id <- call MakeShortId ;;
      let caption := TBuild "parse_logmsg.proof_caption_new"
        [TInt target_id; TInt (ban_admin_id meta); TStr (ban_admin_fname meta); TInt now] in
      proof_msg_id <- upload_proof caption proof_chat proof_thread msgs ;;
      let! (log_msg_id, db_ok) :=
        _execute_new_ban meta proof_msg_id (link (truthy proof_msg_id)) now ban_id in
      Ret (ban_id, log_msg_id, db_ok)
  end.

Definition has_prompt (meta : ban_meta) : bool :=
  truthy_Z (ban_prompt_msg_id meta) && truthy_Z (ban_prompt_chat_id meta).

(** What runs beside the groups fetch: the record, then either the failure
    notice or the log id being attached. *)
Definition ban_foreground (meta : ban_meta) (msgs : list proof_message) (now : Z)
    : io (string * bool * result unit) :=
  let! (ban_id, log_msg_id, db_ok) := ban_record meta msgs now in
  if negb db_ok then
    (if has_prompt meta then
       safe_edit_message (ban_prompt_chat_id meta) (ban_prompt_msg_id meta)
         (TKey "banning.db_fail.body" (ban_locale meta)
            [("user"%string, TUser (ban_target_id meta) (ban_target_fname meta))]) None true
     else Ret tt) ;;;
    Ret (ban_id, false, Ok tt)
  else if truthy_Z log_msg_id then
    r <- attempt (set_log_message_id ban_id log_msg_id) ;;
    Ret (ban_id, true, r)
  else Ret (ban_id, true, Ok tt).

(** The outcome shown to the moderator and the notice to the banned user. *)
Definition ban_report (meta : ban_meta) (ban_id : string) (target_locale : ustr) (summary : text) : io unit :=
  let target_id := ban_target_id meta in
  let pm_text := TKey "banning.pm.body" target_locale
    [("community"%string, TStr (cfg_community_name cfg)); ("reason"%string, TStr (ban_reason meta))] in
  let pm_kb := Some (TBuild "keyboards.appeal_button_kb" [TStr bot_username; TStr ban_id]) in
  let upsert := upsert_user target_id None (ban_target_fname meta) None in
  let pm := call (SendMessage target_id pm_text None pm_kb) in
  if has_prompt meta then
    let chat := ban_prompt_chat_id meta in
    let! (edit_result, upsert_result, pm_result, markup_result) :=
      gather4 (call (EditMessageText chat (ban_prompt_msg_id meta) summary None)) upsert pm
              (call (EditMessageReplyMarkup chat (ban_prompt_msg_id meta) None)) in
    throw_if_cancelled [void edit_result; void upsert_result; void pm_result; void markup_result] ;;;
    match edit_result with
    | Err _ => try_except (call (SendMessage chat summary None None) ;;; Ret tt) (fun _ => Ret tt)
    | Ok _ => Ret tt
    end
  else
    let! (upsert_result, pm_result) := gather2 upsert pm in
    throw_if_cancelled [void upsert_result; void pm_result].

(** Enforcement in every group, and the summary of what applied. *)
Definition ban_enforce (meta : ban_meta) (groups : list doc) (groups_fetch_failed : bool) : io text :=
  let target_id := ban_target_id meta in
  redemote_before_fanout cfg target_id (ban_target_fname meta) (ban_admin_id meta) (ban_admin_fname meta) "ban" ;;;
  let groups := with_primary_groups groups [cfg_main_group cfg; cfg_exec_group cfg] [] in
  results <- fan_out (map (fun grp => call (BanChatMember (chat_of grp) target_id)) groups) ;;
  let transient_groups := groups_where (fun e => negb (is_benign_telegram_error e)) groups results in
  let failed := count_transient_errors results in
  let applied_line :=
    applied_summary (ban_locale meta) "banning.applied" (Z.of_nat (length groups)) failed transient_groups in
  let applied_line :=
    if groups_fetch_failed then TCat [applied_line; TKey "banning.applied.scope_warn" (ban_locale meta) []]
    else applied_line in
  Ret (TKey "banning.summary.body" (ban_locale meta)
         [("user"%string, TUser target_id (ban_target_fname meta)); ("reason"%string, TStr (ban_reason meta));
          ("applied"%string, applied_line)]).

Definition _execute_ban (msgs : list proof_message) (meta : ban_meta) : io unit :=
  target_locale <- locale_for_user (ban_target_id meta) ;;
  now <- call UtcNow ;;
  let! (groups, fg) := gather2 active_groups (ban_foreground meta msgs now) in
  let! (ban_id, db_ok, set_log_result) := of_result fg in
  if negb db_ok then
    match groups with Err CancelledError => Raise CancelledError | _ => Ret tt end
  else
    throw_if_cancelled [set_log_result; void groups] ;;;
    let groups_fetch_failed := is_err groups in
    summary <- ban_enforce meta (ok_or [] groups) groups_fetch_failed ;;
    ban_report meta ban_id target_locale summary.
End ban.

(** * The record comes first *)

(** Enforcement, and any message sent to a chat. *)
Definition obs_act (o : obs eff) : bool :=
  obs_enforce o || match o with Obs ev _ => match ev with SendMessage _ _ _ _ => true | _ => false end end.

Definition ok_true {A} (r : result (A * bool)) : bool := match r with Ok (_, b) => b | Err _ => false end.

Lemma cache_obs_act c k o : cache_obs c k o = true -> obs_act o = false.
Proof. destruct o as [X ev r]; by destruct ev. Qed.

Lemma upload_docs_never cap c th idx docs first : never obs_act (upload_docs cap c th idx docs first).
Proof.
  revert idx first. induction docs as [|d docs IH]; intros idx first; cbn [upload_docs]; unfold send_single;
    never_auto; auto.
Qed.

Lemma upload_proof_never cap c th msgs : never obs_act (upload_proof cap c th msgs).
Proof.
  unfold upload_proof, upload_gallery, send_single. pose proof upload_docs_never. never_auto; auto.
Qed.

Lemma upload_never_enforce cap c th msgs : never obs_enforce (upload_proof cap c th msgs).
Proof.
  apply (never_weaken _ obs_act); [apply upload_proof_never|]. intros o Ho. unfold obs_act in Ho.
  by apply orb_false_iff in Ho as [? _].
Qed.

(** The proof upload an executor may start with bans nobody. *)
Lemma upload_choice_never (c : Z -> text) pc pt (msgs : list proof_message) :
  wp (match msgs with
      | [] => Ret (Ret None)
      | _ => now <- call UtcNow ;; Ret (upload_proof (c now) pc pt msgs)
      end : io (io (option Z)))
     (fun t r => Forall (fun o => obs_enforce o = false) t /\
                 match r with Ok up => never obs_enforce up | Err _ => True end).
Proof.
  destruct msgs; wp_auto; repeat (split || constructor || done); try apply upload_never_enforce.
  apply never_ret.
Qed.
Lemma active_groups_never : never obs_act active_groups.
Proof. by apply groups_never; [intros c k [X [] r]|]. Qed.

Lemma active_groups_never_enforce : never obs_enforce active_groups.
Proof. by apply groups_never; [intros c k [X [] r]|]. Qed.

(** How the ban came on record: a new record, or the update of the active
    one the flow had read. *)
Inductive ban_write :=
  | Inserted
  | Updated (existing : doc).

Definition active_ban_query (target : Z) : doc := ["banned_user_id" ~> BInt target; "is_active" ~> BBool true].

(** The read of the target's active ban came back, with what [w] says. *)
Definition found (target : Z) (w : ban_write) (t : trace eff) : Prop :=
  In (Obs (FindOne "bans" (active_ban_query target) by_time_desc)
          (Ok match w with Inserted => None | Updated existing => Some existing end)) t.

(** The write itself, answered without an error: an active record that names
    the target, or the update addressed to the record that was read. *)
Definition obs_written (target : Z) (w : ban_write) (o : obs eff) : bool :=
  match o with
  | Obs ev r =>
      match ev, w with
      | InsertOne "bans" d, Inserted =>
          negb (is_err r) &&
          match dget "banned_user_id" d, dget "is_active" d with
          | Some (BInt u), Some (BBool true) => u =? target
          | _, _ => false
          end
      | FindOneAndUpdate "bans" filter _ _, Updated existing =>
          negb (is_err r) &&
          match filter with
          | [("ban_id", BStr b)] => String.eqb b (dget_str "ban_id" existing "")
          | _ => false
          end
      | _, _ => false
      end
  end.

(** The notice that the record could not be written. *)
Definition is_failure_notice (t : text) : bool :=
  match t with TKey "banning.db_fail.body" _ _ => true | _ => false end.

(** Enforcement, and whatever anyone gets to read about the ban: messages,
    edits other than the failure notice, and media outside the channel that
    keeps the proofs. *)
Definition obs_public (cfg : config) (o : obs eff) : bool :=
  obs_enforce o ||
  match o with
  | Obs ev _ =>
      match ev with
      | SendMessage _ _ _ _ => true
      | EditMessageText _ _ t _ => negb (is_failure_notice t)
      | SendMedia chat _ _ _ _ | SendMediaGroup chat _ _ | ForwardMessage _ _ chat _ =>
          negb (chat =? (cfg_proofs cfg).1)
      | _ => false
      end
  end.

(** Nothing public so far, or only after the record named by the read; an
    outcome satisfying [P] means it is there. *)
Definition rests (cfg : config) (target : Z) {A} (P : result A -> bool) (p : io A) : Prop :=
  wp p (fun t r =>
    (Forall (fun o => obs_public cfg o = false) t /\ P r = false) \/
    exists w, found target w t /\ guarded (obs_written target w) (obs_public cfg) t = true /\
              (P r = true -> existsb (obs_written target w) t = true)).

Section rests.
Context (cfg : config) (target : Z).

Lemma rests_never {A} (P : result A -> bool) (p : io A) :
  never (obs_public cfg) p -> (forall t r, exec p t r -> P r = false) -> rests cfg target P p.
Proof. intros Hp HP. apply wp_intro. intros t r Hr. left. split; [by eapply never_elim|by eapply HP]. Qed.

Lemma rests_after {A B} (P : result B -> bool) (p : io A) (k : A -> io B) :
  never (obs_public cfg) p -> (forall a, rests cfg target P (k a)) -> (forall e, P (Err e) = false) ->
  rests cfg target P (bind p k).
Proof.
  intros Hp Hk He. apply wp_bind. eapply wp_mono; [exact Hp|]. intros t [a|e] Ht; [|by left].
  eapply wp_mono; [apply Hk|]. intros t' r [[Ht' HP]|(w & Hf & Hg & HP)]; [left|right; exists w].
  - split; [by apply Forall_app|done].
  - unfold found in *. rewrite in_app_iff, guarded_app, existsb_app, Hg, (guarded_none _ _ t Ht), orb_true_r.
    split; [by right|]. split; [done|]. intros Hr. by rewrite (HP Hr), orb_true_r.
Qed.

(** What follows an outcome without a record stays silent. *)
Lemma rests_then {A B} (P : result A -> bool) (P' : result B -> bool) (p : io A) (k : A -> io B) :
  rests cfg target P p ->
  (forall a, P (Ok a) = false -> wp (k a) (fun t r => Forall (fun o => obs_public cfg o = false) t /\ P' r = false)) ->
  (forall e, P' (Err e) = false) -> rests cfg target P' (bind p k).
Proof.
  intros Hp Hk He. apply wp_bind. eapply wp_mono; [exact Hp|]. intros t [a|e] Ht.
  - destruct (P (Ok a)) eqn:HP.
    + destruct Ht as [[_ [=]]|(w & Hf & Hg & Hw)]. apply wp_intro. intros t' r _. right. exists w.
      unfold found in *. rewrite in_app_iff, guarded_app, existsb_app, Hg, (Hw eq_refl). by split; [left|].
    + eapply wp_mono; [by apply Hk|]. intros t' r [Ht' Hr]. rewrite Hr.
      destruct Ht as [[Ht _]|(w & Hf & Hg & _)]; [left; split; [by apply Forall_app|done]|right; exists w].
      unfold found in *. rewrite in_app_iff, guarded_app, Hg, (guarded_none _ _ t' Ht'), orb_true_r. by split; [left|].
  - rewrite He. destruct Ht as [[Ht _]|(w & Hf & Hg & _)]; [by left|right; by exists w].
Qed.

Lemma rests_gather2 {A B} (P : result B -> bool) (p : io A) (q : io B) :
  never (obs_public cfg) p -> rests cfg target P q ->
  rests cfg target (fun r => match r with Ok (_, rb) => P rb | Err _ => false end) (gather2 p q).
Proof.
  intros Hp Hq. eapply wp_gather2; [exact Hp|exact Hq|]. intros t1 t2 t r1 r2 H1 H2 Hi.
  destruct H2 as [[H2 Hr]|(w & Hf & Hg & Hr)].
  { assert (Forall (fun o => obs_public cfg o = false) t) by (apply (interleave_Forall _ _ _ _ Hi); done).
    split; by left. }
  assert (found target w t) by (apply (interleave_In _ _ _ _ Hi); by right).
  assert (guarded (obs_written target w) (obs_public cfg) t = true).
  { eapply guarded_interleave; [|exact Hg|exact H1]. by apply interleave_sym. }
  split; right; exists w; split; try done; split; try done. intros HP.
  by rewrite (interleave_existsb _ _ _ _ Hi), (Hr HP), orb_true_r.
Qed.

(** The read of the active ban decides which write is waited for. *)
Lemma rests_found {B} (P : result B -> bool) (k : option doc -> io B) :
  (forall existing, waits (obs_written target (match existing with Some d => Updated d | None => Inserted end))
                          (obs_public cfg) P (k existing)) ->
  (forall e, P (Err e) = false) -> rests cfg target P (bind (get_active_ban target) k).
Proof.
  intros Hk He. apply wp_bind, wp_call. intros [existing|e] _; cbn [of_result].
  - eapply wp_mono; [apply Hk|]. intros t r [Hg HP]. right.
    exists (match existing with Some d => Updated d | None => Inserted end). split.
    + left. by destruct existing.
    + by destruct existing.
  - left. rewrite He. split; [by repeat constructor|done].
Qed.
End rests.

Section ban_lemmas.
Context {CAT : Catalog} (cfg : config) (bot_username : string).

Lemma public_cache c k o : cache_obs c k o = true -> obs_public cfg o = false.
Proof. destruct o as [X ev r]; by destruct ev. Qed.

(** The proofs go to their channel alone. *)
Lemma upload_docs_private cap th idx docs first :
  never (obs_public cfg) (upload_docs cap (cfg_proofs cfg).1 th idx docs first).
Proof.
  revert idx first. induction docs as [|d docs IH]; intros idx first; cbn [upload_docs]; unfold send_single;
    [never_auto|].
  apply never_bind; [apply never_attempt, never_call; intros r; unfold obs_public; simpl; by rewrite Z.eqb_refl|].
  intros [id|e]; [apply IH|]. destruct (is_Exception e); [apply IH|apply never_raise].
Qed.

Lemma upload_proof_private cap th msgs : never (obs_public cfg) (upload_proof cap (cfg_proofs cfg).1 th msgs).
Proof.
  assert (forall k f c, never (obs_public cfg) (send_single (cfg_proofs cfg).1 th k f c)) as Hs.
  { intros k f c. apply never_call. intros r. unfold obs_public. simpl. by rewrite Z.eqb_refl. }
  assert (forall media, never (obs_public cfg) (call (SendMediaGroup (cfg_proofs cfg).1 media th))) as Hg.
  { intros media. apply never_call. intros r. unfold obs_public. simpl. by rewrite Z.eqb_refl. }
  unfold upload_proof, upload_gallery. pose proof upload_docs_private. never_auto; auto.
Qed.

Lemma edit_with_private chat mid l ps kb :
  never (obs_public cfg) (safe_edit_message chat mid (TKey "banning.db_fail.body" l ps) kb true).
Proof. unfold safe_edit_message, edit_with. never_auto. Qed.

Lemma groups_private : never (obs_public cfg) active_groups.
Proof. by apply groups_never; [intros c k [X [] r]|]. Qed.

Section target.
Context (target : Z).

Lemma update_ban_waits existing bid reason aid p l op ol ud ds :
  bid = dget_str "ban_id" existing "" ->
  waits (obs_written target (Updated existing)) (obs_public cfg) (fun r => match r with Ok b => b | Err _ => false end)
    (try_except (update_ban bid reason aid p l op ol ud ds ;;; Ret true) (fun _ => Ret false)).
Proof.
  intros ->. unfold waits, update_ban, db_call. wp_auto; try done. simpl.
  by rewrite String.eqb_refl.
Qed.

Lemma create_ban_waits reason aid p l bid ud ds :
  waits (obs_written target Inserted) (obs_public cfg) (fun r => match r with Ok b => b | Err _ => false end)
    (try_except (create_ban target reason aid p l (Some bid) ud ds ;;; Ret true) (fun _ => Ret false)).
Proof.
  unfold waits, create_ban, db_call. wp_auto; try done. all: simpl; by rewrite Z.eqb_refl.
Qed.
End target.

Lemma execute_update_waits existing meta pid pl ppl :
  waits (obs_written (ban_target_id meta) (Updated existing)) (obs_public cfg) ok_true
    (_execute_ban_update cfg bot_username existing meta pid pl ppl).
Proof.
  unfold _execute_ban_update, get_int. cbv zeta.
  do 3 (apply waits_after; [never_auto|intros ?|done]).
  apply waits_after; [|intros ?|done].
  { unfold get_first_name, _fetch_mention_triple, db_call. never_auto.
    apply get_or_fetch_never; [apply public_cache|]. never_auto. }
  apply waits_after; [never_auto|intros ?|done].
  eapply waits_then; [by apply update_ban_waits| |done]. intros b ->. cbn [negb].
  apply waits_never; [never_auto|]. by intros t r [-> ->].
Qed.

Lemma execute_new_waits meta pid pl now bid :
  waits (obs_written (ban_target_id meta) Inserted) (obs_public cfg) ok_true
    (_execute_new_ban cfg bot_username meta pid pl now bid).
Proof.
  unfold _execute_new_ban. cbv zeta.
  eapply waits_then; [apply create_ban_waits| |done]. intros b ->. cbn [negb].
  apply waits_never; [never_auto|]. by intros t r [-> ->].
Qed.

Lemma ban_record_rests meta msgs now :
  rests cfg (ban_target_id meta) ok_true (ban_record cfg bot_username meta msgs now).
Proof.
  unfold ban_record. pose proof upload_proof_private as Hup. destruct (cfg_proofs cfg) as [pc pt]. cbv zeta.
  apply rests_found; [|done]. intros [existing|].
  - apply waits_after; [unfold deactivate_extra_active_bans, db_call; never_auto|intros _|done].
    apply waits_after; [apply Hup|intros ?|done].
    eapply waits_then; [apply execute_update_waits| |done].
    intros [lid ok] Hok. simpl in Hok. subst. apply waits_never; [never_auto|]. by intros t r [-> ->].
  - apply waits_after; [never_auto|intros bid|done].
    apply waits_after; [apply Hup|intros ?|done].
    eapply waits_then; [apply execute_new_waits| |done].
    intros [lid ok] Hok. simpl in Hok. subst. apply waits_never; [never_auto|]. by intros t r [-> ->].
Qed.

Definition fg_recorded (r : result (string * bool * result unit)) : bool :=
  match r with Ok (_, b, _) => b | Err _ => false end.

Lemma ban_foreground_rests meta msgs now :
  rests cfg (ban_target_id meta) fg_recorded (ban_foreground cfg bot_username meta msgs now).
Proof.
  unfold ban_foreground. eapply rests_then; [apply ban_record_rests| |done].
  intros [[bid lid] ok] Hok. simpl in Hok. subst. cbn [negb].
  apply wp_bind.
  assert (never (obs_public cfg) (if has_prompt meta
            then safe_edit_message (ban_prompt_chat_id meta) (ban_prompt_msg_id meta)
                   (TKey "banning.db_fail.body" (ban_locale meta)
                      [("user"%string, TUser (ban_target_id meta) (ban_target_fname meta))]) None true
            else Ret tt)) as Hn;
    [destruct (has_prompt meta); [apply edit_with_private|apply never_ret]|].
  eapply wp_mono; [exact Hn|].
  intros t [a|e] Ht; [|done]. apply wp_ret. by rewrite app_nil_r.
Qed.
End ban_lemmas.

(** C2: nobody is banned, and nothing is announced, before the ban of that
    user is on record.  In every execution of the ban flow, whatever the
    database, the caches and Telegram answer and however the group fetch
    interleaves with the rest: either no chat is touched and nobody is told
    anything (the failure notice apart), or the target's active ban was read
    and before the first enforcement, message or announcing edit the matching
    write was answered without an error - when there was no active ban, the
    insertion of an active record naming the target; when there was one, the
    update addressed to the id of the record that was read.  Proof media sent
    earlier go to the proofs channel alone.  An update that finds its record
    gone is answered without an error and counts as written
    ([vanished_record_enforces]). *)
Theorem ban_record_first {CAT : Catalog} (cfg : config) (bot_username : string)
    (msgs : list proof_message) (meta : ban_meta) (t : trace eff) (r : result unit)
    (Hrun : exec (_execute_ban cfg bot_username msgs meta) t r) :
  Forall (fun o => obs_public cfg o = false) t \/
  exists w : ban_write,
    found (ban_target_id meta) w t /\
    guarded (obs_written (ban_target_id meta) w) (obs_public cfg) t = true.
Proof.
  assert (rests cfg (ban_target_id meta) (fun _ => false) (_execute_ban cfg bot_username msgs meta)) as Hw.
  2: { destruct (wp_elim _ _ _ _ Hw Hrun) as [[Ht _]|(w & Hf & Hg & _)]; [by left|right; by exists w]. }
  unfold _execute_ban.
  apply rests_after; [apply locale_for_user_never; by intros [X [] r']|intros tl|done].
  apply rests_after; [never_auto|intros now|done].
  eapply rests_then; [apply rests_gather2; [apply groups_private|apply ban_foreground_rests]| |done].
  intros [groups fg] Hfg. cbn beta iota in Hfg.
  destruct fg as [[[bid ok] slr]|e]; cbn [of_result].
  - simpl in Hfg. subst. rewrite bind_ret. cbn beta iota. cbn [negb].
    destruct groups as [g|[]]; (apply wp_ret || apply wp_raise); by split.
  - rewrite bind_raise. apply wp_raise. by split.
Qed.

Definition demo_meta : ban_meta := BanMeta 9 "x" DEFAULT_LOCALE "spam" 7 "boss" 0 0.

Lemma ban_record_first_witness :
  let p := @_execute_ban demo_catalog demo_config "tcbot" [] demo_meta in
  existsb (obs_public demo_config) (replay no_script p).1 = true /\
  exists w : ban_write, found 9 w (replay no_script p).1 /\
    guarded (obs_written 9 w) (obs_public demo_config) (replay no_script p).1 = true.
Proof.
  intros p. assert (existsb (obs_public demo_config) (replay no_script p).1 = true) as Hp by (vm_compute; reflexivity).
  split; [exact Hp|].
  destruct (@ban_record_first demo_catalog demo_config "tcbot" [] demo_meta _ _ (replay_exec no_script p)) as [Hf|H];
    [|exact H].
  exfalso. apply existsb_exists in Hp as (o & Ho & Hp). rewrite Forall_forall in Hf.
  rewrite (Hf o) in Hp; [discriminate|by apply list_elem_of_In].
Defined.

(** A failed write leaves every group untouched and tells nobody. *)
Example failed_write_is_silent :
  let down : script := fun X ev => match ev in eff X return option (result X) with
    | InsertOne _ _ => Some (Err TimeoutError) | _ => None end in
  existsb (obs_public demo_config) (replay down (@_execute_ban demo_catalog demo_config "tcbot" [] demo_meta)).1 = false.
Proof. vm_compute. reflexivity. Qed.

(** A record that disappears between its read and its update: the update
    finds nothing, its empty answer is not looked at, and the ban is enforced
    with no record behind it. *)
Example vanished_record_enforces :
  let gone : script := fun X ev => match ev in eff X return option (result X) with
    | FindOne "bans" _ _ =>
        Some (Ok (Some ["ban_id" ~> BStr "AA11BB22CC"; "banned_user_id" ~> BInt 9; "is_active" ~> BBool true]))
    | FindOneAndUpdate _ _ _ _ => Some (Ok None)
    | _ => None end in
  let t := (replay gone (@_execute_ban demo_catalog demo_config "tcbot" [] demo_meta)).1 in
  existsb obs_enforce t = true /\
  existsb (fun o => match o with Obs (InsertOne _ _) _ => true | _ => false end) t = false.
Proof. vm_compute. by split. Qed.
