(* ===== verification/WarnFlow.v ===== *)
(** The warn executor and its automatic ban: [warning_flow/issue.py] and
    [warning_flow/autoban.py] under [tcbot/modules/helper/workflows]. *)

From S2P Require Import Prelude Prog Text World I18n Dispatch Cache Locale Roles Replies Auth Records Warns ProofUpload DemoteFlow BanFlow.

Inductive ban_trigger : Type := per_group | fed_global.

Section warn.
Context {CAT : Catalog} (cfg : config).

(** The arguments [execute_warn] hands over. *)
Record warning := Warning {
  w_msg : message;
  w_target_id : Z;
  w_target_name : string;
  w_admin_id : Z;
  w_admin_fname : string;
  w_reason : string;
  w_chat_id : Z;
  w_chat_title : string
}.

Definition w_user (w : warning) : string * text := ("user"%string, TUser (w_target_id w) (w_target_name w)).

(** What the members of the conversation see of a threshold ban. *)
Definition autoban_notice (w : warning) (trigger : ban_trigger) (ok : bool) (warn_limit fed_count : Z)
    (locale : ustr) : text :=
  match trigger with
  | per_group =>
      TKey (if ok then "warnings.autoban.notice_per_group" else "warnings.autoban.fail_per_group") locale
        [w_user w; ("limit"%string, TInt warn_limit)]
  | fed_global =>
      TKey (if ok then "warnings.autoban.notice_fed" else "warnings.autoban.fail_fed") locale
        [w_user w; ("fed"%string, TInt fed_count); ("fedlimit"%string, TInt (cfg_fed_warn_limit cfg))]
  end.

(** Holders of a role are demoted instead of banned. *)
Definition exempt_staff (w : warning) (target_role : bson) (proof_kb : markup) (locale : ustr) : io unit :=
  demoted <- try_except
    (execute cfg (w_target_id w) (w_target_name w) target_role (w_admin_id w) (w_admin_fname w)
       (Some "ban"%string) ;;; Ret true)
    (fun _ => Ret false) ;;
  safe_reply_kb (w_msg w)
    (TKey (if demoted : bool then "warnings.exempt.demoted" else "warnings.exempt.failed") locale
       [w_user w; ("role"%string, TStr (role_str target_role))]) proof_kb.

(** The fan-out and its report; warnings are cleared once it applied. *)
Definition autoban_enforce (w : warning) (groups : list doc) (groups_fetch_failed : bool)
    (trigger : ban_trigger) (warn_limit fed_count : Z) (proof_kb : markup) (locale : ustr) : io unit :=
  let target_id := w_target_id w in
  ban_results <- fan_out (map (fun grp => call (BanChatMember (chat_of grp) target_id)) groups) ;;
  let total_groups := Z.of_nat (length groups) in
  let transient_groups := groups_where (fun e => negb (is_benign_telegram_error e)) groups ban_results in
  let failed := count_transient_errors ban_results in
  let applied := total_groups - failed in
  let any_ban_ok := 0 <? applied in
  let applied_line := applied_summary locale "warnings.autoban" total_groups failed transient_groups in
  let applied_line :=
    if groups_fetch_failed then TCat [applied_line; TKey "warnings.autoban.scope_warn" locale []]
    else applied_line in
  let notice := TCat [autoban_notice w trigger any_ban_ok warn_limit fed_count locale; applied_line] in
  if any_ban_ok then
    gather2 (clear_all_warns target_id) (call (ReplyText (message_id (w_msg w)) notice proof_kb)) ;;; Ret tt
  else safe_reply_kb (w_msg w) notice proof_kb.

Definition _execute_warn_auto_ban (w : warning) (warn_limit fed_count : Z) (trigger : ban_trigger)
    (proof_kb : markup) (log_text : text) (locale : ustr) (proof_msg_id : option Z) : io unit :=
  let (lc, lt) := cfg_logs cfg in
  let target_id := w_target_id w in
  target_role <- attempt (get_effective_role target_id) ;;
  match target_role with
  | Err e =>
      if is_Exception e then safe_reply (w_msg w) (TKey "common.err.db_retry" locale []) else Raise e
  | Ok target_role =>
      if truthy_role target_role then exempt_staff w target_role proof_kb locale
      else
        let! (groups_result, existing_ban) := gather2 active_groups (get_active_ban target_id) in
        throw_if_cancelled [void groups_result; void existing_ban] ;;;
        let groups_fetch_failed := is_err groups_result in
        let already_banned := match existing_ban with Ok (Some _) => true | _ => false end in
        let groups := with_primary_groups (ok_or [] groups_result)
                        [cfg_main_group cfg; cfg_exec_group cfg] [w_chat_id w] in
        ban_id <- (if already_banned then Ret (Some None)
                   else try_except
                     (ban_doc <- create_ban target_id (w_reason w) (w_admin_id w)
                        (match proof_msg_id with Some p => p | None => 0 end) 0 None BNull None ;;
                      Ret (Some (Some (dget_str "ban_id" ban_doc ""))))
                     (fun _ => Ret None)) ;;
        match ban_id with
        | None => safe_reply_kb (w_msg w) (TKey "warnings.autoban.db_fail" locale [w_user w]) proof_kb
        | Some ban_id =>
            log_msg <- try_except (id <- call (SendMessage lc log_text lt proof_kb) ;; Ret (Some id))
                         (fun _ => Ret None) ;;
            match ban_id, log_msg with
            | Some ban_id, Some id =>
                if truthy_str ban_id then
                  try_except (set_log_message_id ban_id id) (fun _ => Ret tt)
                else Ret tt
            | _, _ => Ret tt
            end ;;;
            autoban_enforce w groups groups_fetch_failed trigger warn_limit fed_count proof_kb locale
        end
  end.

(** The thresholds: [None] is a plain warning; [Some None] a failed
    federation count, reported as such. *)
Definition warn_trigger (w : warning) (count : Z) : io (option (option (ban_trigger * Z))) :=
  if cfg_warn_limit cfg <=? count then Ret (Some (Some (per_group, 0)))
  else if 0 <? cfg_fed_warn_limit cfg then
    fed_count <- try_except (n <- federation_warn_count (w_target_id w) ;; Ret (Some n)) (fun _ => Ret None) ;;
    Ret match fed_count with
        | None => Some None
        | Some n => if cfg_fed_warn_limit cfg <=? n then Some (Some (fed_global, n)) else None
        end
  else Ret None.

Definition issued_args (w : warning) (count : Z) : list (string * text) :=
  [w_user w; ("count"%string, TInt count); ("limit"%string, TInt (cfg_warn_limit cfg));
   ("reason"%string, TStr (w_reason w))].

(** [execute_warn] once the warning is counted and its proof uploaded. *)
Definition conclude_warn (w : warning) (locale : ustr) (count : Z) (warn_proof_id : option Z) : io unit :=
  let (pc, pt) := cfg_proofs cfg in
  let (lc, lt) := cfg_logs cfg in
  let target_id := w_target_id w in
  let proof_link := match warn_proof_id with
                    | Some p => if truthy_Z p then Some (TLink pc p pt) else None
                    | None => None
                    end in
  let proof_kb := Some (TBuild "keyboards.action_proof_kb" [TInt target_id; TOpt proof_link]) in
  let log_text := TBuild "parse_logmsg.warn_log"
    [TInt target_id; TStr (w_target_name w); TInt (w_admin_id w); TStr (w_admin_fname w);
     TStr (w_reason w); TInt count; TInt (cfg_warn_limit cfg); TInt (w_chat_id w); TStr (w_chat_title w)] in
  trigger <- warn_trigger w count ;;
  match trigger with
  | Some None =>
      safe_reply_kb (w_msg w) (TKey "warnings.fed_fail.body" locale (issued_args w count)) proof_kb
  | Some (Some (trigger, fed_count)) =>
      _execute_warn_auto_ban w (cfg_warn_limit cfg) fed_count trigger proof_kb log_text locale
        warn_proof_id
  | None =>
      let! (r1, r2) :=
        gather2 (call (SendMessage lc log_text lt proof_kb))
          (call (ReplyText (message_id (w_msg w))
             (TKey "warnings.issued.body" locale (issued_args w count)) proof_kb)) in
      throw_if_cancelled [void r1; void r2]
  end.

Definition execute_warn (upd : update) (w : warning) (proof_msgs : list proof_message) : io unit :=
  match effective_message upd, effective_chat upd, effective_user upd with
  | Some _, Some _, Some _ =>
      let (pc, pt) := cfg_proofs cfg in
      let target_id := w_target_id w in
      locale <- locale_for_update upd ;;
      upload <- (match proof_msgs with
                 | [] => Ret (Ret None)
                 | _ =>
                     now <- call UtcNow ;;
                     let caption := TBuild "parse_logmsg.proof_caption_new"
                       [TInt target_id; TInt (w_admin_id w); TStr (w_admin_fname w); TInt now] in
                     Ret (upload_proof caption pc pt proof_msgs)
                 end) ;;
      let! (count, proof) :=
        gather2 (add_warn target_id (w_reason w) (w_admin_id w) (w_chat_id w)) (upload : io (option Z)) in
      match count with
      | Err e =>
          if is_Exception e then safe_reply (w_msg w) (TKey "common.err.db_retry" locale []) else Raise e
      | Ok count =>
          warn_proof_id <- match proof with
                           | Ok p => Ret p
                           | Err e => if is_Exception e then Ret None else Raise e
                           end ;;
          conclude_warn w locale count warn_proof_id
      end
  | _, _, _ => Ret tt
  end.
End warn.

(** * Properties *)

(** A ban record of somebody exists: it was just written, or just read. *)
Definition obs_ban_known (o : obs eff) : bool :=
  match o with
  | Obs ev r =>
      match ev in eff X return result X -> bool with
      | InsertOne "bans" _ => fun r => negb (is_err r)
      | FindOne "bans" _ _ => fun r => match r with Ok (Some _) => true | _ => false end
      | _ => fun _ => false
      end r
  end.

(** What justifies an automatic ban in a run: it starts with calls that ban
    nobody, among them the whole recording of the warning, whose count is at
    the group's limit, or is followed by a federation count at the federation's. *)
Definition threshold_evidence (cfg : config) (w : warning) (t : trace eff) : Prop :=
  exists t0 ta tu t12 tf rest count,
    t = t0 ++ t12 ++ tf ++ rest /\ interleave ta tu t12 /\
    Forall (fun o => obs_enforce o = false) (t0 ++ t12 ++ tf) /\
    exec (add_warn (w_target_id w) (w_reason w) (w_admin_id w) (w_chat_id w)) ta (Ok count) /\
    (cfg_warn_limit cfg <= count \/
     0 < cfg_fed_warn_limit cfg /\
     exists n, exec (federation_warn_count (w_target_id w)) tf (Ok n) /\ cfg_fed_warn_limit cfg <= n).

Definition justified (cfg : config) (w : warning) (t : trace eff) : Prop :=
  existsb obs_enforce t = true -> threshold_evidence cfg w t.

Section warn_lemmas.
Context {CAT : Catalog} (cfg : config).

Lemma exempt_staff_never w role kb locale : never obs_enforce (exempt_staff cfg w role kb locale).
Proof.
  unfold exempt_staff. pose proof execute_never_enforce. pose proof (fun m t k => reply_kb_never obs_enforce m t k talk_enforce). never_auto; auto.
Qed.

Lemma get_active_ban_waits uid :
  waits obs_ban_known obs_enforce (fun r => match r with Ok (Some _) => true | _ => false end)
    (get_active_ban uid).
Proof.
  unfold waits, get_active_ban, db_call. wp_step. split; [|destruct x as [[d|]|e]; done].
  by destruct x as [[d|]|e].
Qed.

Lemma autoban_create_waits w pid :
  waits obs_ban_known obs_enforce (fun r => match r with Ok (Some _) => true | _ => false end)
    (try_except
       (ban_doc <- create_ban (w_target_id w) (w_reason w) (w_admin_id w) pid 0 None BNull None ;;
        Ret (Some (Some (dget_str "ban_id" ban_doc ""))))
       (fun _ => Ret None)).
Proof. unfold waits, create_ban, db_call. wp_auto; by split. Qed.

Lemma autoban_waits w wl fc tr kb txt locale pid :
  waits obs_ban_known obs_enforce (fun _ => false)
    (_execute_warn_auto_ban cfg w wl fc tr kb txt locale pid).
Proof.
  unfold _execute_warn_auto_ban. destruct (cfg_logs cfg) as [lc lt]. cbv zeta.
  apply waits_after; [|intros role|done].
  { never_auto. apply get_effective_role_never, passive_enforce_false. }
  destruct role as [role|e].
  2: { apply waits_never; [|done]. pose proof (fun m t => reply_never obs_enforce m t talk_enforce). never_auto; auto. }
  destruct (truthy_role role); [apply waits_never; [apply exempt_staff_never|done]|].
  eapply waits_then; [apply waits_gather2; [apply active_groups_never_enforce|apply get_active_ban_waits]| |done].
  intros [groups existing] Hex. cbn beta iota in Hex |- *.
  apply waits_after; [apply throw_never|intros _|done].
  assert (match existing with Ok (Some _) => true | _ => false end = false) as -> by done.
  eapply waits_then; [apply autoban_create_waits| |done]. intros [bid|] Hbid; [done|].
  apply waits_never; [apply reply_kb_never, talk_enforce|done].
Qed.

Lemma warn_trigger_spec w count :
  wp (warn_trigger cfg w count) (fun t r =>
    Forall (fun o => obs_enforce o = false) t /\
    forall tr fc, r = Ok (Some (Some (tr, fc))) ->
      (cfg_warn_limit cfg <= count \/
       0 < cfg_fed_warn_limit cfg /\
       exists n, exec (federation_warn_count (w_target_id w)) t (Ok n) /\ cfg_fed_warn_limit cfg <= n)).
Proof.
  unfold warn_trigger. destruct (cfg_warn_limit cfg <=? count) eqn:Hw.
  { apply wp_ret. split; [constructor|]. intros. to_prop. by left. }
  destruct (0 <? cfg_fed_warn_limit cfg) eqn:Hf; [|apply wp_ret; split; [constructor|done]].
  apply wp_bind, wp_try, wp_bind, wp_intro. intros t r Hr.
  assert (Forall (fun o => obs_enforce o = false) t) as Hn.
  { refine (never_elim _ _ _ _ _ Hr). unfold federation_warn_count, db_call. never_auto. }
  destruct r as [n|e].
  - apply wp_ret, wp_ret. rewrite !app_nil_r. split; [done|]. intros tr fc [= Hn'].
    destruct (cfg_fed_warn_limit cfg <=? n) eqn:Hl; [|done]. to_prop. right. eauto.
  - destruct (is_Exception e); [|done]. apply wp_ret, wp_ret. rewrite !app_nil_r. done.
Qed.

Lemma add_warn_never uid reason aid cid : never obs_enforce (add_warn uid reason aid cid).
Proof.
  unfold add_warn, _inc_warn_count, inc_loop, _sync_warn_count, db_call. never_auto.
Qed.

End warn_lemmas.

(** C3: staff are never banned by warnings, and no warning ban lacks its
    record.  If the automatic ban changed anybody's rights in any chat, then a
    successful lookup first showed the target holds no federation role, and a
    ban record of the target had by then been written or found active.  A role
    lookup or a record write that fails leaves every chat untouched. *)
Theorem autoban_spares_staff {CAT : Catalog} (cfg : config) (w : warning) (warn_limit fed_count : Z)
    (trigger : ban_trigger) (proof_kb : markup) (log_text : text) (locale : ustr)
    (proof_msg_id : option Z) (t : trace eff) (r : result unit)
    (Hrun : exec (_execute_warn_auto_ban cfg w warn_limit fed_count trigger proof_kb log_text locale
                    proof_msg_id) t r) :
  guarded obs_ban_known obs_enforce t = true /\
  (existsb obs_enforce t = true ->
   exists t1 t2 role, t = t1 ++ t2 /\ passive t1 /\
     exec (get_effective_role (w_target_id w)) t1 (Ok role) /\ truthy_role role = false).
Proof.
  split; [exact (proj1 (wp_elim _ _ _ _ (autoban_waits cfg w warn_limit fed_count trigger proof_kb
            log_text locale proof_msg_id) Hrun))|].
  revert t r Hrun. refine (wp_elim' _ _ _). unfold _execute_warn_auto_ban.
  destruct (cfg_logs cfg) as [lc lt]. cbv zeta.
  apply wp_bind, wp_attempt, wp_intro. intros t1 role Hrole.
  pose proof (wp_elim _ _ _ _ (get_effective_role_passive _) Hrole) as Hp.
  assert (forall p : io unit, never obs_enforce p -> wp p (fun t2 r => existsb obs_enforce (t1 ++ t2) = true ->
     exists ta tb role, t1 ++ t2 = ta ++ tb /\ passive ta /\
       exec (get_effective_role (w_target_id w)) ta (Ok role) /\ truthy_role role = false)) as Hskip.
  { intros p Hp2. eapply wp_mono; [exact Hp2|]. intros t2 r H2 Hb. exfalso.
    rewrite existsb_app in Hb. apply orb_true_iff in Hb as [Hb|Hb].
    - rewrite (proj2 (existsb_false_Forall _ _) (passive_no_enforce _ Hp)) in Hb. done.
    - rewrite (proj2 (existsb_false_Forall _ _) H2) in Hb. done. }
  destruct role as [role|e].
  - destruct (truthy_role role) eqn:Ht; [apply Hskip, exempt_staff_never|].
    apply wp_intro. intros t2 r _ _. exists t1, t2, role. done.
  - destruct (is_Exception e); [apply Hskip, reply_never, talk_enforce|apply Hskip, never_raise].
Qed.

Section threshold.
Context {CAT : Catalog} (cfg : config) (w : warning).

Lemma justified_calm t : Forall (fun o => obs_enforce o = false) t -> justified cfg w t.
Proof. intros H Hb. by rewrite (proj2 (existsb_false_Forall _ _) H) in Hb. Qed.

Lemma justified_never {A} (p : io A) t0 :
  Forall (fun o => obs_enforce o = false) t0 -> never obs_enforce p ->
  wp p (fun t _ => justified cfg w (t0 ++ t)).
Proof.
  intros H0 Hp. eapply wp_mono; [exact Hp|]. intros t r Ht. apply justified_calm. by apply Forall_app.
Qed.

(** After the count [ta], in a run that so far banned nobody. *)
Lemma conclude_justified t0 ta tu t12 locale count pid :
  interleave ta tu t12 -> Forall (fun o => obs_enforce o = false) (t0 ++ t12) ->
  exec (add_warn (w_target_id w) (w_reason w) (w_admin_id w) (w_chat_id w)) ta (Ok count) ->
  wp (conclude_warn cfg w locale count pid) (fun t _ => justified cfg w (t0 ++ t12 ++ t)).
Proof.
  intros Hi H0 Ha. rewrite Forall_app in H0. destruct H0 as [H0 H12].
  unfold conclude_warn. destruct (cfg_proofs cfg) as [pc pt], (cfg_logs cfg) as [lc lt]. cbv zeta.
  apply wp_bind. eapply wp_mono; [apply warn_trigger_spec|]. intros tf r [Hf Htr].
  assert (Forall (fun o => obs_enforce o = false) (t0 ++ t12 ++ tf)) as Hall
    by by repeat (apply Forall_app; split).
  destruct r as [trigger|e]; [|by apply justified_calm].
  apply wp_intro. intros rest r Hrest. destruct trigger as [[[trigger fc]|]|].
  - intros _. exists t0, ta, tu, t12, tf, rest, count. repeat split; eauto.
  - apply justified_calm. repeat (apply Forall_app; split); try done.
    revert Hrest. apply never_elim, reply_kb_never, talk_enforce.
  - apply justified_calm. repeat (apply Forall_app; split); try done.
    revert Hrest. apply never_elim. pose proof @throw_never. never_auto; auto.
Qed.
End threshold.

(** A warning bans only at its thresholds.  If issuing a warning changed
    anybody's rights in a chat, the warning had been recorded and counted
    first, and its count reached the group's limit, or the federation-wide
    limit is enabled and the user's federation-wide count, read successfully,
    reached it. *)
Theorem warn_bans_at_threshold {CAT : Catalog} (cfg : config) (upd : update) (w : warning)
    (proof_msgs : list proof_message) (t : trace eff) (r : result unit)
    (Hrun : exec (execute_warn cfg upd w proof_msgs) t r)
    (Hban : existsb obs_enforce t = true) :
  threshold_evidence cfg w t.
Proof.
  revert Hban. change (justified cfg w t). revert t r Hrun. refine (wp_elim' _ _ _). unfold execute_warn.
  destruct (effective_message upd), (effective_chat upd), (effective_user upd);
    try (apply wp_ret, justified_calm; by constructor).
  destruct (cfg_proofs cfg) as [pc pt], (cfg_logs cfg) as [lc lt]. cbv zeta.
  apply (wp_never_bind obs_enforce); [|intros tl locale Htl _|intros; by apply justified_calm].
  { apply passive_never; [apply passive_enforce_false|apply locale_for_update_passive]. }
  apply wp_bind. eapply wp_mono; [apply upload_choice_never|]. intros tu0 [up|e] [Hc Hup].
  2: { apply justified_calm. by apply Forall_app. }
  cbn beta iota.
  apply wp_bind. eapply wp_gather2; [apply wp_exec|apply wp_exec|]. intros ta tu t12 ra ru Ha Hu Hi.
  assert (Forall (fun o => obs_enforce o = false) t12) as H12.
  { apply (interleave_Forall _ _ _ _ Hi).
    split; [exact (never_elim _ _ _ _ (add_warn_never _ _ _ _) Ha)|exact (never_elim _ _ _ _ Hup Hu)]. }
  split; [|apply justified_calm; by repeat (apply Forall_app; split)]. cbn beta iota.
  destruct ra as [count|e].
  2: { apply wp_intro. intros t r Ht. apply justified_calm. repeat (apply Forall_app; split); try done.
       revert Ht. apply never_elim. pose proof (fun m t => reply_never obs_enforce m t talk_enforce). never_auto; auto. }
  apply wp_bind.
  assert (wp (match ru with Ok p => Ret p | Err e => if is_Exception e then Ret None else Raise e end)
            (fun t (_ : result (option Z)) => t = [])) as Hproof.
  { destruct ru as [?|e]; [by apply wp_ret|]. destruct (is_Exception e); [by apply wp_ret|by apply wp_raise]. }
  eapply wp_mono; [exact Hproof|]. intros t' [pid|e] ->.
  2: { apply justified_calm. by repeat (apply Forall_app; split). }
  eapply wp_mono; [apply (conclude_justified cfg w (tl ++ tu0) ta tu t12)|];
    [done|by repeat (apply Forall_app; split)|done|].
  intros t r. cbn beta. by rewrite <-!app_assoc.
Qed.

(** Both role deletes match nothing. *)
Definition nothing_removed : script := fun X ev =>
  match ev in eff X return option (result X) with
  | DeleteOne _ _ => Some (Ok 0)
  | _ => None
  end.

(** A role record of somebody was removed. *)
Definition obs_removed (o : obs eff) : bool :=
  match o with
  | Obs ev r =>
      match ev in eff X return result X -> bool with
      | DeleteOne _ _ => fun r => match r with Ok n => 0 <? n | Err _ => false end
      | _ => fun _ => false
      end r
  end.

(** The staff exemption of the automatic ban tells the chat the member was
    demoted although no role record was removed: whatever the warning and the
    role, there is a run in which no record was removed and the reply is the
    success notice.  (The answer [False] of [Demote.execute] is dropped.) *)
Theorem exempt_staff_claims_demotion {CAT : Catalog} (cfg : config) (w : warning) (role : bson)
    (kb : markup) (locale : ustr) :
  exists t mid, exec (exempt_staff cfg w role kb locale) t (Ok tt) /\
    existsb obs_removed t = false /\
    In (Obs (ReplyText (message_id (w_msg w))
               (TKey "warnings.exempt.demoted" locale
                  [w_user w; ("role"%string, TStr (role_str role))]) kb) (Ok mid)) t.
Proof.
  pose proof (replay_exec nothing_removed (exempt_staff cfg w role kb locale)) as H.
  eexists _, _. split; [exact H|]. vm_compute. split; [reflexivity|]. tauto.
Qed.

Definition demo_warning : warning :=
  Warning demo_message 9 "x" 7 "boss" "spam" (-100) "chat".

(** The third of three warnings. *)
Definition third_warning : script := fun X ev =>
  match ev in eff X return option (result X) with
  | FindOneAndUpdate "warn_counts" _ _ _ => Some (Ok (Some [("count"%string, BInt 3)]))
  | _ => None
  end.

Lemma autoban_spares_staff_witness :
  let p := @_execute_warn_auto_ban demo_catalog demo_config demo_warning 3 0 per_group None (TStr "")
             DEFAULT_LOCALE None in
  guarded obs_ban_known obs_enforce (replay no_script p).1 = true /\
  exists t1 t2 role, (replay no_script p).1 = t1 ++ t2 /\ passive t1 /\
    exec (get_effective_role 9) t1 (Ok role) /\ truthy_role role = false.
Proof.
  intros p.
  destruct (@autoban_spares_staff demo_catalog demo_config demo_warning 3 0 per_group None (TStr "")
    DEFAULT_LOCALE None _ _ (replay_exec no_script p)) as [Hg Hr].
  split; [exact Hg|apply Hr; vm_compute; reflexivity].
Defined.

Lemma warn_bans_at_threshold_witness :
  threshold_evidence demo_config demo_warning
    (replay third_warning (@execute_warn demo_catalog demo_config (demo_update 7) demo_warning [])).1.
Proof.
  apply (@warn_bans_at_threshold demo_catalog demo_config (demo_update 7) demo_warning [] _ _
    (replay_exec third_warning _)).
  vm_compute. reflexivity.
Defined.
