(* ===== verification/Duration.v ===== *)
(** Mute durations and page arithmetic: [muting_flow/duration.py] under
    [tcbot/modules/helper/workflows], and [tcbot/utils/pagination.py]. *)

From S2P Require Import Prelude Text World.

(** * Durations

    A [timedelta] is its whole seconds: the source only builds whole ones. *)
Definition _SECS_PER_HOUR : Z := 3600.
Definition _SECS_PER_DAY : Z := 86400.
Definition _DAYS_PER_YEAR : Z := 365.
Definition _MAX_DURATION_DAYS : Z := 36500.

(** [timedelta] holds at most this many days. *)
Definition timedelta_max_days : Z := 999999999.

(** What each unit of the mapping builds. *)
Definition mapping (value : Z) : list (string * Z) :=
  [("s"%string, value); ("m"%string, value * 60); ("h"%string, value * _SECS_PER_HOUR);
   ("d"%string, value * _SECS_PER_DAY); ("w"%string, value * (7 * _SECS_PER_DAY));
   ("mo"%string, value * 30 * _SECS_PER_DAY); ("ye"%string, value * _DAYS_PER_YEAR * _SECS_PER_DAY)].

(** [td.days], of a duration in seconds. *)
Definition td_days (secs : Z) : Z := secs / _SECS_PER_DAY.

(** [int] refuses literals of more digits ([sys.get_int_max_str_digits]). *)
Definition int_max_str_digits : nat := 4300.

Section duration.
Context `{UCD}.

Definition is_decimal (c : Z) : bool := match decimal_digit c with Some _ => true | None => false end.

(** [_DURATION_RE.match]: the digits and the unit.  The units are ASCII and
    compared case-insensitively; the long s the pattern also takes for an [s]
    names no unit of the mapping, so it is no match here. *)
Definition duration_match (raw : ustr) : option (ustr * string) :=
  let digits := take_while is_decimal raw in
  let unit := map ascii_lower (drop_while is_decimal raw) in
  match digits, find (fun kv : string * Z => bool_decide (u kv.1 = unit)) (mapping 0) with
  | _ :: _, Some kv => Some (digits, kv.1)
  | _, _ => None
  end.

Definition parse_duration (raw : ustr) : result (option Z) :=
  match duration_match (strip_ws raw) with
  | None => Ok None
  | Some (digits, unit) =>
      if (int_max_str_digits <? length digits)%nat
      then Err (ValueError "Exceeds the limit for integer string conversion")
      else
        let value := match int_digits 0 false digits with Some v => v | None => 0 end in
        if existsb (fun kv => timedelta_max_days <? td_days kv.2) (mapping value) then Ok None
        else
          match assoc unit (mapping value) with
          | None => Ok None
          | Some result => if _MAX_DURATION_DAYS <? td_days result then Ok None else Ok (Some result)
          end
  end.
End duration.

(** The count and the unit [fmt_duration] shows. *)
Definition fmt_parts (total : Z) : Z * string :=
  if total <? 60 then (total, "s"%string)
  else if total <? _SECS_PER_HOUR then (total / 60, "m"%string)
  else if total <? _SECS_PER_DAY then (total / _SECS_PER_HOUR, "h"%string)
  else
    let days := total / _SECS_PER_DAY in
    if days <? 7 then (days, "d"%string)
    else if days <? 30 then (days / 7, "w"%string)
    else if days <? _DAYS_PER_YEAR then (days / 30, "mo"%string)
    else (days / _DAYS_PER_YEAR, "ye"%string).

Definition fmt_str (total : Z) : ustr :=
  let (n, unit) := fmt_parts total in str_int n ++ u unit.

(** As part of a message. *)
Definition fmt_duration (td : option Z) (locale : ustr) : text :=
  match td with
  | None => TKey "muting.duration.permanent" locale []
  | Some total => let (n, unit) := fmt_parts total in TCat [TInt n; TStr unit]
  end.

(** * Pages *)
Definition paginate {T} (items : list T) (page page_size : Z) : list T * Z * Z :=
  let total := Z.of_nat (length items) in
  if (total =? 0) || (page_size <=? 0) then ([], 1, 0)
  else
    let total_pages := Z.max 1 ((total + page_size - 1) / page_size) in
    let page := Z.max 0 (Z.min page (total_pages - 1)) in
    let start := page * page_size in
    (take (Z.to_nat page_size) (drop (Z.to_nat start) items), total_pages, page).

(** The pages the row's buttons lead to. *)
Definition nav_row (page total_pages : Z) : list (string * Z) :=
  (if page >? 0 then [("button.prev"%string, page - 1)] else []) ++
  (if page <? total_pages - 1 then [("button.next"%string, page + 1)] else []).

(** * Properties *)

Lemma while_app (f : Z -> bool) s t :
  Forall (fun c => f c = true) s -> match t with [] => True | c :: _ => f c = false end ->
  take_while f (s ++ t) = s /\ drop_while f (s ++ t) = t.
Proof.
  intros Hs Ht. induction Hs as [|c s Hc _ IH]; simpl.
  - destruct t as [|c t]; [done|]. simpl. by rewrite Ht.
  - rewrite Hc. destruct IH as [-> ->]. done.
Qed.

Section duration_lemmas.
Context `{UCD}.

(** Decimal literals of non-negative integers. *)
Lemma str_int_decimal n : 0 <= n ->
  str_int n <> [] /\ Forall (fun c => is_decimal c = true) (str_int n) /\
  int_digits 0 false (str_int n) = Some n.
Proof.
  intros Hn. split; [apply str_int_nonnil|]. split.
  - eapply Forall_impl; [apply str_int_chars|]. intros c [Hc|[Hz _]]; [|lia].
    unfold is_decimal. replace c with (48 + (c - 48)) by lia. by rewrite decimal_digit_48 by lia.
  - pose proof (DecimalZ.of_to n) as Hz. unfold str_int.
    destruct (Z.to_int n) as [d|d] eqn:Hd.
    + rewrite int_digits_uint; [f_equal; exact Hz|]. right. eauto using to_int_nonnil.
    + exfalso. destruct n; simpl in Hd; try discriminate; lia.
Qed.

Lemma letters_plain s : Forall (fun c => ascii_lower_letter c = true) (map ascii_lower s) ->
  Forall (fun c => is_space c = false /\ is_decimal c = false) s.
Proof.
  intros Hs. induction s as [|c s IH]; [constructor|]. inversion Hs as [|? ? Hc Hs']; subst. constructor; [|auto].
  assert (65 <= c < 128) as Hr.
  { unfold ascii_lower, ascii_lower_letter, ascii_upper_letter in Hc.
    destruct ((65 <=? c) && (c <=? 90)) eqn:Hu; to_prop; lia. }
  unfold is_decimal. rewrite is_space_ascii, decimal_digit_ascii by lia.
  unfold ascii_space, ascii_digit.
  replace (48 <=? c) with true by (symmetry; apply Z.leb_le; lia).
  replace (c <=? 57) with false by (symmetry; apply Z.leb_gt; lia).
  replace (c <=? 13) with false by (symmetry; apply Z.leb_gt; lia).
  replace (c <=? 32) with false by (symmetry; apply Z.leb_gt; lia).
  rewrite !andb_false_r. done.
Qed.

(** White space around a text is stripped. *)
Lemma strip_padded s before after :
  s <> [] -> Forall (fun c => is_space c = false) s ->
  Forall (fun c => is_space c = true) before -> Forall (fun c => is_space c = true) after ->
  strip_ws (before ++ s ++ after) = s.
Proof.
  intros Hne Hs Hb Ha. unfold strip_ws, strip, lstrip, rstrip.
  destruct (while_app is_space before (s ++ after) Hb) as [_ ->].
  { destruct Hs as [|c s Hc]; done. }
  rewrite rev_app_distr. destruct (while_app is_space (rev after) (rev s)) as [_ ->];
    [by apply Forall_rev| |apply rev_involutive].
  apply Forall_rev in Hs. destruct Hs as [|c l Hc]; done.
Qed.

(** A literal with its unit holds no white space. *)
Lemma literal_plain n (unit : string) (raw_unit : ustr) :
  0 <= n -> is_Some (assoc unit (mapping 0)) -> map ascii_lower raw_unit = u unit ->
  str_int n ++ raw_unit <> [] /\ Forall (fun c => is_space c = false) (str_int n ++ raw_unit).
Proof.
  intros Hn Hu Hraw. split.
  { pose proof (str_int_nonnil n). by destruct (str_int n). }
  apply Forall_app. split; [apply str_int_no_space|].
  assert (Forall (fun c => ascii_lower_letter c = true) (u unit)) as Hl.
  { destruct Hu as [v Hv]. simpl in Hv.
    repeat match type of Hv with (if String.eqb ?a ?b then _ else _) = _ =>
      destruct (String.eqb_spec a b) as [->|?] end; [by repeat constructor..|discriminate]. }
  rewrite <- Hraw in Hl. eapply Forall_impl; [exact (letters_plain _ Hl)|]. by intros c [? _].
Qed.

(** The regular expression on a literal followed by a unit. *)
Lemma duration_match_literal n (unit : string) (raw_unit : ustr) :
  0 <= n -> is_Some (assoc unit (mapping 0)) -> map ascii_lower raw_unit = u unit ->
  duration_match (strip_ws (str_int n ++ raw_unit)) = Some (str_int n, unit).
Proof.
  intros Hn Hu Hraw. destruct (str_int_decimal n Hn) as (Hnil & Hdec & _).
  assert (Forall (fun c => ascii_lower_letter c = true) (u unit) /\ u unit <> [] /\
          find (fun kv : string * Z => bool_decide (u kv.1 = u unit)) (mapping 0) = Some (unit, 0)) as (Hl & Hne & Hf).
  { destruct Hu as [v Hv]. simpl in Hv.
    repeat match type of Hv with (if String.eqb ?a ?b then _ else _) = _ =>
      destruct (String.eqb_spec a b) as [->|?] end;
      [by vm_compute; repeat split; repeat constructor..|discriminate]. }
  rewrite <- Hraw in Hl. apply letters_plain in Hl.
  assert (strip_ws (str_int n ++ raw_unit) = str_int n ++ raw_unit) as ->
    by exact (strip_none is_space _ (proj2 (literal_plain n unit raw_unit Hn Hu Hraw))).
  unfold duration_match.
  destruct (while_app is_decimal (str_int n) raw_unit Hdec) as [-> ->].
  { destruct Hl as [|c s [_ Hc]]; done. }
  rewrite Hraw, Hf. by destruct (str_int n).
Qed.
End duration_lemmas.

Ltac div_lia :=
  unfold _SECS_PER_HOUR, _SECS_PER_DAY, _DAYS_PER_YEAR in *; Z.to_euclidean_division_equations; lia.

Lemma mapping_scale unit factor n :
  assoc unit (mapping 1) = Some factor -> assoc unit (mapping n) = Some (n * factor).
Proof.
  unfold mapping, _SECS_PER_HOUR, _SECS_PER_DAY, _DAYS_PER_YEAR. cbn [assoc].
  repeat (destruct (String.eqb _ _); [intros [= <-]; f_equal; lia|]). done.
Qed.

Lemma mapping_overflow n : 0 <= n ->
  existsb (fun kv : string * Z => timedelta_max_days <? td_days kv.2) (mapping n) =
  negb (n * _DAYS_PER_YEAR <=? timedelta_max_days).
Proof.
  intros Hn. unfold mapping, td_days, timedelta_max_days, _SECS_PER_HOUR, _SECS_PER_DAY, _DAYS_PER_YEAR.
  cbn [existsb snd].
  destruct (n * 365 <=? 999999999) eqn:Hc; cbn [negb]; to_prop.
  - rewrite !orb_false_iff, !Z.ltb_ge. div_lia.
  - replace (999999999 <? n * 365 * 86400 / 86400) with true; [by rewrite !orb_true_r|].
    symmetry. apply Z.ltb_lt. div_lia.
Qed.

(** A bare literal and its unit. *)
Lemma parse_duration_literal `{UCD} (n factor : Z) (unit : string) (raw_unit : ustr) :
  0 <= n -> (length (str_int n) <= int_max_str_digits)%nat ->
  assoc unit (mapping 1) = Some factor -> map ascii_lower raw_unit = u unit ->
  parse_duration (str_int n ++ raw_unit) =
  Ok (if (n * _DAYS_PER_YEAR <=? timedelta_max_days) && (td_days (n * factor) <=? _MAX_DURATION_DAYS)
      then Some (n * factor) else None).
Proof.
  intros Hn Hlen Hunit Hcase. unfold parse_duration.
  rewrite (duration_match_literal n unit raw_unit Hn (mk_is_Some _ _ (mapping_scale _ _ 0 Hunit)) Hcase).
  destruct (str_int_decimal n Hn) as (_ & _ & ->).
  apply Nat.ltb_ge in Hlen as ->. cbv zeta.
  rewrite (mapping_overflow n Hn), (mapping_scale _ _ n Hunit).
  destruct (_ <=? timedelta_max_days); [|done]. cbn [negb andb].
  rewrite Z.leb_antisym. by destruct (_MAX_DURATION_DAYS <? _).
Qed.

(** A duration is read as its count times its unit.  A literal followed by a
    unit of the table, in any case and with any white space around, means that
    many seconds, unless it is longer than a hundred years or the same count of
    years would overflow [timedelta]; then it is no duration. *)
Theorem parse_duration_spec `{UCD} (n factor : Z) (unit : string) (raw_unit before after : ustr)
    (Hn : 0 <= n) (Hlen : (length (str_int n) <= int_max_str_digits)%nat)
    (Hunit : assoc unit (mapping 1) = Some factor) (Hcase : map ascii_lower raw_unit = u unit)
    (Hbefore : Forall (fun c => is_space c = true) before) (Hafter : Forall (fun c => is_space c = true) after) :
  parse_duration (before ++ (str_int n ++ raw_unit) ++ after) =
  Ok (if (n * _DAYS_PER_YEAR <=? timedelta_max_days) && (td_days (n * factor) <=? _MAX_DURATION_DAYS)
      then Some (n * factor) else None).
Proof.
  rewrite <- (parse_duration_literal n factor unit raw_unit Hn Hlen Hunit Hcase). unfold parse_duration.
  destruct (literal_plain n unit raw_unit Hn (mk_is_Some _ _ (mapping_scale _ _ 0 Hunit)) Hcase) as [Hne Hs].
  rewrite (strip_padded _ before after Hne Hs Hbefore Hafter).
  assert (strip_ws (str_int n ++ raw_unit) = str_int n ++ raw_unit) as -> by exact (strip_none is_space _ Hs). done.
Qed.

Lemma parse_duration_spec_witness :
  @parse_duration ascii_ucd (u " 2YE") = Ok (Some (2 * 31536000)).
Proof.
  exact (@parse_duration_spec ascii_ucd 2 31536000 "ye" (u "YE") (u " ") [] ltac:(lia) ltac:(vm_compute; lia)
           eq_refl eq_refl ltac:(by repeat constructor) ltac:(constructor)).
Defined.

(** The table is built for every unit at once, so the year entry decides
    whether a count of seconds is accepted: 35 days written in seconds are
    no duration. *)
Lemma seconds_overflow_as_years `{UCD} : parse_duration (u "3000000s") = Ok None /\ td_days 3000000 = 34.
Proof.
  split; [|done].
  exact (parse_duration_literal 3000000 1 "s" (u "s") ltac:(lia) ltac:(vm_compute; lia) eq_refl eq_refl).
Qed.

Lemma str_int_short n : 0 <= n <= 100 -> (length (str_int n) <= int_max_str_digits)%nat.
Proof.
  intros Hn.
  assert (forallb (fun k => (length (str_int (Z.of_nat k)) <=? int_max_str_digits)%nat) (seq 0 101) = true)
    as Hall by by vm_compute.
  rewrite forallb_forall in Hall. specialize (Hall (Z.to_nat n)).
  rewrite Z2Nat.id in Hall by lia. apply Nat.leb_le, Hall, in_seq. lia.
Qed.

(** The shown count is the whole units of a duration. *)
Lemma fmt_parts_spec total n unit :
  0 <= total -> td_days total <= _MAX_DURATION_DAYS -> fmt_parts total = (n, unit) ->
  0 <= n <= 100 /\ (0 < total -> 0 < n) /\
  exists factor, assoc unit (mapping 1) = Some factor /\ n * factor <= total < (n + 1) * factor.
Proof.
  unfold fmt_parts, td_days, _MAX_DURATION_DAYS, _SECS_PER_HOUR, _SECS_PER_DAY, _DAYS_PER_YEAR.
  intros H0 Hmax.
  repeat match goal with |- (if ?b then _ else _) = _ -> _ => destruct b eqn:? end;
    intros [= <- <-]; to_prop; (split; [div_lia|]); (split; [div_lia|]); eexists; (split; [reflexivity|]); div_lia.
Qed.

(** What is shown can be typed back.  The text shown for a duration of at
    most a hundred years is read as the duration's whole units: never more
    than it, less than one unit short, and positive when it is. *)
Theorem fmt_duration_parses `{UCD} (total : Z)
    (H0 : 0 <= total) (Hmax : td_days total <= _MAX_DURATION_DAYS) :
  exists n unit factor, fmt_parts total = (n, unit) /\ assoc unit (mapping 1) = Some factor /\
    parse_duration (fmt_str total) = Ok (Some (n * factor)) /\
    n * factor <= total < (n + 1) * factor /\ (0 < total -> 0 < n * factor).
Proof.
  destruct (fmt_parts total) as [n unit] eqn:Hp.
  destruct (fmt_parts_spec total n unit H0 Hmax Hp) as (Hn & Hpos & factor & Hf & Hr).
  exists n, unit, factor. do 2 (split; [done|]). split; [|split; [done|nia]].
  assert (Forall (fun c => ascii_lower c = c) (u unit)) as Hlow.
  { simpl in Hf. repeat match type of Hf with (if String.eqb ?a ?b then _ else _) = _ =>
      destruct (String.eqb_spec a b) as [->|?] end; [by repeat constructor..|discriminate]. }
  unfold fmt_str. rewrite Hp. rewrite (parse_duration_literal n factor unit (u unit)); [|lia|by apply str_int_short|done|].
  - replace (n * _DAYS_PER_YEAR <=? timedelta_max_days) with true
      by (symmetry; apply Z.leb_le; unfold _DAYS_PER_YEAR, timedelta_max_days; lia).
    replace (td_days (n * factor) <=? _MAX_DURATION_DAYS) with true; [done|].
    symmetry. apply Z.leb_le. unfold td_days, _SECS_PER_DAY in *. div_lia.
  - clear -Hlow. induction Hlow as [|c s Hc _ IH]; simpl; [done|]. by rewrite Hc, IH.
Qed.

Lemma fmt_duration_parses_witness :
  exists n unit factor, fmt_parts 100000 = (n, unit) /\ assoc unit (mapping 1) = Some factor /\
    @parse_duration ascii_ucd (fmt_str 100000) = Ok (Some (n * factor)) /\
    n * factor <= 100000 < (n + 1) * factor /\ (0 < 100000 -> 0 < n * factor).
Proof. apply (@fmt_duration_parses ascii_ucd 100000); vm_compute; discriminate. Defined.

Lemma take_add {A} n k (l : list A) : take (n + k) l = take n l ++ take k (drop n l).
Proof. revert l. induction n as [|n IH]; intros [|x l]; simpl; [done|done|by rewrite take_nil|]. by rewrite IH. Qed.

(** Consecutive slices of one width make up a prefix. *)
Lemma concat_slices {A} (l : list A) k m :
  concat (map (fun i => take k (drop (i * k) l)) (seq 0 m)) = take (m * k) l.
Proof.
  induction m as [|m IH]; [done|]. rewrite seq_S, map_app, concat_app, IH. simpl.
  rewrite app_nil_r. replace (k + m * k)%nat with (m * k + k)%nat by lia. by rewrite take_add.
Qed.

Lemma paginate_in_range {T} (items : list T) page page_size :
  items <> [] -> 0 < page_size ->
  let pages := (Z.of_nat (length items) + page_size - 1) / page_size in
  1 <= pages /\ Z.of_nat (length items) <= pages * page_size /\
  paginate items page page_size =
    (take (Z.to_nat page_size) (drop (Z.to_nat (Z.max 0 (Z.min page (pages - 1))) * Z.to_nat page_size) items),
     pages, Z.max 0 (Z.min page (pages - 1))).
Proof.
  intros Hne Hp pages. assert (0 < Z.of_nat (length items)) as Hl by (destruct items; simpl; [done|lia]).
  assert (1 <= pages /\ Z.of_nat (length items) <= pages * page_size) as [H1 H2].
  { unfold pages. split; [|]; Z.to_euclidean_division_equations; nia. }
  do 2 (split; [done|]). unfold paginate.
  replace ((Z.of_nat (length items) =? 0) || (page_size <=? 0)) with false.
  2: { symmetry. apply orb_false_iff. split; [apply Z.eqb_neq|apply Z.leb_gt]; lia. }
  fold pages. replace (Z.max 1 pages) with pages by lia. cbv zeta.
  rewrite (Z2Nat.inj_mul (Z.max 0 _)) by lia. done.
Qed.

(** Paging shows everything once.  The pages of a list, in order, are the
    list; each holds at most [page_size] items; any requested page is clamped
    to an existing one; and the navigation buttons of a page lead only to its
    existing neighbours. *)
Theorem paginate_partition {T} (items : list T) (page page_size : Z)
    (Hne : items <> []) (Hsize : 0 < page_size) :
  let page_of i := paginate items i page_size in
  let pages := (page_of page).1.2 in
  concat (map (fun i => (page_of (Z.of_nat i)).1.1) (seq 0 (Z.to_nat pages))) = items /\
  (length (page_of page).1.1 <= Z.to_nat page_size)%nat /\
  0 <= (page_of page).2 < pages /\
  Forall (fun b => 0 <= b.2 < pages /\ Z.abs (b.2 - (page_of page).2) = 1) (nav_row (page_of page).2 pages).
Proof.
  cbv zeta. destruct (paginate_in_range items page page_size Hne Hsize) as (H1 & H2 & Hpage).
  rewrite Hpage. simpl. set (pages := (Z.of_nat (length items) + page_size - 1) / page_size) in *.
  split; [|split; [|split; [lia|]]].
  - rewrite (map_ext_in _ (fun i => take (Z.to_nat page_size) (drop (i * Z.to_nat page_size) items))).
    + rewrite concat_slices, firstn_all2; [done|]. nia.
    + intros i Hi%in_seq. destruct (paginate_in_range items (Z.of_nat i) page_size Hne Hsize) as (_ & _ & ->).
      fold pages. simpl. rewrite Z.min_l, Z.max_r, Nat2Z.id by lia. done.
  - rewrite length_take. lia.
  - unfold nav_row. apply Forall_app. split.
    + destruct (_ >? 0) eqn:Hc; to_prop; repeat constructor; simpl; lia.
    + destruct (_ <? pages - 1) eqn:Hc; to_prop; repeat constructor; simpl; lia.
Qed.

Lemma paginate_partition_witness :
  concat (map (fun i => (paginate [1; 2; 3; 4; 5] (Z.of_nat i) 2).1.1) (seq 0 3)) = [1; 2; 3; 4; 5] /\
  (length (paginate [1; 2; 3; 4; 5] 7 2).1.1 <= 2)%nat /\
  0 <= (paginate [1; 2; 3; 4; 5] 7 2).2 < 3.
Proof.
  destruct (paginate_partition [1; 2; 3; 4; 5] 7 2 ltac:(discriminate) ltac:(lia)) as (H1 & H2 & H3 & _).
  split; [exact H1|]. split; [exact H2|exact H3].
Defined.
