(* ===== verification/MuteFlow.v ===== *)
(** The mute and unmute executors: [muting_flow/mute.py] and
    [muting_flow/unmute.py] under [tcbot/modules/helper/workflows]. *)

From S2P Require Import Prelude Prog Text World I18n Duration Dispatch Cache Locale Roles Replies Auth Records ProofUpload DemoteFlow BanFlow.

(** The [mute_*] keys collected by the conversation; a missing id is 0, a
    missing reason empty, a missing admin name the default one. *)
Record mute_meta := MuteMeta {
  mute_target_id : Z;
  mute_admin_id : Z;
  mute_target_fname : string;
  mute_admin_fname : string;
  mute_reason : string;
  mute_duration : option Z;
  mute_proof_msgs : list proof_message;
  mute_prompt_chat : Z;
  mute_prompt_id : Z
}.

(** [str(n)] *)
Definition py_str (z : Z) : string := pretty.pretty z.

Definition mute_name (m : mute_meta) : string :=
  if truthy_str (mute_target_fname m) then mute_target_fname m else py_str (mute_target_id m).

(** [utc_now() + duration if duration else None]; dates count microseconds. *)
Definition mute_until (duration : option Z) : io (option Z) :=
  match duration with
  | Some d => if truthy_Z d then now <- call UtcNow ;; Ret (Some (now + d * 1000000)) else Ret None
  | None => Ret None
  end.

Definition mute_secs (duration : option Z) : option Z :=
  match duration with Some d => if truthy_Z d then Some d else None | None => None end.

Definition with_reason (reason : string) (m : mute_meta) : mute_meta :=
  MuteMeta (mute_target_id m) (mute_admin_id m) (mute_target_fname m) (mute_admin_fname m) reason (mute_duration m)
    (mute_proof_msgs m) (mute_prompt_chat m) (mute_prompt_id m).

Section mute.
Context {CAT : Catalog} (cfg : config).

(** The two writes of a mute.  [false] when one failed: what was committed has
    then been undone. *)
Definition record_mute (m : mute_meta) (until : option Z) (chat_id : Z) : io bool :=
  active_r <- attempt (set_active_mute (mute_target_id m) until) ;;
  match active_r with
  | Err e => if is_Exception e then Ret false else Raise e
  | Ok _ =>
      log_r <- attempt (log_mute (mute_target_id m) chat_id (mute_reason m) (mute_admin_id m)
                          (mute_secs (mute_duration m))) ;;
      match log_r with
      | Ok _ => Ret true
      | Err e =>
          if is_Exception e then
            try_except (clear_active_mute (mute_target_id m)) (fun _ => Ret tt) ;;; Ret false
          else Raise e
      end
  end.

(** The fan-out, beside the upload of the evidence when there is some: the
    outcomes and the link to the proof. *)
Definition mute_enforce (m : mute_meta) (until : option Z) (groups : list doc)
    : io (list (result unit) * option text) :=
  let target_id := mute_target_id m in
  let restrict := fan_out (map (fun grp => call (RestrictChatMember (chat_of grp) target_id false until)) groups) in
  match mute_proof_msgs m with
  | [] => results <- restrict ;; Ret (results, None)
  | _ =>
      let (pc, pt) := cfg_proofs cfg in
      now <- call UtcNow ;;
      let caption := TBuild "parse_logmsg.proof_caption_new"
        [TInt target_id; TInt (mute_admin_id m); TStr (mute_admin_fname m); TInt now] in
      let! (fanout_results, upload_result) :=
        gather2 restrict (upload_proof caption pc pt (mute_proof_msgs m)) in
      results <- of_result fanout_results ;;
      throw_if_cancelled [void upload_result] ;;;
      Ret (results, match upload_result with
                    | Ok (Some p) => if truthy_Z p then Some (TLink pc p pt) else None
                    | _ => None
                    end)
  end.

(** The log card and the edited prompt. *)
Definition mute_report (upd : update) (m : mute_meta) (locale : ustr) (total failed : Z)
    (proof_link : option text) : io unit :=
  let (lc, lt) := cfg_logs cfg in
  let target_id := mute_target_id m in
  let dur_str := fmt_duration (mute_duration m) locale in
  let proof_kb := Some (TBuild "keyboards.action_proof_kb" [TInt target_id; TOpt proof_link]) in
  let summary := TKey "muting.summary.body" locale
    [("user"%string, TUser target_id (mute_name m)); ("dur"%string, TBuild "bold" [dur_str]);
     ("reason"%string, TStr (mute_reason m)); ("done"%string, TInt (total - failed)); ("total"%string, TInt total)] in
  let log_text := TBuild "parse_logmsg.mute_log"
    [TInt target_id; TStr (mute_name m); TInt (mute_admin_id m); TStr (mute_admin_fname m);
     TStr (mute_reason m); dur_str] in
  let! (log_send_r, edit_r) :=
    gather2 (call (SendMessage lc log_text lt proof_kb))
      (call (EditMessageText (mute_prompt_chat m) (mute_prompt_id m) summary proof_kb)) in
  match edit_r, effective_message upd with
  | Err _, Some msg => safe_reply_kb msg summary proof_kb
  | _, _ => Ret tt
  end.

Definition _execute_mute (upd : update) (m : mute_meta) : io unit :=
  let target_id := mute_target_id m in
  if negb (truthy_Z target_id) || negb (truthy_Z (mute_admin_id m)) then Ret tt
  else
    locale <- locale_for_update upd ;;
    reason_text <- (if truthy_str (mute_reason m) then Ret (mute_reason m) else no_reason locale) ;;
    let m := with_reason reason_text m in
    until <- mute_until (mute_duration m) ;;
    let note key := safe_edit_message (mute_prompt_chat m) (mute_prompt_id m)
      (TKey key locale [("user"%string, TUser target_id (mute_name m))]) None true in
    match effective_chat upd with
    | None => Ret tt
    | Some (_, chat_id) =>
        groups <- attempt active_groups ;;
        match groups with
        | Err e => if is_Exception e then note "muting.note.groups_fail"%string else Raise e
        | Ok groups =>
            let groups := with_primary_groups groups [cfg_main_group cfg; cfg_exec_group cfg] [] in
            recorded <- record_mute m until chat_id ;;
            if negb recorded then note "muting.note.db_fail"%string
            else
              redemote_before_fanout cfg target_id (mute_name m) (mute_admin_id m) (mute_admin_fname m) "mute" ;;;
              let! (results, proof_link) := mute_enforce m until groups in
              mute_report upd m locale (Z.of_nat (length groups)) (count_transient_errors results) proof_link
        end
    end.

(** * Unmute *)

(** What is said, and to whom, once the record is gone. *)
Definition unmute_announce (msg : message) (log_text reply : text) : io unit :=
  let (lc, lt) := cfg_logs cfg in
  if truthy_Z lc then
    let! (r1, r2) := gather2 (call (SendMessage lc log_text lt None))
                             (call (ReplyText (message_id msg) reply None)) in
    throw_if_cancelled [void r1; void r2]
  else try_except (call (ReplyText (message_id msg) reply None) ;;; Ret tt) (fun _ => Ret tt).

(** [execute_unmute] once the groups are known. *)
Definition unmute_groups (msg : message) (admin : Z) (admin_fname : string) (target_id : Z)
    (target_name : string) (locale : ustr) (groups : list doc) : io unit :=
  let user := ("user"%string, TUser target_id target_name) in
  let db_retry := safe_reply msg (TKey "common.err.db_retry" locale []) in
  let groups := with_primary_groups groups [cfg_main_group cfg; cfg_exec_group cfg] [] in
  let total := Z.of_nat (length groups) in
  results <- fan_out (map (fun grp => call (RestrictChatMember (chat_of grp) target_id true None)) groups) ;;
  let failed := count_transient_errors results in
  if (0 <? total) && (failed >=? total) then
    safe_reply msg (TKey "muting.note.unmute_failed" locale [user])
  else
    let log_text := TBuild "parse_logmsg.unmute_log"
      [TInt target_id; TStr target_name; TInt admin; TStr admin_fname] in
    let reply := TKey "muting.unmute.body" locale
      [user; ("done"%string, TInt (total - failed)); ("total"%string, TInt total)] in
    cleared <- attempt (clear_active_mute target_id) ;;
    match cleared with
    | Err e => if is_Exception e then db_retry else Raise e
    | Ok _ => unmute_announce msg log_text reply
    end.

Definition execute_unmute (upd : update) (admin_fname : string) (target_id : Z) (target_name : string) : io unit :=
  match effective_message upd, effective_user upd with
  | Some msg, Some admin =>
      locale <- locale_for_update upd ;;
      let user := ("user"%string, TUser target_id target_name) in
      let db_retry := safe_reply msg (TKey "common.err.db_retry" locale []) in
      active_mute <- attempt (get_active_mute target_id) ;;
      match active_mute with
      | Err e => if is_Exception e then db_retry else Raise e
      | Ok None => safe_reply msg (TKey "muting.note.no_mute" locale [user])
      | Ok (Some _) =>
          groups <- attempt active_groups ;;
          match groups with
          | Err e => if is_Exception e then db_retry else Raise e
          | Ok groups =>
              unmute_groups msg admin admin_fname target_id target_name locale groups
          end
      end
  | _, _ => Ret tt
  end.
End mute.

(** * Properties *)

(** The authoritative record of a mute was written. *)
Definition obs_mute_active (o : obs eff) : bool :=
  match o with
  | Obs ev r => match ev with UpdateOne "active_mutes" _ _ _ => negb (is_err r) | _ => false end
  end.

(** Its audit row was written. *)
Definition obs_mute_logged (o : obs eff) : bool :=
  match o with Obs ev r => match ev with InsertOne "mutes" _ => negb (is_err r) | _ => false end end.

(** Its record was ordered deleted, and was deleted. *)
Definition obs_mute_undo (o : obs eff) : bool :=
  match o with Obs ev _ => match ev with DeleteOne "active_mutes" _ => true | _ => false end end.
Definition obs_mute_gone (o : obs eff) : bool :=
  match o with Obs ev r => match ev with DeleteOne "active_mutes" _ => negb (is_err r) | _ => false end end.

(** A record of an active mute was read. *)
Definition obs_mute_known (o : obs eff) : bool :=
  match o with
  | Obs ev r =>
      match ev in eff X return result X -> bool with
      | FindOne "active_mutes" _ _ => fun r => match r with Ok (Some _) => true | _ => false end
      | _ => fun _ => false
      end r
  end.

(** A chat took a restriction change, or refused it for good. *)
Definition obs_restricted `{UCD} (o : obs eff) : bool :=
  match o with
  | Obs ev r => match ev with RestrictChatMember _ _ _ _ => negb (transient r) | _ => false end
  end.

Definition obs_send (o : obs eff) : bool :=
  match o with Obs ev _ => match ev with SendMessage _ _ _ _ => true | _ => false end end.

Definition ok_b (r : result bool) : bool := match r with Ok b => b | Err _ => false end.

Lemma mute_until_never f d : (forall r, f (Obs UtcNow r) = false) -> never f (mute_until d).
Proof. intros Hf. unfold mute_until. never_auto. by apply never_call. Qed.

Section mute_lemmas.
Context {CAT : Catalog} (cfg : config).

Lemma record_mute_waits f m until chat :
  f = obs_mute_active \/ f = obs_mute_logged ->
  waits f obs_enforce ok_b (record_mute m until chat).
Proof.
  unfold waits, record_mute, set_active_mute, log_mute, clear_active_mute, db_call.
  intros [-> | ->]; wp_auto; by split.
Qed.

(** Both writes, or none that is not undone. *)
Lemma record_mute_rollback m until chat :
  wp (record_mute m until chat) (fun t r => forall b, r = Ok b ->
    if b then existsb obs_mute_logged t = true
    else existsb obs_mute_active t = true -> existsb obs_mute_undo t = true).
Proof.
  unfold record_mute, set_active_mute, log_mute, clear_active_mute, db_call.
  wp_auto; intros b [= <-]; done.
Qed.

Lemma execute_mute_waits f upd m :
  f = obs_mute_active \/ f = obs_mute_logged ->
  waits f obs_enforce (fun _ => false) (_execute_mute cfg upd m).
Proof.
  intros Hf. unfold _execute_mute. cbv zeta.
  assert (forall key locale, waits f obs_enforce (fun _ => false)
    (safe_edit_message (mute_prompt_chat m) (mute_prompt_id m)
       (TKey key locale [("user"%string, TUser (mute_target_id m) (mute_name m))]) None true)) as Hnote.
  { intros. apply waits_never; [|done]. apply note_never. by intros [X [] r]. }
  destruct (_ || _); [apply waits_never; [never_auto|done]|].
  apply waits_after; [apply passive_never; [apply passive_enforce_false|apply locale_for_update_passive]|intros locale|done].
  apply waits_after; [never_auto|intros reason|done].
  apply waits_after; [by apply mute_until_never|intros expiry|done].
  destruct (effective_chat upd) as [[ct chat]|]; [|apply waits_never; [never_auto|done]].
  apply waits_after; [apply never_attempt, groups_never; [|done]; by intros c k [X [] r]|intros groups|done].
  destruct groups as [groups|e]; [|destruct (is_Exception e); [apply Hnote|apply waits_never; [never_auto|done]]].
  eapply waits_then; [by apply record_mute_waits| |done].
  intros b Hb. simpl in Hb. subst. apply Hnote.
Qed.
End mute_lemmas.

(** A finished run that wrote the active record also wrote the audit row, or
    ordered the record deleted. *)
Definition mute_settled (t : trace eff) (r : result unit) : Prop :=
  r = Ok tt -> existsb obs_mute_active t = true ->
  existsb obs_mute_logged t = true \/ existsb obs_mute_undo t = true.

Lemma settled_never (p : io unit) : never obs_mute_active p -> wp p mute_settled.
Proof.
  intros Hp. eapply wp_mono; [exact Hp|]. intros t r Ht _ Ha.
  by rewrite (proj2 (existsb_false_Forall _ _) Ht) in Ha.
Qed.

Lemma settled_after {A} (p : io A) (k : A -> io unit) :
  never obs_mute_active p -> (forall a, wp (k a) mute_settled) -> wp (bind p k) mute_settled.
Proof.
  intros Hp Hk. apply (wp_never_bind obs_mute_active); [done|intros t a Ht _|by intros].
  eapply wp_mono; [apply Hk|]. intros t' r HJ Hr.
  rewrite !existsb_app, (proj2 (existsb_false_Forall _ _) Ht). simpl. intros Ha.
  destruct (HJ Hr Ha) as [-> | ->]; rewrite orb_true_r; auto.
Qed.

Lemma passive_mute_false o : obs_passive o = true -> obs_mute_active o = false.
Proof. destruct o as [X [] r]; done. Qed.

(** Nobody is muted without both records.  In every run of the mute flow a
    restriction happens only after the active-mute record and the audit row
    were both written; and a run that ends with the active record written but
    the audit row missing has ordered the record deleted. *)
Theorem mute_record_first {CAT : Catalog} (cfg : config) (upd : update) (m : mute_meta)
    (t : trace eff) (r : result unit) (Hrun : exec (_execute_mute cfg upd m) t r) :
  guarded obs_mute_active obs_enforce t = true /\
  guarded obs_mute_logged obs_enforce t = true /\
  (r = Ok tt -> existsb obs_mute_active t = true ->
   existsb obs_mute_logged t = true \/ existsb obs_mute_undo t = true).
Proof.
  split; [exact (proj1 (wp_elim _ _ _ _ (execute_mute_waits cfg _ upd m (or_introl eq_refl)) Hrun))|].
  split; [exact (proj1 (wp_elim _ _ _ _ (execute_mute_waits cfg _ upd m (or_intror eq_refl)) Hrun))|].
  change (mute_settled t r). revert t r Hrun. refine (wp_elim' _ _ _). unfold _execute_mute. cbv zeta.
  assert (forall key locale, wp (safe_edit_message (mute_prompt_chat m) (mute_prompt_id m)
    (TKey key locale [("user"%string, TUser (mute_target_id m) (mute_name m))]) None true) mute_settled) as Hnote.
  { intros. apply settled_never, note_never. by intros [X [] r]. }
  destruct (_ || _); [by apply wp_ret|].
  apply settled_after; [apply passive_never; [apply passive_mute_false|apply locale_for_update_passive]|intros locale].
  apply settled_after; [never_auto|intros reason].
  apply settled_after; [by apply mute_until_never|intros expiry].
  destruct (effective_chat upd) as [[ct chat]|]; [|by apply wp_ret].
  apply settled_after; [apply never_attempt, groups_never; [|done]; by intros c k [X [] r]|intros groups].
  destruct groups as [groups|e]; [|destruct (is_Exception e); [apply Hnote|by apply wp_raise]].
  apply wp_bind. eapply wp_mono; [apply record_mute_rollback|]. intros t [b|e] Hb; [|done].
  specialize (Hb b eq_refl). apply wp_intro. intros t' r Hr Hok. rewrite !existsb_app.
  destruct b; [rewrite Hb; auto|]. cbn [negb] in Hr.
  destruct (existsb obs_mute_active t) eqn:Ha; [rewrite (Hb eq_refl); auto|].
  intros Ha'. destruct (wp_elim _ _ _ _ (Hnote _ _) Hr Hok Ha') as [-> | ->]; rewrite orb_true_r; auto.
Qed.

Section unmute_lemmas.
Context {CAT : Catalog} (cfg : config) (upd : update) (admin_fname : string) (target_id : Z) (target_name : string).

Lemma talk_undo o : obs_talk o = true -> obs_mute_undo o = false.
Proof. by destruct o as [X [] r]. Qed.
Lemma talk_send o : obs_talk o = true -> obs_send o = false.
Proof. by destruct o as [X [] r]. Qed.

(** Up to the groups: the record was read, and nothing else happened. *)
Lemma unmute_waits_known :
  waits obs_mute_known obs_enforce (fun _ => false) (execute_unmute cfg upd admin_fname target_id target_name).
Proof.
  unfold execute_unmute. cbv zeta.
  destruct (effective_message upd) as [msg|], (effective_user upd); try (apply waits_never; [apply never_ret|done]).
  apply waits_after; [apply passive_never; [apply passive_enforce_false|apply locale_for_update_passive]|intros locale|done].
  eapply (waits_then _ _ (fun r => match r with Ok (Ok (Some _)) => true | _ => false end)).
  - unfold waits, get_active_mute, db_call. wp_auto; split; simpl; repeat case_match; done.
  - intros [[d|]|e] Hx; [done|..]; apply waits_never; try done; [|destruct (is_Exception e); [|never_auto]];
      apply reply_never, talk_enforce.
  - done.
Qed.

(** A failed step answers, or lets a cancellation through. *)
Lemma retry_waits f g msg txt e :
  (forall o, obs_talk o = true -> g o = false) ->
  waits f g (fun _ => false) (if is_Exception e then safe_reply msg txt else Raise e).
Proof.
  intros Hg. apply waits_never; [|done]. destruct (is_Exception e); [by apply reply_never|apply never_raise].
Qed.

(** A class nothing before the fan-out belongs to. *)
Lemma unmute_waits_after f g :
  never g (locale_for_update upd) -> never g (get_active_mute target_id) -> never g active_groups ->
  (forall o, obs_talk o = true -> g o = false) ->
  (forall msg admin locale groups,
     waits f g (fun _ => false) (unmute_groups cfg msg admin admin_fname target_id target_name locale groups)) ->
  waits f g (fun _ => false) (execute_unmute cfg upd admin_fname target_id target_name).
Proof.
  intros Hl Hm Ha Ht Hk. unfold execute_unmute. cbv zeta.
  destruct (effective_message upd) as [msg|], (effective_user upd); try (apply waits_never; [apply never_ret|done]).
  apply waits_after; [exact Hl|intros locale|done].
  apply waits_after; [by apply never_attempt|intros [[d|]|e]|done].
  2: { apply waits_never; [by apply reply_never|done]. }
  2: { by apply retry_waits. }
  apply waits_after; [by apply never_attempt|intros [groups|e]; [apply Hk|by apply retry_waits]|done].
Qed.

(** The record is ordered deleted only once a chat took the change. *)
Lemma unmute_waits_undo :
  cfg_main_group cfg <> 0 ->
  waits obs_restricted obs_mute_undo (fun _ => false) (execute_unmute cfg upd admin_fname target_id target_name).
Proof.
  assert (forall o, obs_passive o = true -> obs_mute_undo o = false) as Hp by by intros [X [] r].
  intros Hmain. apply unmute_waits_after; [| | |apply talk_undo|].
  { by apply passive_never, locale_for_update_passive. }
  { unfold get_active_mute, db_call. never_auto. }
  { apply groups_never; [by intros c k [X [] r]|done]. }
  intros msg admin locale groups. unfold unmute_groups. cbv zeta.
  set (visited := with_primary_groups groups _ _).
  assert (0 < Z.of_nat (length visited)) as Hpos
    by (apply (with_primary_nonempty _ _ _ (cfg_main_group cfg)); simpl; auto).
  eapply (waits_then _ _ (fun r => match r with
    | Ok rs => count_transient_errors rs <? Z.of_nat (length visited) | Err _ => false end));
    [|intros rs Hrs%Z.ltb_ge|done].
  - eapply waits_weaken; [apply (fan_out_waits obs_restricted obs_mute_undo)|].
    + by intros [X [] r].
    + done.
    + intros c (d & <- & _)%in_map_iff. by apply never_call.
    + intros c (d & <- & _)%in_map_iff. apply wp_call. intros x _ Hx. simpl. by rewrite Hx.
    + intros [rs|e]; [|done]. by rewrite length_map.
  - replace ((0 <? Z.of_nat (length visited)) && (count_transient_errors rs >=? Z.of_nat (length visited)))
      with true; [apply waits_never; [apply reply_never, talk_undo|done]|].
    symmetry. rewrite Z.geb_leb. apply andb_true_iff. rewrite Z.ltb_lt, Z.leb_le. done.
Qed.

(** The log hears of it only once the record is gone. *)
Lemma unmute_waits_gone :
  waits obs_mute_gone obs_send (fun _ => false) (execute_unmute cfg upd admin_fname target_id target_name).
Proof.
  apply unmute_waits_after; [| | |apply talk_send|].
  { apply locale_for_update_never. by intros [X [] r]. }
  { unfold get_active_mute, db_call. never_auto. }
  { apply groups_never; [by intros c k [X [] r]|done]. }
  intros msg admin locale groups. unfold unmute_groups. cbv zeta.
  apply waits_after; [apply fan_out_never; try done; intros c (d & <- & _)%in_map_iff; by apply never_call|intros rs|done].
  destruct (_ && _); [apply waits_never; [apply reply_never, talk_send|done]|].
  eapply (waits_then _ _ (fun r => match r with Ok (Ok _) => true | _ => false end)).
  - unfold waits, clear_active_mute, db_call. wp_auto; by split.
  - intros [x|e] Hx; [done|]. by apply retry_waits, talk_send.
  - done.
Qed.
End unmute_lemmas.

(** An unmute tells the truth.  Permissions are touched only after an active
    mute of the user was read; the record is ordered deleted only after some
    chat took the change or refused it for good (given that a main group is
    configured); and nothing is posted to the log before the record is gone. *)
Theorem unmute_sound {CAT : Catalog} (cfg : config) (upd : update) (admin_fname : string)
    (target_id : Z) (target_name : string) (t : trace eff) (r : result unit)
    (Hrun : exec (execute_unmute cfg upd admin_fname target_id target_name) t r)
    (Hmain : cfg_main_group cfg <> 0) :
  guarded obs_mute_known obs_enforce t = true /\
  guarded obs_restricted obs_mute_undo t = true /\
  guarded obs_mute_gone obs_send t = true.
Proof.
  split; [exact (proj1 (wp_elim _ _ _ _ (unmute_waits_known cfg upd _ _ _) Hrun))|].
  split; [exact (proj1 (wp_elim _ _ _ _ (unmute_waits_undo cfg upd _ _ _ Hmain) Hrun))|].
  exact (proj1 (wp_elim _ _ _ _ (unmute_waits_gone cfg upd _ _ _) Hrun)).
Qed.

(** A restriction that will end by itself. *)
Definition obs_timed (o : obs eff) : bool :=
  match o with Obs ev _ => match ev with RestrictChatMember _ _ _ (Some _) => true | _ => false end end.

Lemma mute_enforce_untimed {CAT : Catalog} cfg m groups : never obs_timed (mute_enforce cfg m None groups).
Proof.
  unfold mute_enforce. cbv zeta.
  assert (never obs_timed (fan_out (map (fun grp => call (RestrictChatMember (chat_of grp) (mute_target_id m) false None)) groups))) as Hf.
  { apply fan_out_never; try done. intros c (d & <- & _)%in_map_iff. by apply never_call. }
  pose proof (fun A c th ms => never_weaken obs_timed obs_enforce (upload_proof A c th ms)
    (upload_never_enforce A c th ms)) as Hu.
  pose proof @throw_never. destruct (mute_proof_msgs m); [|destruct (cfg_proofs cfg)]; never_auto; try done; auto.
  apply Hu. by intros [X [] x].
Qed.

(** A zero duration mutes forever.  [/tcmute user 0d] parses to a duration
    of zero, which the executor takes for no duration: the summary says "0s",
    and yet no restriction of the run has an end. *)
Theorem zero_duration_mutes_forever {CAT : Catalog} (cfg : config) (upd : update) (m : mute_meta)
    (t : trace eff) (r : result unit) (Hrun : exec (_execute_mute cfg upd m) t r)
    (Hzero : @parse_duration (@cat_ucd CAT) (u "0d") = Ok (mute_duration m)) :
  Forall (fun o => obs_timed o = false) t /\
  forall locale, fmt_duration (mute_duration m) locale = TCat [TInt 0; TStr "s"].
Proof.
  change (u "0d") with (str_int 0 ++ u "d") in Hzero.
  rewrite (parse_duration_literal 0 _SECS_PER_DAY "d" (u "d")) in Hzero; [|lia|vm_compute; lia|done|done].
  injection Hzero as Hzero. assert (mute_duration m = Some 0) as Hz by exact (eq_sym Hzero). clear Hzero.
  rewrite Hz. split; [|done].
  assert (forall A (p : io A), never obs_enforce p -> never obs_timed p) as Hw.
  { intros A p Hp. apply (never_weaken _ obs_enforce); [exact Hp|]. by intros [X [] x]. }
  refine (never_elim _ _ _ _ _ Hrun). unfold _execute_mute. cbv zeta.
  assert (forall chat mid txt kb, never obs_timed (safe_edit_message chat mid txt kb true)) as Hnote.
  { intros. apply Hw, note_never, talk_enforce. }
  destruct (_ || _); [apply never_ret|].
  apply never_bind; [apply Hw, passive_never; [apply passive_enforce_false|apply locale_for_update_passive]|intros locale].
  apply never_bind; [never_auto|intros reason]. cbn [with_reason mute_duration]. rewrite Hz.
  change (mute_until (Some 0)) with (Ret (E := eff) (@None Z)). rewrite bind_ret.
  destruct (effective_chat upd) as [[ct chat]|]; [|apply never_ret].
  apply never_bind; [apply never_attempt, Hw, active_groups_never_enforce|intros [groups|e]].
  2: { destruct (is_Exception e); [apply Hnote|apply never_raise]. }
  apply never_bind; [apply Hw|intros b].
  { unfold record_mute, set_active_mute, log_mute, clear_active_mute, db_call. never_auto. }
  destruct b; cbn [negb]; [|apply Hnote].
  apply never_bind; [apply Hw, redemote_never_enforce|intros _].
  apply never_bind; [apply mute_enforce_untimed|intros [rs link]].
  apply Hw. unfold mute_report. destruct (cfg_logs cfg). cbv zeta. never_auto.
  apply reply_kb_never, talk_enforce.
Qed.

Lemma zero_duration_mutes_forever_witness :
  Forall (fun o => obs_timed o = false)
    (replay no_script (@_execute_mute demo_catalog demo_config (demo_update 7)
       (MuteMeta 9 7 "x" "boss" "spam" (Some 0) [] 5 6))).1.
Proof.
  refine (proj1 (@zero_duration_mutes_forever demo_catalog demo_config (demo_update 7)
    (MuteMeta 9 7 "x" "boss" "spam" (Some 0) [] 5 6) _ _ (replay_exec _ _) _)).
  vm_compute. reflexivity.
Defined.

Definition demo_mute : mute_meta := MuteMeta 9 7 "x" "boss" "spam" (Some 60) [] 5 6.

Lemma mute_record_first_witness :
  let down : script := fun X ev => match ev in eff X return option (result X) with
    | InsertOne _ _ => Some (Err TimeoutError) | _ => None end in
  let t := (replay down (@_execute_mute demo_catalog demo_config (demo_update 7) demo_mute)).1 in
  guarded obs_mute_logged obs_enforce t = true /\ existsb obs_mute_undo t = true.
Proof.
  intros down t.
  destruct (@mute_record_first demo_catalog demo_config (demo_update 7) demo_mute _ _ (replay_exec down _))
    as (_ & Hg & Hu).
  split; [exact Hg|]. destruct Hu as [H|H]; [vm_compute; reflexivity..|vm_compute in H; discriminate|exact H].
Defined.

Definition muted_user : script := fun X ev =>
  match ev in eff X return option (result X) with
  | FindOne "active_mutes" _ _ => Some (Ok (Some []))
  | _ => None
  end.

Lemma unmute_sound_witness :
  let t := (replay muted_user (@execute_unmute demo_catalog demo_config (demo_update 7) "boss" 9 "x")).1 in
  guarded obs_mute_gone obs_send t = true /\ existsb obs_send t = true /\ existsb obs_mute_undo t = true.
Proof.
  intros t. split; [|split; vm_compute; reflexivity].
  apply (@unmute_sound demo_catalog demo_config (demo_update 7) "boss" 9 "x" _ _ (replay_exec muted_user _)).
  discriminate.
Defined.
