(* ===== verification/KickFlow.v ===== *)
(** The kick and unban executors: [kicking_flow.py] and [unban_flow.py] under
    [tcbot/modules/helper/workflows]. *)

From S2P Require Import Prelude Prog Text World I18n Dispatch Cache Locale Roles Replies Auth Records ProofUpload DemoteFlow BanFlow.

Section kick.
Context {CAT : Catalog} (cfg : config).

(** The arguments [_exec_kick] hands over, and what the executor reads of the
    acting admin and the chat. *)
Record kick_request := KickRequest {
  kick_target_id : Z;
  kick_target_name : string;
  kick_reason : string;
  kick_proof_msgs : list proof_message;
  kick_prompt : option (Z * Z);
  kick_admin_fname : string;
  kick_chat_title : string
}.

Definition kick_user (k : kick_request) : string * text :=
  ("user"%string, TUser (kick_target_id k) (kick_target_name k)).

(** Audit row, then ban.  [false]: the row could not be written, which was
    said, and nobody was touched. *)
Definition kick_foreground (k : kick_request) (msg : message) (admin_id chat_id : Z) (locale : ustr) : io bool :=
  logged <- attempt (log_kick (kick_target_id k) chat_id (kick_reason k) admin_id) ;;
  match logged with
  | Err e =>
      if is_Exception e then safe_reply msg (TKey "common.err.db_retry" locale []) ;;; Ret false else Raise e
  | Ok _ => call (BanChatMember chat_id (kick_target_id k)) ;;; Ret true
  end.

(** From the landed ban on: evidence, re-demotion, the unban that makes it a
    kick, and the report. *)
Definition kick_finish (k : kick_request) (msg : message) (admin_id chat_id : Z) (locale : ustr)
    (proof : result (option Z)) : io unit :=
  let (pc, pt) := cfg_proofs cfg in
  let (lc, lt) := cfg_logs cfg in
  let target_id := kick_target_id k in
  proof_msg_id <- match proof with
                  | Ok p => Ret p
                  | Err e => if is_Exception e then Ret None else Raise e
                  end ;;
  let proof_link := match proof_msg_id with
                    | Some p => if truthy_Z p then Some (TLink pc p pt) else None
                    | None => None
                    end in
  let proof_kb := Some (TBuild "keyboards.action_proof_kb" [TInt target_id; TOpt proof_link]) in
  let log_text := TBuild "parse_logmsg.kick_log"
    [TInt target_id; TStr (kick_target_name k); TInt admin_id; TStr (kick_admin_fname k);
     TStr (kick_reason k); TInt chat_id; TStr (kick_chat_title k)] in
  redemote_before_fanout cfg target_id (kick_target_name k) admin_id (kick_admin_fname k) "kick" ;;;
  let! (unban_result, log_send_result) :=
    gather2 (call (UnbanChatMember chat_id target_id true)) (call (SendMessage lc log_text lt proof_kb)) in
  let unban_warning := if is_err unban_result then TKey "kicking.warn.unban" locale [] else TStr "" in
  let summary := TKey "kicking.summary.body" locale
    [kick_user k; ("reason"%string, TStr (kick_reason k));
     ("rejoin"%string, TKey "kicking.rejoin.body" locale []); ("warning"%string, unban_warning)] in
  match kick_prompt k with
  | Some (prompt_chat, prompt_id) =>
      try_except (call (EditMessageText prompt_chat prompt_id summary proof_kb))
        (fun _ => safe_reply_kb msg summary proof_kb)
  | None => safe_reply_kb msg summary proof_kb
  end.

Definition execute_kick (upd : update) (k : kick_request) : io unit :=
  match effective_user upd, effective_chat upd, effective_message upd with
  | Some admin_id, Some (_, chat_id), Some msg =>
      locale <- locale_for_update upd ;;
      upload <- (match kick_proof_msgs k with
                 | [] => Ret (Ret None)
                 | _ =>
                     let (pc, pt) := cfg_proofs cfg in
                     now <- call UtcNow ;;
                     let caption := TBuild "parse_logmsg.proof_caption_new"
                       [TInt (kick_target_id k); TInt admin_id; TStr (kick_admin_fname k); TInt now] in
                     Ret (upload_proof caption pc pt (kick_proof_msgs k))
                 end) ;;
      let error := safe_reply msg (TKey "kicking.error.body" locale [kick_user k]) in
      let! (kicked, proof) :=
        gather2 (kick_foreground k msg admin_id chat_id locale) (upload : io (option Z)) in
      match kicked with
      | Ok false => Ret tt
      | Err e => if is_Exception e then error else Raise e
      | Ok true => try_except (kick_finish k msg admin_id chat_id locale proof) (fun _ => error)
      end
  | _, _, _ => Ret tt
  end.

(** * Unban *)

(** The note on what applied. *)
Definition unban_note (locale : ustr) (groups : list doc) (results : list (result unit)) : text :=
  let total := Z.of_nat (length groups) in
  let failed := count_transient_errors results in
  let transient_groups := groups_where (fun e => negb (is_benign_telegram_error e)) groups results in
  if truthy_Z failed then
    TKey "unbanning.note.partial" locale
      [("done"%string, TInt (total - failed)); ("total"%string, TInt total);
       ("sample"%string, sample_titles 5 transient_groups);
       ("more"%string, TStr (if (5 <? length transient_groups)%nat then " ..." else ""))]
  else TKey "unbanning.note.full" locale [("total"%string, TInt total)].

(** The log card, and the reply when there is a message to answer. *)
Definition unban_report (msg : option message) (log_text summary : text) : io unit :=
  let (lc, lt) := cfg_logs cfg in
  match msg with
  | Some msg =>
      gather2 (call (SendMessage lc log_text lt None)) (call (ReplyText (message_id msg) summary None)) ;;; Ret tt
  | None => call (SendMessage lc log_text lt None) ;;; Ret tt
  end.

Definition execute_unban (upd : update) (admin_fname : string) (target_id : Z) (target_fname : string)
    (pre_ban : option doc) : io unit :=
  let msg := effective_message upd in
  locale <- locale_for_update upd ;;
  let user := ("user"%string, TUser target_id target_fname) in
  let note key := reply_if msg (TKey key locale [user]) in
  ban <- match pre_ban with
         | Some ban => Ret (Ok (Some ban))
         | None => attempt (get_active_ban target_id)
         end ;;
  match ban with
  | Err e => if is_Exception e then note "unbanning.note.read_fail"%string else Raise e
  | Ok None | Ok (Some []) => note "unbanning.note.no_record"%string
  | Ok (Some ban) =>
      let ban_id := dget_str "ban_id" ban "" in
      groups <- attempt active_groups ;;
      match groups with
      | Err e => if is_Exception e then note "unbanning.note.groups_fail"%string else Raise e
      | Ok groups =>
          deactivated <- attempt (deactivate_all_active_bans target_id) ;;
          match deactivated with
          | Err e => if is_Exception e then note "unbanning.note.db_fail"%string else Raise e
          | Ok _ =>
              let groups := with_primary_groups groups [cfg_main_group cfg; cfg_exec_group cfg] [] in
              results <- fan_out (map (fun grp => call (UnbanChatMember (chat_of grp) target_id true)) groups) ;;
              let log_text := TBuild "parse_logmsg.unban_log"
                [TInt target_id; TStr target_fname;
                 TInt (match effective_user upd with Some admin => admin | None => 0 end);
                 TStr (match effective_user upd with Some _ => admin_fname | None => "anonymous admin" end);
                 TStr ban_id] in
              unban_report msg log_text
                (TKey "unbanning.summary.body" locale [user; ("note"%string, unban_note locale groups results)])
          end
      end
  end.
End kick.

(** * Properties *)

Definition obs_kick_logged (o : obs eff) : bool :=
  match o with Obs ev r => match ev with InsertOne "kicks" _ => negb (is_err r) | _ => false end end.
Definition obs_banned (o : obs eff) : bool :=
  match o with Obs ev r => match ev with BanChatMember _ _ => negb (is_err r) | _ => false end end.
Definition obs_unban (o : obs eff) : bool :=
  match o with Obs ev _ => match ev with UnbanChatMember _ _ _ => true | _ => false end end.

(** The user's bans were marked inactive. *)
Definition obs_deactivated (o : obs eff) : bool :=
  match o with Obs ev r => match ev with UpdateMany "bans" _ _ => negb (is_err r) | _ => false end end.

(** A write to the bans collection. *)
Definition obs_ban_write (o : obs eff) : bool :=
  match o with Obs ev _ => match ev with UpdateMany "bans" _ _ => true | _ => false end end.

Section kick_lemmas.
Context {CAT : Catalog} (cfg : config).

(** A re-demotion never fails, it can only be cancelled. *)
Lemma redemote_total tid n eid en tr :
  wp (redemote_before_fanout cfg tid n eid en tr)
     (fun _ r => match r with Ok _ => True | Err e => is_Exception e = false end).
Proof.
  unfold redemote_before_fanout. apply wp_bind, wp_attempt, wp_intro. intros t [role|e] _.
  - destruct (negb _); [by apply wp_ret|]. apply wp_try, wp_intro. intros t' [x|e] _; [done|].
    destruct (is_Exception e) eqn:He; [by apply wp_ret|done].
  - destruct (is_Exception e) eqn:He; [by apply wp_ret|by apply wp_raise].
Qed.

Lemma kick_foreground_spec k msg aid cid locale :
  wp (kick_foreground k msg aid cid locale) (fun t r =>
    guarded obs_kick_logged obs_enforce t = true /\
    (r = Ok true -> existsb obs_kick_logged t = true) /\
    (existsb obs_banned t = true -> r = Ok true)).
Proof.
  unfold kick_foreground, log_kick, safe_reply, db_call. wp_auto; repeat split; done.
Qed.

(** A landed ban is followed by an unban, unless the task is cancelled. *)
Lemma kick_finish_unbans k msg aid cid locale proof :
  wp (kick_finish cfg k msg aid cid locale proof) (fun t r =>
    existsb obs_unban t = true \/ match r with Ok _ => False | Err e => is_Exception e = false end).
Proof.
  unfold kick_finish. destruct (cfg_proofs cfg), (cfg_logs cfg). cbv zeta.
  apply wp_bind.
  assert (wp (match proof with Ok p => Ret p | Err e => if is_Exception e then Ret None else Raise e end)
    (fun _ (r : result (option Z)) => match r with Ok _ => True | Err e => is_Exception e = false end)) as Hp.
  { destruct proof as [?|e]; [by apply wp_ret|]. destruct (is_Exception e) eqn:?; [by apply wp_ret|by apply wp_raise]. }
  eapply wp_mono; [exact Hp|]. intros t1 [pid|e] H1; [|by right].
  apply wp_bind. eapply wp_mono; [apply redemote_total|]. intros t2 [x|e] H2; [|by right].
  apply wp_bind. eapply (wp_gather2 _ _ (fun t _ => existsb obs_unban t = true) (fun _ _ => True)).
  { by apply wp_call. }
  { by apply wp_intro. }
  intros ta tb t ra rb Ha _ Hi. split; [|by right]. apply wp_intro. intros t' r _. left.
  rewrite !existsb_app, (interleave_existsb obs_unban _ _ _ Hi), Ha. simpl. by rewrite !orb_true_r.
Qed.

(** A good run of the executor. *)
Definition kick_ok (t : trace eff) (r : result unit) : Prop :=
  guarded obs_kick_logged obs_enforce t = true /\
  (r = Ok tt -> existsb obs_banned t = true -> existsb obs_unban t = true).

Lemma calm_no_ban t : Forall (fun o => obs_enforce o = false) t -> existsb obs_banned t = false.
Proof.
  intros H. apply existsb_false_Forall. eapply Forall_impl; [exact H|]. by intros [X [] r].
Qed.

Lemma kick_ok_calm t r : Forall (fun o => obs_enforce o = false) t -> kick_ok t r.
Proof. intros H. split; [by apply guarded_none|]. by rewrite calm_no_ban. Qed.

(** From the gathered foreground and upload on. *)
Lemma kick_outcome k msg aid cid locale t0 ta tb t12 kicked proof :
  Forall (fun o => obs_enforce o = false) (t0 ++ tb) -> interleave ta tb t12 ->
  guarded obs_kick_logged obs_enforce ta = true ->
  (kicked = Ok true -> existsb obs_kick_logged ta = true) ->
  (existsb obs_banned ta = true -> kicked = Ok true) ->
  wp (match kicked with
      | Ok false => Ret tt
      | Err e => if is_Exception e then safe_reply msg (TKey "kicking.error.body" locale [kick_user k]) else Raise e
      | Ok true => try_except (kick_finish cfg k msg aid cid locale proof)
                     (fun _ => safe_reply msg (TKey "kicking.error.body" locale [kick_user k]))
      end) (fun t r => kick_ok (t0 ++ t12 ++ t) r).
Proof.
  intros [H0 Hb]%Forall_app Hi Hg Hlog Hban.
  pose proof (guarded_interleave _ _ _ _ _ Hi Hg Hb) as Hg12.
  assert (forall t r, kicked <> Ok true -> Forall (fun o => obs_enforce o = false) t -> kick_ok (t0 ++ t12 ++ t) r) as Hcalm.
  { intros t r Hk Ht. split.
    - rewrite !guarded_app, Hg12, (guarded_none _ _ t0 H0), (guarded_none _ _ t Ht), !orb_true_r. done.
    - rewrite !existsb_app, (interleave_existsb _ _ _ _ Hi), (calm_no_ban t0 H0), (calm_no_ban tb Hb), (calm_no_ban t Ht). simpl. rewrite !orb_false_r.
      intros _ Hta. by destruct Hk, Hban. }
  destruct kicked as [[]|e].
  - apply wp_intro. intros t r Hr. specialize (Hlog eq_refl). split.
    + rewrite !guarded_app, Hg12, (guarded_none _ _ t0 H0), (interleave_existsb _ _ _ _ Hi), Hlog. simpl.
      by rewrite !orb_true_r.
    + intros -> _. rewrite !existsb_app.
      enough (existsb obs_unban t = true) as -> by by rewrite !orb_true_r. revert t Hr. refine (wp_elim_ok _ _ _ _).
      apply wp_try. eapply wp_mono; [apply kick_finish_unbans|]. intros t [x|e] [Hu|Hu]; try done.
      * destruct (is_Exception e); [|done]. apply wp_intro. intros t' r' _ _. by rewrite existsb_app, Hu.
      * by rewrite Hu.
  - apply wp_ret. apply Hcalm; [done|constructor].
  - destruct (is_Exception e); [|apply wp_raise; apply Hcalm; [done|constructor]].
    eapply wp_mono; [apply (reply_never obs_enforce), talk_enforce|]. intros t r Ht. by apply Hcalm.
Qed.
End kick_lemmas.

(** A kick is on record before it happens, and never stays a ban.  In every
    run the user is banned only after the audit row was written; and a run
    that is not cancelled and whose ban landed has also lifted it, or tried
    to, whatever the evidence upload, the re-demotion and the log answer. *)
Theorem kick_recorded_and_lifted {CAT : Catalog} (cfg : config) (upd : update) (k : kick_request)
    (t : trace eff) (r : result unit) (Hrun : exec (execute_kick cfg upd k) t r) :
  guarded obs_kick_logged obs_enforce t = true /\
  (r = Ok tt -> existsb obs_banned t = true -> existsb obs_unban t = true).
Proof.
  change (kick_ok t r). revert t r Hrun. refine (wp_elim' _ _ _). unfold execute_kick. cbv zeta.
  destruct (effective_user upd) as [aid|], (effective_chat upd) as [[ct cid]|], (effective_message upd) as [msg|];
    try (apply wp_ret, kick_ok_calm; by constructor).
  destruct (cfg_proofs cfg) as [pc pt].
  apply (wp_never_bind obs_enforce); [|intros tl locale Htl _|intros; by apply kick_ok_calm].
  { apply passive_never; [apply passive_enforce_false|apply locale_for_update_passive]. }
  apply wp_bind. eapply wp_mono; [apply upload_choice_never|]. intros tu [up|e] [Hc Hup].
  2: { apply kick_ok_calm. by apply Forall_app. }
  apply wp_bind. eapply wp_gather2; [apply kick_foreground_spec|exact Hup|].
  intros ta tb t12 ra rb (Hg & Hlog & Hban) Hb Hi. split.
  - cbn beta iota. eapply wp_mono; [apply (kick_outcome cfg k msg aid cid locale (tl ++ tu) ta tb t12)|];
      [by repeat (apply Forall_app; split)|done..|].
    intros t r. cbn beta. by rewrite <- app_assoc.
  - split; [|done]. rewrite !guarded_app, (guarded_interleave _ _ _ _ _ Hi Hg Hb), (guarded_none _ _ tl Htl),
      (guarded_none _ _ tu Hc), !orb_true_r. done.
Qed.

Definition demo_kick : kick_request := KickRequest 9 "x" "spam" [] None "boss" "chat".

Lemma kick_recorded_and_lifted_witness :
  let t := (replay no_script (@execute_kick demo_catalog demo_config (demo_update 7) demo_kick)).1 in
  existsb obs_banned t = true /\ existsb obs_unban t = true /\ guarded obs_kick_logged obs_enforce t = true.
Proof.
  intros t. split; [vm_compute; reflexivity|].
  destruct (@kick_recorded_and_lifted demo_catalog demo_config (demo_update 7) demo_kick _ _ (replay_exec no_script _))
    as [Hg Hu].
  split; [apply Hu; vm_compute; reflexivity|exact Hg].
Defined.

Section unban_lemmas.
Context {CAT : Catalog} (cfg : config) (upd : update) (admin_fname : string) (target_id : Z)
  (target_fname : string) (pre_ban : option doc).

Lemma talk_act o : obs_talk o = true -> obs_act o = false.
Proof. by destruct o as [X [] r]. Qed.
Lemma talk_ban_write o : obs_talk o = true -> obs_ban_write o = false.
Proof. by destruct o as [X [] r]. Qed.

Lemma ban_lookup_never f :
  (forall r, f (Obs (FindOne "bans" ["banned_user_id" ~> BInt target_id; "is_active" ~> BBool true] by_time_desc) r) = false) ->
  never f (match pre_ban with
           | Some ban => Ret (Ok (Some ban))
           | None => attempt (get_active_ban target_id)
           end).
Proof.
  intros Hf. destruct pre_ban; [apply never_ret|]. unfold get_active_ban, db_call.
  apply never_attempt, never_call. exact Hf.
Qed.

Lemma unban_waits :
  waits obs_deactivated obs_act (fun _ => false)
    (execute_unban cfg upd admin_fname target_id target_fname pre_ban).
Proof.
  unfold execute_unban. cbv zeta.
  assert (forall msg txt, waits obs_deactivated obs_act (fun _ : result unit => false) (reply_if msg txt)) as Hnote.
  { intros. apply waits_never; [apply reply_if_never, talk_act|done]. }
  assert (forall e : exn, waits obs_deactivated obs_act (fun _ : result unit => false) (Raise e)) as Hraise.
  { intros e. apply waits_never; [apply never_raise|done]. }
  apply waits_after; [apply locale_for_update_never; by intros [X [] r]|intros locale|done].
  apply waits_after; [by apply ban_lookup_never|intros [[[|kv d]|]|e]|done]; try apply Hnote.
  2: { destruct (is_Exception e); auto. }
  apply waits_after; [apply never_attempt, active_groups_never|intros [groups|e]|done].
  2: { destruct (is_Exception e); auto. }
  eapply (waits_then _ _ (fun r => match r with Ok (Ok _) => true | _ => false end)).
  - unfold waits, deactivate_all_active_bans, db_call. wp_auto; by split.
  - intros [n|e] Hn; [done|]. destruct (is_Exception e); auto.
  - done.
Qed.

(** What a run that wrote the bans did before. *)
Definition groups_first (t : trace eff) : Prop :=
  existsb obs_ban_write t = true ->
  exists t1 t2 t3 groups, t = t1 ++ t2 ++ t3 /\ existsb obs_ban_write (t1 ++ t2) = false /\
    exec active_groups t2 (Ok groups).

Lemma groups_first_calm t : Forall (fun o => obs_ban_write o = false) t -> groups_first t.
Proof. intros H Hb. by rewrite (proj2 (existsb_false_Forall _ _) H) in Hb. Qed.

Lemma groups_first_never {A} (p : io A) t :
  Forall (fun o => obs_ban_write o = false) t -> never obs_ban_write p ->
  wp p (fun t' _ => groups_first (t ++ t')).
Proof.
  intros Ht Hp. eapply wp_mono; [exact Hp|]. intros t' r Ht'. apply groups_first_calm. by apply Forall_app.
Qed.

Lemma unban_groups_first :
  wp (execute_unban cfg upd admin_fname target_id target_fname pre_ban) (fun t _ => groups_first t).
Proof.
  unfold execute_unban. cbv zeta.
  pose proof (fun m x => reply_if_never obs_ban_write m x talk_ban_write) as Hnote.
  apply (wp_never_bind obs_ban_write); [apply locale_for_update_never; by intros [X [] r]|
    intros tl locale Htl _|intros; by apply groups_first_calm].
  apply (wp_never_bind obs_ban_write); [by apply ban_lookup_never|intros tb ban Htb _|
    intros tb e Htb _; apply groups_first_calm; by apply Forall_app].
  assert (Forall (fun o => obs_ban_write o = false) (tl ++ tb)) as H0 by by apply Forall_app.
  assert (never obs_ban_write active_groups) as Hg by (apply groups_never; [by intros c k [X [] r]|done]).
  eapply wp_mono; [|intros t r Ht; cbn beta in Ht |- *; rewrite app_assoc; exact Ht].
  destruct ban as [[[|kv d]|]|e]; try (by apply groups_first_never).
  2: { destruct (is_Exception e); apply groups_first_never; auto. apply never_raise. }
  apply wp_bind, wp_attempt, wp_intro. intros tg groups Hr.
  pose proof (never_elim _ _ _ _ Hg Hr) as Htg.
  eapply wp_mono; [|intros t r Ht; cbn beta in Ht |- *; rewrite app_assoc; exact Ht].
  destruct groups as [groups|e].
  - apply wp_intro. intros t r _ _. exists (tl ++ tb), tg, t, groups. split; [by rewrite app_assoc|]. split; [|done].
    apply existsb_false_Forall. by apply Forall_app.
  - destruct (is_Exception e); apply groups_first_never; auto using never_raise; by apply Forall_app.
Qed.
End unban_lemmas.

(** An unban never splits the record from the chats.  The user is unbanned
    in a chat, and the log is told, only after the bans were marked inactive;
    and the bans are marked inactive only after the list of groups was loaded:
    a failed read or write leaves the chats as they were. *)
Theorem unban_record_first {CAT : Catalog} (cfg : config) (upd : update) (admin_fname : string)
    (target_id : Z) (target_fname : string) (pre_ban : option doc) (t : trace eff) (r : result unit)
    (Hrun : exec (execute_unban cfg upd admin_fname target_id target_fname pre_ban) t r) :
  guarded obs_deactivated obs_act t = true /\
  (existsb obs_ban_write t = true ->
   exists t1 t2 t3 groups, t = t1 ++ t2 ++ t3 /\ existsb obs_ban_write (t1 ++ t2) = false /\
     exec active_groups t2 (Ok groups)).
Proof.
  split; [exact (proj1 (wp_elim _ _ _ _ (unban_waits cfg upd _ _ _ _) Hrun))|].
  exact (wp_elim _ _ _ _ (unban_groups_first cfg upd _ _ _ _) Hrun).
Qed.

Lemma unban_record_first_witness :
  let groups_down : script := fun X ev => match ev in eff X return option (result X) with
    | FindOne "bans" _ _ => Some (Ok (Some ["ban_id" ~> BStr "abcd"]))
    | Find _ _ _ _ _ => Some (Err TimeoutError) | _ => None end in
  let t := (replay groups_down (@execute_unban demo_catalog demo_config (demo_update 7) "boss" 9 "x" None)).1 in
  guarded obs_deactivated obs_act t = true /\ existsb obs_ban_write t = false.
Proof.
  intros groups_down t. split; [|vm_compute; reflexivity].
  exact (proj1 (@unban_record_first demo_catalog demo_config (demo_update 7) "boss" 9 "x" None _ _
    (replay_exec groups_down _))).
Defined.
