(* ===== verification/WarnManage.v ===== *)
(** Removing, listing and resetting warnings: [warning_flow/manage.py] under
    [tcbot/modules/helper/workflows]. *)

From S2P Require Import Prelude Prog Text World I18n Dispatch Locale Replies Auth Records Warns.

Section manage.
Context {CAT : Catalog} (cfg : config).

(** What the executors read of the chat and the acting admin. *)
Record warn_context := WarnContext {
  wc_target_id : Z;
  wc_target_name : string;
  wc_admin_fname : string;
  wc_chat_title : string
}.

Definition wc_user (w : warn_context) : string * text :=
  ("user"%string, TUser (wc_target_id w) (wc_target_name w)).

Definition db_retry (msg : message) (locale : ustr) : io unit :=
  safe_reply msg (TKey "common.err.db_retry" locale []).

(** The log card and the answer, together. *)
Definition log_and_reply (msg : message) (log_text reply : text) : io unit :=
  let (lc, lt) := cfg_logs cfg in
  gather2 (call (SendMessage lc log_text lt None)) (call (ReplyText (message_id msg) reply None)) ;;; Ret tt.

Definition unwarn_log (w : warn_context) (admin new_count chat_id : Z) : text :=
  TBuild "parse_logmsg.unwarn_log"
    [TInt (wc_target_id w); TStr (wc_target_name w); TInt admin; TStr (wc_admin_fname w);
     TInt new_count; TInt (cfg_warn_limit cfg); TInt chat_id; TStr (wc_chat_title w)].

Definition execute_unwarn (upd : update) (w : warn_context) : io unit :=
  match effective_message upd, effective_chat upd with
  | Some msg, Some (_, chat_id) =>
      let target_id := wc_target_id w in
      locale <- locale_for_update upd ;;
      let none := safe_reply msg (TKey "warnings.none.body" locale [wc_user w]) in
      count <- attempt (warn_count target_id chat_id) ;;
      match count with
      | Err e => if is_Exception e then db_retry msg locale else Raise e
      | Ok count =>
          if count =? 0 then none
          else
            match effective_user upd with
            | None => Ret tt
            | Some admin =>
                removed <- attempt (remove_last_warn target_id chat_id) ;;
                match removed with
                | Err e => if is_Exception e then db_retry msg locale else Raise e
                | Ok false => none
                | Ok true =>
                    new_count <- try_except (warn_count target_id chat_id) (fun _ => Ret (Z.max (count - 1) 0)) ;;
                    log_and_reply msg (unwarn_log w admin new_count chat_id)
                      (TKey "warnings.removed.body" locale
                         [wc_user w; ("new"%string, TInt new_count); ("limit"%string, TInt (cfg_warn_limit cfg))])
                end
            end
      end
  | _, _ => Ret tt
  end.

(** One line per warning, numbered from 1. *)
Fixpoint warn_lines (locale : ustr) (i : Z) (warns : list doc) : list text :=
  match warns with
  | [] => []
  | w :: warns =>
      TKey "warnings.list.item" locale
        [("i"%string, TInt i);
         ("reason"%string, if truthy_str (dget_str "reason" w "") then TStr (dget_str "reason" w "")
                           else TKey "warnings.list.no_reason" locale [])]
      :: warn_lines locale (i + 1) warns
  end.

Definition execute_warnlist (upd : update) (w : warn_context) : io unit :=
  match effective_message upd, effective_chat upd with
  | Some msg, Some (_, chat_id) =>
      locale <- locale_for_update upd ;;
      warns <- attempt (get_warns (wc_target_id w) chat_id 0 None false) ;;
      match warns with
      | Err e => if is_Exception e then db_retry msg locale else Raise e
      | Ok [] => safe_reply msg (TKey "warnings.none.body" locale [wc_user w])
      | Ok warns =>
          let header := TKey "warnings.list.header" locale
            [wc_user w; ("count"%string, TInt (Z.of_nat (length warns)));
             ("limit"%string, TInt (cfg_warn_limit cfg))] in
          safe_reply msg (TBuild "join_lines" (header :: warn_lines locale 1 warns))
      end
  | _, _ => Ret tt
  end.

Definition execute_resetwarns (upd : update) (w : warn_context) : io unit :=
  match effective_message upd, effective_user upd, effective_chat upd with
  | Some msg, Some admin, Some (_, chat_id) =>
      locale <- locale_for_update upd ;;
      removed <- attempt (clear_warns (wc_target_id w) chat_id) ;;
      match removed with
      | Err e => if is_Exception e then db_retry msg locale else Raise e
      | Ok removed =>
          if removed =? 0 then safe_reply msg (TKey "warnings.none_clear.body" locale [wc_user w])
          else
            log_and_reply msg
              (TBuild "parse_logmsg.resetwarns_log"
                 [TInt (wc_target_id w); TStr (wc_target_name w); TInt admin; TStr (wc_admin_fname w);
                  TInt removed; TInt chat_id; TStr (wc_chat_title w)])
              (TKey "warnings.cleared.body" locale [("removed"%string, TInt removed); wc_user w])
      end
  | _, _, _ => Ret tt
  end.
End manage.

(** * Properties *)

(** Warning records were deleted: one, or all of a member's. *)
Definition obs_warns_deleted (o : obs eff) : bool :=
  match o with
  | Obs ev r =>
      match ev in eff X return result X -> bool with
      | DeleteOne "warns" _ | DeleteMany "warns" _ =>
          fun r => match r with Ok n => negb (n =? 0) | Err _ => false end
      | _ => fun _ => false
      end r
  end.

(** Anything posted to the log channel. *)
Definition obs_posted (o : obs eff) : bool :=
  match o with Obs ev _ => match ev with SendMessage _ _ _ _ => true | _ => false end end.

Lemma talk_posted o : obs_talk o = true -> obs_posted o = false.
Proof. by destruct o as [X [] r]. Qed.

(** A positive answer of the database layer comes with a deletion. *)
Lemma remove_last_warn_deletes uid cid :
  wp (remove_last_warn uid cid) (fun t r => r = Ok true -> existsb obs_warns_deleted t = true).
Proof.
  unfold remove_last_warn, db_call. wp_step. wp_step. destruct x as [[d|]|e]; [|by apply wp_ret|done].
  apply wp_bind. destruct (dget "_id" d) as [id|]; [apply wp_ret|by apply wp_raise].
  apply wp_bind, wp_call. intros [now|e] _; [|done].
  apply wp_bind. eapply (wp_gather2 _ _
    (fun t r => match r with Ok n => n <> 0 -> existsb obs_warns_deleted t = true | Err _ => True end)
    (fun _ _ => True)).
  { apply wp_call. intros [n|e] _; [|done]. intros Hn. simpl. by apply Z.eqb_neq in Hn as ->. }
  { by apply wp_intro. }
  intros t1 t2 t r1 r2 H1 _ Hi. split; [|done]. cbn beta iota.
  destruct r1 as [n|e].
  - destruct (n =? 0) eqn:Hn.
    + apply wp_bind, wp_intro. intros t3 [x|e] _; [by apply wp_ret|done].
    + to_prop. apply wp_intro. intros t3 r _ _. simpl. rewrite existsb_app, (interleave_existsb _ _ _ _ Hi).
      by rewrite (H1 Hn).
  - apply wp_intro. intros t3 r Hr ->. exfalso. revert t3 Hr. refine (wp_elim_ok _ _ (fun _ => False) _).
    destruct e; try (by apply wp_raise); apply wp_bind, wp_intro; intros t3 [x|e'] _; try done; by apply wp_raise.
Qed.

Lemma clear_warns_deletes uid cid :
  wp (clear_warns uid cid) (fun t r => forall n, r = Ok n -> n <> 0 -> existsb obs_warns_deleted t = true).
Proof.
  unfold clear_warns, _clear_warn_docs, db_call. apply wp_bind. eapply (wp_gather2 _ _
    (fun t r => match r with Ok n => n <> 0 -> existsb obs_warns_deleted t = true | Err _ => True end)
    (fun _ _ => True)).
  { apply wp_call. intros [n|e] _; [|done]. intros Hn. simpl. by apply Z.eqb_neq in Hn as ->. }
  { by apply wp_intro. }
  intros t1 t2 t r1 r2 H1 _ Hi. split; [|done]. cbn beta iota.
  apply wp_bind, wp_intro. intros t3 [x|e] _; [|done].
  destruct r1 as [n|e]; [apply wp_ret|by apply wp_raise]. intros m [= ->] Hm.
  by rewrite existsb_app, (interleave_existsb _ _ _ _ Hi), (H1 Hm).
Qed.

Lemma recount_never uid cid : never obs_posted (_recount_and_store uid cid).
Proof. unfold _recount_and_store, _store_warn_count, db_call. never_auto. Qed.

Lemma remove_last_warn_never uid cid : never obs_posted (remove_last_warn uid cid).
Proof. unfold remove_last_warn, db_call. pose proof recount_never. never_auto; done. Qed.

Lemma clear_warns_never uid cid : never obs_posted (clear_warns uid cid).
Proof.
  unfold clear_warns, _clear_warn_docs, _repair_counter_delete, db_call. pose proof recount_never. never_auto; done.
Qed.

Lemma warn_count_never uid cid : never obs_posted (warn_count uid cid).
Proof. unfold warn_count, _sync_warn_count, db_call. never_auto. Qed.

Section manage_lemmas.
Context {CAT : Catalog} (cfg : config) (upd : update) (w : warn_context).

Abbreviation holds := (waits obs_warns_deleted obs_posted (fun _ : result unit => false)).

Lemma reply_holds msg txt : holds (safe_reply msg txt).
Proof. apply waits_never; [apply reply_never, talk_posted|done]. Qed.

Lemma retry_holds msg txt e : holds (if is_Exception e then safe_reply msg txt else Raise e).
Proof. destruct (is_Exception e); [apply reply_holds|apply waits_never; [apply never_raise|done]]. Qed.

Lemma skip_holds : holds (Ret tt).
Proof. apply waits_never; [apply never_ret|done]. Qed.

Lemma unwarn_holds : holds (execute_unwarn cfg upd w).
Proof.
  unfold execute_unwarn, db_retry. cbv zeta. pose proof reply_holds. pose proof retry_holds. pose proof skip_holds.
  destruct (effective_message upd) as [msg|], (effective_chat upd) as [[ct cid]|]; try done.
  apply waits_after; [apply locale_for_update_never; by intros [X [] x]|intros locale|done].
  apply waits_after; [apply never_attempt, warn_count_never|intros [n|e]|done]; [|done].
  destruct (n =? 0); [done|]. destruct (effective_user upd) as [admin|]; [|done].
  eapply waits_then; [apply (waits_attempt _ _ (fun r => match r with Ok b => b | Err _ => false end)), waits_from| |done].
  - apply remove_last_warn_never.
  - eapply wp_mono; [apply remove_last_warn_deletes|]. intros t [[]|e] Ht ?; try done. by apply Ht.
  - by intros [[]|e].
Qed.

Lemma resetwarns_holds : holds (execute_resetwarns cfg upd w).
Proof.
  unfold execute_resetwarns, db_retry. pose proof reply_holds. pose proof retry_holds. pose proof skip_holds.
  destruct (effective_message upd) as [msg|], (effective_user upd) as [admin|], (effective_chat upd) as [[ct cid]|];
    try done.
  apply waits_after; [apply locale_for_update_never; by intros [X [] x]|intros locale|done].
  eapply waits_then; [apply (waits_attempt _ _ (fun r => match r with Ok n => negb (n =? 0) | Err _ => false end)), waits_from| |done].
  - apply clear_warns_never.
  - eapply wp_mono; [apply clear_warns_deletes|]. intros t [n|e] Ht Hn; [|done].
    apply (Ht n eq_refl). apply negb_true_iff in Hn. by to_prop.
  - intros [n|e] Hn; [|done]. apply negb_false_iff in Hn. by rewrite Hn.
Qed.
End manage_lemmas.

(** The log channel only hears of warnings that were removed.  In every run
    of [/tcunwarn] and of [/tcresetwarns] nothing is posted to it before a
    warning record was deleted, whatever races or fails. *)
Theorem removal_logged_after_delete {CAT : Catalog} (cfg : config) (upd : update) (w : warn_context)
    (t : trace eff) (r : result unit)
    (Hrun : exec (execute_unwarn cfg upd w) t r \/ exec (execute_resetwarns cfg upd w) t r) :
  guarded obs_warns_deleted obs_posted t = true.
Proof.
  destruct Hrun as [Hrun|Hrun].
  - exact (proj1 (wp_elim _ _ _ _ (unwarn_holds cfg upd w) Hrun)).
  - exact (proj1 (wp_elim _ _ _ _ (resetwarns_holds cfg upd w) Hrun)).
Qed.

(** A racing removal: the count says one warning, the record is gone. *)
Definition raced_unwarn : script := fun X ev =>
  match ev in eff X return option (result X) with
  | FindOne "warn_counts" _ _ => Some (Ok (Some [("count"%string, BInt 1)]))
  | FindOne "warns" _ _ => Some (Ok (Some [("_id"%string, BId "w")]))
  | DeleteOne "warns" _ => Some (Ok 0)
  | _ => None
  end.

Lemma removal_logged_after_delete_witness :
  let t := (replay raced_unwarn (@execute_unwarn demo_catalog (Config 3 0 (-11, None) (-12, None) (-1) (-2) "TCF" (-13, None) "@logs" 0 true "tcbot_mtproto")
              (demo_update 7) (WarnContext 9 "x" "boss" "chat"))).1 in
  guarded obs_warns_deleted obs_posted t = true /\ existsb obs_posted t = false /\ existsb obs_write t = true.
Proof.
  intros t. split; [|split; vm_compute; reflexivity].
  eapply (@removal_logged_after_delete demo_catalog _ (demo_update 7) (WarnContext 9 "x" "boss" "chat")).
  left. apply replay_exec.
Defined.
