(* ===== verification/AppealReview.v ===== *)
(** Staff decisions on appeals: [appeal_review_flow] under
    [tcbot/modules/helper/workflows] (lock.py, verdicts.py and mixin.py). *)

From S2P Require Import Prelude Prog Text World I18n Dispatch Cache Locale Roles Replies Auth Records DemoteFlow BanFlow MuteFlow.

(** [bool(v)] of a document field. *)
Definition py_truthy (v : option bson) : bool :=
  match v with
  | None | Some BNull => false
  | Some (BBool b) => b
  | Some (BInt z) => truthy_Z z
  | Some (BStr s) => truthy_str s
  | Some (BDate _) | Some (BId _) => true
  | Some (BDoc d) => match d with [] => false | _ => true end
  | Some (BArr l) => match l with [] => false | _ => true end
  end.

(** * The review lock *)
Definition LOCK_HOURS : Z := 12.

(** In the clock's microseconds. *)
Definition _LOCK_WINDOW : Z := LOCK_HOURS * 3600 * 1000000.

Definition reviewer_locked_out (review_timestamp : option Z) (ban_admin_id reviewer_id : Z) : io bool :=
  match review_timestamp with
  | None => Ret false
  | Some ts =>
      if negb (truthy_Z ban_admin_id) then Ret false
      else if reviewer_id =? ban_admin_id then Ret false
      else now <- call UtcNow ;; Ret (now - ts <? _LOCK_WINDOW)
  end.

(** [review_ts and reviewer_locked_out(...)] on a ban, whose document type
    makes [review_timestamp] a date or null. *)
Definition lock_check (ban : doc) (reviewer_id : Z) : io bool :=
  match dget "review_timestamp" ban with
  | Some (BDate ts) => reviewer_locked_out (Some ts) (dget_int "admin_user_id" ban 0) reviewer_id
  | _ => Ret false
  end.

Section review.
Context {CAT : Catalog} (cfg : config).

(** [q.answer(text, show_alert=True)], failures only logged. *)
Definition alert (t : text) : io unit := try_except (call (AnswerCallback (Some t))) (fun _ => Ret tt).
Definition ack : io unit := try_except (call (AnswerCallback None)) (fun _ => Ret tt).

Definition _update_or_send_log (msg_id : option Z) (t : text) : io unit :=
  let (lc, lt) := cfg_logs cfg in
  let send := try_except (call (SendMessage lc t lt None) ;;; Ret tt) (fun _ => Ret tt) in
  match msg_id with
  | Some id => try_except (call (EditMessageText lc id t None)) (fun _ => send)
  | None => send
  end.

Definition log_msg_of (ban : doc) : option Z :=
  let id := dget_int "appeal_log_msg_id" ban 0 in if truthy_Z id then Some id else None.

(** The fields of an appeal both verdict logs show. *)
Definition appeal_fields (ban : doc) : list text :=
  [TStr (dget_str "appeal_link" ban "");
   match dget "appeal_submitted_at" ban with Some (BDate d) => TInt d | _ => TNone end].

(** [asyncio.gather] of the two locales, without [return_exceptions]. *)
Definition two_locales (upd : update) (target_id : Z) : io (ustr * ustr) :=
  let! (target_locale, staff_locale) := gather2 (locale_for_user target_id) (locale_for_update upd) in
  target_locale <- of_result target_locale ;;
  staff_locale <- of_result staff_locale ;;
  Ret (target_locale, staff_locale).

(** The notices of an approval, sent together. *)
Definition approve_notify (upd : update) (q : message) (ban : doc) (ban_id : string) (target_id admin : Z)
    (admin_fname target_fname : string) : io unit :=
  let (lc, lt) := cfg_logs cfg in
  let! (target_locale, staff_locale) := two_locales upd target_id in
  let who := [TInt target_id; TStr target_fname; TInt admin; TStr admin_fname; TStr ban_id] in
  gather4
    (call (SendMessage target_id (TKey "appeals.decision.approve_dm" target_locale
       [("ban_id"%string, TBuild "code" [TStr ban_id]); ("community"%string, TStr (cfg_community_name cfg))]) None None))
    (call (EditMessageText (msg_chat_id q) (message_id q)
       (TKey "appeals.decision.approve_card" staff_locale [("admin"%string, TUser admin admin_fname)]) None))
    (_update_or_send_log (log_msg_of ban) (TBuild "parse_logmsg.appeal_approved_edit" (who ++ appeal_fields ban)))
    (call (SendMessage lc (TBuild "parse_logmsg.appeal_unban_log" who) lt None)) ;;;
  Ret tt.

Definition _approve_appeal (upd : update) (q : message) (ban : doc) (ban_id : string) (target_id admin : Z)
    (admin_fname : string) : io unit :=
  let retry key := try_except
    (locale <- locale_for_update upd ;; call (AnswerCallback (Some (TKey key locale [])))) (fun _ => Ret tt) in
  groups <- attempt active_groups ;;
  match groups with
  | Err e => if is_Exception e then retry "common.err.groups_load_failed"%string else Raise e
  | Ok groups =>
      let! (deactivate_result, target_fname) :=
        gather2 (deactivate_all_active_bans target_id) (get_first_name target_id (py_str target_id)) in
      match deactivate_result with
      | Err CancelledError => Raise CancelledError
      | Err _ => retry "appeals.review.db_retry"%string
      | Ok _ =>
          let target_fname := ok_or (py_str target_id) target_fname in
          try_except (clear_review ban_id) (fun _ => Ret tt) ;;;
          let groups := with_primary_groups groups [cfg_main_group cfg; cfg_exec_group cfg] [] in
          fan_out (map (fun grp => call (UnbanChatMember (chat_of grp) target_id true)) groups) ;;;
          approve_notify upd q ban ban_id target_id admin admin_fname target_fname
      end
  end.

Definition _reject_appeal (upd : update) (q : message) (ban : doc) (ban_id : string) (target_id admin : Z)
    (admin_fname : string) : io unit :=
  let! (set_r, name_r) :=
    gather2 (set_rejected_by ban_id admin admin_fname) (get_first_name target_id (py_str target_id)) in
  match set_r with
  | Err CancelledError => Raise CancelledError
  | Err _ => try_except
      (locale <- locale_for_update upd ;;
       call (AnswerCallback (Some (TKey "appeals.review.db_retry" locale [])))) (fun _ => Ret tt)
  | Ok _ =>
      let target_fname := match name_r with
                          | Ok n => if truthy_str n then n else py_str target_id
                          | Err _ => py_str target_id
                          end in
      let! (target_locale, staff_locale) := two_locales upd target_id in
      safe_edit_cb q (TKey "appeals.decision.reject_card" staff_locale [("admin"%string, TUser admin admin_fname)])
        None true ;;;
      gather2
        (call (SendMessage target_id (TKey "appeals.decision.reject_dm" target_locale
           [("ban_id"%string, TBuild "code" [TStr ban_id])]) None None))
        (clear_review ban_id) ;;;
      _update_or_send_log (log_msg_of ban) (TBuild "parse_logmsg.appeal_rejected_edit"
        ([TInt target_id; TStr target_fname; TInt admin; TStr admin_fname; TStr ban_id] ++ appeal_fields ban))
  end.

(** * The decision *)

(** The callback data: approve or not, and the ban. *)
Definition parse_decision (data : string) : option (bool * string) :=
  let after p := String.substring (String.length p) (String.length data - String.length p) data in
  if String.prefix "appeal_approve_" data then Some (true, after "appeal_approve_"%string)
  else if String.prefix "appeal_reject_" data then Some (false, after "appeal_reject_"%string)
  else None.

(** Active, with a live review card, and not rejected. *)
Definition reviewable (ban : doc) : bool :=
  py_truthy (dget "is_active" ban) &&
  (match dget "rejected_at" ban with None | Some BNull => true | _ => false end &&
   py_truthy (dget "review_message_id" ban)).

(** What is shown when the ban is past deciding. *)
Definition already_resolved (q : message) (ban : doc) (ban_id : string) (locale : ustr) : io unit :=
  if negb (py_truthy (dget "is_active" ban)) && py_truthy (dget "review_message_id" ban) then
    try_except (clear_review ban_id) (fun _ => Ret tt) ;;;
    safe_edit_cb q (TKey "appeals.review.already_resolved" locale []) None true
  else alert (TKey "appeals.review.already_resolved" locale []).

Definition on_decision (upd : update) (q : message) (data : option string) (admin_fname : string) : io unit :=
  match effective_user upd with
  | None => ack
  | Some admin =>
      locale <- locale_for_update upd ;;
      match data with
      | None => ack
      | Some data =>
          match parse_decision data with
          | None => ack
          | Some (approve, ban_id) =>
              let! (role_result, ban_result, answer_r) :=
                gather3 (get_effective_role admin) (get_ban ban_id) (call (AnswerCallback None)) in
              throw_if_cancelled [void role_result; void ban_result; void answer_r] ;;;
              match role_result with
              | Err _ => alert (TKey "appeals.review.role_lookup" locale [])
              | Ok role =>
                  if negb (role_is "founder" role || role_is "admin" role) then
                    alert (TKey "appeals.review.not_authorized" locale [])
                  else
                    match ban_result with
                    | Err _ => alert (TKey "appeals.review.db_retry" locale [])
                    | Ok None | Ok (Some []) =>
                        safe_edit_cb q (TKey "appeals.review.ban_not_found" locale []) None true
                    | Ok (Some ban) =>
                        if negb (reviewable ban) then already_resolved q ban ban_id locale
                        else
                          locked <- lock_check ban admin ;;
                          if locked : bool then
                            alert (TKey "appeals.review.review_locked" locale [("hours"%string, TInt LOCK_HOURS)])
                          else
                            let target_id := dget_int "banned_user_id" ban 0 in
                            if approve : bool then _approve_appeal upd q ban ban_id target_id admin admin_fname
                            else _reject_appeal upd q ban ban_id target_id admin admin_fname
                    end
              end
          end
      end
  end.
End review.

(** * Properties *)

(** The verdict was written: the bans marked inactive, or the rejection. *)
Definition obs_verdict_written (o : obs eff) : bool :=
  match o with
  | Obs ev r =>
      match ev with
      | UpdateMany "bans" _ _ => negb (is_err r)
      | UpdateOne "bans" _ [("$set", BDoc (("rejected_by_id", _) :: _))] _ => negb (is_err r)
      | _ => false
      end
  end.

(** What the outside sees of a verdict: a right changed, a message sent or a
    card edited. *)
Definition obs_outcome (o : obs eff) : bool :=
  obs_act o || match o with Obs ev _ => match ev with EditMessageText _ _ _ _ => true | _ => false end end.

(** Anything only a verdict does. *)
Definition obs_verdict (o : obs eff) : bool :=
  obs_act o ||
  match o with
  | Obs ev _ =>
      match ev with
      | UpdateMany "bans" _ _ => true
      | UpdateOne "bans" _ [("$set", BDoc (("rejected_by_id", _) :: _))] _ => true
      | _ => false
      end
  end.

Lemma first_name_never f uid fb :
  (forall c k o, cache_obs c k o = true -> f o = false) ->
  (forall r, f (Obs (FindOne "member_cache" [("user_id"%string, BInt uid)] []) r) = false) ->
  never f (get_first_name uid fb).
Proof.
  intros Hc Hf. unfold get_first_name, _fetch_mention_triple, db_call. apply never_bind.
  - apply get_or_fetch_never; [apply Hc|]. never_auto. apply never_call. exact Hf.
  - intros v. never_auto.
Qed.

Section verdicts.
Context {CAT : Catalog} (cfg : config) (upd : update) (q : message) (ban : doc) (ban_id : string)
  (target_id admin : Z) (admin_fname : string).

Abbreviation holds := (waits obs_verdict_written obs_outcome (fun _ : result unit => false)).

Lemma retry_alert_holds key :
  holds (try_except (locale <- locale_for_update upd ;; call (AnswerCallback (Some (TKey key locale []))))
           (fun _ => Ret tt)).
Proof.
  apply waits_never; [|done]. never_auto. apply locale_for_update_never. by intros [X [] r].
Qed.

Lemma raise_holds e : holds (Raise e).
Proof. apply waits_never; [apply never_raise|done]. Qed.

Lemma approve_holds : holds (_approve_appeal cfg upd q ban ban_id target_id admin admin_fname).
Proof.
  unfold _approve_appeal. cbv zeta. pose proof retry_alert_holds. pose proof raise_holds.
  apply waits_after; [apply never_attempt, groups_never; [by intros c k [X [] r]|done]|intros [groups|e]|done].
  2: { by destruct (is_Exception e). }
  eapply waits_then; [apply (waits_gather2_l _ _ (fun r => negb (is_err r)))| |done].
  - unfold waits, deactivate_all_active_bans, db_call. wp_auto; by split.
  - apply first_name_never; [by intros c k [X [] r]|done].
  - intros [[n|e] name] Hr; [done|]. by destruct e.
Qed.

Lemma reject_holds : holds (_reject_appeal cfg upd q ban ban_id target_id admin admin_fname).
Proof.
  unfold _reject_appeal. cbv zeta. pose proof retry_alert_holds. pose proof raise_holds.
  eapply waits_then; [apply (waits_gather2_l _ _ (fun r => negb (is_err r)))| |done].
  - unfold waits, set_rejected_by, db_call. wp_auto; by split.
  - apply first_name_never; [by intros c k [X [] r]|done].
  - intros [[n|e] name] Hr; [done|]. by destruct e.
Qed.
End verdicts.

(** A verdict is on record before anybody sees it.  In every run of an
    approval or a rejection the chats, the appellant, the log channel and the
    review card are untouched until the verdict's own write succeeded; so a
    failed write leaves the card as it was, to be tapped again. *)
Theorem verdict_written_first {CAT : Catalog} (cfg : config) (upd : update) (q : message) (ban : doc)
    (ban_id : string) (target_id admin : Z) (admin_fname : string) (t : trace eff) (r : result unit)
    (Hrun : exec (_approve_appeal cfg upd q ban ban_id target_id admin admin_fname) t r \/
            exec (_reject_appeal cfg upd q ban ban_id target_id admin admin_fname) t r) :
  guarded obs_verdict_written obs_outcome t = true.
Proof.
  destruct Hrun as [Hrun|Hrun].
  - exact (proj1 (wp_elim _ _ _ _ (approve_holds cfg upd q ban ban_id target_id admin admin_fname) Hrun)).
  - exact (proj1 (wp_elim _ _ _ _ (reject_holds cfg upd q ban ban_id target_id admin admin_fname) Hrun)).
Qed.

(** * Who may decide *)

(** A ban open for review: still active, not rejected, its card in place. *)
Definition open_for_review (ban : doc) : Prop :=
  py_truthy (dget "is_active" ban) = true /\
  (dget "rejected_at" ban = None \/ dget "rejected_at" ban = Some BNull) /\
  py_truthy (dget "review_message_id" ban) = true.

(** The lock is not on: no appeal time, no known banner, the reviewer is the
    banner, or the clock read in [t] is twelve hours past the appeal. *)
Definition unlocked (ban : doc) (reviewer : Z) (t : trace eff) : Prop :=
  forall ts, dget "review_timestamp" ban = Some (BDate ts) ->
  dget_int "admin_user_id" ban 0 = 0 \/ reviewer = dget_int "admin_user_id" ban 0 \/
  exists now, In (Obs UtcNow (Ok now)) t /\ ts + 12 * 3600 * 1000000 <= now.

Lemma reviewable_open ban : reviewable ban = true -> open_for_review ban.
Proof.
  unfold reviewable, open_for_review. intros [H1 [H2 H3]%andb_true_iff]%andb_true_iff. split; [done|]. split; [|done].
  destruct (dget "rejected_at" ban) as [[]|]; auto; done.
Qed.

Lemma lock_check_unlocked ban reviewer t :
  exec (lock_check ban reviewer) t (Ok false) -> unlocked ban reviewer t.
Proof.
  unfold lock_check, unlocked, reviewer_locked_out. intros Hrun ts Hts. rewrite Hts in Hrun.
  set (owner := dget_int "admin_user_id" ban 0) in *. unfold truthy_Z in Hrun.
  destruct (Z.eqb_spec owner 0); [by left|]. destruct (Z.eqb_spec reviewer owner); [by right; left|].
  right; right. cbn in Hrun.
  apply exec_bind in Hrun as [(t1 & now & t2 & H1 & [-> H2] & ->)|(e & _ & ?)]; [|done].
  destruct H1 as (x & t' & _ & -> & H1). destruct x as [x|e]; [|by destruct H1].
  destruct H1 as [-> [= ->]]. injection H2 as H2. exists x. split; [by left|].
  symmetry in H2. apply Z.ltb_ge in H2. unfold _LOCK_WINDOW, LOCK_HOURS in H2. lia.
Qed.

(** A run that decided first made only calls that decide nothing; among them
    the lookup that found the reviewer to be Founder or Admin, the read that
    found the ban open for review, and the check that found it not locked. *)
Definition decision_evidence (upd : update) (data : option string) (t : trace eff) : Prop :=
  exists admin d approve ban_id t0 tr tb ta tba tg tl rest role ban,
    effective_user upd = Some admin /\ data = Some d /\ parse_decision d = Some (approve, ban_id) /\
    t = t0 ++ tg ++ tl ++ rest /\ interleave tb ta tba /\ interleave tr tba tg /\
    Forall (fun o => obs_verdict o = false) (t0 ++ tg ++ tl) /\
    exec (get_effective_role admin) tr (Ok role) /\ role_is "founder" role || role_is "admin" role = true /\
    exec (get_ban ban_id) tb (Ok (Some ban)) /\ open_for_review ban /\
    unlocked ban admin tl.

Definition decided (upd : update) (data : option string) (t : trace eff) : Prop :=
  existsb obs_verdict t = true -> decision_evidence upd data t.

Lemma talk_verdict o : obs_talk o = true -> obs_verdict o = false.
Proof. by destruct o as [X [] r]. Qed.

Lemma alert_never t : never obs_verdict (alert t).
Proof. unfold alert. never_auto. Qed.

Lemma edit_cb_never q t kb : never obs_verdict (safe_edit_cb q t kb true).
Proof. unfold safe_edit_cb, edit_with. never_auto. Qed.

Lemma already_resolved_never q ban ban_id locale : never obs_verdict (already_resolved q ban ban_id locale).
Proof.
  unfold already_resolved, clear_review, db_call. pose proof edit_cb_never. pose proof alert_never. never_auto; auto.
Qed.

Lemma lock_check_never ban admin : never obs_verdict (lock_check ban admin).
Proof. unfold lock_check, reviewer_locked_out. never_auto. Qed.

Lemma decided_calm upd data t : Forall (fun o => obs_verdict o = false) t -> decided upd data t.
Proof. intros H Hb. by rewrite (proj2 (existsb_false_Forall _ _) H) in Hb. Qed.

Lemma decided_never {A} upd data (p : io A) t :
  Forall (fun o => obs_verdict o = false) t -> never obs_verdict p ->
  wp p (fun t' _ => decided upd data (t ++ t')).
Proof.
  intros Ht Hp. eapply wp_mono; [exact Hp|]. intros t' r Ht'. apply decided_calm. by apply Forall_app.
Qed.

Lemma role_never uid : never obs_verdict (get_effective_role uid).
Proof. apply get_effective_role_reads; [by intros c k [X [] r]|done]. Qed.

Lemma get_ban_never ban_id : never obs_verdict (get_ban ban_id).
Proof. unfold get_ban, db_call. never_auto. Qed.

(** C16: who decides an appeal.  In every run of the decision handler that does
    anything of a verdict - marks the bans inactive, records a rejection,
    lifts a restriction or writes to anybody - the reviewer was found to be a
    Founder or an Admin, the ban of the tapped card to be active, unrejected
    and with its card in place, and the review not to be locked for this
    reviewer; all of it before, with no call of a verdict in between. *)
Theorem decision_gate {CAT : Catalog} (cfg : config) (upd : update) (q : message) (data : option string)
    (admin_fname : string) (t : trace eff) (r : result unit)
    (Hrun : exec (on_decision cfg upd q data admin_fname) t r)
    (Hv : existsb obs_verdict t = true) :
  decision_evidence upd data t.
Proof.
  revert Hv. change (decided upd data t). revert t r Hrun. refine (wp_elim' _ _ _). unfold on_decision.
  pose proof alert_never as Halert. pose proof edit_cb_never as Hedit.
  pose proof (fun l => already_resolved_never q l) as Hdone.
  assert (never obs_verdict ack) as Hack by (unfold ack; never_auto).
  destruct (effective_user upd) as [admin|] eqn:Hadmin.
  2: { apply (decided_never _ _ _ []); [constructor|done]. }
  apply (wp_never_bind obs_verdict); [|intros t0 locale Ht0 _|intros; by apply decided_calm].
  { apply locale_for_update_never. by intros [X [] r]. }
  destruct data as [d|]; [|by apply decided_never]. destruct (parse_decision d) as [[approve ban_id]|] eqn:Hd.
  2: { by apply decided_never. }
  apply wp_bind. eapply wp_gather3; [apply wp_exec|apply wp_exec|apply (never_call obs_verdict); done|].
  intros tr tb ta tba tg rr rb ra Hr Hb Ha Hi1 Hi2.
  assert (Forall (fun o => obs_verdict o = false) tg) as Hg.
  { apply (interleave_Forall _ _ _ _ Hi2). split; [by eapply never_elim, Hr; apply role_never|].
    apply (interleave_Forall _ _ _ _ Hi1). split; [by eapply never_elim, Hb; apply get_ban_never|done]. }
  assert (Forall (fun o => obs_verdict o = false) (t0 ++ tg)) as H0g by (by apply Forall_app).
  split; [|by apply decided_calm]. cbn beta iota.
  apply wp_bind, throw_if_cancelled_spec. destruct (existsb is_cancel _); [apply decided_calm; by rewrite app_nil_r|].
  eapply (wp_mono _ (fun t' _ => decided upd (Some d) ((t0 ++ tg) ++ t'))); [|intros t' r'; by rewrite <- app_assoc].
  destruct rr as [role|e]; [|by apply decided_never].
  destruct (role_is "founder" role || role_is "admin" role) eqn:Hrole; simpl negb; cbn iota; [|by apply decided_never].
  destruct rb as [[ban|]|e]; [|by apply decided_never..]. destruct ban as [|kv ban']; [by apply decided_never|].
  set (ban := kv :: ban') in *. destruct (reviewable ban) eqn:Hrev; simpl negb; cbn iota; [|by apply decided_never].
  apply (wp_never_bind obs_verdict); [apply lock_check_never|intros tl locked Htl Hl|intros tl e Htl _].
  2: { apply decided_calm. by apply Forall_app. }
  apply wp_intro. intros rest r Hrest. destruct locked.
  { apply decided_calm. apply Forall_app. split; [done|]. apply Forall_app. split; [done|].
    exact (never_elim _ _ _ _ (Halert _) Hrest). }
  intros _.
  exists admin, d, approve, ban_id, t0, tr, tb, ta, tba, tg, tl, rest, role, ban.
  rewrite <- !app_assoc. repeat (split; [done|]).
  split; [rewrite app_assoc; by apply Forall_app|].
  repeat (split; [done|]). split; [by apply reviewable_open|by apply lock_check_unlocked].
Qed.

(** The founder reviews; one active ban with a live review card. *)
Definition review_script : script := fun X ev =>
  match ev in eff X return option (result X) with
  | FindOne "tc_owners" _ _ => Some (Ok (Some [("user_id"%string, BInt 7)]))
  | FindOne "bans" _ _ =>
      Some (Ok (Some [("is_active"%string, BBool true); ("review_message_id"%string, BInt 4);
                      ("banned_user_id"%string, BInt 9)]))
  | _ => None
  end.

Definition tap_reject : option string := Some "appeal_reject_b1"%string.

Lemma verdict_written_first_witness :
  let p := @_approve_appeal demo_catalog demo_config (demo_update 7) demo_message [] "b1" 9 7 "boss" in
  guarded obs_verdict_written obs_outcome (replay no_script p).1 = true /\
  existsb obs_outcome (replay no_script p).1 = true.
Proof.
  intros p. split; [|vm_compute; reflexivity].
  apply (@verdict_written_first demo_catalog demo_config (demo_update 7) demo_message [] "b1" 9 7 "boss" _
    (replay no_script p).2). left. exact (replay_exec no_script p).
Defined.

Lemma decision_gate_witness :
  decision_evidence (demo_update 7) tap_reject
    (replay review_script (@on_decision demo_catalog demo_config (demo_update 7) demo_message tap_reject "boss")).1.
Proof.
  apply (@decision_gate demo_catalog demo_config (demo_update 7) demo_message tap_reject "boss" _ _
    (replay_exec review_script _)).
  vm_compute. reflexivity.
Defined.
