(* ===== verification/JoinFlow.v ===== *)
(** Enforcement on joining: [tcbot/modules/greeting] (joins.py, requests.py,
    events.py), with the primary-group test of [tcbot/config/adapter.py]. *)

From S2P Require Import Prelude Prog Text World I18n Dispatch Cache Locale Roles Replies Auth Records Warns DemoteFlow BanFlow MuteFlow AppealReview.

(** The fields of a Telegram user the handlers read. *)
Record member := Member {
  mem_id : Z;
  mem_username : option string;
  mem_first_name : string;
  mem_last_name : option string;
  is_bot : bool
}.

(** What a [ChatMemberUpdated] update says. *)
Record member_update := MemberUpdate {
  via_join_request : bool;
  new_status : string;
  cmu_user : member;
  cmu_chat : Z
}.

(** A chat's type and id. *)
Abbreviation chat_ref := (string * Z)%type.

Section joins.
Context {CAT : Catalog} (cfg : config).

Definition is_primary_group (chat_id : option Z) : bool :=
  match chat_id with
  | None => false
  | Some id => if id <=? 0 then false else (id =? cfg_main_group cfg) || (id =? cfg_exec_group cfg)
  end.

(** [None] stands for a lookup outage. *)
Definition _in_federation (chat_id : Z) : io (option bool) :=
  if is_primary_group (Some chat_id) then Ret (Some true)
  else try_except (b <- is_connected chat_id ;; Ret (Some (py_truthy (Some b)))) (fun _ => Ret None).

Definition _auto_demote_for_enforcement (user_id : Z) (first_name : string) (trigger : string) : io unit :=
  target_role <- attempt (get_effective_role user_id) ;;
  match target_role with
  | Err e => if is_Exception e then Ret tt else Raise e
  | Ok role =>
      if negb (truthy_role role) then Ret tt
      else
        let name := if truthy_str first_name then first_name else py_str user_id in
        try_except (execute cfg user_id name role 0 "" (Some trigger) ;;; Ret tt) (fun _ => Ret tt)
  end.

(** A record the code treats as present: an empty document is falsy. *)
Definition live (r : result (option doc)) : option doc :=
  match r with
  | Ok (Some (f :: d)) => Some (f :: d)
  | _ => None
  end.

Definition until_of (mute : doc) : option Z :=
  match dget "until_date" mute with Some (BDate d) => Some d | _ => None end.

Definition ban_notice (bot_username : string) (m : member) (ban : doc) (locale : ustr) : text :=
  let ban_id := dget_str "ban_id" ban "" in
  TCat ([TKey "greeting.notice.banned" locale
           [("user"%string, TUserRef (mem_id m) (mem_first_name m) (mem_username m))]] ++
        (if negb (truthy_str ban_id) then []
         else TKey "greeting.notice.ban_id" locale [("ban"%string, TStr ban_id)] ::
              (if negb (truthy_str bot_username) then []
               else [TKey "greeting.notice.appeal" locale
                       [("link"%string, TBuild "link" [TStr "Submit Appeal";
                           TBuild "appeal_deep_link" [TStr bot_username; TStr ban_id]])]]))).

Definition welcome (m : member) (locale : ustr) : text :=
  TKey "greeting.welcome.body" locale
    [("user"%string, TUserRef (mem_id m) (mem_first_name m) (mem_username m));
     ("community"%string, TStr (cfg_community_name cfg))].

(** The two records of a joiner decide: a live ban is enforced and announced. *)
Definition enforce_ban (bot_username : string) (m : member) (msg : message) (chat_id : Z) (greet : bool)
    (locale : ustr) (ban : doc) : io unit :=
  _auto_demote_for_enforcement (mem_id m) (mem_first_name m) "ban" ;;;
  banned <- try_except (call (BanChatMember chat_id (mem_id m)) ;;; Ret true) (fun _ => Ret false) ;;
  if negb banned then Ret tt
  else
    gather_list (if greet then [call (ReplyText (message_id msg) (ban_notice bot_username m ban locale) None)] else []) ;;;
    Ret tt.

Definition enforce_mute (m : member) (chat_id : Z) (mute : doc) : io unit :=
  _auto_demote_for_enforcement (mem_id m) (mem_first_name m) "mute" ;;;
  try_except (call (RestrictChatMember chat_id (mem_id m) false (until_of mute))) (fun _ => Ret tt).

Definition _handle_member (bot_username : string) (m : member) (msg : message) (chat : chat_ref)
    (greet : bool) : io unit :=
  if is_bot m then Ret tt
  else
    let (chat_type, chat_id) := chat in
    locale <- locale_for_chat (Some chat_type) chat_id ;;
    let! (harvested, ban, mute) :=
      gather3 (harvest_user_identity (mem_id m) (mem_username m) (mem_first_name m) (mem_last_name m))
              (get_active_ban (mem_id m)) (get_active_mute (mem_id m)) in
    throw_if_cancelled [void ban; void mute] ;;;
    let blind := is_err ban || is_err mute in
    match live ban with
    | Some ban => enforce_ban bot_username m msg chat_id greet locale ban
    | None =>
        match live mute with Some mute => enforce_mute m chat_id mute | None => Ret tt end ;;;
        if greet && negb blind then safe_reply msg (welcome m locale) else Ret tt
    end.

(** The members are handled together; the semaphore they share only delays
    them, and their failures are dropped. *)
Definition on_new_member (bot_username : string) (upd : update) (new_chat_members : list member) : io unit :=
  match effective_message upd, effective_chat upd with
  | Some msg, Some chat =>
      let is_primary := is_primary_group (Some chat.2) in
      enforced <- _in_federation chat.2 ;;
      match enforced with
      | Some true =>
          gather_list (map (fun m => _handle_member bot_username m msg chat is_primary) new_chat_members) ;;;
          Ret tt
      | _ => Ret tt
      end
  | _, _ => Ret tt
  end.

(** * Join requests *)
Definition on_join_request_approved (cmu : option member_update) : io unit :=
  match cmu with
  | None => Ret tt
  | Some cmu =>
      if negb (via_join_request cmu) || negb (String.eqb (new_status cmu) "member") || is_bot (cmu_user cmu)
      then Ret tt
      else
        let user := cmu_user cmu in
        enforced <- _in_federation (cmu_chat cmu) ;;
        match enforced with
        | Some true =>
            let! (harvested, mute, ban) :=
              gather3 (harvest_user_identity (mem_id user) (mem_username user) (mem_first_name user)
                         (mem_last_name user))
                      (get_active_mute (mem_id user)) (get_active_ban (mem_id user)) in
            throw_if_cancelled [void mute; void ban] ;;;
            match live ban with
            | Some ban =>
                _auto_demote_for_enforcement (mem_id user) (mem_first_name user) "ban" ;;;
                try_except (call (BanChatMember (cmu_chat cmu) (mem_id user))) (fun _ => Ret tt)
            | None =>
                match live mute with
                | Some mute => enforce_mute user (cmu_chat cmu) mute
                | None => Ret tt
                end
            end
        | _ => Ret tt
        end
  end.

(** [request]: who asks to join which chat. *)
Definition on_join_request (request : option (member * Z)) : io unit :=
  match request with
  | None => Ret tt
  | Some (user, chat_id) =>
      if is_bot user then Ret tt
      else
        enforced <- _in_federation chat_id ;;
        match enforced with
        | Some true =>
            let! (harvested, ban) :=
              gather2 (harvest_user_identity (mem_id user) (mem_username user) (mem_first_name user)
                         (mem_last_name user))
                      (get_active_ban (mem_id user)) in
            throw_if_cancelled [void ban] ;;;
            match live ban with
            | None => Ret tt
            | Some _ => try_except (call (DeclineChatJoinRequest chat_id (mem_id user))) (fun _ => Ret tt)
            end
        | _ => Ret tt
        end
  end.

(** * Leaving and migrating *)
Definition on_left_member (upd : update) (left_chat_member : option member) : io unit :=
  match effective_message upd, effective_chat upd with
  | Some msg, Some chat =>
      if negb (is_primary_group (Some chat.2)) then Ret tt
      else
        match left_chat_member with
        | Some m =>
            if is_bot m then Ret tt
            else
              locale <- locale_for_update upd ;;
              safe_reply msg (TKey "greeting.left.body" locale
                [("user"%string, TUserRef (mem_id m) (mem_first_name m) (mem_username m))])
        | None => Ret tt
        end
  | _, _ => Ret tt
  end.

(** The four collections are moved together; failures are only logged. *)
Definition on_chat_migration (upd : update) (migrate_from_chat_id : option Z) : io unit :=
  match effective_message upd, migrate_from_chat_id, effective_chat upd with
  | Some _, Some old_id, Some (_, new_id) =>
      if truthy_Z old_id && truthy_Z new_id && negb (old_id =? new_id) then
        let! (migrated, warns_migrated, kicks_migrated, mutes_migrated) :=
          gather4 (migrate_group old_id new_id) (Warns.migrate_records old_id new_id)
                  (migrate_kicks old_id new_id) (migrate_mutes old_id new_id) in
        throw_if_cancelled [void migrated; void warns_migrated; void kicks_migrated; void mutes_migrated]
      else Ret tt
  | _, _, _ => Ret tt
  end.
End joins.

(** * What joining enforces *)

(** The calls that change what somebody may do in a chat. *)
Inductive action : Type :=
  | ABan (chat user : Z)
  | AUnban (chat user : Z)
  | ARestrict (chat user : Z) (can_send : bool) (until : option Z)
  | ADecline (chat user : Z).

Definition obs_action (o : obs eff) : option action :=
  match o with
  | Obs ev _ =>
      match ev with
      | BanChatMember c u => Some (ABan c u)
      | UnbanChatMember c u _ => Some (AUnban c u)
      | RestrictChatMember c u s d => Some (ARestrict c u s d)
      | DeclineChatJoinRequest c u => Some (ADecline c u)
      | _ => None
      end
  end.

Definition obs_acts (o : obs eff) : bool := match obs_action o with Some _ => true | None => false end.

(** The actions of a trace, in order. *)
Definition actions (t : trace eff) : list action := omap obs_action t.

Lemma actions_app t1 t2 : actions (t1 ++ t2) = actions t1 ++ actions t2.
Proof. apply omap_app. Qed.

Lemma actions_cons o t : actions (o :: t) = match obs_action o with Some a => a :: actions t | None => actions t end.
Proof. done. Qed.

Lemma actions_none t : Forall (fun o => obs_acts o = false) t -> actions t = [].
Proof.
  unfold actions, obs_acts. induction 1 as [|o t Ho _ IH]; [done|]. simpl. destruct (obs_action o); [done|exact IH].
Qed.

(** What the records of a joiner call for: a live ban, or else a live mute. *)
Definition sanction (chat_id uid : Z) (ban mute : result (option doc)) : list action :=
  match live ban with
  | Some _ => [ABan chat_id uid]
  | None =>
      match live mute with
      | Some mute => [ARestrict chat_id uid false (until_of mute)]
      | None => []
      end
  end.

(** A run carries out [s], or as much of it as a cancellation leaves; it ends
    no other way. *)
Definition settles (s : list action) (t : trace eff) (r : result unit) : Prop :=
  match r with
  | Ok _ => actions t = s
  | Err e => e = CancelledError /\ actions t `prefix_of` s
  end.

Lemma settles_after s t1 t2 r : actions t1 = [] -> settles s t2 r -> settles s (t1 ++ t2) r.
Proof. unfold settles. destruct r; rewrite actions_app; by intros ->. Qed.

Lemma not_Exception e : is_Exception e = false -> e = CancelledError.
Proof. by destruct e. Qed.

Definition obs_welcome (o : obs eff) : bool :=
  match o with
  | Obs ev _ => match ev with ReplyText _ (TKey "greeting.welcome.body" _ _) _ => true | _ => false end
  end.

(** The reads behind a decision, before any action. *)
Definition joiner_reads (uid : Z) (t : trace eff) (ban mute : result (option doc)) : Prop :=
  exists t0 th tb tm tbm tg t1, t = t0 ++ tg ++ t1 /\ interleave tb tm tbm /\ interleave th tbm tg /\
    exec (get_active_ban uid) tb ban /\ exec (get_active_mute uid) tm mute /\ actions (t0 ++ tg) = [].

(** An action or a welcome. *)
Definition obs_seen (o : obs eff) : bool := obs_acts o || obs_welcome o.

Lemma seen_none t : Forall (fun o => obs_seen o = false) t -> actions t = [] /\ existsb obs_welcome t = false.
Proof.
  intros H. split; [apply actions_none|apply existsb_false_Forall]; eapply Forall_impl; try exact H;
    by intros o [H1 H2]%orb_false_iff.
Qed.

Lemma cache_seen c k o : cache_obs c k o = true -> obs_seen o = false.
Proof. destruct o as [X ev r]; by destruct ev. Qed.

Lemma harvest_never uid un fn ln : never obs_seen (harvest_user_identity uid un fn ln).
Proof.
  unfold harvest_user_identity, upsert_user_if_changed, upsert_user, invalidate, redis_del_background, db_call.
  cbv zeta. never_auto.
Qed.

Lemma active_ban_never uid : never obs_seen (get_active_ban uid).
Proof. unfold get_active_ban, db_call. never_auto. Qed.

Lemma active_mute_never uid : never obs_seen (get_active_mute uid).
Proof. unfold get_active_mute, db_call. never_auto. Qed.

Section join_lemmas.
Context {CAT : Catalog} (cfg : config).

Lemma execute_never_seen uid n role eid en tr : never obs_seen (execute cfg uid n role eid en tr).
Proof.
  unfold execute, remove_role, remove_admin, Roles.remove_role, invalidate, redis_del_background, db_call.
  destruct (cfg_logs cfg) as [lc lt]. never_auto. apply locale_for_user_never. by intros [X [] r].
Qed.

(** The demotion before an enforcement acts on no chat and fails no way but
    cancellation. *)
Lemma auto_demote_calm uid fn tr :
  wp (_auto_demote_for_enforcement cfg uid fn tr)
     (fun t r => Forall (fun o => obs_seen o = false) t /\ match r with Ok _ => True | Err e => e = CancelledError end).
Proof.
  apply wp_conj.
  - change (never obs_seen (_auto_demote_for_enforcement cfg uid fn tr)).
    unfold _auto_demote_for_enforcement. pose proof execute_never_seen. never_auto; auto.
    apply get_effective_role_reads; [apply cache_seen|done].
  - unfold _auto_demote_for_enforcement. apply wp_bind, wp_attempt, wp_intro. intros t [role|e] _; cbn beta iota.
    + destruct (truthy_role role); cbn [negb]; [|by apply wp_ret]. cbv zeta.
      apply wp_try, wp_intro. intros t' [u|e] _; [done|].
      destruct (is_Exception e) eqn:He; [by apply wp_ret|by apply not_Exception].
    + destruct (is_Exception e) eqn:He; [by apply wp_ret|by apply wp_raise, not_Exception].
Qed.

(** After calls that act on nothing, a program settles what it settles. *)
Lemma settles_bind {A} s (p : io A) (k : A -> io unit) :
  wp p (fun t r => Forall (fun o => obs_seen o = false) t /\ match r with Ok _ => True | Err e => e = CancelledError end) ->
  (forall a, wp (k a) (fun t r => settles s t r /\ existsb obs_welcome t = false)) ->
  wp (bind p k) (fun t r => settles s t r /\ existsb obs_welcome t = false).
Proof.
  intros Hp Hk. apply wp_bind. eapply wp_mono; [exact Hp|]. intros t [a|e] [[Ha Hw]%seen_none He].
  - eapply wp_mono; [apply Hk|]. intros t' r [Hs Hw']. split; [by apply settles_after|].
    by rewrite existsb_app, Hw, Hw'.
  - split; [|done]. split; [done|]. rewrite Ha. apply prefix_nil.
Qed.

Lemma settles_calm (t : trace eff) (r : result unit) s :
  Forall (fun o => obs_seen o = false) t -> settles s [] r -> settles s t r /\ existsb obs_welcome t = false.
Proof.
  intros [Ha Hw]%seen_none Hs. split; [|done]. rewrite <- (app_nil_r t). by apply settles_after.
Qed.

(** Once the only action is made, the rest adds none. *)
Lemma settles_last o a (p : io unit) :
  obs_action o = Some a -> obs_welcome o = false ->
  wp p (fun t r => Forall (fun o => obs_seen o = false) t /\ match r with Ok _ => True | Err e => e = CancelledError end) ->
  wp p (fun t r => settles [a] (o :: t) r /\ existsb obs_welcome (o :: t) = false).
Proof.
  intros Ho Hw Hp. eapply wp_mono; [exact Hp|]. intros t r [[Ha Hw']%seen_none Hr]. simpl. rewrite Hw, Hw'.
  split; [|done]. unfold settles. rewrite actions_cons, Ho, Ha. by destruct r.
Qed.

Lemma enforce_ban_settles bot m msg chat greet locale ban :
  wp (enforce_ban cfg bot m msg chat greet locale ban)
     (fun t r => settles [ABan chat (mem_id m)] t r /\ existsb obs_welcome t = false).
Proof.
  unfold enforce_ban. apply settles_bind; [apply auto_demote_calm|intros _].
  assert (forall ps, ps = [] \/ ps = [call (ReplyText (message_id msg) (ban_notice bot m ban locale) None)] ->
    wp (gather_list ps ;;; Ret tt) (fun t r => Forall (fun o => obs_seen o = false) t /\
      match r with Ok _ => True | Err e => e = CancelledError end)) as Hnotice.
  { intros ps Hps. apply wp_bind. rewrite <- (map_id ps).
    eapply wp_mono; [apply (wp_gather_list _ _ (Forall (fun o => obs_seen o = false)) (fun _ _ => True))|].
    - constructor.
    - intros t1 t2 t H1 H2 Hi. by apply (interleave_Forall _ _ _ _ Hi).
    - intros p Hp. destruct Hps as [-> | ->]; [done|]. destruct Hp as [<-|[]].
      apply wp_call. intros x _. split; [by repeat constructor|done].
    - intros t [rs|e] [Ht Hr]; [|by split]. apply wp_ret. by rewrite app_nil_r. }
  wp_step. wp_step. wp_step. wp_step. destruct x as [u|e]; cbn beta iota.
  - apply wp_ret. simpl negb. cbn iota. apply settles_last; [done|done|].
    destruct greet; apply Hnotice; auto.
  - destruct (is_Exception e) eqn:He.
    + apply wp_ret. apply wp_ret. done.
    + apply not_Exception in He as ->. split; [split; [done|]|done]. done.
Qed.

Lemma try_act_settles (ev : eff unit) (a : action) :
  (forall r, obs_action (Obs ev r) = Some a /\ obs_welcome (Obs ev r) = false) ->
  wp (try_except (call ev) (fun _ => Ret tt)) (fun t r => settles [a] t r /\ existsb obs_welcome t = false).
Proof.
  intros Hev. assert (forall r, (settles [a] [Obs ev r] (Ok tt) /\ settles [a] [Obs ev r] (Err CancelledError)) /\
    existsb obs_welcome [Obs ev r] = false) as Hone.
  { intros r. destruct (Hev r) as [Ha Hw]. unfold settles. cbn [existsb]. rewrite !actions_cons, !Ha, Hw. done. }
  apply wp_try, wp_call. intros [[]|e] _; cbn beta iota.
  - split; apply (Hone (Ok tt)).
  - destruct (is_Exception e) eqn:He.
    + apply wp_ret. split; apply (Hone (Err e)).
    + apply not_Exception in He as ->. split; apply (Hone (Err CancelledError)).
Qed.

Lemma enforce_mute_settles m chat mute :
  wp (enforce_mute cfg m chat mute)
     (fun t r => settles [ARestrict chat (mem_id m) false (until_of mute)] t r /\ existsb obs_welcome t = false).
Proof.
  unfold enforce_mute. apply settles_bind; [apply auto_demote_calm|intros _]. by apply try_act_settles.
Qed.

(** Both reads, beside the identity harvest. *)
Definition read_both (uid : Z) (t : trace eff) (ban mute : result (option doc)) : Prop :=
  Forall (fun o => obs_seen o = false) t /\
  exists th tb tm tbm, interleave tb tm tbm /\ interleave th tbm t /\
    exec (get_active_ban uid) tb ban /\ exec (get_active_mute uid) tm mute.

Lemma read_both_intro uid un fn ln th tb tm tbm t rh ban mute :
  exec (harvest_user_identity uid un fn ln) th rh -> exec (get_active_ban uid) tb ban ->
  exec (get_active_mute uid) tm mute -> interleave tb tm tbm -> interleave th tbm t -> read_both uid t ban mute.
Proof.
  intros Hh Hb Hm Hi1 Hi2. split; [|exists th, tb, tm, tbm; done].
  apply (interleave_Forall _ _ _ _ Hi2). split; [by eapply never_elim, Hh; apply harvest_never|].
  apply (interleave_Forall _ _ _ _ Hi1).
  split; [by eapply never_elim, Hb; apply active_ban_never|by eapply never_elim, Hm; apply active_mute_never].
Qed.

Lemma read_both_joiner uid t0 tg t1 ban mute :
  Forall (fun o => obs_seen o = false) t0 -> read_both uid tg ban mute -> joiner_reads uid (t0 ++ tg ++ t1) ban mute.
Proof.
  intros H0 [Hg (th & tb & tm & tbm & ?)]. exists t0, th, tb, tm, tbm, tg, t1. split; [done|].
  destruct_and?. repeat (split; [done|]). apply seen_none. by apply Forall_app.
Qed.

(** What a handler of one joiner comes to. *)
Definition joined (chat uid : Z) (greet : bool) (t : trace eff) (r : result unit) : Prop :=
  (actions t = [] /\ existsb obs_welcome t = false /\ r = Err CancelledError) \/
  exists ban mute, joiner_reads uid t ban mute /\ settles (sanction chat uid ban mute) t r /\
    (existsb obs_welcome t = true ->
     greet = true /\ is_err ban = false /\ is_err mute = false /\ live ban = None).

Lemma joined_after chat uid greet t0 tg ban mute (p : io unit) :
  Forall (fun o => obs_seen o = false) t0 -> read_both uid tg ban mute ->
  wp p (fun t r => settles (sanction chat uid ban mute) t r /\ (existsb obs_welcome t = true ->
     greet = true /\ is_err ban = false /\ is_err mute = false /\ live ban = None)) ->
  wp p (fun t r => joined chat uid greet (t0 ++ tg ++ t) r).
Proof.
  intros H0 Hg Hp. eapply wp_mono; [exact Hp|]. intros t r [Hs Hw]. right. exists ban, mute.
  destruct (seen_none _ H0) as [Ha0 Hw0], (seen_none _ (proj1 Hg)) as [Hag Hwg].
  split; [by apply read_both_joiner|]. split; [by repeat apply settles_after|].
  rewrite !existsb_app, Hw0, Hwg. exact Hw.
Qed.

Lemma settles_cancelled s : settles s [] (Err CancelledError).
Proof. split; [done|apply prefix_nil]. Qed.

Lemma member_joined bot m msg chat greet :
  is_bot m = false -> wp (_handle_member cfg bot m msg chat greet) (joined chat.2 (mem_id m) greet).
Proof.
  intros Hbot. unfold _handle_member. rewrite Hbot. destruct chat as [ct cid]. cbn [snd].
  apply (wp_never_bind obs_seen); [apply locale_for_chat_never; by intros [X [] r]|intros t0 locale H0 _|].
  2: { intros t0 e H0 Hx. left. destruct (seen_none _ H0). split; [done|]. split; [done|].
       pose proof (wp_elim _ _ _ _ (locale_for_chat_quiet _ _) Hx) as [_ ->]. done. }
  apply wp_bind. eapply wp_gather3; [apply wp_exec|apply wp_exec|apply wp_exec|].
  intros th tb tm tbm tg rh ban mute Hh Hb Hm Hi1 Hi2.
  pose proof (read_both_intro _ _ _ _ _ _ _ _ _ _ _ _ Hh Hb Hm Hi1 Hi2) as Hg.
  assert (forall t, t = t0 ++ tg -> joined cid (mem_id m) greet t (Err CancelledError)) as Hc.
  { intros t ->. left. destruct (seen_none _ (proj1 Hg)) as [Ha Hw], (seen_none _ H0) as [Ha0 Hw0].
    by rewrite actions_app, existsb_app, Ha, Ha0, Hw, Hw0. }
  split; [|by apply Hc]. cbn beta iota zeta. apply wp_bind, throw_if_cancelled_spec.
  destruct (existsb is_cancel _); [apply Hc; by rewrite app_nil_r|].
  eapply (wp_mono _ (fun t r => joined cid (mem_id m) greet (t0 ++ tg ++ t) r)); [|by intros].
  apply (joined_after _ _ _ _ _ ban mute); [done|done|]. unfold sanction.
  destruct (live ban) as [b|] eqn:Hlive.
  { eapply wp_mono; [apply enforce_ban_settles|]. intros t r [Hs Hw]. split; [done|]. by rewrite Hw. }
  apply wp_bind. eapply (wp_mono _ (fun t r => settles (match live mute with
      Some d => [ARestrict cid (mem_id m) false (until_of d)] | None => [] end) t r /\ existsb obs_welcome t = false)).
  { destruct (live mute); [apply enforce_mute_settles|by apply wp_ret]. }
  intros t1 [[]|e] [Hs Hw]; [|split; [done|by rewrite Hw]].
  destruct (greet && negb (is_err ban || is_err mute)) eqn:Hgreet.
  - apply andb_true_iff in Hgreet as [-> [Hb' Hm']%negb_true_iff%orb_false_iff].
    eapply wp_mono; [apply safe_reply_talks|]. intros t2 r [Ht2 Hr]. split; [|done].
    assert (actions t2 = []) as Ha2.
    { apply actions_none. eapply Forall_impl; [exact Ht2|]. by intros [X [] x]. }
    unfold settles in *. rewrite actions_app, Ha2, app_nil_r, Hs. by destruct r as [[]|e]; [|split].
  - apply wp_ret. rewrite app_nil_r. split; [done|]. by rewrite Hw.
Qed.
End join_lemmas.

(** * Where and on whom *)

Definition federated {CAT : Catalog} (cfg : config) (chat_id : Z) (t : trace eff) : Prop :=
  is_primary_group cfg (Some chat_id) = true \/
  exists v, exec (is_connected chat_id) t (Ok v) /\ py_truthy (Some v) = true.

(** Every action of a trace satisfies [P]. *)
Definition acts_only (P : action -> Prop) (t : trace eff) : Prop :=
  Forall (fun o => match obs_action o with Some a => P a | None => True end) t.

Lemma acts_only_Forall P t : acts_only P t <-> Forall P (actions t).
Proof.
  unfold acts_only. induction t as [|o t IH]; [split; constructor|].
  rewrite actions_cons, Forall_cons, IH. destruct (obs_action o); rewrite ?Forall_cons; tauto.
Qed.

Lemma settles_only s t r (P : action -> Prop) : settles s t r -> Forall P s -> Forall P (actions t).
Proof.
  unfold settles. destruct r as [u|e]; [by intros ->|]. intros [_ [l ->]]. by intros [H _]%Forall_app.
Qed.

(** The sanctions a joiner of a chat may meet. *)
Definition sanction_of (chat_id uid : Z) (a : action) : Prop :=
  a = ABan chat_id uid \/ exists until, a = ARestrict chat_id uid false until.

Lemma sanction_only chat uid ban mute : Forall (sanction_of chat uid) (sanction chat uid ban mute).
Proof. unfold sanction, sanction_of. destruct (live ban), (live mute); rewrite ?Forall_cons; eauto 6. Qed.

Lemma joined_only chat uid greet t r : joined chat uid greet t r -> Forall (sanction_of chat uid) (actions t).
Proof.
  intros [(-> & _)|(ban & mute & _ & Hs & _)]; [constructor|]. eapply settles_only; [exact Hs|apply sanction_only].
Qed.

Section scope.
Context {CAT : Catalog} (cfg : config).

Lemma in_federation_spec chat :
  wp (_in_federation cfg chat)
     (fun t r => Forall (fun o => obs_seen o = false) t /\ (r = Ok (Some true) -> federated cfg chat t)).
Proof.
  unfold _in_federation. destruct (is_primary_group cfg (Some chat)) eqn:Hp.
  { apply wp_ret. split; [constructor|]. intros _. by left. }
  assert (never obs_seen (is_connected chat)) as Hn.
  { unfold is_connected, db_call. apply get_or_fetch_never; [apply cache_seen|]. never_auto. }
  apply wp_try, wp_bind, wp_intro. intros t [v|e] Hrun; cbn beta iota.
  - apply wp_ret. rewrite app_nil_r. split; [exact (never_elim _ _ _ _ Hn Hrun)|]. intros [= Hv]. right. eauto.
  - pose proof (never_elim _ _ _ _ Hn Hrun). destruct (is_Exception e); [|done].
    apply wp_ret. by rewrite app_nil_r.
Qed.

(** A handler that goes on only inside the federation. *)
Lemma in_federation_bind chat (k : option bool -> io unit) (Q : trace eff -> result unit -> Prop) :
  (forall t r, Forall (fun o => obs_seen o = false) t -> Q t r) ->
  (forall b, b <> Some true -> k b = Ret tt) ->
  (forall t0, Forall (fun o => obs_seen o = false) t0 -> federated cfg chat t0 ->
     wp (k (Some true)) (fun t r => Q (t0 ++ t) r)) ->
  wp (bind (_in_federation cfg chat) k) Q.
Proof.
  intros Hcalm Hout Hin. apply wp_bind. eapply wp_mono; [apply in_federation_spec|].
  intros t0 [b|e] [H0 Hf]; [|by apply Hcalm].
  destruct (decide (b = Some true)) as [->|Hb]; [by apply Hin, Hf|].
  rewrite Hout by done. apply wp_ret. rewrite app_nil_r. by apply Hcalm.
Qed.

Lemma members_joined bot msg chat greet members :
  wp (gather_list (map (fun m => _handle_member cfg bot m msg chat greet) members) ;;; Ret tt)
     (fun t _ => acts_only (fun a => exists m, In m members /\ is_bot m = false /\ sanction_of chat.2 (mem_id m) a) t).
Proof.
  apply wp_bind. eapply wp_mono; [apply (wp_gather_list _ _ (acts_only (fun a =>
    exists m, In m members /\ is_bot m = false /\ sanction_of chat.2 (mem_id m) a)) (fun _ _ => True))|].
  - constructor.
  - intros t1 t2 t H1 H2 Hi. by apply (interleave_Forall _ _ _ _ Hi).
  - intros m Hm. destruct (is_bot m) eqn:Hbot.
    + unfold _handle_member. rewrite Hbot. apply wp_ret. by repeat constructor.
    + eapply wp_mono; [by apply member_joined|]. intros t r Ht%joined_only. split; [|done].
      apply acts_only_Forall. eapply Forall_impl; [exact Ht|]. eauto.
  - intros t [rs|e] [Ht _]; [|done]. apply wp_ret. by rewrite app_nil_r.
Qed.
End scope.

(** C27: a joiner meets what the records say, once.  Every run of the handler
    of a new member reads the active ban and the active mute before it does
    anything; it then bans on a live ban, or else restricts until the recorded
    date on a live mute, or else does nothing - whatever becomes of the role
    lookup and the demotion in between - and ends early only when cancelled.
    A failed read counts as no record, but then nobody is welcomed. *)
Theorem member_enforced {CAT : Catalog} (cfg : config) (bot_username : string) (m : member) (msg : message)
    (chat : chat_ref) (greet : bool) (t : trace eff) (r : result unit)
    (Hrun : exec (_handle_member cfg bot_username m msg chat greet) t r)
    (Hbot : is_bot m = false) :
  joined chat.2 (mem_id m) greet t r.
Proof. exact (wp_elim _ _ _ _ (member_joined cfg bot_username m msg chat greet Hbot) Hrun). Qed.

(** Joining is policed inside the federation only.  If the handler of new
    members bans or restricts anybody, the chat is a primary group or its
    connection was looked up first and found active; and whoever is acted on
    is one of the new members, no bot, in this chat. *)
Theorem new_member_scope {CAT : Catalog} (cfg : config) (bot_username : string) (upd : update)
    (new_chat_members : list member) (t : trace eff) (r : result unit)
    (Hrun : exec (on_new_member cfg bot_username upd new_chat_members) t r)
    (Hact : actions t <> []) :
  exists chat t0 t1, effective_chat upd = Some chat /\ t = t0 ++ t1 /\ actions t0 = [] /\
    federated cfg chat.2 t0 /\
    Forall (fun a => exists m, In m new_chat_members /\ is_bot m = false /\ sanction_of chat.2 (mem_id m) a) (actions t1).
Proof.
  revert Hact. revert t r Hrun. refine (wp_elim' _ _ _). unfold on_new_member.
  destruct (effective_message upd) as [msg|], (effective_chat upd) as [chat|] eqn:Hchat; try by apply wp_ret.
  cbv zeta. apply in_federation_bind.
  - intros t r [Ha _]%seen_none. by rewrite Ha.
  - by intros [[]|].
  - intros t0 [Ha _]%seen_none Hf. eapply wp_mono; [apply members_joined|].
    intros t r Ht%acts_only_Forall _. eauto 10.
Qed.

(** A chat with a negative id is never a primary group, although every
    group has one and the settings ask for it: whatever [MAIN_GROUP] says,
    new members of such a group are not welcomed and nobody's leaving is
    announced. *)
Theorem negative_group_never_primary {CAT : Catalog} (cfg : config) (bot_username : string) (upd : update)
    (chat : chat_ref) (members : list member) (left : option member) (t : trace eff) (r : result unit)
    (Hchat : effective_chat upd = Some chat) (Hneg : chat.2 < 0)
    (Hrun : exec (on_new_member cfg bot_username upd members) t r \/ exec (on_left_member cfg upd left) t r) :
  is_primary_group cfg (Some chat.2) = false /\ existsb obs_welcome t = false /\
  (exec (on_left_member cfg upd left) t r -> t = []).
Proof.
  assert (is_primary_group cfg (Some chat.2) = false) as Hp.
  { unfold is_primary_group. by rewrite (proj2 (Z.leb_le chat.2 0)) by lia. }
  assert (forall t r, exec (on_left_member cfg upd left) t r -> t = []) as Hleft.
  { clear t r Hrun. refine (wp_elim' _ (fun t r => t = []) _). unfold on_left_member. rewrite Hchat, Hp.
    destruct (effective_message upd); by apply wp_ret. }
  split; [done|]. split; [|apply Hleft]. destruct Hrun as [Hrun|Hrun]; [|by rewrite (Hleft _ _ Hrun)].
  revert t r Hrun. refine (wp_elim' _ _ _). unfold on_new_member. rewrite Hchat, Hp.
  destruct (effective_message upd) as [msg|]; [|by apply wp_ret]. cbv zeta. apply in_federation_bind.
  - by intros t r [_ Hw]%seen_none.
  - by intros [[]|].
  - intros t0 [_ Hw]%seen_none _. apply wp_bind. eapply wp_mono; [apply (wp_gather_list _ _
      (Forall (fun o => obs_welcome o = false)) (fun _ _ => True))|].
    + constructor.
    + intros t1 t2 t H1 H2 Hi. by apply (interleave_Forall _ _ _ _ Hi).
    + intros m _. destruct (is_bot m) eqn:Hbot.
      * unfold _handle_member. rewrite Hbot. by apply wp_ret.
      * eapply wp_mono; [by apply member_joined|]. intros t r Ht. split; [|done]. apply existsb_false_Forall.
        destruct Ht as [(_ & Ht & _)|(ban & mute & _ & _ & Ht)]; [done|].
        destruct (existsb obs_welcome t); [|done]. by destruct (Ht eq_refl).
    + intros t [rs|e] [Ht _].
      * apply wp_ret. rewrite app_nil_r, existsb_app, Hw. by apply existsb_false_Forall.
      * rewrite existsb_app, Hw. by apply existsb_false_Forall.
Qed.

(** An approved join request is policed like a join.  If the handler acts,
    the update is a request that made a user, no bot, a member of a chat of the
    federation, and the actions are those the user's two records call for. *)
Theorem approved_request_enforced {CAT : Catalog} (cfg : config) (cmu : member_update) (t : trace eff)
    (r : result unit)
    (Hrun : exec (on_join_request_approved cfg (Some cmu)) t r)
    (Hact : actions t <> []) :
  via_join_request cmu = true /\ new_status cmu = "member"%string /\ is_bot (cmu_user cmu) = false /\
  exists t0 t1, t = t0 ++ t1 /\ actions t0 = [] /\ federated cfg (cmu_chat cmu) t0 /\
    joined (cmu_chat cmu) (mem_id (cmu_user cmu)) false t1 r.
Proof.
  revert Hact. revert t r Hrun. refine (wp_elim' _ _ _). unfold on_join_request_approved.
  destruct (via_join_request cmu), (String.eqb_spec (new_status cmu) "member"), (is_bot (cmu_user cmu));
    try by apply wp_ret.
  cbn [negb orb]. cbv zeta. apply in_federation_bind.
  - intros t r [Ha _]%seen_none. by rewrite Ha.
  - by intros [[]|].
  - intros t0 [Ha _]%seen_none Hf.
    enough (forall p, wp p (joined (cmu_chat cmu) (mem_id (cmu_user cmu)) false) ->
      wp p (fun t r => actions (t0 ++ t) <> [] -> true = true /\ new_status cmu = "member"%string /\ false = false /\
        exists t0' t1, t0 ++ t = t0' ++ t1 /\ actions t0' = [] /\ federated cfg (cmu_chat cmu) t0' /\
          joined (cmu_chat cmu) (mem_id (cmu_user cmu)) false t1 r)) as Hgo.
    2: { intros p Hp. eapply wp_mono; [exact Hp|]. intros t r Hj _. eauto 10. }
    apply Hgo. clear Hgo. apply wp_bind. eapply wp_gather3; [apply wp_exec|apply wp_exec|apply wp_exec|].
    intros th tm tb tmb tg rh mute ban Hh Hm Hb Hi1 Hi2.
    pose proof (read_both_intro _ _ _ _ _ _ _ _ _ _ _ _ Hh Hb Hm (interleave_sym _ _ _ Hi1) Hi2) as Hg.
    assert (joined (cmu_chat cmu) (mem_id (cmu_user cmu)) false tg (Err CancelledError)) as Hc.
    { left. by destruct (seen_none _ (proj1 Hg)) as [-> ->]. }
    split; [|done]. cbn beta iota zeta. apply wp_bind, throw_if_cancelled_spec.
    destruct (existsb is_cancel _); [by rewrite app_nil_r|].
    apply (joined_after _ _ _ [] _ ban mute); [constructor|done|].
    enough (wp (match live ban with
      | Some _ => _auto_demote_for_enforcement cfg (mem_id (cmu_user cmu)) (mem_first_name (cmu_user cmu)) "ban" ;;;
          try_except (call (BanChatMember (cmu_chat cmu) (mem_id (cmu_user cmu)))) (fun _ => Ret tt)
      | None => match live mute with
                | Some mute => enforce_mute cfg (cmu_user cmu) (cmu_chat cmu) mute
                | None => Ret tt
                end
      end) (fun t r => settles (sanction (cmu_chat cmu) (mem_id (cmu_user cmu)) ban mute) t r /\ existsb obs_welcome t = false)) as Hs.
    { eapply wp_mono; [exact Hs|]. intros t r [? Hw]. split; [done|]. by rewrite Hw. }
    unfold sanction. destruct (live ban).
    + apply settles_bind; [apply auto_demote_calm|intros _]. by apply try_act_settles.
    + destruct (live mute); [apply enforce_mute_settles|by apply wp_ret].
Qed.

Lemma prefix_single {A} (l : list A) (a : A) : l `prefix_of` [a] -> l <> [] -> l = [a].
Proof.
  intros [k Hk] Hl. destruct l as [|b l]; [done|]. injection Hk as <- Hk. symmetry in Hk.
  by apply app_eq_nil in Hk as [-> _].
Qed.

(** A join request is declined only for a live ban, in the federation. *)
Lemma join_request_declined {CAT : Catalog} (cfg : config) (user : member) (chat : Z) (t : trace eff)
    (r : result unit)
    (Hrun : exec (on_join_request cfg (Some (user, chat))) t r)
    (Hact : actions t <> []) :
  is_bot user = false /\ actions t = [ADecline chat (mem_id user)] /\
  exists t0 t1 tb ban, t = t0 ++ t1 /\ federated cfg chat t0 /\
    exec (get_active_ban (mem_id user)) tb ban /\ live ban <> None /\ forall o, In o tb -> In o t1.
Proof.
  revert Hact. revert t r Hrun. refine (wp_elim' _ _ _). unfold on_join_request.
  destruct (is_bot user); [by apply wp_ret|]. apply in_federation_bind.
  - intros t r [Ha _]%seen_none. by rewrite Ha.
  - by intros [[]|].
  - intros t0 [Ha _]%seen_none Hf. apply wp_bind. eapply wp_gather2; [apply wp_exec|apply wp_exec|].
    intros th tb tg rh ban Hh Hb Hi.
    assert (actions tg = []) as Hg.
    { apply seen_none, (interleave_Forall _ _ _ _ Hi).
      split; [by eapply never_elim, Hh; apply harvest_never|by eapply never_elim, Hb; apply active_ban_never]. }
    split; [|by rewrite actions_app, Ha, Hg]. cbn beta iota. apply wp_bind, throw_if_cancelled_spec.
    destruct (existsb is_cancel _); [by rewrite app_nil_r, actions_app, Ha, Hg|].
    destruct (live ban) eqn:Hlive; [|apply wp_ret; by rewrite !app_nil_r, actions_app, Ha, Hg].
    eapply wp_mono; [by apply (try_act_settles _ (ADecline chat (mem_id user)))|].
    intros t r [Hs _]. cbn beta. rewrite !actions_app, Ha, Hg. cbn [app]. intros Hact. split; [done|].
    split; [destruct r as [u|e]; [exact Hs|]; destruct Hs as [_ Hs]; by apply prefix_single|].
    exists t0, (tg ++ t), tb, ban. repeat (split; [done|]). split; [by rewrite Hlive|].
    intros o Ho. apply in_or_app. left. apply (interleave_In _ _ _ _ Hi). by right.
Qed.

(** * Witnesses *)
Definition joiner : member := Member 9 None "x" None false.

(** The joiner has an active ban, the role lookup fails. *)
Definition banned_joiner : script := fun X ev =>
  match ev in eff X return option (result X) with
  | FindOne "bans" _ _ => Some (Ok (Some [("ban_id"%string, BStr "b1")]))
  | FindOne "federated_groups" _ _ => Some (Ok (Some [("chat_id"%string, BInt (-100))]))
  | FindOne "tc_owners" _ _ => Some (Err TimedOut)
  | _ => None
  end.

Lemma member_enforced_witness :
  let p := @_handle_member demo_catalog demo_config "tcbot" joiner demo_message ("supergroup"%string, -100) true in
  joined (-100) 9 true (replay banned_joiner p).1 (replay banned_joiner p).2 /\
  actions (replay banned_joiner p).1 = [ABan (-100) 9].
Proof.
  intros p. split; [|vm_compute; reflexivity].
  apply (@member_enforced demo_catalog demo_config "tcbot" joiner demo_message ("supergroup"%string, -100) true _ _
    (replay_exec banned_joiner p)). reflexivity.
Defined.

Lemma new_member_scope_witness :
  let t := (replay banned_joiner (@on_new_member demo_catalog demo_config "tcbot" (demo_update 7) [joiner])).1 in
  exists chat t0 t1, effective_chat (demo_update 7) = Some chat /\ t = t0 ++ t1 /\ actions t0 = [] /\
    @federated demo_catalog demo_config chat.2 t0 /\
    Forall (fun a => exists m, In m [joiner] /\ is_bot m = false /\ sanction_of chat.2 (mem_id m) a) (actions t1).
Proof.
  apply (@new_member_scope demo_catalog demo_config "tcbot" (demo_update 7) [joiner] _ _ (replay_exec banned_joiner _)).
  vm_compute. discriminate.
Defined.

Lemma negative_group_never_primary_witness :
  existsb obs_welcome
    (replay no_script (@on_new_member demo_catalog (Config 3 0 (-11, None) (-12, None) (-100) (-2) "TCF" (-13, None) "@logs" 0 true "tcbot_mtproto") "tcbot"
       (demo_update 7) [joiner])).1 = false.
Proof.
  refine (proj1 (proj2 (@negative_group_never_primary demo_catalog
    (Config 3 0 (-11, None) (-12, None) (-100) (-2) "TCF" (-13, None) "@logs" 0 true "tcbot_mtproto") "tcbot" (demo_update 7) ("supergroup"%string, -100)
    [joiner] None _ _ eq_refl _ (or_introl (replay_exec no_script _))))).
  reflexivity.
Defined.

Definition approved_joiner : member_update := MemberUpdate true "member" joiner (-100).

Lemma approved_request_enforced_witness :
  via_join_request approved_joiner = true /\
  existsb obs_acts (replay banned_joiner (@on_join_request_approved demo_catalog demo_config (Some approved_joiner))).1 = true.
Proof.
  split; [|vm_compute; reflexivity].
  apply (@approved_request_enforced demo_catalog demo_config approved_joiner _ _ (replay_exec banned_joiner _)).
  vm_compute. discriminate.
Defined.
