(* ===== verification/Prefixes.v ===== *)
(** Commands behind the configured prefixes: [tcbot/utils/prefixes.py], on
    code points. *)

From stdpp Require Import sorting.
From S2P Require Import Prelude Text.

(** * Shapes of a command and of a mention *)
Definition command_first (c : Z) : bool := ascii_lower_letter c.
Definition command_char (c : Z) : bool :=
  ascii_lower_letter c || match ascii_digit c with Some _ => true | None => false end.
Definition mention_char (c : Z) : bool := ascii_alnum c || (c =? c_under).

(** [_COMMAND_RE.fullmatch] *)
Definition command_re (s : ustr) : bool :=
  match s with [] => false | c :: s' => command_first c && forallb command_char s' end.

(** [_MENTION_RE.fullmatch] *)
Definition mention_re (s : ustr) : bool :=
  (5 <=? Z.of_nat (length s)) && (Z.of_nat (length s) <=? 32) && forallb mention_char s.

Definition nonempty (s : ustr) : bool := match s with [] => false | _ => true end.

Section prefixes.
Context `{UCD}.

(** [cfg.prefixes or ["/"]], blank ones dropped. *)
Definition _get_prefixes (configured : list ustr) : list ustr :=
  List.filter (fun p => nonempty p && nonempty (strip_ws p))
    (match configured with [] => [[c_slash]] | _ => configured end).

(** Longest first.  [set] forgets duplicates and order; the stable sort puts
    them back by length only. *)
Definition longer (a b : ustr) : Prop := (length b <= length a)%nat.

#[global] Instance longer_dec : RelDecision longer.
Proof. unfold longer. intros a b. apply _. Defined.

Definition sort_prefixes (prefixes : list ustr) : list ustr := merge_sort longer (remove_dups prefixes).

(** The bot's own name, from [message.get_bot()]. *)
Definition _bot_username_from_message (username : option ustr) : option ustr :=
  match username with
  | None => None
  | Some un => match lstrip (Z.eqb c_at) un with [] => None | un => Some un end
  end.

Definition _parse_prefixed_command (text : ustr) (prefixes : list ustr) (bot_username : option ustr)
    : option (ustr * option ustr) :=
  match List.find (startswith text) prefixes with
  | None => None
  | Some prefix =>
      match split_ws_1 (drop (length prefix) text) with
      | [] => None
      | token :: _ =>
          let '(command, separator, mention) := partition1 c_at token in
          if negb (command_re command) then None
          else if separator && (negb (mention_re mention) ||
                 match bot_username with
                 | None => true
                 | Some un => negb (ueqb (str_casefold mention) (str_casefold un))
                 end)
          then None
          else Some (command, match mention with [] => None | _ => Some mention end)
      end
  end.

(** The name is looked up only for a text with an ["@"]. *)
Definition parse_message (text : option ustr) (prefixes : list ustr) (bot : option ustr) :=
  let text := match text with Some t => t | None => [] end in
  let bot_username := if contains text [c_at] then _bot_username_from_message bot else None in
  _parse_prefixed_command text (sort_prefixes prefixes) bot_username.

(** [_PrefixedCommandFilter.filter] and [_AnyPrefixedCommandFilter.filter] *)
Definition command_filter (command : ustr) (prefixes : list ustr) (bot text : option ustr) : bool :=
  match parse_message text prefixes bot with
  | Some (c, _) => ueqb c command
  | None => false
  end.

Definition any_command_filter (prefixes : list ustr) (bot text : option ustr) : bool :=
  match parse_message text prefixes bot with Some _ => true | None => false end.

Definition build_prefixed_filters (command : ustr) (configured : list ustr) (bot text : option ustr) : bool :=
  command_filter (str_lower command) (_get_prefixes configured) bot text.

Definition parse_cmd_args (text : option ustr) : list ustr :=
  match text with
  | None | Some [] => []
  | Some text =>
      match split_ws_1 (strip_ws text) with
      | [_; rest] => split_ws rest
      | _ => []
      end
  end.
End prefixes.

(** * What is a command

    The relation the parser decides: the longest configured prefix the text
    starts with, white space, a command word, and possibly a mention of this
    bot; then the end or white space. *)
Section spec.
Context `{UCD}.

Definition best_prefix (text : ustr) (prefixes : list ustr) (p : ustr) : Prop :=
  In p prefixes /\ startswith text p = true /\
  forall q, In q prefixes -> startswith text q = true -> (length q <= length p)%nat.

Definition blank (s : ustr) : Prop := Forall (fun c => is_space c = true) s.

(** Empty, or opening with white space. *)
Definition word_end (s : ustr) : Prop :=
  match s with [] => True | c :: _ => is_space c = true end.

Definition names_bot (bot_username : option ustr) (mention : ustr) : Prop :=
  mention_re mention = true /\
  exists un, bot_username = Some un /\ str_casefold mention = str_casefold un.

Definition is_command (text : ustr) (prefixes : list ustr) (bot_username : option ustr)
    (command : ustr) (mention : option ustr) : Prop :=
  exists p ws rest, best_prefix text prefixes p /\ blank ws /\ word_end rest /\ command_re command = true /\
    text = p ++ ws ++ command ++ match mention with None => [] | Some m => c_at :: m end ++ rest /\
    match mention with None => True | Some m => names_bot bot_username m end.
End spec.

(** * Lemmas on words *)
Lemma take_drop_while f s : take_while f s ++ drop_while f s = s.
Proof. induction s as [|c s IH]; simpl; [done|]. destruct (f c); [|done]. simpl. by rewrite IH. Qed.

Lemma take_while_Forall f s : Forall (fun c => f c = true) (take_while f s).
Proof. induction s as [|c s IH]; simpl; [constructor|]. destruct (f c) eqn:Hc; by constructor. Qed.

Lemma drop_head f s : match drop_while f s with [] => True | c :: _ => f c = false end.
Proof. induction s as [|c s IH]; simpl; [done|]. by destruct (f c) eqn:Hc. Qed.

Lemma drop_while_app f a b :
  Forall (fun c => f c = true) a -> drop_while f (a ++ b) = drop_while f b.
Proof. induction 1 as [|c a Hc _ IH]; simpl; [done|]. by rewrite Hc. Qed.

Lemma take_while_app f a b :
  Forall (fun c => f c = true) a -> match b with [] => True | c :: _ => f c = false end ->
  take_while f (a ++ b) = a.
Proof.
  intros Ha Hb. induction Ha as [|c a Hc _ IH]; simpl; [|by rewrite Hc, IH].
  destruct b as [|c b]; simpl; [done|]. by rewrite Hb.
Qed.

Lemma partition1_app sep h t : Forall (fun c => c <> sep) h -> partition1 sep (h ++ sep :: t) = (h, true, t).
Proof.
  induction 1 as [|c h Hc _ IH]; simpl; [by rewrite Z.eqb_refl|].
  rewrite (proj2 (Z.eqb_neq c sep)) by done. by rewrite IH.
Qed.

Lemma partition1_none sep h : Forall (fun c => c <> sep) h -> partition1 sep h = (h, false, []).
Proof.
  induction 1 as [|c h Hc _ IH]; simpl; [done|]. rewrite (proj2 (Z.eqb_neq c sep)) by done. by rewrite IH.
Qed.

Lemma partition1_inv sep s h b t :
  partition1 sep s = (h, b, t) -> s = h ++ (if b then sep :: t else []) /\ (b = false -> t = []).
Proof.
  revert h b t. induction s as [|c s IH]; intros h b t; simpl; [by intros [= <- <- <-]|].
  destruct (Z.eqb_spec c sep) as [->|Hc]; [by intros [= <- <- <-]|].
  destruct (partition1 sep s) as [[h' b'] t'] eqn:Hs. intros [= <- <- <-].
  destruct (IH _ _ _ eq_refl) as [-> Ht]. done.
Qed.

Section lemmas.
Context `{UCD}.

Definition word (s : ustr) : Prop := s <> [] /\ Forall (fun c => is_space c = false) s.

Lemma split_ws_1_inv s token more :
  split_ws_1 s = token :: more -> exists ws rest, s = ws ++ token ++ rest /\ blank ws /\ word token /\ word_end rest.
Proof.
  unfold split_ws_1. pose proof (take_drop_while is_space s) as Hs. pose proof (take_while_Forall is_space s) as Hws.
  pose proof (drop_head is_space s) as Hh. destruct (drop_while is_space s) as [|c s1] eqn:H1; [done|].
  set (w := take_while (fun c => negb (is_space c)) (c :: s1)).
  intros Hsplit. assert (token = w) as ->. { by destruct (drop_while _ _) in Hsplit; injection Hsplit. }
  exists (take_while is_space s), (drop_while (fun c => negb (is_space c)) (c :: s1)).
  unfold w at 1. rewrite take_drop_while. split; [done|]. split; [done|]. split.
  - split; [unfold w; simpl; by rewrite Hh|]. eapply Forall_impl; [apply take_while_Forall|].
    intros x Hx. by apply negb_true_iff.
  - pose proof (drop_head (fun c => negb (is_space c)) (c :: s1)) as Hd.
    unfold word_end. destruct (drop_while (fun c => negb (is_space c)) (c :: s1)); [done|].
    by apply negb_false_iff.
Qed.

Lemma split_ws_1_word ws token rest :
  blank ws -> word token -> word_end rest -> exists more, split_ws_1 (ws ++ token ++ rest) = token :: more.
Proof.
  intros Hws [Hn Ht] Hr. unfold split_ws_1. rewrite drop_while_app by done.
  assert (Forall (fun c => negb (is_space c) = true) token) as Ht'.
  { eapply Forall_impl; [exact Ht|]. intros c Hc. by rewrite Hc. }
  assert (take_while (fun c => negb (is_space c)) (token ++ rest) = token) as Htake.
  { apply take_while_app; [done|]. unfold word_end in Hr. destruct rest; [done|]. by rewrite Hr. }
  assert (drop_while is_space (token ++ rest) = token ++ rest) as Hdrop.
  { destruct token as [|c token]; [done|]. simpl. inversion Ht as [|? ? Hc]; subst. by rewrite Hc. }
  rewrite Hdrop, Htake. destruct token as [|c token]; [done|]. simpl app. cbv zeta iota.
  case_match; eauto.
Qed.

(** ASCII letters, digits and the underscore are neither white space nor ["@"]. *)
Lemma mention_char_word c : mention_char c = true -> is_space c = false /\ c <> c_at.
Proof.
  unfold mention_char, ascii_alnum, ascii_digit, ascii_lower_letter, ascii_upper_letter.
  intros Hc. assert (48 <= c <= 57 \/ 65 <= c <= 90 \/ 97 <= c <= 122 \/ c = 95) as Hr.
  { destruct ((48 <=? c) && (c <=? 57)) eqn:Hd; to_prop; [lia|]. unfold c_under, ch in Hc. simpl in Hc.
    rewrite !orb_true_iff, !andb_true_iff, !Z.leb_le, Z.eqb_eq in Hc. lia. }
  split; [|unfold c_at, ch; simpl; lia]. rewrite is_space_ascii by lia. unfold ascii_space.
  apply orb_false_iff. rewrite !andb_false_iff, !Z.leb_gt. lia.
Qed.

Lemma forallb_all (f : Z -> bool) s : forallb f s = true -> Forall (fun c => f c = true) s.
Proof. induction s as [|c s IH]; simpl; [constructor|]. intros [Hc Hs]%andb_true_iff. constructor; auto. Qed.

Lemma command_char_mention c : command_char c = true -> mention_char c = true.
Proof.
  unfold command_char, mention_char, ascii_alnum. destruct (ascii_digit c); simpl; [done|].
  rewrite orb_false_r. by intros ->.
Qed.

Lemma command_re_chars s : command_re s = true -> s <> [] /\ Forall (fun c => mention_char c = true) s.
Proof.
  destruct s as [|c s]; [done|]. simpl. intros [Hc Hs]%andb_true_iff. split; [done|]. constructor.
  - apply command_char_mention. unfold command_char. unfold command_first in Hc. by rewrite Hc.
  - eapply Forall_impl; [apply forallb_all, Hs|]. apply command_char_mention.
Qed.

Lemma mention_re_chars s : mention_re s = true -> s <> [] /\ Forall (fun c => mention_char c = true) s.
Proof.
  unfold mention_re. intros [[Hl _]%andb_true_iff Hs]%andb_true_iff. split; [by destruct s|].
  by apply forallb_all.
Qed.
End lemmas.

(** * Prefixes *)
Lemma sort_prefixes_In p ps : In p (sort_prefixes ps) <-> In p ps.
Proof.
  unfold sort_prefixes. rewrite <- !list_elem_of_In, (merge_sort_Permutation longer), elem_of_remove_dups. done.
Qed.

Lemma sort_prefixes_sorted ps : StronglySorted longer (sort_prefixes ps).
Proof.
  assert (Transitive longer) by (unfold longer; intros a b c; lia).
  assert (Total longer) by (unfold longer; intros a b; lia).
  apply (StronglySorted_merge_sort longer).
Qed.

Lemma find_longest f l p :
  StronglySorted longer l -> List.find f l = Some p ->
  forall q, In q l -> f q = true -> (length q <= length p)%nat.
Proof.
  induction 1 as [|a l Hl IH Ha]; simpl; [done|]. destruct (f a) eqn:Hf.
  - intros [= <-] q [<-|Hq] _; [done|]. rewrite Forall_forall in Ha. apply Ha. by apply list_elem_of_In.
  - intros Hp q [<-|Hq] Hfq; [congruence|eauto].
Qed.

Lemma same_length_prefix text p q :
  startswith text p = true -> startswith text q = true -> length p = length q -> p = q.
Proof.
  intros [t ->]%startswith_spec [t' Ht]%startswith_spec Hl. by apply app_inj_1 in Ht as [-> _].
Qed.

Lemma find_best text ps p :
  List.find (startswith text) (sort_prefixes ps) = Some p <-> best_prefix text ps p.
Proof.
  split.
  - intros Hf. pose proof (List.find_some _ _ Hf) as [Hin Hs]. rewrite sort_prefixes_In in Hin.
    split; [done|]. split; [done|]. intros q Hq. rewrite <- sort_prefixes_In in Hq.
    by apply (find_longest _ _ _ (sort_prefixes_sorted ps) Hf).
  - intros (Hin & Hs & Hmax). destruct (List.find (startswith text) (sort_prefixes ps)) as [q|] eqn:Hf.
    + pose proof (List.find_some _ _ Hf) as [Hq Hsq].
      f_equal. symmetry. eapply same_length_prefix; [exact Hs|exact Hsq|].
      pose proof (find_longest _ _ _ (sort_prefixes_sorted ps) Hf p (proj2 (sort_prefixes_In p ps) Hin) Hs).
      rewrite sort_prefixes_In in Hq. pose proof (Hmax q Hq Hsq). lia.
    + apply (proj2 (sort_prefixes_In p ps)) in Hin. by rewrite (List.find_none _ _ Hf _ Hin) in Hs.
Qed.

(** A message is a command exactly when it reads as one: after the longest
    configured prefix it starts with and any white space comes a lower-case
    command word, alone or with a mention that is this bot's name in any case,
    and then the end or white space.  The result does not depend on the order
    the prefixes are configured in. *)
Theorem parse_command_spec `{UCD} (text : ustr) (prefixes : list ustr) (bot_username : option ustr)
    (command : ustr) (mention : option ustr) :
  _parse_prefixed_command text (sort_prefixes prefixes) bot_username = Some (command, mention) <->
  is_command text prefixes bot_username command mention.
Proof.
  unfold _parse_prefixed_command, is_command. split.
  - destruct (List.find _ _) as [p|] eqn:Hp; [|done]. apply find_best in Hp as Hb.
    destruct Hb as (_ & [body ->]%startswith_spec & _). rewrite drop_app_length.
    destruct (split_ws_1 body) as [|token more] eqn:Hsplit; [done|].
    apply split_ws_1_inv in Hsplit as (ws & rest & -> & Hws & _ & Hrest).
    destruct (partition1 c_at token) as [[cmd sep] m] eqn:Hpart. apply partition1_inv in Hpart as [-> Hm].
    destruct (command_re cmd) eqn:Hcmd; [|done]. cbn [negb]. destruct sep; cbn [andb].
    + destruct (mention_re m) eqn:Hmre; [|done]. cbn [negb orb].
      destruct bot_username as [un|]; [|done]. destruct (ueqb _ _) eqn:Heq; [|done]. cbn [negb].
      destruct (mention_re_chars _ Hmre) as [Hne _]. destruct m as [|x m]; [done|]. intros [= <- <-].
      exists p, ws, rest. apply find_best in Hp. repeat (split; [done|]).
      split; [by rewrite <- !app_assoc|]. split; [exact Hmre|].
      exists un. split; [done|]. by apply bool_decide_eq_true in Heq.
    + rewrite Hm by done. intros [= <- <-]. exists p, ws, rest. apply find_best in Hp.
      repeat (split; [done|]). split; [by rewrite app_nil_r|done].
  - intros (p & ws & rest & Hb & Hws & Hrest & Hcmd & -> & Hm). apply find_best in Hb as ->.
    rewrite drop_app_length. destruct (command_re_chars _ Hcmd) as [Hne Hchars].
    assert (forall l, Forall (fun c => mention_char c = true) l -> Forall (fun c => is_space c = false) l) as Hsp.
    { intros l Hl. eapply Forall_impl; [exact Hl|]. intros c Hc. by apply mention_char_word. }
    assert (Forall (fun c => c <> c_at) command) as Hat.
    { eapply Forall_impl; [exact Hchars|]. intros c Hc. by apply mention_char_word. }
    destruct mention as [m|].
    + destruct Hm as (Hmre & un & -> & Heq). destruct (mention_re_chars _ Hmre) as [Hmne Hmchars].
      destruct (split_ws_1_word ws (command ++ c_at :: m) rest) as [more Hsplit]; [done| |done|].
      { split; [by destruct command|]. apply Forall_app. split; [by apply Hsp|].
        constructor; [|by apply Hsp]. by rewrite is_space_ascii. }
      rewrite <- app_assoc in Hsplit. rewrite Hsplit, partition1_app, Hcmd, Hmre by done. cbn [negb andb orb].
      unfold ueqb. rewrite bool_decide_eq_true_2 by done. by destruct m.
    + destruct (split_ws_1_word ws command rest) as [more Hsplit]; [done|by split; [|apply Hsp]|done|].
      cbn [app]. by rewrite Hsplit, partition1_none, Hcmd.
Qed.

Definition two_prefixes : list ustr := map u ["."; ".."; "/"]%string.

Lemma parse_command_spec_witness :
  @is_command ascii_ucd (u "..tcb@MyBot 5") two_prefixes (Some (u "mybot")) (u "tcb") (Some (u "MyBot")).
Proof.
  apply (proj1 (@parse_command_spec ascii_ucd (u "..tcb@MyBot 5") two_prefixes (Some (u "mybot"))
    (u "tcb") (Some (u "MyBot")))).
  vm_compute. reflexivity.
Defined.

(** * Arguments *)
Section args.
Context `{UCD}.

Lemma split_ws_blank ws s : blank ws -> split_ws (ws ++ s) = split_ws s.
Proof. unfold split_ws. induction 1 as [|c ws Hc _ IH]; simpl; [done|]. by rewrite Hc. Qed.

Lemma split_ws_acc_word cur token rest :
  Forall (fun c => is_space c = false) token -> word_end rest -> rev token ++ cur <> [] ->
  split_ws_acc cur (token ++ rest) = rev (rev token ++ cur) :: split_ws rest.
Proof.
  intros Ht Hr. revert cur. induction Ht as [|c token Hc _ IH]; intros cur Hne; simpl.
  - unfold split_ws. destruct rest as [|c rest]; simpl; [by destruct cur|]. simpl in Hr. rewrite Hr. by destruct cur.
  - rewrite Hc, IH; [by rewrite <- app_assoc|by destruct (rev token)].
Qed.

Lemma split_ws_word token rest : word token -> word_end rest -> split_ws (token ++ rest) = token :: split_ws rest.
Proof.
  intros [Hne Ht] Hr. unfold split_ws at 1. rewrite split_ws_acc_word; rewrite ?app_nil_r, ?rev_involutive; try done.
  intros Hrev. apply Hne. by rewrite <- (rev_involutive token), Hrev.
Qed.

Lemma split_ws_acc_trail cur s ws : blank ws -> split_ws_acc cur (s ++ ws) = split_ws_acc cur s.
Proof.
  intros Hws. revert cur. induction s as [|c s IH]; intros cur; simpl.
  - revert cur. induction Hws as [|c ws Hc _ IH]; intros cur; simpl; [done|]. rewrite Hc.
    destruct cur; [apply IH|]. by rewrite IH.
  - rewrite !IH. done.
Qed.

(** The tokens of a text are those of the text stripped. *)
Lemma split_ws_strip s : split_ws (strip_ws s) = split_ws s.
Proof.
  unfold strip_ws, strip, rstrip, lstrip. rewrite <- (take_drop_while is_space s) at 2.
  rewrite split_ws_blank by apply take_while_Forall. set (l := drop_while is_space s).
  rewrite <- (rev_involutive l) at 2. rewrite <- (take_drop_while is_space (rev l)) at 2.
  rewrite rev_app_distr. unfold split_ws. rewrite split_ws_acc_trail; [done|].
  apply Forall_rev. apply take_while_Forall.
Qed.

(** Dropping the first word: [split(None, 1)] and [split()] agree. *)
Lemma split_ws_1_tail s :
  match split_ws_1 s with [_; rest] => split_ws rest | _ => [] end = List.tl (split_ws s).
Proof.
  destruct (split_ws_1 s) as [|w more] eqn:Hs.
  - unfold split_ws_1 in Hs. pose proof (take_drop_while is_space s) as Heq.
    destruct (drop_while is_space s) as [|c s1] eqn:Hd; [|by destruct (drop_while is_space (drop_while _ _)) in Hs].
    rewrite app_nil_r in Heq. rewrite <- Heq, <- (app_nil_r (take_while _ _)), split_ws_blank by apply take_while_Forall.
    done.
  - pose proof (split_ws_1_inv _ _ _ Hs) as (ws & rest & -> & Hws & Hw & Hrest).
    rewrite split_ws_blank, split_ws_word by done. cbn [List.tl].
    destruct Hw as [Hne Ht]. revert Hs. unfold split_ws_1. rewrite drop_while_app by done.
    assert (drop_while is_space (w ++ rest) = w ++ rest) as ->.
    { destruct w as [|c w]; [done|]. simpl. inversion Ht as [|? ? Hc]; subst. by rewrite Hc. }
    assert (Forall (fun c => negb (is_space c) = true) w) as Ht'.
    { eapply Forall_impl; [exact Ht|]. intros c Hc. by rewrite Hc. }
    assert (drop_while (fun c => negb (is_space c)) (w ++ rest) = rest) as ->.
    { rewrite drop_while_app by done. destruct rest as [|c rest]; [done|]. simpl. simpl in Hrest. by rewrite Hrest. }
    assert (split_ws (drop_while is_space rest) = split_ws rest) as <-.
    { rewrite <- (take_drop_while is_space rest) at 2. by rewrite split_ws_blank by apply take_while_Forall. }
    destruct w as [|c w]; [done|]. cbn [app]. cbv zeta.
    destruct (drop_while is_space rest) as [|c' r]; intros Hs; injection Hs as _ <-; done.
Qed.

Lemma parse_cmd_args_tail text : parse_cmd_args (Some text) = List.tl (split_ws text).
Proof.
  unfold parse_cmd_args. destruct text as [|c text]; [done|]. rewrite <- (split_ws_strip (c :: text)).
  apply split_ws_1_tail.
Qed.
End args.

(** The arguments of a command are the words after its first word.  For a
    command written right behind its prefix those are the words after the
    command; with white space in between - which the command filters accept -
    the command word itself is handed over as the first argument. *)
Theorem cmd_args_spec `{UCD} (prefix ws command rest : ustr)
    (Hp : word prefix) (Hws : blank ws) (Hc : word command) (Hrest : word_end rest) :
  parse_cmd_args (Some (prefix ++ ws ++ command ++ rest)) =
  match ws with [] => split_ws rest | _ => command :: split_ws rest end.
Proof.
  rewrite parse_cmd_args_tail. destruct ws as [|c ws].
  - cbn [app]. rewrite app_assoc, split_ws_word; [done| |done].
    destruct Hp as [Hne Hp], Hc as [_ Hc]. split; [by destruct prefix|]. by apply Forall_app.
  - rewrite split_ws_word; [|done|by inversion Hws]. cbn [List.tl].
    rewrite split_ws_blank by done. by rewrite split_ws_word.
Qed.

(** ["! tcban 5 spam"] is the ban command, with ["tcban"] for its target. *)
Lemma cmd_args_spec_witness :
  @command_filter ascii_ucd (u "tcban") [u "!"] None (Some (u "! tcban 5 spam")) = true /\
  @parse_cmd_args ascii_ucd (Some (u "! tcban 5 spam")) = map u ["tcban"; "5"; "spam"]%string.
Proof.
  split; [vm_compute; reflexivity|].
  refine (eq_trans (@cmd_args_spec ascii_ucd (u "!") (u " ") (u "tcban") (u " 5 spam") _ _ _ _) _).
  - split; [done|]. repeat constructor.
  - repeat constructor.
  - split; [done|]. repeat constructor.
  - reflexivity.
  - vm_compute. reflexivity.
Defined.
