(* ===== verification/Extract.v ===== *)
(** Whom a command names: [tcbot/modules/helper/extraction/resolve.py], the
    bot probe of [identity.py], the MTProto lookups of
    [tcbot/database/mtproto/resolve.py] and the reason text of
    [reason_flow/parsing.py].

    Text of messages is [string]: its characters stand for the code points
    below 256. *)

From stdpp Require Import pretty.
From S2P Require Import Prelude Prog Text World I18n Dispatch Cache Locale Roles Replies Auth Records BanFlow Prefixes MuteFlow AppealReview.

(** A sender: id, first name, and whether it is a bot. *)
Record tg_user := TgUser { tu_id : Z; tu_first_name : string; tu_is_bot : bool }.

(** The message a command replies to: its sender, and the chat it was sent as
    (id, type, title). *)
Record quoted := Quoted {
  from_user : option tg_user;
  sender_chat : option (Z * string * option string)
}.

Record entity := Entity {
  ent_type : string;
  ent_offset : Z;
  ent_length : Z;
  ent_user : option tg_user
}.

(** The command message as the resolver sees it. *)
Record incoming := Incoming {
  in_text : option string;
  reply_to_message : option quoted;
  entities : list entity
}.

(** * MTProto lookups *)

(** A lookup that answers nothing on any failure but cancellation. *)
Definition _fetch_user (target_id : Z) : io (option mt_user) :=
  up <- call MtReady ;;
  if negb up then Ret None
  else try_except (user <- call (MtGetUsers target_id) ;; Ret (Some user)) (fun _ => Ret None).

Definition named (user : mt_user) : option string :=
  match mt_first_name user with Some n => if truthy_str n then Some n else None | None => None end.

Definition resolve_user (target_id : Z) : io (option (string * option string * option string)) :=
  user <- _fetch_user target_id ;;
  Ret (user ← user; fname ← named user; Some (fname, mt_username user, mt_last_name user)).

Definition resolve_username (username : string) : io (option (Z * string * option string)) :=
  up <- call MtReady ;;
  if negb up then Ret None
  else
    users <- try_except (call (MtResolveUsername (s_of (lstrip (Z.eqb c_at) (u username))))) (fun _ => Ret []) ;;
    Ret (head (omap (fun user => fname ← named user; Some (mt_id user, fname, mt_username user)) users)).

Definition is_bot_user (target_id : Z) : io (option bool) :=
  user <- _fetch_user target_id ;; Ret (mt_is_bot <$> user).

(** * Resolution *)
Section extract.
Context {CAT : Catalog}.

Definition _safe_get_chat (ident : Z + string) : io (option chat_info) :=
  try_except (c <- call (GetChat ident) ;; Ret (Some c)) (fun _ => Ret None).

Definition _first_arg_is_explicit (args : list string) : bool :=
  match args with
  | [] => false
  | first :: _ => numeric_name first || (String.prefix "@" first && (1 <? Z.of_nat (String.length first)))
  end.

(** The first usable candidate, then the cached name, then the bare id. *)
Definition usable (cand : option string) : option string :=
  match cand with
  | Some c => if truthy_str c && negb (numeric_name c) then Some c else None
  | None => None
  end.

Definition _best_name (uid : Z) (primary : list (option string)) : io string :=
  match head (omap usable primary) with
  | Some c => Ret c
  | None =>
      cached <- get_first_name uid "" ;;
      Ret match usable (Some cached) with Some c => c | None => py_str uid end
  end.

(** [x or await _best_name(uid)] *)
Definition name_or_best (name : option string) (uid : Z) : io string :=
  match name with
  | Some n => if truthy_str n then Ret n else _best_name uid []
  | None => _best_name uid []
  end.

Definition _reply_uid (msg : incoming) : option Z :=
  target_msg ← reply_to_message msg;
  let by_chat :=
    match sender_chat target_msg with
    | Some (id, type, _) => if String.eqb type "channel" then None else Some id
    | None => None
    end in
  match from_user target_msg with
  | Some from =>
      if negb (tu_id from =? ANONYMOUS_BOT_ID) && negb (tu_id from =? TELEGRAM_USER_ID) then Some (tu_id from)
      else if tu_id from =? ANONYMOUS_BOT_ID then None
      else by_chat
  | None => by_chat
  end.

Definition _reply_target (msg : incoming) : io (option (Z * string)) :=
  match _reply_uid msg, reply_to_message msg with
  | Some uid, Some target_msg =>
      name <- match from_user target_msg with
              | Some from =>
                  if tu_id from =? uid then name_or_best (Some (tu_first_name from)) uid
                  else match sender_chat target_msg with
                       | Some (id, _, title) => name_or_best (if id =? uid then title else None) uid
                       | None => _best_name uid []
                       end
              | None => match sender_chat target_msg with
                        | Some (id, _, title) => name_or_best (if id =? uid then title else None) uid
                        | None => _best_name uid []
                        end
              end ;;
      Ret (Some (uid, name))
  | _, _ => Ret None
  end.

(** [re.escape] *)
Definition re_special : ustr := u "()[]{}?*+-|^$\.&~# " ++ [9; 10; 13; 11; 12].
Definition re_escape (s : ustr) : ustr :=
  flat_map (fun c => if existsb (Z.eqb c) re_special then [92; c] else [c]) s.

Definition search_by_name (needle : string) (limit : Z) : io (list doc) :=
  if negb (truthy_str needle) then Ret []
  else
    let pattern := BDoc ["$regex" ~> BStr (s_of (94 :: re_escape (u needle))); "$options" ~> BStr "i"] in
    db_call (Find "member_cache"
      ["$or" ~> BArr [BDoc ["first_name" ~> pattern]; BDoc ["username" ~> pattern]]] [] 0 (Some limit)).

(** A numeric id: the cached name when it is a real one and need not be
    verified, else what Telegram says. *)
Definition id_target (bot verified : bool) (uid : Z) : io (option (Z * string)) :=
  cached_name <- try_except (get_first_name uid "") (fun _ => Ret ""%string) ;;
  if negb verified && truthy_str cached_name && negb (numeric_name cached_name) &&
     negb (String.prefix "User " cached_name)
  then Ret (Some (uid, cached_name))
  else
    chat <- (if bot then _safe_get_chat (inl uid) else Ret None) ;;
    let chat_first := chat ≫= ci_first_name in
    if verified && negb (match chat_first with Some n => truthy_str n | None => false end) then Ret None
    else name <- _best_name uid [chat_first; chat ≫= ci_username] ;; Ret (Some (uid, name)).

(** A username: the Bot API, then MTProto.  The outer [Some] ends the search. *)
Definition username_target (verified : bool) (arg : string) : io (option (option (Z * string))) :=
  chat <- _safe_get_chat (inr ("@" ++ arg)%string) ;;
  match chat with
  | Some chat =>
      if verified && negb (match ci_first_name chat with Some n => truthy_str n | None => false end)
      then Ret (Some None)
      else name <- _best_name (ci_id chat) [ci_first_name chat; ci_username chat; Some arg] ;;
           Ret (Some (Some (ci_id chat, name)))
  | None =>
      hit <- resolve_username arg ;;
      match hit with
      | Some (uid, fname, _) => name <- _best_name uid [Some fname; Some arg] ;; Ret (Some (Some (uid, name)))
      | None => Ret None
      end
  end.

Definition partial_target (arg : string) : io (option (Z * string)) :=
  matches <- search_by_name arg 5 ;;
  match matches with
  | user :: _ =>
      let uid := dget_int "user_id" user 0 in
      if truthy_Z uid then name <- name_or_best (dget "first_name" user ≫= bstr) uid ;; Ret (Some (uid, name))
      else Ret None
  | [] => Ret None
  end.

Definition _args_target (args : list string) (bot allow_partial verified : bool) : io (option (Z * string)) :=
  match args with
  | [] => Ret None
  | first :: _ =>
      let arg := s_of (lstrip (Z.eqb c_at) (u first)) in
      if numeric_name arg then
        match py_int (u arg) with
        | Some uid => id_target bot verified uid
        | None => Raise (ValueError "invalid literal for int()")
        end
      else
        r <- (if bot && truthy_str arg then username_target verified arg else Ret None) ;;
        match r with
        | Some r => Ret r
        | None => if allow_partial && truthy_str arg then partial_target arg else Ret None
        end
  end.

(** * Mentions: entity offsets count UTF-16 units *)
Definition utf16 (s : ustr) : list Z :=
  flat_map (fun c => if c <? 65536 then [c]
                     else [55296 + (c - 65536) / 1024; 56320 + (c - 65536) mod 1024]) s.

Definition high_surrogate (x : Z) : bool := (55296 <=? x) && (x <=? 56319).
Definition low_surrogate (x : Z) : bool := (56320 <=? x) && (x <=? 57343).

(** [None] is [UnicodeDecodeError]: half a pair. *)
Fixpoint utf16_decode (xs : list Z) : option ustr :=
  match xs with
  | [] => Some []
  | x :: xs' =>
      if high_surrogate x then
        match xs' with
        | y :: xs'' => if low_surrogate y
                       then (fun s => 65536 + (x - 55296) * 1024 + (y - 56320) :: s) <$> utf16_decode xs''
                       else None
        | [] => None
        end
      else if low_surrogate x then None
      else cons x <$> utf16_decode xs'
  end.

(** [raw[(offset + 1) * 2 : (offset + length) * 2].decode()] *)
Definition mention_name (text : ustr) (offset len : Z) : option ustr :=
  utf16_decode (take (Z.to_nat (len - 1)) (drop (Z.to_nat (offset + 1)) (utf16 text))).

Fixpoint text_mention (ents : list entity) : io (option (Z * string)) :=
  match ents with
  | [] => Ret None
  | ent :: ents' =>
      match ent_user ent with
      | Some usr =>
          if String.eqb (ent_type ent) "text_mention" &&
             negb ((tu_id usr =? ANONYMOUS_BOT_ID) || (tu_id usr =? TELEGRAM_USER_ID))
          then name <- name_or_best (Some (tu_first_name usr)) (tu_id usr) ;; Ret (Some (tu_id usr, name))
          else text_mention ents'
      | None => text_mention ents'
      end
  end.

Fixpoint at_mention (text : ustr) (ents : list entity) : io (option (Z * string)) :=
  match ents with
  | [] => Ret None
  | ent :: ents' =>
      if negb (String.eqb (ent_type ent) "mention") then at_mention text ents'
      else
        match mention_name text (ent_offset ent) (ent_length ent) with
        | None => at_mention text ents'
        | Some name =>
            let uname := s_of name in
            if existsb (String.eqb (s_of (lstrip (Z.eqb c_at) name))) ["GroupAnonymousBot"; "Telegram"]%string
            then at_mention text ents'
            else
              chat <- _safe_get_chat (inr ("@" ++ uname)%string) ;;
              match chat with
              | Some chat => n <- _best_name (ci_id chat) [ci_first_name chat; Some uname] ;; Ret (Some (ci_id chat, n))
              | None =>
                  hit <- resolve_username uname ;;
                  match hit with
                  | Some (uid, fname, _) => n <- _best_name uid [Some fname; Some uname] ;; Ret (Some (uid, n))
                  | None => at_mention text ents'
                  end
              end
        end
  end.

Definition _entity_target (msg : incoming) (bot : bool) : io (option (Z * string)) :=
  hit <- text_mention (entities msg) ;;
  match hit with
  | Some hit => Ret (Some hit)
  | None => if bot then at_mention (u match in_text msg with Some s => s | None => "" end) (entities msg) else Ret None
  end.

(** * The target *)
Definition extract_target (msg : option incoming) (args : list string) (bot prefer_explicit : bool)
    : io (option (Z * string)) :=
  match msg with
  | None => Ret None
  | Some msg =>
      reply_hit <- _reply_target msg ;;
      let entity_hit := _entity_target msg bot in
      match args, reply_hit with
      | _ :: _, Some reply =>
          if prefer_explicit then
            hit <- _args_target args bot true false ;;
            Ret (Some match hit with Some hit => hit | None => reply end)
          else if negb (_first_arg_is_explicit args) then Ret (Some reply)
          else
            verified <- _args_target args bot false true ;;
            Ret (Some match verified with
                      | Some v => if v.1 =? reply.1 then reply else v
                      | None => reply
                      end)
      | _ :: _, None =>
          hit <- _args_target args bot prefer_explicit false ;;
          match hit with Some hit => Ret (Some hit) | None => entity_hit end
      | [], Some reply => Ret (Some reply)
      | [], None => entity_hit
      end
  end.

Definition extract_mod_target (msg : option incoming) (args : list string) (bot : bool)
    : io (option (Z * string) * bool) :=
  let reply_uid := msg ≫= _reply_uid in
  hit <- extract_target msg args bot false ;;
  let consumed :=
    match hit with
    | None => false
    | Some (target_id, _) =>
        _first_arg_is_explicit args &&
        match reply_uid with None => true | Some r => negb (target_id =? r) end
    end in
  Ret (hit, consumed).

(** Only ever a proof: whatever fails, the answer is no. *)
Definition is_proven_bot (msg : option incoming) (chat : option (string * Z)) (target_id : Z) (bot : bool) : io bool :=
  let ask_mtproto := hit <- is_bot_user target_id ;; Ret match hit with Some b => b | None => false end in
  let ask_chat :=
    match chat with
    | Some (type, chat_id) =>
        if bot && negb (String.eqb type "private") then
          member <- try_except (m <- call (GetChatMember chat_id target_id) ;; Ret (Some m)) (fun _ => Ret None) ;;
          match (member : option doc) ≫= (fun m => dget "user" m) with
          | Some (BDoc usr) => Ret (py_truthy (dget "is_bot" usr))
          | _ => ask_mtproto
          end
        else ask_mtproto
    | None => ask_mtproto
    end in
  match (m ← msg; q ← reply_to_message m; from_user q) with
  | Some sender => if tu_id sender =? target_id then Ret (tu_is_bot sender) else ask_chat
  | None => ask_chat
  end.
End extract.

(** * The reason text *)
Definition MAX_REASON_LEN : Z := 1000.

Section reason.
Context {CAT : Catalog}.

(** [None] is the [ValueError] of [int]. *)
Definition parse_inline_reason (args : list string) (has_explicit_target : bool) (reply_target_id : option Z)
    : option string :=
  let tokens := if has_explicit_target then List.tl args else args in
  let text ts := Some (s_of (strip_ws (join (u " ") (map u ts)))) in
  match reply_target_id, tokens with
  | Some r, first :: rest =>
      if negb has_explicit_target && numeric_name first then
        match py_int (u first) with
        | None => None
        | Some i => if i =? r then text rest else text tokens
        end
      else text tokens
  | _, _ => text tokens
  end.
End reason.

Definition is_reason_too_long (text : string) : bool := Z.of_nat (String.length text) >? MAX_REASON_LEN.

Definition reason_too_long_text (actual_len : Z) (locale : ustr) : text :=
  TKey "reason.limit.text" locale [("max"%string, TInt MAX_REASON_LEN); ("actual"%string, TInt actual_len)].

(** * UTF-16 *)

(** A Unicode scalar value. *)
Definition scalar (c : Z) : Prop := 0 <= c < 55296 \/ 57344 <= c < 1114112.

Lemma utf16_app a b : utf16 (a ++ b) = utf16 a ++ utf16 b.
Proof. apply flat_map_app. Qed.

Lemma utf16_decode_one c xs :
  scalar c -> utf16_decode (utf16 [c] ++ xs) = cons c <$> utf16_decode xs.
Proof.
  unfold scalar, utf16. intros Hc. simpl. destruct (Z.ltb_spec c 65536) as [Hlt|Hge]; simpl.
  - replace (high_surrogate c) with false
      by (symmetry; apply andb_false_iff; rewrite !Z.leb_gt; lia).
    by replace (low_surrogate c) with false
      by (symmetry; apply andb_false_iff; rewrite !Z.leb_gt; lia).
  - assert (0 <= (c - 65536) / 1024 < 1024) as Hq.
    { split; [apply Z.div_pos; lia|]. apply Z.div_lt_upper_bound; lia. }
    pose proof (Z.mod_pos_bound (c - 65536) 1024 ltac:(lia)) as Hm.
    pose proof (Z.div_mod (c - 65536) 1024 ltac:(lia)) as Hdm.
    replace (high_surrogate _) with true by (symmetry; apply andb_true_iff; rewrite !Z.leb_le; lia).
    replace (low_surrogate _) with true by (symmetry; apply andb_true_iff; rewrite !Z.leb_le; lia).
    f_equal. f_equal. lia.
Qed.

Lemma utf16_decode_encode s : Forall scalar s -> utf16_decode (utf16 s) = Some s.
Proof.
  induction 1 as [|c s Hc _ IH]; [done|]. change (c :: s) with ([c] ++ s) at 1.
  by rewrite utf16_app, utf16_decode_one, IH.
Qed.

(** A mention is read right behind any text.  Telegram counts an entity's
    offset and length in UTF-16 units; cutting the name out of the text by
    these numbers gives back exactly the name, whatever characters - emoji
    included - come before and after it. *)
Theorem mention_name_spec (before name after : ustr)
    (Hb : Forall scalar before) (Hn : Forall scalar name) (Ha : Forall scalar after) :
  mention_name (before ++ c_at :: name ++ after) (Z.of_nat (length (utf16 before)))
    (1 + Z.of_nat (length (utf16 name))) = Some name.
Proof.
  unfold mention_name. rewrite utf16_app. change (c_at :: name ++ after) with ([c_at] ++ name ++ after).
  rewrite !utf16_app. replace (utf16 [c_at]) with [c_at] by done.
  replace (Z.to_nat (Z.of_nat (length (utf16 before)) + 1)) with (length (utf16 before ++ [c_at]))
    by (rewrite length_app; simpl; lia).
  rewrite app_assoc, drop_app_length.
  replace (Z.to_nat (1 + Z.of_nat (length (utf16 name)) - 1)) with (length (utf16 name)) by lia.
  rewrite take_app_length. by apply utf16_decode_encode.
Qed.

Lemma mention_name_spec_witness :
  mention_name ([128512] ++ c_at :: u "alice" ++ u "!") 2 6 = Some (u "alice").
Proof.
  apply (mention_name_spec [128512] (u "alice") (u "!")).
  - repeat constructor; unfold scalar; lia.
  - repeat constructor; unfold scalar; lia.
  - repeat constructor; unfold scalar; lia.
Defined.

(** * Whom a moderation command acts on *)

(** A search of the member cache by name. *)
Definition obs_fuzzy (o : obs eff) : bool :=
  match o with Obs ev _ => match ev with Find _ _ _ _ _ => true | _ => false end end.

(** Telegram confirmed that the argument [arg], its leading at signs stripped,
    names the person [uid]: the chat with this very id, or the chat or the
    account that carries this very username, was answered with a first name. *)
Definition vouches {CAT : Catalog} (arg : string) (uid : Z) (o : obs eff) : Prop :=
  match o with
  | Obs ev r =>
      match ev in eff X return result X -> Prop with
      | GetChat i => fun r =>
          match r with
          | Ok c => ((i = inl uid /\ py_int (u arg) = Some uid) \/
                     (i = inr ("@" ++ arg)%string /\ ci_id c = uid)) /\
                    exists n, ci_first_name c = Some n /\ truthy_str n = true
          | Err _ => False
          end
      | MtResolveUsername un => fun r =>
          match r with
          | Ok users => un = s_of (lstrip (Z.eqb c_at) (u arg)) /\
                        exists x n, In x users /\ mt_id x = uid /\ named x = Some n
          | Err _ => False
          end
      | _ => fun _ => False
      end r
  end.

(** The first argument as the resolver reads it. *)
Definition bare_arg (args : list string) : string :=
  match args with first :: _ => s_of (lstrip (Z.eqb c_at) (u first)) | [] => "" end.

(** A resolved target was confirmed. *)
Definition vouched {CAT : Catalog} (arg : string) (t : trace eff) (r : result (option (Z * string))) : Prop :=
  forall uid n, r = Ok (Some (uid, n)) -> Exists (vouches arg uid) t.

Lemma vouched_none {CAT : Catalog} arg t : vouched arg t (Ok None).
Proof. by intros uid n [=]. Qed.

Lemma vouched_err {CAT : Catalog} arg t e : vouched arg t (Err e).
Proof. by intros uid n [=]. Qed.

(** A target found, whose name is then looked up. *)
Lemma vouched_name {CAT : Catalog} arg uid (p : io string) (t : trace eff) :
  Exists (vouches arg uid) t ->
  wp (name <- p ;; Ret (Some (uid, name))) (fun t' r => vouched arg (t ++ t') r).
Proof.
  intros Ht. apply wp_bind, wp_intro. intros t' [n|e] _; [|apply vouched_err].
  apply wp_ret. intros uid' n' [= <- <-]. apply Exists_app. by left.
Qed.

Section targets.
Context {CAT : Catalog}.

Lemma first_name_never_fuzzy uid fb : never obs_fuzzy (get_first_name uid fb).
Proof. apply first_name_never; [by intros c k [X [] r]|done]. Qed.

Lemma best_name_never uid ps : never obs_fuzzy (_best_name uid ps).
Proof. unfold _best_name. pose proof first_name_never_fuzzy. never_auto; auto. Qed.

Lemma name_or_best_never n uid : never obs_fuzzy (name_or_best n uid).
Proof. unfold name_or_best. pose proof best_name_never. never_auto; auto. Qed.

Lemma resolve_username_never un : never obs_fuzzy (resolve_username un).
Proof. unfold resolve_username. never_auto. Qed.

Lemma safe_get_chat_never i : never obs_fuzzy (_safe_get_chat i).
Proof. unfold _safe_get_chat. never_auto. Qed.

Lemma args_target_never args bot v : never obs_fuzzy (_args_target args bot false v).
Proof.
  unfold _args_target, id_target, username_target. cbn [andb]. pose proof best_name_never. pose proof resolve_username_never.
  pose proof safe_get_chat_never. pose proof first_name_never_fuzzy. never_auto; auto.
Qed.

Lemma text_mention_never ents : never obs_fuzzy (text_mention ents).
Proof.
  pose proof name_or_best_never. induction ents as [|ent ents IH]; cbn [text_mention]; never_auto; auto.
Qed.

Lemma at_mention_never txt ents : never obs_fuzzy (at_mention txt ents).
Proof.
  pose proof best_name_never. pose proof resolve_username_never. pose proof safe_get_chat_never.
  induction ents as [|ent ents IH]; cbn [at_mention]; cbv zeta; never_auto; auto.
Qed.

Lemma extract_target_never msg args bot : never obs_fuzzy (extract_target msg args bot false).
Proof.
  unfold extract_target, _reply_target, _entity_target.
  pose proof best_name_never. pose proof name_or_best_never. pose proof args_target_never.
  pose proof text_mention_never. pose proof at_mention_never. cbv zeta. never_auto; auto.
Qed.

(** ** Verified arguments *)
Lemma safe_get_chat_spec i :
  wp (_safe_get_chat i) (fun t r => forall c, r = Ok (Some c) -> In (Obs (GetChat i) (Ok c)) t).
Proof.
  unfold _safe_get_chat. apply wp_try, wp_bind, wp_call. intros [c|e] _; cbn beta iota.
  - apply wp_ret. intros c' [= <-]. by left.
  - destruct (is_Exception e); [|done]. by apply wp_ret.
Qed.

Lemma vouches_chat arg uid i c n t :
  In (Obs (GetChat i) (Ok c)) t ->
  (i = inl uid /\ py_int (u arg) = Some uid) \/ (i = inr ("@" ++ arg)%string /\ ci_id c = uid) ->
  ci_first_name c = Some n -> truthy_str n = true -> Exists (vouches arg uid) t.
Proof. intros Hin Hi Hn Ht. apply Exists_exists. eexists. split; [by apply list_elem_of_In, Hin|]. simpl. eauto. Qed.

Lemma id_target_vouched arg bot uid : py_int (u arg) = Some uid -> wp (id_target bot true uid) (vouched arg).
Proof.
  intros Harg.
  unfold id_target. cbn [negb andb]. apply wp_bind, wp_intro. intros t0 [cached|e] _; [|apply vouched_err].
  apply wp_bind. eapply (wp_mono _ (fun t r => forall c, r = Ok (Some c) -> In (Obs (GetChat (inl uid)) (Ok c)) t)).
  { destruct bot; [apply safe_get_chat_spec|by apply wp_ret]. }
  intros t1 [[c|]|e] Hc; [|by apply wp_ret, vouched_none|apply vouched_err]. cbv zeta. cbn [mbind option_bind].
  destruct (ci_first_name c) as [n|] eqn:Hn; [|apply wp_ret, vouched_none].
  destruct (truthy_str n) eqn:Ht; [|apply wp_ret, vouched_none]. cbn [negb].
  eapply wp_mono; [apply (vouched_name arg uid _ t1); by eapply vouches_chat; [apply Hc| |exact Hn|exact Ht]; auto|].
  intros t r Hv u' n' Hr. apply Exists_app. right. by eapply Hv.
Qed.

Lemma resolve_username_vouched un :
  wp (resolve_username un)
     (fun t r => forall uid n x, r = Ok (Some (uid, n, x)) -> Exists (vouches un uid) t).
Proof.
  unfold resolve_username. wp_step. wp_step. destruct (negb x); [by apply wp_ret|].
  apply wp_bind, wp_try, wp_call. intros [users|e] _; cbn beta iota.
  - apply wp_ret. intros uid n y [= Hh]. rewrite app_nil_r. constructor 2. constructor 1. simpl.
    split; [done|]. induction users as [|m users IH]; [done|]. cbn [omap list_omap] in Hh.
    destruct (named m) as [fn|] eqn:Hm; cbn [mbind option_bind] in Hh.
    + injection Hh as <- <- <-. exists m, fn. split; [by left|done].
    + destruct (IH Hh) as (x' & n' & Hin & ?). exists x', n'. split; [by right|done].
  - destruct (is_Exception e); [|done]. by apply wp_ret, wp_ret.
Qed.

Lemma username_target_vouched arg :
  wp (username_target true arg) (fun t r => forall r', r = Ok (Some r') -> vouched arg t (Ok r')).
Proof.
  unfold username_target. apply wp_bind. eapply wp_mono; [apply safe_get_chat_spec|].
  assert (forall uid (p : io string) t, Exists (vouches arg uid) t ->
    wp (name <- p ;; Ret (Some (Some (uid, name))))
       (fun t' r => forall r', r = Ok (Some r') -> vouched arg (t ++ t') (Ok r'))) as Hname.
  { intros uid p t Ht. apply wp_bind, wp_intro. intros t' [n|e] _; [|done].
    apply wp_ret. intros r' [= <-] uid' n' [= <- <-]. apply Exists_app. by left. }
  intros t [[c|]|e] Hc; [| |done].
  - cbn [negb andb]. destruct (ci_first_name c) as [n|] eqn:Hn; cbn [negb].
    2: { apply wp_ret. intros r' [= <-]. apply vouched_none. }
    destruct (truthy_str n) eqn:Ht; cbn [negb].
    2: { apply wp_ret. intros r' [= <-]. apply vouched_none. }
    apply Hname. by eapply vouches_chat; [apply Hc| |exact Hn|exact Ht]; auto.
  - apply wp_bind. eapply wp_mono; [apply resolve_username_vouched|]. intros t1 [[[[uid fn] x]|]|e] Hu; [| |done].
    + eapply wp_mono; [apply (Hname uid _ (t ++ t1))|].
      * apply Exists_app. right. by eapply Hu.
      * intros t2 r. cbn beta. by rewrite <- app_assoc.
    + by apply wp_ret.
Qed.

Lemma args_target_vouched args bot : wp (_args_target args bot false true) (vouched (bare_arg args)).
Proof.
  unfold _args_target, bare_arg. destruct args as [|first rest]; [apply wp_ret, vouched_none|]. cbv zeta.
  set (arg := s_of (lstrip (Z.eqb c_at) (u first))). destruct (numeric_name arg).
  { destruct (py_int (u arg)) eqn:Harg; [by apply id_target_vouched|apply wp_raise, vouched_err]. }
  apply wp_bind. eapply (wp_mono _ (fun t r => forall r', r = Ok (Some r') -> vouched arg t (Ok r'))).
  { destruct (bot && truthy_str arg); [apply username_target_vouched|by apply wp_ret]. }
  intros t [[r|]|e] Hr; [|cbn [andb]; apply wp_ret, vouched_none|apply vouched_err].
  apply wp_ret. rewrite app_nil_r. by apply Hr.
Qed.
End targets.


(** The command replies to user 9 and names user 8, whom Telegram knows. *)
Definition reply_to_nine : incoming :=
  Incoming (Some "/tcban 8 spam"%string) (Some (Quoted (Some (TgUser 9 "x" false)) None)) [].


(** An argument of digits that is no number stops the command.  A first
    argument of the shape of an id which [int] does not read - two leading
    minus signs, or a digit character outside the decimal ones - makes every
    run of the argument resolver raise [ValueError] before any call, in every
    mode; nothing on the way catches it. *)
Theorem malformed_id_raises {CAT : Catalog} (first : string) (rest : list string)
    (bot allow_partial verified : bool) (t : trace eff) (r : result (option (Z * string)))
    (Hshape : numeric_name (s_of (lstrip (Z.eqb c_at) (u first))) = true)
    (Hint : py_int (u (s_of (lstrip (Z.eqb c_at) (u first)))) = None)
    (Hrun : exec (_args_target (first :: rest) bot allow_partial verified) t r) :
  t = [] /\ r = Err (ValueError "invalid literal for int()").
Proof.
  revert t r Hrun. refine (wp_elim' _ _ _). unfold _args_target. cbv zeta. rewrite Hshape, Hint. by apply wp_raise.
Qed.

Lemma malformed_id_raises_witness :
  (replay no_script (@extract_target demo_catalog (Some (Incoming None None [])) ["--5"]%string true false)).2 =
    Err (ValueError "invalid literal for int()") /\
  (replay no_script (@_args_target demo_catalog ["--5"]%string true false false)).1 = [].
Proof.
  split; [vm_compute; reflexivity|].
  refine (proj1 (@malformed_id_raises demo_catalog "--5" [] true false false _ _ _ _
    (replay_exec no_script (@_args_target demo_catalog ["--5"]%string true false false)))); vm_compute; reflexivity.
Defined.

(** Only ["@alice"] exists. *)
Definition only_alice : script := fun X ev =>
  match ev in eff X return option (result X) with
  | GetChat (inr "@alice") => Some (Ok (ChatInfo 8 (Some "Alice"%string) None None))
  | GetChat _ => Some (Err (BadRequest "Chat not found"))
  | _ => None
  end.

(** A username that resolves to nobody hands the command to whoever the reason
    mentions: ["/tcban @ghost insulted @alice"] is aimed at Alice. *)
Lemma reason_mention_becomes_target :
  let msg := Incoming (Some "/tcban @ghost insulted @alice"%string) None
               [Entity "mention" 7 6 None; Entity "mention" 23 6 None] in
  let p := @extract_mod_target demo_catalog (Some msg) ["@ghost"; "insulted"; "@alice"]%string true in
  exists t, exec p t (Ok (Some (8, "Alice"%string), true)).
Proof.
  intros msg p. eexists. exact (replay_exec only_alice p).
Qed.
