(* ===== verification/Handler.v ===== *)
(** What a command or button handler is given, and the decorators around it:
    the parts of an update [Extract], [Auth] and the handlers read. *)

From S2P Require Import Prelude Prog Text World I18n Dispatch Cache Locale Roles Replies Auth Records DemoteFlow BanFlow AppealReview Prefixes Extract.

(** A command: the update the decorators see, what its message replies to and
    mentions, and the profile of its sender. *)
Record command := Command {
  c_upd : update;
  c_reply : option quoted;
  c_entities : list entity;
  c_first_name : string;
  c_username : option string;
  c_is_bot : bool
}.

(** A pressed button: the message it belongs to and the data it carries. *)
Record callback := Callback {
  cb_message : message;
  cb_data : option string
}.

(** The command's message as the target resolver sees it. *)
Definition incoming_of (c : command) (msg : message) : incoming :=
  Incoming (msg_text msg) (c_reply c) (c_entities c).

Definition c_incoming (c : command) : option incoming := incoming_of c <$> effective_message (c_upd c).

Definition c_colon : Z := ch ":".

(** [s.split(":", 1)], when there is a colon. *)
Definition split_colon (s : string) : option (string * string) :=
  match partition1 c_colon (u s) with
  | (a, true, b) => Some (s_of a, s_of b)
  | _ => None
  end.

(** [s in (..)] *)
Definition one_of (s : string) (l : list string) : bool := existsb (String.eqb s) l.

(** [s or default] of an optional string. *)
Definition str_or (o : option string) (dflt : string) : string :=
  match o with Some s => if truthy_str s then s else dflt | None => dflt end.

Definition status_of (member : doc) : string := dget_str "status" member "".

(** [with contextlib.suppress(Exception): p] *)
Definition suppress {A} (p : io A) : io unit := try_except (p ;;; Ret tt) (fun _ => Ret tt).

Section handler.
Context {CAT : Catalog}.

(** [parse_cmd_args(msg.text)] *)
Definition args_of (msg : message) : list string := map s_of (parse_cmd_args (option_map u (msg_text msg))).

(** [s.lower()] *)
Definition lower_of (s : string) : string := s_of (str_lower (u s)).

(** [int(s)], [None] when it raises [ValueError]. *)
Definition int_of (s : string) : option Z := py_int (u s).

(** [@ratelimiter @<tier> async def name]. *)
Definition limited {A} (name : string) (tier : io A -> update -> io (option A)) (body : io A) (upd : update)
    : io (option (option A)) := ratelimiter_wrapper name (tier body upd) upd.

(** An answer to the query and an edit of its message, together, whatever
    either does. *)
Definition answer_cancel (q : message) (txt : text) : io unit :=
  gather2 (call (AnswerCallback None)) (call (EditMessageText (msg_chat_id q) (message_id q) txt None)) ;;;
  Ret tt.

(** [safe_edit_cb] without a keyboard, whatever fails. *)
Definition edit_cb (q : message) (txt : text) : io unit := safe_edit_cb q txt None true.

(** [safe_edit_cb(q, t(key, await locale_for_update(update)))] *)
Definition edit_key (upd : update) (q : message) (key : string) : io unit :=
  locale <- locale_for_update upd ;; edit_cb q (TKey key locale []).
End handler.

Section handler_lemmas.
Context {CAT : Catalog}.

Lemma cb_edit_never f q txt : (forall o, obs_talk o = true -> f o = false) -> never f (edit_cb q txt).
Proof.
  intros Hf. eapply wp_mono; [apply edit_cb_talks|]. intros t r [Ht _]. eapply Forall_impl; [exact Ht|exact Hf].
Qed.

Lemma edit_key_never f upd q key :
  (forall o, obs_talk o = true -> f o = false) -> (forall o, obs_locale o = true -> f o = false) ->
  never f (edit_key upd q key).
Proof.
  intros Ht Hl. unfold edit_key. apply never_bind; [by apply locale_for_update_never|]. intros. by apply cb_edit_never.
Qed.

Lemma edit_key_passive upd q key : is_passive (edit_key upd q key).
Proof. unfold edit_key, edit_cb, safe_edit_cb, edit_with. passive_auto. Qed.

Lemma answer_cancel_passive q txt : is_passive (answer_cancel q txt).
Proof. unfold answer_cancel. passive_auto. Qed.
End handler_lemmas.
#[export] Hint Resolve edit_key_passive answer_cancel_passive : passive.

(** [l1 `sublist_of`] a run: a part of it, other calls in between. *)
Lemma interleave_sublist {A} (l1 l2 l : list A) : interleave l1 l2 l -> l1 `sublist_of` l /\ l2 `sublist_of` l.
Proof.
  induction 1 as [|x l1 l2 l _ [IH1 IH2]|x l1 l2 l _ [IH1 IH2]]; split; try constructor; auto.
Qed.

(** [during p a t]: somewhere in the run [t], [p] was run and answered [a]. *)
Definition during {A} (p : io A) (a : A) (t : trace eff) : Prop :=
  exists t', t' `sublist_of` t /\ exec p t' (Ok a).

Lemma during_exec {A} (p : io A) a t : exec p t (Ok a) -> during p a t.
Proof. intros H. exists t. split; [done|exact H]. Qed.

Lemma during_l {A} (p : io A) a t1 t2 : during p a t1 -> during p a (t1 ++ t2).
Proof. intros (t' & Hs & H). exists t'. split; [|exact H]. by apply sublist_inserts_r. Qed.

Lemma during_r {A} (p : io A) a t1 t2 : during p a t2 -> during p a (t1 ++ t2).
Proof. intros (t' & Hs & H). exists t'. split; [|exact H]. by apply sublist_inserts_l. Qed.

Lemma during_interleave {A} (p : io A) a t1 t2 t :
  interleave t1 t2 t -> during p a t1 \/ during p a t2 -> during p a t.
Proof.
  intros [H1 H2]%interleave_sublist [(t' & Hs & H)|(t' & Hs & H)]; exists t'; (split; [|exact H]); by etrans.
Qed.

(** * Lookups: no write, no right changed, nobody messaged

    What remains are reads, the caches, and answers to the user at hand. *)
Definition obs_sends (o : obs eff) : bool :=
  match o with
  | Obs ev _ => match ev with
                | SendMessage _ _ _ _ | SendMedia _ _ _ _ _ | SendMediaGroup _ _ _ | ForwardMessage _ _ _ _ => true
                | _ => false
                end
  end.

(** The conversation's data changes. *)
Definition obs_put (o : obs eff) : bool :=
  match o with Obs ev _ => match ev with UdPut _ _ | UdPop _ | UdPopPrefix _ => true | _ => false end end.

Definition restless (o : obs eff) : bool := negb (obs_passive o) || obs_sends o || obs_put o.

Lemma restless_write o : restless o = false -> obs_write o = false.
Proof. destruct o as [X [] r]; done. Qed.
Lemma restless_sends o : restless o = false -> obs_sends o = false.
Proof. destruct o as [X [] r]; done. Qed.
Lemma restless_put o : restless o = false -> obs_put o = false.
Proof. destruct o as [X [] r]; done. Qed.
Lemma restless_passive o : restless o = false -> obs_passive o = true.
Proof. destruct o as [X [] r]; done. Qed.
Lemma restless_cache c k o : cache_obs c k o = true -> restless o = false.
Proof. destruct o as [X [] r]; done. Qed.
Lemma restless_locale o : obs_locale o = true -> restless o = false.
Proof. destruct o as [X [] r]; done. Qed.
Lemma restless_talk o : obs_talk o = true -> restless o = false.
Proof. destruct o as [X [] r]; done. Qed.

Section lookups.
Context {CAT : Catalog}.
Abbreviation lookup := (never restless).
Abbreviation calm := (Forall (fun o => restless o = false)).

Lemma lookup_throw {T} (rs : list (result T)) : lookup (throw_if_cancelled rs).
Proof. apply throw_never. Qed.
Lemma lookup_locale upd : lookup (locale_for_update upd).
Proof. apply locale_for_update_never, restless_locale. Qed.
Lemma lookup_user_locale uid : lookup (locale_for_user uid).
Proof. apply locale_for_user_never, restless_locale. Qed.
Lemma lookup_reply msg txt : lookup (safe_reply msg txt).
Proof. apply reply_never, restless_talk. Qed.
Lemma lookup_reply_kb msg txt kb : lookup (safe_reply_kb msg txt kb).
Proof. apply reply_kb_never, restless_talk. Qed.
Lemma lookup_edit_cb q txt : lookup (edit_cb q txt).
Proof. apply cb_edit_never, restless_talk. Qed.
Lemma lookup_edit_key upd q key : lookup (edit_key upd q key).
Proof. apply edit_key_never; [apply restless_talk|apply restless_locale]. Qed.
Lemma lookup_role uid : lookup (get_effective_role uid).
Proof. apply get_effective_role_reads; [apply restless_cache|done]. Qed.
Lemma lookup_owner_id : lookup get_owner_id.
Proof. apply get_or_fetch_never; [apply restless_cache|]. unfold fetch_owner_id, db_call. never_auto. Qed.
Lemma lookup_first_name uid fb : lookup (get_first_name uid fb).
Proof. apply first_name_never; [apply restless_cache|done]. Qed.
Lemma lookup_mention uid : lookup (get_user_mention_data uid).
Proof.
  unfold get_user_mention_data, _fetch_mention_triple, db_call. apply never_bind; [|intros v; never_auto].
  apply get_or_fetch_never; [apply restless_cache|]. never_auto.
Qed.
Lemma lookup_classify b e tid n ob : lookup (classify b e tid n ob).
Proof.
  unfold classify. pose proof lookup_role. pose proof lookup_mention. pose proof @lookup_throw. cbv zeta.
  never_auto; auto.
Qed.
Lemma lookup_best_name uid ps : lookup (_best_name uid ps).
Proof. unfold _best_name. pose proof lookup_first_name. never_auto; auto. Qed.
Lemma lookup_name_or_best n uid : lookup (name_or_best n uid).
Proof. unfold name_or_best. pose proof lookup_best_name. never_auto; auto. Qed.
Lemma lookup_resolve_username un : lookup (resolve_username un).
Proof. unfold resolve_username. never_auto. Qed.
Lemma lookup_args args bot p v : lookup (_args_target args bot p v).
Proof.
  unfold _args_target, id_target, username_target, partial_target, search_by_name, _safe_get_chat, db_call.
  pose proof lookup_best_name. pose proof lookup_name_or_best. pose proof lookup_resolve_username.
  pose proof lookup_first_name. cbv zeta. never_auto; auto.
Qed.
Lemma lookup_entities msg bot : lookup (_entity_target msg bot).
Proof.
  pose proof lookup_best_name. pose proof lookup_name_or_best. pose proof lookup_resolve_username.
  assert (forall ents, lookup (text_mention ents)).
  { induction ents as [|ent ents IH]; cbn [text_mention]; never_auto; auto. }
  assert (forall txt ents, lookup (at_mention txt ents)).
  { intros txt. induction ents as [|ent ents IH]; cbn [at_mention]; unfold _safe_get_chat; cbv zeta; never_auto; auto. }
  unfold _entity_target. never_auto; auto.
Qed.
Lemma lookup_target msg args bot pe : lookup (extract_target msg args bot pe).
Proof.
  unfold extract_target, _reply_target. pose proof lookup_args. pose proof lookup_entities.
  pose proof lookup_name_or_best. pose proof lookup_best_name. cbv zeta. never_auto; auto.
Qed.
Lemma lookup_proven_bot msg chat tid bot : lookup (is_proven_bot msg chat tid bot).
Proof. unfold is_proven_bot, is_bot_user, _fetch_user. cbv zeta. never_auto. Qed.
Lemma lookup_effective_locale ct uid cid : lookup (effective_locale ct uid cid).
Proof. eapply locale_never; [apply effective_locale_quiet|apply restless_locale]. Qed.
Lemma lookup_resolve_and_check msg e tid mr : lookup (resolve_and_check msg e tid mr).
Proof.
  unfold resolve_and_check. pose proof lookup_role. pose proof @lookup_throw. pose proof lookup_reply.
  pose proof lookup_effective_locale. never_auto; auto.
Qed.
(** After a lookup that answered, the calls so far are still calm. *)
Lemma calm_bind {A B} (p : io A) (k : A -> io B) tp (Q : trace eff -> result B -> Prop) :
  lookup p -> calm tp ->
  (forall t a, calm (tp ++ t) -> exec p t (Ok a) -> wp (k a) (fun t' => Q ((tp ++ t) ++ t'))) ->
  (forall t e, calm (tp ++ t) -> exec p t (Err e) -> Q (tp ++ t) (Err e)) ->
  wp (bind p k) (fun t => Q (tp ++ t)).
Proof. apply never_bind_after. Qed.

Lemma lookup_rest {A} (p : io A) tp (Q : trace eff -> result A -> Prop) :
  lookup p -> calm tp -> (forall t r, calm t -> Q t r) -> wp p (fun t => Q (tp ++ t)).
Proof. apply never_rest_after. Qed.

End lookups.
#[export] Hint Resolve lookup_throw lookup_locale lookup_user_locale lookup_reply lookup_reply_kb lookup_edit_cb
  lookup_edit_key lookup_role lookup_owner_id lookup_first_name lookup_mention lookup_classify lookup_target
  lookup_proven_bot lookup_effective_locale lookup_resolve_and_check : never.

(** Nothing of class [f], or only once what comes first has answered. *)
Lemma calm_absent {A} (f : obs eff -> bool) (p : io A) (Q : trace eff -> Prop) :
  never f p -> wp p (fun t _ => existsb f t = true -> Q t).
Proof.
  intros Hp. eapply wp_mono; [exact Hp|]. intros t r Ht Hf. by rewrite (proj2 (existsb_false_Forall _ _) Ht) in Hf.
Qed.

Lemma calm_before {A B} (f : obs eff -> bool) (p : io A) (k : A -> io B) (Q : trace eff -> Prop) :
  never f p -> (forall t a, exec p t (Ok a) -> wp (k a) (fun t' _ => existsb f t' = true -> Q (t ++ t'))) ->
  wp (bind p k) (fun t _ => existsb f t = true -> Q t).
Proof.
  intros Hp Hk. eapply wp_never_bind; [exact Hp| |].
  - intros t a Ht Hr. eapply wp_mono; [by apply Hk|]. intros t' r H Hf. apply H.
    by rewrite existsb_app, (proj2 (existsb_false_Forall _ _) Ht) in Hf.
  - intros t e Ht _ Hf. by rewrite (proj2 (existsb_false_Forall _ _) Ht) in Hf.
Qed.
