(* ===== verification/UserData.v ===== *)
(** The dict [ctx.user_data]: one per user, shared by every handler of that
    user that runs.  The operations the conversations use, what a dict holding
    given values answers ([remembers]) and holds afterwards ([after]), and runs
    against such a dict. *)

From S2P Require Import Prelude Prog Text World Auth AppealReview Handler.

(** * Operations *)
Definition put (key : string) (v : ud_value) : io unit := call (UdPut key v).
Definition pops (keys : list string) : io unit := for_each keys (fun k => call (UdPop k)).

(** The stored value of a key: an id, a text. *)
Definition ud_int (v : option ud_value) : Z := match v with Some (UdBson (BInt z)) => z | _ => 0 end.
Definition ud_str (v : option ud_value) : string := match v with Some (UdBson (BStr s)) => s | _ => "" end.

(** [if ctx.user_data.get(key)] *)
Definition ud_truthy (v : option ud_value) : bool :=
  match v with
  | None => false
  | Some (UdBson v) => py_truthy (Some v)
  | Some (UdText _) => true
  | Some (UdMsgs ms) => match ms with [] => false | _ => true end
  end.
Definition ud_msgs (v : option ud_value) : list proof_message := match v with Some (UdMsgs ms) => ms | _ => [] end.
Definition ud_text (v : option ud_value) : option text := match v with Some (UdText t) => Some t | _ => None end.

(** [ctx.user_data.pop(key, default)] *)
Definition pop (key : string) : io (option ud_value) := v <- call (UdGet key) ;; call (UdPop key) ;;; Ret v.

(** * Classes of calls *)
(** Calls on the dict. *)
Definition obs_ud (o : obs eff) : bool :=
  match o with
  | Obs ev _ => match ev with UdGet _ | UdPut _ _ | UdPop _ | UdPopPrefix _ => true | _ => false end
  end.

(** The key is written, or removed. *)
Definition touches (key : string) (o : obs eff) : bool :=
  match o with
  | Obs ev _ => match ev with
                | UdPut k _ | UdPop k => String.eqb k key
                | UdPopPrefix p => String.prefix p key
                | _ => false
                end
  end.

Definition pops_key (o : obs eff) : bool :=
  match o with Obs ev _ => match ev with UdPop _ | UdPopPrefix _ => true | _ => false end end.

Definition reads (key : string) (v : option ud_value) (t : trace eff) : Prop := In (Obs (UdGet key) (Ok v)) t.

Lemma get_reads key t v : exec (call (UdGet key)) t (Ok v) -> reads key v t.
Proof.
  assert (wp (call (UdGet key)) (fun t r => forall v, r = Ok v -> reads key v t)) as Hw.
  { wp_step. intros v' [= ->]. by left. }
  intros H. exact (wp_elim _ _ _ _ Hw H v eq_refl).
Qed.

(** * The user's dict *)
Abbreviation memory := (gmap string ud_value).

Definition answers (m : memory) (o : obs eff) : Prop :=
  match o with
  | Obs ev r => match ev in eff X return result X -> Prop with
                | UdGet k => fun r => r = Ok (m !! k)
                | _ => fun _ => True
                end r
  end.

Definition updates (m : memory) (o : obs eff) : memory :=
  match o with
  | Obs ev _ => match ev with
                | UdPut k v => <[k := v]> m
                | UdPop k => delete k m
                | UdPopPrefix p => filter (fun kv => String.prefix p kv.1 = false) m
                | _ => m
                end
  end.

(** [t] is what a dict holding [m] answers; [after m t] is what it holds then. *)
Fixpoint remembers (m : memory) (t : trace eff) : Prop :=
  match t with [] => True | o :: t' => answers m o /\ remembers (updates m o) t' end.

Definition after (m : memory) (t : trace eff) : memory := fold_left updates t m.

Lemma remembers_app m t1 t2 : remembers m (t1 ++ t2) <-> remembers m t1 /\ remembers (after m t1) t2.
Proof.
  revert m. induction t1 as [|o t1 IH]; intros m; simpl; [tauto|]. rewrite IH. unfold after. simpl. tauto.
Qed.

Lemma after_app m t1 t2 : after m (t1 ++ t2) = after (after m t1) t2.
Proof. apply fold_left_app. Qed.

Lemma other_updates m o : obs_ud o = false -> answers m o /\ updates m o = m.
Proof. destruct o as [X [] r]; done. Qed.

Lemma others_after m t : Forall (fun o => obs_ud o = false) t -> after m t = m.
Proof.
  induction 1 as [|o t Ho _ IH]; [done|]. unfold after in *. simpl. by rewrite (proj2 (other_updates m o Ho)).
Qed.

(** Other calls in between do not matter. *)
Lemma remembers_interleave ta te t m :
  interleave ta te t -> Forall (fun o => obs_ud o = false) ta -> remembers m t -> remembers m te.
Proof.
  intros Hi. revert m. induction Hi as [|o ta te t Hi IH|o ta te t Hi IH]; intros m Hta; [done|..]; simpl; intros [Ha Hr].
  - apply Forall_cons in Hta as [Ho Hta]. rewrite (proj2 (other_updates m o Ho)) in Hr. by apply IH.
  - split; [done|]. by apply IH.
Qed.

Lemma untouched key m o : touches key o = false -> updates m o !! key = m !! key.
Proof.
  destruct o as [X [] r]; simpl; try done.
  - intros Hk. apply String.eqb_neq in Hk. by rewrite lookup_insert_ne.
  - intros Hk. apply String.eqb_neq in Hk. by rewrite lookup_delete_ne.
  - intros Hk. destruct (m !! key) as [v|] eqn:Hm.
    + by apply map_lookup_filter_Some.
    + apply map_lookup_filter_None. by left.
Qed.

Lemma untouched_after key m t : Forall (fun o => touches key o = false) t -> after m t !! key = m !! key.
Proof.
  intros H. revert m. induction H as [|o t Ho _ IH]; intros m; [done|]. unfold after in *. simpl.
  rewrite IH. by apply untouched.
Qed.

(** Where a stored value comes from: it was there, or was put. *)
Lemma after_source key v t m :
  after m t !! key = Some v -> m !! key = Some v \/ exists r, In (Obs (UdPut key v) r) t.
Proof.
  revert m. induction t as [|o t IH]; intros m; [by left|]. unfold after. simpl. fold (after (updates m o) t).
  intros [H|[r H]]%IH; [|by right; exists r; right].
  destruct o as [X [] r]; simpl in H; try (by left).
  - destruct (decide (key0 = key)) as [->|Hne].
    + rewrite lookup_insert_eq in H. injection H as ->. right. eexists. by left.
    + rewrite lookup_insert_ne in H by done. by left.
  - apply lookup_delete_Some in H as [_ H]. by left.
  - apply map_lookup_filter_Some in H as [H _]. by left.
Qed.

(** So does a value read on the way. *)
Lemma read_source key v t m :
  remembers m t -> reads key (Some v) t -> m !! key = Some v \/ exists r, In (Obs (UdPut key v) r) t.
Proof.
  intros Hm (t1 & t2 & ->)%in_split. apply remembers_app in Hm as [_ [Ha _]]. cbn in Ha. injection Ha as Ha.
  symmetry in Ha. apply after_source in Ha as [H|[r H]]; [by left|]. right. exists r. rewrite in_app_iff. auto.
Qed.

(** What was put last under a key, when nothing else was, stays. *)
Lemma put_stays key v t m :
  In (Obs (UdPut key v) (Ok tt)) t -> Forall (fun o => pops_key o = false) t ->
  (forall w r, In (Obs (UdPut key w) r) t -> w = v) -> after m t !! key = Some v.
Proof.
  intros (t1 & t2 & ->)%in_split Hpop Hput. rewrite after_app. apply Forall_app in Hpop as [_ Hpop].
  apply Forall_cons in Hpop as [_ Hpop]. unfold after at 1. simpl. fold (after (<[key:=v]> (after m t1)) t2).
  assert (forall w r, In (Obs (UdPut key w) r) t2 -> w = v) as Hput2.
  { intros w r Hw. apply (Hput w r). apply in_or_app. right. by right. }
  clear Hput. assert (forall m, m !! key = Some v -> after m t2 !! key = Some v) as Hkeep; [|apply Hkeep, lookup_insert_eq].
  clear m. induction t2 as [|o t2 IH]; intros m Hm; [done|]. apply Forall_cons in Hpop as [Ho Hpop].
  unfold after. simpl. apply IH; [done|by intros w r Hw; apply (Hput2 w r); right|].
  destruct o as [X [] r]; try exact Hm; try discriminate Ho. simpl.
  destruct (decide (key0 = key)) as [->|Hne]; [|by rewrite lookup_insert_ne].
  rewrite lookup_insert_eq. f_equal. apply (Hput2 _ r). by left.
Qed.

(** * Concrete runs, with the user's dict *)
Definition dict_answer (ov : script) (X : Type) (ev : eff X) (m : memory) : result X :=
  match ev in eff X return result X with
  | UdGet k => Ok (m !! k)
  | ev => (replay_env ov _ ev tt).1
  end.

Definition mem_env (ov : script) (X : Type) (ev : eff X) (m : memory) : result X * memory :=
  (dict_answer ov X ev m, updates m (Obs ev (dict_answer ov X ev m))).

Lemma mem_env_spec ov X (ev : eff X) m :
  admits ev (mem_env ov X ev m).1 /\ answers m (Obs ev (mem_env ov X ev m).1).
Proof.
  pose proof (replay_env_admits ov X ev tt) as Ha.
  destruct ev; (split; [first [exact Ha | done]|]); done.
Qed.

Definition with_dict {A} (ov : script) (p : io A) (m : memory) : trace eff * result A * memory := run (mem_env ov) p m.

Lemma with_dict_spec {A} ov (p : io A) m t r m' :
  with_dict ov p m = (t, r, m') -> exec p t r /\ remembers m t /\ m' = after m t.
Proof.
  intros Hrun. split; [eapply run_exec; [|exact Hrun]; intros; apply mem_env_spec|].
  revert m t r m' Hrun. unfold with_dict.
  induction p as [A a|A e|A X ev k IH|A X Y p1 IH1 p2 IH2 k IH]; intros m t r m'; cbn [run].
  - by intros [= <- _ <-].
  - by intros [= <- _ <-].
  - pose proof (proj2 (mem_env_spec ov X ev m)) as Ha. unfold mem_env at 1. unfold mem_env in Ha. cbn [fst] in Ha.
    destruct (run (mem_env ov) (k (dict_answer ov X ev m)) _) as [[t' r'] m2] eqn:Hk. intros [= <- _ <-].
    apply IH in Hk as [Hr ->]. split; [by split|done].
  - destruct (run (mem_env ov) p1 m) as [[t1 r1] m1] eqn:H1. destruct (run (mem_env ov) p2 m1) as [[t2 r2] m2] eqn:H2.
    destruct (run (mem_env ov) (k (Ok (r1, r2))) m2) as [[t3 r3] m3] eqn:H3. intros [= <- _ <-].
    apply IH1 in H1 as [H1 ->]. apply IH2 in H2 as [H2 ->]. apply IH in H3 as [H3 ->].
    rewrite !remembers_app, !after_app. done.
Qed.

(* Runs are compared before they are computed. *)
#[global] Strategy 1000 [with_dict].

Lemma dict_run {A} ov (p : io A) m x :
  x = with_dict ov p m -> exec p x.1.1 x.1.2 /\ remembers m x.1.1 /\ x.2 = after m x.1.1.
Proof. intros ->. destruct (with_dict ov p m) as [[t r] m'] eqn:H. exact (with_dict_spec ov p m t r m' H). Qed.
