(* ===== verification/AppealSubmit.v ===== *)
(** Submitting an appeal: [appeal_submit_flow] under
    [tcbot/modules/helper/workflows] (gates.py, mixin.py, submit.py) and the
    deep link of [tcbot/modules/appeals.py] that opens it. *)

From S2P Require Import Prelude Prog Text World Formatter I18n Dispatch Cache Locale Roles Replies Auth Records DemoteFlow BanFlow AppealReview JoinFlow Prefixes Extract Handler UserData.

(** The states of the conversation; [END] is [ConversationHandler.END]. *)
Inductive appeal_state : Type := WAITING_APPEAL | END.

(** * gates.py *)
Definition _MAX_APPEAL_LEN : Z := 2000.
Definition _STALE_REVIEW_HOURS : Z := 72.
Definition _REJECTION_COOLDOWN_HOURS : Z := 24.
Definition _SECONDS_PER_HOUR : Z := 3600.

(** [timedelta(hours=...)], in the clock's microseconds. *)
Definition _STALE_REVIEW_WINDOW : Z := _STALE_REVIEW_HOURS * 3600 * 1000000.
Definition _REJECTION_COOLDOWN : Z := _REJECTION_COOLDOWN_HOURS * 3600 * 1000000.

Definition _APPEAL_STATE_KEYS : list string :=
  ["appeal_ban_id"; "appeal_log_msg_id"; "appeal_instruction_msg_id"]%string.

Section texts.
Context `{UCD}.

Definition starts_with_appeal_tag (text : ustr) : bool :=
  startswith (str_lower (strip_ws text)) (u "#appeal").

(** [\w], and [\b] between two characters, either possibly missing. *)
Definition word_char (c : Z) : bool := is_alnum c || (c =? c_under).
Definition opt_word (c : option Z) : bool := match c with Some c => word_char c | None => false end.
Definition boundary (prev next : option Z) : bool := xorb (opt_word prev) (opt_word next).

(** [re.search(rf"\b{tok}\b", s)] for a literal [tok], [prev] before [s]. *)
Definition token_here (prev : option Z) (s tok : ustr) : bool :=
  boundary prev (head s) && (startswith s tok && boundary (last tok) (head (drop (length tok) s))).
Fixpoint search_token (prev : option Z) (s tok : ustr) : bool :=
  token_here prev s tok || match s with [] => false | c :: s' => search_token (Some c) s' tok end.

Definition text_references_log_message (text : ustr) (msg_id : Z) : bool :=
  search_token None text (str_int msg_id).

Definition id_char (c : Z) : bool :=
  ascii_lower_letter c || match ascii_digit c with Some _ => true | None => false end.

(** [^/start\s+appeal_([a-z0-9]{10})$]: the id.  [$] also matches before a
    final newline. *)
Definition _ID_RE (text : ustr) : option ustr :=
  if startswith text (u "/start") then
    match drop 6 text with
    | (c :: _) as rest =>
        let rest' := drop_while is_space rest in
        if is_space c && startswith rest' (u "appeal_") then
          let id := take 10 (drop 7 rest') in
          let tail := drop 17 rest' in
          if (length id =? 10)%nat && (forallb id_char id && (ueqb tail [] || ueqb tail [10])) then Some id else None
        else None
    | [] => None
    end
  else None.
End texts.

Definition _is_stale_review (review_ts : option Z) : io bool :=
  match review_ts with
  | None => Ret true
  | Some ts => now <- call UtcNow ;; Ret (ts <? now - _STALE_REVIEW_WINDOW)
  end.

(** The whole hours left, rounded up, [elapsed] microseconds after the
    rejection; [total_seconds] is truncated to whole seconds first. *)
Definition cooldown_left (elapsed : Z) : option Z :=
  let elapsed := Z.max elapsed 0 in
  if elapsed >=? _REJECTION_COOLDOWN then None
  else
    let total := (_REJECTION_COOLDOWN - elapsed) / 1000000 in
    Some ((total + _SECONDS_PER_HOUR - 1) / _SECONDS_PER_HOUR).

Definition _cooldown_remaining_h (rejected_at : option Z) : io (option Z) :=
  match rejected_at with
  | None => Ret None
  | Some ts => now <- call UtcNow ;; Ret (cooldown_left (now - ts))
  end.

(** A date of a ban: the document type makes it a date or null. *)
Definition date_of (key : string) (ban : doc) : option Z :=
  match dget key ban with Some (BDate ts) => Some ts | _ => None end.

Section submit.
Context {CAT : Catalog} (cfg : config) (prefixes : list ustr) (bot : option ustr).

(** [ctx.user_data] is there for an update that has a user. *)
Definition _clear_appeal_state (upd : update) : io unit :=
  match effective_user upd with Some _ => pops _APPEAL_STATE_KEYS | None => Ret tt end.

Definition say_key (msg : message) (key : string) (locale : ustr) : io unit :=
  safe_reply msg (TKey ("appeals.submit." ++ key) locale []).
Definition say_pending (msg : message) (locale : ustr) : io unit :=
  safe_reply msg (TKey "appeals.submit.pending_review" locale [("hours"%string, TInt _STALE_REVIEW_HOURS)]).
Definition say_cooldown (msg : message) (locale : ustr) (remaining_h : Z) : io unit :=
  safe_reply msg (TKey "appeals.submit.cooldown" locale
    [("hours"%string, TInt _REJECTION_COOLDOWN_HOURS); ("remaining"%string, TInt remaining_h)]).

(** A ban that is found and active. *)
Definition live_ban (ban : option doc) : option doc :=
  match ban with
  | Some ((_ :: _) as ban) => if py_truthy (dget "is_active" ban) then Some ban else None
  | _ => None
  end.

(** The pending-review gate: does a review stand in the way?  A stale one is
    cleared first, and stands if it cannot be. *)
Definition review_blocks (ban_id : string) (ban : doc) : io bool :=
  if py_truthy (dget "review_message_id" ban) then
    stale <- _is_stale_review (date_of "review_timestamp" ban) ;;
    if stale : bool then try_except (clear_review ban_id ;;; Ret false) (fun _ => Ret true)
    else Ret true
  else Ret false.

(** * mixin.py *)
Definition instruction_text (locale : ustr) : text :=
  let key name := TKey ("appeals.instruction." ++ name) locale in
  let log_handle := s_of (lstrip (Z.eqb c_at) (u (cfg_appeal_log_handle cfg))) in
  let nl := TStr (s_of [10]) in
  TCat [key "title"%string [("community"%string, TStr (cfg_community_name cfg))]; nl; nl;
        key "intro"%string []; nl; key "log_item"%string []; nl; key "clarify_item"%string []; nl;
        key "agree_item"%string []; nl; nl; key "example_label"%string []; nl;
        TBuild "pre" [key "example_body"%string [("logs"%string, TStr log_handle)]]; nl; nl;
        key "channel"%string [("handle"%string, TStr (cfg_appeal_log_handle cfg))]].

Definition cancel_callback : string := "cancel_appeal".
Definition appeal_cancel_kb (locale : ustr) : text :=
  TBuild "appeal_cancel_kb" [TKey "button.cancel" locale []; TStr cancel_callback].

(** The prompt is sent and remembered, or everything is forgotten. *)
Definition open_appeal (upd : update) (msg : message) (ban_id : string) (ban : doc) (locale : ustr) : io appeal_state :=
  put "appeal_ban_id" (BStr ban_id) ;;;
  put "appeal_log_msg_id" (default (BInt 0) (dget "log_message_id" ban)) ;;;
  try_except
    (instr <- call (ReplyText (message_id msg) (instruction_text locale) (Some (appeal_cancel_kb locale))) ;;
     put "appeal_instruction_msg_id" (BInt instr) ;;;
     Ret WAITING_APPEAL)
    (fun _ => _clear_appeal_state upd ;;; Ret END).

Definition private_chat (upd : update) : bool :=
  match effective_chat upd with Some (type, _) => String.eqb type "private" | None => false end.

Definition _start (upd : update) (ban_id : string) : io appeal_state :=
  match effective_message upd, effective_user upd with
  | Some msg, Some uid =>
      locale <- locale_for_update upd ;;
      if negb (private_chat upd) then say_key msg "not_private" locale ;;; Ret END
      else
        ban <- try_except (get_ban ban_id) (fun _ => Ret None) ;;
        match live_ban ban with
        | None => say_key msg "invalid_link" locale ;;; Ret END
        | Some ban =>
            if negb match dget "banned_user_id" ban with Some (BInt z) => z =? uid | _ => false end
            then say_key msg "wrong_account" locale ;;; Ret END
            else
              blocked <- review_blocks ban_id ban ;;
              if blocked : bool then say_pending msg locale ;;; Ret END
              else
                remaining_h <- _cooldown_remaining_h (date_of "rejected_at" ban) ;;
                match remaining_h with
                | Some remaining_h => say_cooldown msg locale remaining_h ;;; Ret END
                | None => open_appeal upd msg ban_id ban locale
                end
        end
  | _, _ => Ret END
  end.

Definition _on_entry (upd : update) : io appeal_state :=
  match effective_message upd ≫= msg_text with
  | Some text =>
      match _ID_RE (strip_ws (u text)) with Some ban_id => _start upd (s_of ban_id) | None => Ret END end
  | None => Ret END
  end.

(** [q] is the tapped button's message. *)
Definition _on_cancel (upd : update) (q : option message) : io appeal_state :=
  match q with
  | None => Ret END
  | Some q =>
      live_mid <- match effective_user upd with Some _ => call (UdGet "appeal_instruction_msg_id") | None => Ret None end ;;
      let answer := try_except (call (AnswerCallback None)) (fun _ => Ret tt) in
      if match live_mid with Some live_mid => negb (message_id q =? ud_int (Some live_mid)) | None => false end
      then answer ;;; Ret END
      else
        _clear_appeal_state upd ;;;
        answer ;;;
        try_except
          (locale <- locale_for_update upd ;;
           call (EditMessageText (msg_chat_id q) (message_id q) (TKey "appeals.submit.cancelled" locale []) None))
          (fun _ => Ret tt) ;;;
        Ret END
  end.

Definition _end (upd : update) : io appeal_state :=
  _clear_appeal_state upd ;;;
  match effective_message upd with
  | Some msg => locale <- locale_for_update upd ;; say_key msg "session_ended" locale ;;; Ret END
  | None => Ret END
  end.

Definition _on_unexpected (upd : update) : io appeal_state :=
  match effective_message upd with
  | Some msg => locale <- locale_for_update upd ;; say_key msg "unexpected" locale ;;; Ret WAITING_APPEAL
  | None => Ret WAITING_APPEAL
  end.

(** * submit.py *)

(** What the gates let through: the ban, and the appellant's id. *)
Record appeal := Appeal { ap_ban_id : string; ap_uid : Z; ap_msg : message }.

Definition log_id_of (v : option bson) : Z := match v with Some (BInt z) => z | _ => 0 end.

(** The forwarded copy in the appeals chat, linked to. *)
Definition forward_appeal (msg : message) : io string :=
  let (appeal_chat, appeal_thread) := cfg_appeals cfg in
  fwd <- try_except
    (id <- call (ForwardMessage (msg_chat_id msg) (message_id msg) appeal_chat appeal_thread) ;; Ret (Some id))
    (fun _ => Ret None) ;;
  Ret (if truthy_optZ fwd
       then s_of (message_link appeal_chat (default 0 fwd) appeal_thread) else ""%string).

Definition review_card (who : member) (ap : appeal) (appeal_link : string) : text :=
  TBuild "parse_logmsg.appeal_received_log"
    [TInt (ap_uid ap); TStr (mem_first_name who); TStr (ap_ban_id ap); TStr appeal_link].
Definition submitted_log (who : member) (ap : appeal) (appeal_link : string) : text :=
  TBuild "parse_logmsg.appeal_submitted_log"
    [TInt (ap_uid ap); TStr (mem_first_name who); TStr (ap_ban_id ap); TStr appeal_link].

(** [cfg.appeal_discussion_topic or None] *)
Definition discussion_topic : option Z :=
  if truthy_Z (cfg_appeal_discussion_topic cfg) then Some (cfg_appeal_discussion_topic cfg) else None.

(** The review card and the log line, sent together. *)
Definition post_appeal (who : member) (ap : appeal) (appeal_link : string) : io (result Z * result Z) :=
  let (lc, lt) := cfg_logs cfg in
  gather2
    (call (SendMessage (cfg_main_group cfg) (review_card who ap appeal_link) discussion_topic
       (Some (TBuild "appeal_review_kb" [TStr (ap_ban_id ap)]))))
    (call (SendMessage lc (submitted_log who ap appeal_link) lt None)).

(** The slot of the pending review is claimed for the card, [false] when
    another submission has it; the loser deletes its card. *)
Definition claim_review (ap : appeal) (review_msg_id : Z) : io bool :=
  claimed <- try_except (set_review_if_absent (ap_ban_id ap) review_msg_id) (fun _ => Ret false) ;;
  if negb claimed then
    try_except (call (DeleteMessage (cfg_main_group cfg) review_msg_id)) (fun _ => Ret tt) ;;;
    Ret false
  else Ret true.

(** What is shown to the appellant and kept of the profile. *)
Definition settle_appeal (upd : update) (who : member) (ap : appeal) (instr_mid : option ud_value) (locale : ustr) : io unit :=
  let upsert := upsert_user (ap_uid ap) (mem_username who) (mem_first_name who) (mem_last_name who) in
  match effective_chat upd with
  | Some (_, chat) =>
      if ud_truthy instr_mid then
        gather2 (call (EditMessageText chat (ud_int instr_mid) (TKey "appeals.submit.submitted" locale []) None)) upsert ;;;
        Ret tt
      else try_except upsert (fun _ => Ret tt)
  | None => try_except upsert (fun _ => Ret tt)
  end.

(** Without a card nobody can review: the appellant is told to try again. *)
Definition delivery_failed (upd : update) (instr_mid : option ud_value) (locale : ustr) : io unit :=
  match effective_chat upd with
  | Some (_, chat) =>
      if ud_truthy instr_mid then
        try_except (call (EditMessageText chat (ud_int instr_mid) (TKey "appeals.submit.delivery_failed" locale []) None))
          (fun _ => Ret tt)
      else Ret tt
  | None => Ret tt
  end.

(** From the forwarded copy on. *)
Definition submit_appeal (upd : update) (who : member) (ap : appeal) (locale : ustr) : io appeal_state :=
  appeal_link <- forward_appeal (ap_msg ap) ;;
  let! (rv, sent_log) := post_appeal who ap appeal_link in
  claimed <- match rv with
             | Ok review_msg_id => if truthy_Z review_msg_id then claim_review ap review_msg_id else Ret true
             | Err _ => Ret true
             end ;;
  if negb claimed then say_pending (ap_msg ap) locale ;;; _clear_appeal_state upd ;;; Ret END
  else
    match sent_log with
    | Ok log_id =>
        if truthy_Z log_id then
          try_except (set_appeal_log_msg (ap_ban_id ap) log_id None appeal_link) (fun _ => Ret tt)
        else Ret tt
    | Err _ => Ret tt
    end ;;;
    instr_mid <- call (UdGet "appeal_instruction_msg_id") ;;
    settle_appeal upd who ap instr_mid locale ;;;
    match rv with
    | Err _ => delivery_failed upd instr_mid locale ;;; Ret WAITING_APPEAL
    | Ok _ => _clear_appeal_state upd ;;; Ret END
    end.

(** The appeal's ban, as it is now, and what stands in the way. *)
Definition submit_for (upd : update) (who : member) (msg : message) (text : ustr) (uid : Z) (ban_id : string)
    (log_msg_id : option ud_value) (locale : ustr) : io appeal_state :=
  fresh_ban <- try_except (get_ban ban_id) (fun _ => Ret None) ;;
  match live_ban fresh_ban with
  | None => say_key msg "session_expired" locale ;;; _clear_appeal_state upd ;;; Ret END
  | Some fresh_ban =>
      blocked <- review_blocks ban_id fresh_ban ;;
      if blocked : bool then say_pending msg locale ;;; _clear_appeal_state upd ;;; Ret END
      else
        remaining_h <- _cooldown_remaining_h (date_of "rejected_at" fresh_ban) ;;
        match remaining_h with
        | Some remaining_h => say_cooldown msg locale remaining_h ;;; _clear_appeal_state upd ;;; Ret END
        | None =>
            let log_msg_id := if ud_truthy log_msg_id then ud_int log_msg_id
                              else dget_int "log_message_id" fresh_ban 0 in
            if truthy_Z log_msg_id && negb (text_references_log_message text log_msg_id)
            then say_key msg "invalid_log" locale ;;; Ret WAITING_APPEAL
            else submit_appeal upd who (Appeal ban_id uid msg) locale
        end
  end.

(** [who] is the profile of the update's user.  [ctx.user_data] is missing
    exactly for an update without a user. *)
Definition _on_message (upd : update) (who : member) : io appeal_state :=
  match effective_message upd with
  | None => Ret WAITING_APPEAL
  | Some msg =>
      match msg_text msg with
      | None => Ret WAITING_APPEAL
      | Some raw =>
          let text := strip_ws (u raw) in
          locale <- locale_for_update upd ;;
          if negb (starts_with_appeal_tag text) then say_key msg "unexpected" locale ;;; Ret WAITING_APPEAL
          else if Z.of_nat (length text) >? _MAX_APPEAL_LEN then
            safe_reply msg (TKey "appeals.submit.too_long" locale [("max"%string, TInt _MAX_APPEAL_LEN)]) ;;;
            Ret WAITING_APPEAL
          else
            match effective_user upd with
            | None => Ret END
            | Some uid =>
                ban_id <- call (UdGet "appeal_ban_id") ;;
                log_msg_id <- call (UdGet "appeal_log_msg_id") ;;
                if ud_truthy ban_id then submit_for upd who msg text uid (ud_str ban_id) log_msg_id locale
                else say_key msg "session_expired" locale ;;; Ret END
            end
      end
  end.

(** * build_handler: which update goes to which handler *)
Inductive appeal_input : Type :=
  | InMessage (who : member)
  | InTap (data : string) (q : message).

(** [_APPEAL_START_CMDS]: a private message that is the deep link. *)
Definition entry_filter (upd : update) : bool :=
  private_chat upd &&
  match effective_message upd ≫= msg_text with
  | Some text => match _ID_RE (u text) with Some _ => true | None => false end
  | None => false
  end.

(** [filters.TEXT]: the message has a text, not an empty one. *)
Definition has_text (upd : update) : bool := truthy_optstr (effective_message upd ≫= msg_text).

(** [ALL_PREFIXES_CMD_FILTER] *)
Definition is_command (upd : update) : bool :=
  any_command_filter prefixes bot (u <$> (effective_message upd ≫= msg_text)).

Definition build_handler (state : appeal_state) (upd : update) (i : appeal_input) : option (io appeal_state) :=
  match state, i with
  | END, InMessage _ => if entry_filter upd then Some (_on_entry upd) else None
  | END, InTap _ _ => None
  | WAITING_APPEAL, InTap data q => if String.eqb data cancel_callback then Some (_on_cancel upd (Some q)) else None
  | WAITING_APPEAL, InMessage who =>
      if private_chat upd && negb (is_command upd) then
        if has_text upd then Some (_on_message upd who) else Some (_on_unexpected upd)
      else if entry_filter upd then Some (_on_entry upd)
      else if is_command upd then Some (_end upd) else None
  end.

Definition handle (state : appeal_state) (upd : update) (i : appeal_input) : io appeal_state :=
  match build_handler state upd i with Some handler => handler | None => Ret state end.
End submit.

(** * The gates in numbers *)

(** The cooldown an appellant is told.  Within twenty-four hours of the
    rejection - a rejection in the future counts as one just made - the answer
    is the number of whole hours that covers the whole seconds left, at most
    24; past them there is none.  It is at least one but in the last second,
    whose appeal is still refused with 0 hours remaining. *)
Theorem cooldown_bounds (elapsed : Z) :
  let left_us := 24 * 3600 * 1000000 - Z.max elapsed 0 in
  match cooldown_left elapsed with
  | None => left_us <= 0
  | Some h =>
      0 < left_us /\ 0 <= h <= 24 /\ 3600 * (h - 1) < left_us / 1000000 <= 3600 * h /\
      (h = 0 <-> left_us < 1000000)
  end.
Proof.
  unfold cooldown_left, _REJECTION_COOLDOWN, _REJECTION_COOLDOWN_HOURS, _SECONDS_PER_HOUR. cbv zeta.
  set (left_us := 24 * 3600 * 1000000 - Z.max elapsed 0). destruct (Z.geb_spec (Z.max elapsed 0) (24 * 3600 * 1000000)); [lia|].
  assert (0 < left_us <= 24 * 3600 * 1000000) by lia. set (s := left_us / 1000000).
  assert (0 <= s <= 86400 /\ (s = 0 <-> left_us < 1000000)) as [Hs Hs0] by (unfold s; Z.div_mod_to_equations; lia).
  split; [lia|]. rewrite <- Hs0. clearbody s. clear - Hs.
  assert (3600 * ((s + 3600 - 1) / 3600 - 1) < s <= 3600 * ((s + 3600 - 1) / 3600)) by (Z.div_mod_to_equations; lia).
  lia.
Qed.

Section token.
Context `{UCD}.

(** A standalone token: no word character at its outer sides. *)
Definition standalone (s tok : ustr) : Prop :=
  exists pre post, s = pre ++ tok ++ post /\ opt_word (last pre) = false /\ opt_word (head post) = false.

Lemma token_here_spec prev s tok :
  tok <> [] -> Forall (fun c => word_char c = true) tok ->
  token_here prev s tok = true <->
  exists post, s = tok ++ post /\ opt_word prev = false /\ opt_word (head post) = false.
Proof.
  intros Hne Hw. unfold token_here, boundary.
  assert (forall post, opt_word (head (tok ++ post)) = true) as Hh.
  { intros post. destruct tok; [done|]. apply Forall_cons in Hw as [Hc _]. exact Hc. }
  assert (opt_word (last tok) = true) as Hl.
  { destruct (last tok) as [c|] eqn:E; [|by apply last_None in E]. apply last_Some_elem_of in E.
    exact (proj1 (Forall_forall _ _) Hw c E). }
  split.
  - intros [H1 [H2 H3]%andb_true_iff]%andb_true_iff. apply startswith_spec in H2 as [post ->].
    exists post. rewrite Hh in H1. rewrite drop_app_length, Hl in H3. split; [done|].
    by destruct (opt_word prev), (opt_word (head post)).
  - intros (post & -> & Hp & Hq). rewrite Hh, Hp, startswith_app, drop_app_length, Hl, Hq. done.
Qed.

Lemma search_token_spec s tok :
  tok <> [] -> Forall (fun c => word_char c = true) tok ->
  forall prev pre0, opt_word prev = opt_word (last pre0) ->
  search_token prev s tok = true <->
  exists pre post, s = pre ++ tok ++ post /\ opt_word (last (pre0 ++ pre)) = false /\ opt_word (head post) = false.
Proof.
  intros Hne Hw. induction s as [|c s IH]; intros prev pre0 Hp; cbn [search_token].
  - rewrite orb_false_r, (token_here_spec prev [] tok Hne Hw). split.
    + intros (post & Heq & _). symmetry in Heq. by apply app_eq_nil in Heq as [-> _].
    + intros (pre & post & Heq & _). symmetry in Heq. apply app_eq_nil in Heq as [_ Heq].
      by apply app_eq_nil in Heq as [-> _].
  - rewrite orb_true_iff, (token_here_spec prev (c :: s) tok Hne Hw), (IH (Some c) (pre0 ++ [c])).
    2: { by rewrite last_snoc. }
    split.
    + intros [(post & Heq & H1 & H2)|(pre & post & -> & H1 & H2)].
      * exists [], post. by rewrite app_nil_r, <- Hp.
      * exists (c :: pre), post. split; [done|]. by rewrite <- app_assoc in H1.
    + intros ([|c' pre] & post & Heq & H1 & H2).
      * left. exists post. by rewrite app_nil_r, <- Hp in H1.
      * right. injection Heq as <- ->. exists pre, post. split; [done|]. by rewrite <- app_assoc.
Qed.

Lemma digit_word c : 48 <= c <= 57 -> word_char c = true.
Proof.
  intros Hc. unfold word_char. rewrite is_alnum_ascii by lia. unfold ascii_alnum, ascii_digit.
  by replace ((48 <=? c) && (c <=? 57)) with true by lia.
Qed.

(** The appeal's reference to its ban.  A text references the message id
    of the ban's log entry exactly when the decimal digits of the id stand in
    it with no letter, digit or underscore on either side: [12] is not found
    in [123]. *)
Theorem reference_is_standalone (text : ustr) (msg_id : Z) (Hid : 0 <= msg_id) :
  text_references_log_message text msg_id = true <-> standalone text (str_int msg_id).
Proof.
  unfold text_references_log_message, standalone.
  assert (Forall (fun c => word_char c = true) (str_int msg_id)) as Hw.
  { eapply Forall_impl; [apply str_int_chars|]. cbn beta. intros c [Hc|[Hc _]]; [by apply digit_word|lia]. }
  exact (search_token_spec text (str_int msg_id) (str_int_nonnil msg_id) Hw None [] eq_refl).
Qed.
End token.

Lemma reference_is_standalone_witness :
  0 <= 12 /\
  (@text_references_log_message ascii_ucd (u "see #12, please") 12 = true <->
   @standalone ascii_ucd (u "see #12, please") (str_int 12)).
Proof. split; [lia|]. apply (@reference_is_standalone ascii_ucd). lia. Defined.

Example not_part_of_another : @text_references_log_message ascii_ucd (u "see 123 and x12") 12 = false.
Proof. reflexivity. Qed.

(** * What a submission presupposes *)

(** The stale review is cleared. *)
Definition obs_clear (o : obs eff) : bool :=
  match o with
  | Obs ev _ => match ev with
                | UpdateOne "bans" _ [("$set", BDoc (("review_message_id", BNull) :: _))] _ => true
                | _ => false
                end
  end.

(** What only a submission does: forward, post, or write anything else. *)
Definition obs_submit (o : obs eff) : bool :=
  obs_sends o || (negb (obs_passive o) && negb (obs_clear o)).

Lemma restless_submit o : restless o = false -> obs_submit o = false.
Proof. destruct o as [X [] r]; done. Qed.

(** No review stands in the way: there is none, or it was found 72 hours old
    and cleared. *)
Definition unreviewed (ban_id : string) (ban : doc) (t : trace eff) : Prop :=
  py_truthy (dget "review_message_id" ban) = false \/
  (forall ts, date_of "review_timestamp" ban = Some ts ->
     exists now, In (Obs UtcNow (Ok now)) t /\ ts + 72 * 3600 * 1000000 < now) /\
  during (clear_review ban_id) tt t.

(** No rejection, or one a day old. *)
Definition cooled (ban : doc) (t : trace eff) : Prop :=
  forall ts, date_of "rejected_at" ban = Some ts ->
  exists now, In (Obs UtcNow (Ok now)) t /\ ts + 24 * 3600 * 1000000 <= now.

(** The ban was read, is active, and may be appealed now. *)
Definition appealable (ban_id : string) (ban : doc) (t : trace eff) : Prop :=
  during (get_ban ban_id) (Some ban) t /\ py_truthy (dget "is_active" ban) = true /\
  unreviewed ban_id ban t /\ cooled ban t.

Lemma clock_read (t : trace eff) now : exec (call UtcNow) t (Ok now) -> In (Obs UtcNow (Ok now)) t.
Proof.
  intros (x & t' & _ & -> & H). destruct x as [x|e]; [|by destruct H]. destruct H as [-> [= ->]]. by left.
Qed.

Lemma review_blocks_free ban_id ban t :
  exec (review_blocks ban_id ban) t (Ok false) -> unreviewed ban_id ban t.
Proof.
  unfold review_blocks, unreviewed. destruct (py_truthy (dget "review_message_id" ban)); [|by left]. intros Hr. right.
  apply exec_bind_ok in Hr as (t1 & [|] & t2 & H1 & H2 & ->); [|by destruct H2 as [_ [=]]].
  split.
  - intros ts Hts. rewrite Hts in H1. cbn [_is_stale_review] in H1.
    apply exec_bind_ok in H1 as (ta & now & tb & Ha & [-> [= Hb]] & ->). exists now.
    split; [rewrite !in_app_iff; left; left; by apply clock_read|]. symmetry in Hb. apply Z.ltb_lt in Hb.
    unfold _STALE_REVIEW_WINDOW, _STALE_REVIEW_HOURS in Hb. lia.
  - apply during_r. unfold try_except in H2. apply exec_bind_ok in H2 as (ta & [b|e] & tb & Ha & Hb & ->).
    + apply during_l. apply exec_attempt in Ha as (ra & [= <-] & Ha). apply exec_bind_ok in Ha as (tc & [] & td & Hc & [-> _] & ->).
      rewrite app_nil_r. by apply during_exec.
    + exfalso. destruct (is_Exception e); by destruct Hb as [_ [=]].
Qed.

Lemma cooldown_over ban t :
  exec (_cooldown_remaining_h (date_of "rejected_at" ban)) t (Ok None) -> cooled ban t.
Proof.
  unfold cooled. intros Hr ts Hts. rewrite Hts in Hr. cbn [_cooldown_remaining_h] in Hr.
  apply exec_bind_ok in Hr as (ta & now & tb & Ha & [-> [= Hb]] & ->). exists now.
  split; [rewrite in_app_iff; left; by apply clock_read|].
  unfold cooldown_left, _REJECTION_COOLDOWN, _REJECTION_COOLDOWN_HOURS in Hb.
  destruct (Z.geb_spec (Z.max (now - ts) 0) (24 * 3600 * 1000000)); [lia|done].
Qed.

Lemma live_ban_spec o ban : live_ban o = Some ban -> o = Some ban /\ py_truthy (dget "is_active" ban) = true.
Proof.
  unfold live_ban. destruct o as [[|kv d]|]; [done| |done]. destruct (py_truthy (dget _ _)) eqn:H; [|done].
  by intros [= <-].
Qed.

Lemma found_during (ban_id : string) (o : option doc) (ban : doc) t :
  exec (try_except (get_ban ban_id) (fun _ => Ret None)) t (Ok o) -> live_ban o = Some ban ->
  during (get_ban ban_id) (Some ban) t /\ py_truthy (dget "is_active" ban) = true.
Proof.
  intros Hr [-> Hact]%live_ban_spec. split; [|done]. unfold try_except in Hr.
  apply exec_bind_ok in Hr as (ta & [b|e] & tb & Ha & Hb & ->).
  - apply exec_attempt in Ha as (ra & [= <-] & Ha). destruct Hb as [-> [= <-]]. rewrite app_nil_r. by apply during_exec.
  - exfalso. destruct (is_Exception e); by destruct Hb as [_ [=]].
Qed.

(** The gates, passed one after the other. *)
Lemma gates_appealable ban_id ban tp t1 t2 t3 :
  during (get_ban ban_id) (Some ban) t1 -> py_truthy (dget "is_active" ban) = true ->
  exec (review_blocks ban_id ban) t2 (Ok false) -> exec (_cooldown_remaining_h (date_of "rejected_at" ban)) t3 (Ok None) ->
  appealable ban_id ban (((tp ++ t1) ++ t2) ++ t3).
Proof.
  intros Hget Hact Hrev Hcool. repeat split; [by apply during_l, during_l, during_r|done| |].
  - apply review_blocks_free in Hrev as [Hn|[Hs Hc]]; [by left|right]. split; [|by apply during_l, during_r].
    intros ts Hts. destruct (Hs ts Hts) as (now & Hin & Hle). exists now. split; [|done]. rewrite !in_app_iff. auto.
  - apply cooldown_over in Hcool. intros ts Hts. destruct (Hcool ts Hts) as (now & Hin & Hle). exists now.
    split; [|done]. rewrite !in_app_iff. auto.
Qed.

Section gates.
Context {CAT : Catalog} (cfg : config).
Abbreviation quiet := (Forall (fun o => obs_submit o = false)).

Lemma lookup_submit {A} (p : io A) : never restless p -> never obs_submit p.
Proof. intros H. apply (never_weaken _ restless); [exact H|]. apply restless_submit. Qed.

Lemma clear_state_never upd : never obs_submit (_clear_appeal_state upd).
Proof. unfold _clear_appeal_state, pops. cbn [_APPEAL_STATE_KEYS for_each]. never_auto. Qed.

Lemma review_blocks_never ban_id ban : never obs_submit (review_blocks ban_id ban).
Proof. unfold review_blocks, _is_stale_review, clear_review, db_call. never_auto. Qed.

Lemma cooldown_never d : never obs_submit (_cooldown_remaining_h d).
Proof. unfold _cooldown_remaining_h. never_auto. Qed.

Lemma find_ban_never ban_id : never obs_submit (try_except (get_ban ban_id) (fun _ => Ret None)).
Proof. unfold get_ban, db_call. never_auto. Qed.

Lemma say_never msg key locale : never obs_submit (say_key msg key locale).
Proof. apply lookup_submit, lookup_reply. Qed.

(** The appeal names the log entry of its ban, when there is one. *)
Definition names_log (ban : doc) (text : ustr) (t : trace eff) : Prop :=
  exists stored, reads "appeal_log_msg_id" stored t /\
    let log_msg_id := if ud_truthy stored then ud_int stored else dget_int "log_message_id" ban 0 in
    log_msg_id = 0 \/ text_references_log_message text log_msg_id = true.

(** [t] is a run that submitted: after calls that submit nothing, the run of
    [submit_appeal], for the ban [ban_id] the dict named. *)
Definition submission (upd : update) (who : member) (ban_id : string) (t : trace eff) (r : result appeal_state) : Prop :=
  exists uid msg raw stored ban locale t1 t2,
    effective_user upd = Some uid /\ effective_message upd = Some msg /\ msg_text msg = Some raw /\
    t = t1 ++ t2 /\ quiet t1 /\
    starts_with_appeal_tag (strip_ws (u raw)) = true /\ Z.of_nat (length (strip_ws (u raw))) <= 2000 /\
    reads "appeal_ban_id" (Some stored) t1 /\ ud_str (Some stored) = ban_id /\ appealable ban_id ban t1 /\
    names_log ban (strip_ws (u raw)) t1 /\
    exec (submit_appeal cfg upd who (Appeal ban_id uid msg) locale) t2 r.

Definition submits (upd : update) (who : member) (t : trace eff) (r : result appeal_state) : Prop :=
  quiet t \/ exists ban_id, submission upd who ban_id t r.

Lemma quiet_submits upd who (p : io appeal_state) tp :
  never obs_submit p -> quiet tp -> wp p (fun t r => submits upd who (tp ++ t) r).
Proof. intros Hp Htp. eapply wp_mono; [exact Hp|]. intros t r Ht. left. by apply Forall_app. Qed.

Lemma end_with_never upd (p : io unit) : never obs_submit p -> never obs_submit (p ;;; _clear_appeal_state upd ;;; Ret END).
Proof. intros Hp. pose proof clear_state_never. never_auto; auto. Qed.

Lemma in_app_l {A} (x : A) l1 l2 : In x l1 -> In x (l1 ++ l2).
Proof. rewrite in_app_iff. auto. Qed.

Lemma submit_for_submits upd who msg raw uid stored log_msg_id locale tp :
  effective_user upd = Some uid -> effective_message upd = Some msg -> msg_text msg = Some raw ->
  starts_with_appeal_tag (strip_ws (u raw)) = true -> Z.of_nat (length (strip_ws (u raw))) <= 2000 ->
  reads "appeal_ban_id" (Some stored) tp -> reads "appeal_log_msg_id" log_msg_id tp -> quiet tp ->
  wp (submit_for cfg upd who msg (strip_ws (u raw)) uid (ud_str (Some stored)) log_msg_id locale)
    (fun t r => submits upd who (tp ++ t) r).
Proof.
  intros Hu Hm Hraw Htag Hlen Hban Hlog Htp. unfold submit_for. set (text := strip_ws (u raw)) in *.
  assert (forall p : io unit, never obs_submit p -> forall tp', quiet tp' ->
    wp (p ;;; _clear_appeal_state upd ;;; Ret END) (fun t r => submits upd who (tp' ++ t) r)) as Hend.
  { intros p Hp tp' Htp'. apply quiet_submits; [|done]. by apply end_with_never. }
  apply (never_bind_after obs_submit); [apply find_ban_never|done| |intros; by left]. intros t1 found Ht1 Hfound.
  destruct (live_ban found) as [ban|] eqn:Hlive; [|apply Hend; [apply say_never|done]].
  destruct (found_during _ _ _ _ Hfound Hlive) as [Hget Hact].
  apply (never_bind_after obs_submit); [apply review_blocks_never|done| |intros; by left]. intros t2 [|] Ht2 Hrev.
  { apply Hend; [apply lookup_submit, lookup_reply|done]. }
  apply (never_bind_after obs_submit); [apply cooldown_never|done| |intros; by left]. intros t3 [h|] Ht3 Hcool.
  { apply Hend; [apply lookup_submit, lookup_reply|done]. }
  set (log_id := if ud_truthy log_msg_id then ud_int log_msg_id else dget_int "log_message_id" ban 0).
  destruct (truthy_Z log_id && negb (text_references_log_message text log_id)) eqn:Href.
  { apply quiet_submits; [|done]. apply never_bind; [apply say_never|intros; apply never_ret]. }
  apply wp_intro. intros t4 r Hrun. right. exists (ud_str (Some stored)), uid, msg, raw, stored, ban, locale, (((tp ++ t1) ++ t2) ++ t3), t4.
  repeat (split; [done|]). split; [unfold reads in *; auto using in_app_l|]. split; [done|].
  split; [|split; [|exact Hrun]].
  - by apply gates_appealable.
  - exists log_msg_id. split; [unfold reads in *; auto using in_app_l|]. fold log_id.
    unfold truthy_Z in Href. destruct (Z.eqb_spec log_id 0); [by left|right]. by destruct (text_references_log_message _ _).
Qed.

Lemma on_message_submits upd who : wp (_on_message cfg upd who) (submits upd who).
Proof.
  unfold _on_message.
  destruct (effective_message upd) as [msg|] eqn:Hm; [|apply wp_ret; left; constructor].
  destruct (msg_text msg) as [raw|] eqn:Hraw; [|apply wp_ret; left; constructor]. cbv zeta.
  refine (never_bind_after obs_submit _ _ [] (submits upd who) _ _ _ _);
    [apply lookup_submit; auto with never|done| |intros; by left].
  intros t1 locale Ht1 _. set (text := strip_ws (u raw)).
  assert (forall p : io unit, never obs_submit p -> forall w : appeal_state, never obs_submit (p ;;; Ret w)) as Hret by (intros; never_auto; auto).
  destruct (starts_with_appeal_tag text) eqn:Htag; cbn [negb]; [|by apply quiet_submits; [apply Hret, say_never|]].
  destruct (Z.gtb_spec (Z.of_nat (length text)) _MAX_APPEAL_LEN) as [|Hlen];
    [by apply quiet_submits; [apply Hret, lookup_submit, lookup_reply|]|].
  destruct (effective_user upd) as [uid|] eqn:Hu; [|by apply quiet_submits; [apply never_ret|]].
  apply (never_bind_after obs_submit); [never_auto|done| |intros; by left]. intros t2 stored Ht2 Hst%get_reads.
  apply (never_bind_after obs_submit); [never_auto|done| |intros; by left]. intros t3 log_msg_id Ht3 Hlog%get_reads.
  destruct (ud_truthy stored) eqn:Htr; [|by apply quiet_submits; [apply Hret, say_never|]].
  destruct stored as [stored|]; [|done].
  apply submit_for_submits; try done; unfold reads in *; rewrite !in_app_iff; auto.
Qed.
End gates.

(** * Opening an appeal *)
Definition ban_key : string := "appeal_ban_id".
Definition puts_ban (o : obs eff) : bool :=
  match o with Obs ev _ => match ev with UdPut k _ => String.eqb k ban_key | _ => false end end.

Section opening.
Context {CAT : Catalog} (cfg : config) (prefixes : list ustr) (bot : option ustr).
Abbreviation quiet := (Forall (fun o => puts_ban o = false)).

Lemma lookup_puts {A} (p : io A) : never restless p -> never puts_ban p.
Proof. intros H. apply (never_weaken _ restless); [exact H|]. by intros [X [] r]. Qed.

(** The account the ban is on. *)
Definition bans (ban : doc) (uid : Z) : Prop := dget "banned_user_id" ban = Some (BInt uid).

(** [t] is a run that opened the appeal of [ban_id]: by the banned account
    itself, in its private chat, for a ban that may be appealed now. *)
Definition opened (upd : update) (ban_id : string) (t : trace eff) (r : result appeal_state) : Prop :=
  exists uid msg ban locale t1 t2,
    effective_user upd = Some uid /\ effective_message upd = Some msg /\ private_chat upd = true /\
    t = t1 ++ t2 /\ quiet t1 /\ bans ban uid /\ appealable ban_id ban t1 /\
    exec (open_appeal cfg upd msg ban_id ban locale) t2 r.

(** Otherwise the conversation is over and its ban untouched. *)
Definition opens (upd : update) (ban_id : string) (t : trace eff) (r : result appeal_state) : Prop :=
  (quiet t /\ (is_err r = true \/ r = Ok END)) \/ opened upd ban_id t r.

Lemma closed_opens upd ban_id (p : io unit) tp :
  never puts_ban p -> quiet tp -> wp (p ;;; Ret END) (fun t r => opens upd ban_id (tp ++ t) r).
Proof.
  intros Hp Htp. apply (never_bind_after puts_ban); [exact Hp|exact Htp| |].
  - intros t [] Ht _. apply wp_ret. rewrite app_nil_r. left. auto.
  - intros t e Ht _. left. auto.
Qed.

Lemma clear_state_puts upd : never puts_ban (_clear_appeal_state upd).
Proof. unfold _clear_appeal_state, pops. cbn [_APPEAL_STATE_KEYS for_each]. never_auto. Qed.

Lemma say_puts msg key locale : never puts_ban (say_key msg key locale).
Proof. apply lookup_puts, lookup_reply. Qed.

Lemma find_puts ban_id : never puts_ban (try_except (get_ban ban_id) (fun _ => Ret None)).
Proof. unfold get_ban, db_call. never_auto. Qed.
Lemma review_puts ban_id ban : never puts_ban (review_blocks ban_id ban).
Proof. unfold review_blocks, _is_stale_review, clear_review, db_call. never_auto. Qed.
Lemma cooldown_puts d : never puts_ban (_cooldown_remaining_h d).
Proof. unfold _cooldown_remaining_h. never_auto. Qed.

Lemma start_opens upd ban_id : wp (_start cfg upd ban_id) (opens upd ban_id).
Proof.
  unfold _start.
  destruct (effective_message upd) as [msg|] eqn:Hm; [|apply wp_ret; left; split; [constructor|auto]].
  destruct (effective_user upd) as [uid|] eqn:Hu; [|apply wp_ret; left; split; [constructor|auto]].
  refine (never_bind_after puts_ban _ _ [] (opens upd ban_id) _ _ _ _);
    [apply lookup_puts; auto with never|done| |intros; left; auto].
  intros t0 locale Ht0 _. destruct (private_chat upd) eqn:Hp; cbn [negb]; [|apply closed_opens; [apply say_puts|done]].
  apply (never_bind_after puts_ban); [apply find_puts|done| |intros; left; auto]. intros t1 found Ht1 Hfound.
  destruct (live_ban found) as [ban|] eqn:Hlive; [|apply closed_opens; [apply say_puts|done]].
  destruct (found_during _ _ _ _ Hfound Hlive) as [Hget Hact].
  assert (match dget "banned_user_id" ban with Some (BInt z) => z =? uid | _ => false end = true -> bans ban uid) as Hown.
  { unfold bans. destruct (dget "banned_user_id" ban) as [[]|]; try discriminate. by intros ->%Z.eqb_eq. }
  destruct (match dget "banned_user_id" ban with Some (BInt z) => z =? uid | _ => false end);
    cbn [negb]; [|apply closed_opens; [apply say_puts|done]].
  apply (never_bind_after puts_ban); [apply review_puts|done| |intros; left; auto]. intros t2 [|] Ht2 Hrev;
    [apply closed_opens; [apply lookup_puts, lookup_reply|done]|].
  apply (never_bind_after puts_ban); [apply cooldown_puts|done| |intros; left; auto]. intros t3 [h|] Ht3 Hcool;
    [apply closed_opens; [apply lookup_puts, lookup_reply|done]|].
  apply wp_intro. intros t4 r Hrun. right. exists uid, msg, ban, locale, (((([] ++ t0) ++ t1) ++ t2) ++ t3), t4.
  repeat (split; [done|]). split; [by apply Hown|]. split; [|exact Hrun]. by apply gates_appealable.
Qed.

Lemma handle_puts state upd i :
  wp (handle cfg prefixes bot state upd i) (fun t r => quiet t \/ exists ban_id, opened upd ban_id t r).
Proof.
  assert (forall p : io appeal_state, never puts_ban p -> wp p (fun t r => quiet t \/ exists ban_id, opened upd ban_id t r)) as Hq.
  { intros p Hp. eapply wp_mono; [exact Hp|]. auto. }
  pose proof clear_state_puts as Hclear. pose proof say_puts as Hsay. pose proof @lookup_puts as Hl.
  assert (wp (_on_entry cfg upd) (fun t r => quiet t \/ exists ban_id, opened upd ban_id t r)) as Hentry.
  { unfold _on_entry. destruct (_ ≫= _); [|apply Hq, never_ret]. destruct (_ID_RE _); [|apply Hq, never_ret].
    eapply wp_mono; [apply start_opens|]. intros t r [[Ht _]|Ho]; [by left|right; eauto]. }
  assert (forall who, never puts_ban (_on_message cfg upd who)) as Hmsg.
  { intros who. unfold _on_message, submit_for, submit_appeal, say_pending, say_cooldown, post_appeal, claim_review, settle_appeal, delivery_failed,
      forward_appeal, set_appeal_log_msg, set_review_if_absent, upsert_user, invalidate, redis_del_background, db_call.
    destruct (cfg_logs cfg), (cfg_appeals cfg). pose proof find_puts as Hf. pose proof review_puts as Hr.
    pose proof cooldown_puts as Hc. cbv zeta.
    repeat first [solve [apply Hf] | solve [auto 2] | solve [apply Hl; auto with never] | never_step; cbn beta iota]. }
  unfold handle, build_handler. destruct state, i as [who|data q].
  - destruct (_ && negb _); [destruct (has_text upd); apply Hq|]; [apply Hmsg| |].
    + unfold _on_unexpected. never_auto; auto; apply Hl; auto with never.
    + destruct (entry_filter upd); [exact Hentry|]. destruct (is_command _ _ upd); apply Hq; [|apply never_ret].
      unfold _end. never_auto; auto; apply Hl; auto with never.
  - destruct (String.eqb data _); apply Hq; [|apply never_ret].
    unfold _on_cancel. cbv zeta. never_auto; auto; apply Hl; auto with never.
  - destruct (entry_filter upd); [exact Hentry|apply Hq, never_ret].
  - apply Hq, never_ret.
Qed.

Lemma open_puts upd msg ban_id ban locale :
  wp (open_appeal cfg upd msg ban_id ban locale)
    (fun t _ => forall v x, In (Obs (UdPut ban_key v) x) t -> v = UdBson (BStr ban_id)).
Proof.
  pose proof (clear_state_puts upd) as Hclear.
  assert (forall o : obs eff, puts_ban o = false -> forall v x, o = Obs (UdPut ban_key v) x -> False) as Hno.
  { intros o Ho v x ->. discriminate Ho. }
  unfold open_appeal, put. wp_step. wp_step. apply wp_intro. intros t r Hrun v y [Hv|Hin]; [by injection Hv|].
  exfalso. refine (Hno _ (proj1 (List.Forall_forall _ _) (never_elim puts_ban _ _ _ _ Hrun) _ Hin) _ _ eq_refl).
  never_auto; auto.
Qed.

Lemma opened_put upd ban_id t r v x :
  opened upd ban_id t r -> In (Obs (UdPut ban_key v) x) t -> v = UdBson (BStr ban_id).
Proof.
  intros (uid & msg & ban & locale & t1 & t2 & _ & _ & _ & -> & Hq & _ & _ & Hrun) [Hin|Hin]%in_app_iff.
  - apply (proj1 (List.Forall_forall _ _) Hq) in Hin. discriminate Hin.
  - exact (wp_elim _ _ _ _ (open_puts upd msg ban_id ban locale) Hrun v x Hin).
Qed.

(** What happened to one user: the appeal conversation's updates, in any
    state and one after the other, and in between whatever else leaves the
    keys of an appeal alone.  The calls so far, and the dict they leave. *)
Inductive history (uid : Z) : memory -> trace eff -> Prop :=
  | history_starts : history uid ∅ []
  | history_appeal m T state upd i t r :
      history uid m T -> effective_user upd = Some uid -> exec (handle cfg prefixes bot state upd i) t r ->
      remembers m t -> history uid (after m t) (T ++ t)
  | history_else m m' T :
      history uid m T -> (forall k, In k _APPEAL_STATE_KEYS -> m' !! k = m !! k) -> history uid m' T.

(** The ban a value of [appeal_ban_id] names was read, and is the user's. *)
Definition own (uid : Z) (v : ud_value) (T : trace eff) : Prop :=
  exists ban, during (get_ban (ud_str (Some v))) (Some ban) T /\ bans ban uid.

Lemma own_app uid v T t : own uid v T -> own uid v (T ++ t).
Proof. intros (ban & H & Hb). exists ban. split; [by apply during_l|done]. Qed.

Lemma put_own uid state upd i T t r v x :
  effective_user upd = Some uid -> exec (handle cfg prefixes bot state upd i) t r ->
  In (Obs (UdPut ban_key v) x) t -> own uid v (T ++ t).
Proof.
  intros Hu Hrun Hin. destruct (wp_elim _ _ _ _ (handle_puts state upd i) Hrun) as [Hq|[ban_id Ho]].
  - apply (proj1 (List.Forall_forall _ _) Hq) in Hin. discriminate Hin.
  - rewrite (opened_put _ _ _ _ _ _ Ho Hin).
    destruct Ho as (uid' & msg & ban & locale & t1 & t2 & Hu' & _ & _ & -> & _ & Hb & (Hget & _) & _).
    rewrite Hu in Hu'. injection Hu' as <-. exists ban. split; [|done]. by apply during_r, during_l.
Qed.

Lemma history_own uid m T v : history uid m T -> m !! ban_key = Some v -> own uid v T.
Proof.
  intros H. revert v. induction H as [|m T state upd i t r _ IH Hu Hrun Hm|m m' T _ IH Hk]; intros v Hv.
  - by rewrite lookup_empty in Hv.
  - apply after_source in Hv as [Hv|[x Hin]]; [by apply own_app, IH|]. exact (put_own uid _ _ _ T _ _ _ _ Hu Hrun Hin).
  - apply IH. rewrite <- (Hk ban_key); [done|]. by left.
Qed.

(** Nothing but a text in the open conversation submits. *)
Lemma handle_submits state upd i :
  wp (handle cfg prefixes bot state upd i) (fun t r =>
    Forall (fun o => obs_submit o = false) t \/
    state = WAITING_APPEAL /\ private_chat upd = true /\
    exists who ban_id, i = InMessage who /\ submission cfg upd who ban_id t r).
Proof.
  assert (forall p : io appeal_state, never obs_submit p -> wp p (fun t r =>
    Forall (fun o => obs_submit o = false) t \/
    state = WAITING_APPEAL /\ private_chat upd = true /\
    exists who ban_id, i = InMessage who /\ submission cfg upd who ban_id t r)) as Hq.
  { intros p Hp. eapply wp_mono; [exact Hp|]. auto. }
  pose proof clear_state_never as Hclear. pose proof say_never as Hsay. pose proof @lookup_submit as Hl.
  assert (never obs_submit (_on_entry cfg upd)) as Hentry.
  { pose proof find_ban_never as Hf. pose proof review_blocks_never as Hr. pose proof cooldown_never as Hc.
    unfold _on_entry, _start, say_pending, say_cooldown, open_appeal, put.
    repeat first [solve [apply Hf] | solve [auto 2] | solve [apply Hl; auto with never] | never_step; cbn beta iota]. }
  unfold handle, build_handler. destruct state, i as [who|data q].
  - destruct (private_chat upd && negb _) eqn:Hp; [destruct (has_text upd)|].
    + apply andb_true_iff in Hp as [Hp _]. eapply wp_mono; [apply on_message_submits|].
      intros t r [Ht|[ban_id Hs]]; [by left|right]. split; [done|]. split; [done|]. eauto.
    + apply Hq. unfold _on_unexpected. never_auto; auto; apply Hl; auto with never.
    + apply Hq. destruct (entry_filter upd); [exact Hentry|]. destruct (is_command _ _ upd); [|apply never_ret].
      unfold _end. never_auto; auto; apply Hl; auto with never.
  - destruct (String.eqb data _); apply Hq; [|apply never_ret].
    unfold _on_cancel. cbv zeta. never_auto; auto; apply Hl; auto with never.
  - destruct (entry_filter upd); apply Hq; [exact Hentry|apply never_ret].
  - apply Hq, never_ret.
Qed.
End opening.

(** * Whose ban is appealed *)

(** C21: an appeal is submitted by the banned account, for a ban that may be
    appealed.  Over everything that happened to one user - updates of the appeal
    conversation in any state, and whatever else left the conversation's keys
    alone - and then one more update of the conversation: if it forwards, posts
    or writes anything (but the clearing of a stale review), it is a private
    text in the open conversation, tagged and no longer than 2000 characters;
    before anything of that, the ban the dict names was read again and found
    active, with no review in the way and no rejection within a day, and the
    text names its log entry.  And that ban was, when the appeal was opened,
    read and found to be on this very account. *)
Theorem appeal_of_own_ban {CAT : Catalog} (cfg : config) (prefixes : list ustr) (bot : option ustr) (uid : Z)
    (m : memory) (T t : trace eff) (state : appeal_state) (upd : update) (i : appeal_input) (r : result appeal_state)
    (Hhist : history cfg prefixes bot uid m T) (Huser : effective_user upd = Some uid)
    (Hrun : exec (handle cfg prefixes bot state upd i) t r) (Hm : remembers m t)
    (Hsub : existsb obs_submit t = true) :
  state = WAITING_APPEAL /\ private_chat upd = true /\
  exists who ban_id, i = InMessage who /\ submission cfg upd who ban_id t r /\
    exists ban, during (get_ban ban_id) (Some ban) (T ++ t) /\ bans ban uid.
Proof.
  destruct (wp_elim _ _ _ _ (handle_submits cfg prefixes bot state upd i) Hrun)
    as [Hq|(Hst & Hp & who & ban_id & Hi & Hs)]; [by rewrite (proj2 (existsb_false_Forall _ _) Hq) in Hsub|].
  split; [done|]. split; [done|]. exists who, ban_id. split; [done|]. split; [done|].
  destruct Hs as (uid' & msg & raw & stored & ban & locale & t1 & t2 & _ & _ & _ & -> & _ & _ & _ & Hread & <- & _).
  assert (reads ban_key (Some stored) (t1 ++ t2)) as Hr by (unfold reads; rewrite in_app_iff; by left).
  apply (read_source _ _ _ m Hm) in Hr as [Hv|[x Hin]].
  - exact (own_app _ _ _ _ (history_own cfg prefixes bot uid m T _ Hhist Hv)).
  - exact (put_own cfg prefixes bot uid _ _ _ T _ _ _ _ Huser Hrun Hin).
Qed.

(** * Two submissions at once *)

(** The claim of the review slot of [ban_id] succeeded; the slot is emptied. *)
Definition wins (ban_id : string) (o : obs eff) : bool :=
  match o with
  | Obs ev r =>
      match ev in eff X return result X -> bool with
      | UpdateOne "bans" [("ban_id", BStr b); ("review_message_id", BNull)] _ _ =>
          fun r => String.eqb b ban_id && match r with Ok res => modified_count res >? 0 | Err _ => false end
      | _ => fun _ => false
      end r
  end.

(** MongoDB applies an update to one document atomically, and only when its
    filter matches: the slot is claimed when it is empty.  [taken]: it is not. *)
Fixpoint atomic_claims (ban_id : string) (taken : bool) (t : trace eff) : Prop :=
  match t with
  | [] => True
  | o :: t' =>
      (wins ban_id o = true -> taken = false) /\
      atomic_claims ban_id (if wins ban_id o then true else if obs_clear o then false else taken) t'
  end.

Lemma claims_at_most ban_id taken t :
  atomic_claims ban_id taken t -> Forall (fun o => obs_clear o = false) t ->
  (tcount (wins ban_id) t <= if taken then 0 else 1)%nat.
Proof.
  revert taken. induction t as [|o t IH]; intros taken; [rewrite tcount_nil; lia|].
  intros [Hw Ha] [Ho Ht]%Forall_cons. rewrite tcount_cons. specialize (IH _ Ha Ht). rewrite Ho in IH.
  destruct (wins ban_id o); [rewrite (Hw eq_refl)|]; lia.
Qed.

Section claim.
Context {CAT : Catalog} (cfg : config).

(** The review card of an appeal was posted, as message [id]; Telegram was asked
    to delete it, whatever it answered. *)
Definition posted (who : member) (ap : appeal) (id : Z) (t : trace eff) : Prop :=
  exists link, In (Obs (SendMessage (cfg_main_group cfg) (review_card who ap link) (discussion_topic cfg)
                          (Some (TBuild "appeal_review_kb" [TStr (ap_ban_id ap)]))) (Ok id)) t.
Definition withdrawn (id : Z) (t : trace eff) : Prop :=
  exists x, In (Obs (DeleteMessage (cfg_main_group cfg) id) x) t.

Definition obs_send (o : obs eff) : bool :=
  match o with Obs ev _ => match ev with SendMessage _ _ _ _ => true | _ => false end end.

Lemma claim_review_wins ap id :
  wp (claim_review cfg ap id) (fun t r =>
    forall claimed, r = Ok claimed ->
    if claimed : bool then existsb (wins (ap_ban_id ap)) t = true else withdrawn id t).
Proof.
  unfold claim_review, set_review_if_absent, db_call, withdrawn.
  wp_auto; intros claimed [= <-]; simpl; try (eexists; eauto 5; fail).
  rewrite String.eqb_refl. by destruct (modified_count a >? 0).
Qed.

Lemma forward_never msg : never obs_send (forward_appeal cfg msg).
Proof. unfold forward_appeal. destruct (cfg_appeals cfg). never_auto. Qed.

(** What a call to [send_message] was answered. *)
Definition sent_as (o : obs eff) : option (result Z) :=
  match o with
  | Obs ev r => match ev in eff X return result X -> option (result Z) with
                | SendMessage _ _ _ _ => Some
                | _ => fun _ => None
                end r
  end.

Lemma post_appeal_sends who ap link :
  wp (post_appeal cfg who ap link) (fun t r => forall rv sent, r = Ok (rv, sent) ->
    forall id, posted who ap id t -> rv = Ok id).
Proof.
  unfold post_appeal. destruct (cfg_logs cfg) as [lc lt].
  apply (wp_gather2 _ _ (fun t r => forall id, posted who ap id t -> r = Ok id) (fun t _ => forall id, ~ posted who ap id t)).
  - apply wp_call. intros x _ id [link' [Hin|[]]]. apply (f_equal sent_as) in Hin. by injection Hin.
  - apply wp_call. intros x _ id [link' [Hin|[]]]. discriminate Hin.
  - intros t1 t2 t r1 r2 H1 H2 Hi. split; [|done]. intros rv sent [= <- <-] id [link' Hin].
    apply (interleave_In _ _ _ _ Hi) in Hin as [Hin|Hin]; [apply H1; by exists link'|]. exfalso. apply (H2 id). by exists link'.
Qed.

Lemma unsent who ap id t : Forall (fun o => obs_send o = false) t -> ~ posted who ap id t.
Proof. intros H [link Hin]. apply (proj1 (List.Forall_forall _ _) H) in Hin. discriminate Hin. Qed.

(** What follows the claim sends no message to a chat. *)
Lemma lookup_send {A} (p : io A) : never restless p -> never obs_send p.
Proof. intros H. apply (never_weaken _ restless); [exact H|]. by intros [X [] r]. Qed.

Lemma clear_state_send upd : never obs_send (_clear_appeal_state upd).
Proof. unfold _clear_appeal_state, pops. cbn [_APPEAL_STATE_KEYS for_each]. never_auto. Qed.

(** A card either holds the slot or its deletion is asked. *)
Lemma submit_settles upd who ap locale :
  wp (submit_appeal cfg upd who ap locale) (fun t r => forall s, r = Ok s -> forall id, id <> 0 -> posted who ap id t ->
    existsb (wins (ap_ban_id ap)) t = true \/ withdrawn id t).
Proof.
  unfold submit_appeal. apply (wp_never_bind obs_send); [apply forward_never| |by intros].
  intros t1 link Ht1 _. apply wp_bind. eapply wp_mono; [apply post_appeal_sends|]. intros t2 [[rv sent]|e] Hpost; [|by intros].
  specialize (Hpost rv sent eq_refl). apply wp_bind.
  assert (wp (match rv with
              | Ok review_msg_id => if truthy_Z review_msg_id then claim_review cfg ap review_msg_id else Ret true
              | Err _ => Ret true end)
    (fun t r => Forall (fun o => obs_send o = false) t /\ forall claimed id, r = Ok claimed -> rv = Ok id -> id <> 0 ->
       existsb (wins (ap_ban_id ap)) t = true \/ withdrawn id t)) as Hclaim.
  { destruct rv as [id|e]; [|apply wp_ret; split; [constructor|by intros]]. destruct (truthy_Z id) eqn:Hid.
    - apply wp_conj; [unfold claim_review, set_review_if_absent, db_call; refine (_ : never obs_send _); never_auto|].
      eapply wp_mono; [apply claim_review_wins|]. intros t r H claimed id' Hr [= <-] _. specialize (H claimed Hr). destruct claimed; auto.
    - apply wp_ret. split; [constructor|]. intros claimed id' _ [= <-] Hne. unfold truthy_Z in Hid. lia. }
  eapply wp_mono; [exact Hclaim|]. intros t3 [claimed|e] [Ht3 H3]; [|by intros].
  assert (forall t4, Forall (fun o => obs_send o = false) t4 -> forall id, id <> 0 -> posted who ap id (t1 ++ t2 ++ t3 ++ t4) ->
    existsb (wins (ap_ban_id ap)) (t1 ++ t2 ++ t3 ++ t4) = true \/ withdrawn id (t1 ++ t2 ++ t3 ++ t4)) as Hall.
  { intros t4 Ht4 id Hid [link' Hin]. rewrite !in_app_iff in Hin.
    assert (rv = Ok id) as Hrv.
    { apply Hpost. exists link'. destruct Hin as [Hin|[Hin|[Hin|Hin]]]; [|done|..]; exfalso;
        (eapply unsent; [|by exists link']); done. }
    destruct (H3 claimed id eq_refl Hrv Hid) as [Hw|[x Hd]]; [left; rewrite !existsb_app, Hw, !orb_true_r; done|].
    right. exists x. rewrite !in_app_iff. auto. }
  apply wp_intro. intros t4 r Hrun s Hs. apply Hall.
  refine (never_elim obs_send _ _ _ _ Hrun). pose proof clear_state_send as Hclear. pose proof @lookup_send as Hl.
  unfold settle_appeal, delivery_failed, say_pending, set_appeal_log_msg, upsert_user, invalidate, redis_del_background, db_call.
  cbv zeta. never_auto; auto; apply Hl; auto with never.
Qed.
End claim.

Lemma submit_keeps_slot cfg upd who ap locale :
  never obs_clear (submit_appeal cfg upd who ap locale).
Proof.
  assert (forall A (p : io A), never restless p -> never obs_clear p) as Hl.
  { intros A p H. apply (never_weaken _ restless); [exact H|]. by intros [X [] r]. }
  unfold submit_appeal, forward_appeal, post_appeal, claim_review, settle_appeal, delivery_failed, say_pending,
    _clear_appeal_state, pops, set_review_if_absent, set_appeal_log_msg, upsert_user, invalidate, redis_del_background, db_call.
  destruct (cfg_appeals cfg), (cfg_logs cfg). cbn [_APPEAL_STATE_KEYS for_each]. cbv zeta.
  never_auto; apply Hl; auto with never.
Qed.


(** * Concrete runs *)
Definition appellant : member := Member 9 None "x" None false.
Definition appeal_update (text : string) : update :=
  Update (Some 9) (Some ("private"%string, 9)) (Some (Message 5 9 "private" (Some text))) false.
Definition open_ban : doc :=
  [("is_active"%string, BBool true); ("banned_user_id"%string, BInt 9); ("log_message_id"%string, BInt 12)].

(** One ban, on account 9; [lost]: its review slot is taken meanwhile. *)
Definition appeal_script (lost : bool) : script := fun X ev =>
  match ev in eff X return option (result X) with
  | FindOne "bans" _ _ => Some (Ok (Some open_ban))
  | UpdateOne "bans" (_ :: ("review_message_id", _) :: _) _ _ => if lost then Some (Ok (UpdateResult 0 0 false)) else None
  | _ => None
  end.

Definition appeal_run (ov : script) (state : appeal_state) (text : string) (m : memory) :=
  with_dict ov (@handle demo_catalog demo_config [u "/"] None state (appeal_update text) (InMessage appellant)) m.
Definition appeal_opened := appeal_run (appeal_script false) END "/start appeal_0123abcdef" ∅.
Definition appeal_sent := appeal_run (appeal_script false) WAITING_APPEAL "#appeal t.me/logs/12 sorry" appeal_opened.2.
Definition appeal_lost := appeal_run (appeal_script true) WAITING_APPEAL "#appeal t.me/logs/12 sorry" appeal_opened.2.

Example appeal_runs :
  appeal_opened.1.2 = Ok WAITING_APPEAL /\ appeal_sent.1.2 = Ok END /\ appeal_sent.2 = ∅ /\
  existsb (wins "0123abcdef") appeal_sent.1.1 = true /\ existsb (wins "0123abcdef") appeal_lost.1.1 = false.
Proof. vm_compute. done. Qed.

Lemma appeal_opened_run :
  exec (@handle demo_catalog demo_config [u "/"] None END (appeal_update "/start appeal_0123abcdef") (InMessage appellant))
    appeal_opened.1.1 (Ok WAITING_APPEAL) /\ remembers ∅ appeal_opened.1.1 /\ appeal_opened.2 = after ∅ appeal_opened.1.1.
Proof.
  destruct (dict_run _ _ _ appeal_opened eq_refl) as (He & Hr & Hm). rewrite (proj1 appeal_runs) in He.
  exact (conj He (conj Hr Hm)).
Qed.

Lemma appeal_sent_run :
  exec (@handle demo_catalog demo_config [u "/"] None WAITING_APPEAL (appeal_update "#appeal t.me/logs/12 sorry")
          (InMessage appellant)) appeal_sent.1.1 (Ok END) /\ remembers appeal_opened.2 appeal_sent.1.1.
Proof.
  destruct (dict_run _ _ _ appeal_sent eq_refl) as (He & Hr & _). rewrite (proj1 (proj2 appeal_runs)) in He.
  exact (conj He Hr).
Qed.

Lemma appeal_of_own_ban_witness :
  existsb obs_submit appeal_sent.1.1 = true /\
  exists ban_id ban, during (get_ban ban_id) (Some ban) (appeal_opened.1.1 ++ appeal_sent.1.1) /\ bans ban 9.
Proof.
  assert (existsb obs_submit appeal_sent.1.1 = true) as Hs by (vm_compute; reflexivity). split; [exact Hs|].
  destruct appeal_opened_run as (Ho & Hr & Hm), appeal_sent_run as [Hx Hrx]. rewrite Hm in Hrx.
  revert Ho Hr Hx Hrx Hs. generalize appeal_opened.1.1 appeal_sent.1.1. intros T t Ho Hr Hx Hrx Hs.
  destruct (@appeal_of_own_ban demo_catalog demo_config [u "/"] None 9 (after ∅ T) ([] ++ T) t WAITING_APPEAL
    (appeal_update "#appeal t.me/logs/12 sorry") (InMessage appellant) (Ok END)
    (@history_appeal demo_catalog demo_config [u "/"] None 9 ∅ [] END (appeal_update "/start appeal_0123abcdef")
       (InMessage appellant) T (Ok WAITING_APPEAL) (@history_starts demo_catalog _ _ _ _) eq_refl Ho Hr) eq_refl Hx Hrx Hs)
    as (_ & _ & who & ban_id & _ & _ & ban & Hd & Hb).
  exists ban_id, ban. exact (conj Hd Hb).
Defined.

(** Two sessions of one account submit; the second finds the slot taken. *)
Definition two_appeals : appeal := Appeal "b1" 9 (Message 5 9 "private" None).
Definition submit_run (lost : bool) :=
  replay (appeal_script lost) (submit_appeal demo_config (appeal_update "") appellant two_appeals []).


(** * What the flow does not do *)

(** Cancel on an older prompt leaves the data of the open appeal, as its guard
    intends, but ends the conversation all the same: the appeal that follows is
    not handled. *)
Lemma stale_cancel_ends :
  let m := appeal_opened.2 in
  let older := Message 4 9 "private" None in
  let tap := with_dict no_script (@handle demo_catalog demo_config [u "/"] None WAITING_APPEAL
    (Update (Some 9) (Some ("private"%string, 9)) (Some older) true) (InTap "cancel_appeal" older)) m in
  tap.1.2 = Ok END /\ tap.2 = m /\
  (appeal_run (appeal_script false) END "#appeal t.me/logs/12 sorry" tap.2).1 = ([], Ok END).
Proof. vm_compute. done. Qed.

(** In the last second of the cooldown the appellant is told to wait 0 hours. *)
Lemma cooldown_says_zero : cooldown_left (24 * 3600 * 1000000 - 1) = Some 0.
Proof. reflexivity. Qed.

(** The posts of this call failed; everything the prompt was edited to. *)
Definition edits_of (t : trace eff) : list (text * markup) :=
  flat_map (fun o => match o with Obs ev _ => match ev with EditMessageText _ _ txt kb => [(txt, kb)] | _ => [] end end) t.
Definition no_card : script := fun X ev =>
  match ev in eff X return option (result X) with
  | SendMessage _ _ _ _ => Some (Err (NetworkError "down"))
  | ev => appeal_script false _ ev
  end.

(** A card that cannot be posted: the prompt says "submitted" first, then that
    the delivery failed; the conversation stays open with no Cancel button. *)
Lemma failed_delivery_strips_cancel :
  let run := appeal_run no_card WAITING_APPEAL "#appeal t.me/logs/12 sorry" appeal_opened.2 in
  run.1.2 = Ok WAITING_APPEAL /\
  edits_of run.1.1 = [(TKey "appeals.submit.submitted" DEFAULT_LOCALE [], None);
    (TKey "appeals.submit.delivery_failed" DEFAULT_LOCALE [], None)].
Proof. vm_compute. done. Qed.

Example deep_link : @_ID_RE ascii_ucd (u "/start  appeal_0123abcdef") = Some (u "0123abcdef").
Proof. reflexivity. Qed.
