(* ===== verification/Lease.v ===== *)
(** The single owner of the shared MTProto session: the lease of
    [tcbot/database/mtproto_store] (lease.py, retry.py) and the client's life
    under it, [tcbot/database/mtproto/lifecycle.py].

    Times are in microseconds, the unit of the clock. *)

From S2P Require Import Prelude Prog Text World Dispatch Cache Locale Roles Replies Auth Records.

(** * retry.py *)
Definition _MAX_WRITE_RETRIES : nat := 3.
Definition _RETRY_BASE_DELAY : Z := 500.

(** [left] attempts to go.  [None]: the write was given up, and only logged. *)
Fixpoint retry_loop {X} (op : io X) (left : nat) : io (option X) :=
  match left with
  | O => Ret None
  | S left' =>
      r <- attempt op ;;
      match r with
      | Ok x => Ret (Some x)
      | Err (WriteConcernError retryable) =>
          if negb retryable || Nat.eqb left' 0 then Ret None
          else
            call (Sleep (_RETRY_BASE_DELAY * 2 ^ Z.of_nat (_MAX_WRITE_RETRIES - left))) ;;;
            retry_loop op left'
      | Err e => Raise e
      end
  end.

Definition _retry_write {X} (op : io X) : io (option X) := retry_loop op _MAX_WRITE_RETRIES.

(** * lease.py *)
Section lease.
Context (ns : string).

Definition _lease_id : string := (ns ++ ":lock:mtproto_owner")%string.

Definition take (owner : string) (now ttl : Z) : io (option doc) :=
  db_call (FindOneAndUpdate "mtproto_state"
    ["_id" ~> BStr _lease_id;
     "$or" ~> BArr [BDoc ["owner" ~> BStr owner]; BDoc ["expires_at" ~> BDoc ["$lt" ~> BInt now]]]]
    ["$set" ~> BDoc ["owner" ~> BStr owner; "expires_at" ~> BInt (now + ttl)]] false).

Definition first_claim (owner : string) (now ttl : Z) : io string :=
  db_call (InsertOne "mtproto_state"
    ["_id" ~> BStr _lease_id; "owner" ~> BStr owner; "expires_at" ~> BInt (now + ttl)]).

Definition claim_owner (owner : string) (ttl : Z) : io bool :=
  now <- call UtcNow ;;
  taken <- attempt (_retry_write (take owner now ttl)) ;;
  match taken with
  | Ok (Some (Some _)) => Ret true
  | Ok _ =>
      first <- attempt (_retry_write (first_claim owner now ttl)) ;;
      match first with
      | Ok _ => Ret true
      | Err e => if is_Exception e then Ret false else Raise e
      end
  | Err e => if is_Exception e then Ret false else Raise e
  end.

Definition refresh_owner (owner : string) (ttl : Z) : io bool :=
  now <- call UtcNow ;;
  res <- db_call (UpdateOne "mtproto_state" ["_id" ~> BStr _lease_id; "owner" ~> BStr owner]
    ["$set" ~> BDoc ["expires_at" ~> BInt (now + ttl)]] false) ;;
  Ret (matched_count res >? 0).

Definition release_owner (owner : string) : io unit :=
  try_except (db_call (DeleteOne "mtproto_state" ["_id" ~> BStr _lease_id; "owner" ~> BStr owner]) ;;; Ret tt)
    (fun _ => Ret tt).
End lease.

(** * lifecycle.py

    The package's variables [_client], [_lease_owner] and [_auth_dead]; a
    client is a handle, [BNull] is [None]. *)
Definition _START_TIMEOUT_S : Z := 60.
Definition _LEASE_TTL_S : Z := 90 * 1000000.
Definition _HEARTBEAT_S : Z := 30 * 1000.

Section lifecycle.
Context (cfg : config).

Definition var_bool (v : bson) : bool := match v with BBool b => b | _ => false end.

(** [is]: every client object is its own. *)
Definition same_client (a b : bson) : bool :=
  match a, b with BId a, BId b => String.eqb a b | _, _ => false end.

Definition client : io bson :=
  c <- call (VarGet "_client") ;;
  match c with
  | BNull =>
      if negb (cfg_mtproto_enabled cfg) then Raise (RuntimeError "API_ID/API_HASH are required")
      else c <- call MtNew ;; call (VarPut "_client" c) ;;; Ret c
  | c => Ret c
  end.

Definition is_auth_key_duplicated (e : exn) : bool :=
  match e with OtherException name => String.eqb name "AuthKeyDuplicated" | _ => false end.

Definition _release_lease_quietly (owner : string) : io unit :=
  try_except (release_owner (cfg_mtproto_session cfg) owner) (fun _ => Ret tt).

(** The lease is given back and forgotten. *)
Definition give_back (owner : string) : io unit :=
  _release_lease_quietly owner ;;; call (VarPut "_lease_owner" BNull).

(** [owner] is [_instance_id()]. *)
Definition start (owner : string) : io bool :=
  dead <- call (VarGet "_auth_dead") ;;
  if var_bool dead then Raise (RuntimeError "MTProto session was invalidated")
  else
    c <- client ;;
    connected <- call (MtConnected c) ;;
    if connected : bool then Ret true
    else
      claimed <- try_except (claim_owner (cfg_mtproto_session cfg) owner _LEASE_TTL_S) (fun _ => Ret false) ;;
      if negb claimed then Ret false
      else
        call (VarPut "_lease_owner" (BStr owner)) ;;;
        started <- attempt (call (MtStart c)) ;;
        match started with
        | Ok _ => Ret true
        | Err TimeoutError => give_back owner ;;; Raise (RuntimeError "MTProto bot session timed out")
        | Err CancelledError => give_back owner ;;; Raise CancelledError
        | Err e =>
            if is_auth_key_duplicated e then call (VarPut "_auth_dead" (BBool true)) ;;; give_back owner ;;; Ret false
            else give_back owner ;;; Raise (RuntimeError "MTProto bot session failed")
        end.

(** One beat; [true]: another one follows. *)
Definition beat (c : bson) (owner : string) : io bool :=
  call (Sleep _HEARTBEAT_S) ;;;
  held <- attempt (refresh_owner (cfg_mtproto_session cfg) owner _LEASE_TTL_S) ;;
  match held with
  | Err e => if is_Exception e then Ret true else Raise e
  | Ok true => Ret true
  | Ok false =>
      try_except (call (MtStop c)) (fun _ => Ret tt) ;;;
      current <- call (VarGet "_client") ;;
      (if same_client current c then call (VarPut "_client" BNull) else Ret tt) ;;;
      Ret false
  end.

(** The heartbeat, for [beats] beats: it runs until it is cancelled. *)
Fixpoint _heartbeat_lease (c : bson) (owner : string) (beats : nat) : io unit :=
  match beats with
  | O => Ret tt
  | S beats => more <- beat c owner ;; if more : bool then _heartbeat_lease c owner beats else Ret tt
  end.

(** The heartbeat task is cancelled first. *)
Definition stop : io unit :=
  owner <- call (VarGet "_lease_owner") ;;
  call (VarPut "_lease_owner" BNull) ;;;
  match owner with BStr owner => _release_lease_quietly owner | _ => Ret tt end ;;;
  c <- call (VarGet "_client") ;;
  call (VarPut "_client" BNull) ;;;
  match c with
  | BNull => Ret tt
  | c => try_except (call (MtStop c)) (fun _ => Ret tt)
  end.

Definition handle_auth_failure : io unit :=
  dead <- call (VarGet "_auth_dead") ;;
  if var_bool dead then Ret tt
  else call (VarPut "_auth_dead" (BBool true)) ;;; try_except stop (fun _ => Ret tt).
End lifecycle.

(** * The lease row under the fleet's commands *)

(** A command on the lease: what it asks for, and whether it was granted
    ([None]: it failed, and may have been applied or not). *)
Inductive lease_command : Type :=
  | Take (owner : string) (now expires : Z) (granted : option bool)
  | First (owner : string) (expires : Z) (granted : option bool)
  | Renew (owner : string) (expires : Z) (granted : option bool)
  | Drop (owner : string).

Definition commander (c : lease_command) : string :=
  match c with Take o _ _ _ | First o _ _ | Renew o _ _ | Drop o => o end.

Definition answered {A} (f : A -> bool) (r : result A) : option bool :=
  match r with Ok a => Some (f a) | Err _ => None end.

(** A refused insertion is one with a duplicate key. *)
Definition inserted {A} (r : result A) : option bool :=
  match r with Ok _ => Some true | Err (DuplicateKeyError _ _) => Some false | Err _ => None end.

(** The commands of the four shapes: a takeover of the own or an expired lease,
    a first row, a renewal and a removal of the own one. *)
Definition lease_command_of (lid : string) (o : obs eff) : option lease_command :=
  match o with
  | Obs ev r =>
      match ev in eff X return result X -> option lease_command with
      | FindOneAndUpdate "mtproto_state"
          [("_id", BStr id); ("$or", BArr [BDoc [("owner", BStr owner)]; BDoc [("expires_at", BDoc [("$lt", BInt now)])]])]
          [("$set", BDoc [("owner", BStr taker); ("expires_at", BInt expires)])] false =>
          fun r => if String.eqb id lid && String.eqb taker owner
                   then Some (Take owner now expires (answered (fun d : option doc => match d with Some _ => true | None => false end) r))
                   else None
      | InsertOne "mtproto_state" [("_id", BStr id); ("owner", BStr owner); ("expires_at", BInt expires)] =>
          fun r => if String.eqb id lid then Some (First owner expires (inserted r)) else None
      | UpdateOne "mtproto_state" [("_id", BStr id); ("owner", BStr owner)] [("$set", BDoc [("expires_at", BInt expires)])] false =>
          fun r => if String.eqb id lid
                   then Some (Renew owner expires (answered (fun res : update_result => matched_count res >? 0) r)) else None
      | DeleteOne "mtproto_state" [("_id", BStr id); ("owner", BStr owner)] =>
          fun _ => if String.eqb id lid then Some (Drop owner) else None
      | _ => fun _ => None
      end r
  end.

(** A filter that may match the document of [lid]: no other [_id] is asked
    for. *)
Definition may_match (lid : string) (filter : doc) : bool :=
  match dget "_id" filter with Some (BStr id) => String.eqb id lid | _ => true end.

(** Any command that may change the document of [lid], whatever its filter and
    what it writes. *)
Definition touches (lid : string) (o : obs eff) : bool :=
  match o with
  | Obs ev _ =>
      match ev with
      | UpdateOne "mtproto_state" f _ _ | UpdateMany "mtproto_state" f _ | ReplaceOne "mtproto_state" f _ _
      | DeleteOne "mtproto_state" f | DeleteMany "mtproto_state" f | FindOneAndUpdate "mtproto_state" f _ _
      | FindOneAndReplace "mtproto_state" f _ _ _ | FindOneAndDelete "mtproto_state" f
      | InsertOne "mtproto_state" f => may_match lid f
      | _ => false
      end
  end.

(** One that has none of the four shapes. *)
Definition unruly (lid : string) (o : obs eff) : bool :=
  touches lid o && match lease_command_of lid o with Some _ => false | None => true end.

(** The row: who holds the lease, until when. *)
Abbreviation row := (option (string * Z)).

(** The filter of the command matches the row. *)
Definition admissible (c : lease_command) (w : row) : Prop :=
  match c, w with
  | Take owner now _ _, Some (holder, expires) => holder = owner \/ expires < now
  | First _ _ _, None => True
  | Renew owner _ _, Some (holder, _) => holder = owner
  | Drop owner, Some (holder, _) => holder = owner
  | _, _ => False
  end.

Definition applied (c : lease_command) : row :=
  match c with
  | Take owner _ expires _ | First owner expires _ | Renew owner expires _ => Some (owner, expires)
  | Drop _ => None
  end.

Definition verdict (c : lease_command) : option bool :=
  match c with Take _ _ _ g | First _ _ g | Renew _ _ g => g | Drop _ => None end.

(** MongoDB runs a command on one document atomically: it is granted when its
    filter matches, and then applied; one that failed may have been applied. *)
Inductive row_step (c : lease_command) (w : row) : row -> Prop :=
  | row_granted : verdict c = Some true -> admissible c w -> row_step c w (applied c)
  | row_refused : verdict c = Some false -> ~ admissible c w -> row_step c w w
  | row_unknown_applied : verdict c = None -> admissible c w -> row_step c w (applied c)
  | row_unknown_dropped : verdict c = None -> row_step c w w.

(** What an instance may rely on: the expiry it was last granted, until a
    command of its own is refused, fails or gives the lease back. *)
Abbreviation beliefs := (gmap string Z).
Definition believe (c : lease_command) (b : beliefs) : beliefs :=
  match verdict c, applied c with
  | Some true, Some (owner, expires) => <[owner := expires]> b
  | _, _ => delete (commander c) b
  end.

(** What happened to the fleet so far: the calls of all instances in the order
    they took effect, the row they left, the clock they share, and what each
        each instance believes.  A command of no known shape may leave any row. *)
Inductive fleet (lid : string) : trace eff -> row -> Z -> beliefs -> Prop :=
  | fleet_starts w now : fleet lid [] w now ∅
  | fleet_clock t w now b now' :
      fleet lid t w now b -> now <= now' -> fleet lid (t ++ [Obs UtcNow (Ok now')]) w now' b
  | fleet_command t w now b o c w' :
      fleet lid t w now b -> lease_command_of lid o = Some c -> row_step c w w' ->
      fleet lid (t ++ [o]) w' now (believe c b)
  | fleet_other t w now b o :
      fleet lid t w now b -> touches lid o = false -> lease_command_of lid o = None -> (forall r, o <> Obs UtcNow r) ->
      fleet lid (t ++ [o]) w now b
  | fleet_unruly t w now b o w' :
      fleet lid t w now b -> unruly lid o = true -> fleet lid (t ++ [o]) w' now b.

(** A command that compares with the clock does so with a time it was read at. *)
Definition compared (lid : string) (o : obs eff) : option Z :=
  match lease_command_of lid o with Some (Take _ now _ _) => Some now | _ => None end.

Definition timely (lid : string) (t : trace eff) : Prop :=
  forall t1 o t2 now, t = t1 ++ o :: t2 -> compared lid o = Some now -> In (Obs UtcNow (Ok now)) t1.

(** The clock never runs back. *)
Lemma fleet_clock_read lid t w now b n : fleet lid t w now b -> In (Obs UtcNow (Ok n)) t -> n <= now.
Proof.
  induction 1 as [w now|t w now b now' _ IH Hle|t w now b o c w' _ IH Ho _|t w now b o _ IH _ Ho Hno|t w now b o w' _ IH Ho].
  - intros [].
  - intros [Hin|[Hin|[]]]%in_app_iff; [specialize (IH Hin); lia|].
    apply (f_equal (fun o : obs eff => match o with Obs ev r => match ev in eff X return result X -> Z with
      | UtcNow => fun r => match r with Ok n => n | _ => 0 end | _ => fun _ => 0 end r end)) in Hin. simpl in Hin. lia.
  - intros [Hin|[->|[]]]%in_app_iff; [by apply IH|discriminate Ho].
  - intros [Hin|[->|[]]]%in_app_iff; [by apply IH|]. by destruct (Hno (Ok n)).
  - intros [Hin|[->|[]]]%in_app_iff; [by apply IH|discriminate Ho].
Qed.

Lemma timely_snoc lid t o :
  timely lid (t ++ [o]) -> timely lid t /\ (forall n, compared lid o = Some n -> In (Obs UtcNow (Ok n)) t).
Proof.
  intros Ht. split; [|intros n; by apply (Ht t o [] n)].
  intros t1 o' t2 n -> Hn. apply (Ht t1 o' (t2 ++ [o]) n); [|done]. by rewrite <- app_assoc.
Qed.

(** Only a clock past its expiry takes a lease from somebody else. *)
Lemma displaced c owner e :
  admissible c (Some (owner, e)) -> commander c <> owner ->
  exists now expires g, c = Take (commander c) now expires g /\ e < now.
Proof.
  destruct c as [o n x g|o x g|o x g|o]; simpl; intros H Hne; [|by destruct H|by rewrite H in Hne..].
  destruct H as [->|H]; [done|eauto].
Qed.

(** A believed lease is the one in the row, or has expired. *)
Lemma believed_or_expired lid t w now b :
  fleet lid t w now b -> Forall (fun o => unruly lid o = false) t -> timely lid t -> forall owner e, b !! owner = Some e -> w = Some (owner, e) \/ e < now.
Proof.
  induction 1 as [w now|t w now b now' _ IH Hle|t w now b o c w' Hf IH Ho Hstep|t w now b o _ IH _ Ho Hno|t w now b o w' _ _ Ho];
    intros Hru Ht owner e Hb; [by rewrite lookup_empty in Hb|apply timely_snoc in Ht as [Ht Hn];
      apply Forall_app in Hru as [Hru Hro]..].
  - specialize (IH Hru). destruct (IH Ht owner e Hb); [by left|right; lia].
  - specialize (IH Hru). assert (commander c <> owner -> admissible c w -> b !! owner = Some e -> e < now) as Hother.
    { intros Hne Hadm He. destruct (IH Ht owner e He) as [->|]; [|done].
      destruct (displaced c owner e Hadm Hne) as (n & x & g & Hc & Hlt).
      assert (n <= now); [|lia]. apply (fleet_clock_read _ _ _ _ _ n Hf), Hn. unfold compared. by rewrite Ho, Hc. }
    assert (b !! owner = Some e -> w = Some (owner, e) \/ e < now) as Hsame by (by apply IH).
    unfold believe in Hb. destruct Hstep as [Hv Ha|Hv Ha|Hv Ha|Hv]; rewrite Hv in Hb.
    + destruct c as [o' n x g|o' x g|o' x g|o']; try discriminate Hv; simpl in *;
        (destruct (decide (o' = owner)) as [->|Hne]; [rewrite lookup_insert_eq in Hb; injection Hb as ->; by left|];
         rewrite lookup_insert_ne in Hb by done; right; auto).
    + apply lookup_delete_Some in Hb as [_ Hb]. auto.
    + apply lookup_delete_Some in Hb as [Hne Hb]. right. auto.
    + apply lookup_delete_Some in Hb as [_ Hb]. auto.
  - exact (IH Hru Ht owner e Hb).
  - apply Forall_cons in Hro as [Hro _]. congruence.
Qed.

(** * The operations of the instances *)
Inductive lease_op : Type :=
  | Claim (owner : string) (ttl : Z)
  | Refresh (owner : string) (ttl : Z)
  | Release (owner : string).

(** A run of an operation; [true] is the answer of one that has the lease. *)
Definition op_run (ns : string) (p : lease_op) (t : trace eff) (has : bool) : Prop :=
  match p with
  | Claim owner ttl => exists r, exec (claim_owner ns owner ttl) t r /\ (has = true <-> r = Ok true)
  | Refresh owner ttl => exists r, exec (refresh_owner ns owner ttl) t r /\ (has = true <-> r = Ok true)
  | Release owner => exists r, exec (release_owner ns owner) t r /\ has = false
  end.

(** The runs of a fleet's operations, their calls in any order between them. *)
Inductive operations (ns : string) : list (lease_op * trace eff * bool) -> trace eff -> Prop :=
  | no_operations : operations ns [] []
  | one_more p t has runs T T' :
      op_run ns p t has -> operations ns runs T -> interleave t T T' -> operations ns ((p, t, has) :: runs) T'.

(** The time read. *)
Definition clock_of (o : obs eff) : option Z :=
  match o with
  | Obs ev r => match ev in eff X return result X -> option Z with
                | UtcNow => fun r => match r with Ok n => Some n | Err _ => None end
                | _ => fun _ => None end r
  end.

Lemma clock_of_spec o n : clock_of o = Some n <-> o = Obs UtcNow (Ok n).
Proof.
  split; [|by intros ->]. destruct o as [X [] r]; simpl; try discriminate. destruct r as [m|]; [|discriminate].
  by intros [= ->].
Qed.

(** A time compared with was read before, in the same run. *)
Fixpoint reads_first (lid : string) (seen : list Z) (t : trace eff) : Prop :=
  match t with
  | [] => True
  | o :: t' =>
      match compared lid o with Some n => In n seen | None => True end /\
      reads_first lid (match clock_of o with Some n => n :: seen | None => seen end) t'
  end.

Lemma reads_first_more lid t seen seen' : incl seen seen' -> reads_first lid seen t -> reads_first lid seen' t.
Proof.
  revert seen seen'. induction t as [|o t IH]; intros seen seen' Hi; [done|]. intros [Ho Ht]. split.
  - destruct (compared lid o); [by apply Hi|done].
  - eapply IH; [|exact Ht]. destruct (clock_of o); [|done]. apply incl_cons; [by left|by apply incl_tl].
Qed.

Lemma reads_first_interleave lid t1 t2 t :
  interleave t1 t2 t -> forall seen, reads_first lid seen t1 -> reads_first lid seen t2 -> reads_first lid seen t.
Proof.
  assert (forall (o : obs eff) seen, incl seen (match clock_of o with Some n => n :: seen | None => seen end)) as Hincl.
  { intros o seen. destruct (clock_of o); [apply incl_tl|]; apply incl_refl. }
  induction 1 as [|o t1 t2 t Hi IH|o t1 t2 t Hi IH]; intros seen; [done|intros [Ho H1] H2|intros H1 [Ho H2]];
    (split; [exact Ho|]); (apply IH; [|]); try exact H1; try exact H2; (eapply reads_first_more; [apply Hincl|done]).
Qed.

Lemma reads_first_timely lid t : reads_first lid [] t -> timely lid t.
Proof.
  assert (forall t seen pre, reads_first lid seen t -> (forall n, In n seen -> In (Obs UtcNow (Ok n)) pre) ->
    forall t1 o t2 n, t = t1 ++ o :: t2 -> compared lid o = Some n -> In (Obs UtcNow (Ok n)) (pre ++ t1)) as H.
  { clear t. induction t as [|o t IH]; intros seen pre Hr Hseen t1 o' t2 n Heq Hn; [by destruct t1|].
    destruct Hr as [Ho Hr]. destruct t1 as [|o1 t1]; injection Heq as -> ->.
    - rewrite Hn in Ho. rewrite app_nil_r. by apply Hseen.
    - change (o1 :: t1) with ([o1] ++ t1). rewrite app_assoc. eapply IH; [exact Hr| |reflexivity|exact Hn].
      intros m Hm. rewrite in_app_iff. destruct (clock_of o1) as [k|] eqn:Hk; [|left; by apply Hseen].
      destruct Hm as [->|Hm]; [|left; by apply Hseen]. right. left. by apply clock_of_spec. }
  intros Hr t1 o t2 n Heq Hn. exact (H t [] [] Hr (fun n H => H) t1 o t2 n Heq Hn).
Qed.

(** * What the operations do *)

(** [p] was run in [t], with outcome [r]. *)
Definition ran {A} (p : io A) (r : result A) (t : trace eff) : Prop := exists t', t' `sublist_of` t /\ exec p t' r.

Lemma ran_mono {A} (p : io A) r t t' : t `sublist_of` t' -> ran p r t -> ran p r t'.
Proof. intros Hs (t0 & H0 & Hr). exists t0. split; [by etrans|done]. Qed.

Lemma ran_self {A} (p : io A) r t : exec p t r -> ran p r t.
Proof. intros H. by exists t. Qed.

Lemma ran_in {X} (ev : eff X) r t : ran (call ev) r t -> In (Obs ev r) t.
Proof.
  intros (t' & Hs & x & t'' & _ & -> & Hx).
  assert (r = x) as -> by (destruct x; by destruct Hx as [_ ->]).
  clear Hx. revert Hs. generalize (Obs ev x). intros o Hs. apply list_elem_of_In.
  apply sublist_submseteq in Hs. eapply elem_of_submseteq; [|exact Hs]. left.
Qed.

Lemma retry_spec {X} (op : io X) left :
  (0 < left)%nat ->
  wp (retry_loop op left) (fun t r =>
    match r with
    | Ok (Some x) => ran op (Ok x) t
    | Ok None => exists retryable, ran op (Err (WriteConcernError retryable)) t
    | Err _ => True
    end).
Proof.
  induction left as [|left IH]; intros Hl; [lia|]. cbn [retry_loop]. apply wp_bind, wp_attempt, wp_intro.
  intros t r Hr. cbn beta iota. pose proof (ran_self _ _ _ Hr) as Hrun.
  destruct r as [x|e]; [apply wp_ret; by rewrite app_nil_r|].
  assert (ran op (Err e) (t ++ [])) as Hrun' by (by rewrite app_nil_r).
  destruct e as [| | | |retryable| | | | | | | | | | | | | | |]; try (by apply wp_raise).
  destruct (negb retryable || Nat.eqb left 0) eqn:Hend; [apply wp_ret; eauto|].
  apply wp_bind, wp_call. intros [[]|e] _; [|done].
  eapply wp_mono; [apply IH; destruct left; [by rewrite orb_comm in Hend|lia]|].
  intros t2 [[x|]|e]; [| |done].
  - intros Hx. eapply ran_mono; [|exact Hx]. apply sublist_inserts_l, sublist_inserts_l. done.
  - intros [b Hb]. exists b. eapply ran_mono; [|exact Hb]. apply sublist_inserts_l, sublist_inserts_l. done.
Qed.

(** The lease was granted to [owner] until [e]; or its first insertion was
    given up on. *)
Definition granted (lid owner : string) (e : Z) (t : trace eff) : Prop :=
  exists o c, In o t /\ lease_command_of lid o = Some c /\ verdict c = Some true /\ applied c = Some (owner, e).
Definition insertion_unsettled (lid owner : string) (e : Z) (t : trace eff) : Prop :=
  exists retryable, In (Obs (InsertOne "mtproto_state"
    ["_id" ~> BStr lid; "owner" ~> BStr owner; "expires_at" ~> BInt e]) (Err (WriteConcernError retryable))) t.

Lemma first_granted ns owner now ttl t :
  exec (first <- attempt (_retry_write (first_claim ns owner now ttl)) ;;
        match first with Ok _ => Ret true | Err e => if is_Exception e then Ret false else Raise e end) t (Ok true) ->
  granted (_lease_id ns) owner (now + ttl) t \/ insertion_unsettled (_lease_id ns) owner (now + ttl) t.
Proof.
  intros (t3 & first & t4 & Hfirst & H & ->)%exec_bind_ok. apply exec_attempt in Hfirst as (r1 & [= <-] & Hfirst).
  pose proof (wp_elim _ _ _ _ (retry_spec _ 3 ltac:(lia)) Hfirst) as H1.
  destruct first as [[id|]|e]; [| |exfalso; destruct (is_Exception e); by destruct H as [_ [=]]].
  - left. apply ran_in in H1. eexists _, (First owner (now + ttl) (Some true)).
    split; [rewrite in_app_iff; left; exact H1|]. split; [|done]. simpl. by rewrite String.eqb_refl.
  - right. destruct H1 as [b H1]. apply ran_in in H1. exists b. rewrite in_app_iff. by left.
Qed.

Lemma claim_granted ns owner ttl t :
  exec (claim_owner ns owner ttl) t (Ok true) ->
  exists n, In (Obs UtcNow (Ok n)) t /\
    (granted (_lease_id ns) owner (n + ttl) t \/ insertion_unsettled (_lease_id ns) owner (n + ttl) t).
Proof.
  unfold claim_owner. intros (t1 & n & t2 & Hn & H & ->)%exec_bind_ok. exists n.
  apply ran_self, ran_in in Hn. split; [rewrite in_app_iff; by left|].
  apply exec_bind_ok in H as (t3 & taken & t4 & Htaken & H & ->).
  apply exec_attempt in Htaken as (r1 & [= <-] & Htaken). pose proof (wp_elim _ _ _ _ (retry_spec _ 3 ltac:(lia)) Htaken) as H1.
  assert (forall o, In o t4 -> In o (t1 ++ t3 ++ t4)) as Hin4 by (intros o Ho; rewrite !in_app_iff; auto).
  assert (granted (_lease_id ns) owner (n + ttl) t4 \/ insertion_unsettled (_lease_id ns) owner (n + ttl) t4 ->
    granted (_lease_id ns) owner (n + ttl) (t1 ++ t3 ++ t4) \/ insertion_unsettled (_lease_id ns) owner (n + ttl) (t1 ++ t3 ++ t4)) as Hlift.
  { intros [(o & c & Ho & Hc)|[b Hb]]; [left; exists o, c; auto|right; exists b; auto]. }
  destruct taken as [[[d|]|]|e].
  - left. apply ran_in in H1. eexists _, (Take owner n (n + ttl) (Some true)).
    split; [rewrite !in_app_iff; right; left; exact H1|]. split; [|done]. simpl. by rewrite !String.eqb_refl.
  - by apply Hlift, first_granted.
  - by apply Hlift, first_granted.
  - exfalso. destruct (is_Exception e); by destruct H as [_ [=]].
Qed.

Lemma refresh_granted ns owner ttl t :
  exec (refresh_owner ns owner ttl) t (Ok true) ->
  exists n, In (Obs UtcNow (Ok n)) t /\ granted (_lease_id ns) owner (n + ttl) t.
Proof.
  unfold refresh_owner, db_call. intros (t1 & n & t2 & Hn & H & ->)%exec_bind_ok. exists n.
  apply ran_self, ran_in in Hn. split; [rewrite in_app_iff; by left|].
  apply exec_bind_ok in H as (t3 & res & t4 & Hres & [-> [= Hm]] & ->). apply ran_self, ran_in in Hres.
  eexists _, (Renew owner (n + ttl) (Some true)). split; [rewrite !in_app_iff; right; left; exact Hres|].
  split; [|done]. simpl. by rewrite String.eqb_refl, <- Hm.
Qed.

(** Each run compares only with the time it read first. *)
Definition stray (lid : string) (n : option Z) (o : obs eff) : bool :=
  match compared lid o with Some m => negb (bool_decide (n = Some m)) | None => false end.

Lemma never_stray_reads lid n t seen :
  Forall (fun o => stray lid n o = false) t -> (forall m, n = Some m -> In m seen) -> reads_first lid seen t.
Proof.
  intros H. revert seen. induction H as [|o t Ho _ IH]; intros seen Hn; [done|]. split.
  - unfold stray in Ho. destruct (compared lid o) as [m|]; [|done]. apply negb_false_iff, bool_decide_eq_true in Ho. auto.
  - apply IH. intros m Hm. destruct (clock_of o); [right|]; auto.
Qed.

Lemma retry_never {X} f (op : io X) left :
  never f op -> (forall ms r, f (Obs (Sleep ms) r) = false) -> never f (retry_loop op left).
Proof. intros Hop Hs. induction left as [|left IH]; cbn [retry_loop]; [apply never_ret|]. never_auto. by apply never_call. Qed.

Lemma reads_after_clock {A} lid (k : Z -> io A) :
  (forall n, never (stray lid (Some n)) (k n)) -> wp (n <- call UtcNow ;; k n) (fun t _ => reads_first lid [] t).
Proof.
  intros Hk. apply wp_bind, wp_call. intros [n|e] Hn; [|done]. eapply wp_mono; [apply Hk|]. intros t r Ht. split; [done|].
  simpl. apply (never_stray_reads lid (Some n)); [done|]. intros m [= ->]. by left.
Qed.

Lemma op_reads ns p t has : op_run ns p t has -> reads_first (_lease_id ns) [] t.
Proof.
  assert (forall o n, match lease_command_of (_lease_id ns) o with Some (Take _ m _ _) => n = Some m | _ => True end ->
    stray (_lease_id ns) n o = false) as Hstray.
  { intros o n. unfold stray, compared. destruct (lease_command_of _ o) as [[]|]; try done.
    intros ->. by rewrite bool_decide_eq_true_2 by done. }
  assert (forall {X} (ev : eff X) n, (forall r, match lease_command_of (_lease_id ns) (Obs ev r) with
    Some (Take _ m _ _) => n = Some m | _ => True end) -> never (stray (_lease_id ns) n) (call ev)) as Hcall.
  { intros X ev n H. apply never_call. intros r. apply Hstray, H. }
  destruct p as [owner ttl|owner ttl|owner]; intros (r & Hrun & _); revert t r Hrun; refine (wp_elim' _ _ _).
  - apply reads_after_clock. intros n. unfold _retry_write, take, first_claim, db_call.
    never_auto; apply retry_never; try done; apply Hcall; intros r; simpl; by rewrite ?String.eqb_refl.
  - apply reads_after_clock. intros n. unfold db_call. apply never_bind; [|intros; apply never_ret].
    apply Hcall. intros r. simpl. by rewrite String.eqb_refl.
  - eapply wp_mono; [refine (_ : never (stray (_lease_id ns) None) _)|].
    + unfold release_owner, db_call. apply never_try; [|intros; apply never_ret].
      apply never_bind; [|intros; apply never_ret]. apply Hcall. intros r. simpl. by rewrite String.eqb_refl.
    + intros t r Ht. by apply (never_stray_reads _ None).
Qed.

Lemma operations_read ns runs T : operations ns runs T -> reads_first (_lease_id ns) [] T.
Proof.
  induction 1 as [|p t has runs T T' Hp _ IH Hi]; [done|]. eapply reads_first_interleave; [exact Hi| |exact IH].
  by eapply op_reads.
Qed.

Lemma shaped lid o c : lease_command_of lid o = Some c -> unruly lid o = false.
Proof. unfold unruly. intros ->. apply andb_false_r. Qed.

(** Every command an operation issues on the lease has one of the four shapes. *)
Lemma op_orderly ns p t has : op_run ns p t has -> Forall (fun o => unruly (_lease_id ns) o = false) t.
Proof.
  assert (forall {X} (ev : eff X), (forall r, unruly (_lease_id ns) (Obs ev r) = false) ->
    never (unruly (_lease_id ns)) (call ev)) as Hcall by (intros X ev H; by apply never_call).
  destruct p as [owner ttl|owner ttl|owner]; intros (r & Hrun & _); revert t r Hrun; refine (wp_elim' _ _ _).
  - unfold claim_owner, _retry_write, take, first_claim, db_call.
    refine (_ : never (unruly (_lease_id ns)) _). never_auto; try (by apply Hcall);
      apply retry_never; try done; apply Hcall; intros r; eapply shaped; simpl; by rewrite ?String.eqb_refl.
  - unfold refresh_owner, db_call. refine (_ : never (unruly (_lease_id ns)) _).
    apply never_bind; [by apply Hcall|]. intros n. apply never_bind; [|intros; apply never_ret]. apply Hcall. intros r.
    eapply shaped. simpl. by rewrite String.eqb_refl.
  - unfold release_owner, db_call. refine (_ : never (unruly (_lease_id ns)) _).
    apply never_try; [|intros; apply never_ret]. apply never_bind; [|intros; apply never_ret].
    apply Hcall. intros r. eapply shaped. simpl. by rewrite String.eqb_refl.
Qed.

Lemma operations_orderly ns runs T : operations ns runs T -> Forall (fun o => unruly (_lease_id ns) o = false) T.
Proof.
  induction 1 as [|p t has runs T T' Hp _ IH Hi]; [constructor|]. apply (interleave_Forall _ _ _ _ Hi).
  split; [by eapply op_orderly|exact IH].
Qed.

(** C28: one owner at a time.  However the calls of any number of claims,
    refreshes and releases by any number of instances are interleaved: when two
    instances both rely on the lease - the last answer each got granted it, and
    the expiry it was granted has not passed on the clock they share - they are
    the same instance.  The row is one under any command: one whose filter or
    update had not the shape of a takeover of the own or an expired lease, a
    first row, a renewal or a removal of the own one might leave any row.  And a
    claim or a refresh that answers [true] was granted the lease for its full
    time, from a clock read in its own run; the one exception is a claim whose
    first insertion of the row ended in a write concern error and was given up
    on, which answers [true] though nothing may be there
    ([claim_on_failed_insert]). *)
Theorem one_owner (ns : string) (runs : list (lease_op * trace eff * bool)) (T : trace eff) (w : row) (now : Z) (b : beliefs)
    (Hops : operations ns runs T) (Hfleet : fleet (_lease_id ns) T w now b) :
  (forall o1 o2 e1 e2, b !! o1 = Some e1 -> b !! o2 = Some e2 -> now <= e1 -> now <= e2 -> o1 = o2) /\
  (forall owner ttl t, In (Claim owner ttl, t, true) runs \/ In (Refresh owner ttl, t, true) runs ->
     exists n, In (Obs UtcNow (Ok n)) t /\
       (granted (_lease_id ns) owner (n + ttl) t \/ insertion_unsettled (_lease_id ns) owner (n + ttl) t)).
Proof.
  split.
  - pose proof (believed_or_expired _ _ _ _ _ Hfleet (operations_orderly _ _ _ Hops) (reads_first_timely _ _ (operations_read _ _ _ Hops))) as Hb.
    intros o1 o2 e1 e2 H1 H2 Hn1 Hn2. destruct (Hb o1 e1 H1) as [Hw1|]; [|lia]. destruct (Hb o2 e2 H2) as [Hw2|]; [|lia].
    congruence.
  - clear Hfleet. intros owner ttl t. induction Hops as [|p t' has runs T T' Hp _ IH _]; [by intros [[]|[]]|].
    intros [[Heq|Hin]|[Heq|Hin]]; [| by apply IH; left| |by apply IH; right]; injection Heq as -> -> ->;
      destruct Hp as (r & Hrun & Hr); rewrite (proj1 Hr eq_refl) in Hrun.
    + by apply claim_granted.
    + destruct (refresh_granted _ _ _ _ Hrun) as (n & Hn & Hg). eauto.
Qed.

(** * The client under the lease *)
Definition obs_connect (o : obs eff) : bool :=
  match o with Obs ev _ => match ev with MtStart _ => true | _ => false end end.

(** The lease was given back, or it was tried. *)
Definition given_back (ns owner : string) (t : trace eff) : Prop :=
  exists r, In (Obs (DeleteOne "mtproto_state" ["_id" ~> BStr (_lease_id ns); "owner" ~> BStr owner]) r) t.

(** [t] is a run that connected: claimed before, and given back again unless
    it answered [true]. *)
Definition connected (cfg : config) (owner : string) (t : trace eff) (r : result bool) : Prop :=
  exists t1 t2 c x t3,
    t = t1 ++ t2 ++ Obs (MtStart c) x :: t3 /\ Forall (fun o => obs_connect o = false) (t1 ++ t2) /\
    ran (claim_owner (cfg_mtproto_session cfg) owner _LEASE_TTL_S) (Ok true) t2 /\
    (r = Ok true /\ x = Ok tt /\ t3 = [] \/ r <> Ok true /\ given_back (cfg_mtproto_session cfg) owner t3).

Definition connects (cfg : config) (owner : string) (t : trace eff) (r : result bool) : Prop :=
  Forall (fun o => obs_connect o = false) t \/ connected cfg owner t r.

Lemma give_back_gives cfg owner (k : io bool) :
  (forall t r, exec k t r -> r <> Ok true) ->
  wp (give_back cfg owner ;;; k) (fun t r => r <> Ok true /\ given_back (cfg_mtproto_session cfg) owner t).
Proof.
  intros Hk. unfold give_back, _release_lease_quietly, release_owner, db_call, given_back. apply wp_intro. intros t r Hr.
  split.
  - intros ->. apply exec_bind_ok in Hr as (ta & [] & tb & _ & Hr & _). by apply (Hk tb (Ok true)).
  - revert t r Hr. refine (wp_elim' _ _ _). wp_auto; try (apply wp_intro; intros); eexists; simpl; eauto 10.
Qed.

Lemma claimed_true (p : io bool) t :
  exec (try_except p (fun _ => Ret false)) t (Ok true) -> exec p t (Ok true).
Proof.
  unfold try_except. intros (ta & [b|e] & tb & Ha & Hb & ->)%exec_bind_ok; apply exec_attempt in Ha as (ra & [= <-] & Ha).
  - destruct Hb as [-> [= ->]]. by rewrite app_nil_r.
  - destruct (is_Exception e); by destruct Hb as [_ [=]].
Qed.

(** A connection only under the lease.  In every run of [start] that
    connects the client, the claim of the lease answered [true] before; and
    unless the run answers [true] itself, the lease is given back after. *)
Theorem connects_under_lease (cfg : config) (owner : string) (t : trace eff) (r : result bool)
    (Hrun : exec (start cfg owner) t r) (Hc : existsb obs_connect t = true) :
  connected cfg owner t r.
Proof.
  enough (connects cfg owner t r) as [Ht|H]; [by rewrite (proj2 (existsb_false_Forall _ _) Ht) in Hc|exact H|].
  clear Hc. revert t r Hrun. refine (wp_elim' _ _ _). unfold start, client.
  refine (never_bind_after obs_connect _ _ [] (connects cfg owner) _ _ _ _); [never_auto|done| |intros; by left].
  intros t1 dead Ht1 _. destruct (var_bool dead).
  { apply (never_rest_after obs_connect); [apply never_raise|done|by left]. }
  apply (never_bind_after obs_connect); [never_auto|done| |intros; by left]. intros t2 c Ht2 _.
  apply (never_bind_after obs_connect); [never_auto|done| |intros; by left]. intros t3 up Ht3 _.
  destruct up; [apply (never_rest_after obs_connect); [apply never_ret|done|by left]|].
  apply (never_bind_after obs_connect); [|done| |intros; by left].
  { unfold claim_owner, _retry_write, take, first_claim, db_call. never_auto; apply retry_never; try done; never_auto. }
  intros t4 claimed Ht4 Hclaim. destruct claimed; cbn [negb].
  2: { apply (never_rest_after obs_connect); [apply never_ret|done|by left]. }
  apply claimed_true, ran_self in Hclaim.
  apply (never_bind_after obs_connect); [never_auto|done| |intros; by left]. intros t5 [] Ht5 _.
  set (tp := ((([] ++ t1) ++ t2) ++ t3)) in *. apply wp_bind, wp_attempt, wp_call. intros x _. cbn beta iota.
  assert (forall t6 r, (r = Ok true /\ x = Ok tt /\ t6 = [] \/ r <> Ok true /\ given_back (cfg_mtproto_session cfg) owner t6) ->
    connects cfg owner (((tp ++ t4) ++ t5) ++ [Obs (MtStart c) x] ++ t6) r) as Hdone.
  { intros t6 r H. right. exists tp, (t4 ++ t5), c, x, t6. rewrite <- !app_assoc. split; [done|].
    rewrite !app_assoc. split; [done|]. split; [by apply (ran_mono _ _ t4); [apply sublist_inserts_r|]|done]. }
  assert (forall k : io bool, (forall t r, exec k t r -> r <> Ok true) ->
    wp (give_back cfg owner ;;; k) (fun t r => connects cfg owner (((tp ++ t4) ++ t5) ++ [Obs (MtStart c) x] ++ t) r)) as Hback.
  { intros k Hk. eapply wp_mono; [by apply give_back_gives|]. intros t r H. apply Hdone. by right. }
  assert (forall e : exn, forall t r, exec (Raise (A := bool) e) t r -> r <> Ok true) as Hraise by (by intros e t r [_ ->]).
  destruct x as [[]|e]; [apply wp_ret, Hdone; by left|].
  destruct (is_auth_key_duplicated e) eqn:He.
  - destruct e; try discriminate He. apply wp_bind, wp_call. intros [[]|e] Hin; [|done].
    eapply wp_mono; [apply (give_back_gives cfg owner (Ret false)); by intros t r [_ ->]|].
    intros t r [Hr [y Hy]]. apply (Hdone (_ :: t)). right. split; [done|]. exists y. by right.
  - destruct e; apply Hback, Hraise.
Qed.

(** * What the lease does not guarantee *)

(** The first insertion fails for good, and the claim answers [true] with no
    row written: the next instance's claim is granted too. *)
Definition failing_insert : script := fun X ev =>
  match ev in eff X return option (result X) with
  | InsertOne _ _ => Some (Err (WriteConcernError false))
  | _ => None
  end.
Lemma claim_on_failed_insert : (replay failing_insert (claim_owner "s" "a" _LEASE_TTL_S)).2 = Ok true.
Proof. reflexivity. Qed.

(** Shutting down gives the lease back before the client is stopped: between
    the two another instance may claim it and connect. *)
Definition running : script := fun X ev =>
  match ev in eff X return option (result X) with
  | VarGet "_lease_owner" => Some (Ok (BStr "a"))
  | VarGet "_client" => Some (Ok (BId "c1"))
  | _ => None
  end.
Definition demo_cfg : config := Config 3 0 (-11, None) (-12, None) (-1) (-2) "TCF" (-13, None) "@logs" 0 true "s".
Lemma stop_releases_first :
  (replay running (stop demo_cfg)).1 =
  [Obs (VarGet "_lease_owner") (Ok (BStr "a")); Obs (VarPut "_lease_owner" BNull) (Ok tt);
   Obs (DeleteOne "mtproto_state" ["_id" ~> BStr (_lease_id "s"); "owner" ~> BStr "a"]) (Ok 1);
   Obs (VarGet "_client") (Ok (BId "c1")); Obs (VarPut "_client" BNull) (Ok tt);
   Obs (MtStop (BId "c1")) (Ok tt)].
Proof. reflexivity. Qed.

(** A heartbeat whose refreshes fail goes on, past any expiry, and never stops
    the client. *)
Definition cut_off : script := fun X ev =>
  match ev in eff X return option (result X) with
  | UpdateOne _ _ _ _ => Some (Err (PyMongoError "unreachable"))
  | _ => None
  end.
Lemma heartbeat_outlives_lease (beats : nat) :
  let t := (replay cut_off (_heartbeat_lease demo_cfg (BId "c1") "a" beats)).1 in
  tcount (fun o => match o with Obs ev _ => match ev with Sleep _ => true | _ => false end end) t = beats /\
  Forall (fun o => match o with Obs ev _ => match ev with MtStop _ => false | _ => true end end = true) t.
Proof.
  cbv zeta. unfold replay. induction beats as [|beats IH]; [done|].
  assert (forall n, run (replay_env cut_off) (_heartbeat_lease demo_cfg (BId "c1") "a" (S n)) tt =
    let '(t, r, s) := run (replay_env cut_off) (_heartbeat_lease demo_cfg (BId "c1") "a" n) tt in
    (Obs (Sleep _HEARTBEAT_S) (Ok tt) :: Obs UtcNow (Ok 0) ::
     Obs (UpdateOne "mtproto_state" ["_id" ~> BStr (_lease_id "s"); "owner" ~> BStr "a"]
       ["$set" ~> BDoc ["expires_at" ~> BInt (0 + _LEASE_TTL_S)]] false) (Err (PyMongoError "unreachable")) :: t, r, s)) as Hstep.
  { intros n. destruct (run _ (_heartbeat_lease _ _ _ n) tt) as [[t r] []] eqn:Hn.
    simpl. change (run (replay_env cut_off) (bind _ _) tt)
      with (run (replay_env cut_off) (_heartbeat_lease demo_cfg (BId "c1") "a" n) tt). by rewrite Hn. }
  rewrite Hstep. destruct (run _ _ tt) as [[t r] s]. cbn [fst snd] in *. destruct IH as [IH1 IH2].
  split; [by rewrite !tcount_cons, <- IH1|]. by repeat constructor.
Qed.

(** * Concrete fleets *)

(** Two instances claim the free lease at once; the second finds the row. *)
Definition no_row (duplicate : bool) : script := fun X ev =>
  match ev in eff X return option (result X) with
  | InsertOne _ _ => if duplicate then Some (Err (DuplicateKeyError None "E11000")) else None
  | _ => None
  end.
Definition claim_run (owner : string) (duplicate : bool) : trace eff :=
  (replay (no_row duplicate) (claim_owner "s" owner 90)).1.

Lemma claim_runs : operations "s"
  [(Claim "a" 90, claim_run "a" false, true); (Claim "b" 90, claim_run "b" true, false)]
  (claim_run "a" false ++ claim_run "b" true).
Proof.
  apply (one_more "s" _ _ _ _ (claim_run "b" true)); [| |apply interleave_app].
  - exists (Ok true). split; [exact (replay_exec (no_row false) (claim_owner "s" "a" 90))|done].
  - apply (one_more "s" _ _ _ _ []); [|constructor|apply interleave_nil_r].
    exists (Ok false). split; [exact (replay_exec (no_row true) (claim_owner "s" "b" 90))|done].
Qed.

Lemma claim_fleet :
  exists b, fleet (_lease_id "s") (claim_run "a" false ++ claim_run "b" true) (Some ("a"%string, 90)) 0 b /\
    b !! "a"%string = Some 90 /\ b !! "b"%string = None.
Proof.
  eexists. split.
  - change (claim_run "a" false ++ claim_run "b" true) with
      (((((([] ++ [Obs UtcNow (Ok 0)]) ++ [Obs (FindOneAndUpdate "mtproto_state"
         ["_id" ~> BStr (_lease_id "s");
          "$or" ~> BArr [BDoc ["owner" ~> BStr "a"]; BDoc ["expires_at" ~> BDoc ["$lt" ~> BInt 0]]]]
         ["$set" ~> BDoc ["owner" ~> BStr "a"; "expires_at" ~> BInt 90]] false) (Ok None)]) ++
       [Obs (InsertOne "mtproto_state" ["_id" ~> BStr (_lease_id "s"); "owner" ~> BStr "a"; "expires_at" ~> BInt 90]) (Ok "id"%string)]) ++
       [Obs UtcNow (Ok 0)]) ++ [Obs (FindOneAndUpdate "mtproto_state"
         ["_id" ~> BStr (_lease_id "s");
          "$or" ~> BArr [BDoc ["owner" ~> BStr "b"]; BDoc ["expires_at" ~> BDoc ["$lt" ~> BInt 0]]]]
         ["$set" ~> BDoc ["owner" ~> BStr "b"; "expires_at" ~> BInt 90]] false) (Ok None)]) ++
       [Obs (InsertOne "mtproto_state" ["_id" ~> BStr (_lease_id "s"); "owner" ~> BStr "b"; "expires_at" ~> BInt 90])
         (Err (DuplicateKeyError None "E11000"))]).
    eapply fleet_command; [eapply fleet_command; [eapply fleet_clock; [eapply fleet_command; [eapply fleet_command;
      [eapply fleet_clock; [apply (fleet_starts _ None 0)|lia]|reflexivity|by apply row_refused; [|intros []]]
      |reflexivity|by apply row_granted]|lia]|reflexivity|apply row_refused; [done|simpl; intros [?|?]; [done|lia]]]
      |reflexivity|apply row_refused; [done|simpl; tauto]].
  - done.
Qed.

Lemma one_owner_witness :
  exists b : beliefs, b !! "a"%string = Some 90 /\
  (forall o e, b !! o = Some e -> 0 <= e -> "a"%string = o) /\
  exists n, granted (_lease_id "s") "a" (n + 90) (claim_run "a" false) \/
            insertion_unsettled (_lease_id "s") "a" (n + 90) (claim_run "a" false).
Proof.
  destruct claim_fleet as (b & Hf & Ha & _). exists b. split; [exact Ha|].
  destruct (one_owner "s" _ _ _ _ b claim_runs Hf) as [H1 H2]. split.
  - intros o e He Hle. exact (H1 "a"%string o 90 e Ha He ltac:(lia) Hle).
  - destruct (H2 "a"%string 90 (claim_run "a" false) ltac:(left; left; reflexivity)) as (n & _ & H). exists n. exact H.
Defined.

Lemma connects_under_lease_witness :
  connected demo_cfg "a" (replay (no_row false) (start demo_cfg "a")).1 (Ok true).
Proof.
  apply (connects_under_lease demo_cfg "a").
  - exact (replay_exec (no_row false) (start demo_cfg "a")).
  - vm_compute. reflexivity.
Defined.
