(* ===== verification/MtStore.v ===== *)
(** The storage of the shared MTProto session in MongoDB
    ([tcbot/database/mtproto_store/storage.py] and peers.py) and the scan that
    fills the member cache from it ([tcbot/database/mtproto/harvest.py]).

    One document per key of the collection [mtproto_state], all keys under the
    session's namespace. *)

From stdpp Require Import sorting.
From S2P Require Import Prelude Prog Hoare Text World Dispatch Cache Locale Roles Replies Auth Records Prefixes Extract Lease.

(** [str(i)] *)
Definition id_str (i : Z) : string := s_of (str_int i).

(** A [pyrogram] update state. *)
Record update_state := UpdateState { us_id : Z; us_pts : option Z; us_qts : option Z; us_date : option Z; us_seq : option Z }.

(** [s.rsplit(sep, 1)[1]] *)
Definition after_last (sep : Z) (s : ustr) : ustr := rev (take_while (fun c => negb (c =? sep)) (rev s)).
Definition c_colon : Z := ch ":".

Section storage.
Context `{UCD} (ns : string).

(** The third-party client: [SQLiteStorage.USERNAME_TTL], in seconds, and
    [get_input_peer], from the id, the access hash and the type. *)
Context (USERNAME_TTL : Z) (get_input_peer : Z -> bson -> bson -> io bson).

Definition _kv (name : string) : string := (ns ++ (":kv:" ++ name))%string.
Definition _peer (peer_id : Z) : string := (ns ++ (":peer:" ++ id_str peer_id))%string.
Definition _ustate (state_id : Z) : string := (ns ++ (":ustate:" ++ id_str state_id))%string.
Definition _ns_re : string := s_of (re_escape (u ns)).

(** [db_call] under [_retry_write]. *)
Definition write {X} (ev : eff X) : io unit := _retry_write (db_call ev ;;; Ret tt) ;;; Ret tt.

Definition by_id (id : string) : doc := ["_id" ~> BStr id].
Definition id_prefix (suffix : string) : bson := BDoc ["$regex" ~> BStr ("^" ++ _ns_re ++ suffix)].

Definition delete : io unit := write (DeleteMany "mtproto_state" ["_id" ~> id_prefix ":"]).

(** [doc[key]] *)
Definition field (key : string) (d : doc) : io bson :=
  match dget key d with Some v => Ret v | None => Raise (KeyError key) end.

(** * Scalars *)
Definition _get_scalar (name : string) : io bson :=
  d <- db_call (FindOne "mtproto_state" (by_id (_kv name)) []) ;;
  match d with Some ((_ :: _) as d) => field "value" d | _ => Ret BNull end.

Definition _set_scalar (name : string) (value : bson) : io unit :=
  write (ReplaceOne "mtproto_state" (by_id (_kv name)) ["value" ~> value] true).

(** [None] for [value]: read. *)
Definition _accessor (name : string) (value : option bson) : io bson :=
  match value with None => _get_scalar name | Some value => _set_scalar name value ;;; Ret BNull end.

(** The scalars of a session. *)
Definition dc_id := _accessor "dc_id".
Definition api_id := _accessor "api_id".
Definition server_address := _accessor "server_address".
Definition port := _accessor "port".
Definition test_mode := _accessor "test_mode".
Definition auth_key := _accessor "auth_key".
Definition date := _accessor "date".
Definition user_id := _accessor "user_id".
Definition is_bot := _accessor "is_bot".

(** [int(time.time())] *)
Definition seconds_now : io Z := now <- call UtcNow ;; Ret (now / 1000000).

Definition save : io unit := now <- seconds_now ;; date (Some (BInt now)) ;;; Ret tt.

(** * Peers: id, access hash, type, phone number *)
Definition update_peer (now : Z) (peer : Z * Z * string * option string) : io unit :=
  let '(peer_id, access_hash, peer_type, phone_number) := peer in
  write (UpdateOne "mtproto_state" (by_id (_peer peer_id))
    ["$set" ~> BDoc ["access_hash" ~> BInt access_hash; "type" ~> BStr peer_type;
                     "phone_number" ~> boptstr phone_number; "updated_on" ~> BInt now];
     "$setOnInsert" ~> BDoc ["usernames" ~> BArr []]] true).

Definition update_peers (peers : list (Z * Z * string * option string)) : io unit :=
  now <- seconds_now ;; for_each peers (update_peer now).

Definition update_username (now : Z) (names : Z * list (option string)) : io unit :=
  write (UpdateOne "mtproto_state" (by_id (_peer names.1))
    ["$set" ~> BDoc ["usernames" ~> BArr (map BStr (omap id names.2)); "updated_on" ~> BInt now]] true).

Definition update_usernames (usernames : list (Z * list (option string))) : io unit :=
  now <- seconds_now ;; for_each usernames (update_username now).

Definition input_peer (peer_id : Z) (d : doc) : io bson :=
  access_hash <- field "access_hash" d ;; type <- field "type" d ;; get_input_peer peer_id access_hash type.

Definition get_peer_by_id (peer_id : Z) : io bson :=
  d <- db_call (FindOne "mtproto_state" (by_id (_peer peer_id)) []) ;;
  match d with Some d => input_peer peer_id d | None => Raise (KeyError "ID not found") end.

(** The id in the document's key. *)
Definition peer_of_key (d : doc) : io bson :=
  match py_int (after_last c_colon (u (dget_str "_id" d ""))) with
  | Some peer_id => input_peer peer_id d
  | None => Raise (ValueError "invalid literal for int()")
  end.

Definition get_peer_by_username (username : string) : io bson :=
  d <- db_call (FindOne "mtproto_state" ["_id" ~> id_prefix ":peer:"; "usernames" ~> BStr username]
         [("updated_on"%string, -1)]) ;;
  match d with
  | None => Raise (KeyError "Username not found")
  | Some d =>
      now <- call UtcNow ;;
      if Z.abs (now - dget_int "updated_on" d 0 * 1000000) >? USERNAME_TTL * 1000000
      then Raise (KeyError "Username expired")
      else peer_of_key d
  end.

Definition get_peer_by_phone_number (phone_number : string) : io bson :=
  d <- db_call (FindOne "mtproto_state" ["_id" ~> id_prefix ":peer:"; "phone_number" ~> BStr phone_number] []) ;;
  match d with Some d => peer_of_key d | None => Raise (KeyError "Phone number not found") end.

(** * Update states *)
Definition bint_of (v : option bson) : option Z := v ≫= bint.

Definition state_of (d : doc) : io update_state :=
  match py_int (after_last c_colon (u (dget_str "_id" d ""))) with
  | Some id => Ret (UpdateState id (bint_of (dget "pts" d)) (bint_of (dget "qts" d)) (bint_of (dget "date" d)) (bint_of (dget "seq" d)))
  | None => Raise (ValueError "invalid literal for int()")
  end.

Fixpoint mapM_io {A B} (f : A -> io B) (l : list A) : io (list B) :=
  match l with [] => Ret [] | a :: l => b <- f a ;; bs <- mapM_io f l ;; Ret (b :: bs) end.

(** [ids]: all of them, or the given ones. *)
Definition get_update_states (ids : option (list Z)) : io (list update_state) :=
  let read filter :=
    docs <- db_call (Find "mtproto_state" ["_id" ~> BDoc filter] [("date"%string, 1)] 0 None) ;; mapM_io state_of docs in
  let regex := "$regex" ~> BStr ("^" ++ _ns_re ++ ":ustate:") in
  match ids with
  | None => read [regex]
  | Some [] => Ret []
  | Some ids => read [regex; "$in" ~> BArr (map (fun i => BStr (_ustate i)) ids)]
  end.

(** The fields of a state that are there. *)
Definition patch_of (st : update_state) : doc :=
  omap (fun kv : string * option Z => (fun v => (kv.1, BInt v)) <$> kv.2)
    [("pts"%string, us_pts st); ("qts"%string, us_qts st); ("date"%string, us_date st); ("seq"%string, us_seq st)].

Definition set_one_state (st : update_state) : io unit :=
  match patch_of st with
  | [] => Ret tt
  | patch => write (UpdateOne "mtproto_state" (by_id (_ustate (us_id st))) ["$set" ~> BDoc patch] true)
  end.
Definition set_update_state (states : list update_state) : io unit := for_each states set_one_state.

Definition delete_update_state (ids : list Z) : io unit :=
  write (DeleteMany "mtproto_state" ["_id" ~> BDoc ["$in" ~> BArr (map (fun i => BStr (_ustate i)) ids)]]).
End storage.

(** * The session the documents hold *)
Record peer := Peer {
  access_hash : option bson; peer_type : option bson; phone_number : option bson;
  usernames : option bson; updated_on : option bson
}.

Record session := Session {
  scalars : string -> option bson;
  peers : Z -> option peer;
  states : Z -> option update_state
}.

Definition set_at {K V} `{EqDecision K} (k : K) (v : V) (f : K -> V) : K -> V := fun k' => if decide (k' = k) then v else f k'.

(** What each operation means. *)
Inductive store_op : Type :=
  | GetScalar (name : string)
  | SetScalar (name : string) (v : bson)
  | UpdatePeers (ps : list (Z * Z * string * option string))
  | UpdateUsernames (us : list (Z * list (option string)))
  | SetStates (sts : list update_state)
  | DeleteStates (ids : list Z)
  | Delete
  | PeerById (id : Z)
  | PeerByUsername (name : string)
  | PeerByPhone (number : string)
  | GetStates (ids : option (list Z)).

(** What an operation returns. *)
Inductive reply : Type := Value (v : bson) | Found (sts : list update_state).

Definition put_peer (now : Z) (s : session) (p : Z * Z * string * option string) : session :=
  let '(id, hash, type, phone) := p in
  let names := match peers s id with Some p => usernames p | None => Some (BArr []) end in
  Session (scalars s)
    (set_at id (Some (Peer (Some (BInt hash)) (Some (BStr type)) (Some (boptstr phone)) names (Some (BInt now)))) (peers s))
    (states s).

Definition put_names (now : Z) (s : session) (n : Z * list (option string)) : session :=
  let names := Some (BArr (map BStr (omap id n.2))) in
  let old f := peers s n.1 ≫= f in
  Session (scalars s)
    (set_at n.1 (Some (Peer (old access_hash) (old peer_type) (old phone_number) names (Some (BInt now)))) (peers s))
    (states s).

(** A field that is not there keeps its stored value. *)
Definition put_state (s : session) (st : update_state) : session :=
  match us_pts st, us_qts st, us_date st, us_seq st with
  | None, None, None, None => s
  | pts, qts, date, seq =>
      let merge new (old : update_state -> option Z) := match new with Some v => Some v | None => states s (us_id st) ≫= old end in
      Session (scalars s) (peers s)
        (set_at (us_id st) (Some (UpdateState (us_id st) (merge pts us_pts) (merge qts us_qts) (merge date us_date)
           (merge seq us_seq))) (states s))
  end.

Definition meaning (op : store_op) (now : Z) (s : session) : session :=
  match op with
  | GetScalar _ | PeerById _ | PeerByUsername _ | PeerByPhone _ | GetStates _ => s
  | SetScalar name v => Session (set_at name (Some v) (scalars s)) (peers s) (states s)
  | UpdatePeers ps => fold_left (put_peer now) ps s
  | UpdateUsernames us => fold_left (put_names now) us s
  | SetStates sts => fold_left put_state sts s
  | DeleteStates ids => Session (scalars s) (peers s) (fold_right (fun id => set_at id None) (states s) ids)
  | Delete => Session (fun _ => None) (fun _ => None) (fun _ => None)
  end.

(** * Keys read back *)
Lemma u_append a b : u (a ++ b)%string = u a ++ u b.
Proof. induction a as [|c a IH]; [done|]. exact (f_equal (cons _) IH). Qed.

Lemma after_last_spec sep a b :
  Forall (fun c => (c =? sep) = false) b -> after_last sep (a ++ sep :: b) = b.
Proof.
  intros Hb. unfold after_last. rewrite rev_app_distr. cbn [rev]. rewrite <- app_assoc. cbn [app].
  assert (forall b', Forall (fun c => (c =? sep) = false) b' ->
    take_while (fun c => negb (c =? sep)) (b' ++ sep :: rev a) = b') as H.
  { induction 1 as [|c b' Hc _ IH]; cbn [app take_while]; [by rewrite Z.eqb_refl|]. rewrite Hc. simpl. by f_equal. }
  rewrite H by (by apply Forall_rev). apply rev_involutive.
Qed.

(** The id in a document's key is the one it was stored under, for update
    states and for peers, whatever colons the namespace has. *)
Lemma key_roundtrip {U : UCD} (ns : string) (i : Z) :
  py_int (after_last c_colon (u (_ustate ns i))) = Some i /\
  py_int (after_last c_colon (u (_peer ns i))) = Some i.
Proof.
  assert (u (id_str i) = str_int i) as Hu.
  { apply u_s_of. eapply Forall_impl; [apply str_int_chars|]. cbn beta. unfold c_minus, ch. simpl. lia. }
  assert (Forall (fun c => (c =? c_colon) = false) (str_int i)) as Hc.
  { eapply Forall_impl; [apply str_int_chars|]. cbn beta.
    change c_minus with 45. change c_colon with 58. intros c Hch. apply Z.eqb_neq. lia. }
  unfold _ustate, _peer. rewrite !u_append, Hu. split.
  - change (u ":ustate:") with (u ":ustate" ++ [c_colon]). rewrite <- app_assoc, app_assoc. cbn [app].
    rewrite after_last_spec by done. apply py_int_str_int.
  - change (u ":peer:") with (u ":peer" ++ [c_colon]). rewrite <- app_assoc, app_assoc. cbn [app].
    rewrite after_last_spec by done. apply py_int_str_int.
Qed.

(** * What an anchored pattern matches

    [matched_text re]: the text [re] stands for, when it has no operator: characters
    without a meaning of their own, and others behind a backslash.  [anchored]:
    the prefix a pattern asks for. *)
Definition re_meta : ustr := u ".^$*+?()[]{}\|".
Definition alphanumeric (c : Z) : bool :=
  ascii_lower_letter c || ascii_upper_letter c || ((48 <=? c) && (c <=? 57)).

Fixpoint matched_text (re : ustr) : option ustr :=
  match re with
  | [] => Some []
  | c :: rest =>
      if c =? 92 then
        match rest with
        | d :: rest => if alphanumeric d then None else cons d <$> matched_text rest
        | [] => None
        end
      else if existsb (Z.eqb c) re_meta then None else cons c <$> matched_text rest
  end.

Definition anchored (re : string) : option string :=
  match u re with
  | 94 :: rest => s_of <$> matched_text rest
  | _ => None
  end.

Lemma escape_matches s r : matched_text (re_escape s ++ r) = app s <$> matched_text r.
Proof.
  unfold re_escape. induction s as [|c s IH]; cbn [flat_map app]; [by destruct (matched_text r)|].
  rewrite <- app_assoc. destruct (existsb (Z.eqb c) re_special) eqn:Hc; cbn [app].
  - cbn [matched_text]. rewrite Z.eqb_refl.
    assert (alphanumeric c = false) as ->.
    { apply existsb_exists in Hc as (x & Hx & ->%Z.eqb_eq). revert x Hx. apply List.Forall_forall. vm_compute. repeat constructor. }
    fold (re_escape s). unfold re_escape. rewrite IH. by destruct (matched_text r).
  - cbn [matched_text].
    assert (forall x, In x (92 :: re_meta) -> c <> x) as Hne.
    { intros x Hx ->. rewrite <- not_true_iff_false in Hc. apply Hc, existsb_exists. exists x. split; [|apply Z.eqb_refl].
      clear Hc IH.
      revert x Hx. apply List.Forall_forall. vm_compute. repeat (constructor; [by repeat (first [by left|right])|]). constructor. }
    destruct (Z.eqb_spec c 92) as [->|_]; [by destruct (Hne 92); [left|]|].
    replace (existsb (Z.eqb c) re_meta) with false; [rewrite IH; by destruct (matched_text r)|].
    symmetry. apply not_true_iff_false. intros (x & Hx & ->%Z.eqb_eq)%existsb_exists. by destruct (Hne x); [right|].
Qed.

Lemma u_bytes x : Forall (fun c => 0 <= c < 256) (u x).
Proof. induction x as [|c x IH]; constructor; [|exact IH]. pose proof (N_ascii_bounded c). lia. Qed.

Lemma anchored_prefix {U : UCD} (ns suffix : string) :
  matched_text (u suffix) = Some (u suffix) -> anchored ("^" ++ _ns_re ns ++ suffix) = Some (ns ++ suffix)%string.
Proof.
  intros Hs. unfold anchored, _ns_re. rewrite !u_append. change (u "^") with [94]. cbn [app].
  rewrite u_s_of, escape_matches, Hs; [cbn; by rewrite <- u_append, s_of_u|].
  unfold re_escape. apply Forall_flat_map. apply List.Forall_forall. intros c Hc.
  assert (0 <= c < 256) by (revert c Hc; apply List.Forall_forall, u_bytes).
  destruct (existsb _ _); repeat constructor; lia.
Qed.

Section refinement.
Context `{UCD} (ns : string).

(** The client library: how long a username lasts, in seconds, and the input
    peer it makes of an id, an access hash and a type, or the error it raises. *)
Context (USERNAME_TTL : Z) (input_peer_of : Z -> bson -> bson -> result bson).
Definition get_input_peer_call (id : Z) (hash type : bson) : io bson := of_result (input_peer_of id hash type).

Definition as_value (p : io bson) : io reply := v <- p ;; Ret (Value v).

Definition store_run (op : store_op) : io reply :=
  match op with
  | GetScalar name => as_value (_accessor ns name None)
  | SetScalar name v => as_value (_accessor ns name (Some v))
  | UpdatePeers ps => update_peers ns ps ;;; Ret (Value BNull)
  | UpdateUsernames us => update_usernames ns us ;;; Ret (Value BNull)
  | SetStates sts => set_update_state ns sts ;;; Ret (Value BNull)
  | DeleteStates ids => delete_update_state ns ids ;;; Ret (Value BNull)
  | Delete => delete ns ;;; Ret (Value BNull)
  | PeerById id => as_value (get_peer_by_id ns get_input_peer_call id)
  | PeerByUsername name => as_value (get_peer_by_username ns USERNAME_TTL get_input_peer_call name)
  | PeerByPhone number => as_value (get_peer_by_phone_number ns get_input_peer_call number)
  | GetStates ids => sts <- get_update_states ns ids ;; Ret (Found sts)
  end.

(** The value of a field, or an element of the list it holds. *)
Definition carries (v : bson) (f : option bson) : Prop :=
  f = Some v \/ exists l, f = Some (BArr l) /\ In v l.

(** What a peer that was found is answered as. *)
Definition peer_answer (id : Z) (p : peer) : result reply :=
  match access_hash p, peer_type p with
  | Some hash, Some type => match input_peer_of id hash type with Ok v => Ok (Value v) | Err e => Err e end
  | Some _, None => Err (KeyError "type")
  | None, _ => Err (KeyError "access_hash")
  end.

Definition stamp (p : peer) : Z := match updated_on p with Some (BInt z) => z | _ => 0 end.

(** One peer with the property, or none. *)
Definition picked (s : session) (has : peer -> Prop) (missing : exn) (chosen : Z -> peer -> result reply -> Prop)
    (r : result reply) : Prop :=
  (r = Err missing /\ forall id p, peers s id = Some p -> ~ has p) \/
  exists id p, peers s id = Some p /\ has p /\ chosen id p r.

(** The oldest first, those without a date before them. *)
Definition older (a b : update_state) : Prop :=
  match us_date a, us_date b with Some x, Some y => x <= y | Some _, None => False | None, _ => True end.

(** What [store_run] answers; [now] is the clock, in microseconds. *)
Definition answers (op : store_op) (now : Z) (s : session) (r : result reply) : Prop :=
  match op with
  | GetScalar name => r = Ok (Value (default BNull (scalars s name)))
  | PeerById id =>
      r = match peers s id with Some p => peer_answer id p | None => Err (KeyError "ID not found") end
  | PeerByUsername name =>
      picked s (fun p => carries (BStr name) (usernames p)) (KeyError "Username not found")
        (fun id p r =>
           (forall id' p', peers s id' = Some p' -> carries (BStr name) (usernames p') -> stamp p' <= stamp p) /\
           r = if Z.abs (now - stamp p * 1000000) >? USERNAME_TTL * 1000000 then Err (KeyError "Username expired")
               else peer_answer id p) r
  | PeerByPhone number =>
      picked s (fun p => carries (BStr number) (phone_number p)) (KeyError "Phone number not found")
        (fun id p r => r = peer_answer id p) r
  | GetStates ids =>
      exists sts, r = Ok (Found sts) /\ NoDup (map us_id sts) /\ StronglySorted older sts /\
        forall st, In st sts <-> states s (us_id st) = Some st /\ match ids with Some ids => In (us_id st) ids | None => True end
  | _ => r = Ok (Value BNull)
  end.

(** The documents of a collection by key; a document's fields but its key. *)
Abbreviation collection := (gmap string doc).

Definition peer_of (d : doc) : peer :=
  Peer (dget "access_hash" d) (dget "type" d) (dget "phone_number" d) (dget "usernames" d) (dget "updated_on" d).
Definition ustate_of (id : Z) (d : doc) : update_state :=
  UpdateState id (bint_of (dget "pts" d)) (bint_of (dget "qts" d)) (bint_of (dget "date" d)) (bint_of (dget "seq" d)).

Definition starts (p key : string) : Prop := String.prefix p key = true.
#[global] Instance starts_dec p key : Decision (starts p key).
Proof. unfold starts. apply _. Defined.

(** A time field holds a number, a date field a number or nothing. *)
Definition timed (d : doc) : Prop := match dget "updated_on" d with Some (BInt _) => True | _ => False end.
Definition dated (d : doc) : Prop := match dget "date" d with Some (BInt _) | None => True | _ => False end.

(** The documents represent the session, and under its keys for peers and
    states are no others. *)
Record reps (c : collection) (s : session) : Prop := Reps {
  reps_scalars : forall name, dget "value" <$> c !! _kv ns name = Some <$> scalars s name;
  reps_peers : forall id, peer_of <$> c !! _peer ns id = peers s id;
  reps_states : forall id, ustate_of id <$> c !! _ustate ns id = states s id;
  reps_timed : forall key d, c !! key = Some d -> starts (ns ++ ":peer:") key -> (exists id, key = _peer ns id) /\ timed d;
  reps_dated : forall key d, c !! key = Some d -> starts (ns ++ ":ustate:") key -> (exists id, key = _ustate ns id) /\ dated d
}.

(** MongoDB on one collection, as its manual describes the commands used, when
    none of them fails: [find_one] by key, and by a pattern of the key and the
    value of a field, the greatest first when sorted; [find] by a pattern of the
    key, and a list of keys, in the order of the date; [replace_one] and
    [update_one] with [upsert] by key; [delete_many] by a list of keys and by a
    pattern of the key.  Of patterns only the anchored ones are described. *)
Definition operator (name : string) (update : doc) : doc :=
  match dget name update with Some (BDoc d) => d | _ => [] end.
Definition updated (update : doc) (old : option doc) (k : string) : option bson :=
  match dget k (operator "$set" update) with
  | Some v => Some v
  | None => dget k (default (operator "$setOnInsert" update) old)
  end.

(** The document as it is answered, with its key. *)
Definition shown (key : string) (d0 d : doc) : Prop :=
  dget "_id" d = Some (BStr key) /\ forall k, k <> "_id"%string -> dget k d = dget k d0.

Definition pattern (re : string) (more : doc) : bson := BDoc (("$regex" ~> BStr re) :: more).

(** Numbers in their order, and a missing field before them. *)
Definition in_order (a b : option bson) : Prop :=
  match a, b with Some (BInt x), Some (BInt y) => x <= y | Some (BInt _), None => False | _, _ => True end.

Record mongo {W : Type} (env : forall X, eff X -> W -> result X * W) (docs : W -> collection) : Prop := {
  m_find id w : exists r, env _ (FindOne "mtproto_state" (by_id id) []) w = (Ok r, w) /\
    match docs w !! id with Some d0 => exists d, r = Some d /\ shown id d0 d | None => r = None end;
  m_find_where re p f v sort w : anchored re = Some p -> f <> "_id"%string -> sort = [] \/ sort = [("updated_on"%string, -1)] ->
    exists r, env _ (FindOne "mtproto_state" ["_id" ~> pattern re []; f ~> BStr v] sort) w = (Ok r, w) /\
    match r with
    | None => forall key d, docs w !! key = Some d -> starts p key -> ~ carries (BStr v) (dget f d)
    | Some d => exists key d0, docs w !! key = Some d0 /\ shown key d0 d /\ starts p key /\ carries (BStr v) (dget f d0) /\
        forall key' d', sort <> [] -> docs w !! key' = Some d' -> starts p key' -> carries (BStr v) (dget f d') ->
          in_order (dget "updated_on" d') (dget "updated_on" d0)
    end;
  m_find_all re p ids w : anchored re = Some p ->
    exists ds keys,
      env _ (Find "mtproto_state" ["_id" ~> pattern re (match ids with Some ids => ["$in" ~> BArr (map BStr ids)] | None => [] end)]
               [("date"%string, 1)] 0 None) w = (Ok ds, w) /\
      Forall2 (fun key d => exists d0, docs w !! key = Some d0 /\ shown key d0 d) keys ds /\ NoDup keys /\
      (forall key, In key keys <-> is_Some (docs w !! key) /\ starts p key /\ match ids with Some ids => In key ids | None => True end) /\
      StronglySorted (fun d d' => in_order (dget "date" d) (dget "date" d')) ds;
  m_replace id d w : let r := env _ (ReplaceOne "mtproto_state" (by_id id) d true) w in
    (exists a, r.1 = Ok a) /\ exists d', docs r.2 = <[id := d']> (docs w) /\ forall k, k <> "_id"%string -> dget k d' = dget k d;
  m_update id up w : let r := env _ (UpdateOne "mtproto_state" (by_id id) up true) w in
    (exists a, r.1 = Ok a) /\ exists d, docs r.2 = <[id := d]> (docs w) /\ forall k, k <> "_id"%string -> dget k d = updated up (docs w !! id) k;
  m_delete ids w : let r := env _ (DeleteMany "mtproto_state" ["_id" ~> BDoc ["$in" ~> BArr (map BStr ids)]]) w in
    (exists a, r.1 = Ok a) /\ forall id, docs r.2 !! id = if decide (id ∈ ids) then None else docs w !! id;
  m_delete_prefix re p w : anchored re = Some p ->
    let r := env _ (DeleteMany "mtproto_state" ["_id" ~> pattern re []]) w in
    (exists a, r.1 = Ok a) /\ forall id, docs r.2 !! id = if decide (starts p id) then None else docs w !! id;
  m_clock w : exists now, env _ UtcNow w = (Ok now, w)
}.

(** * The keys of a session are its own *)
Lemma id_str_inj i j : id_str i = id_str j -> i = j.
Proof.
  assert (forall z, u (id_str z) = str_int z) as Hu.
  { intros z. apply u_s_of. eapply Forall_impl; [apply str_int_chars|]. cbn beta. unfold c_minus, ch. simpl. lia. }
  intros Heq. apply (f_equal u) in Heq. rewrite !Hu in Heq. apply (f_equal py_int) in Heq. rewrite !py_int_str_int in Heq.
  by injection Heq.
Qed.

Lemma kv_inj a b : _kv ns a = _kv ns b -> a = b.
Proof. intros H0%append_inj. by injection H0. Qed.
Lemma peer_inj i j : _peer ns i = _peer ns j -> i = j.
Proof. intros H0%append_inj. injection H0 as H0. by apply id_str_inj. Qed.
Lemma ustate_inj i j : _ustate ns i = _ustate ns j -> i = j.
Proof. intros H0%append_inj. injection H0 as H0. by apply id_str_inj. Qed.
Lemma kv_peer a i : _kv ns a <> _peer ns i.
Proof. intros H0%append_inj. discriminate H0. Qed.
Lemma kv_ustate a i : _kv ns a <> _ustate ns i.
Proof. intros H0%append_inj. discriminate H0. Qed.
Lemma peer_ustate i j : _peer ns i <> _ustate ns j.
Proof. intros H0%append_inj. discriminate H0. Qed.

Ltac keys := repeat first
  [ rewrite lookup_insert_ne by (first [apply kv_peer | apply kv_ustate | apply peer_ustate | apply not_eq_sym; first [apply kv_peer | apply kv_ustate | apply peer_ustate]])
  | done ].

(** Which keys are under which prefix. *)
Lemma starts_app p x : starts p (p ++ x).
Proof. apply prefix_append. Qed.

Lemma starts_inv p key : starts p key -> exists x, key = (p ++ x)%string.
Proof.
  unfold starts. revert key. induction p as [|c p IH]; intros key; [by exists key|]. destruct key as [|d key]; simpl; [done|].
  destruct (ascii_dec c d) as [->|]; [|done]. intros Hp. destruct (IH key Hp) as [x ->]. by exists x.
Qed.

Lemma peer_starts id : starts (ns ++ ":peer:") (_peer ns id).
Proof.
  unfold _peer. change (":peer:" ++ id_str id)%string with ((":peer:" ++ id_str id)%string). rewrite append_assoc. apply starts_app.
Qed.
Lemma ustate_starts id : starts (ns ++ ":ustate:") (_ustate ns id).
Proof. unfold _ustate. rewrite append_assoc. apply starts_app. Qed.

Lemma starts_other p q x : (forall y z, (p ++ y)%string <> (q ++ z)%string) -> ~ starts (ns ++ p) (ns ++ (q ++ x)).
Proof. intros Hne (y & Hy)%starts_inv. rewrite <- append_assoc in Hy. apply append_inj in Hy. by destruct (Hne y x). Qed.

Lemma kv_not_peer name : ~ starts (ns ++ ":peer:") (_kv ns name).
Proof. apply (starts_other ":peer:" ":kv:"). discriminate. Qed.
Lemma kv_not_ustate name : ~ starts (ns ++ ":ustate:") (_kv ns name).
Proof. apply (starts_other ":ustate:" ":kv:"). discriminate. Qed.
Lemma ustate_not_peer id : ~ starts (ns ++ ":peer:") (_ustate ns id).
Proof. apply (starts_other ":peer:" ":ustate:"). discriminate. Qed.
Lemma peer_not_ustate id : ~ starts (ns ++ ":ustate:") (_peer ns id).
Proof. apply (starts_other ":ustate:" ":peer:"). discriminate. Qed.

Lemma insert_keeps (P : string -> doc -> Prop) p (c : collection) key d :
  (forall key' d', c !! key' = Some d' -> starts p key' -> P key' d') -> (starts p key -> P key d) ->
  forall key' d', <[key := d]> c !! key' = Some d' -> starts p key' -> P key' d'.
Proof. intros Hc Hk key' d' [[<- <-]|[_ Hd]]%lookup_insert_Some; [done|by apply Hc]. Qed.

Lemma reps_kv c s name d v :
  reps c s -> dget "value" d = Some v ->
  reps (<[_kv ns name := d]> c) (Session (set_at name (Some v) (scalars s)) (peers s) (states s)).
Proof.
  intros [Hk Hp Hs Ht Hd0] Hd. split; simpl; [intros name'|intros id; keys..| |].
  - unfold set_at. destruct (decide (name' = name)) as [->|Hne]; [by rewrite lookup_insert_eq; simpl; rewrite Hd|].
    rewrite lookup_insert_ne; [done|]. by intros ->%kv_inj.
  - apply insert_keeps; [exact Ht|]. by intros ?%kv_not_peer.
  - apply insert_keeps; [exact Hd0|]. by intros ?%kv_not_ustate.
Qed.

Lemma reps_peer c s id d :
  reps c s -> timed d -> reps (<[_peer ns id := d]> c) (Session (scalars s) (set_at id (Some (peer_of d)) (peers s)) (states s)).
Proof.
  intros [Hk Hp Hs Ht Hd0] Hd. split; simpl; [intros name; keys|intros id'|intros id'; keys| |].
  - unfold set_at. destruct (decide (id' = id)) as [->|Hne]; [by rewrite lookup_insert_eq|].
    rewrite lookup_insert_ne; [done|]. by intros ->%peer_inj.
  - apply insert_keeps; [exact Ht|eauto].
  - apply insert_keeps; [exact Hd0|]. by intros ?%peer_not_ustate.
Qed.

Lemma reps_ustate c s id d :
  reps c s -> dated d ->
  reps (<[_ustate ns id := d]> c) (Session (scalars s) (peers s) (set_at id (Some (ustate_of id d)) (states s))).
Proof.
  intros [Hk Hp Hs Ht Hd0] Hd. split; simpl; [intros name; keys|intros id'; keys|intros id'| |].
  - unfold set_at. destruct (decide (id' = id)) as [->|Hne]; [by rewrite lookup_insert_eq|].
    rewrite lookup_insert_ne; [done|]. by intros ->%ustate_inj.
  - apply insert_keeps; [exact Ht|]. by intros ?%ustate_not_peer.
  - apply insert_keeps; [exact Hd0|eauto].
Qed.

Section runs.
Context {W : Type} (env : forall X, eff X -> W -> result X * W) (docs : W -> collection) (Hm : mongo env docs).

Lemma write_returns {X} (ev : eff X) w a : (env X ev w).1 = Ok a -> returns env (write ev) w tt (env X ev w).2.
Proof.
  intros Ha. destruct (env X ev w) as [r w'] eqn:He. simpl in Ha. subst r. unfold write, _retry_write. cbn [retry_loop _MAX_WRITE_RETRIES].
  eapply returns_bind; [|apply returns_ret].
  eapply returns_bind; [apply returns_attempt; eapply returns_bind; [by apply returns_call|apply returns_ret]|]. apply returns_ret.
Qed.

(** [p] takes the represented session [s] to [s']. *)
Definition takes (p : io unit) (s s' : session) : Prop :=
  forall w, reps (docs w) s -> exists w', returns env p w tt w' /\ reps (docs w') s'.

Lemma takes_each {A} (f : session -> A -> session) (body : A -> io unit) (xs : list A) :
  (forall x s, takes (body x) s (f s x)) -> forall s, takes (for_each xs body) s (fold_left f xs s).
Proof.
  intros Hb. induction xs as [|x xs IH]; intros s w Hs; [exists w; split; [apply returns_ret|done]|].
  destruct (Hb x s w Hs) as (w1 & H1 & Hs1). destruct (IH (f s x) w1 Hs1) as (w2 & H2 & Hs2).
  exists w2. split; [|done]. cbn [for_each]. eapply returns_bind; [exact H1|exact H2].
Qed.

Lemma takes_peer now p s : takes (update_peer ns now p) s (put_peer now s p).
Proof.
  destruct p as [[[id hash] type] phone]. intros w Hs. unfold update_peer.
  match goal with |- context [UpdateOne _ _ ?x _] => set (up := x) end. destruct (m_update _ _ Hm (_peer ns id) up w) as ([a Ha] & d & Hd & Hk).
  eexists. split; [eapply write_returns, Ha|]. rewrite Hd.
  assert (peer_of d = Peer (Some (BInt hash)) (Some (BStr type)) (Some (boptstr phone))
    (match peers s id with Some p => usernames p | None => Some (BArr []) end) (Some (BInt now))) as Hp.
  { unfold peer_of. rewrite !Hk by done. subst up. cbn. f_equal. rewrite <- (reps_peers _ _ Hs id).
    by destruct (docs w !! _peer ns id). }
  unfold put_peer. rewrite <- Hp. apply reps_peer; [done|]. unfold timed. rewrite Hk by done. by subst up.
Qed.

Lemma takes_names now n s : takes (update_username ns now n) s (put_names now s n).
Proof.
  intros w Hs. unfold update_username.
  match goal with |- context [UpdateOne _ _ ?x _] => set (up := x) end. destruct (m_update _ _ Hm (_peer ns n.1) up w) as ([a Ha] & d & Hd & Hk).
  eexists. split; [eapply write_returns, Ha|]. rewrite Hd.
  unfold put_names. cbv zeta.
  match goal with |- reps _ (Session _ (set_at _ (Some ?p) _) _) => assert (peer_of d = p) as <- end;
    [|apply reps_peer; [done|]; unfold timed; rewrite Hk by done; by subst up].
  unfold peer_of. rewrite !Hk by done. subst up. cbn. rewrite <- (reps_peers _ _ Hs n.1).
  by destruct (docs w !! _peer ns n.1).
Qed.
Lemma takes_state st s : takes (set_one_state ns st) s (put_state s st).
Proof.
  intros w Hs. unfold set_one_state, put_state, patch_of.
  pose proof (reps_states _ _ Hs (us_id st)) as Hold. pose proof (reps_dated _ _ Hs (_ustate ns (us_id st))) as Hdated.
  destruct (us_pts st) as [pts|], (us_qts st) as [qts|], (us_date st) as [date|], (us_seq st) as [seq|];
    cbn [omap list_omap fst snd fmap option_fmap option_map];
    try (exists w; split; [apply returns_ret|exact Hs]);
    match goal with |- context [UpdateOne _ _ ?x _] => set (up := x) end;
    destruct (m_update _ _ Hm (_ustate ns (us_id st)) up w) as ([a Ha] & d & Hd & Hk);
    (eexists; split; [eapply write_returns, Ha|]); rewrite Hd; cbv zeta;
    match goal with |- reps _ (Session _ _ (set_at _ (Some ?q) _)) => assert (ustate_of (us_id st) d = q) as <- end;
    try (apply reps_ustate; [done|]; unfold dated; rewrite Hk by done; subst up; cbn;
         first [done|destruct (docs w !! _ustate ns (us_id st)) as [d0|];
                [by apply (Hdated d0 eq_refl), ustate_starts|done]]);
    unfold ustate_of; rewrite !Hk by done; subst up; cbn; rewrite <- ?Hold; by destruct (docs w !! _ustate ns (us_id st)).
Qed.

Lemma takes_delete_states ids s :
  takes (delete_update_state ns ids) s (meaning (DeleteStates ids) 0 s).
Proof.
  intros w [Hk Hp Hs Htm Hdt]. unfold delete_update_state.
  replace (map (fun i => BStr (_ustate ns i)) ids) with (map BStr (map (_ustate ns) ids)) by apply map_map.
  destruct (m_delete _ _ Hm (map (_ustate ns) ids) w) as ([a Ha] & Hd).
  eexists. split; [eapply write_returns, Ha|].
  assert (forall id, id ∈ map (_ustate ns) ids <-> exists i, id = _ustate ns i /\ i ∈ ids) as Hin.
  { intros id. rewrite list_elem_of_In, in_map_iff. setoid_rewrite list_elem_of_In.
    split; intros (i & H1 & H2); exists i; auto. }
  assert (forall id : Z, fold_right (fun id : Z => set_at id None) (states s) ids id = if decide (id ∈ ids) then None else states s id) as Hfold.
  { intros id. clear. induction ids as [|i ids IH]; simpl; [done|]. unfold set_at at 1. destruct (decide (id = i)) as [->|Hne].
    - rewrite decide_True; [done|]. left.
    - rewrite IH. destruct (decide (id ∈ ids)); [rewrite decide_True; [done|by right]|].
      rewrite decide_False; [done|]. by intros [->|?]%elem_of_cons. }
  split; simpl.
  - intros name. rewrite Hd, decide_False; [done|]. intros (i & Heq & _)%Hin. by apply kv_ustate in Heq.
  - intros id. rewrite Hd, decide_False; [done|]. intros (i & Heq & _)%Hin. by apply peer_ustate in Heq.
  - intros id. rewrite Hd, Hfold. destruct (decide (id ∈ ids)) as [Hi|Hi].
    + rewrite decide_True; [done|]. apply Hin. eauto.
    + rewrite decide_False; [done|]. intros (i & Heq & Hi')%Hin. by apply ustate_inj in Heq as ->.
  - intros key d. rewrite Hd. case_decide; [done|]. apply Htm.
  - intros key d. rewrite Hd. case_decide; [done|]. apply Hdt.
Qed.

Lemma own_pattern suffix :
  matched_text (u suffix) = Some (u suffix) -> id_prefix ns suffix = pattern ("^" ++ _ns_re ns ++ suffix) [] /\
  anchored ("^" ++ _ns_re ns ++ suffix) = Some (ns ++ suffix)%string.
Proof. intros Hs. split; [done|]. by apply anchored_prefix. Qed.

Lemma takes_delete s : takes (delete ns) s (meaning Delete 0 s).
Proof.
  intros w _. unfold delete. destruct (own_pattern ":" eq_refl) as [-> Hp].
  destruct (m_delete_prefix _ _ Hm _ _ w Hp) as ([a Ha] & Hd).
  assert (forall x, starts (ns ++ ":") (ns ++ (":" ++ x))) as Hown by (intros x; rewrite append_assoc; apply starts_app).
  assert (forall x, docs (env Z (DeleteMany "mtproto_state" ["_id" ~> pattern ("^" ++ _ns_re ns ++ ":") []]) w).2
                      !! (ns ++ (":" ++ x))%string = None) as Hnone.
  { intros x. by rewrite Hd, decide_True by apply Hown. }
  eexists. split; [eapply write_returns, Ha|]. split; simpl.
  - intros k. by rewrite (Hnone ("kv:" ++ k)%string : docs _ !! _kv ns k = None).
  - intros k. by rewrite (Hnone ("peer:" ++ id_str k)%string : docs _ !! _peer ns k = None).
  - intros k. by rewrite (Hnone ("ustate:" ++ id_str k)%string : docs _ !! _ustate ns k = None).
  - intros key d Hkey (x & ->)%starts_inv. rewrite <- append_assoc in Hkey.
    by rewrite (Hnone ("peer:" ++ x)%string : docs _ !! (ns ++ (":peer:" ++ x))%string = None) in Hkey.
  - intros key d Hkey (x & ->)%starts_inv. rewrite <- append_assoc in Hkey.
    by rewrite (Hnone ("ustate:" ++ x)%string : docs _ !! (ns ++ (":ustate:" ++ x))%string = None) in Hkey.
Qed.

Lemma takes_scalar name v s : takes (_set_scalar ns name v) s (meaning (SetScalar name v) 0 s).
Proof.
  intros w Hs. unfold _set_scalar. destruct (m_replace _ _ Hm (_kv ns name) ["value" ~> v] w) as ([a Ha] & d & Hd & Hk).
  eexists. split; [eapply write_returns, Ha|]. rewrite Hd. apply reps_kv; [done|]. by rewrite Hk.
Qed.

Abbreviation runs := (ends env).

(** A lookup: it answers [Q] and leaves the documents alone. *)
Abbreviation looks p Q w := (runs p (fun r w' => Q r /\ w' = w) w).

Lemma looks_value (p : io bson) (Q : result reply -> Prop) w :
  looks p (fun r => Q (match r with Ok v => Ok (Value v) | Err e => Err e end)) w -> looks (as_value p) Q w.
Proof.
  intros Hp. unfold as_value. hoare_step. eapply hoare_mono; [exact Hp|]. intros [v|e] w' [Hq ->]; [by hoare_step|done].
Qed.

Lemma shown_id key d0 d : shown key d0 d -> dget_str "_id" d "" = key.
Proof. intros [Hid _]. unfold dget_str. by rewrite Hid. Qed.

Lemma get_looks name s w :
  reps (docs w) s -> looks (_get_scalar ns name) (fun r => r = Ok (default BNull (scalars s name))) w.
Proof.
  intros Hs. pose proof (reps_scalars _ _ Hs name) as Hk. unfold _get_scalar, db_call. hoare_step. hoare_step.
  destruct (m_find _ _ Hm (_kv ns name) w) as (r & -> & Hr). cbn.
  destruct (docs w !! _kv ns name) as [d0|].
  - destruct Hr as (d & -> & Hid & Hshow). destruct (scalars s name) as [v|]; [|discriminate Hk]. injection Hk as Hk.
    destruct d as [|kv d]; [discriminate Hid|]. unfold field. rewrite Hshow by done. rewrite Hk. by hoare_step.
  - subst r. destruct (scalars s name); [discriminate Hk|]. by hoare_step.
Qed.

(** The peer a document is answered as. *)
Lemma input_peer_looks id key d0 d w :
  shown key d0 d ->
  looks (input_peer get_input_peer_call id d)
    (fun r => match r with Ok v => Ok (Value v) | Err e => Err e end = peer_answer id (peer_of d0)) w.
Proof.
  intros [_ Hshow]. unfold input_peer, field, peer_answer, peer_of. rewrite !Hshow by done. cbn [access_hash peer_type].
  destruct (dget "access_hash" d0) as [hash|]; [|hoare_step; by hoare_step]. hoare_step. hoare_step.
  destruct (dget "type" d0) as [type|]; [|hoare_step; by hoare_step]. hoare_step. hoare_step.
  unfold get_input_peer_call. destruct (input_peer_of id hash type); by hoare_step.
Qed.

Lemma by_id_looks id s w :
  reps (docs w) s ->
  looks (as_value (get_peer_by_id ns get_input_peer_call id)) (answers (PeerById id) 0 s) w.
Proof.
  intros Hs. apply looks_value. pose proof (reps_peers _ _ Hs id) as Hp. unfold get_peer_by_id, db_call.
  hoare_step. hoare_step. destruct (m_find _ _ Hm (_peer ns id) w) as (r & -> & Hr). cbn. rewrite <- Hp.
  destruct (docs w !! _peer ns id) as [d0|]; [|subst r; by hoare_step].
  destruct Hr as (d & -> & Hshow). by apply (input_peer_looks id (_peer ns id)).
Qed.

(** A document found under the pattern of peers is a peer's. *)
Lemma peer_found s w key d0 d :
  reps (docs w) s -> docs w !! key = Some d0 -> starts (ns ++ ":peer:") key -> shown key d0 d ->
  exists id, key = _peer ns id /\ peers s id = Some (peer_of d0) /\ dget_int "updated_on" d 0 = stamp (peer_of d0) /\
    looks (peer_of_key get_input_peer_call d)
      (fun r => match r with Ok v => Ok (Value v) | Err e => Err e end = peer_answer id (peer_of d0)) w.
Proof.
  intros Hs Hkey Hst Hshow. destruct (reps_timed _ _ Hs key d0 Hkey Hst) as [[id ->] Htm]. exists id. split; [done|].
  split; [by rewrite <- (reps_peers _ _ Hs id), Hkey|]. split.
  - unfold dget_int, stamp, peer_of. rewrite (proj2 Hshow) by done. unfold timed in Htm. cbn.
    by destruct (dget "updated_on" d0) as [[]|].
  - unfold peer_of_key. rewrite (shown_id _ _ _ Hshow), (proj2 (key_roundtrip ns id)). by eapply input_peer_looks.
Qed.

Lemma none_found s w (has : string -> option bson) f v :
  reps (docs w) s ->
  (forall key d, docs w !! key = Some d -> starts (ns ++ ":peer:") key -> ~ carries v (dget f d)) ->
  forall id p, peers s id = Some p -> exists d, peer_of d = p /\ ~ carries v (dget f d).
Proof.
  intros Hs Hnone id p Hp. rewrite <- (reps_peers _ _ Hs id) in Hp. destruct (docs w !! _peer ns id) as [d|] eqn:Hd; [|done].
  injection Hp as <-. exists d. split; [done|]. apply (Hnone _ _ Hd), peer_starts.
Qed.

Lemma by_username_looks name now s w :
  reps (docs w) s -> env _ UtcNow w = (Ok now, w) ->
  looks (as_value (get_peer_by_username ns USERNAME_TTL get_input_peer_call name)) (answers (PeerByUsername name) now s) w.
Proof.
  intros Hs Hnow. apply looks_value. unfold get_peer_by_username, db_call, answers, picked.
  destruct (own_pattern ":peer:" eq_refl) as [-> Hp]. hoare_step. hoare_step.
  destruct (m_find_where _ _ Hm _ _ "usernames" name [("updated_on"%string, -1)] w Hp) as (r & -> & Hr); [done|by right|]. cbn.
  destruct r as [d|].
  2: { hoare_step. split; [|done]. left. split; [done|]. intros id p Hid.
       destruct (none_found s w (fun _ => None) "usernames" (BStr name) Hs Hr id p Hid) as (d & <- & Hn). exact Hn. }
  destruct Hr as (key & d0 & Hkey & Hshow & Hst & Hhas & Hmax).
  destruct (peer_found s w key d0 d Hs Hkey Hst Hshow) as (id & -> & Hid & Hstamp & Hlook).
  assert (forall id' p', peers s id' = Some p' -> carries (BStr name) (usernames p') -> stamp p' <= stamp (peer_of d0)) as Hnewest.
  { intros id' p' Hp' Hc. rewrite <- (reps_peers _ _ Hs id') in Hp'. destruct (docs w !! _peer ns id') as [d'|] eqn:Hd'; [|done].
    injection Hp' as <-. specialize (Hmax _ d' ltac:(done) Hd' (peer_starts id') Hc).
    pose proof (proj2 (reps_timed _ _ Hs _ _ Hd' (peer_starts id'))) as Ht'. pose proof (proj2 (reps_timed _ _ Hs _ _ Hkey Hst)) as Ht.
    unfold timed, stamp, peer_of in *. cbn. destruct (dget "updated_on" d') as [[]|], (dget "updated_on" d0) as [[]|]; done. }
  hoare_step. hoare_step. rewrite Hnow. cbn. rewrite Hstamp.
  destruct (Z.abs (now - stamp (peer_of d0) * 1000000) >? USERNAME_TTL * 1000000) eqn:Hold.
  - hoare_step. split; [|done]. right. exists id, (peer_of d0). by rewrite Hold.
  - eapply hoare_mono; [exact Hlook|]. intros r w' [Hr ->]. split; [|done]. right. exists id, (peer_of d0). by rewrite Hold.
Qed.

Lemma by_phone_looks number s w :
  reps (docs w) s ->
  looks (as_value (get_peer_by_phone_number ns get_input_peer_call number)) (answers (PeerByPhone number) 0 s) w.
Proof.
  intros Hs. apply looks_value. unfold get_peer_by_phone_number, db_call, answers, picked.
  destruct (own_pattern ":peer:" eq_refl) as [-> Hp]. hoare_step. hoare_step.
  destruct (m_find_where _ _ Hm _ _ "phone_number" number [] w Hp) as (r & -> & Hr); [done|by left|]. cbn. destruct r as [d|].
  2: { hoare_step. split; [|done]. left. split; [done|]. intros id p Hid.
       destruct (none_found s w (fun _ => None) "phone_number" (BStr number) Hs Hr id p Hid) as (d & <- & Hn). exact Hn. }
  destruct Hr as (key & d0 & Hkey & Hshow & Hst & Hhas & _).
  destruct (peer_found s w key d0 d Hs Hkey Hst Hshow) as (id & -> & Hid & _ & Hlook).
  eapply hoare_mono; [exact Hlook|]. intros r w' [Hr ->]. split; [|done]. right. by exists id, (peer_of d0).
Qed.

(** What is read of the documents under the pattern of states. *)
Definition told (s : session) (key : string) (d : doc) (st : update_state) : Prop :=
  key = _ustate ns (us_id st) /\ states s (us_id st) = Some st /\ us_date st = bint_of (dget "date" d) /\ dated d.

Lemma states_read s w keys ds :
  reps (docs w) s -> Forall (starts (ns ++ ":ustate:")) keys ->
  Forall2 (fun key d => exists d0, docs w !! key = Some d0 /\ shown key d0 d) keys ds ->
  exists sts, looks (mapM_io state_of ds) (fun r => r = Ok sts) w /\
    Forall2 (fun kd st => told s kd.1 kd.2 st) (zip keys ds) sts.
Proof.
  intros Hs Hst Hall. revert Hst. induction Hall as [|key d keys ds (d0 & Hkey & Hshow) _ IH]; intros Hst.
  { exists []. split; [done|constructor]. }
  apply Forall_cons in Hst as [Hk Hst]. destruct (IH Hst) as (sts & Hrun & Hrest).
  destruct (reps_dated _ _ Hs key d0 Hkey Hk) as [[id ->] Hd].
  exists (ustate_of id d0 :: sts). split.
  - cbn [mapM_io]. hoare_step. unfold state_of. rewrite (shown_id _ _ _ Hshow), (proj1 (key_roundtrip ns id)).
    hoare_step. rewrite !(proj2 Hshow) by done. hoare_step. eapply hoare_mono; [exact Hrun|]. intros r w' [-> ->]. by hoare_step.
  - constructor; [|exact Hrest]. split; [done|]. split; [cbn; by rewrite <- (reps_states _ _ Hs id), Hkey|].
    unfold dated in *. rewrite (proj2 Hshow) by done. done.
Qed.

Lemma told_older s kd kd' st st' :
  told s kd.1 kd.2 st -> told s kd'.1 kd'.2 st' -> in_order (dget "date" kd.2) (dget "date" kd'.2) -> older st st'.
Proof.
  intros (_ & _ & Hd & Hk) (_ & _ & Hd' & Hk'). unfold older. rewrite Hd, Hd'. unfold dated in *.
  destruct (dget "date" kd.2) as [[]|], (dget "date" kd'.2) as [[]|]; done.
Qed.

Lemma sorted_older s keys ds sts :
  Forall2 (fun kd st => told s kd.1 kd.2 st) (zip keys ds) sts -> length keys = length ds ->
  StronglySorted (fun d d' => in_order (dget "date" d) (dget "date" d')) ds -> StronglySorted older sts.
Proof.
  revert ds sts. induction keys as [|key keys IH]; intros [|d ds] sts Hall Hlen Hso; try discriminate Hlen.
  { inversion Hall. constructor. }
  inversion Hall as [|? st ? sts' Hst Hrest]; subst. inversion Hso as [|? ? Hso' Hle]; subst.
  injection Hlen as Hlen. constructor; [by eapply IH|].
  clear IH Hso Hso' Hall. revert ds sts' Hrest Hlen Hle. induction keys as [|key' keys IH]; intros [|d' ds] sts Hrest Hlen Hle; try discriminate Hlen.
  { inversion Hrest. constructor. }
  inversion Hrest as [|? st' ? sts'' Hst' Hrest']; subst. inversion Hle as [|? ? Hd Hle']; subst. injection Hlen as Hlen.
  constructor; [by eapply told_older|by eapply IH].
Qed.

Lemma told_keys s keys ds sts :
  Forall2 (fun kd st => told s kd.1 kd.2 st) (zip keys ds) sts -> length keys = length ds ->
  keys = map (_ustate ns) (map us_id sts) /\ Forall (fun st => states s (us_id st) = Some st) sts.
Proof.
  revert ds sts. induction keys as [|key keys IH]; intros [|d ds] sts Hall Hlen; try discriminate Hlen.
  { inversion Hall. split; [done|constructor]. }
  inversion Hall as [|? st ? sts' (Hk & Hs & _) Hrest]; subst. injection Hlen as Hlen.
  destruct (IH ds sts' Hrest Hlen) as [Hkeys Hsts]. cbn in *. split; [by rewrite Hk, <- Hkeys|by constructor].
Qed.

(** The states of the given keys, or all of them. *)
Lemma read_looks s w sel :
  reps (docs w) s ->
  looks (found <- call (Find "mtproto_state"
           ["_id" ~> pattern ("^" ++ _ns_re ns ++ ":ustate:") (match option_map (map (_ustate ns)) sel with
                                                             | Some ids => ["$in" ~> BArr (map BStr ids)] | None => [] end)]
           [("date"%string, 1)] 0 None) ;; mapM_io state_of found)
    (fun r => exists sts, r = Ok sts /\ NoDup (map us_id sts) /\ StronglySorted older sts /\
       forall st, In st sts <-> states s (us_id st) = Some st /\ match sel with Some ids => In (us_id st) ids | None => True end) w.
Proof.
  intros Hs. destruct (own_pattern ":ustate:" eq_refl) as [_ Hp].
  destruct (m_find_all _ _ Hm _ _ (option_map (map (_ustate ns)) sel) w Hp) as (ds & keys & Hfind & Hall & Hnd & Hin & Hso).
  hoare_step. hoare_step. rewrite Hfind. cbn.
  assert (Forall (starts (ns ++ ":ustate:")) keys) as Hst.
  { apply List.Forall_forall. intros key Hk. by apply Hin in Hk as (_ & ? & _). }
  destruct (states_read s w keys ds Hs Hst Hall) as (sts & Hrun & Htold).
  eapply hoare_mono; [exact Hrun|]. intros r w' [-> ->]. split; [|done]. exists sts. split; [done|].
  pose proof (Forall2_length _ _ _ Hall) as Hlen. destruct (told_keys s keys ds sts Htold Hlen) as [Hkeys Hstates].
  split; [|split; [by eapply sorted_older|]].
  { rewrite Hkeys in Hnd. by apply (NoDup_fmap_1 (_ustate ns)) in Hnd. }
  intros st. split.
  - intros Hst'. rewrite List.Forall_forall in Hstates. split; [by apply Hstates|]. destruct sel as [ids|]; [|done].
    assert (In (_ustate ns (us_id st)) keys) as Hk by (rewrite Hkeys; by apply in_map, in_map).
    apply Hin in Hk as (_ & _ & Hk). cbn in Hk. apply in_map_iff in Hk as (i & Hi & Hk). apply ustate_inj in Hi. by subst.
  - intros [Hst' Hsel]. assert (In (_ustate ns (us_id st)) keys) as Hk.
    { apply Hin. split; [|split; [apply ustate_starts|]].
      - pose proof (reps_states _ _ Hs (us_id st)) as Hd. rewrite Hst' in Hd. by destruct (docs w !! _ustate ns (us_id st)).
      - destruct sel as [ids|]; [|done]. cbn. by apply in_map. }
    rewrite Hkeys, in_map_iff in Hk. destruct Hk as (i & Hi%ustate_inj & Hk). apply in_map_iff in Hk as (st' & <- & Hk).
    rewrite List.Forall_forall in Hstates. pose proof (Hstates st' Hk) as Hst2. rewrite Hi, Hst' in Hst2. by injection Hst2 as <-.
Qed.

Lemma states_looks ids s w :
  reps (docs w) s ->
  looks (sts <- get_update_states ns ids ;; Ret (Found sts)) (answers (GetStates ids) 0 s) w.
Proof.
  intros Hs. assert (forall sel p, p = (found <- call (Find "mtproto_state"
           ["_id" ~> pattern ("^" ++ _ns_re ns ++ ":ustate:") (match option_map (map (_ustate ns)) sel with
                                                             | Some ids => ["$in" ~> BArr (map BStr ids)] | None => [] end)]
           [("date"%string, 1)] 0 None) ;; mapM_io state_of found) -> looks (sts <- p ;; Ret (Found sts)) (answers (GetStates sel) 0 s) w) as Hread.
  { intros sel p ->. hoare_step. eapply hoare_mono; [by apply (read_looks s w sel)|].
    intros r w' [(sts & -> & H1) ->]. hoare_step. split; [|done]. by exists sts. }
  unfold get_update_states, db_call. destruct ids as [[|i ids]|].
  - hoare_step. hoare_step. hoare_step. split; [|done]. exists []. split; [done|]. split; [constructor|]. split; [constructor|].
    intros st. split; [intros []|intros [_ []]].
  - apply Hread. cbn [option_map map]. by rewrite map_map.
  - by apply Hread.
Qed.

(** An update: it returns, with documents for the new session. *)
Lemma takes_ends p s s' w :
  takes p s s' -> reps (docs w) s ->
  runs (p ;;; Ret (Value BNull)) (fun r w' => r = Ok (Value BNull) /\ reps (docs w') s') w.
Proof.
  intros Hp Hs. destruct (Hp w Hs) as (w' & Hr & Hs').
  assert (returns env (p ;;; Ret (Value BNull)) w (Value BNull) w') as [H1 H2] by (eapply returns_bind; [exact Hr|apply returns_ret]).
  unfold ends. by rewrite H1, H2.
Qed.

Lemma takes_clock (k : Z -> io unit) now s s' w :
  env _ UtcNow w = (Ok now, w) -> takes (k (now / 1000000)) s s' -> reps (docs w) s ->
  runs ((now <- seconds_now ;; k now) ;;; Ret (Value BNull)) (fun r w' => r = Ok (Value BNull) /\ reps (docs w') s') w.
Proof.
  intros Hnow Hk Hs. destruct (Hk w Hs) as (w' & Hr & Hs').
  assert (returns env seconds_now w (now / 1000000) w) as Hsec by (eapply returns_bind; [by apply returns_call|apply returns_ret]).
  assert (returns env ((now <- seconds_now ;; k now) ;;; Ret (Value BNull)) w (Value BNull) w') as [H1 H2].
  { eapply returns_bind; [eapply returns_bind; [exact Hsec|exact Hr]|apply returns_ret]. }
  unfold ends. by rewrite H1, H2.
Qed.
End runs.

(** C29: the storage is a session.  On a MongoDB that runs its commands as
    documented and refuses none, when the documents represent a session, every
    operation of the storage - the scalars, the updates of peers, usernames and
    update states, the lookups of a peer by id, username and phone number, the
    reading and deleting of states, and the deletion of it all - answers what it
    means on the session and leaves documents that represent the session it
    means to leave: a scalar written is the one read; peers keep the usernames
    and hashes an update does not name; a username finds the peer that carries
    it and was updated last, unless that is too long ago; an update state keeps
    the fields that are [None] in the new one; the states read are those of the
    ids asked for, the oldest first; and nothing is left under the namespace
    after a deletion, whatever characters it is made of.  A write refused with a
    write concern error for good is outside this: it is given up and only
    logged. *)
Theorem storage_refines {W : Type} (env : forall X, eff X -> W -> result X * W) (docs : W -> collection)
    (op : store_op) (w : W) (s : session) (Hmongo : mongo env docs) (Hreps : reps (docs w) s) :
  exists now, answers op now s (run_result env (store_run op) w) /\
    reps (docs (run_state env (store_run op) w)) (meaning op (now / 1000000) s).
Proof.
  destruct (m_clock _ _ Hmongo w) as [now Hnow]. exists now.
  enough (ends env (store_run op) (fun r w' => answers op now s r /\ reps (docs w') (meaning op (now / 1000000) s)) w) as H0 by exact H0.
  assert (forall p, ends env p (fun r w' => answers op now s r /\ w' = w) w -> meaning op (now / 1000000) s = s ->
    ends env p (fun r w' => answers op now s r /\ reps (docs w') (meaning op (now / 1000000) s)) w) as Hlooks.
  { intros p Hp ->. eapply hoare_mono; [exact Hp|]. by intros r w' [? ->]. }
  destruct op as [name|name v|ps|us|sts|ids| |id|name|number|ids]; cbn [store_run].
  - apply Hlooks; [|done]. apply looks_value. eapply hoare_mono; [by apply (get_looks env docs Hmongo)|]. by intros r w' [-> ->].
  - destruct (takes_scalar env docs Hmongo name v s w Hreps) as (w' & Hr & Hs).
    assert (returns env (as_value (_accessor ns name (Some v))) w (Value BNull) w') as [H1 H2].
    { eapply returns_bind; [eapply returns_bind; [exact Hr|apply returns_ret]|apply returns_ret]. }
    unfold ends. by rewrite H1, H2.
  - apply (takes_clock env docs (fun now => for_each ps (update_peer ns now)) now s); [done| |done].
    apply takes_each. apply (takes_peer env docs Hmongo).
  - apply (takes_clock env docs (fun now => for_each us (update_username ns now)) now s); [done| |done].
    apply takes_each. apply (takes_names env docs Hmongo).
  - apply (takes_ends env docs _ s); [|done]. apply takes_each. intros st s'. apply (takes_state env docs Hmongo).
  - apply (takes_ends env docs _ s); [|done]. apply (takes_delete_states env docs Hmongo).
  - apply (takes_ends env docs _ s); [|done]. apply (takes_delete env docs Hmongo).
  - apply Hlooks; [|done]. by apply (by_id_looks env docs Hmongo).
  - apply Hlooks; [|done]. by apply (by_username_looks env docs Hmongo).
  - apply Hlooks; [|done]. by apply (by_phone_looks env docs Hmongo).
  - apply Hlooks; [|done]. by apply (states_looks env docs Hmongo).
Qed.
End refinement.

(** * A concrete MongoDB *)
Definition merged (up : doc) (old : option doc) : doc :=
  operator "$set" up ++ default (operator "$setOnInsert" up) old.

Definition strings_of (l : list bson) : list string := omap bstr l.

Definition with_key (kd : string * doc) : doc := ("_id"%string, BStr kd.1) :: kd.2.

Definition carries_str (v : string) (f : option bson) : bool :=
  match f with
  | Some (BStr x) => String.eqb x v
  | Some (BArr l) => existsb (fun b => match b with BStr x => String.eqb x v | _ => false end) l
  | _ => false
  end.

(** Documents by a number field, those without it first; or the other way. *)
Definition number (f : string) (kd : string * doc) : option Z := dget f kd.2 ≫= bint.
Definition up_to (a b : option Z) : Prop :=
  match a, b with None, _ => True | Some x, Some y => x <= y | Some _, None => False end.
#[global] Instance up_to_dec a b : Decision (up_to a b).
Proof. destruct a, b; simpl; apply _. Defined.
Definition by_number (f : string) (x y : string * doc) : Prop := up_to (number f x) (number f y).
Definition by_number_down (f : string) (x y : string * doc) : Prop := up_to (number f y) (number f x).
#[global] Instance by_number_dec f x y : Decision (by_number f x y).
Proof. unfold by_number. apply _. Defined.
#[global] Instance by_number_down_dec f x y : Decision (by_number_down f x y).
Proof. unfold by_number_down. apply _. Defined.

Definition under (re : string) (cond : string * doc -> bool) (w : gmap string doc) : list (string * doc) :=
  match anchored re with
  | Some p => List.filter (fun kd => String.prefix p kd.1 && cond kd) (map_to_list w)
  | None => []
  end.

Definition mem_mongo (X : Type) (ev : eff X) (w : gmap string doc) : result X * gmap string doc :=
  match ev in eff X return result X * gmap string doc with
  | FindOne _ [("_id", BStr id)] _ => (Ok ((fun d => with_key (id, d)) <$> w !! id), w)
  | FindOne _ [("_id", BDoc [("$regex", BStr re)]); (f, BStr v)] _ =>
      (Ok (with_key <$> head (merge_sort (by_number_down "updated_on") (under re (fun kd => carries_str v (dget f kd.2)) w))), w)
  | Find _ [("_id", BDoc (("$regex", BStr re) :: more))] _ _ _ =>
      let cond := match more with
                  | [("$in", BArr l)] => fun kd : string * doc => existsb (String.eqb kd.1) (strings_of l)
                  | _ => fun _ => true
                  end in
      (Ok (map with_key (merge_sort (by_number "date") (under re cond w))), w)
  | ReplaceOne _ [("_id", BStr id)] d _ => (Ok (UpdateResult 1 1 false), <[id := d]> w)
  | UpdateOne _ [("_id", BStr id)] up _ => (Ok (UpdateResult 1 1 false), <[id := merged up (w !! id)]> w)
  | DeleteMany _ [("_id", BDoc [("$in", BArr l)])] => (Ok 1, filter (fun kv => kv.1 ∉ strings_of l) w)
  | DeleteMany _ [("_id", BDoc [("$regex", BStr re)])] =>
      match anchored re with
      | Some p => (Ok 1, filter (fun kv => ~ starts p kv.1) w)
      | None => (Ok 0, w)
      end
  | ev => (Ok (default_answer ev), w)
  end.

Lemma dget_app k a b : dget k (a ++ b) = match dget k a with Some v => Some v | None => dget k b end.
Proof. induction a as [|[k' v] a IH]; cbn [app dget]; [done|]. by destruct (String.eqb k k'). Qed.

Lemma strings_of_map ids : strings_of (map BStr ids) = ids.
Proof. unfold strings_of. induction ids as [|i ids IH]; [done|]. cbn. f_equal. exact IH. Qed.

Lemma lookup_if {A} (P : string * A -> Prop) `{forall x, Decision (P x)} (w : gmap string A) id :
  filter P w !! id = match w !! id with Some a => if decide (P (id, a)) then Some a else None | None => None end.
Proof.
  destruct (w !! id) as [a|] eqn:Hw; [|by apply map_lookup_filter_None; left].
  destruct (decide (P (id, a))); [by apply map_lookup_filter_Some|].
  apply map_lookup_filter_None. right. intros a' Ha. rewrite Hw in Ha. by injection Ha as <-.
Qed.

#[global] Instance by_number_order f : Transitive (by_number f).
Proof. intros x y z. unfold by_number. destruct (number f x), (number f y), (number f z); simpl; try done; lia. Qed.
#[global] Instance by_number_total f : Total (by_number f).
Proof. intros x y. unfold by_number. destruct (number f x), (number f y); simpl; try tauto; lia. Qed.
#[global] Instance by_number_down_order f : Transitive (by_number_down f).
Proof. intros x y z. unfold by_number_down. destruct (number f x), (number f y), (number f z); simpl; try done; lia. Qed.
#[global] Instance by_number_down_total f : Total (by_number_down f).
Proof. intros x y. unfold by_number_down. destruct (number f x), (number f y); simpl; try tauto; lia. Qed.

Lemma up_to_in_order (a b : option bson) : up_to (a ≫= bint) (b ≫= bint) -> in_order a b.
Proof. by destruct a as [[]|], b as [[]|]. Qed.

Lemma shown_with_key key d : shown key d (with_key (key, d)).
Proof. split; [done|]. intros k Hk. unfold with_key. cbn. by destruct (String.eqb_spec k "_id"). Qed.

Lemma carries_str_spec v f : carries_str v f = true <-> carries (BStr v) f.
Proof.
  unfold carries. destruct f as [b|]; [|split; [done|by intros [?|(? & ? & _)]]].
  destruct b; simpl; try (split; [done|intros [[=]|(? & [=] & _)]]).
  - rewrite String.eqb_eq. split; [intros ->; by left|by intros [[= ->]|(? & [=] & _)]].
  - rewrite existsb_exists. split.
    + intros (x & Hx & Hv). destruct x; try done. apply String.eqb_eq in Hv as ->. right. eauto.
    + intros [[=]|(l' & [= ->] & Hl)]. exists (BStr v). split; [done|apply String.eqb_refl].
Qed.

Lemma in_under re p cond w kd :
  anchored re = Some p -> In kd (under re cond w) <-> w !! kd.1 = Some kd.2 /\ starts p kd.1 /\ cond kd = true.
Proof.
  intros Hp. unfold under, starts. rewrite Hp, List.filter_In, andb_true_iff, <- list_elem_of_In.
  destruct kd as [key d]. by rewrite elem_of_map_to_list.
Qed.

Lemma in_sorted R `{!forall x y, Decision (R x y)} (l : list (string * doc)) kd : In kd (merge_sort R l) <-> In kd l.
Proof. rewrite <- !list_elem_of_In. by rewrite (merge_sort_Permutation R l). Qed.

Lemma under_sorted_NoDup R `{!forall x y, Decision (R x y)} re p cond w :
  anchored re = Some p -> NoDup (map fst (merge_sort R (under re cond w))).
Proof.
  intros Hp. change (NoDup ((merge_sort R (under re cond w)).*1)). rewrite (merge_sort_Permutation R (under re cond w)).
  unfold under. rewrite Hp. pose proof (NoDup_fst_map_to_list w) as Hnd.
  revert Hnd. generalize (map_to_list w). intros l. induction l as [|kd l IH]; [done|]. intros [Hk Hnd]%NoDup_cons. cbn.
  destruct (_ && _); [|by apply IH]. cbn. apply NoDup_cons. split; [|by apply IH]. intros Hin. apply Hk.
  rewrite list_elem_of_In in *. apply in_map_iff in Hin as (x & Hx & Hin). apply List.filter_In in Hin as [Hin _].
  apply in_map_iff. eauto.
Qed.

Lemma mem_mongo_laws : mongo mem_mongo id.
Proof.
  split; unfold id.
  - intros key w. eexists. split; [reflexivity|]. destruct (w !! key) as [d|]; [|done].
    eexists. split; [reflexivity|apply shown_with_key].
  - intros re p f v sort w Hp Hf _. eexists. split; [reflexivity|].
    pose proof (StronglySorted_merge_sort (by_number_down "updated_on") (under re (fun kd => carries_str v (dget f kd.2)) w)) as Hso.
    pose proof (in_sorted (by_number_down "updated_on") (under re (fun kd => carries_str v (dget f kd.2)) w)) as Hin.
    destruct (merge_sort _ _) as [|[key d] l]; cbn.
    + intros key d Hd Hst Hc%carries_str_spec. apply (Hin (key, d)), (in_under re p); done.
    + destruct (proj1 (in_under re p _ w (key, d) Hp) (proj1 (Hin (key, d)) (or_introl eq_refl))) as (Hd & Hst & Hc%carries_str_spec).
      exists key, d. split; [done|]. split; [apply shown_with_key|]. split; [done|]. split; [done|].
      intros key' d' _ Hd' Hst' Hc'%carries_str_spec.
      assert (In (key', d') ((key, d) :: l)) as [[= <- <-]|Hl] by (by apply Hin, (in_under re p)).
      * apply up_to_in_order. destruct (dget "updated_on" d ≫= bint); simpl; [lia|done].
      * inversion Hso as [|? ? _ Hall]. rewrite List.Forall_forall in Hall. by apply up_to_in_order, (Hall (key', d')).
  - intros re p ids w Hp.
    set (cond := match ids with Some ids => fun kd : string * doc => existsb (String.eqb kd.1) ids | None => fun _ => true end).
    set (l := merge_sort (by_number "date") (under re cond w)).
    assert (forall kd, In kd l <-> w !! kd.1 = Some kd.2 /\ starts p kd.1 /\ cond kd = true) as Hin
      by (intros kd; subst l; by rewrite in_sorted, (in_under re p)).
    exists (map with_key l), (map fst l). split; [|split; [|split; [|split]]].
    + subst l cond. destruct ids as [ids|]; [|done]. cbn. by rewrite strings_of_map.
    + assert (Forall (fun kd => w !! kd.1 = Some kd.2) l) as Hl by (apply List.Forall_forall; intros kd; by rewrite Hin; intros [? _]).
      clear Hin. induction Hl as [|[key d] l' Hkd _ IH]; constructor; [|exact IH]. exists d. split; [done|apply shown_with_key].
    + by eapply under_sorted_NoDup.
    + intros key. rewrite in_map_iff. split.
      * intros ([key' d] & <- & (Hd & Hst & Hc)%Hin). cbn in *. split; [by eexists|]. split; [done|]. subst cond. destruct ids as [ids|]; [|done].
        apply existsb_exists in Hc as (x & Hx & Heq). cbn in Heq. apply String.eqb_eq in Heq as ->. exact Hx.
      * intros ([d Hd] & Hst & Hc). exists (key, d). split; [done|]. apply Hin. split; [done|]. split; [done|]. subst cond.
        destruct ids as [ids|]; [|done]. apply existsb_exists. exists key. split; [done|apply String.eqb_refl].
    + pose proof (StronglySorted_merge_sort (by_number "date") (under re cond w)) as Hso. fold l in Hso. clear Hin.
      induction Hso as [|kd l' _ IH Hall]; [constructor|]. constructor; [exact IH|]. apply List.Forall_map.
      eapply List.Forall_impl; [|exact Hall]. intros kd' Hle. by apply up_to_in_order.
  - intros key d w. split; [eauto|]. by exists d.
  - intros key up w. split; [eauto|]. exists (merged up (w !! key)). split; [done|]. intros k _.
    unfold merged, updated. apply dget_app.
  - intros ids w. split; [eauto|]. intros key. cbn. rewrite lookup_if. simpl. rewrite strings_of_map.
    destruct (w !! key), (decide (key ∈ ids)); try rewrite decide_True by done; try rewrite decide_False by tauto; done.
  - intros re p w Hp. cbn. rewrite Hp. split; [eauto|]. intros key. cbn. rewrite lookup_if. simpl.
    destruct (w !! key), (decide (starts p key)); try rewrite decide_True by done; try rewrite decide_False by tauto; done.
  - intros w. by exists 0.
Qed.

Definition stored_state : gmap string doc := {["s:ustate:0"%string := ["pts" ~> BInt 5; "qts" ~> BInt 6]]}.
Definition one_state : session :=
  Session (fun _ => None) (fun _ => None)
    (set_at 0 (Some (UpdateState 0 (Some 5) (Some 6) None None)) (fun _ => None)).

Lemma stored_reps : reps "s" stored_state one_state.
Proof.
  unfold stored_state. change "s:ustate:0"%string with (_ustate "s" 0). split; simpl.
  - intros name. rewrite lookup_singleton_ne; [done|]. apply not_eq_sym, kv_ustate.
  - intros i. rewrite lookup_singleton_ne; [done|]. apply not_eq_sym, peer_ustate.
  - intros i. unfold set_at. destruct (decide (i = 0)) as [->|Hne]; [by rewrite lookup_singleton_eq|].
    rewrite lookup_singleton_ne; [done|]. intros Heq. apply (@ustate_inj ascii_ucd) in Heq. by rewrite Heq in Hne.
  - intros key d [<- _]%lookup_singleton_Some Hst. by apply ustate_not_peer in Hst.
  - intros key d [<- <-]%lookup_singleton_Some _. split; [by exists 0|done].
Qed.

(** A newer state without a [qts] keeps the stored one; and the states read are
    that one. *)
Lemma storage_refines_witness :
  let op := SetStates [UpdateState 0 (Some 7) None (Some 9) None] in
  let peers_input (id : Z) (hash type : bson) : result bson := Ok hash in
  states (meaning op 0 one_state) 0 = Some (UpdateState 0 (Some 7) (Some 6) (Some 9) None) /\
  (exists now, reps "s" (run_state mem_mongo (@store_run ascii_ucd "s" 28800 peers_input op) stored_state) (meaning op (now / 1000000) one_state)) /\
  exists sts, run_result mem_mongo (@store_run ascii_ucd "s" 28800 peers_input (GetStates None)) stored_state = Ok (Found sts) /\
    NoDup (map us_id sts) /\ forall st, In st sts <-> states one_state (us_id st) = Some st /\ True.
Proof.
  split; [reflexivity|]. split.
  - destruct (@storage_refines ascii_ucd "s" 28800 (fun _ hash _ => Ok hash) _ mem_mongo id
      (SetStates [UpdateState 0 (Some 7) None (Some 9) None]) stored_state one_state mem_mongo_laws stored_reps) as (now & _ & Hr).
    exists now. exact Hr.
  - destruct (@storage_refines ascii_ucd "s" 28800 (fun _ hash _ => Ok hash) _ mem_mongo id
      (GetStates None) stored_state one_state mem_mongo_laws stored_reps) as (now & (sts & Hr & Hnd & _ & Hin) & _).
    exists sts. split; [exact Hr|]. split; [exact Hnd|exact Hin].
Defined.

(** A peer found by its username was stored within the lifetime of a username;
    every other outcome is an exception. *)
Theorem username_fresh {U : UCD} (ns : string) (ttl : Z) (get_input_peer : Z -> bson -> bson -> io bson)
    (username : string) (t : trace eff) (p : bson)
    (Hrun : exec (get_peer_by_username ns ttl get_input_peer username) t (Ok p)) :
  exists d now, In (Obs (FindOne "mtproto_state" ["_id" ~> id_prefix ns ":peer:"; "usernames" ~> BStr username]
                           [("updated_on"%string, -1)]) (Ok (Some d))) t /\
    In (Obs UtcNow (Ok now)) t /\ Z.abs (now - dget_int "updated_on" d 0 * 1000000) <= ttl * 1000000.
Proof.
  unfold get_peer_by_username, db_call in Hrun.
  apply exec_bind_ok in Hrun as (t1 & found & t2 & H1%ran_self%ran_in & Hrun & ->). destruct found as [d|]; [|by destruct Hrun].
  apply exec_bind_ok in Hrun as (t3 & now & t4 & H2%ran_self%ran_in & Hrun & ->). exists d, now.
  destruct (Z.gtb_spec (Z.abs (now - dget_int "updated_on" d 0 * 1000000)) (ttl * 1000000)) as [|Hle]; [by destruct Hrun|].
  rewrite !in_app_iff. split; [by left|]. split; [|lia]. right. by left.
Qed.
