(* ===== verification/PromoteFlow.v ===== *)
(** Granting federation roles: [tcbot/modules/helper/workflows/promote_flow.py]
    over the request queue of [tcbot/database/queues_db.py]. *)

From S2P Require Import Prelude Prog Text World I18n Dispatch Cache Locale Roles Replies Auth Records DemoteFlow BanFlow AppealReview Prefixes Extract Handler.

(** * The queue of promotion requests *)

(** [AlreadyPendingError] is a [DuplicateKeyError]: the key pattern and the
    message of either. *)
Definition duplicate_key (e : exn) : option (option (list string) * string) :=
  match e with
  | DuplicateKeyError pattern msg => Some (pattern, msg)
  | AlreadyPendingError msg => Some (None, msg)
  | _ => None
  end.

(** A [dict] pattern decides when it names either key; else the message. *)
Definition _is_pending_violation (pattern : option (list string)) (message : string) : bool :=
  let names k := match pattern with Some ks => existsb (String.eqb k) ks | None => false end in
  if names "target_id"%string then true
  else if names "request_id"%string then false
  else contains (u message) (u "target_id").

Definition request_doc (request_id : string) (user_id : Z) (username : option string) (first_name : string)
    (promoted_by now : Z) : doc :=
  ["request_id" ~> BStr request_id; "target_id" ~> BInt user_id; "username" ~> boptstr username;
   "first_name" ~> BStr first_name; "promoted_by" ~> BInt promoted_by; "status" ~> BStr "pending";
   "requested_date" ~> BDate now; "resolved_date" ~> BNull; "resolved_by" ~> BNull].

Definition _insert (user_id : Z) (username : option string) (first_name : string) (promoted_by : Z)
    (request_id : string) : io unit :=
  now <- call UtcNow ;;
  db_call (InsertOne "promotion_requests" (request_doc request_id user_id username first_name promoted_by now)) ;;;
  Ret tt.

Definition enqueue (user_id : Z) (username : option string) (first_name : string) (promoted_by : Z) : io string :=
  let insert := _insert user_id username first_name promoted_by in
  request_id <- call MakeShortId ;;
  r <- attempt (insert request_id) ;;
  match r with
  | Ok _ => Ret request_id
  | Err exc =>
      match duplicate_key exc with
      | None => Raise exc
      | Some (pattern, message) =>
          if _is_pending_violation pattern message then Raise (AlreadyPendingError message)
          else
            request_id <- call MakeShortId ;;
            r <- attempt (insert request_id) ;;
            match r with
            | Ok _ => Ret request_id
            | Err retry_exc =>
                match duplicate_key retry_exc with
                | Some (pattern, message) =>
                    if _is_pending_violation pattern message then Raise (AlreadyPendingError message)
                    else Raise retry_exc
                | None => Raise retry_exc
                end
            end
      end
  end.

Definition get_request_by_id (request_id : string) : io (option doc) :=
  db_call (FindOne "promotion_requests" ["request_id" ~> BStr request_id] []).

Definition get_request (user_id : Z) : io (option doc) :=
  db_call (FindOne "promotion_requests" ["target_id" ~> BInt user_id; "status" ~> BStr "pending"] []).

Definition all_pending : io (list doc) :=
  db_call (Find "promotion_requests" ["status" ~> BStr "pending"] [("requested_date"%string, 1)] 0 (Some 200)).

Definition pending_count : io Z := db_call (CountDocuments "promotion_requests" ["status" ~> BStr "pending"]).

Definition pending_filter (request_id : string) : doc :=
  ["request_id" ~> BStr request_id; "status" ~> BStr "pending"].

Definition resolve (request_id status : string) (resolved_by : Z) : io bool :=
  if negb (existsb (String.eqb status) ["approved"; "rejected"]%string) then
    Raise (ValueError "Refusing to resolve promotion request")
  else
    now <- call UtcNow ;;
    res <- db_call (UpdateOne "promotion_requests" (pending_filter request_id)
      ["$set" ~> BDoc ["status" ~> BStr status; "resolved_date" ~> BDate now; "resolved_by" ~> BInt resolved_by]]
      false) ;;
    Ret (modified_count res >? 0).

(** * Promotions *)
Definition ROLE_ALIASES : list (string * string) :=
  [("admin", "admin"); ("developer", "developer"); ("dev", "developer"); ("tester", "tester");
   ("test", "tester")]%string.

Definition available_roles_for (executor_role : string) : list string :=
  if String.eqb executor_role "founder" then ["admin"; "developer"; "tester"]%string
  else if String.eqb executor_role "admin" then ["developer"; "tester"]%string
  else [].

(** [ROLE_LABEL.get(role, role)] *)
Definition label_of (role : string) : string :=
  match assoc role ROLE_LABEL with Some l => l | None => role end.

Section promote.
Context {CAT : Catalog} (cfg : config).

Definition user_arg (target_id : Z) (target_fname : string) : string * text :=
  ("user"%string, TUser target_id target_fname).

(** The log line and the DM, sent together; failures are only logged. *)
Definition announce_promotion (target_id : Z) (target_fname role : string) (admin_id : Z) (admin_fname : string)
    (dm : ustr -> text) : io unit :=
  let (lc, lt) := cfg_logs cfg in
  target_locale <- locale_for_user target_id ;;
  gather2
    (call (SendMessage lc (TBuild "parse_logmsg.promoted"
       [TInt target_id; TStr target_fname; TStr role; TInt admin_id; TStr admin_fname]) lt None))
    (call (SendMessage target_id (dm target_locale) None None)) ;;;
  Ret tt.

Definition _assign_admin (admin_id : Z) (admin_fname : string) (target_id : Z) (target_fname : string)
    (current_role : bson) (locale : ustr) : io (bool * text) :=
  added <- try_except (add_admin target_id admin_id ;;; Ret true) (fun _ => Ret false) ;;
  if negb added then Ret (false, TKey "admins.promote.save_fail" locale [])
  else
    gather_list (upsert_user target_id None target_fname None ::
      (if role_is "developer" current_role || role_is "tester" current_role
       then [Roles.remove_role target_id ;;; Ret tt] else [])) ;;;
    announce_promotion target_id target_fname "admin" admin_id admin_fname
      (fun target_locale => TKey "admins.promote.dm.admin" target_locale
         [("community"%string, TStr (cfg_community_name cfg))]) ;;;
    Ret (true, TKey "admins.promote.done_admin" locale
           [user_arg target_id target_fname; ("community"%string, TStr (cfg_community_name cfg))]).

Definition _assign_subrole (admin_id : Z) (admin_fname : string) (target_id : Z) (target_fname : string)
    (current_role : bson) (role : string) (locale : ustr) : io (bool * text) :=
  if role_is "admin" current_role then
    Ret (false, TKey "admins.promote.already_admin" locale [("role"%string, TStr (label_of role))])
  else
    written <- try_except (set_role target_id role admin_id ;;; Ret true) (fun _ => Ret false) ;;
    if negb written then Ret (false, TKey "admins.promote.role_fail" locale [])
    else
      try_except (upsert_user target_id None target_fname None) (fun _ => Ret tt) ;;;
      let label := ("role"%string, TStr (label_of role)) in
      let community := ("community"%string, TStr (cfg_community_name cfg)) in
      announce_promotion target_id target_fname role admin_id admin_fname
        (fun target_locale => TKey "admins.promote.dm.role" target_locale [label; community]) ;;;
      Ret (true, TKey "admins.promote.done_role" locale [user_arg target_id target_fname; community; label]).

(** The Founder by DM, or else the log channel. *)
Definition notify_request (owner_id : bson) (target_id : Z) (target_fname : string)
    (target_username : option string) (request_id : string) : io unit :=
  let (lc, lt) := cfg_logs cfg in
  let req_text := TBuild "parse_logmsg.promote_request_log"
    [TInt target_id; TStr target_fname; TOptStr target_username; TStr request_id] in
  let kb := Some (TBuild "keyboards.promo_decision_kb" [TStr request_id]) in
  notified <- match owner_id with
              | BInt owner =>
                  if truthy_Z owner
                  then try_except (call (SendMessage owner req_text None kb) ;;; Ret true) (fun _ => Ret false)
                  else Ret false
              | _ => Ret false
              end ;;
  if notified : bool then Ret tt
  else try_except (call (SendMessage lc req_text lt kb) ;;; Ret tt) (fun _ => Ret tt).

Definition request_admin (admin_id target_id : Z) (target_fname : string) (target_username : option string)
    (locale : ustr) : io (bool * text) :=
  let pending := (false, TKey "admins.promote.pending" locale [user_arg target_id target_fname]) in
  existing <- try_except (get_request target_id) (fun _ => Ret None) ;;
  match existing with
  | Some (_ :: _) => Ret pending
  | _ =>
      let! (request_id, owner_id) :=
        gather2 (enqueue target_id target_username target_fname admin_id) get_owner_id in
      throw_if_cancelled [void request_id; void owner_id] ;;;
      match request_id with
      | Err e => match duplicate_key e with
                 | Some _ => Ret pending
                 | None => Ret (false, TKey "admins.promote.queue_fail" locale [])
                 end
      | Ok request_id =>
          notify_request (ok_or BNull owner_id) target_id target_fname target_username request_id ;;;
          Ret (true, TKey "admins.promote.submitted" locale [])
      end
  end.

Definition execute (admin_id : Z) (admin_fname executor_role : string) (target_id : Z) (target_fname : string)
    (current_role : bson) (role : string) (locale : ustr) : io (bool * text) :=
  if role_is "founder" current_role then Ret (false, TKey "admins.promote.target_is_founder" locale [])
  else if role_rank (BStr role) <=? role_rank current_role then
    Ret (false, TKey "admins.promote.holds_role" locale [("role"%string, TStr (label_of (role_str current_role)))])
  else if String.eqb role "admin" then
    if String.eqb executor_role "founder"
    then _assign_admin admin_id admin_fname target_id target_fname current_role locale
    else request_admin admin_id target_id target_fname None locale
  else if negb (String.eqb executor_role "founder" || String.eqb executor_role "admin") then
    Ret (false, TKey "admins.promote.no_assign_perms" locale [])
  else _assign_subrole admin_id admin_fname target_id target_fname current_role role locale.
End promote.

(** * What a promotion writes *)

Section permitted.
Context (executor_role : string) (target_id : Z) (current_role : bson) (role : string).

(** The writes a promotion may make, given who asks for which role of whom:
    the admin record of the target for a Founder; its custom role, for a
    Founder or Admin; a pending request otherwise; the cached name; and the
    custom role an Admin no longer needs. *)
Definition permitted (o : obs eff) : bool :=
  match o with
  | Obs ev _ =>
      match ev with
      | UpdateOne "tc_admins" [("user_id", BInt uid)] _ _ =>
          (uid =? target_id) && String.eqb executor_role "founder" && String.eqb role "admin" &&
          (role_rank current_role <? role_rank (BStr role))
      | UpdateOne "tc_roles" [("user_id", BInt uid)] [("$set", BDoc (_ :: ("role", BStr given) :: _))] _ =>
          (uid =? target_id) && String.eqb given role && existsb (String.eqb role) VALID_ROLES &&
          (String.eqb executor_role "founder" || String.eqb executor_role "admin") &&
          (role_rank current_role <? role_rank (BStr role))
      | InsertOne "promotion_requests" (_ :: ("target_id", BInt uid) :: _) =>
          (uid =? target_id) && String.eqb role "admin" && negb (String.eqb executor_role "founder") &&
          (role_rank current_role <? role_rank (BStr role))
      | UpdateOne "member_cache" [("user_id", BInt uid)] _ _ => uid =? target_id
      | DeleteOne "tc_roles" [("user_id", BInt uid)] =>
          (uid =? target_id) && String.eqb executor_role "founder" && String.eqb role "admin"
      | _ => negb (obs_write o)
      end
  end.

Definition illicit (o : obs eff) : bool := negb (permitted o).

Lemma passive_illicit o : obs_passive o = true -> illicit o = false.
Proof. unfold obs_passive, illicit. destruct o as [X [] r]; simpl; try done; intros H; repeat case_match; done. Qed.

Lemma invalidate_permitted c k : never illicit (invalidate c k).
Proof. unfold invalidate, redis_del_background. never_auto. Qed.
End permitted.

(** The grant was acknowledged: the record of the role, or the request. *)
Definition obs_granted (o : obs eff) : bool :=
  match o with
  | Obs ev r =>
      match ev with
      | UpdateOne "tc_admins" _ _ _ | UpdateOne "tc_roles" _ _ _ | InsertOne "promotion_requests" _ =>
          negb (is_err r)
      | _ => false
      end
  end.

Section promote_lemmas.
Context {CAT : Catalog} (cfg : config).

Abbreviation ok_true := (fun r : result (bool * text) => match r with Ok (b, _) => b | Err _ => false end).
Abbreviation grants := (waits obs_granted obs_sends ok_true).

Lemma announce_permitted f tid tn role aid an dm :
  (forall o, obs_locale o = true -> f o = false) -> (forall c x th kb r, f (Obs (SendMessage c x th kb) r) = false) ->
  never f (announce_promotion cfg tid tn role aid an dm).
Proof.
  intros Hl Hs. unfold announce_promotion. destruct (cfg_logs cfg) as [lc lt].
  pose proof (locale_for_user_never f tid Hl). never_auto; auto; apply never_call; auto.
Qed.

Lemma locale_illicit er tid cur role o : obs_locale o = true -> illicit er tid cur role o = false.
Proof. by destruct o as [X [] r]. Qed.

Lemma never_locale f uid : (forall o, obs_locale o = true -> f o = false) -> never f (locale_for_user uid).
Proof. apply locale_for_user_never. Qed.

Section writes.
Context (er : string) (tid : Z) (cur : bson) (role : string)
  (Hrank : (role_rank cur <? role_rank (BStr role)) = true).
Abbreviation fine := (never (illicit er tid cur role)).

#[local] Arguments role_rank : simpl never.

(** A call that [permitted] allows once the tests before it are known. *)
Local Ltac permit := apply never_call; intros ?; unfold illicit; simpl in *; try rewrite Hrank;
  repeat match goal with H : ?b = true |- _ => rewrite H end; rewrite ?Z.eqb_refl, ?String.eqb_refl; done.
Local Ltac writes := pose proof invalidate_permitted; never_auto; auto; permit.

Lemma upsert_permitted un fn ln : fine (upsert_user tid un fn ln).
Proof. unfold upsert_user, db_call. writes. Qed.

Lemma assign_admin_permitted aid an tn locale :
  String.eqb er "founder" = true -> String.eqb role "admin" = true ->
  fine (_assign_admin cfg aid an tid tn cur locale).
Proof.
  intros Her Hadm. unfold _assign_admin, add_admin, db_call. pose proof upsert_permitted as Hu.
  assert (fine (Roles.remove_role tid ;;; Ret tt)) as Hrm by (unfold Roles.remove_role, db_call; writes).
  apply never_bind; [writes|intros [|]]; [|apply never_ret]. cbn [negb].
  apply never_bind.
  - apply never_gather_list. constructor; [apply Hu|]. destruct (_ || _); by repeat constructor.
  - intros _. apply never_bind; [apply announce_permitted; [apply locale_illicit|done]|intros _; apply never_ret].
Qed.

Lemma assign_subrole_permitted aid an tn locale :
  String.eqb er "founder" || String.eqb er "admin" = true ->
  fine (_assign_subrole cfg aid an tid tn cur role locale).
Proof.
  intros Her. unfold _assign_subrole. destruct (role_is "admin" cur); [apply never_ret|].
  pose proof upsert_permitted as Hu. apply never_bind.
  - apply never_try; [|intros; apply never_ret]. unfold set_role, db_call.
    destruct (existsb _ VALID_ROLES) eqn:Hv; cbn [negb]; [|never_auto]. writes.
  - intros [|]; [|apply never_ret]. cbn [negb]. apply never_bind; [never_auto; auto|intros _]. cbv zeta.
    apply never_bind; [apply announce_permitted; [apply locale_illicit|done]|intros _; apply never_ret].
Qed.

Lemma enqueue_permitted un fn aid :
  String.eqb er "founder" = false -> String.eqb role "admin" = true -> fine (enqueue tid un fn aid).
Proof.
  intros Her Hadm.
  assert (forall rid, fine (_insert tid un fn aid rid)) as Hins.
  { intros rid. unfold _insert, db_call. never_auto. apply never_call; intros ?; unfold illicit; simpl.
    by rewrite Z.eqb_refl, Her, Hadm, Hrank. }
  unfold enqueue. never_auto; auto.
Qed.

Lemma request_permitted aid tn un locale :
  String.eqb er "founder" = false -> String.eqb role "admin" = true -> fine (request_admin cfg aid tid tn un locale).
Proof.
  intros Her Hadm. unfold request_admin, get_request, notify_request, db_call. destruct (cfg_logs cfg) as [lc lt].
  pose proof enqueue_permitted. cbv zeta.
  assert (fine get_owner_id) by (apply passive_never; [apply passive_illicit|apply get_owner_id_passive]).
  assert (forall rs : list (result unit), fine (throw_if_cancelled rs))
    by (intros; apply passive_never; [apply passive_illicit|apply throw_if_cancelled_passive]).
  never_auto; auto.
Qed.
End writes.

Lemma execute_permitted aid an er tid tn cur role locale :
  never (illicit er tid cur role) (execute cfg aid an er tid tn cur role locale).
Proof.
  unfold execute. destruct (role_is "founder" cur); [apply never_ret|].
  destruct (role_rank (BStr role) <=? role_rank cur) eqn:Hr; [apply never_ret|].
  assert ((role_rank cur <? role_rank (BStr role)) = true) by (to_prop; by apply Z.ltb_lt).
  destruct (String.eqb role "admin") eqn:Hadm; [destruct (String.eqb er "founder") eqn:Her|].
  - by apply assign_admin_permitted.
  - by apply request_permitted.
  - destruct (_ || _) eqn:Her; [|apply never_ret]. by apply assign_subrole_permitted.
Qed.

(** ** Announced only once granted *)
Lemma invalidate_sent c k : never obs_sends (invalidate c k).
Proof. unfold invalidate, redis_del_background. never_auto. Qed.

Lemma get_owner_id_reads f :
  (forall c k o, cache_obs c k o = true -> f o = false) ->
  (forall c q s r, f (Obs (FindOne c q s) r) = false) -> never f get_owner_id.
Proof.
  intros Hc Hf. apply get_or_fetch_never; [apply Hc|]. unfold fetch_owner_id, db_call. never_auto.
  by apply never_call.
Qed.

(** A write that answers, reported as [true]. *)
Lemma granted_write (w : io unit) :
  waits obs_granted obs_sends (fun r => negb (is_err r)) w ->
  waits obs_granted obs_sends (fun r => match r with Ok b => b | Err _ => false end)
    (try_except (w ;;; Ret true) (fun _ => Ret false)).
Proof.
  intros Hw. apply wp_try, wp_bind. eapply wp_mono; [exact Hw|]. intros t [[]|e] [Hg Hr].
  - apply wp_ret. rewrite app_nil_r. auto.
  - destruct (is_Exception e); [apply wp_ret; rewrite app_nil_r|]; done.
Qed.

Lemma add_admin_granted tid aid : waits obs_granted obs_sends (fun r => negb (is_err r)) (add_admin tid aid).
Proof.
  apply waits_from.
  - unfold add_admin, db_call. pose proof invalidate_sent. never_auto; auto.
  - unfold add_admin, db_call. wp_step. wp_step. wp_step. wp_step. destruct x0 as [v|e]; [|done].
    apply wp_intro. intros t r _ _. done.
Qed.

Lemma set_role_granted tid role aid : waits obs_granted obs_sends (fun r => negb (is_err r)) (set_role tid role aid).
Proof.
  apply waits_from.
  - unfold set_role, db_call. pose proof invalidate_sent. never_auto; auto.
  - unfold set_role, db_call. destruct (negb _); [by apply wp_raise|].
    wp_step. wp_step. wp_step. wp_step. destruct x0 as [v|e]; [|done]. apply wp_intro. intros t r _ _. done.
Qed.

Lemma insert_granted tid un fn aid rid :
  waits obs_granted obs_sends (fun r => negb (is_err r)) (_insert tid un fn aid rid).
Proof.
  apply waits_from; unfold _insert, db_call; [never_auto|].
  wp_step. wp_step. wp_step. wp_step. destruct x0 as [v|e]; [|done]. by apply wp_ret.
Qed.

Lemma enqueue_granted tid un fn aid :
  waits obs_granted obs_sends (fun r => negb (is_err r)) (enqueue tid un fn aid).
Proof.
  unfold enqueue. apply waits_after; [never_auto|intros rid|done].
  eapply waits_then; [apply waits_attempt, insert_granted| |done].
  intros [[]|e] He; [done|]. destruct (duplicate_key e) as [[pat m]|]; [|by apply waits_never; [never_auto|]; intros t r [_ ->]].
  destruct (_is_pending_violation pat m); [by apply waits_never; [never_auto|]; intros t r [_ ->]|].
  apply waits_after; [never_auto|intros rid'|done].
  eapply waits_then; [apply waits_attempt, insert_granted| |done].
  intros [[]|e'] He'; [done|]. destruct (duplicate_key e') as [[pat' m']|]; [|by apply waits_never; [never_auto|]; intros t r [_ ->]].
  destruct (_is_pending_violation pat' m'); by apply waits_never; [never_auto|]; intros t r [_ ->].
Qed.

Lemma grants_ret b x : b = false -> waits obs_granted obs_sends ok_true (Ret (b, x)).
Proof. intros ->. apply waits_never; [apply never_ret|]. by intros t r [_ ->]. Qed.

Lemma execute_grants aid an er tid tn cur role locale :
  grants (execute cfg aid an er tid tn cur role locale).
Proof.
  unfold execute. destruct (role_is "founder" cur); [by apply grants_ret|].
  destruct (_ <=? _); [by apply grants_ret|].
  destruct (String.eqb role "admin"); [destruct (String.eqb er "founder")|destruct (negb _); [by apply grants_ret|]].
  - unfold _assign_admin. eapply waits_then; [apply granted_write, add_admin_granted| |done].
    intros [|] Hb; [done|by apply grants_ret].
  - unfold request_admin. cbv zeta. apply waits_after; [unfold get_request, db_call; never_auto|intros ex|done].
    assert (grants (let! (request_id, owner_id) := gather2 (enqueue tid None tn aid) get_owner_id in
      throw_if_cancelled [void request_id; void owner_id] ;;;
      match request_id with
      | Err e => match duplicate_key e with
                 | Some _ => Ret (false, TKey "admins.promote.pending" locale [user_arg tid tn])
                 | None => Ret (false, TKey "admins.promote.queue_fail" locale [])
                 end
      | Ok request_id =>
          notify_request cfg (ok_or BNull owner_id) tid tn None request_id ;;;
          Ret (true, TKey "admins.promote.submitted" locale [])
      end)) as Hq.
    { eapply waits_then; [apply waits_gather2_l; [apply enqueue_granted|]| |done].
      - by apply get_owner_id_reads; [intros c k [X [] r]|].
      - intros [[rid|e] ow] Hr; [done|]. apply waits_after; [apply throw_never|intros _|done].
        destruct (duplicate_key e); by apply grants_ret. }
    destruct ex as [[|f d]|]; [exact Hq|by apply grants_ret|exact Hq].
  - unfold _assign_subrole. destruct (role_is "admin" cur); [by apply grants_ret|].
    eapply waits_then; [apply granted_write, set_role_granted| |done]. intros [|] Hb; [done|by apply grants_ret].
Qed.
End promote_lemmas.
