(* ===== verification/Admins.v ===== *)
(** The staff handlers of [tcbot/modules/admins]: promoting, demoting, the
    request queue, the Founder's decisions on it, and the transfer of
    ownership. *)

From S2P Require Import Prelude Prog Text World I18n Dispatch Cache Locale Roles Replies Auth Records DemoteFlow BanFlow MuteFlow AppealReview Prefixes Extract Handler PromoteFlow.

Definition err_cannot_resolve (locale : ustr) : text := TKey "common.err.cannot_resolve" locale [].
Definition err_role_verify (locale : ustr) : text := TKey "common.err.role_verify" locale [].

Section admins.
Context {CAT : Catalog} (cfg : config) (bot_id : Z).

Definition say (msg : message) (locale : ustr) (key : string) : io unit := safe_reply msg (TKey key locale []).

(** * shared.py *)

(** [None]: the caller returns.  A role-less executor is not answered. *)
Definition _resolve_executor_target (c : command) (msg : message) (admin_id : Z) (args : list string)
    (locale : ustr) : io (option (string * (Z * string))) :=
  let! (_exec_r, _target_r) :=
    gather2 (get_effective_role admin_id) (extract_target (c_incoming c) args true false) in
  throw_if_cancelled [void _exec_r; void _target_r] ;;;
  match _exec_r with
  | Err _ => say msg locale "admins.error.role_lookup_failed" ;;; Ret None
  | Ok BNull => Ret None
  | Ok executor_role =>
      match _target_r with
      | Ok (Some (target_id, target_fname)) =>
          if truthy_Z target_id then Ret (Some (role_str executor_role, (target_id, target_fname)))
          else safe_reply msg (err_cannot_resolve locale) ;;; Ret None
      | _ => safe_reply msg (err_cannot_resolve locale) ;;; Ret None
      end
  end.

Definition _classify_and_load_role (admin_id target_id : Z) (target_fname : string) (msg : message) (locale : ustr)
    : io (option (Identity * bson)) :=
  let! (ident_r, role_r) :=
    gather2 (classify bot_id admin_id target_id (Some target_fname) None) (get_effective_role target_id) in
  throw_if_cancelled [void ident_r; void role_r] ;;;
  match ident_r, role_r with
  | Err _, _ => say msg locale "admins.error.classify_failed" ;;; Ret None
  | _, Err _ => say msg locale "admins.error.role_lookup_failed" ;;; Ret None
  | Ok ident, Ok role => Ret (Some (ident, role))
  end.

Definition _check_callback_staff (admin_id : Z) (q : message) (upd : update) : io (option string) :=
  let! (role_r, answer_r) := gather2 (get_effective_role admin_id) (call (AnswerCallback None)) in
  throw_if_cancelled [void role_r; void answer_r] ;;;
  match role_r with
  | Ok (BStr role) =>
      if String.eqb role "founder" || String.eqb role "admin" then Ret (Some role)
      else edit_key upd q "common.err.perm_expired" ;;; Ret None
  | _ => edit_key upd q "common.err.perm_expired" ;;; Ret None
  end.

(** * promote.py *)

(** [target_fname or str(target_id)] *)
Definition name_or_id (target_fname : string) (target_id : Z) : string :=
  if truthy_str target_fname then target_fname else py_str target_id.

Definition promote_named (c : command) (msg : message) (admin_id : Z) (executor_role : string) (target_id : Z)
    (target_fname : string) (ident : Identity) (current_role : bson) (role_arg : string) (locale : ustr) : io unit :=
  match assoc role_arg ROLE_ALIASES with
  | Some role =>
      let! (_, text) := PromoteFlow.execute cfg admin_id (c_first_name c) executor_role target_id
                          (name_or_id target_fname target_id) current_role role locale in
      safe_reply msg text
  | None =>
      match available_roles_for executor_role with
      | [] => say msg locale "admins.error.no_assign_perms"
      | available =>
          safe_reply_kb msg (TKey "admins.promote_ui.role_picker" locale
            [("user"%string, TUserRef target_id (name_or_id target_fname target_id) (username ident))])
            (Some (TBuild "keyboards.promote_role_kb" (TInt target_id :: map TStr available)))
      end
  end.

(** [args[0].lstrip("-").isdigit() or args[0].startswith("@")] *)
Definition has_explicit_target (args : list string) : bool :=
  match args with [] => false | a :: _ => numeric_name a || String.prefix "@" a end.

(** A bare role word and nobody to give it to. *)
Definition needs_target (c : command) (msg : message) (args : list string) : bool :=
  match args with
  | [] => false
  | a :: _ =>
      negb (has_explicit_target args) &&
      (match _reply_uid (incoming_of c msg) with None => true | Some _ => false end &&
       match assoc (lower_of (s_of (lstrip (Z.eqb c_at) (u a)))) ROLE_ALIASES with Some _ => true | None => false end)
  end.

Definition cmd_promote_body (c : command) : io unit :=
  match effective_user (c_upd c), effective_message (c_upd c) with
  | Some admin_id, Some msg =>
      locale <- locale_for_update (c_upd c) ;;
      let args := args_of msg in
      if needs_target c msg args then say msg locale "admins.error.promote_needs_target"
      else
        resolved <- _resolve_executor_target c msg admin_id args locale ;;
        match resolved with
        | None => Ret tt
        | Some (executor_role, (target_id, target_fname)) =>
            let remaining_args := if has_explicit_target args then List.tl args else args in
            let role_arg := match remaining_args with a :: _ => lower_of a | [] => ""%string end in
            classified <- _classify_and_load_role admin_id target_id target_fname msg locale ;;
            match classified with
            | None => Ret tt
            | Some (ident, current_role) =>
                match refuse_message "promote" ident locale with
                | Some refusal => safe_reply msg refusal
                | None =>
                    is_bot <- is_proven_bot (c_incoming c) (effective_chat (c_upd c)) target_id true ;;
                    if is_bot : bool then say msg locale "admins.error.bot_target"
                    else promote_named c msg admin_id executor_role target_id target_fname ident current_role
                           role_arg locale
                end
            end
        end
  | _, _ => Ret tt
  end.

Definition cmd_promote (c : command) := limited "cmd_promote" staff_only (cmd_promote_body c) (c_upd c).

(** [ack]: the bare [await q.answer()] of an early return. *)
Definition raw_answer : io unit := call (AnswerCallback None).

(** [q.data.split(":", 2)] into three parts. *)
Definition role_button (data : string) : option (string * string) :=
  match split_colon data with
  | Some (_, rest) => split_colon rest
  | None => None
  end.

Definition on_promote_role_btn_body (c : command) (q : option callback) : io unit :=
  match q with
  | None => Ret tt
  | Some (Callback q data) =>
      match data ≫= role_button, effective_user (c_upd c) with
      | Some (role, target_id_str), Some admin_id =>
          match int_of target_id_str with
          | None => raw_answer
          | Some target_id =>
              executor_role <- _check_callback_staff admin_id q (c_upd c) ;;
              match executor_role with
              | None => Ret tt
              | Some executor_role =>
                  is_bot <- is_proven_bot (c_incoming c) (effective_chat (c_upd c)) target_id true ;;
                  if is_bot : bool then edit_key (c_upd c) q "admins.error.bot_target"
                  else if negb (existsb (String.eqb role) ["admin"; "developer"; "tester"]%string) then
                    edit_key (c_upd c) q "common.err.unknown_role"
                  else
                    let! (target_fname_r, current_role) :=
                      gather2 (get_first_name target_id (py_str target_id)) (get_effective_role target_id) in
                    throw_if_cancelled [void target_fname_r; void current_role] ;;;
                    match current_role with
                    | Err _ => edit_key (c_upd c) q "admins.error.role_lookup_failed"
                    | Ok current_role =>
                        locale <- locale_for_update (c_upd c) ;;
                        let! (_, text) := PromoteFlow.execute cfg admin_id (c_first_name c) executor_role target_id
                              (ok_or (py_str target_id) target_fname_r) current_role role locale in
                        edit_cb q text
                    end
              end
          end
      | _, _ => raw_answer
      end
  end.

Definition on_promote_role_btn (c : command) (q : option callback) :=
  ratelimiter_wrapper "on_promote_role_btn" (on_promote_role_btn_body c q) (c_upd c).

Definition on_cancel (key : string) (upd : update) (q : option callback) : io unit :=
  match q with
  | None => Ret tt
  | Some (Callback q _) => locale <- locale_for_update upd ;; answer_cancel q (TKey key locale [])
  end.

Definition on_promote_role_cancel (upd : update) (q : option callback) :=
  ratelimiter_wrapper "on_promote_role_cancel" (on_cancel "admins.error.promote_cancelled" upd q) upd.
(** * demote.py *)
Definition cmd_demote_body (c : command) : io unit :=
  match effective_user (c_upd c), effective_message (c_upd c) with
  | Some admin_id, Some msg =>
      locale <- locale_for_update (c_upd c) ;;
      resolved <- _resolve_executor_target c msg admin_id (args_of msg) locale ;;
      match resolved with
      | None => Ret tt
      | Some (executor_role, (target_id, target_fname)) =>
          classified <- _classify_and_load_role admin_id target_id target_fname msg locale ;;
          match classified with
          | None => Ret tt
          | Some (ident, target_role) =>
              match refuse_message "demote" ident locale with
              | Some refusal => safe_reply msg refusal
              | None =>
                  if negb (truthy_role target_role) then say msg locale "admins.error.no_removable_role"
                  else if role_is "admin" target_role && negb (String.eqb executor_role "founder") then
                    say msg locale "admins.error.founder_demote_only"
                  else
                    safe_reply_kb msg (TKey "admins.demote.confirm" locale
                      [("user"%string, TUserRef target_id (name_or_id target_fname target_id) (username ident));
                       ("role"%string, TBuild "bold" [TStr (label_of (role_str target_role))])])
                      (Some (TBuild "keyboards.demote_confirm_kb" [TInt target_id]))
              end
          end
      end
  | _, _ => Ret tt
  end.

Definition cmd_demote (c : command) := limited "cmd_demote" staff_only (cmd_demote_body c) (c_upd c).

(** [int(q.data.split(":", 1)[1])] *)
Definition demote_button (data : string) : option Z :=
  match split_colon data with Some (_, id) => int_of id | None => None end.

Definition on_demote_confirm_body (c : command) (q : option callback) : io unit :=
  let upd := c_upd c in
  match q with
  | None => Ret tt
  | Some (Callback q data) =>
      match data, effective_user upd with
      | Some data, Some admin_id =>
          match demote_button data with
          | None => raw_answer
          | Some target_id =>
              executor_role <- _check_callback_staff admin_id q upd ;;
              match executor_role with
              | None => Ret tt
              | Some executor_role =>
                  let! (target_role, mention_data) :=
                    gather2 (get_effective_role target_id) (get_user_mention_data target_id) in
                  throw_if_cancelled [void target_role; void mention_data] ;;;
                  match target_role with
                  | Err _ => edit_key upd q "admins.error.role_lookup_failed"
                  | Ok target_role =>
                      let (target_fname, target_uname) := ok_or (py_str target_id, None) mention_data in
                      if negb (truthy_role target_role) || role_is "founder" target_role then
                        edit_key upd q "admins.error.no_longer_removable"
                      else if role_is "admin" target_role && negb (String.eqb executor_role "founder") then
                        edit_key upd q "admins.error.founder_demote_only"
                      else
                        removed <- try_except (DemoteFlow.execute cfg target_id target_fname target_role admin_id
                                                 (c_first_name c) None) (fun _ => Ret false) ;;
                        if negb removed then edit_key upd q "admins.error.role_clear_failed"
                        else
                          locale <- locale_for_update upd ;;
                          edit_cb q (TKey "admins.demote.done" locale
                            [("user"%string, TUserRef target_id target_fname target_uname);
                             ("role"%string, TBuild "esc" [TStr (label_of (role_str target_role))])])
                  end
              end
          end
      | _, _ => raw_answer
      end
  end.

Definition on_demote_confirm (c : command) (q : option callback) :=
  ratelimiter_wrapper "on_demote_confirm" (on_demote_confirm_body c q) (c_upd c).
Definition on_demote_cancel (upd : update) (q : option callback) :=
  ratelimiter_wrapper "on_demote_cancel" (on_cancel "admins.error.cancelled" upd q) upd.

(** * queue.py *)
Definition cmd_promote_request_body (c : command) : io unit :=
  match effective_user (c_upd c), effective_message (c_upd c) with
  | Some user_id, Some msg =>
      locale <- locale_for_update (c_upd c) ;;
      if user_id =? ANONYMOUS_BOT_ID then say msg locale "admins.request.anon_admin"
      else if c_is_bot c then say msg locale "admins.error.bot_target"
      else
        let! (existing_role, existing) := gather2 (get_effective_role user_id) (get_request user_id) in
        throw_if_cancelled [void existing_role; void existing] ;;;
        match existing_role, existing with
        | Ok existing_role, Ok existing =>
            if truthy_role existing_role then
              safe_reply msg (TKey "admins.request.already_role" locale
                [("role"%string, TStr (capitalize (label_of (role_str existing_role))))])
            else
              match existing with
              | Some ((_ :: _) as req) =>
                  safe_reply msg (TKey "admins.request.existing" locale
                    [("id"%string, TBuild "code" [TStr (dget_str "request_id" req "unknown")])])
              | _ =>
                  let! (_, reply) := request_admin cfg user_id user_id
                        (if truthy_str (c_first_name c) then c_first_name c else "unknown"%string)
                        (Some match c_username c with Some un => un | None => ""%string end) locale in
                  safe_reply msg reply
              end
        | _, _ => say msg locale "admins.error.role_lookup_failed"
        end
  | _, _ => Ret tt
  end.

Definition cmd_promote_request (c : command) :=
  ratelimiter_wrapper "cmd_promote_request" (cmd_promote_request_body c) (c_upd c).

Definition list_row (locale : ustr) (req : doc) : text :=
  let target_id := dget_int "target_id" req 0 in
  let uname_val := dget "username" req ≫= bstr in
  TKey "admins.list.row" locale
    [("user"%string, TUserRef target_id (dget_str "first_name" req "unknown") uname_val);
     ("id"%string, TBuild "code" [TStr (py_str target_id)]);
     ("uname"%string, match uname_val with
                      | Some un => if truthy_str un then TStr ("@" ++ un) else TKey "admins.list.no_username" locale []
                      | None => TKey "admins.list.no_username" locale []
                      end);
     ("req"%string, TBuild "code" [TStr (dget_str "request_id" req "unknown")])].

Definition cmd_promote_list_body (c : command) : io unit :=
  match effective_message (c_upd c) with
  | None => Ret tt
  | Some msg =>
      locale <- locale_for_update (c_upd c) ;;
      let! (pending_r, total_r) := gather2 all_pending pending_count in
      throw_if_cancelled [void pending_r; void total_r] ;;;
      match pending_r, total_r with
      | Ok [], Ok _ => say msg locale "admins.error.no_pending"
      | Ok pending, Ok total_pending =>
          let shown := Z.of_nat (length pending) in
          let header := TKey "admins.list.header" locale
            [("title"%string, TBuild "bold" [TKey "admins.list.header_text" locale
               [("n"%string, TInt (if total_pending >? shown then total_pending else shown))]])] in
          let notice := if total_pending >? shown
                        then [TKey "admins.list.cap_notice" locale
                                [("shown"%string, TInt shown); ("total"%string, TInt total_pending)]]
                        else [] in
          safe_reply msg (TCat (header :: notice ++ map (list_row locale) pending))
      | _, _ => say msg locale "admins.error.role_lookup_failed"
      end
  end.

Definition cmd_promote_list (c : command) := limited "cmd_promote_list" staff_only (cmd_promote_list_body c) (c_upd c).
(** * decision.py *)

(** The request a decision is about: its user and the name on the card. *)
Definition request_target (req : doc) : Z := dget_int "target_id" req 0.
Definition request_fname (req : doc) : string := dget_str "first_name" req (py_str (request_target req)).

(** The card, the DM and the log, sent together. *)
Definition decision_notify (c : command) (q : message) (target_id : Z) (suffix dm : ustr -> text) (log_text : text)
    : io unit :=
  let (lc, lt) := cfg_logs cfg in
  let! (locale, target_locale) := gather2 (locale_for_update (c_upd c)) (locale_for_user target_id) in
  locale <- of_result locale ;;
  target_locale <- of_result target_locale ;;
  gather3
    (call (EditMessageText (msg_chat_id q) (message_id q)
       (TCat [TBuild "esc" [TOptStr (msg_text q)]; suffix locale]) None))
    (call (SendMessage target_id (dm target_locale) None None))
    (call (SendMessage lc log_text lt None)) ;;;
  Ret tt.

Definition decision_log (builder : string) (target_id : Z) (target_fname : string) (admin_id : Z)
    (admin_fname request_id : string) : text :=
  TBuild builder [TInt target_id; TStr target_fname; TInt admin_id; TStr admin_fname; TStr request_id].

Definition by_admin (key : string) (admin_fname : string) (locale : ustr) : text :=
  TKey key locale [("name"%string, TStr admin_fname)].

(** The admin record first; the request is claimed only then. *)
Definition promo_approve (c : command) (q : message) (admin_id : Z) (request_id : string) (req : doc) : io unit :=
  let target_id := request_target req in
  let target_fname := request_fname req in
  let fail := edit_key (c_upd c) q "admins.decision.approve_fail" in
  added <- try_except (add_admin target_id admin_id ;;; Ret true) (fun _ => Ret false) ;;
  if negb added then fail
  else
    db_resolve_r <- try_except (resolve request_id "approved" admin_id) (fun _ => Ret false) ;;
    if negb db_resolve_r then fail
    else
      let! (role_r, name_r) :=
        gather2 (Roles.remove_role target_id) (upsert_user target_id None target_fname None) in
      throw_if_cancelled [void role_r; void name_r] ;;;
      decision_notify c q target_id (by_admin "admins.decision.approved_suffix" (c_first_name c))
        (fun l => TKey "admins.decision.approve_dm" l [("community"%string, TStr (cfg_community_name cfg))])
        (decision_log "parse_logmsg.promote_approved_log" target_id target_fname admin_id (c_first_name c) request_id).

Definition promo_reject (c : command) (q : message) (admin_id : Z) (request_id : string) (req : doc) : io unit :=
  let target_id := request_target req in
  resolved <- try_except (resolve request_id "rejected" admin_id) (fun _ => Ret false) ;;
  if negb resolved then edit_key (c_upd c) q "admins.decision.reject_fail"
  else
    decision_notify c q target_id (by_admin "admins.decision.rejected_suffix" (c_first_name c))
      (fun l => TKey "admins.decision.reject_dm" l [])
      (decision_log "parse_logmsg.promote_rejected_log" target_id (request_fname req) admin_id (c_first_name c)
         request_id).

Definition is_pending (req : doc) : bool :=
  match dget "status" req with Some (BStr s) => String.eqb s "pending" | _ => false end.

Definition on_promo_decision_body (c : command) (q : option callback) : io unit :=
  let upd := c_upd c in
  match q with
  | None => Ret tt
  | Some (Callback q data) =>
      match data ≫= split_colon, effective_user upd with
      | Some (action, request_id), Some admin_id =>
          let! (is_owner, req_result, answer_r) :=
            gather3 (is_owner admin_id) (get_request_by_id request_id) raw_answer in
          throw_if_cancelled [void is_owner; void req_result; void answer_r] ;;;
          match is_owner with
          | Err _ => edit_key upd q "admins.error.role_lookup_failed"
          | Ok false => edit_key upd q "common.perm.founder_only"
          | Ok true =>
              match req_result with
              | Ok (Some ((_ :: _) as req)) =>
                  if negb (is_pending req) then edit_key upd q "admins.error.request_not_found"
                  else if String.eqb action "promo_approve" then promo_approve c q admin_id request_id req
                  else if String.eqb action "promo_reject" then promo_reject c q admin_id request_id req
                  else Ret tt
              | _ => edit_key upd q "admins.error.request_not_found"
              end
          end
      | _, _ => raw_answer
      end
  end.

Definition on_promo_decision (c : command) (q : option callback) :=
  ratelimiter_wrapper "on_promo_decision" (on_promo_decision_body c q) (c_upd c).

(** * transfer.py *)

(** The record of the owner, then the old owner's as an Admin. *)
Definition transfer_to (c : command) (msg : message) (owner_id target_id : Z) (target_fname : string)
    (target_uname : option string) (locale : ustr) : io unit :=
  let (lc, lt) := cfg_logs cfg in
  let unknown := if truthy_str (c_first_name c) then c_first_name c else "unknown"%string in
  set <- try_except (set_owner target_id ;;; Ret true) (fun _ => Ret false) ;;
  if negb set then say msg locale "admins.transfer.set_owner_fail"
  else
    prev_owner_admin_ok <- try_except (add_admin owner_id owner_id ;;; Ret true) (fun _ => Ret false) ;;
    let done := TKey "admins.transfer.done" locale
      [("user"%string, TUserRef target_id (name_or_id target_fname target_id) target_uname)] in
    let transfer_note := if prev_owner_admin_ok : bool then done
      else TCat [done; TKey "admins.transfer.admin_warn" locale [("user"%string, TUser owner_id unknown)]] in
    gather2
      (call (SendMessage lc (TBuild "parse_logmsg.ownership_transferred"
         [TInt target_id; TStr (name_or_id target_fname target_id); TInt owner_id; TStr unknown]) lt None))
      (call (ReplyText (message_id msg) transfer_note None)) ;;;
    Ret tt.

Definition cmd_transfer_body (c : command) : io unit :=
  locale <- locale_for_update (c_upd c) ;;
  match effective_user (c_upd c), effective_message (c_upd c) with
  | Some owner_id, Some msg =>
      target <- attempt (extract_target (c_incoming c) (args_of msg) true false) ;;
      match target with
      | Err e => if is_Exception e then safe_reply msg (err_role_verify locale) else Raise e
      | Ok None => safe_reply msg (err_cannot_resolve locale)
      | Ok (Some (target_id, target_fname)) =>
          if negb (truthy_Z target_id) then safe_reply msg (err_cannot_resolve locale)
          else
            ident <- attempt (classify bot_id owner_id target_id (Some target_fname) None) ;;
            match ident with
            | Err e => if is_Exception e then safe_reply msg (err_role_verify locale) else Raise e
            | Ok ident =>
                match refuse_message "transfer" ident locale with
                | Some refusal => safe_reply msg refusal
                | None =>
                    is_bot <- is_proven_bot (c_incoming c) (effective_chat (c_upd c)) target_id true ;;
                    if is_bot : bool then say msg locale "admins.error.bot_target"
                    else
                      role_check <- resolve_and_check msg owner_id target_id "developer" ;;
                      match role_check with
                      | (BNull, BNull) => Ret tt
                      | (_, target_role) =>
                          (if truthy_role target_role && negb (role_is "founder" target_role)
                           then try_except (DemoteFlow.remove_role target_id ;;; Ret tt) (fun _ => Ret tt)
                           else Ret tt) ;;;
                          transfer_to c msg owner_id target_id target_fname (username ident) locale
                      end
                end
            end
      end
  | _, _ => Ret tt
  end.

Definition cmd_transfer (c : command) := limited "cmd_transfer" owner_only (cmd_transfer_body c) (c_upd c).
End admins.

(** * Who grants a role *)
Section admin_lemmas.
Context {CAT : Catalog} (cfg : config) (bot_id : Z).
Abbreviation lookup := (never restless).
Abbreviation calm := (Forall (fun o => restless o = false)).

Lemma lookup_resolve_target c msg aid args locale : lookup (_resolve_executor_target c msg aid args locale).
Proof. unfold _resolve_executor_target, say. never_auto. Qed.

Lemma lookup_classify_load aid tid tn msg locale : lookup (_classify_and_load_role bot_id aid tid tn msg locale).
Proof. unfold _classify_and_load_role, say. never_auto. Qed.

Lemma lookup_callback_staff aid q upd : lookup (_check_callback_staff aid q upd).
Proof. unfold _check_callback_staff. never_auto. Qed.

(** What the three of them hand on was looked up. *)
Lemma resolve_target_spec c msg aid args locale :
  wp (_resolve_executor_target c msg aid args locale) (fun t r => forall er hit, r = Ok (Some (er, hit)) ->
    exists role, role_str role = er /\ during (get_effective_role aid) role t).
Proof.
  unfold _resolve_executor_target. apply wp_bind. eapply wp_gather2; [apply wp_exec|apply wp_exec|].
  intros t1 t2 t re rt He Ht Hi. split; [|done]. cbn beta iota. apply wp_bind, wp_intro. intros t3 [[]|e] _; [|done].
  assert (forall txt, wp (safe_reply msg txt ;;; Ret None) (fun t' (r : result (option (string * (Z * string)))) =>
    forall er hit, r = Ok (Some (er, hit)) -> exists role, role_str role = er /\
      during (get_effective_role aid) role (t ++ t3 ++ t'))) as Hno.
  { intros txt. apply wp_bind, wp_intro. intros t4 [[]|e] _; [|done]. by apply wp_ret. }
  destruct re as [role|e]; [|apply Hno].
  assert (wp match rt with
    | Ok (Some (target_id, target_fname)) =>
        if truthy_Z target_id then Ret (Some (role_str role, (target_id, target_fname)))
        else safe_reply msg (err_cannot_resolve locale) ;;; Ret None
    | _ => safe_reply msg (err_cannot_resolve locale) ;;; Ret None
    end (fun t' r => forall er hit, r = Ok (Some (er, hit)) -> exists role, role_str role = er /\
      during (get_effective_role aid) role (t ++ t3 ++ t'))) as Hyes.
  { destruct rt as [[[tid tn]|]|e]; [|apply Hno..]. destruct (truthy_Z tid); [|apply Hno].
    apply wp_ret. intros er hit [= <- _]. exists role. split; [done|]. apply during_l.
    eapply during_interleave; [exact Hi|]. left. by apply during_exec. }
  destruct role; try exact Hyes. by apply wp_ret.
Qed.

Lemma classify_load_spec aid tid tn msg locale :
  wp (_classify_and_load_role bot_id aid tid tn msg locale) (fun t r => forall ident cur,
    r = Ok (Some (ident, cur)) -> during (get_effective_role tid) cur t).
Proof.
  unfold _classify_and_load_role. apply wp_bind. eapply wp_gather2; [apply wp_exec|apply wp_exec|].
  intros t1 t2 t re rt He Ht Hi. split; [|done]. cbn beta iota. apply wp_bind, wp_intro. intros t3 [[]|e] _; [|done].
  assert (forall txt, wp (safe_reply msg txt ;;; Ret None) (fun t' (r : result (option (Identity * bson))) =>
    forall ident cur, r = Ok (Some (ident, cur)) -> during (get_effective_role tid) cur (t ++ t3 ++ t'))) as Hno.
  { intros txt. apply wp_bind, wp_intro. intros t4 [[]|e] _; [|done]. by apply wp_ret. }
  destruct re as [ident|e]; [|apply Hno]. destruct rt as [cur|e]; [|apply Hno].
  apply wp_ret. intros ident' cur' [= <- <-]. apply during_l.
  eapply during_interleave; [exact Hi|]. right. by apply during_exec.
Qed.

Lemma callback_staff_spec aid q upd :
  wp (_check_callback_staff aid q upd) (fun t r => forall er, r = Ok (Some er) ->
    during (get_effective_role aid) (BStr er) t).
Proof.
  unfold _check_callback_staff. apply wp_bind. eapply wp_gather2; [apply wp_exec|apply wp_exec|].
  intros t1 t2 t re rt He Ht Hi. split; [|done]. cbn beta iota. apply wp_bind, wp_intro. intros t3 [[]|e] _; [|done].
  assert (wp (edit_key upd q "common.err.perm_expired" ;;; Ret None) (fun t' (r : result (option string)) =>
    forall er, r = Ok (Some er) -> during (get_effective_role aid) (BStr er) (t ++ t3 ++ t'))) as Hno.
  { apply wp_bind, wp_intro. intros t4 [[]|e] _; [|done]. by apply wp_ret. }
  destruct re as [[]|e]; try apply Hno. destruct (_ || _); [|apply Hno].
  apply wp_ret. intros er [= <-]. apply during_l. eapply during_interleave; [exact Hi|]. left. by apply during_exec.
Qed.

(** ** Promotions *)

(** Nothing was written, or what was is permitted to the role the executor
    was found to hold, given the role its target was found to hold. *)
Definition justified (admin_id : Z) (t : trace eff) : Prop :=
  Forall (fun o => obs_write o = false) t \/
  exists executor_role target_id current_role role,
    during (get_effective_role admin_id) executor_role t /\
    during (get_effective_role target_id) current_role t /\
    Forall (fun o => permitted (role_str executor_role) target_id current_role role o = true) t.

Lemma justified_quiet aid t : calm t -> justified aid t.
Proof. intros H. left. eapply Forall_impl; [exact H|]. apply restless_write. Qed.

Lemma calm_permitted er tid cur role t : calm t -> Forall (fun o => permitted er tid cur role o = true) t.
Proof.
  intros H. eapply Forall_impl; [exact H|]. intros o Ho.
  assert (illicit er tid cur role o = false) as Hi.
  { apply passive_illicit. by apply restless_passive. }
  unfold illicit in Hi. by apply negb_false_iff.
Qed.

Lemma justified_execute {A} aid an erole tid tn cur role locale tp (k : bool * text -> io A) :
  calm tp -> during (get_effective_role aid) erole tp -> during (get_effective_role tid) cur tp ->
  (forall x, lookup (k x)) ->
  wp (x <- PromoteFlow.execute cfg aid an (role_str erole) tid tn cur role locale ;; k x)
     (fun t _ => justified aid (tp ++ t)).
Proof.
  intros Htp He Hc Hk.
  assert (forall t, Forall (fun o => illicit (role_str erole) tid cur role o = false) t -> justified aid (tp ++ t)) as Hj.
  { intros t Ht. right. exists erole, tid, cur, role. split; [by apply during_l|]. split; [by apply during_l|].
    apply Forall_app. split; [by apply calm_permitted|]. eapply Forall_impl; [exact Ht|].
    intros o Ho. unfold illicit in Ho. by apply negb_false_iff. }
  eapply wp_never_bind; [apply execute_permitted| |]; [|auto].
  intros t x Ht _. eapply wp_mono; [apply Hk|]. intros t' r Ht'. apply Hj. apply Forall_app. split; [done|].
  eapply Forall_impl; [exact Ht'|]. intros o Ho. apply passive_illicit. by apply restless_passive.
Qed.

Lemma justified_step {A} aid (p : io A) (k : A -> io unit) tp :
  lookup p -> calm tp ->
  (forall t a, calm (tp ++ t) -> exec p t (Ok a) -> wp (k a) (fun t' _ => justified aid ((tp ++ t) ++ t'))) ->
  wp (bind p k) (fun t _ => justified aid (tp ++ t)).
Proof.
  intros Hp Htp Hk. apply (calm_bind p k tp (fun t _ => justified aid t)); [done|done|exact Hk|].
  intros t e Ht _. by apply justified_quiet.
Qed.

Lemma justified_lookup aid (p : io unit) tp : lookup p -> calm tp -> wp p (fun t _ => justified aid (tp ++ t)).
Proof. intros Hp Htp. apply (lookup_rest p tp (fun t _ => justified aid t)); [done|done|]. intros. by apply justified_quiet. Qed.

Lemma promote_named_justified c msg aid erole tid tn ident cur arg locale tp :
  calm tp -> during (get_effective_role aid) erole tp -> during (get_effective_role tid) cur tp ->
  wp (promote_named cfg c msg aid (role_str erole) tid tn ident cur arg locale) (fun t _ => justified aid (tp ++ t)).
Proof.
  intros Htp He Hc. unfold promote_named. destruct (assoc arg ROLE_ALIASES) as [role|].
  - apply justified_execute; [done..|]. intros []. apply lookup_reply.
  - apply justified_lookup; [|done]. unfold say. destruct (available_roles_for _); never_auto.
Qed.

Lemma cmd_promote_justified c aid (Huser : effective_user (c_upd c) = Some aid) :
  wp (cmd_promote_body cfg bot_id c) (fun t _ => justified aid ([] ++ t)).
Proof.
  unfold cmd_promote_body. rewrite Huser. destruct (effective_message (c_upd c)) as [msg|].
  2: { apply justified_lookup; [apply never_ret|constructor]. }
  apply justified_step; [apply lookup_locale|constructor|]. intros t1 locale H1 _. cbv zeta.
  destruct (needs_target c msg _); [apply justified_lookup; [apply lookup_reply|done]|].
  apply justified_step; [apply lookup_resolve_target|done|]. intros t2 [[er [tid tn]]|] H2 Hr2.
  2: { apply justified_lookup; [apply never_ret|done]. }
  destruct (wp_elim _ _ _ _ (resolve_target_spec _ _ _ _ _) Hr2 _ _ eq_refl) as (erole & <- & He).
  apply justified_step; [apply lookup_classify_load|done|]. intros t3 [[ident cur]|] H3 Hr3.
  2: { apply justified_lookup; [apply never_ret|done]. }
  pose proof (wp_elim _ _ _ _ (classify_load_spec _ _ _ _ _) Hr3 _ _ eq_refl) as Hc.
  destruct (refuse_message "promote" ident locale); [apply justified_lookup; [apply lookup_reply|done]|].
  apply justified_step; [apply lookup_proven_bot|done|]. intros t4 [|] H4 _.
  { apply justified_lookup; [apply lookup_reply|done]. }
  apply promote_named_justified; [done|..].
  - apply during_l, during_l. by apply during_r.
  - apply during_l. by apply during_r.
Qed.

Lemma promote_btn_justified c q aid (Huser : effective_user (c_upd c) = Some aid) :
  wp (on_promote_role_btn_body cfg c q) (fun t _ => justified aid ([] ++ t)).
Proof.
  unfold on_promote_role_btn_body, raw_answer. rewrite Huser.
  destruct q as [[q data]|]; [|apply justified_lookup; [apply never_ret|constructor]].
  destruct (data ≫= role_button) as [[role ids]|]; [|apply justified_lookup; [never_auto|constructor]].
  destruct (int_of ids) as [tid|]; [|apply justified_lookup; [never_auto|constructor]].
  apply justified_step; [apply lookup_callback_staff|constructor|]. intros t1 [er|] H1 Hr1.
  2: { apply justified_lookup; [apply never_ret|done]. }
  pose proof (wp_elim _ _ _ _ (callback_staff_spec _ _ _) Hr1 _ eq_refl) as He.
  apply justified_step; [apply lookup_proven_bot|done|]. intros t2 [|] H2 _.
  { apply justified_lookup; [apply lookup_edit_key|done]. }
  destruct (negb _); [apply justified_lookup; [apply lookup_edit_key|done]|].
  apply justified_step; [never_auto|done|]. intros t3 [rn rc] H3 Hr3.
  apply justified_step; [apply lookup_throw|done|]. intros t4 [] H4 _.
  destruct rc as [cur|e]; [|apply justified_lookup; [apply lookup_edit_key|done]].
  apply justified_step; [apply lookup_locale|done|]. intros t5 locale H5 _.
  assert (during (get_effective_role tid) cur t3) as Hc.
  { assert (wp (gather2 (get_first_name tid (py_str tid)) (get_effective_role tid)) (fun t r => forall a b,
      r = Ok (a, Ok b) -> during (get_effective_role tid) b t)) as Hw.
    { eapply wp_gather2; [apply wp_exec|apply wp_exec|]. intros u1 u2 u r1 r2 _ H2' Hi. split; [|done].
      intros a b [= _ ->]. eapply during_interleave; [exact Hi|]. right. by apply during_exec. }
    exact (wp_elim _ _ _ _ Hw Hr3 _ _ eq_refl). }
  apply (justified_execute aid _ (BStr er)); [done|..].
  - do 4 apply during_l. by apply during_r.
  - apply during_l, during_l. by apply during_r.
  - intros []. apply lookup_edit_cb.
Qed.
End admin_lemmas.

(** C23: nobody is promoted but by staff.  Whatever fails, a run of the promote
    command or of its role button writes nothing, or writes only what is
    permitted - the admin record for a Founder, a custom role for a Founder or
    an Admin, a pending request otherwise, always of the one target and above
    the role it held - to the role that the executor, and given the role that
    the target, was found to hold in that very run. *)
Theorem promote_by_staff {CAT : Catalog} (cfg : config) (bot_id : Z) (c : command) (q : option callback)
    (admin_id : Z) (t : trace eff) (r : result unit)
    (Huser : effective_user (c_upd c) = Some admin_id)
    (Hrun : exec (cmd_promote_body cfg bot_id c) t r \/ exec (on_promote_role_btn_body cfg c q) t r) :
  justified admin_id t.
Proof.
  destruct Hrun as [Hrun|Hrun].
  - exact (wp_elim _ _ _ _ (cmd_promote_justified cfg bot_id c admin_id Huser) Hrun).
  - exact (wp_elim _ _ _ _ (promote_btn_justified cfg c q admin_id Huser) Hrun).
Qed.

(** The Founder, user 7, promotes user 8 to Admin. *)
Definition promote_command : command :=
  Command (Update (Some 7) (Some ("supergroup"%string, -100))
             (Some (Message 5 (-100) "supergroup" (Some "/tcpromote 8 Admin"%string))) false) None [] "boss" None false.

Lemma promote_by_staff_witness :
  let t := (replay owner_script (@cmd_promote_body demo_catalog demo_config 99 promote_command)).1 in
  existsb obs_granted t = true /\ justified 7 t.
Proof.
  split; [vm_compute; reflexivity|].
  refine (@promote_by_staff demo_catalog demo_config 99 promote_command None 7 _ _ eq_refl (or_introl _)).
  exact (replay_exec owner_script (@cmd_promote_body demo_catalog demo_config 99 promote_command)).
Defined.

(** * The Founder's decisions *)

(** The pending request was claimed: marked decided, by this call. *)
Definition obs_claimed (request_id : string) (o : obs eff) : bool :=
  match o with
  | Obs ev r =>
      match ev in eff X return result X -> bool with
      | UpdateOne "promotion_requests" [("request_id", BStr rid); ("status", BStr "pending")] _ _ =>
          fun r => String.eqb rid request_id && match r with Ok res => modified_count res >? 0 | Err _ => false end
      | _ => fun _ => false
      end r
  end.

(** The writes of a decision on a request for this target. *)
Definition decided (action request_id : string) (target_id : Z) (o : obs eff) : bool :=
  match o with
  | Obs ev _ =>
      match ev with
      | UpdateOne "promotion_requests" [("request_id", BStr rid); ("status", BStr "pending")]
          [("$set", BDoc (("status", BStr s) :: _))] _ =>
          String.eqb rid request_id &&
          (String.eqb action "promo_approve" && String.eqb s "approved" ||
           String.eqb action "promo_reject" && String.eqb s "rejected")
      | UpdateOne "tc_admins" [("user_id", BInt uid)] _ _ | UpdateOne "member_cache" [("user_id", BInt uid)] _ _
      | DeleteOne "tc_roles" [("user_id", BInt uid)] => (uid =? target_id) && String.eqb action "promo_approve"
      | _ => negb (obs_write o)
      end
  end.

Section decision_lemmas.
Context {CAT : Catalog} (cfg : config) (c : command) (q : message) (admin_id : Z) (request_id : string) (req : doc).
Abbreviation undecided action := (fun o => negb (decided action request_id (request_target req) o)).

Lemma restless_decided a o : restless o = false -> undecided a o = false.
Proof. destruct o as [X [] r]; simpl; try done; intros _; repeat case_match; done. Qed.

Lemma lookup_decided {A} a (p : io A) : never restless p -> never (undecided a) p.
Proof. intros Hp. eapply never_weaken; [exact Hp|]. apply restless_decided. Qed.

Lemma notify_never f tid s dm log :
  (forall o, obs_locale o = true -> f o = false) ->
  (forall ch m x kb r, f (Obs (EditMessageText ch m x kb) r) = false) ->
  (forall ch x th kb r, f (Obs (SendMessage ch x th kb) r) = false) ->
  never f (decision_notify cfg c q tid s dm log).
Proof.
  intros Hl He Hs. unfold decision_notify. destruct (cfg_logs cfg) as [lc lt].
  pose proof (locale_for_update_never f (c_upd c) Hl). pose proof (locale_for_user_never f tid Hl).
  apply never_bind; [by apply never_gather2|intros [a b]]. cbn beta iota. destruct a as [a|]; [|apply never_raise]. cbn [of_result].
  apply never_bind; [apply never_ret|intros ?]. destruct b as [b|]; [|apply never_raise]. cbn [of_result].
  apply never_bind; [apply never_ret|intros ?]. apply never_bind; [|intros; apply never_ret].
  apply never_gather3; apply never_call; auto.
Qed.

Lemma invalidate_lookup ca k : never restless (invalidate ca k).
Proof. unfold invalidate, redis_del_background. never_auto. Qed.

Lemma approve_decided : never (undecided "promo_approve") (promo_approve cfg c q admin_id request_id req).
Proof.
  assert (forall ca k, never (undecided "promo_approve") (invalidate ca k)) as Hinv
    by (intros; apply lookup_decided, invalidate_lookup).
  assert (never (undecided "promo_approve") (edit_key (c_upd c) q "admins.decision.approve_fail")) as Hfail
    by apply lookup_decided, lookup_edit_key.
  assert (forall ev : eff update_result, (forall r, undecided "promo_approve" (Obs ev r) = false) ->
    never (undecided "promo_approve") (call ev)) as Hcall by (intros; by apply never_call).
  unfold promo_approve, add_admin, resolve, upsert_user, Roles.remove_role, db_call. cbv zeta.
  apply never_bind; [never_auto; auto; apply Hcall; intros r; simpl; by rewrite Z.eqb_refl|intros [|]]; [|exact Hfail].
  cbn [negb]. apply never_bind; [never_auto; apply Hcall; intros r; simpl; by rewrite String.eqb_refl|intros [|]];
    [|exact Hfail].
  cbn [negb]. apply never_bind; [never_auto; auto; apply never_call; intros r; simpl; by rewrite Z.eqb_refl|intros [a b]].
  apply never_bind; [apply throw_never|intros _]. apply notify_never; [by intros [X [] r]|done|done].
Qed.

Lemma reject_decided : never (undecided "promo_reject") (promo_reject cfg c q admin_id request_id req).
Proof.
  unfold promo_reject, resolve, db_call. cbv zeta.
  apply never_bind; [never_auto; apply never_call; intros r; simpl; by rewrite String.eqb_refl|intros [|]].
  - cbn [negb]. apply notify_never; [by intros [X [] r]|done|done].
  - apply lookup_decided, lookup_edit_key.
Qed.

(** Nobody hears of a decision before the request was claimed for it. *)
Abbreviation silent := (waits (obs_claimed request_id) obs_sends (fun _ : result unit => false)).

Lemma lookup_silent (p : io unit) : never restless p -> silent p.
Proof. intros Hp. apply waits_never; [|done]. eapply never_weaken; [exact Hp|]. apply restless_sends. Qed.

Lemma resolve_claims status :
  waits (obs_claimed request_id) obs_sends (fun r => match r with Ok b => b | Err _ => false end)
    (try_except (resolve request_id status admin_id) (fun _ => Ret false)).
Proof.
  apply waits_from; [unfold resolve, db_call; never_auto|].
  apply wp_try. unfold resolve, db_call. destruct (negb _).
  - apply wp_raise. cbn [is_Exception]. by apply wp_ret.
  - wp_step. wp_step. wp_step. wp_step. destruct x0 as [res|e].
    + apply wp_ret. simpl. rewrite String.eqb_refl, orb_false_r. done.
    + destruct (is_Exception e); [by apply wp_ret|done].
Qed.

Lemma approve_silent : silent (promo_approve cfg c q admin_id request_id req).
Proof.
  unfold promo_approve. cbv zeta.
  pose proof (lookup_silent _ (lookup_edit_key (c_upd c) q "admins.decision.approve_fail")) as Hfail.
  apply waits_after; [|intros [|]|done]; [|cbn [negb]|exact Hfail].
  { unfold add_admin, db_call. pose proof invalidate_sent. never_auto; auto. }
  eapply waits_then; [apply resolve_claims| |done]. intros [|] Hb; [done|exact Hfail].
Qed.

Lemma reject_silent : silent (promo_reject cfg c q admin_id request_id req).
Proof.
  unfold promo_reject. cbv zeta. eapply waits_then; [apply resolve_claims| |done].
  intros [|] Hb; [done|]. apply lookup_silent, lookup_edit_key.
Qed.
End decision_lemmas.

(** What a run of the decision button comes to. *)
Definition founders_decision (c : command) (data : option string) (t : trace eff) : Prop :=
  Forall (fun o => restless o = false) t \/
  exists action request_id admin_id req,
    data ≫= split_colon = Some (action, request_id) /\ effective_user (c_upd c) = Some admin_id /\
    during (is_owner admin_id) true t /\ during (get_request_by_id request_id) (Some req) t /\
    is_pending req = true /\
    Forall (fun o => decided action request_id (request_target req) o = true) t /\
    guarded (obs_claimed request_id) obs_sends t = true.

Lemma lookup_is_owner uid : never restless (is_owner uid).
Proof. unfold is_owner. never_auto. Qed.

Lemma decision_run {CAT : Catalog} cfg c q :
  wp (on_promo_decision_body cfg c q) (fun t _ => founders_decision c (q ≫= cb_data) t).
Proof.
  unfold on_promo_decision_body, raw_answer.
  assert (forall (p : io unit) tp d, never restless p -> Forall (fun o => restless o = false) tp ->
    wp p (fun t _ => founders_decision c d (tp ++ t))) as Hcalm.
  { intros p tp d Hp Htp. apply (lookup_rest p tp (fun t _ => founders_decision c d t)); [done|done|].
    intros t r Ht. by left. }
  destruct q as [[q data]|]; [|apply (Hcalm _ []); [apply never_ret|constructor]]. simpl.
  destruct (data ≫= split_colon) as [[action rid]|] eqn:Hdata; [|apply (Hcalm _ []); [never_auto|constructor]].
  destruct (effective_user (c_upd c)) as [aid|] eqn:Huser; [|apply (Hcalm _ []); [never_auto|constructor]].
  assert (wp (gather3 (is_owner aid) (get_request_by_id rid) (call (AnswerCallback None))) (fun t r =>
    Forall (fun o => restless o = false) t /\ forall b rr ra, r = Ok (Ok b, rr, ra) ->
      during (is_owner aid) b t /\ forall x, rr = Ok x -> during (get_request_by_id rid) x t)) as Hg.
  { apply wp_conj.
    - apply never_gather3; [apply lookup_is_owner|unfold get_request_by_id, db_call; never_auto|never_auto].
    - eapply wp_gather3; [apply wp_exec|apply wp_exec|apply wp_exec|].
      intros t1 t2 t3 t23 t r1 r2 r3 H1 H2 H3 Hi23 Hi. split; [|done]. intros b rr ra [= -> <- _]. split.
      + eapply during_interleave; [exact Hi|]. left. by apply during_exec.
      + intros x ->. eapply during_interleave; [exact Hi|]. right. eapply during_interleave; [exact Hi23|].
        left. by apply during_exec. }
  apply wp_bind. eapply wp_mono; [exact Hg|]. clear Hg. intros t1 [[[ro rr] ra]|e] [H1 Hd]; [|by left].
  cbn beta iota. apply (calm_bind _ _ t1 (fun t _ => founders_decision c data t)); [never_auto|done| |].
  2: { intros t e Ht _. by left. }
  intros t2 [] H2 _. destruct ro as [[|]|e]; [|apply Hcalm; [apply lookup_edit_key|done]..].
  destruct rr as [[[|f req]|]|e]; try (apply Hcalm; [apply lookup_edit_key|done]).
  destruct (is_pending (f :: req)) eqn:Hp; cbn [negb]; [|apply Hcalm; [apply lookup_edit_key|done]].
  destruct (Hd _ _ _ eq_refl) as [Hown Hreq]. specialize (Hreq _ eq_refl).
  assert (forall (p : io unit), never (fun o => negb (decided action rid (request_target (f :: req)) o)) p ->
    waits (obs_claimed rid) obs_sends (fun _ => false) p ->
    wp p (fun t _ => founders_decision c data ((t1 ++ t2) ++ t))) as Hact.
  { intros p Hn Hw. eapply wp_mono; [exact (wp_conj _ _ _ Hn Hw)|]. intros t r [Ht [Hgd _]]. right.
    exists action, rid, aid, (f :: req). split; [done|]. split; [done|].
    split; [by apply during_l, during_l|]. split; [by apply during_l, during_l|]. split; [done|]. split.
    - apply Forall_app. split; (eapply Forall_impl; [eassumption|]); intros o Ho; cbn beta in Ho.
      + apply (restless_decided rid (f :: req) action) in Ho. by apply negb_false_iff.
      + by apply negb_false_iff.
    - rewrite guarded_app, Hgd, orb_true_r, andb_true_r. apply guarded_none.
      eapply Forall_impl; [exact H2|]. apply restless_sends. }
  destruct (String.eqb_spec action "promo_approve") as [->|];
    [apply Hact; [apply approve_decided|apply approve_silent]|].
  destruct (String.eqb_spec action "promo_reject") as [->|];
    [apply Hact; [apply reject_decided|apply reject_silent]|].
  apply Hcalm; [apply never_ret|done].
Qed.

(** Only the Founder decides a request, only a pending one, and only as
    the button says.  A run of the decision button does nothing but answer, or
    in this run the presser was looked up as the owner and the request named by
    the button as pending; then every write belongs to that decision - the
    claim of that request, and for an approval the records of its target - and
    nobody is notified before the claim succeeded. *)
Theorem decision_by_founder {CAT : Catalog} (cfg : config) (c : command) (q : option callback)
    (t : trace eff) (r : result unit) (Hrun : exec (on_promo_decision_body cfg c q) t r) :
  founders_decision c (q ≫= cb_data) t.
Proof. exact (wp_elim _ _ _ _ (decision_run cfg c q) Hrun). Qed.

Definition decide_command : command :=
  Command (Update (Some 7) (Some ("private"%string, 7)) (Some (Message 6 7 "private" None)) true) None [] "boss" None false.
Definition decide_button (action : string) : option callback :=
  Some (Callback (Message 6 7 "private" (Some "card"%string)) (Some (action ++ ":r1")%string)).

(** User 7 is the owner; request [r1], for user 8, is pending. *)
Definition request_script (others : script) : script := fun X ev =>
  match ev in eff X return option (result X) with
  | FindOne "promotion_requests" _ _ =>
      Some (Ok (Some ["target_id" ~> BInt 8; "first_name" ~> BStr "x"; "status" ~> BStr "pending"]))
  | ev => match others _ ev with Some r => Some r | None => owner_script _ ev end
  end.

Definition approval : trace eff * result unit :=
  replay (request_script no_script) (@on_promo_decision_body demo_catalog demo_config decide_command
    (decide_button "promo_approve")).

Lemma decision_by_founder_witness :
  existsb obs_sends approval.1 = true /\ founders_decision decide_command (Some "promo_approve:r1"%string) approval.1.
Proof.
  split; [vm_compute; reflexivity|].
  refine (@decision_by_founder demo_catalog demo_config decide_command (decide_button "promo_approve") _ approval.2 _).
  exact (replay_exec (request_script no_script) (@on_promo_decision_body demo_catalog demo_config decide_command
    (decide_button "promo_approve"))).
Defined.

(** ** Concurrent decisions *)

(** Any number of runs, their calls in any order. *)
Inductive interleaves {A} : list (list A) -> list A -> Prop :=
  | ils_nil : interleaves [] []
  | ils_cons l ls l1 l2 : interleaves ls l1 -> interleave l l1 l2 -> interleaves (l :: ls) l2.

Definition new_status (o : obs eff) : option string :=
  match o with
  | Obs ev _ => match ev with UpdateOne _ _ [("$set", BDoc (("status", BStr s) :: _))] _ => Some s | _ => None end
  end.

(** The calls of a run on one document, whose status is [status]: an update
    filtered on "pending" modifies it only while it is, and leaves it with the
    status it sets. *)
Fixpoint stored (request_id status : string) (t : trace eff) : Prop :=
  match t with
  | [] => True
  | o :: t' =>
      if obs_claimed request_id o
      then status = "pending"%string /\ stored request_id (default status (new_status o)) t'
      else stored request_id status t'
  end.

Definition closes (request_id : string) (o : obs eff) : Prop :=
  obs_claimed request_id o = true -> exists s, new_status o = Some s /\ s <> "pending"%string.

Lemma stored_once rid t s :
  Forall (closes rid) t -> stored rid s t ->
  (tcount (obs_claimed rid) t <= if String.eqb s "pending" then 1 else 0)%nat.
Proof.
  intros Ht. revert s. induction Ht as [|o t Ho _ IH]; intros s Hs; [rewrite tcount_nil; destruct (String.eqb s _); lia|].
  rewrite tcount_cons. simpl in Hs. destruct (obs_claimed rid o) eqn:Hc; [|apply IH in Hs; simpl; lia].
  destruct Hs as [-> Hs]. destruct (Ho Hc) as (s & Hn & Hne). rewrite Hn in Hs. simpl in Hs. apply IH in Hs.
  destruct (String.eqb_spec s "pending"); [done|]. simpl. lia.
Qed.

(** A claim is a call of [resolve]. *)
Lemma claimed_inv rid o :
  obs_claimed rid o = true ->
  exists up ups res, o = Obs (UpdateOne "promotion_requests" (pending_filter rid) up ups) (Ok res).
Proof.
  destruct o as [X ev r]. unfold obs_claimed. destruct ev; try done. intros H.
  repeat (case_match; try done; simplify_eq).
  all: apply andb_true_iff in H as [Hs%String.eqb_eq Hm]; try done; subst; unfold pending_filter; eauto.
Qed.

Lemma decided_closes a rid tid o : decided a rid tid o = true -> closes rid o.
Proof.
  intros Hd Hc. destruct (claimed_inv _ _ Hc) as (up & ups & res & ->). unfold decided, pending_filter in Hd.
  cbn -[String.eqb] in Hd. cbn. repeat (case_match; try done; simplify_eq).
  eexists. split; [done|]. intros ->. rewrite !andb_false_r in Hd. done.
Qed.

Lemma interleaves_Forall {A} (P : A -> Prop) ls l : interleaves ls l -> Forall (Forall P) ls -> Forall P l.
Proof.
  induction 1 as [|l ls l1 l2 _ IH Hi]; [done|]. intros [Hl Hls]%Forall_cons. apply (interleave_Forall _ _ _ _ Hi). auto.
Qed.

(** The runs a call of a class was made in, against the calls of the class. *)
Lemma interleaves_count (f : obs eff -> bool) ls l :
  interleaves ls l -> (length (List.filter (existsb f) ls) <= tcount f l)%nat.
Proof.
  induction 1 as [|l ls l1 l2 _ IH Hi]; [done|]. rewrite (tcount_interleave f _ _ _ Hi). simpl.
  destruct (existsb f l) eqn:He; [|lia]. simpl. rewrite existsb_tcount in He. apply negb_true_iff, Nat.eqb_neq in He. lia.
Qed.

Lemma filter_length_mono {A} (f g : A -> bool) l :
  (forall x, In x l -> f x = true -> g x = true) -> (length (List.filter f l) <= length (List.filter g l))%nat.
Proof.
  induction l as [|x l IH]; intros H; [done|]. simpl. pose proof (H x (or_introl eq_refl)) as Hx.
  specialize (IH (fun y Hy => H y (or_intror Hy))). destruct (f x); [rewrite Hx by done; simpl; lia|].
  destruct (g x); simpl; lia.
Qed.

(** A run of the button of this request. *)
Definition decision_of {CAT : Catalog} (cfg : config) (request_id : string) (t : trace eff) : Prop :=
  exists c (q : option callback) action r, (q ≫= cb_data) ≫= split_colon = Some (action, request_id) /\
    exec (on_promo_decision_body cfg c q) t r.

Lemma decision_run_claims {CAT : Catalog} cfg rid t :
  decision_of cfg rid t -> Forall (closes rid) t /\ (existsb obs_sends t = true -> existsb (obs_claimed rid) t = true).
Proof.
  intros (c & q & a & r & Hq & Hrun).
  destruct (wp_elim _ _ _ _ (decision_run cfg c q) Hrun) as [Hc|(a' & rid' & aid & req & Hd & _ & _ & _ & _ & Hdec & Hg)].
  - assert (existsb obs_sends t = false) as ->.
    { apply existsb_false_Forall. eapply Forall_impl; [exact Hc|]. apply restless_sends. }
    split; [|done]. eapply Forall_impl; [exact Hc|]. intros o Ho Hcl. exfalso.
    apply restless_write in Ho. by destruct (claimed_inv _ _ Hcl) as (up & ups & res & ->).
  - assert (rid' = rid) as -> by congruence. split.
    + eapply Forall_impl; [exact Hdec|]. intros o Ho. exact (decided_closes _ _ _ _ Ho).
    + intros Hs. destruct (existsb (obs_claimed rid) t) eqn:He; [done|].
      by rewrite (guarded_absent _ _ _ Hg He) in Hs.
Qed.

(** C24: one request, one verdict.  However many presses of the buttons of one
    request run at once, in whatever interleaving of their calls, over a store
    that keeps the request's status: at most one of them notifies anybody. *)
Theorem one_decision {CAT : Catalog} (cfg : config) (request_id : string) (runs : list (trace eff)) (t : trace eff)
    (Hruns : Forall (decision_of cfg request_id) runs) (Ht : interleaves runs t)
    (Hstore : stored request_id "pending" t) :
  (length (List.filter (existsb obs_sends) runs) <= 1)%nat.
Proof.
  etrans; [apply (filter_length_mono _ (existsb (obs_claimed request_id)))|].
  - intros x Hx. rewrite Forall_forall in Hruns. apply decision_run_claims with (cfg := cfg). apply Hruns.
    by apply list_elem_of_In.
  - etrans; [by apply interleaves_count|]. change 1%nat with (if String.eqb "pending" "pending" then 1 else 0)%nat.
    apply stored_once; [|done]. eapply interleaves_Forall; [exact Ht|]. eapply Forall_impl; [exact Hruns|].
    intros x Hx. by apply decision_run_claims with (cfg := cfg).
Qed.

(** The request is decided already when the claim arrives. *)
Definition claimed_before : script := fun X ev =>
  match ev in eff X return option (result X) with
  | UpdateOne "promotion_requests" _ _ _ => Some (Ok (UpdateResult 0 0 false))
  | _ => None
  end.

Definition late (action : string) : trace eff * result unit :=
  replay (request_script claimed_before) (@on_promo_decision_body demo_catalog demo_config decide_command
    (decide_button action)).

(** The approval wins, a rejection pressed meanwhile comes second. *)
Lemma one_decision_witness :
  let runs := [approval.1; (late "promo_reject").1] in
  interleaves runs (approval.1 ++ (late "promo_reject").1) /\
  (length (List.filter (existsb obs_sends) runs) <= 1)%nat.
Proof.
  assert (interleaves [approval.1; (late "promo_reject").1] (approval.1 ++ (late "promo_reject").1)) as Hi.
  { eapply ils_cons; [|apply interleave_app]. eapply ils_cons; [apply ils_nil|apply interleave_nil_r]. }
  split; [exact Hi|].
  refine (@one_decision demo_catalog demo_config "r1" _ _ _ Hi _).
  - constructor; [|constructor; [|constructor]].
    + exists decide_command, (decide_button "promo_approve"), "promo_approve"%string, approval.2.
      split; [reflexivity|]. exact (replay_exec (request_script no_script)
        (@on_promo_decision_body demo_catalog demo_config decide_command (decide_button "promo_approve"))).
    + exists decide_command, (decide_button "promo_reject"), "promo_reject"%string, (late "promo_reject").2.
      split; [reflexivity|]. exact (replay_exec (request_script claimed_before)
        (@on_promo_decision_body demo_catalog demo_config decide_command (decide_button "promo_reject"))).
  - vm_compute. done.
Defined.

(** An approval that loses the race to a rejection has granted the role: the
    admin record is written before the claim, and nothing takes it back. *)
Lemma lost_approval_keeps_admin :
  existsb obs_granted (late "promo_approve").1 = true /\ existsb obs_sends (late "promo_approve").1 = false /\
  existsb (fun o => match o with Obs ev _ => match ev with DeleteOne "tc_admins" _ => true | _ => false end end)
    (late "promo_approve").1 = false /\
  exec (@on_promo_decision_body demo_catalog demo_config decide_command (decide_button "promo_approve"))
    (late "promo_approve").1 (Ok tt).
Proof.
  do 3 (split; [vm_compute; reflexivity|]).
  exact (replay_exec (request_script claimed_before)
    (@on_promo_decision_body demo_catalog demo_config decide_command (decide_button "promo_approve"))).
Qed.

(** * Transfers *)

(** Only a transfer writes owner records. *)
Definition obs_owner_write (o : obs eff) : bool := obs_replace_owner o || obs_delete_owners o ||
  match o with Obs ev _ => match ev with FindOneAndReplace "tc_owners" _ _ _ _ => true | _ => false end end.

(** The new owner is announced, and the old one made an Admin. *)
Definition obs_handover (owner_id : Z) (o : obs eff) : bool :=
  obs_sends o ||
  match o with
  | Obs ev _ => match ev with UpdateOne "tc_admins" [("user_id", BInt uid)] _ _ => uid =? owner_id | _ => false end
  end.

(** An owner record put on anybody else. *)
Definition misowned (target_id : Z) (o : obs eff) : bool :=
  match o with
  | Obs ev _ =>
      match ev with
      | FindOneAndReplace "tc_owners" [] [("user_id", BInt uid)] _ _ => negb (uid =? target_id)
      | FindOneAndReplace "tc_owners" _ _ _ _ => true
      | _ => false
      end
  end.

Section transfer_lemmas.
Context {CAT : Catalog} (cfg : config) (bot_id : Z) (c : command) (msg : message) (owner_id : Z).
Abbreviation calm := (Forall (fun o => restless o = false)).

(** Nothing was handed over, or the handover was to somebody who was looked up
    as an account that is not known to be a bot and ranks below the owner. *)
Definition transferred (t : trace eff) : Prop :=
  Forall (fun o => obs_owner_write o = false /\ obs_handover owner_id o = false) t \/
  exists target_id owner_role target_role,
    during (is_proven_bot (c_incoming c) (effective_chat (c_upd c)) target_id true) false t /\
    during (resolve_and_check msg owner_id target_id "developer") (owner_role, target_role) t /\
    (owner_role, target_role) <> (BNull, BNull) /\ target_id <> owner_id /\ target_id <> bot_id /\ target_id <> 0 /\
    guarded obs_deleted_owners (obs_handover owner_id) t = true /\
    Forall (fun o => misowned target_id o = false) t.

Lemma classify_kind e tid n :
  wp (classify bot_id e tid n None) (fun t r => forall ident, r = Ok ident ->
    (tid = e -> id_kind ident = Self) /\ (tid <> e -> tid = bot_id -> id_kind ident = ThisBot)).
Proof.
  unfold classify. apply wp_bind. eapply wp_gather2; [apply wp_exec|apply wp_exec|].
  intros t1 t2 t r1 r2 _ _ _. split; [|done]. cbn beta iota. apply wp_bind, wp_intro. intros t3 [[]|x] _; [|done].
  cbv zeta. destruct (Z.eqb_spec tid e) as [He|He]; [apply wp_ret; intros ident [= <-]; split; [done|by intros]|].
  destruct (Z.eqb_spec tid bot_id) as [Hb|Hb]; [apply wp_ret; intros ident [= <-]; by split|].
  apply wp_intro. intros t4 r4 _ ident _. split; by intros.
Qed.

Lemma unrefused_transfer ident locale :
  refuse_message "transfer" ident locale = None -> id_kind ident <> Self /\ id_kind ident <> ThisBot.
Proof. unfold refuse_message, refused_kinds. simpl. intros H. split; intros Hk; by rewrite Hk in H. Qed.

Lemma handover_calm o : restless o = false -> obs_handover owner_id o = false.
Proof.
  intros Ho. unfold obs_handover. rewrite (restless_sends _ Ho). simpl. apply restless_write in Ho.
  destruct o as [X [] r]; done.
Qed.

Lemma owner_write_calm o : restless o = false -> obs_owner_write o = false.
Proof. intros Ho. apply restless_write in Ho. destruct o as [X [] r]; done. Qed.

Lemma set_owner_hands tid :
  waits obs_deleted_owners (obs_handover owner_id) (fun r => match r with Ok b => b | Err _ => false end)
    (try_except (set_owner tid ;;; Ret true) (fun _ => Ret false)).
Proof.
  apply waits_from.
  - unfold set_owner, converge_owner, put, clear_all, redis_put_background, db_call.
    never_auto.
  - apply wp_try, wp_bind, wp_intro. intros t [[]|e] Hrun.
    + apply wp_ret. intros _. rewrite app_nil_r. by apply (set_owner_order tid t (Ok tt)).
    + destruct (is_Exception e); [by apply wp_ret|done].
Qed.

Lemma transfer_hands tid tn un locale :
  waits obs_deleted_owners (obs_handover owner_id) (fun _ => false) (transfer_to cfg c msg owner_id tid tn un locale).
Proof.
  unfold transfer_to. destruct (cfg_logs cfg) as [lc lt]. cbv zeta.
  eapply waits_then; [apply set_owner_hands| |done]. intros [|] Hb; [done|].
  apply waits_never; [|done]. eapply never_weaken; [apply lookup_reply|]. apply handover_calm.
Qed.

Lemma misowned_calm tid o : restless o = false -> misowned tid o = false.
Proof. intros Ho. apply restless_write in Ho. destruct o as [X [] r]; done. Qed.

Lemma transfer_owned tid tn un locale : never (misowned tid) (transfer_to cfg c msg owner_id tid tn un locale).
Proof.
  assert (never (misowned tid) (set_owner tid)) as Hset.
  { unfold set_owner, converge_owner, put, clear_all, redis_put_background, db_call. never_auto.
    apply never_call. intros r. simpl. by rewrite Z.eqb_refl. }
  assert (forall a b, never (misowned tid) (add_admin a b)) as Hadd.
  { intros a b. unfold add_admin, db_call.
    assert (forall ca k, never (misowned tid) (invalidate ca k))
      by (intros; eapply never_weaken; [apply invalidate_lookup|apply misowned_calm]).
    never_auto; auto. }
  assert (never (misowned tid) (safe_reply msg (TKey "admins.transfer.set_owner_fail" locale [])))
    by (eapply never_weaken; [apply lookup_reply|apply misowned_calm]).
  unfold transfer_to, say. destruct (cfg_logs cfg) as [lc lt]. cbv zeta. never_auto; auto.
Qed.

Lemma transferred_calm t : calm t -> transferred t.
Proof.
  intros H. left. eapply Forall_impl; [exact H|]. intros o Ho. split; [by apply owner_write_calm|by apply handover_calm].
Qed.

(** Clearing the target's old role is neither. *)
Lemma clear_role_never tid f :
  (forall o, restless o = false -> f o = false) ->
  (forall q r, f (Obs (DeleteOne "tc_admins" q) r) = false) -> (forall q r, f (Obs (DeleteOne "tc_roles" q) r) = false) ->
  never f (try_except (DemoteFlow.remove_role tid ;;; Ret tt) (fun _ => Ret tt)).
Proof.
  intros Hf Ha Hr.
  assert (forall ca k, never f (invalidate ca k)) by (intros; eapply never_weaken; [apply invalidate_lookup|exact Hf]).
  unfold DemoteFlow.remove_role, remove_admin, Roles.remove_role, db_call. never_auto; auto; by apply never_call.
Qed.

(** Once the checks passed: the old role, then the owner record, then news. *)
Lemma handover_run (pre : io unit) tp tid tn un locale orole trole :
  never (obs_handover owner_id) pre -> never (misowned tid) pre -> calm tp ->
  during (is_proven_bot (c_incoming c) (effective_chat (c_upd c)) tid true) false tp ->
  during (resolve_and_check msg owner_id tid "developer") (orole, trole) tp ->
  (orole, trole) <> (BNull, BNull) -> tid <> owner_id -> tid <> bot_id -> tid <> 0 ->
  wp (pre ;;; transfer_to cfg c msg owner_id tid tn un locale) (fun t _ => transferred (tp ++ t)).
Proof.
  intros Hp Hm Htp Hbot Hrank Hne Ho Hb H0.
  assert (waits obs_deleted_owners (obs_handover owner_id) (fun _ => false)
            (pre ;;; transfer_to cfg c msg owner_id tid tn un locale)) as Hw
    by (apply waits_after; [done|intros []; apply transfer_hands|done]).
  assert (never (misowned tid) (pre ;;; transfer_to cfg c msg owner_id tid tn un locale)) as Hn
    by (apply never_bind; [done|intros []; apply transfer_owned]).
  eapply wp_mono; [exact (wp_conj _ _ _ Hw Hn)|]. intros t r [[Hg _] Hown]. right. exists tid, orole, trole.
  do 2 (split; [by apply during_l|]). do 4 (split; [done|]). split.
  - rewrite guarded_app, Hg, orb_true_r, andb_true_r. apply guarded_none.
    eapply Forall_impl; [exact Htp|]. apply handover_calm.
  - apply Forall_app. split; [|exact Hown]. eapply Forall_impl; [exact Htp|]. apply misowned_calm.
Qed.

Lemma transfer_calm_end (p : io unit) tp :
  never restless p -> calm tp -> wp p (fun t _ => transferred (tp ++ t)).
Proof. intros Hp Htp. apply (lookup_rest p tp (fun t _ => transferred t)); [done|done|]. intros. by apply transferred_calm. Qed.

Lemma transfer_step {A} (p : io A) (k : A -> io unit) tp :
  never restless p -> calm tp ->
  (forall t a, calm (tp ++ t) -> exec p t (Ok a) -> wp (k a) (fun t' _ => transferred ((tp ++ t) ++ t'))) ->
  wp (bind p k) (fun t _ => transferred (tp ++ t)).
Proof.
  intros Hp Htp Hk. apply (calm_bind p k tp (fun t _ => transferred t)); [done|done|exact Hk|].
  intros t e Ht _. by apply transferred_calm.
Qed.

Lemma cmd_transfer_run (Huser : effective_user (c_upd c) = Some owner_id)
    (Hmsg : effective_message (c_upd c) = Some msg) :
  wp (cmd_transfer_body cfg bot_id c) (fun t _ => transferred ([] ++ t)).
Proof.
  unfold cmd_transfer_body. apply transfer_step; [apply lookup_locale|constructor|]. intros t1 locale H1 _.
  rewrite Huser, Hmsg. apply transfer_step; [apply never_attempt, lookup_target|done|].
  intros t2 [[[tid tn]|]|e] H2 _; [|apply transfer_calm_end; [apply lookup_reply|done]|];
    [|apply transfer_calm_end; [destruct (is_Exception e); never_auto|done]].
  destruct (truthy_Z tid) eqn:H0; cbn [negb]; [|apply transfer_calm_end; [apply lookup_reply|done]].
  apply transfer_step; [apply never_attempt, lookup_classify|done|].
  intros t3 [ident|e] H3 Hr3; [|apply transfer_calm_end; [destruct (is_Exception e); never_auto|done]].
  apply exec_attempt in Hr3 as (ra & [= <-] & Hr3).
  destruct (wp_elim _ _ _ _ (classify_kind _ _ _) Hr3 _ eq_refl) as [Hself Hbot].
  destruct (refuse_message "transfer" ident locale) eqn:Href; [apply transfer_calm_end; [apply lookup_reply|done]|].
  apply unrefused_transfer in Href as [Hks Hkb].
  apply transfer_step; [apply lookup_proven_bot|done|].
  intros t4 [|] H4 Hr4; [apply transfer_calm_end; [apply lookup_reply|done]|].
  apply transfer_step; [apply lookup_resolve_and_check|done|]. intros t5 [orole trole] H5 Hr5.
  assert (orole <> BNull \/ trole <> BNull -> wp ((if truthy_role trole && negb (role_is "founder" trole)
               then try_except (DemoteFlow.remove_role tid ;;; Ret tt) (fun _ => Ret tt) else Ret tt) ;;;
              transfer_to cfg c msg owner_id tid tn (username ident) locale)
             (fun t _ => transferred (((((([] ++ t1) ++ t2) ++ t3) ++ t4) ++ t5) ++ t))) as Hgo.
  { intros Hnn. apply (handover_run _ _ _ _ _ _ orole trole).
    - destruct (_ && _); [|apply never_ret]. apply clear_role_never; [apply handover_calm|done|done].
    - destruct (_ && _); [|apply never_ret]. apply clear_role_never; [apply misowned_calm|done|done].
    - done.
    - apply during_l, during_r. by apply during_exec.
    - apply during_r. by apply during_exec.
    - intros [= -> ->]. by destruct Hnn.
    - intros Ht. by apply Hks, Hself.
    - intros Ht. destruct (Z.eq_dec tid owner_id) as [He|He]; [by apply Hks, Hself|by apply Hkb, Hbot].
    - unfold truthy_Z in H0. by to_prop. }
  destruct orole; try (apply Hgo; by left). destruct trole; try (apply Hgo; by right).
  apply transfer_calm_end; [apply never_ret|done].
Qed.
End transfer_lemmas.

(** C25: ownership passes only to an account that may hold it.  Whatever fails, a
    run of the transfer command leaves the owner records alone, makes nobody an
    Admin and announces nothing, or its target is neither the owner nor the bot
    itself, was not found to be a bot, and passed the rank check below the
    owner in this run; every owner record written names that target, and the
    old owner is made an Admin, and the transfer announced, only after the
    other owner records were deleted. *)
Theorem transfer_sound {CAT : Catalog} (cfg : config) (bot_id : Z) (c : command) (msg : message) (owner_id : Z)
    (t : trace eff) (r : result unit)
    (Huser : effective_user (c_upd c) = Some owner_id) (Hmsg : effective_message (c_upd c) = Some msg)
    (Hrun : exec (cmd_transfer_body cfg bot_id c) t r) :
  transferred bot_id c msg owner_id t.
Proof. exact (wp_elim _ _ _ _ (cmd_transfer_run cfg bot_id c msg owner_id Huser Hmsg) Hrun). Qed.

Definition transfer_message : message := Message 5 (-100) "supergroup" (Some "/tctransfer 8"%string).
Definition transfer_command : command :=
  Command (Update (Some 7) (Some ("supergroup"%string, -100)) (Some transfer_message) false) None [] "boss" None false.

Definition transfer_run (ov : script) : trace eff * result unit :=
  replay ov (@cmd_transfer_body demo_catalog demo_config 99 transfer_command).

Lemma transfer_sound_witness :
  existsb obs_replace_owner (transfer_run staff_script).1 = true /\
  @transferred demo_catalog 99 transfer_command transfer_message 7 (transfer_run staff_script).1.
Proof.
  split; [vm_compute; reflexivity|].
  refine (@transfer_sound demo_catalog demo_config 99 transfer_command transfer_message 7 _
    (transfer_run staff_script).2 eq_refl eq_refl _).
  exact (replay_exec staff_script (@cmd_transfer_body demo_catalog demo_config 99 transfer_command)).
Defined.

(** The owner records cannot be written. *)
Definition owners_down : script := fun X ev =>
  match ev in eff X return option (result X) with
  | FindOneAndReplace "tc_owners" _ _ _ _ => Some (Err (PyMongoError "down"))
  | ev => staff_script _ ev
  end.

(** A transfer that fails has already taken the target's own role away, and
    the answer speaks only of the owner record. *)
Lemma failed_transfer_demotes :
  Exists (obs_cleared 8) (transfer_run owners_down).1 /\
  existsb obs_sends (transfer_run owners_down).1 = false /\
  last (transfer_run owners_down).1 =
    Some (Obs (ReplyText 5 (TKey "admins.transfer.set_owner_fail" DEFAULT_LOCALE []) None) (Ok 1)).
Proof.
  split; [|split; vm_compute; reflexivity].
  apply Exists_exists. exists (Obs (DeleteOne "tc_admins" ["user_id" ~> BInt 8]) (Ok 1)). split; [|vm_compute; auto].
  apply list_elem_of_In. vm_compute. repeat (try (left; reflexivity); right).
Qed.
