(* ===== verification/BanSession.v ===== *)
(** The live proof collection of a ban:
    [tcbot/modules/helper/workflows/ban_flow/session.py] and the handlers of
    [handlers.py] that touch it, as one state machine.

    What runs between two [await]s is one event: handlers, the silence-window
    task of every session, and the executions they start, in any order.
    Sessions are objects with an identity ([nat]); the registry maps a (chat,
    user) to one.  [ctx.user_data] belongs to the user alone, whatever the chat
    (python-telegram-bot keeps one dict per user).  Times are microseconds. *)

From S2P Require Import Prelude Prog Text World I18n ProofUpload BanFlow.

(** 60 seconds. *)
Definition _PROOF_COLLECT_MAX_S : Z := 60 * 1000000.

(** [_ProofSession]; [s_user] stands for the [user_data] dict it refers to. *)
Record session := Session {
  s_msgs : list proof_message;
  s_meta : ban_meta;
  s_user : Z;
  s_deadline : Z;
  s_last_arrival : Z;
  s_flushing : bool;
  s_cancelled : bool
}.

(** The flush task of a session: asleep or executing, with its local variable
    [session] and whether it was asked to cancel. *)
Inductive task_pc : Type := Sleeping | Executing | Ended.
Record task := Task { t_pc : task_pc; t_local : option nat; t_cancel : bool }.

(** A Done tap after its claim: waiting for [q.answer()], for the rank check,
    or for the execution. *)
Inductive tap_pc : Type := TapAnswer | TapRecheck | TapExecuting | TapEnded.
Record tap := Tap { tap_key : Z * Z; tap_session : nat; tap_at : tap_pc }.

(** A call of [_execute_ban], and whether the tapper's rank was rechecked. *)
Record execution := Execution {
  x_session : nat;
  x_msgs : list proof_message;
  x_meta : ban_meta;
  x_checked : bool
}.

Record state := State {
  user_data : gmap Z ban_meta;
  heap : gmap nat session;
  _proof_sessions : gmap (Z * Z) nat;
  tasks : gmap nat (Z * Z * task);
  taps : list tap;
  executions : list execution
}.

Definition initial : state := State ∅ ∅ ∅ ∅ [] [].

Definition set_data (d : gmap Z ban_meta) (st : state) : state :=
  State d (heap st) (_proof_sessions st) (tasks st) (taps st) (executions st).
Definition set_heap (h : gmap nat session) (st : state) : state :=
  State (user_data st) h (_proof_sessions st) (tasks st) (taps st) (executions st).
Definition set_sessions (r : gmap (Z * Z) nat) (st : state) : state :=
  State (user_data st) (heap st) r (tasks st) (taps st) (executions st).
Definition set_tasks (ts : gmap nat (Z * Z * task)) (st : state) : state :=
  State (user_data st) (heap st) (_proof_sessions st) ts (taps st) (executions st).
Definition set_taps (ts : list tap) (st : state) : state :=
  State (user_data st) (heap st) (_proof_sessions st) (tasks st) ts (executions st).
Definition set_executions (xs : list execution) (st : state) : state :=
  State (user_data st) (heap st) (_proof_sessions st) (tasks st) (taps st) xs.

Definition claim (s : session) : session :=
  Session (s_msgs s) (s_meta s) (s_user s) (s_deadline s) (s_last_arrival s) true (s_cancelled s).
Definition mark_cancelled (s : session) : session :=
  Session (s_msgs s) (s_meta s) (s_user s) (s_deadline s) (s_last_arrival s) (s_flushing s) true.
Definition add_proof (m : proof_message) (now : Z) (s : session) : session :=
  Session (s_msgs s ++ [m]) (s_meta s) (s_user s) (s_deadline s) now (s_flushing s) (s_cancelled s).

(** [meta.get("ban_target_id") and meta.get("ban_admin_id")] *)
Definition complete (meta : ban_meta) : bool := truthy_Z (ban_target_id meta) && truthy_Z (ban_admin_id meta).

Definition _clear_ban_state (user : Z) (st : state) : state := set_data (delete user (user_data st)) st.

Definition request_cancel (sid : nat) (st : state) : state :=
  set_tasks (alter (fun kt => (kt.1, Task (t_pc kt.2) (t_local kt.2) true)) sid (tasks st)) st.

(** Pop one session of this user: mark it, cancel its task. *)
Definition drop_session (key : Z * Z) (sid : nat) (st : state) : state :=
  request_cancel sid
    (set_heap (alter mark_cancelled sid (heap st)) (set_sessions (delete key (_proof_sessions st)) st)).

Definition sessions_of (user : Z) (st : state) : list ((Z * Z) * nat) :=
  List.filter (fun ks => match heap st !! ks.2 with Some s => s_user s =? user | None => false end)
    (map_to_list (_proof_sessions st)).

Definition _cancel_proof_session (user : Z) (st : state) : state :=
  fold_left (fun st ks => drop_session ks.1 ks.2 st) (sessions_of user st) (_clear_ban_state user st).

(** The [finally] of a task, and of a Done tap: only while the registry still
    holds this very session. *)
Definition release (key : Z * Z) (sid : nat) (st : state) : state :=
  if bool_decide (_proof_sessions st !! key = Some sid) then
    let user := match heap st !! sid with Some s => s_user s | None => 0 end in
    _clear_ban_state user (set_sessions (delete key (_proof_sessions st)) st)
  else st.

(** The unguarded clean-up of a Done tap that may not go on. *)
Definition discard (key : Z * Z) (sid : nat) (st : state) : state :=
  let user := match heap st !! sid with Some s => s_user s | None => 0 end in
  _clear_ban_state user (set_sessions (delete key (_proof_sessions st)) st).

Definition set_task (sid : nat) (key : Z * Z) (t : task) (st : state) : state :=
  set_tasks (<[sid := (key, t)]> (tasks st)) st.

(** A task ends, through its [finally]. *)
Definition end_task (sid : nat) (key : Z * Z) (t : task) (st : state) : state :=
  set_task sid key (Task Ended (t_local t) (t_cancel t))
    (match t_local t with Some local => release key local st | None => st end).

Definition start_execution (sid : nat) (s : session) (checked : bool) (st : state) : state :=
  set_executions (Execution sid (s_msgs s) (s_meta s) checked :: executions st) st.

(** * The events *)
Inductive event : Type :=
  (* the entry command stored its metadata *)
  | EEnter (user : Z) (meta : ban_meta)
  (* proof arrived: [on_proof_received] *)
  | EProof (chat user : Z) (m : proof_message) (now : Z)
  (* the flush task of a session wakes; its cancellation is delivered; its
     execution ends *)
  | EWake (sid : nat) (now : Z)
  | EInterrupt (sid : nat)
  | EExecuted (sid : nat)
  (* Done is tapped; then its answer returned, the rank check, the execution;
     or the handler itself is cancelled *)
  | EDone (chat user : Z)
  | ETapAnswered (i : nat) (accessible : bool)
  | ETapChecked (i : nat) (ok : bool)
  | ETapExecuted (i : nat)
  | ETapCancelled (i : nat)
  (* Cancel after its answer, or any command: [on_cancel_proof],
     [on_proof_timeout] *)
  | ECancel (user : Z).

Section fire.
Context (album_debounce : Z).

(** [None] where the event cannot happen. *)
Definition on_proof_received (chat user : Z) (m : proof_message) (now : Z) (st : state) : state :=
  let key := (chat, user) in
  match user_data st !! user with
  | None => st
  | Some meta =>
      if negb (truthy_Z (ban_target_id meta)) then st
      else
        match _proof_sessions st !! key with
        | Some sid =>
            if match heap st !! sid with Some s => s_flushing s | None => true end then st
            else set_heap (alter (add_proof m now) sid (heap st)) st
        | None =>
            let sid := fresh (dom (heap st)) in
            let s := Session [m] meta user (now + _PROOF_COLLECT_MAX_S) now false false in
            set_task sid key (Task Sleeping None false)
              (set_sessions (<[key := sid]> (_proof_sessions st)) (set_heap (<[sid := s]> (heap st)) st))
        end
  end.

(** Awake: look the session up again, then return, sleep on, or claim it. *)
Definition flush_wakes (sid : nat) (key : Z * Z) (t : task) (now : Z) (st : state) : state :=
  let local := _proof_sessions st !! key in
  let t := Task Sleeping local (t_cancel t) in
  match local ≫= fun l => pair l <$> heap st !! l with
  | None => end_task sid key t st
  | Some (l, s) =>
      if s_cancelled s || s_flushing s then end_task sid key t st
      else if negb (album_debounce <=? now - s_last_arrival s) && negb (s_deadline s <=? now) then
        set_task sid key t st
      else
        let st := set_heap (<[l := claim s]> (heap st)) st in
        if match s_msgs s with [] => true | _ => false end || negb (complete (s_meta s)) then end_task sid key t st
        else set_task sid key (Task Executing local (t_cancel t)) (start_execution l (claim s) false st)
  end.

Definition on_done_proof (chat user : Z) (st : state) : state :=
  let key := (chat, user) in
  match _proof_sessions st !! key ≫= fun sid => pair sid <$> heap st !! sid with
  | None => st
  | Some (sid, s) =>
      if s_flushing s || match s_msgs s with [] => true | _ => false end then st
      else set_taps (taps st ++ [Tap key sid TapAnswer])
             (request_cancel sid (set_heap (<[sid := claim s]> (heap st)) st))
  end.

Definition move_tap (i : nat) (pc : tap_pc) (st : state) : state :=
  set_taps (alter (fun p => Tap (tap_key p) (tap_session p) pc) i (taps st)) st.

Definition tap_answered (i : nat) (p : tap) (s : session) (accessible : bool) (st : state) : state :=
  if negb (complete (s_meta s)) || negb accessible
  then move_tap i TapEnded (discard (tap_key p) (tap_session p) st)
  else move_tap i TapRecheck st.

Definition tap_checked (i : nat) (p : tap) (s : session) (ok : bool) (st : state) : state :=
  if ok then move_tap i TapExecuting (start_execution (tap_session p) s true st)
  else move_tap i TapEnded (discard (tap_key p) (tap_session p) st).

Definition fire (ev : event) (st : state) : option state :=
  match ev with
  | EEnter user meta => Some (set_data (<[user := meta]> (user_data st)) st)
  | EProof chat user m now => Some (on_proof_received chat user m now st)
  | EWake sid now =>
      match tasks st !! sid with
      | Some (key, Task Sleeping local false) => Some (flush_wakes sid key (Task Sleeping local false) now st)
      | _ => None
      end
  | EInterrupt sid =>
      match tasks st !! sid with
      | Some (key, Task Sleeping local true) => Some (end_task sid key (Task Sleeping local true) st)
      | Some (key, Task Executing local true) => Some (end_task sid key (Task Executing local true) st)
      | _ => None
      end
  | EExecuted sid =>
      match tasks st !! sid with
      | Some (key, Task Executing local c) => Some (end_task sid key (Task Executing local c) st)
      | _ => None
      end
  | EDone chat user => Some (on_done_proof chat user st)
  | ETapAnswered i accessible =>
      match taps st !! i with
      | Some (Tap key sid TapAnswer) =>
          s ← heap st !! sid; Some (tap_answered i (Tap key sid TapAnswer) s accessible st)
      | _ => None
      end
  | ETapChecked i ok =>
      match taps st !! i with
      | Some (Tap key sid TapRecheck) =>
          s ← heap st !! sid; Some (tap_checked i (Tap key sid TapRecheck) s ok st)
      | _ => None
      end
  | ETapExecuted i =>
      match taps st !! i with
      | Some (Tap key sid TapExecuting) => Some (move_tap i TapEnded (release key sid st))
      | _ => None
      end
  | ETapCancelled i =>
      match taps st !! i with
      | Some (Tap key sid TapExecuting) => Some (move_tap i TapEnded (release key sid st))
      | Some (Tap key sid TapEnded) => None
      | Some _ => Some (move_tap i TapEnded st)
      | None => None
      end
  | ECancel user => Some (_cancel_proof_session user st)
  end.

Fixpoint fires (evs : list event) (st : state) : option state :=
  match evs with
  | [] => Some st
  | ev :: evs' => st' ← fire ev st; fires evs' st'
  end.

(** The states the bot can be in. *)
Inductive reachable : state -> Prop :=
  | reach_init : reachable initial
  | reach_step ev st st' : reachable st -> fire ev st = Some st' -> reachable st'.

Lemma fires_reachable evs st st' : reachable st -> fires evs st = Some st' -> reachable st'.
Proof.
  revert st. induction evs as [|ev evs IH]; intros st Hst; [by intros [= <-]|]. simpl.
  destruct (fire ev st) as [st1|] eqn:Hf; [|done]. apply IH. by eapply reach_step.
Qed.
End fire.

(** * Claims

    A session is claimed by one Done tap on its way, or was executed once. *)
Definition countb {A} (f : A -> bool) (l : list A) : nat := length (List.filter f l).

Definition on_its_way (p : tap) : bool := match tap_at p with TapAnswer | TapRecheck => true | _ => false end.
Definition runs_of (sid : nat) (xs : list execution) : nat := countb (fun x => Nat.eqb (x_session x) sid) xs.
Definition claims (sid : nat) (ts : list tap) (xs : list execution) : nat :=
  (countb (fun p => on_its_way p && Nat.eqb (tap_session p) sid) ts + runs_of sid xs)%nat.

Lemma countb_cons {A} (f : A -> bool) x l : countb f (x :: l) = ((if f x then 1 else 0) + countb f l)%nat.
Proof. unfold countb. simpl. by destruct (f x). Qed.

Lemma countb_one {A} (f : A -> bool) x : countb f [x] = if f x then 1%nat else 0%nat.
Proof. unfold countb. simpl. by destruct (f x). Qed.

Lemma countb_app {A} (f : A -> bool) l1 l2 : countb f (l1 ++ l2) = (countb f l1 + countb f l2)%nat.
Proof. unfold countb. by rewrite List.filter_app, List.length_app. Qed.

Lemma countb_alter {A} (f : A -> bool) (g : A -> A) i l x :
  l !! i = Some x ->
  (countb f (alter g i l) + (if f x then 1 else 0) = countb f l + (if f (g x) then 1 else 0))%nat.
Proof.
  revert i. induction l as [|y l IH]; intros [|i] Hi; simplify_eq/=.
  - change (alter g 0%nat (x :: l)) with (g x :: l). rewrite !countb_cons. destruct (f x), (f (g x)); lia.
  - change (alter g (S i) (y :: l)) with (y :: alter g i l). rewrite !countb_cons. specialize (IH _ Hi). lia.
Qed.

Lemma countb_zero {A} (f : A -> bool) l : (forall x, In x l -> f x = false) -> countb f l = 0%nat.
Proof. intros H. unfold countb. by rewrite filter_none by (apply List.Forall_forall; exact H). Qed.

(** What every reachable state satisfies. *)
Record inv (h : gmap nat session) (ts : list tap) (xs : list execution) : Prop := {
  inv_claims sid s : h !! sid = Some s -> (claims sid ts xs <= if s_flushing s then 1 else 0)%nat;
  inv_taps p : In p ts -> on_its_way p = true ->
    exists s, h !! tap_session p = Some s /\ s_flushing s = true /\ s_msgs s <> [] /\
              (tap_at p = TapRecheck -> complete (s_meta s) = true);
  inv_runs x : In x xs ->
    exists s, h !! x_session x = Some s /\ s_flushing s = true /\ s_msgs s = x_msgs x /\ s_meta s = x_meta x /\
              x_msgs x <> [] /\ complete (x_meta x) = true
}.

Definition good (st : state) : Prop := inv (heap st) (taps st) (executions st).

Lemma inv_init : inv ∅ [] [].
Proof. split; [intros sid s Hs; by rewrite lookup_empty in Hs|done|done]. Qed.

(** Changing one session: a claimed one keeps what was claimed. *)
Lemma inv_insert h ts xs sid s s' :
  inv h ts xs -> h !! sid = Some s ->
  (s_flushing s = true -> s_flushing s' = true /\ s_msgs s' = s_msgs s /\ s_meta s' = s_meta s) ->
  inv (<[sid := s']> h) ts xs.
Proof.
  intros Hinv Hs Hkeep.
  assert (forall id r, h !! id = Some r -> s_flushing r = true ->
    exists r', <[sid := s']> h !! id = Some r' /\ s_flushing r' = true /\ s_msgs r' = s_msgs r /\ s_meta r' = s_meta r) as Hsame.
  { intros id r Hr Hf. destruct (decide (id = sid)) as [->|Hne].
    - rewrite lookup_insert_eq. exists s'. split; [done|]. simplify_eq. by apply Hkeep.
    - rewrite lookup_insert_ne by done. eauto. }
  split.
  - intros id r Hr. destruct (decide (id = sid)) as [->|Hne].
    + rewrite lookup_insert_eq in Hr. simplify_eq. pose proof (inv_claims _ _ _ Hinv _ _ Hs) as Hc.
      destruct (s_flushing s); [destruct Hkeep as [-> _]; [done|exact Hc]|]. destruct (s_flushing r); lia.
    + rewrite lookup_insert_ne in Hr by done. by eapply inv_claims.
  - intros p Hp Hw. destruct (inv_taps _ _ _ Hinv p Hp Hw) as (r & Hr & Hf & Hm & Hc).
    destruct (Hsame _ _ Hr Hf) as (r' & Hr' & Hf' & Hm' & Hme). exists r'. rewrite Hm', Hme. done.
  - intros x Hx. destruct (inv_runs _ _ _ Hinv x Hx) as (r & Hr & Hf & Hm & Hme & Hne & Hc).
    destruct (Hsame _ _ Hr Hf) as (r' & Hr' & Hf' & Hm' & Hme'). exists r'. rewrite Hm', Hme'. done.
Qed.

Lemma inv_alter h ts xs sid f :
  inv h ts xs -> (forall s, s_flushing s = true -> s_flushing (f s) = true /\ s_msgs (f s) = s_msgs s /\ s_meta (f s) = s_meta s) ->
  inv (alter f sid h) ts xs.
Proof.
  intros Hinv Hf. destruct (h !! sid) as [s|] eqn:Hs.
  - replace (alter f sid h) with (<[sid := f s]> h).
    + eapply inv_insert; [exact Hinv|exact Hs|apply Hf].
    + apply map_eq. intros i. destruct (decide (i = sid)) as [->|Hne].
      * by rewrite lookup_insert_eq, lookup_alter_eq, Hs.
      * by rewrite lookup_insert_ne, lookup_alter_ne.
  - replace (alter f sid h) with h; [done|]. apply map_eq. intros i. destruct (decide (i = sid)) as [->|Hne].
    + by rewrite lookup_alter_eq, Hs.
    + by rewrite lookup_alter_ne.
Qed.

(** Nobody knows a session that is not there. *)
Lemma inv_unknown h ts xs sid : inv h ts xs -> h !! sid = None -> claims sid ts xs = 0%nat.
Proof.
  intros Hinv Hs. unfold claims, runs_of. rewrite !countb_zero; [done|..].
  - intros x Hx. apply Nat.eqb_neq. intros <-. destruct (inv_runs _ _ _ Hinv x Hx) as (s & Hx' & _). congruence.
  - intros p Hp. destruct (on_its_way p) eqn:Hw; [|done]. apply Nat.eqb_neq. intros <-.
    destruct (inv_taps _ _ _ Hinv p Hp Hw) as (s & Hp' & _). congruence.
Qed.

Lemma inv_new h ts xs sid s :
  inv h ts xs -> h !! sid = None -> s_flushing s = false -> inv (<[sid := s]> h) ts xs.
Proof.
  intros Hinv Hs Hf.
  assert (forall id r, h !! id = Some r -> <[sid := s]> h !! id = Some r) as Hold.
  { intros id r Hr. rewrite lookup_insert_ne; [done|]. intros ->. congruence. }
  split.
  - intros id r Hr. destruct (decide (id = sid)) as [->|Hne].
    + by rewrite (inv_unknown _ _ _ _ Hinv Hs); lia.
    + rewrite lookup_insert_ne in Hr by done. by eapply inv_claims.
  - intros p Hp Hw. destruct (inv_taps _ _ _ Hinv p Hp Hw) as (r & Hr & Hrest). exists r. auto.
  - intros x Hx. destruct (inv_runs _ _ _ Hinv x Hx) as (r & Hr & Hrest). exists r. auto.
Qed.

(** The three ways a claim is made or used. *)
Lemma inv_run h ts xs sid s checked :
  inv h ts xs -> h !! sid = Some s -> s_flushing s = false -> s_msgs s <> [] -> complete (s_meta s) = true ->
  inv (<[sid := claim s]> h) ts (Execution sid (s_msgs s) (s_meta s) checked :: xs).
Proof.
  intros Hinv Hs Hf Hm Hc. pose proof (inv_claims _ _ _ Hinv _ _ Hs) as H0. rewrite Hf in H0.
  pose proof (inv_insert _ _ _ sid s (claim s) Hinv Hs ltac:(congruence)) as Hinv'. split.
  - intros id r Hr. unfold claims, runs_of. rewrite countb_cons. cbn [x_session].
    destruct (Nat.eqb_spec sid id) as [<-|Hne].
    + rewrite lookup_insert_eq in Hr. simplify_eq/=. unfold claims, runs_of in H0. lia.
    + pose proof (inv_claims _ _ _ Hinv' _ _ Hr) as Hcl. unfold claims, runs_of in Hcl. lia.
  - apply Hinv'.
  - intros x [<-|Hx]; [|by apply Hinv']. exists (claim s). rewrite lookup_insert_eq. done.
Qed.

Lemma inv_tap h ts xs sid s key :
  inv h ts xs -> h !! sid = Some s -> s_flushing s = false -> s_msgs s <> [] ->
  inv (<[sid := claim s]> h) (ts ++ [Tap key sid TapAnswer]) xs.
Proof.
  intros Hinv Hs Hf Hm. pose proof (inv_claims _ _ _ Hinv _ _ Hs) as H0. rewrite Hf in H0.
  pose proof (inv_insert _ _ _ sid s (claim s) Hinv Hs ltac:(congruence)) as Hinv'. split.
  - intros id r Hr. unfold claims. rewrite countb_app, countb_one. cbn [on_its_way tap_at tap_session andb].
    destruct (Nat.eqb_spec sid id) as [<-|Hne].
    + rewrite lookup_insert_eq in Hr. simplify_eq/=. unfold claims in H0. lia.
    + pose proof (inv_claims _ _ _ Hinv' _ _ Hr) as Hcl. unfold claims in Hcl. lia.
  - intros p Hp Hw. apply in_app_or in Hp as [Hp|[<-|[]]]; [by apply Hinv'|]. exists (claim s).
    rewrite lookup_insert_eq. done.
  - apply Hinv'.
Qed.

Lemma in_alter {A} (g : A -> A) i (l : list A) y :
  In y (alter g i l) -> In y l \/ exists x, l !! i = Some x /\ y = g x.
Proof.
  rewrite <- !list_elem_of_In, list_elem_of_lookup. intros [j Hj].
  destruct (decide (i = j)) as [<-|Hne].
  - rewrite list_lookup_alter_eq in Hj. destruct (l !! i) as [x|] eqn:Hx; simplify_eq/=. right. eauto.
  - rewrite list_lookup_alter_ne in Hj by done. left. by eapply list_elem_of_lookup_2.
Qed.

(** A tap moves on: to the rank check with a complete meta, or off. *)
Lemma inv_move h ts xs i p pc :
  inv h ts xs -> ts !! i = Some p ->
  (on_its_way (Tap (tap_key p) (tap_session p) pc) = true -> on_its_way p = true /\
     (pc = TapRecheck -> forall s, h !! tap_session p = Some s -> complete (s_meta s) = true)) ->
  inv h (alter (fun p => Tap (tap_key p) (tap_session p) pc) i ts) xs.
Proof.
  intros Hinv Hp Hpc. split.
  - intros sid s Hs. pose proof (inv_claims _ _ _ Hinv _ _ Hs) as Hc. unfold claims in *.
    pose proof (countb_alter (fun p => on_its_way p && Nat.eqb (tap_session p) sid)
                  (fun p => Tap (tap_key p) (tap_session p) pc) i ts p Hp) as Ha. cbn [tap_session] in Ha.
    destruct (on_its_way (Tap (tap_key p) (tap_session p) pc)) eqn:Hw.
    + destruct Hpc as [Hwp _]; [done|]. rewrite Hwp in Ha. lia.
    + cbn [andb] in Ha. lia.
  - intros q Hq Hw. apply in_alter in Hq as [Hq|(p' & Hp' & ->)]; [by apply Hinv|]. simplify_eq.
    destruct (Hpc Hw) as [Hwp Hc].
    destruct (inv_taps _ _ _ Hinv p (proj1 (list_elem_of_In _ _) (list_elem_of_lookup_2 _ _ _ Hp)) Hwp)
      as (s & Hs & Hf & Hm & _).
    exists s. cbn. eauto 10.
  - apply Hinv.
Qed.

(** A rank-checked tap runs the ban: its claim becomes the execution. *)
Lemma inv_tap_runs h ts xs i key sid s :
  inv h ts xs -> ts !! i = Some (Tap key sid TapRecheck) -> h !! sid = Some s ->
  inv h (alter (fun p => Tap (tap_key p) (tap_session p) TapExecuting) i ts)
    (Execution sid (s_msgs s) (s_meta s) true :: xs).
Proof.
  intros Hinv Hp Hs.
  pose proof (inv_move _ _ _ i _ TapExecuting Hinv Hp ltac:(done)) as Hinv'.
  destruct (inv_taps _ _ _ Hinv _ (proj1 (list_elem_of_In _ _) (list_elem_of_lookup_2 _ _ _ Hp)) eq_refl)
    as (s' & Hs' & Hf & Hm & Hc). simpl in Hs'. simplify_eq. split.
  - intros id r Hr. pose proof (inv_claims _ _ _ Hinv _ _ Hr) as H0. unfold claims, runs_of in *.
    rewrite countb_cons. cbn [x_session].
    pose proof (countb_alter (fun p => on_its_way p && Nat.eqb (tap_session p) id)
                  (fun p => Tap (tap_key p) (tap_session p) TapExecuting) i ts _ Hp) as Ha. cbn in Ha.
    destruct (Nat.eqb sid id); lia.
  - apply Hinv'.
  - intros x [<-|Hx]; [|by apply Hinv']. exists s. cbn. eauto 10.
Qed.

(** What the clean-ups leave alone. *)
Lemma release_good key sid st : good st -> good (release key sid st).
Proof. unfold release. by case_bool_decide. Qed.

Lemma end_task_good sid key t st : good st -> good (end_task sid key t st).
Proof. intros H. unfold end_task. destruct (t_local t) as [l|]; [|done]. exact (release_good key l st H). Qed.

Lemma drop_sessions_good l st : good st -> good (fold_left (fun st ks => drop_session ks.1 ks.2 st) l st).
Proof.
  revert st. induction l as [|[key sid] l IH]; intros st H; [done|]. simpl. apply IH.
  unfold good. cbn. apply inv_alter; [exact H|]. by intros s.
Qed.

Section reach.
Context (album_debounce : Z).

Lemma wakes_good sid key t now st : good st -> good (flush_wakes album_debounce sid key t now st).
Proof.
  intros H. unfold flush_wakes. cbv zeta. destruct (_proof_sessions st !! key) as [l|]; cbn [mbind option_bind];
    [|by apply end_task_good].
  destruct (heap st !! l) as [s|] eqn:Hs; simpl; [|by apply end_task_good].
  destruct (s_cancelled s); [by apply end_task_good|]. destruct (s_flushing s) eqn:Hf; [by apply end_task_good|].
  cbn [orb]. destruct (_ && _); [exact H|].
  destruct (s_msgs s) as [|m ms] eqn:Hm; cbn [orb].
  { apply end_task_good. eapply inv_insert; [exact H|exact Hs|congruence]. }
  destruct (complete (s_meta s)) eqn:Hc; cbn [negb].
  - apply (inv_run _ _ _ _ _ false H Hs); [done|by rewrite Hm|done].
  - apply end_task_good. eapply inv_insert; [exact H|exact Hs|congruence].
Qed.

Lemma proof_good chat user m now st : good st -> good (on_proof_received chat user m now st).
Proof.
  intros H. unfold on_proof_received. destruct (user_data st !! user) as [meta|]; [|done].
  destruct (negb _); [done|]. destruct (_proof_sessions st !! _) as [sid|].
  - destruct (heap st !! sid) as [s|] eqn:Hs; [|done]. destruct (s_flushing s) eqn:Hf; [done|].
    unfold good. cbn. replace (alter (add_proof m now) sid (heap st)) with (<[sid := add_proof m now s]> (heap st)).
    + eapply inv_insert; [exact H|exact Hs|congruence].
    + apply map_eq. intros i. destruct (decide (i = sid)) as [->|Hne].
      * by rewrite lookup_insert_eq, lookup_alter_eq, Hs.
      * by rewrite lookup_insert_ne, lookup_alter_ne.
  - apply inv_new; [exact H| |done]. apply not_elem_of_dom, is_fresh.
Qed.

Lemma done_good chat user st : good st -> good (on_done_proof chat user st).
Proof.
  intros H. unfold on_done_proof. destruct (_proof_sessions st !! _) as [sid|]; [|done]. simpl.
  destruct (heap st !! sid) as [s|] eqn:Hs; [|done]. simpl. destruct (s_flushing s) eqn:Hf; [done|].
  destruct (s_msgs s) as [|m ms] eqn:Hm; [done|]. apply inv_tap; [exact H|done|done|by rewrite Hm].
Qed.

Lemma move_good i key sid pc pc' st :
  good st -> taps st !! i = Some (Tap key sid pc) ->
  (on_its_way (Tap key sid pc') = true -> on_its_way (Tap key sid pc) = true /\
     (pc' = TapRecheck -> forall s, heap st !! sid = Some s -> complete (s_meta s) = true)) ->
  good (move_tap i pc' st).
Proof. intros H Hi Hpc. exact (inv_move _ _ _ i _ pc' H Hi Hpc). Qed.

Lemma fire_good ev st st' : good st -> fire album_debounce ev st = Some st' -> good st'.
Proof.
  intros H Hf.
  destruct ev as [user meta|chat user m now|sid now|sid|sid|chat user|i acc|i ok|i|i|user]; simpl in Hf.
  - by simplify_eq.
  - simplify_eq. by apply proof_good.
  - repeat case_match; simplify_eq. by apply wakes_good.
  - repeat case_match; simplify_eq; by apply end_task_good.
  - repeat case_match; simplify_eq; by apply end_task_good.
  - simplify_eq. by apply done_good.
  - destruct (taps st !! i) as [[key sid []]|] eqn:Hi; try done.
    destruct (heap st !! sid) as [s|] eqn:Hs; simpl in Hf; [|done]. simplify_eq. unfold tap_answered. cbn [tap_key tap_session].
    destruct (complete (s_meta s)) eqn:Hc; cbn [negb orb]; [destruct acc; cbn [negb]|].
    + eapply move_good; [exact H|exact Hi|]. intros _. split; [done|]. intros _ s' Hs'. by simplify_eq.
    + eapply move_good; [exact H|exact Hi|done].
    + eapply move_good; [exact H|exact Hi|done].
  - destruct (taps st !! i) as [[key sid []]|] eqn:Hi; try done.
    destruct (heap st !! sid) as [s|] eqn:Hs; simpl in Hf; [|done]. simplify_eq. unfold tap_checked. cbn [tap_key tap_session].
    destruct ok.
    + exact (inv_tap_runs _ _ _ i key sid s H Hi Hs).
    + eapply move_good; [exact H|exact Hi|done].
  - destruct (taps st !! i) as [[key sid []]|] eqn:Hi; simplify_eq.
    eapply move_good; [by apply release_good| |done]. unfold release. case_bool_decide; exact Hi.
  - destruct (taps st !! i) as [[key sid []]|] eqn:Hi; simplify_eq.
    + eapply move_good; [exact H|exact Hi|done].
    + eapply move_good; [exact H|exact Hi|done].
    + eapply move_good; [by apply release_good| |done]. unfold release. case_bool_decide; exact Hi.
  - simplify_eq. by apply drop_sessions_good.
Qed.

Lemma reachable_good st : reachable album_debounce st -> good st.
Proof.
  induction 1 as [|ev st st' _ IH Hf]; [exact inv_init|]. by eapply fire_good.
Qed.
End reach.

(** C26: one proof collection, one ban.  However proofs, Done taps, the silence
    window, Cancel and the endings of executions interleave: every session is
    executed at most once, by the tap or by the window but never both; what was
    executed is all the proof the session holds - none is added after the claim,
    and never an empty collection - with the target and the moderator of the
    ban it was opened for. *)
Theorem session_executes_once (album_debounce : Z) (st : state) (Hreach : reachable album_debounce st) :
  (forall sid, (runs_of sid (executions st) <= 1)%nat) /\
  forall x, In x (executions st) ->
    exists s, heap st !! x_session x = Some s /\ s_msgs s = x_msgs x /\ s_meta s = x_meta x /\
              x_msgs x <> [] /\ ban_target_id (x_meta x) <> 0 /\ ban_admin_id (x_meta x) <> 0.
Proof.
  pose proof (reachable_good _ _ Hreach) as H. split.
  - intros sid. destruct (heap st !! sid) as [s|] eqn:Hs.
    + pose proof (inv_claims _ _ _ H _ _ Hs) as Hc. unfold claims in Hc. destruct (s_flushing s); lia.
    + pose proof (inv_unknown _ _ _ _ H Hs) as Hc. unfold claims in Hc. lia.
  - intros x Hx. destruct (inv_runs _ _ _ H x Hx) as (s & Hs & _ & Hm & Hme & Hne & Hc). exists s.
    do 4 (split; [done|]). unfold complete, truthy_Z in Hc. by to_prop.
Qed.

(** * Concrete runs: moderator 7, a silence window of two seconds *)
Definition seconds (n : Z) : Z := n * 1000000.
Definition shot (name : string) : proof_message := ProofMessage [name] None None None.
Definition meta_of (target : Z) : ban_meta := BanMeta target "x" DEFAULT_LOCALE "spam" 7 "boss" 0 0.
Definition run (evs : list event) : option state := fires (seconds 2) evs initial.

Lemma run_reachable evs st : run evs = Some st -> reachable (seconds 2) st.
Proof. apply fires_reachable, reach_init. Qed.

(** What the executions of a run used: session, proofs, target, rank check. *)
Definition executed (evs : list event) : option (list (nat * nat * Z * bool)) :=
  (fun st => map (fun x => (x_session x, length (x_msgs x), ban_target_id (x_meta x), x_checked x)) (executions st))
  <$> run evs.

(** Two proofs, then Done; the flush task's cancellation arrives meanwhile. *)
Definition done_run : list event :=
  [EEnter 7 (meta_of 9); EProof (-100) 7 (shot "a") 0; EWake 0 (seconds 1); EProof (-100) 7 (shot "b") (seconds 2);
   EDone (-100) 7; ETapAnswered 0 true; EProof (-100) 7 (shot "late") (seconds 3); ETapChecked 0 true; EInterrupt 0;
   ETapExecuted 0].

Lemma session_executes_once_witness :
  executed done_run = Some [(0%nat, 2%nat, 9, true)] /\
  exists st, run done_run = Some st /\ (runs_of 0 (executions st) <= 1)%nat.
Proof.
  split; [vm_compute; reflexivity|]. eexists. split; [vm_compute; reflexivity|].
  refine (proj1 (session_executes_once (seconds 2) _ (run_reachable done_run _ _)) 0%nat). vm_compute. reflexivity.
Defined.

(** The silence window executes without the rank check a Done tap makes: a
    moderator demoted while collecting still bans. *)
Lemma window_skips_rank_check :
  executed [EEnter 7 (meta_of 9); EProof (-100) 7 (shot "a") 0; EWake 0 (seconds 2)] = Some [(0%nat, 1%nat, 9, false)].
Proof. vm_compute. reflexivity. Qed.

(** Cancel - or any command - during the execution of the window cancels the
    task in the middle of the ban. *)
Lemma cancel_interrupts_ban :
  exists st, run [EEnter 7 (meta_of 9); EProof (-100) 7 (shot "a") 0; EWake 0 (seconds 2); ECancel 7; EInterrupt 0] = Some st /\
    runs_of 0 (executions st) = 1%nat /\ tasks st !! 0%nat = Some ((-100, 7), Task Ended (Some 0%nat) true) /\
    _proof_sessions st = ∅.
Proof. eexists. split; [vm_compute; reflexivity|]. vm_compute. done. Qed.

(** A moderator with a ban open in two chats: the proof sent for the first is
    executed against the target of the second. *)
Lemma two_chats_mix :
  executed [EEnter 7 (meta_of 9); EEnter 7 (meta_of 10); EProof (-100) 7 (shot "a") 0; EWake 0 (seconds 2)] =
  Some [(0%nat, 1%nat, 10, false)].
Proof. vm_compute. reflexivity. Qed.

(** A Done tap that loses its rank check after a Cancel and a new ban takes the
    new collection away: its proof is never executed. *)
Lemma stale_tap_drops_successor :
  exists st, run [EEnter 7 (meta_of 9); EProof (-100) 7 (shot "a") 0; EDone (-100) 7; ETapAnswered 0 true; ECancel 7;
    EInterrupt 0; EEnter 7 (meta_of 10); EProof (-100) 7 (shot "b") (seconds 1); ETapChecked 0 false;
    EWake 1 (seconds 60)] = Some st /\
    (s_msgs <$> heap st !! 1%nat) = Some [shot "b"] /\ _proof_sessions st = ∅ /\ executions st = [] /\
    tasks st !! 1%nat = Some ((-100, 7), Task Ended None false).
Proof. eexists. split; [vm_compute; reflexivity|]. vm_compute. done. Qed.
