(* ===== verification/Commands.v ===== *)
(** The moderation commands: [tcbot/modules/banning.py], [kicking.py],
    [muting.py], [unbanning.py], [warnings/warn.py] and [warnings/manage.py],
    with the confirmation of a repeated ban ([ban_flow/handlers.py]).

    The entry points open a conversation: what they remember for it goes to
    [ctx.user_data] ([UdPut], [UdPop]).  Durations are seconds. *)

From S2P Require Import Prelude Prog Text World I18n Duration Dispatch Cache Locale Roles Replies Auth Records DemoteFlow BanFlow MuteFlow KickFlow WarnManage AppealReview Prefixes Extract Handler UserData PromoteFlow Admins.

(** What an entry point returns: the state the conversation is in. *)
Inductive conv : Type := END | WAITING_REASON | WAITING_PROOF | WAITING_UPDATE_CONFIRM.

#[global] Instance conv_eq_dec : EqDecision conv.
Proof. solve_decision. Defined.

Definition BAN_USER_DATA_KEYS : list string :=
  ["ban_target_id"; "ban_target_fname"; "ban_reason"; "ban_admin_id"; "ban_admin_fname"; "ban_prompt_msg_id";
   "ban_prompt_chat_id"; "ban_target_role"; "ban_executing"; "ban_locale"]%string.
Definition _KICK_KEYS : list string :=
  ["kick_target_id"; "kick_target_name"; "kick_prompt_chat"; "kick_prompt_id"]%string.
Definition _MUTE_KEYS : list string :=
  ["mute_target_id"; "mute_target_fname"; "mute_duration"; "mute_admin_id"; "mute_admin_fname"; "mute_prompt_chat";
   "mute_prompt_id"; "mute_reason"; "mute_extra_info"]%string.
Definition _WARN_KEYS : list string := ["warn_target_id"; "warn_target_name"]%string.

Definition err_group_only (locale : ustr) : text := TKey "common.err.group_only" locale [].
Definition err_db_retry (locale : ustr) : text := TKey "common.err.db_retry" locale [].

(** [identity.staff_notice] *)
Definition staff_notice (action : string) (ident : Identity) (community_name : string) (locale : ustr) : option text :=
  match id_kind ident with
  | Admin | Developer | Tester =>
      Some (TKey "identity.staff.notice" locale
        [("line"%string, _line ident); ("community"%string, TStr community_name);
         ("role"%string, TStr (role_label (BStr (kind_name (id_kind ident))))); ("action"%string, TStr action)])
  | _ => None
  end.

Section commands.
Context {CAT : Catalog} (cfg : config) (bot_id : Z).

(** The prompt of a conversation: remember its id, or forget everything. *)
Definition open_with (msg : message) (txt kb : text) (sent : Z -> io unit) (keys : list string) (next : conv) : io conv :=
  prompt <- attempt (call (ReplyText (message_id msg) txt (Some kb))) ;;
  match prompt with
  | Ok id => sent id ;;; Ret next
  | Err e => if is_Exception e then pops keys ;;; Ret END else Raise e
  end.

(** [BuildProof] and [BuildReason]: the evidence of a ban and the reason of a
    warning may not be skipped. *)
Definition skip_allowed (step action : string) : bool :=
  negb (String.eqb action (if String.eqb step "proof" then "ban" else "warn")).
Definition suffix_of (extra_info : option text) : text :=
  match extra_info with Some extra_info => TCat [TStr " "; extra_info] | None => TStr "" end.
Definition _skip_hint (step action : string) (locale : ustr) : text :=
  if skip_allowed step action then
    TKey (step ++ ".hint.skip") locale [("label"%string, TBuild "bold" [TKey "button.skip" locale []])]
  else TStr "".
Definition noted_prompt (action reason : string) (target_mention : text) (extra_info : option text) (locale : ustr) : text :=
  TKey "proof.prompt.noted" locale
    [("Doing"%string, TKey ("proof.action." ++ action ++ ".Doing") locale []); ("target"%string, target_mention);
     ("suffix"%string, suffix_of extra_info); ("reason"%string, TBuild "bold" [TStr reason]);
     ("done"%string, TKey "button.done" locale []); ("skip_hint"%string, _skip_hint "proof" action locale)].
Definition step_prompt (action : string) (reason target_mention : text) (extra_info : option text) (locale : ustr) : text :=
  TKey "proof.prompt.step" locale
    [("gerund"%string, TKey ("proof.action." ++ action ++ ".doing") locale []); ("target"%string, target_mention);
     ("suffix"%string, suffix_of extra_info); ("reason"%string, TBuild "bold" [reason]);
     ("done"%string, TKey "button.done" locale []); ("skip_hint"%string, _skip_hint "proof" action locale)].
Definition reason_prompt (action : string) (target_mention : text) (extra_info : option text) (locale : ustr) : text :=
  TKey "reason.prompt.body" locale
    [("verb"%string, TKey ("proof.action." ++ action ++ ".verb") locale []); ("target"%string, target_mention);
     ("suffix"%string, suffix_of extra_info); ("skip_hint"%string, _skip_hint "reason" action locale)].
Definition proof_keyboard (action : string) : text :=
  TBuild "keyboards.proof_step_kb" [TStr action; TStr (if skip_allowed "proof" action then "skip" else "")].
Definition reason_keyboard (action : string) : text :=
  TBuild "keyboards.reason_step_kb" [TStr action; TStr (if skip_allowed "reason" action then "skip" else "")].

(** The inline reason; the replied-to user's id restated is none. *)
Definition inline_reason_of (args : list string) (hit : option (Z * string)) (consumed explicit : bool) : io string :=
  match parse_inline_reason args explicit (if consumed then None else fst <$> hit) with
  | Some reason => Ret reason
  | None => Raise (OtherException "ValueError")
  end.

Definition too_long (msg : message) (reason : string) (locale : ustr) : io unit :=
  safe_reply msg (reason_too_long_text (Z.of_nat (String.length reason)) locale).

(** Identity and rank, then the refusal; whoever is refused was told. *)
Definition gate (action min_role : string) (msg : message) (admin_id target_id : Z) (name : string) (locale : ustr)
    : io (option (Identity * bson)) :=
  classified <- classify_and_check bot_id admin_id target_id (Some name) msg min_role None ;;
  match classified with
  | None => Ret None
  | Some (ident, target_role) =>
      match refuse_message action ident locale with
      | Some refusal => safe_reply msg refusal ;;; Ret None
      | None => Ret (Some (ident, target_role))
      end
  end.

(** [if target_role and not await Demote.auto_demote_or_abort(...)] *)
Definition demote_target (action : string) (c : command) (msg : message) (target_id : Z) (name : string)
    (target_role : bson) (admin_id : Z) : io bool :=
  if negb (truthy_role target_role) then Ret true
  else auto_demote_or_abort cfg msg target_id name target_role admin_id (c_first_name c) action.

(** A resolved target. *)
Definition target_of (hit : option (Z * string)) : option (Z * string) :=
  match hit with Some (id, name) => if truthy_Z id then Some (id, name) else None | None => None end.

(** * /tckick *)
Definition kick_open (msg : message) (target_id : Z) (name reason : string) (locale : ustr) : io conv :=
  put "kick_target_id" (BInt target_id) ;;;
  put "kick_target_name" (BStr name) ;;;
  put "kick_prompt_chat" (BInt (msg_chat_id msg)) ;;;
  let sent id := put "kick_prompt_id" (BInt id) in
  if truthy_str reason then
    put "kick_reason" (BStr reason) ;;;
    open_with msg (noted_prompt "kick" reason (TUser target_id name) None locale) (proof_keyboard "kick") sent
      (_KICK_KEYS ++ ["kick_reason"%string]) WAITING_PROOF
  else
    open_with msg (reason_prompt "kick" (TUser target_id name) None locale) (reason_keyboard "kick") sent
      _KICK_KEYS WAITING_REASON.

Definition kick_target (c : command) (msg : message) (admin_id : Z) (locale : ustr) : io conv :=
  let args := args_of msg in
  let! (hit, explicit) := extract_mod_target (c_incoming c) args true in
  inline_reason <- inline_reason_of args hit explicit explicit ;;
  match target_of hit with
  | None => safe_reply msg (err_cannot_resolve locale) ;;; Ret END
  | Some (target_id, target_name) =>
      let name := name_or_id target_name target_id in
      if truthy_str inline_reason && is_reason_too_long inline_reason then
        too_long msg inline_reason locale ;;; Ret END
      else
        gated <- gate "kick" "tester" msg admin_id target_id target_name locale ;;
        match gated with
        | None => Ret END
        | Some (ident, target_role) =>
            ok <- demote_target "kick" c msg target_id name target_role admin_id ;;
            if ok : bool then kick_open msg target_id name inline_reason locale else Ret END
        end
  end.

Definition cmd_kick_body (c : command) : io conv :=
  locale <- locale_for_update (c_upd c) ;;
  match effective_message (c_upd c), effective_user (c_upd c), effective_chat (c_upd c) with
  | Some msg, Some admin_id, Some (type, _) =>
      if String.eqb type "private" then safe_reply msg (err_group_only locale) ;;; Ret END
      else kick_target c msg admin_id locale
  | _, _, _ => Ret END
  end.

Definition cmd_kick (c : command) := limited "cmd_kick" basic_mod_only (cmd_kick_body c) (c_upd c).

(** * /tcmute *)

(** A leading duration that parses; the other arguments. *)
Definition split_duration (args : list string) : io (option Z * list string) :=
  match args with
  | [] => Ret (None, [])
  | first :: rest =>
      match duration_match (u first) with
      | None => Ret (None, args)
      | Some _ =>
          parsed <- of_result (parse_duration (u first)) ;;
          Ret match parsed with Some d => (Some d, rest) | None => (None, args) end
      end
  end.

Definition mute_open (c : command) (msg : message) (admin_id target_id : Z) (name reason : string)
    (duration : option Z) (locale : ustr) : io conv :=
  let extra_info := TCat [TBuild "code" [TInt target_id]; TStr ": "; fmt_duration duration locale] in
  put "mute_target_id" (BInt target_id) ;;;
  put "mute_target_fname" (BStr name) ;;;
  put "mute_duration" (boptZ duration) ;;;
  put "mute_admin_id" (BInt admin_id) ;;;
  put "mute_admin_fname" (BStr (c_first_name c)) ;;;
  put "mute_prompt_chat" (BInt (msg_chat_id msg)) ;;;
  put "mute_reason" (BStr "") ;;;
  put "mute_extra_info" (UdText extra_info) ;;;
  let sent id := put "mute_prompt_id" (BInt id) in
  if truthy_str reason then
    put "mute_reason" (BStr reason) ;;;
    open_with msg (noted_prompt "mute" reason (TUser target_id name) (Some extra_info) locale) (proof_keyboard "mute") sent
      _MUTE_KEYS WAITING_PROOF
  else
    open_with msg (reason_prompt "mute" (TUser target_id name) (Some extra_info) locale) (reason_keyboard "mute") sent
      _MUTE_KEYS WAITING_REASON.

Definition mute_target (c : command) (msg : message) (admin_id : Z) (locale : ustr) : io conv :=
  let raw_args := args_of msg in
  let! (hit, explicit) := extract_mod_target (c_incoming c) raw_args true in
  let remaining_args := if explicit then List.tl raw_args else raw_args in
  match target_of hit with
  | None => safe_reply msg (err_cannot_resolve locale) ;;; Ret END
  | Some (target_id, target_name) =>
      let name := name_or_id target_name target_id in
      gated <- gate "mute" "tester" msg admin_id target_id target_name locale ;;
      match gated with
      | None => Ret END
      | Some (ident, target_role) =>
          ok <- demote_target "mute" c msg target_id name target_role admin_id ;;
          if negb ok then Ret END
          else
            let! (duration, remaining_args) := split_duration remaining_args in
            inline_reason <- inline_reason_of remaining_args hit explicit false ;;
            if truthy_str inline_reason && is_reason_too_long inline_reason then
              too_long msg inline_reason locale ;;; Ret END
            else mute_open c msg admin_id target_id name inline_reason duration locale
      end
  end.

Definition cmd_mute_body (c : command) : io conv :=
  locale <- locale_for_update (c_upd c) ;;
  match effective_message (c_upd c), effective_user (c_upd c) with
  | Some msg, Some admin_id => mute_target c msg admin_id locale
  | _, _ => Ret END
  end.

Definition cmd_mute (c : command) := limited "cmd_mute" basic_mod_only (cmd_mute_body c) (c_upd c).

(** * /tcwarn *)
Definition notify_staff (action : string) (msg : message) (ident : Identity) (locale : ustr) : io unit :=
  match staff_notice action ident (cfg_community_name cfg) locale with
  | Some notice => safe_reply msg notice
  | None => Ret tt
  end.

Definition warn_open (msg : message) (target_id : Z) (name reason : string) (locale : ustr) : io conv :=
  put "warn_target_id" (BInt target_id) ;;;
  put "warn_target_name" (BStr name) ;;;
  let sent id := Ret tt in
  if truthy_str reason then
    put "warn_reason" (BStr reason) ;;;
    open_with msg (noted_prompt "warn" reason (TUser target_id name) None locale) (proof_keyboard "warn") sent
      (_WARN_KEYS ++ ["warn_reason"%string]) WAITING_PROOF
  else
    open_with msg (reason_prompt "warn" (TUser target_id name) None locale) (reason_keyboard "warn") sent
      _WARN_KEYS WAITING_REASON.

Definition warn_target (c : command) (msg : message) (admin_id : Z) (locale : ustr) : io conv :=
  let args := args_of msg in
  let! (hit, explicit) := extract_mod_target (c_incoming c) args true in
  inline_reason <- inline_reason_of args hit explicit explicit ;;
  match target_of hit with
  | None => safe_reply msg (err_cannot_resolve locale) ;;; Ret END
  | Some (target_id, target_name) =>
      let name := name_or_id target_name target_id in
      if truthy_str inline_reason && is_reason_too_long inline_reason then
        too_long msg inline_reason locale ;;; Ret END
      else
        gated <- gate "warn" "tester" msg admin_id target_id target_name locale ;;
        match gated with
        | None => Ret END
        | Some (ident, _) =>
            notify_staff "warn" msg ident locale ;;;
            warn_open msg target_id name inline_reason locale
        end
  end.

Definition cmd_warn_entry_body (c : command) : io conv :=
  match effective_message (c_upd c), effective_user (c_upd c) with
  | Some msg, Some admin_id => locale <- locale_for_update (c_upd c) ;; warn_target c msg admin_id locale
  | _, _ => Ret END
  end.

Definition cmd_warn_entry (c : command) :=
  limited "cmd_warn_entry" basic_mod_only (cmd_warn_entry_body c) (c_upd c).

(** * /tcban *)
Definition proof_prompt_content (target_id : Z) (name reason : string) (locale : ustr) : text * text :=
  (noted_prompt "ban" reason (TUser target_id name) None locale, proof_keyboard "ban").

Definition ban_prompt_sent (msg : message) (id : Z) : io unit :=
  put "ban_prompt_msg_id" (BInt id) ;;; put "ban_prompt_chat_id" (BInt (msg_chat_id msg)).

Definition _ask_update_confirm (msg : message) (target_id : Z) (name reason : string) (existing : doc) (locale : ustr)
    : io conv :=
  let (logs_chat, logs_thread) := cfg_logs cfg in
  let (proofs_chat, proofs_thread) := cfg_proofs cfg in
  let log_msg_id := dget_int "log_message_id" existing 0 in
  let proof_msg_id := dget_int "proof_message_id" existing 0 in
  let link chat id thread := if truthy_Z id then TLink chat id thread else TNone in
  open_with msg
    (TKey "banning.confirm.body" locale
      [("user"%string, TUser target_id name); ("ban_id"%string, TBuild "code" [TStr (dget_str "ban_id" existing "")]);
       ("old_reason"%string, TStr (dget_str "reason" existing "")); ("new_reason"%string, TStr reason)])
    (TBuild "keyboards.ban_update_confirm_kb"
      [link logs_chat log_msg_id logs_thread; link proofs_chat proof_msg_id proofs_thread])
    (ban_prompt_sent msg) BAN_USER_DATA_KEYS WAITING_UPDATE_CONFIRM.

Definition ban_open (c : command) (msg : message) (admin_id target_id : Z) (name reason : string) (target_role : bson)
    (locale : ustr) : io conv :=
  put "ban_target_id" (BInt target_id) ;;;
  put "ban_target_fname" (BStr name) ;;;
  put "ban_reason" (BStr reason) ;;;
  put "ban_admin_id" (BInt admin_id) ;;;
  put "ban_admin_fname" (BStr (c_first_name c)) ;;;
  put "ban_locale" (BStr (s_of locale)) ;;;
  existing <- attempt (get_active_ban target_id) ;;
  match existing with
  | Err e =>
      if is_Exception e then safe_reply msg (err_db_retry locale) ;;; pops BAN_USER_DATA_KEYS ;;; Ret END else Raise e
  | Ok (Some existing) =>
      put "ban_target_role" target_role ;;; _ask_update_confirm msg target_id name reason existing locale
  | Ok None =>
      ok <- demote_target "ban" c msg target_id name target_role admin_id ;;
      if negb ok then Ret END
      else
        let (text, kb) := proof_prompt_content target_id name reason locale in
        open_with msg text kb (ban_prompt_sent msg) BAN_USER_DATA_KEYS WAITING_PROOF
  end.

Definition ban_target (c : command) (msg : message) (admin_id : Z) (locale : ustr) : io conv :=
  let raw_args := args_of msg in
  let! (hit, explicit) := extract_mod_target (c_incoming c) raw_args true in
  ban_reason <- inline_reason_of raw_args hit explicit explicit ;;
  match target_of hit with
  | None => safe_reply msg (err_cannot_resolve locale) ;;; Ret END
  | Some (target_id, target_name) =>
      let name := name_or_id target_name target_id in
      if negb (truthy_str ban_reason) then say msg locale "banning.error.reason_required" ;;; Ret END
      else if is_reason_too_long ban_reason then too_long msg ban_reason locale ;;; Ret END
      else
        gated <- gate "ban" "developer" msg admin_id target_id target_name locale ;;
        match gated with
        | None => Ret END
        | Some (ident, target_role) => ban_open c msg admin_id target_id name ban_reason target_role locale
        end
  end.

Definition cmd_ban_start_body (c : command) : io conv :=
  locale <- locale_for_update (c_upd c) ;;
  match effective_message (c_upd c), effective_user (c_upd c) with
  | Some msg, Some admin_id => ban_target c msg admin_id locale
  | _, _ => Ret END
  end.

Definition cmd_ban_start (c : command) := limited "cmd_ban_start" mod_only (cmd_ban_start_body c) (c_upd c).

(** Continue: [accessible] is [isinstance(msg, Message)]. *)
Definition on_ban_update_continue (c : command) (q : option message) (accessible : bool) : io conv :=
  match q, effective_message (c_upd c) with
  | Some q, Some msg =>
      if negb accessible then pops BAN_USER_DATA_KEYS ;;; Ret END
      else
        call (AnswerCallback None) ;;;
        allowed <- match effective_user (c_upd c) with
                   | None => Ret false
                   | Some tapper => recheck_executor_rank msg tapper "developer"
                   end ;;
        if negb allowed then pops BAN_USER_DATA_KEYS ;;; Ret END
        else
          target_id <- call (UdGet "ban_target_id") ;;
          target_fname <- call (UdGet "ban_target_fname") ;;
          reason <- call (UdGet "ban_reason") ;;
          admin_id <- call (UdGet "ban_admin_id") ;;
          admin_fname <- call (UdGet "ban_admin_fname") ;;
          target_role <- call (UdGet "ban_target_role") ;;
          let target_id := ud_int target_id in
          let name := name_or_id (ud_str target_fname) target_id in
          let reason := ud_str reason in
          let admin_fname := if truthy_str (ud_str admin_fname) then ud_str admin_fname else "Admin"%string in
          if negb (truthy_Z target_id) || negb (truthy_str reason) then Ret END
          else
            ok <- (if truthy_str (ud_str target_role) then
                     auto_demote_or_abort cfg msg target_id name (BStr (ud_str target_role)) (ud_int admin_id) admin_fname "ban"
                   else Ret true) ;;
            if negb ok then Ret END
            else
              locale <- locale_for_update (c_upd c) ;;
              let (text, kb) := proof_prompt_content target_id name reason locale in
              r <- attempt (call (EditMessageText (msg_chat_id q) (message_id q) text (Some kb))) ;;
              match r with
              | Ok _ => Ret WAITING_PROOF
              | Err e => if is_Exception e then pops BAN_USER_DATA_KEYS ;;; Ret END else Raise e
              end
  | _, _ => Ret END
  end.

(** * The commands without a conversation *)
Definition managed (action : string) (c : command) (execute : Z -> string -> io unit) : io unit :=
  match effective_message (c_upd c), effective_user (c_upd c) with
  | Some msg, Some admin_id =>
      locale <- locale_for_update (c_upd c) ;;
      hit <- extract_target (c_incoming c) (args_of msg) true false ;;
      match target_of hit with
      | None => safe_reply msg (err_cannot_resolve locale)
      | Some (target_id, target_name) =>
          gated <- gate action "tester" msg admin_id target_id target_name locale ;;
          match gated with
          | None => Ret tt
          | Some (ident, _) =>
              notify_staff action msg ident locale ;;;
              execute target_id (name_or_id target_name target_id)
          end
      end
  | _, _ => Ret tt
  end.

Definition cmd_unmute_body (c : command) : io unit :=
  managed "unmute" c (execute_unmute cfg (c_upd c) (c_first_name c)).

(** The warning commands also show the title of the chat. *)
Definition cmd_unwarn_body (c : command) (chat_title : string) : io unit :=
  managed "unwarn" c (fun id name => execute_unwarn cfg (c_upd c) (WarnContext id name (c_first_name c) chat_title)).

Definition cmd_resetwarns_body (c : command) (chat_title : string) : io unit :=
  managed "resetwarns" c
    (fun id name => execute_resetwarns cfg (c_upd c) (WarnContext id name (c_first_name c) chat_title)).

Definition cmd_warnlist_body (c : command) (chat_title : string) : io unit :=
  match effective_message (c_upd c), effective_user (c_upd c) with
  | Some msg, Some admin_id =>
      locale <- locale_for_update (c_upd c) ;;
      hit <- extract_target (c_incoming c) (args_of msg) true false ;;
      match target_of hit with
      | None => safe_reply msg (err_cannot_resolve locale)
      | Some (target_id, target_name) =>
          let! (executor_role, _) := resolve_and_check msg admin_id target_id "tester" in
          match executor_role with
          | BNull => Ret tt
          | _ => execute_warnlist cfg (c_upd c)
                   (WarnContext target_id (name_or_id target_name target_id) (c_first_name c) chat_title)
          end
      end
  | _, _ => Ret tt
  end.

Definition cmd_unmute (c : command) := limited "cmd_unmute" basic_mod_only (cmd_unmute_body c) (c_upd c).
Definition cmd_unwarn (c : command) (title : string) :=
  limited "cmd_unwarn" basic_mod_only (cmd_unwarn_body c title) (c_upd c).
Definition cmd_resetwarns (c : command) (title : string) :=
  limited "cmd_resetwarns" basic_mod_only (cmd_resetwarns_body c title) (c_upd c).
Definition cmd_warnlist (c : command) (title : string) :=
  limited "cmd_warnlist" basic_mod_only (cmd_warnlist_body c title) (c_upd c).

(** * /tcunban *)
Definition staff_kind (k : kind) : bool := match k with Admin | Developer | Tester => true | _ => false end.

(** A role that is one of [staff_roles], as a kind. *)
Definition staff_role (role : bson) : option kind :=
  if role_is "admin" role then Some Admin
  else if role_is "developer" role then Some Developer
  else if role_is "tester" role then Some Tester
  else None.

(** A staff target: only with a proven active ban, and demoted first. *)
Definition unban_staff (c : command) (msg : message) (admin_id target_id : Z) (name : string) (target_role : bson)
    (refusal : option text) (pre_ban : option doc) (locale : ustr) : io bool :=
  let refusal :=
    match refusal, staff_role target_role with
    | None, Some k => refuse_message "unban" (MkIdentity k target_id name None false) locale
    | _, _ => refusal
    end in
  ban_record <- match pre_ban with
                | Some ban => Ret (Some ban)
                | None => try_except (get_active_ban target_id) (fun _ => Ret None)
                end ;;
  match ban_record with
  | None => safe_reply msg match refusal with Some r => r | None => TStr "" end ;;; Ret false
  | Some _ =>
      if negb (truthy_role target_role) then Ret true
      else
        try_except
          (DemoteFlow.execute cfg target_id name target_role admin_id (c_first_name c) None ;;; Ret true)
          (fun _ => safe_reply msg (TKey "demote.abort.body" locale
             [("user"%string, TUser target_id name); ("target_role"%string, TStr (role_str target_role));
              ("action"%string, TStr "unban")]) ;;; Ret false)
  end.

Definition unban_target (c : command) (msg : message) (admin_id target_id : Z) (name : string) (locale : ustr) : io unit :=
  let! (ident, pre_ban, role_result) :=
    gather3 (classify bot_id admin_id target_id (Some name) None) (get_active_ban target_id)
      (resolve_and_check msg admin_id target_id "developer") in
  throw_if_cancelled [void ident; void pre_ban; void role_result] ;;;
  let pre_ban := match pre_ban with Ok ban => ban | Err _ => None end in
  match ident, role_result with
  | Ok ident, Ok (executor_role, target_role) =>
      if match executor_role, target_role with BNull, BNull => true | _, _ => false end then Ret tt
      else
        let refusal := refuse_message "unban" ident locale in
        match refusal, staff_kind (id_kind ident) with
        | Some refusal, false => safe_reply msg refusal
        | _, _ =>
            let is_staff_target :=
              match staff_role target_role, refusal with Some _, _ => true | None, Some _ => true | None, None => false end in
            ok <- (if is_staff_target
                   then unban_staff c msg admin_id target_id name target_role refusal pre_ban locale else Ret true) ;;
            if negb ok then Ret tt
            else
              try_except (execute_unban cfg (c_upd c) (c_first_name c) target_id name pre_ban)
                (fun _ => safe_reply msg (err_db_retry locale))
        end
  | _, _ => Ret tt
  end.

Definition cmd_unban_body (c : command) : io unit :=
  locale <- locale_for_update (c_upd c) ;;
  match effective_message (c_upd c), effective_user (c_upd c) with
  | Some msg, Some admin_id =>
      hit <- extract_target (c_incoming c) (args_of msg) true false ;;
      match target_of hit with
      | None => safe_reply msg (err_cannot_resolve locale)
      | Some (target_id, target_name) =>
          unban_target c msg admin_id target_id (name_or_id target_name target_id) locale
      end
  | _, _ => Ret tt
  end.

Definition cmd_unban (c : command) := limited "cmd_unban" mod_only (cmd_unban_body c) (c_upd c).
End commands.

(** * What an entry point does *)
Inductive action : Type := ABan | AKick | AMute | AWarn.

Definition verb (a : action) : string :=
  match a with ABan => "ban" | AKick => "kick" | AMute => "mute" | AWarn => "warn" end.
Definition min_role_of (a : action) : string := match a with ABan => "developer" | _ => "tester" end.
(** A warned staff member keeps the role. *)
Definition demotes (a : action) : bool := match a with AWarn => false | _ => true end.
Definition target_key (a : action) : string := (verb a ++ "_target_id")%string.
Definition reason_key (a : action) : string := (verb a ++ "_reason")%string.

(** Anybody's rights changed; another target or an overlong reason stored. *)
Definition amiss (a : action) (tid : Z) (o : obs eff) : bool :=
  obs_enforce o ||
  match o with
  | Obs ev _ =>
      match ev with
      | UdPut k v =>
          (String.eqb k (target_key a) && negb (match v with UdBson (BInt z) => z =? tid | _ => false end)) ||
          (String.eqb k (reason_key a) && match v with UdBson (BStr s) => is_reason_too_long s | _ => true end)
      | _ => false
      end
  end.

Lemma restless_amiss a tid o : restless o = false -> amiss a tid o = false.
Proof. destruct o as [X [] r]; done. Qed.

Section entry.
Context {CAT : Catalog} (cfg : config) (bot_id : Z).
Abbreviation lookup := (never restless).
Abbreviation calm := (Forall (fun o => restless o = false)).

Definition entry (a : action) (c : command) : io conv :=
  match a with
  | ABan => cmd_ban_start_body cfg bot_id c
  | AKick => cmd_kick_body cfg bot_id c
  | AMute => cmd_mute_body cfg bot_id c
  | AWarn => cmd_warn_entry_body cfg bot_id c
  end.

(** The target is remembered for the conversation. *)
Definition remembered (a : action) (tid : Z) (t : trace eff) : Prop :=
  In (Obs (UdPut (target_key a) (BInt tid)) (Ok tt)) t.

(** Past the gate, with the target [tid] of role [role]. *)
Definition opened (a : action) (c : command) (aid : Z) (msg : message) (tid : Z) (name : string) (role : bson)
    (t : trace eff) (w : conv) : Prop :=
  (w <> END -> remembered a tid t) /\
  (w = WAITING_UPDATE_CONFIRM -> a = ABan /\ exists ban, during (get_active_ban tid) (Some ban) t) /\
  (w <> END -> w <> WAITING_UPDATE_CONFIRM -> demotes a = true -> truthy_role role = true ->
   during (auto_demote_or_abort cfg msg tid name role aid (c_first_name c) (verb a)) true t).

Definition entered (a : action) (c : command) (aid : Z) (msg : message) (t : trace eff) (r : result conv) : Prop :=
  (calm t /\ forall w, r = Ok w -> w = END) \/
  exists tid tname used ident role,
    tid <> 0 /\
    during (extract_mod_target (c_incoming c) (args_of msg) true) (Some (tid, tname), used) t /\
    during (classify_and_check bot_id aid tid (Some tname) msg (min_role_of a) None) (Some (ident, role)) t /\
    ~ In (id_kind ident) (refused_kinds (verb a)) /\
    Forall (fun o => amiss a tid o = false) t /\
    forall w, r = Ok w -> opened a c aid msg tid (name_or_id tname tid) role t w.

Lemma lookup_amiss a tid {A} (p : io A) : lookup p -> never (amiss a tid) p.
Proof. intros H. eapply wp_mono; [exact H|]. intros t r Ht. eapply Forall_impl; [exact Ht|]. apply restless_amiss. Qed.

Lemma lookup_classify_check e tid n msg mr ob : lookup (classify_and_check bot_id e tid n msg mr ob).
Proof. unfold classify_and_check. never_auto. Qed.

Lemma lookup_mod_target msg args b : lookup (extract_mod_target msg args b).
Proof. unfold extract_mod_target. cbv zeta. never_auto. Qed.

Lemma unrefused action ident locale :
  refuse_message action ident locale = None -> ~ In (id_kind ident) (refused_kinds action).
Proof.
  unfold refuse_message. destruct (existsb _ _) eqn:H; [done|]. intros _ Hin.
  assert (existsb (fun k => bool_decide (k = id_kind ident)) (refused_kinds action) = true); [|congruence].
  apply existsb_exists. eexists. split; [exact Hin|]. by rewrite bool_decide_eq_true.
Qed.

Lemma lookup_gate action mr msg aid tid tn locale : lookup (gate bot_id action mr msg aid tid tn locale).
Proof. unfold gate. pose proof lookup_classify_check. never_auto; auto. Qed.

(** Who passes the gate was classified, ranked and not refused. *)
Lemma gate_spec action mr msg aid tid tn locale t ident role :
  exec (gate bot_id action mr msg aid tid tn locale) t (Ok (Some (ident, role))) ->
  during (classify_and_check bot_id aid tid (Some tn) msg mr None) (Some (ident, role)) t /\
  ~ In (id_kind ident) (refused_kinds action).
Proof.
  unfold gate. intros (t1 & [[i r]|] & t2 & H1 & H2 & ->)%exec_bind_ok; [|by destruct H2].
  destruct (refuse_message action i locale) eqn:Href.
  - apply exec_bind_ok in H2 as (t3 & [] & t4 & _ & [_ [=]] & _).
  - destruct H2 as [-> [= -> ->]]. split; [|by eapply unrefused]. rewrite app_nil_r. by apply during_exec.
Qed.

Lemma never_put a tid k v :
  (forall r, amiss a tid (Obs (UdPut k v) r) = false) -> never (amiss a tid) (put k v).
Proof. intros H. apply never_call, H. Qed.

Lemma never_pops a tid keys : never (amiss a tid) (pops keys).
Proof. unfold pops. induction keys as [|k keys IH]; simpl; never_auto; auto. Qed.

Lemma target_amiss a tid r : amiss a tid (Obs (UdPut (target_key a) (BInt tid)) r) = false.
Proof. unfold amiss. rewrite Z.eqb_refl, andb_false_r. by destruct a. Qed.

(** The reason, checked before. *)
Definition fits (reason : string) : Prop := truthy_str reason && is_reason_too_long reason = false.

Lemma reason_amiss a tid reason r :
  fits reason -> truthy_str reason = true -> amiss a tid (Obs (UdPut (reason_key a) (BStr reason)) r) = false.
Proof. unfold fits. intros Hf Ht. rewrite Ht in Hf. unfold amiss. simpl in Hf. rewrite Hf, andb_false_r. by destruct a. Qed.

(** * The demotion in between *)
Lemma execute_amiss a tid id n role eid en tr : never (amiss a tid) (DemoteFlow.execute cfg id n role eid en tr).
Proof.
  unfold DemoteFlow.execute, remove_role, remove_admin, Roles.remove_role, invalidate, redis_del_background, db_call.
  destruct (cfg_logs cfg) as [lc lt]. pose proof lookup_user_locale as Hl. never_auto; auto.
  apply lookup_amiss, Hl.
Qed.

Lemma auto_demote_amiss a tid msg id n role eid en tr :
  never (amiss a tid) (auto_demote_or_abort cfg msg id n role eid en tr).
Proof.
  unfold auto_demote_or_abort. pose proof execute_amiss. never_auto; auto; apply lookup_amiss; auto with never.
Qed.

Lemma demote_amiss a tid act c msg id n role aid : never (amiss a tid) (demote_target cfg act c msg id n role aid).
Proof. unfold demote_target. pose proof auto_demote_amiss. never_auto; auto. Qed.

(** A holder of a role passes only demoted. *)
Lemma demote_true act c msg id n role aid t :
  exec (demote_target cfg act c msg id n role aid) t (Ok true) ->
  truthy_role role = true -> during (auto_demote_or_abort cfg msg id n role aid (c_first_name c) act) true t.
Proof. unfold demote_target. intros H Hr. rewrite Hr in H. by apply during_exec. Qed.

(** * Past the gate *)
Section onward.
Context (a : action) (c : command) (aid : Z) (msg : message) (tid : Z) (name : string) (role : bson).
Abbreviation still := (Forall (fun o => amiss a tid o = false)).

(** After the calls [tp], [p] does nothing amiss and opens what it should. *)
Definition onward (tp : trace eff) (p : io conv) : Prop :=
  wp p (fun t r => still t /\ forall w, r = Ok w -> opened a c aid msg tid name role (tp ++ t) w).

Lemma onward_end tp : onward tp (Ret END).
Proof. apply wp_ret. split; [done|]. by intros w [= <-]. Qed.

Lemma onward_raise tp e : onward tp (Raise e).
Proof. by apply wp_raise. Qed.

Lemma onward_bind {A} tp (p : io A) (k : A -> io conv) :
  never (amiss a tid) p -> (forall t x, exec p t (Ok x) -> onward (tp ++ t) (k x)) -> onward tp (bind p k).
Proof.
  intros Hp Hk. eapply wp_never_bind; [exact Hp| |done].
  intros t x Ht Hr. eapply wp_mono; [exact (Hk t x Hr)|]. intros t' r [Ht' HP]. split; [by apply Forall_app|].
  intros w Hw. rewrite app_assoc. by apply HP.
Qed.

Lemma onward_stop tp (p : io unit) : never (amiss a tid) p -> onward tp (p ;;; Ret END).
Proof. intros Hp. apply onward_bind; [done|]. intros. apply onward_end. Qed.

Lemma onward_put tp k v (p : io conv) :
  (forall r, amiss a tid (Obs (UdPut k v) r) = false) ->
  onward (tp ++ [Obs (UdPut k v) (Ok tt)]) p -> onward tp (put k v ;;; p).
Proof.
  intros Ho Hp. apply onward_bind; [by apply never_put|]. intros t [] Ht.
  assert (wp (put k v) (fun t r => r = Ok tt -> t = [Obs (UdPut k v) (Ok tt)])) as Hw.
  { unfold put. wp_step. by intros [= ->]. }
  by rewrite (wp_elim _ _ _ _ Hw Ht eq_refl).
Qed.

(** A prompt is opened, or the conversation ends. *)
Lemma onward_prompt tp txt kb sent keys next :
  (forall id, never (amiss a tid) (sent id)) -> next <> WAITING_UPDATE_CONFIRM \/ a = ABan ->
  (forall t, opened a c aid msg tid name role (tp ++ t) next) ->
  onward tp (open_with msg txt kb sent keys next).
Proof.
  intros Hs Hn Ho. apply onward_bind; [apply never_attempt, never_call; done|]. intros t [id|e] _.
  - apply onward_bind; [apply Hs|]. intros t' [] _. apply wp_ret. split; [done|]. intros w [= <-].
    rewrite <- !app_assoc. apply Ho.
  - destruct (is_Exception e); [apply onward_stop, never_pops|apply onward_raise].
Qed.

(** The prompt for the evidence, or for the reason. *)
Lemma onward_collect tp txt kb sent keys next :
  (forall id, never (amiss a tid) (sent id)) -> next = WAITING_PROOF \/ next = WAITING_REASON ->
  remembered a tid tp ->
  (demotes a = true -> truthy_role role = true ->
   during (auto_demote_or_abort cfg msg tid name role aid (c_first_name c) (verb a)) true tp) ->
  onward tp (open_with msg txt kb sent keys next).
Proof.
  intros Hs Hn Hr Hd. apply onward_prompt; [done|destruct Hn; subst; by left|]. intros t.
  split; [intros _; apply in_or_app; by left|]. split; [by destruct Hn; subst|].
  intros _ _ H1 H2. by apply during_l, Hd.
Qed.
End onward.

Ltac onward_puts :=
  repeat (apply onward_put;
    [intros ?; first [reflexivity | match goal with |- amiss ?a _ _ = _ => by apply (reason_amiss a) end
                     | match goal with |- amiss ?a _ _ = _ => by apply (target_amiss a) end]|]).
Ltac onward_ends :=
  apply onward_collect;
  [intros ?; first [apply never_ret | by apply never_put | by (unfold ban_prompt_sent; never_auto; by apply never_put)]
  |auto|unfold remembered; rewrite ?in_app_iff; simpl; auto 20|intros; repeat apply during_l; auto].

Lemma kick_open_onward c aid msg tid name reason role locale tp (Hf : fits reason) :
  (truthy_role role = true -> during (auto_demote_or_abort cfg msg tid name role aid (c_first_name c) "kick") true tp) ->
  onward AKick c aid msg tid name role tp (kick_open msg tid name reason locale).
Proof. intros Hd. unfold kick_open. destruct (truthy_str reason) eqn:Ht; onward_puts; onward_ends. Qed.

Lemma mute_open_onward c aid msg tid name reason role d locale tp (Hf : fits reason) :
  (truthy_role role = true -> during (auto_demote_or_abort cfg msg tid name role aid (c_first_name c) "mute") true tp) ->
  onward AMute c aid msg tid name role tp (mute_open c msg aid tid name reason d locale).
Proof. intros Hd. unfold mute_open. destruct (truthy_str reason) eqn:Ht; onward_puts; onward_ends. Qed.

Lemma warn_open_onward c aid msg tid name reason role locale tp (Hf : fits reason) :
  onward AWarn c aid msg tid name role tp (warn_open msg tid name reason locale).
Proof. unfold warn_open. destruct (truthy_str reason) eqn:Ht; onward_puts; onward_ends; done. Qed.

Lemma ban_open_onward c aid msg tid name reason role locale tp (Hf : fits reason) (Ht : truthy_str reason = true) :
  onward ABan c aid msg tid name role tp (ban_open cfg c msg aid tid name reason role locale).
Proof.
  unfold ban_open. onward_puts. set (tp1 := _ ++ [_]).
  assert (remembered ABan tid tp1) as Hr. { unfold remembered, tp1. rewrite !in_app_iff. simpl. auto 20. }
  clearbody tp1. apply onward_bind; [unfold get_active_ban, db_call; never_auto|].
  intros t existing (ra & [= ->] & He)%exec_attempt. destruct ra as [[ban|]|e].
  - onward_puts. unfold _ask_update_confirm. destruct (cfg_logs cfg), (cfg_proofs cfg). cbv zeta.
    apply onward_prompt; [intros ?; unfold ban_prompt_sent; never_auto; by apply never_put|by right|].
    intros t'. split; [intros _; unfold remembered; rewrite !in_app_iff; auto|]. split; [|done].
    intros _. split; [done|]. exists ban. do 2 apply during_l. by apply during_r, during_exec.
  - apply onward_bind; [apply demote_amiss|]. intros t' [|] Hd; [|apply onward_end].
    cbn [negb proof_prompt_content].
    apply onward_collect; [intros ?; unfold ban_prompt_sent; never_auto; by apply never_put|by left|..].
    + unfold remembered. rewrite !in_app_iff. auto.
    + intros _ Hrole. apply during_r. by eapply demote_true.
  - destruct (is_Exception e); [|apply onward_raise].
    apply onward_bind; [apply lookup_amiss; auto with never|]. intros. apply onward_stop, never_pops.
Qed.

(** * Up to the gate *)
Section upto.
Context (a : action) (c : command) (aid : Z) (msg : message).
Hypotheses (Huser : effective_user (c_upd c) = Some aid) (Hmsg : effective_message (c_upd c) = Some msg).

(** After lookups only. *)
Definition enters (tp : trace eff) (p : io conv) : Prop :=
  calm tp -> wp p (fun t r => entered a c aid msg (tp ++ t) r).

Lemma enters_end tp : enters tp (Ret END).
Proof. intros Htp. apply wp_ret. left. rewrite app_nil_r. split; [done|]. by intros w [= <-]. Qed.

Lemma enters_bind {A} tp (p : io A) (k : A -> io conv) :
  lookup p -> (forall t x, exec p t (Ok x) -> enters (tp ++ t) (k x)) -> enters tp (bind p k).
Proof.
  intros Hp Hk Htp. apply (calm_bind p k tp (entered a c aid msg)); [done|done| |].
  - intros t x Ht Hx. by apply Hk.
  - intros t e Ht _. by left.
Qed.

Lemma enters_stop tp (p : io unit) : lookup p -> enters tp (p ;;; Ret END).
Proof. intros Hp. apply enters_bind; [done|]. intros. apply enters_end. Qed.

Lemma enters_raise tp e : enters tp (Raise e).
Proof. intros Htp. apply wp_raise. left. by rewrite app_nil_r. Qed.

Lemma enters_reason tp args hit consumed explicit (k : string -> io conv) :
  (forall reason, enters tp (k reason)) -> enters tp (reason <- inline_reason_of args hit consumed explicit ;; k reason).
Proof.
  intros Hk. unfold inline_reason_of. destruct (parse_inline_reason _ _ _) as [reason|]; [apply Hk|apply enters_raise].
Qed.

Lemma enters_onward tp tid tname used ident role (p : io conv) :
  tid <> 0 ->
  during (extract_mod_target (c_incoming c) (args_of msg) true) (Some (tid, tname), used) tp ->
  during (classify_and_check bot_id aid tid (Some tname) msg (min_role_of a) None) (Some (ident, role)) tp ->
  ~ In (id_kind ident) (refused_kinds (verb a)) ->
  onward a c aid msg tid (name_or_id tname tid) role tp p -> enters tp p.
Proof.
  intros H1 H2 H3 H4 Hp Htp. eapply wp_mono; [exact Hp|]. intros t r [Ht Hr]. right.
  exists tid, tname, used, ident, role.
  split; [done|]. split; [by apply during_l|]. split; [by apply during_l|]. split; [done|]. split; [|done].
  apply Forall_app. split; [|done]. eapply Forall_impl; [exact Htp|]. apply restless_amiss.
Qed.

(** The target, then the gate; the rest is the action's own. *)
Lemma enters_target tp (k : option (Z * string) -> bool -> io conv) :
  (forall t hit used, exec (extract_mod_target (c_incoming c) (args_of msg) true) t (Ok (hit, used)) ->
     enters (tp ++ t) (k hit used)) ->
  enters tp (let! (hit, used) := extract_mod_target (c_incoming c) (args_of msg) true in k hit used).
Proof. intros Hk. apply enters_bind; [apply lookup_mod_target|]. intros t [hit used]. apply Hk. Qed.

Lemma enters_gate tp tid tname used locale (k : Identity * bson -> io conv) :
  tid <> 0 ->
  during (extract_mod_target (c_incoming c) (args_of msg) true) (Some (tid, tname), used) tp ->
  (forall ident role tp', onward a c aid msg tid (name_or_id tname tid) role tp' (k (ident, role))) ->
  enters tp (gated <- gate bot_id (verb a) (min_role_of a) msg aid tid tname locale ;;
             match gated with None => Ret END | Some g => k g end).
Proof.
  intros Htid Hd Hk. apply enters_bind; [apply lookup_gate|]. intros t [[ident role]|] Hg; [|apply enters_end].
  apply gate_spec in Hg as [Hc Hr]. eapply enters_onward; [exact Htid|by apply during_l|by apply during_r|exact Hr|].
  apply Hk.
Qed.
End upto.

Lemma target_of_spec hit tid tname :
  target_of hit = Some (tid, tname) -> hit = Some (tid, tname) /\ tid <> 0.
Proof. unfold target_of. destruct hit as [[id n]|]; [|done]. destruct (truthy_Z id) eqn:H; [|done]. intros [= <- <-]. split; [done|]. unfold truthy_Z in H. by to_prop. Qed.

Section entries.
Context (c : command) (aid : Z) (msg : message).

Lemma too_long_amiss a tid reason locale : never (amiss a tid) (too_long msg reason locale).
Proof. apply lookup_amiss. unfold too_long. auto with never. Qed.

Lemma lookup_too_long reason locale : lookup (too_long msg reason locale).
Proof. unfold too_long. auto with never. Qed.

Lemma kick_enters locale tp : enters AKick c aid msg tp (kick_target cfg bot_id c msg aid locale).
Proof.
  unfold kick_target. cbv zeta. apply enters_target. intros t hit used Ht. apply enters_reason. intros reason.
  destruct (target_of hit) as [[tid tname]|] eqn:Hhit; [|apply enters_stop; auto with never].
  apply target_of_spec in Hhit as [-> Htid].
  destruct (truthy_str reason && is_reason_too_long reason) eqn:Hf; [apply enters_stop, lookup_too_long|].
  eapply (enters_gate AKick c aid msg); [exact Htid|by apply during_r, during_exec|].
  intros ident role tp'. apply onward_bind; [apply demote_amiss|]. intros t' [|] Hd; [|apply onward_end].
  apply kick_open_onward; [exact Hf|]. intros Hr. apply during_r. by eapply demote_true.
Qed.

Lemma warn_enters locale tp : enters AWarn c aid msg tp (warn_target cfg bot_id c msg aid locale).
Proof.
  unfold warn_target. cbv zeta. apply enters_target. intros t hit used Ht. apply enters_reason. intros reason.
  destruct (target_of hit) as [[tid tname]|] eqn:Hhit; [|apply enters_stop; auto with never].
  apply target_of_spec in Hhit as [-> Htid].
  destruct (truthy_str reason && is_reason_too_long reason) eqn:Hf; [apply enters_stop, lookup_too_long|].
  eapply (enters_gate AWarn c aid msg); [exact Htid|by apply during_r, during_exec|].
  intros ident role tp'. apply onward_bind; [|intros; by apply warn_open_onward].
  apply lookup_amiss. unfold notify_staff. destruct (staff_notice _ _ _ _); auto with never. apply never_ret.
Qed.

Lemma ban_enters locale tp : enters ABan c aid msg tp (ban_target cfg bot_id c msg aid locale).
Proof.
  unfold ban_target. cbv zeta. apply enters_target. intros t hit used Ht. apply enters_reason. intros reason.
  destruct (target_of hit) as [[tid tname]|] eqn:Hhit; [|apply enters_stop; auto with never].
  apply target_of_spec in Hhit as [-> Htid].
  destruct (truthy_str reason) eqn:Hreason; cbn [negb]; [|apply enters_stop; unfold say; auto with never].
  destruct (is_reason_too_long reason) eqn:Hf; [apply enters_stop, lookup_too_long|].
  eapply (enters_gate ABan c aid msg); [exact Htid|by apply during_r, during_exec|].
  intros ident role tp'. apply ban_open_onward; [|done]. unfold fits. by rewrite Hreason, Hf.
Qed.

Lemma mute_enters locale tp : enters AMute c aid msg tp (mute_target cfg bot_id c msg aid locale).
Proof.
  unfold mute_target. cbv zeta. apply enters_target. intros t hit used Ht.
  destruct (target_of hit) as [[tid tname]|] eqn:Hhit; [|apply enters_stop; auto with never].
  apply target_of_spec in Hhit as [-> Htid].
  eapply (enters_gate AMute c aid msg); [exact Htid|by apply during_r, during_exec|].
  intros ident role tp'. apply onward_bind; [apply demote_amiss|]. intros t' [|] Hd; [|apply onward_end]. cbn [negb].
  apply onward_bind; [unfold split_duration; never_auto|]. intros t2 [d rest] _.
  unfold inline_reason_of. destruct (parse_inline_reason _ _ _) as [reason|]; [rewrite bind_ret|apply onward_raise].
  destruct (truthy_str reason && is_reason_too_long reason) eqn:Hf; [apply onward_stop, too_long_amiss|].
  apply mute_open_onward; [exact Hf|]. intros Hr. apply during_l, during_r. by eapply demote_true.
Qed.

Lemma entry_enters a (Huser : effective_user (c_upd c) = Some aid) (Hmsg : effective_message (c_upd c) = Some msg) :
  enters a c aid msg [] (entry a c).
Proof.
  destruct a; simpl; unfold cmd_ban_start_body, cmd_kick_body, cmd_mute_body, cmd_warn_entry_body; rewrite Hmsg, Huser;
    (apply enters_bind; [auto with never|]; intros t locale _).
  - apply ban_enters.
  - destruct (effective_chat (c_upd c)) as [[type chat]|]; [|apply enters_end].
    destruct (String.eqb type "private"); [apply enters_stop; auto with never|apply kick_enters].
  - apply mute_enters.
  - apply warn_enters.
Qed.
End entries.
End entry.


(** User 7, the Founder, kicks user 8, a developer, with a reason. *)
Definition kick_command : command :=
  Command (Update (Some 7) (Some ("supergroup"%string, -100))
             (Some (Message 5 (-100) "supergroup" (Some "/tckick 8 spamming"%string))) false) None [] "boss" None false.

Definition developer_script : script := fun X ev =>
  match ev with
  | FindOne "tc_owners" _ _ => Some (Ok (Some [("user_id"%string, BInt 7)]))
  | FindOne "tc_roles" [("user_id"%string, BInt 8)] _ => Some (Ok (Some [("role"%string, BStr "developer")]))
  | GetChat (inl 8) => Some (Ok (ChatInfo 8 (Some "dev"%string) None None))
  | DeleteOne "tc_roles" _ => Some (Ok 1)
  | _ => None
  end.

(** /tcmute demotes before it looks at the reason: with an overlong one the
    target loses its role and is not muted. *)
Definition long_mute : command :=
  Command (Update (Some 7) (Some ("supergroup"%string, -100))
    (Some (Message 5 (-100) "supergroup" (Some ("/tcmute 8 " ++ String.concat "" (repeat "x" 1001))%string))) false)
    None [] "boss" None false.

Definition obs_role_gone (uid : Z) (o : obs eff) : bool :=
  match o with
  | Obs ev (Ok _) => match ev with DeleteOne "tc_roles" [("user_id", BInt id)] => id =? uid | _ => false end
  | _ => false
  end.

Lemma overlong_mute_demotes :
  let run := replay developer_script (@entry demo_catalog demo_config 99 AMute long_mute) in
  run.2 = Ok END /\ existsb (obs_role_gone 8) run.1 = true /\ existsb obs_put run.1 = false.
Proof. vm_compute. done. Qed.

(** * The commands without a conversation *)
Inductive managing : Type := MUnmute | MUnwarn (chat_title : string) | MResetwarns (chat_title : string).

Definition managing_verb (m : managing) : string :=
  match m with MUnmute => "unmute" | MUnwarn _ => "unwarn" | MResetwarns _ => "resetwarns" end.

Section managing.
Context {CAT : Catalog} (cfg : config) (bot_id : Z) (c : command).
Abbreviation lookup := (never restless).
Abbreviation calm := (Forall (fun o => restless o = false)).

Definition manage (m : managing) : io unit :=
  match m with
  | MUnmute => cmd_unmute_body cfg bot_id c
  | MUnwarn title => cmd_unwarn_body cfg bot_id c title
  | MResetwarns title => cmd_resetwarns_body cfg bot_id c title
  end.

(** The executor a command hands over to. *)
Definition managed_by (m : managing) (tid : Z) (name : string) : io unit :=
  match m with
  | MUnmute => execute_unmute cfg (c_upd c) (c_first_name c) tid name
  | MUnwarn title => execute_unwarn cfg (c_upd c) (WarnContext tid name (c_first_name c) title)
  | MResetwarns title => execute_resetwarns cfg (c_upd c) (WarnContext tid name (c_first_name c) title)
  end.

Definition handed_over (m : managing) (aid : Z) (msg : message) (t : trace eff) (r : result unit) : Prop :=
  calm t \/
  exists tid tname ident role t1 t2,
    t = t1 ++ t2 /\ calm t1 /\ tid <> 0 /\
    during (extract_target (c_incoming c) (args_of msg) true false) (Some (tid, tname)) t1 /\
    during (classify_and_check bot_id aid tid (Some tname) msg "tester" None) (Some (ident, role)) t1 /\
    ~ In (id_kind ident) (refused_kinds (managing_verb m)) /\
    exec (managed_by m tid (name_or_id tname tid)) t2 r.

Lemma managed_hands m aid msg (Huser : effective_user (c_upd c) = Some aid)
    (Hmsg : effective_message (c_upd c) = Some msg) :
  wp (managed cfg bot_id (managing_verb m) c (managed_by m)) (fun t r => handed_over m aid msg ([] ++ t) r).
Proof.
  unfold managed. rewrite Huser, Hmsg.
  apply (calm_bind _ _ [] (handed_over m aid msg)); [auto with never|constructor| |by left]. intros t1 locale H1 _.
  apply (calm_bind _ _ _ (handed_over m aid msg)); [auto with never|done| |by left]. intros t2 hit H2 Hhit.
  destruct (target_of hit) as [[tid tname]|] eqn:Ht; [|apply lookup_rest; [auto with never|done|by left]].
  apply target_of_spec in Ht as [-> Htid].
  apply (calm_bind _ _ _ (handed_over m aid msg)); [apply lookup_gate|done| |by left]. intros t3 [[ident role]|] H3 Hg.
  2: { apply wp_ret. left. by rewrite app_nil_r. }
  apply gate_spec in Hg as [Hc Hr].
  apply (calm_bind _ _ _ (handed_over m aid msg)); [unfold notify_staff; destruct (staff_notice _ _ _ _); never_auto|done| |by left].
  intros t4 [] H4 _. apply wp_intro. intros t5 r Hx. right. do 6 eexists. split; [reflexivity|].
  split; [exact H4|]. split; [exact Htid|].
  split; [do 2 apply during_l; by apply during_r, during_exec|]. split; [apply during_l; by apply during_r|done].
Qed.
End managing.

(** The gate of /tcunmute, /tcunwarn and /resetwarns.  A run only looks
    things up; or, after lookups in which the target was resolved, the sender
    was found to hold a moderator's rank above the target's, and the target's
    identity is not one the command refuses, it is a run of the executor, for
    that very target. *)
Theorem management_gate {CAT : Catalog} (cfg : config) (bot_id : Z) (m : managing) (c : command) (aid : Z)
    (msg : message) (t : trace eff) (r : result unit)
    (Huser : effective_user (c_upd c) = Some aid) (Hmsg : effective_message (c_upd c) = Some msg)
    (Hrun : exec (manage cfg bot_id c m) t r) :
  handed_over cfg bot_id c m aid msg t r.
Proof.
  assert (exec (managed cfg bot_id (managing_verb m) c (managed_by cfg c m)) t r) as H by (destruct m; exact Hrun).
  exact (wp_elim _ _ _ _ (managed_hands cfg bot_id c m aid msg Huser Hmsg) H).
Qed.

(** The Founder unmutes a muted developer. *)
Definition unmute_command : command :=
  Command (Update (Some 7) (Some ("supergroup"%string, -100))
             (Some (Message 5 (-100) "supergroup" (Some "/tcunmute 8"%string))) false) None [] "boss" None false.

Definition muted_developer : script := fun X ev =>
  match ev with
  | FindOne "active_mutes" _ _ => Some (Ok (Some [("user_id"%string, BInt 8)]))
  | ev => developer_script _ ev
  end.

Lemma management_gate_witness :
  let run := replay muted_developer (@manage demo_catalog demo_config 99 unmute_command MUnmute) in
  existsb obs_write run.1 = true /\ @handed_over demo_catalog demo_config 99 unmute_command MUnmute 7
    (Message 5 (-100) "supergroup" (Some "/tcunmute 8"%string)) run.1 run.2.
Proof.
  split; [vm_compute; reflexivity|].
  refine (@management_gate demo_catalog demo_config 99 MUnmute unmute_command 7 _ _ _ eq_refl eq_refl _).
  exact (replay_exec muted_developer (@manage demo_catalog demo_config 99 unmute_command MUnmute)).
Defined.

(** /warns only looks things up. *)
Lemma warnlist_looks_up {CAT : Catalog} cfg c title : never restless (cmd_warnlist_body cfg c title).
Proof.
  unfold cmd_warnlist_body, execute_warnlist, Warns.get_warns, db_call, db_retry. cbv zeta. never_auto.
Qed.

(** * /tcunban *)
Section unban.
Context {CAT : Catalog} (cfg : config) (bot_id : Z) (c : command) (aid : Z) (msg : message).
Abbreviation lookup := (never restless).
Abbreviation calm := (Forall (fun o => restless o = false)).

(** Whoever asks was ranked, the target not refused; staff only with a ban. *)
Definition unban_allowed (t : trace eff) : Prop :=
  exists tid tname ident er tr,
    tid <> 0 /\
    during (extract_target (c_incoming c) (args_of msg) true false) (Some (tid, tname)) t /\
    during (classify bot_id aid tid (Some (name_or_id tname tid)) None) ident t /\
    during (resolve_and_check msg aid tid "developer") (er, tr) t /\ (er, tr) <> (BNull, BNull) /\
    (In (id_kind ident) (refused_kinds "unban") -> staff_kind (id_kind ident) = true) /\
    (staff_kind (id_kind ident) = true \/ is_Some (staff_role tr) ->
       exists ban, during (get_active_ban tid) (Some ban) t).

Definition unban_gated (t : trace eff) : Prop := calm t \/ unban_allowed t.

Lemma lookup_active_ban tid : lookup (get_active_ban tid).
Proof. unfold get_active_ban, db_call. never_auto. Qed.

Lemma unban_lookups tid name :
  wp (gather3 (classify bot_id aid tid (Some name) None) (get_active_ban tid) (resolve_and_check msg aid tid "developer"))
    (fun t r => calm t /\ forall i b x, r = Ok (i, b, x) ->
       (forall ident, i = Ok ident -> during (classify bot_id aid tid (Some name) None) ident t) /\
       (forall ban, b = Ok ban -> during (get_active_ban tid) ban t) /\
       (forall roles, x = Ok roles -> during (resolve_and_check msg aid tid "developer") roles t)).
Proof.
  apply wp_conj; [apply never_gather3; auto using lookup_active_ban with never|].
  eapply wp_gather3; [apply wp_exec|apply wp_exec|apply wp_exec|].
  intros t1 t2 t3 t23 t r1 r2 r3 H1 H2 H3 Hi23 Hi. split; [|done]. intros i b x [= <- <- <-].
  split; [|split]; intros v ->; (eapply during_interleave; [exact Hi|]).
  - left. by apply during_exec.
  - right. eapply during_interleave; [exact Hi23|]. left. by apply during_exec.
  - right. eapply during_interleave; [exact Hi23|]. right. by apply during_exec.
Qed.

Lemma lookup_gated (p : io unit) tp : lookup p -> calm tp -> wp p (fun t _ => unban_gated (tp ++ t)).
Proof. intros Hp Htp. apply (lookup_rest p tp (fun t _ => unban_gated t)); [done|done|]. intros. by left. Qed.

Lemma allowed_l t1 t2 : unban_allowed t1 -> unban_allowed (t1 ++ t2).
Proof.
  intros (tid & tname & ident & er & tr & H1 & H2 & H3 & H4 & H5 & H6 & H7).
  exists tid, tname, ident, er, tr. repeat (split; [auto using during_l|]). intros H.
  destruct (H7 H) as [ban Hb]. exists ban. by apply during_l.
Qed.

Lemma allowed_gated {A} (p : io A) tp : unban_allowed tp -> wp p (fun t _ => unban_gated (tp ++ t)).
Proof. intros H. apply wp_intro. intros t r _. right. by apply allowed_l. Qed.

(** The role check and the identity agree on who is staff, once refusals are
    out of the way. *)
Lemma refused_staff ident locale :
  staff_kind (id_kind ident) = true -> is_Some (refuse_message "unban" ident locale).
Proof. unfold refuse_message. destruct (id_kind ident); try done; by eexists. Qed.

Lemma unban_staff_gated tid name tr refusal pre_ban locale (k : io unit) tp :
  calm tp -> (forall ban, pre_ban = Some ban -> during (get_active_ban tid) (Some ban) tp) ->
  (forall t ban, during (get_active_ban tid) (Some ban) (tp ++ t) -> unban_allowed (tp ++ t)) ->
  wp (ok <- unban_staff cfg c msg aid tid name tr refusal pre_ban locale ;; if negb ok then Ret tt else k)
    (fun t _ => unban_gated (tp ++ t)).
Proof.
  intros Htp Hpre Hok. unfold unban_staff. cbv zeta. destruct pre_ban as [ban|].
  { apply allowed_gated. rewrite <- (app_nil_r tp). apply (Hok [] ban). rewrite app_nil_r. by apply Hpre. }
  assert (wp (try_except (get_active_ban tid) (fun _ => Ret None))
    (fun t r => calm t /\ forall ban, r = Ok (Some ban) -> during (get_active_ban tid) (Some ban) t)) as Hread.
  { apply wp_conj; [apply never_try; [apply lookup_active_ban|intros; apply never_ret]|].
    apply wp_try, wp_intro. intros t [ban|e] He; cbn beta iota.
    - intros b [= ->]. by apply during_exec.
    - destruct (is_Exception e); [|done]. by apply wp_ret. }
  apply wp_bind, wp_bind. eapply wp_mono; [exact Hread|]. intros t [[ban|]|e] [Hc Hb]; cbn beta iota.
  - assert (unban_allowed (tp ++ t)) as Ha by (apply (Hok t ban), during_r; by apply Hb).
    apply wp_intro. intros t' [ok|e] _; [apply wp_intro; intros t'' r _|]; right; rewrite !app_assoc;
      repeat first [exact Ha | apply allowed_l].
  - apply wp_bind. eapply wp_mono; [apply lookup_reply|]. intros t' [[]|e] Ht'.
    + apply wp_ret, wp_ret. left. by repeat (apply Forall_app; split).
    + left. by repeat (apply Forall_app; split).
  - left. by apply Forall_app.
Qed.

Lemma unban_target_gated tid tname locale tp :
  calm tp -> tid <> 0 -> during (extract_target (c_incoming c) (args_of msg) true false) (Some (tid, tname)) tp ->
  wp (unban_target cfg bot_id c msg aid tid (name_or_id tname tid) locale) (fun t _ => unban_gated (tp ++ t)).
Proof.
  intros Htp Htid Hx. unfold unban_target.
  apply (calm_bind _ _ tp (fun t _ => unban_gated t)); [apply never_gather3; auto using lookup_active_ban with never|done| |by left].
  intros t1 [[i b] x] H1 Hg.
  destruct (proj2 (wp_elim _ _ _ _ (unban_lookups tid (name_or_id tname tid)) Hg) i b x eq_refl) as (Hi & Hb & Hr).
  apply (calm_bind _ _ _ (fun t _ => unban_gated t)); [auto with never|done| |by left]. intros t2 [] H2 _. cbv zeta.
  destruct i as [ident|e]; [|apply lookup_gated; [apply never_ret|done]].
  destruct x as [[er tr]|e]; [|apply lookup_gated; [apply never_ret|done]].
  destruct (match er, tr with BNull, BNull => true | _, _ => false end) eqn:Hnull; [apply lookup_gated; [apply never_ret|done]|].
  set (tq := (tp ++ t1) ++ t2).
  assert (forall t, (In (id_kind ident) (refused_kinds "unban") -> staff_kind (id_kind ident) = true) ->
    (staff_kind (id_kind ident) = true \/ is_Some (staff_role tr) ->
       exists ban, during (get_active_ban tid) (Some ban) (tq ++ t)) -> unban_allowed (tq ++ t)) as Hall.
  { intros t Hk Hban. exists tid, tname, ident, er, tr. split; [done|].
    split; [by do 3 apply during_l|]. split; [do 2 apply during_l; by apply during_r, Hi|].
    split; [do 2 apply during_l; by apply during_r, Hr|]. split; [|done]. intros [= -> ->]. done. }
  assert (forall ban, match b with Ok ban => ban | Err _ => None end = Some ban -> during (get_active_ban tid) (Some ban) tq)
    as Hpre.
  { intros ban Hban. destruct b as [b'|e]; [|done]. subst. apply during_l, during_r. by apply Hb. }
  assert (calm tq) as Htq by done. clearbody tq. clear Hg Hi Hb Hr H1 H2 Htp.
  assert (forall r, refuse_message "unban" ident locale = None -> staff_role tr = None -> unban_allowed (tq ++ r)) as Hplain.
  { intros t Href Hs. apply Hall; [intros Hin; exfalso; by apply (unrefused "unban" ident locale)|].
    rewrite Hs. intros [Hk|[? [=]]]. apply (refused_staff _ locale) in Hk as [? Hk]. congruence. }
  destruct (refuse_message "unban" ident locale) as [refusal|] eqn:Href.
  - destruct (staff_kind (id_kind ident)) eqn:Hk; [|apply lookup_gated; [auto with never|done]].
    destruct (staff_role tr) eqn:Hs; (apply unban_staff_gated; [exact Htq|exact Hpre|]; intros t ban Hban; eauto).
  - assert (forall k, In (id_kind ident) (refused_kinds "unban") -> k) as Hno.
    { intros k Hin. exfalso. by apply (unrefused "unban" ident locale). }
    destruct (staff_role tr) eqn:Hs.
    + destruct (staff_kind (id_kind ident)); (apply unban_staff_gated; [exact Htq|exact Hpre|]; intros t ban Hban;
        apply Hall; [apply Hno|eauto]).
    + rewrite bind_ret. cbn [negb]. destruct (staff_kind (id_kind ident)); apply allowed_gated;
        rewrite <- (app_nil_r tq); by apply Hplain.
Qed.

Lemma unban_run (Huser : effective_user (c_upd c) = Some aid) (Hmsg : effective_message (c_upd c) = Some msg) :
  wp (cmd_unban_body cfg bot_id c) (fun t _ => unban_gated ([] ++ t)).
Proof.
  unfold cmd_unban_body. rewrite Huser, Hmsg.
  apply (calm_bind _ _ [] (fun t _ => unban_gated t)); [auto with never|constructor| |by left]. intros t1 locale H1 _.
  apply (calm_bind _ _ _ (fun t _ => unban_gated t)); [auto with never|done| |by left]. intros t2 hit H2 Hhit.
  destruct (target_of hit) as [[tid tname]|] eqn:Ht; [|apply lookup_gated; [auto with never|done]].
  apply target_of_spec in Ht as [-> Htid].
  apply unban_target_gated; [done|done|]. by apply during_r, during_exec.
Qed.
End unban.

(** The gate of /tcunban.  A run only looks things up; or, in that very run,
    the target was resolved, the sender was found to hold a Developer's rank
    above the target's, and the target is nobody an unban refuses - a staff
    member, by role or by identity, only with an active ban that was read. *)
Theorem unban_gate {CAT : Catalog} (cfg : config) (bot_id : Z) (c : command) (aid : Z) (msg : message)
    (t : trace eff) (r : result unit)
    (Huser : effective_user (c_upd c) = Some aid) (Hmsg : effective_message (c_upd c) = Some msg)
    (Hrun : exec (cmd_unban_body cfg bot_id c) t r) :
  unban_gated bot_id c aid msg t.
Proof. exact (wp_elim _ _ _ _ (unban_run cfg bot_id c aid msg Huser Hmsg) Hrun). Qed.

(** The Founder unbans a developer who was banned meanwhile. *)
Definition unban_command : command :=
  Command (Update (Some 7) (Some ("supergroup"%string, -100))
             (Some (Message 5 (-100) "supergroup" (Some "/tcunban 8"%string))) false) None [] "boss" None false.

Definition banned_developer : script := fun X ev =>
  match ev with
  | FindOne "bans" _ _ => Some (Ok (Some [("ban_id"%string, BStr "B1")]))
  | ev => developer_script _ ev
  end.

Lemma unban_gate_witness :
  let t := (replay banned_developer (@cmd_unban_body demo_catalog demo_config 99 unban_command)).1 in
  existsb (obs_role_gone 8) t = true /\ existsb obs_write t = true /\ @unban_gated demo_catalog 99 unban_command 7
    (Message 5 (-100) "supergroup" (Some "/tcunban 8"%string)) t.
Proof.
  split; [vm_compute; reflexivity|]. split; [vm_compute; reflexivity|].
  refine (@unban_gate demo_catalog demo_config 99 unban_command 7 _ _ _ eq_refl eq_refl _).
  exact (replay_exec banned_developer (@cmd_unban_body demo_catalog demo_config 99 unban_command)).
Defined.

(** Continue prompts for evidence only after the tapper's rank was checked
    again: the card can outlive a demotion. *)
Lemma continue_rechecked {CAT : Catalog} cfg c q acc t :
  exec (on_ban_update_continue cfg c q acc) t (Ok WAITING_PROOF) ->
  exists tapper msg, effective_user (c_upd c) = Some tapper /\ effective_message (c_upd c) = Some msg /\
    during (recheck_executor_rank msg tapper "developer") true t.
Proof.
  unfold on_ban_update_continue. destruct q as [q|]; [|by intros [_ [=]]].
  destruct (effective_message (c_upd c)) as [msg|]; [|by intros [_ [=]]].
  destruct acc; cbn [negb]; [|by intros (t1 & ? & t2 & _ & [_ [=]] & _)%exec_bind_ok].
  intros (t1 & [] & t2 & _ & (t3 & ok & t4 & Ha & Hk & ->)%exec_bind_ok & ->)%exec_bind_ok.
  destruct ok; cbn [negb] in Hk; [|by apply exec_bind_ok in Hk as (? & ? & ? & _ & [_ [=]] & _)].
  destruct (effective_user (c_upd c)) as [tapper|]; [|by destruct Ha].
  exists tapper, msg. split; [done|]. split; [done|]. by apply during_r, during_l, during_exec.
Qed.
