(* ===== verification/ReasonFlow.v ===== *)
(** The conversation that collects the reason and the evidence of a kick, a
    mute or a warning ([tcbot/modules/helper/workflows/reason_flow]) and the
    adapters that hand what it collected to the executors ([kicking_flow.py],
    [muting_flow/factory.py], [warning_flow/factory.py]).

    What is collected lives in [ctx.user_data]: one dict per user, shared by
    every handler of that user that runs.  [remembers] says which answers such
    a dict gives. *)

From S2P Require Import Prelude Prog Text World I18n Duration Dispatch Cache Locale Roles Replies Auth Records ProofUpload DemoteFlow BanFlow WarnFlow MuteFlow KickFlow WarnManage AppealReview Prefixes Extract Handler UserData PromoteFlow Admins Commands.

(** [_ModActionFlow]: the action, the rank its taps need, what it executes. *)
Record flow := Flow {
  fl_action : string;
  fl_min_role : string;
  fl_executor : command -> io unit
}.

(** [f"{action}_..."] *)
Definition key_of (f : flow) (name : string) : string := (fl_action f ++ "_" ++ name)%string.
Definition _exec_key (f : flow) : string := key_of f "executing".
Definition _proof_msgs_key (f : flow) : string := key_of f "proof_msgs".
Definition _prefix (f : flow) : string := (fl_action f ++ "_")%string.

Section flow.
Context {CAT : Catalog} (f : flow).

Definition _clear_user_data : io unit := call (UdPopPrefix (_prefix f)).

(** An answer nobody waits for. *)
Definition ack (q : option message) : io unit :=
  match q with Some _ => try_except (call (AnswerCallback None)) (fun _ => Ret tt) | None => Ret tt end.

Definition _get_target (locale : ustr) : io text :=
  name <- call (UdGet (key_of f "target_name")) ;;
  fname <- call (UdGet (key_of f "target_fname")) ;;
  tid <- call (UdGet (key_of f "target_id")) ;;
  let raw := if ud_truthy name then TStr (ud_str name)
             else if ud_truthy fname then TStr (ud_str fname)
             else TKey "reason.target.fallback" locale [] in
  Ret (if truthy_Z (ud_int tid) then TBuild "user_ref" [TInt (ud_int tid); raw] else TBuild "esc" [raw]).

Definition _recheck_tapper (c : command) (q : option message) : io bool :=
  match effective_user (c_upd c), effective_message (c_upd c) with
  | Some tap_user, Some tap_msg =>
      ok <- recheck_executor_rank tap_msg tap_user (fl_min_role f) ;;
      if ok : bool then Ret true else ack q ;;; _clear_user_data ;;; Ret false
  | _, _ => ack q ;;; Ret false
  end.

(** * base.py *)
Definition _on_cancel (c : command) (q : option message) : io conv :=
  match q with
  | None => Ret END
  | Some q =>
      _clear_user_data ;;;
      locale <- locale_for_update (c_upd c) ;;
      let! (answer, edit) :=
        gather2 (call (AnswerCallback None))
          (call (EditMessageText (msg_chat_id q) (message_id q)
             (TKey "reason.cancel.body" locale [("action"%string, TStr (fl_action f))]) None)) in
      throw_if_cancelled [answer; edit] ;;;
      Ret END
  end.

Definition _on_end_conv (c : command) : io conv :=
  _clear_user_data ;;;
  match effective_message (c_upd c) with
  | None => Ret END
  | Some msg =>
      locale <- locale_for_update (c_upd c) ;;
      safe_reply msg (TKey "reason.cancel.via_command" locale [("Action"%string, TStr (capitalize (fl_action f)))]) ;;;
      Ret END
  end.

(** * reason_step.py *)
Definition proof_step (reason : string) (extra_info : option ud_value) (locale : ustr) : io text :=
  target <- _get_target locale ;;
  Ret (step_prompt (fl_action f) (TStr reason) target (ud_text extra_info) locale).

Definition _on_reason_text (c : command) : io conv :=
  match effective_message (c_upd c) with
  | Some msg =>
      match msg_text msg with
      | None => Ret WAITING_REASON
      | Some raw =>
          let text := s_of (strip_ws (u raw)) in
          if is_reason_too_long text then
            locale <- locale_for_update (c_upd c) ;; too_long msg text locale ;;; Ret WAITING_REASON
          else
            put (key_of f "reason") (BStr text) ;;;
            extra_info <- call (UdGet (key_of f "extra_info")) ;;
            locale <- locale_for_update (c_upd c) ;;
            prompt_txt <- proof_step text extra_info locale ;;
            prompt_chat <- call (UdGet (key_of f "prompt_chat")) ;;
            prompt_id <- call (UdGet (key_of f "prompt_id")) ;;
            let kb := Some (proof_keyboard (fl_action f)) in
            prompt_sent <- try_except
              (match prompt_id, prompt_chat with
               | Some _, Some _ =>
                   call (EditMessageText (ud_int prompt_chat) (ud_int prompt_id) prompt_txt kb) ;;; Ret true
               | _, _ => call (ReplyText (message_id msg) prompt_txt kb) ;;; Ret true
               end) (fun _ => Ret false) ;;
            if prompt_sent : bool then Ret WAITING_PROOF else _clear_user_data ;;; Ret END
      end
  | None => Ret WAITING_REASON
  end.

Definition _on_skip_reason (c : command) (q : option message) : io conv :=
  match q with
  | None => Ret WAITING_REASON
  | Some q =>
      locale <- locale_for_update (c_upd c) ;;
      reason <- no_reason locale ;;
      put (key_of f "reason") (BStr reason) ;;;
      extra_info <- call (UdGet (key_of f "extra_info")) ;;
      prompt_txt <- proof_step reason extra_info locale ;;
      let! (answer, edit) :=
        gather2 (call (AnswerCallback None))
          (call (EditMessageText (msg_chat_id q) (message_id q) prompt_txt (Some (proof_keyboard (fl_action f))))) in
      throw_if_cancelled [answer; edit] ;;;
      match edit with
      | Err _ => _clear_user_data ;;; Ret END
      | Ok _ => Ret WAITING_PROOF
      end
  end.

Definition unexpected (c : command) (key : string) (next : conv) : io conv :=
  match effective_message (c_upd c) with
  | None => Ret next
  | Some msg =>
      locale <- locale_for_update (c_upd c) ;;
      safe_reply msg (TKey key locale
        [("action"%string, TStr (fl_action f)); ("skip"%string, TKey "button.skip" locale []);
         ("cancel"%string, TKey "button.cancel" locale [])]) ;;;
      Ret next
  end.
Definition _on_reason_unexpected (c : command) : io conv := unexpected c "reason.unexpected.body" WAITING_REASON.
Definition _on_proof_unexpected (c : command) : io conv := unexpected c "proof.unexpected.body" WAITING_PROOF.

(** * proof_step.py *)

(** [msg.photo or msg.video or msg.animation or msg.document] *)
Definition has_media (m : proof_message) : bool := match media_kind m with Some _ => true | None => false end.

Definition _on_proof (msg : option proof_message) : io conv :=
  match msg with
  | None => Ret WAITING_PROOF
  | Some msg =>
      executing <- call (UdGet (_exec_key f)) ;;
      if ud_truthy executing then Ret END
      else if has_media msg then
        existing <- call (UdGet (_proof_msgs_key f)) ;;
        put (_proof_msgs_key f) (UdMsgs (ud_msgs existing ++ [msg])) ;;;
        Ret WAITING_PROOF
      else Ret WAITING_PROOF
  end.

Definition _on_done_proof (c : command) (q : option message) : io conv :=
  match q with
  | None => Ret END
  | Some _ =>
      locale <- locale_for_update (c_upd c) ;;
      msgs <- call (UdGet (_proof_msgs_key f)) ;;
      match ud_msgs msgs with
      | [] =>
          try_except (call (AnswerCallback (Some (TKey "proof.empty.body" locale
            [("done"%string, TKey "button.done" locale [])])))) (fun _ => Ret tt) ;;;
          Ret WAITING_PROOF
      | _ =>
          executing <- call (UdGet (_exec_key f)) ;;
          if ud_truthy executing then ack q ;;; Ret END
          else
            allowed <- _recheck_tapper c q ;;
            if negb allowed then Ret END
            else
              put (_exec_key f) (BBool true) ;;;
              ack q ;;;
              done <- attempt (fl_executor f c) ;;
              _clear_user_data ;;;
              match done with Ok _ => Ret END | Err e => Raise e end
      end
  end.

Definition _on_skip_proof (c : command) (q : option message) : io conv :=
  match q with
  | None => Ret WAITING_PROOF
  | Some _ =>
      executing <- call (UdGet (_exec_key f)) ;;
      if ud_truthy executing then ack q ;;; Ret END
      else
        allowed <- _recheck_tapper c q ;;
        if negb allowed then Ret END
        else
          put (_exec_key f) (BBool true) ;;;
          let! (qa_result, exec_result) := gather2 (call (AnswerCallback None)) (fl_executor f c) in
          throw_if_cancelled [qa_result; exec_result] ;;;
          _clear_user_data ;;;
          match exec_result with Ok _ => Ret END | Err e => Raise e end
  end.

(** * flow.py: which update goes to which handler *)
Inductive input : Type :=
  | InText
  | InMedia (m : proof_message)
  | InOther
  | InCommand (escape : bool)
  | InButton (data : string) (q : message).

Definition fallbacks (i : input) : option (command -> io conv) :=
  match i with
  | InButton data q =>
      if String.eqb data (key_of f "cancel") then Some (fun c => _on_cancel c (Some q)) else None
  | InCommand escape => if escape then None else Some _on_end_conv
  | _ => None
  end.

(** [None]: not the conversation's. *)
Definition build (state : conv) (i : input) : option (command -> io conv) :=
  match state, i with
  | WAITING_REASON, InText => Some _on_reason_text
  | WAITING_REASON, InMedia _ | WAITING_REASON, InOther => Some _on_reason_unexpected
  | WAITING_REASON, InButton data q =>
      if skip_allowed "reason" (fl_action f) && String.eqb data (key_of f "skip_reason")
      then Some (fun c => _on_skip_reason c (Some q)) else fallbacks i
  | WAITING_PROOF, InMedia m => Some (fun _ => _on_proof (Some m))
  | WAITING_PROOF, InText | WAITING_PROOF, InOther => Some _on_proof_unexpected
  | WAITING_PROOF, InButton data q =>
      if String.eqb data (key_of f "skip_proof") then Some (fun c => _on_skip_proof c (Some q))
      else if String.eqb data (key_of f "done_proof") then Some (fun c => _on_done_proof c (Some q))
      else fallbacks i
  | WAITING_REASON, InCommand _ | WAITING_PROOF, InCommand _ => fallbacks i
  | _, _ => None
  end.

(** One update of a conversation in [state]. *)
Definition handle (state : conv) (i : input) (c : command) : io conv :=
  match build state i with Some handler => handler c | None => Ret state end.
End flow.

(** * The adapters: pop what was collected, execute *)
Section adapters.
Context {CAT : Catalog} (cfg : config).

Definition prompt_of (chat id : option ud_value) : option (Z * Z) :=
  match chat, id with Some (UdBson (BInt chat)), Some (UdBson (BInt id)) => Some (chat, id) | _, _ => None end.

Definition _exec_kick (chat_title : string) (c : command) : io unit :=
  target_id <- pop "kick_target_id" ;;
  target_name <- pop "kick_target_name" ;;
  locale <- locale_for_update (c_upd c) ;;
  default <- no_reason locale ;;
  reason <- pop "kick_reason" ;;
  proof_msgs <- pop "kick_proof_msgs" ;;
  prompt_chat <- pop "kick_prompt_chat" ;;
  prompt_id <- pop "kick_prompt_id" ;;
  call (UdPop "kick_extra_info") ;;;
  execute_kick cfg (c_upd c)
    (KickRequest (ud_int target_id) (ud_str target_name)
       match reason with Some reason => ud_str (Some reason) | None => default end
       (ud_msgs proof_msgs) (prompt_of prompt_chat prompt_id) (c_first_name c) chat_title).

Definition _exec_warn (chat_title : string) (c : command) : io unit :=
  target_id <- pop "warn_target_id" ;;
  target_name <- pop "warn_target_name" ;;
  reason <- pop "warn_reason" ;;
  proof_msgs <- pop "warn_proof_msgs" ;;
  call (UdPop "warn_extra_info") ;;;
  match effective_message (c_upd c), effective_chat (c_upd c), effective_user (c_upd c) with
  | Some msg, Some (_, chat_id), Some admin =>
      execute_warn cfg (c_upd c)
        (Warning msg (ud_int target_id) (ud_str target_name) admin (c_first_name c) (ud_str reason) chat_id chat_title)
        (ud_msgs proof_msgs)
  | _, _, _ => Ret tt
  end.

(** The [mute_*] keys, read and popped at once. *)
Definition _exec_mute (c : command) : io unit :=
  target_id <- call (UdGet "mute_target_id") ;;
  admin_id <- call (UdGet "mute_admin_id") ;;
  target_fname <- call (UdGet "mute_target_fname") ;;
  admin_fname <- call (UdGet "mute_admin_fname") ;;
  reason <- call (UdGet "mute_reason") ;;
  duration <- call (UdGet "mute_duration") ;;
  proof_msgs <- call (UdGet "mute_proof_msgs") ;;
  prompt_chat <- call (UdGet "mute_prompt_chat") ;;
  prompt_id <- call (UdGet "mute_prompt_id") ;;
  call (UdPopPrefix "mute_") ;;;
  _execute_mute cfg (c_upd c)
    (MuteMeta (ud_int target_id) (ud_int admin_id) (ud_str target_fname)
       match admin_fname with Some name => ud_str (Some name) | None => "Admin"%string end (ud_str reason)
       match duration with Some (UdBson (BInt d)) => Some d | _ => None end
       (ud_msgs proof_msgs) (ud_int prompt_chat) (ud_int prompt_id)).

Definition kick_flow (chat_title : string) : flow := Flow "kick" "tester" (_exec_kick chat_title).
Definition mute_flow : flow := Flow "mute" "tester" _exec_mute.
Definition warn_flow (chat_title : string) : flow := Flow "warn" "tester" (_exec_warn chat_title).
End adapters.

(** * Who executes *)

(** Neither a write, nor a right changed, nor anybody messaged but the user at
    hand. *)
Definition stirs (o : obs eff) : bool := negb (obs_passive o) || obs_sends o.

Lemma restless_stirs o : restless o = false -> stirs o = false.
Proof. destruct o as [X [] r]; done. Qed.

Lemma append_eqb a x y : String.eqb (a ++ x) (a ++ y) = String.eqb x y.
Proof. induction a as [|c a IH]; simpl; [done|]. by rewrite Ascii.eqb_refl. Qed.

(** The target's own key. *)
Definition _target_key (f : flow) : string := key_of f "target_id".

Lemma other_key f name v r :
  String.eqb name "target_id" = false -> touches (_target_key f) (Obs (UdPut (key_of f name) v) r) = false.
Proof. intros Hn. simpl. unfold _target_key, key_of. by rewrite append_eqb. Qed.

Section gate.
Context {CAT : Catalog} (f : flow) (c : command).
Abbreviation still := (Forall (fun o => stirs o = false)).

(** Stirs, or changes the target. *)
Definition loud (o : obs eff) : bool := stirs o || touches (_target_key f) o.
Abbreviation quiet := (Forall (fun o => loud o = false)).

Lemma quiet_still t : quiet t -> still t.
Proof. intros H. eapply Forall_impl; [exact H|]. intros o Ho. by apply orb_false_iff in Ho as [Ho _]. Qed.

Lemma restless_loud o : restless o = false -> loud o = false.
Proof. unfold loud. destruct o as [X [] r]; done. Qed.

(** [t] is a run in which the executor ran, once: checked before, with what
    was read before, the state cleared after. *)
Definition executed (t : trace eff) (r : result conv) : Prop :=
  exists t1 ta te t12 t3 msg tapper flag re,
    t = t1 ++ t12 ++ t3 /\ interleave ta te t12 /\ quiet t1 /\ Forall (fun o => obs_ud o || stirs o = false) ta /\
    effective_user (c_upd c) = Some tapper /\ effective_message (c_upd c) = Some msg /\
    during (recheck_executor_rank msg tapper (fl_min_role f)) true t1 /\
    reads (_exec_key f) flag t1 /\ ud_truthy flag = false /\
    exec (fl_executor f c) te re /\
    ((t3 = [Obs (UdPopPrefix (_prefix f)) (Ok tt)] /\ r = match re with Ok _ => Ok END | Err e => Err e end) \/
     (t3 = [] /\ r = Err CancelledError)).

Definition gated (t : trace eff) (r : result conv) : Prop := still t \/ executed t r.

Lemma lookup_still {A} (p : io A) : never restless p -> never stirs p.
Proof. intros H. apply (never_weaken _ restless); [exact H|]. apply restless_stirs. Qed.

Lemma lookup_quiet {A} (p : io A) : never restless p -> never loud p.
Proof. intros H. apply (never_weaken _ restless); [exact H|]. apply restless_loud. Qed.

Lemma ack_still q : never stirs (ack q).
Proof. unfold ack. never_auto. Qed.

Lemma ack_quiet q : never loud (ack q).
Proof. unfold ack. never_auto. Qed.

Lemma clear_still : never stirs (_clear_user_data f).
Proof. unfold _clear_user_data. never_auto. Qed.

Lemma lookup_recheck_rank msg e mr : never restless (recheck_executor_rank msg e mr).
Proof. unfold recheck_executor_rank. never_auto. Qed.

Lemma recheck_still q : never stirs (_recheck_tapper f c q).
Proof.
  unfold _recheck_tapper. pose proof ack_still. pose proof clear_still. never_auto; auto.
  apply lookup_still, lookup_recheck_rank.
Qed.

Lemma recheck_true q t :
  exec (_recheck_tapper f c q) t (Ok true) ->
  quiet t /\ exists msg tapper, effective_user (c_upd c) = Some tapper /\ effective_message (c_upd c) = Some msg /\
    during (recheck_executor_rank msg tapper (fl_min_role f)) true t.
Proof.
  unfold _recheck_tapper.
  assert (forall p : io unit, exec (p ;;; Ret false) t (Ok true) -> False) as Hno.
  { intros p (? & ? & ? & _ & [_ [=]] & _)%exec_bind_ok. }
  destruct (effective_user (c_upd c)) as [tapper|], (effective_message (c_upd c)) as [msg|]; try (by intros H%Hno).
  intros (t1 & [|] & t2 & H & Hk & ->)%exec_bind_ok.
  - destruct Hk as [-> _]. rewrite app_nil_r. split.
    + exact (never_elim _ _ _ _ (lookup_quiet _ (lookup_recheck_rank _ _ _)) H).
    + exists msg, tapper. split; [done|]. split; [done|]. by apply during_exec.
  - apply exec_bind_ok in Hk as (? & ? & ? & _ & Hk & _).
    by apply exec_bind_ok in Hk as (? & ? & ? & _ & [_ [=]] & _).
Qed.

(** After quiet calls. *)
Definition gates (tp : trace eff) (p : io conv) : Prop := quiet tp -> wp p (fun t r => gated (tp ++ t) r).

Lemma gates_still tp (p : io conv) : never stirs p -> gates tp p.
Proof. intros Hp Htp%quiet_still. eapply wp_mono; [exact Hp|]. intros t r Ht. left. by apply Forall_app. Qed.

Lemma gates_bind {A} tp (p : io A) (k : A -> io conv) :
  never stirs p -> (forall t x, exec p t (Ok x) -> quiet t -> gates (tp ++ t) (k x)) ->
  (forall t x, exec p t (Ok x) -> quiet t \/ never stirs (k x)) -> gates tp (bind p k).
Proof.
  intros Hp Hk Hq Htp. eapply wp_never_bind; [exact Hp| |].
  - intros t x Ht Hr. destruct (Hq t x Hr) as [Hqt|Hn].
    + eapply wp_mono; [apply (Hk t x Hr Hqt); by apply Forall_app|]. intros t' r. cbn beta. by rewrite <- app_assoc.
    + eapply wp_mono; [exact Hn|]. intros t' r Ht'. left. apply quiet_still in Htp.
      by repeat (apply Forall_app; split).
  - intros t e Ht _. left. apply quiet_still in Htp. by apply Forall_app.
Qed.

Lemma gates_quiet {A} tp (p : io A) (k : A -> io conv) :
  never loud p -> (forall t x, exec p t (Ok x) -> gates (tp ++ t) (k x)) -> gates tp (bind p k).
Proof.
  intros Hp Hk. apply gates_bind.
  - eapply never_weaken; [exact Hp|]. intros o Ho. by apply orb_false_iff in Ho as [Ho _].
  - intros t x Hx _. by apply Hk.
  - intros t x Hx. left. exact (never_elim _ _ _ _ Hp Hx).
Qed.

Lemma put_quiet name v : String.eqb name "target_id" = false -> never loud (put (key_of f name) v).
Proof. intros Hn. apply never_call. intros r. unfold loud. by rewrite other_key. Qed.

Section checked.
Context (tp : trace eff) (msg : message) (tapper : Z) (flag : option ud_value).
Hypotheses (Hu : effective_user (c_upd c) = Some tapper) (Hm : effective_message (c_upd c) = Some msg)
  (Hrank : during (recheck_executor_rank msg tapper (fl_min_role f)) true tp)
  (Hflag : reads (_exec_key f) flag tp) (Hfree : ud_truthy flag = false).

Lemma done_gates :
  gates tp (done <- attempt (fl_executor f c) ;; _clear_user_data f ;;;
            match done with Ok _ => Ret END | Err e => Raise e end).
Proof.
  intros Htp. apply wp_bind, wp_attempt, wp_intro. intros te re He. cbn beta iota. unfold _clear_user_data.
  wp_step. wp_step. destruct x.
  destruct re as [[]|e]; [apply wp_ret|apply wp_raise]; right; exists tp, [], te, te, [Obs (UdPopPrefix (_prefix f)) (Ok tt)],
    msg, tapper, flag; eexists; repeat (split; [first [done | apply interleave_nil_l]|]); by left.
Qed.

Lemma skip_gates :
  gates tp (let! (qa_result, exec_result) := gather2 (call (AnswerCallback None)) (fl_executor f c) in
            throw_if_cancelled [qa_result; exec_result] ;;; _clear_user_data f ;;;
            match exec_result with Ok _ => Ret END | Err e => Raise e end).
Proof.
  intros Htp. apply wp_bind.
  eapply (wp_gather2 _ _ (fun t _ => Forall (fun o => obs_ud o || stirs o = false) t) (fun t r => exec (fl_executor f c) t r)); [|apply wp_exec|].
  { apply never_call. by intros r. }
  intros ta te t12 ra re Ha He Hi.
  assert (forall t3 r, ((t3 = [Obs (UdPopPrefix (_prefix f)) (Ok tt)] /\ r = match re with Ok _ => Ok END | Err e => Err e end) \/
     (t3 = [] /\ r = Err CancelledError)) -> gated (tp ++ t12 ++ t3) r) as Hg.
  { intros t3 r Ht3. right. exists tp, ta, te, t12, t3, msg, tapper, flag, re. by repeat (split; [done|]). }
  split; [|rewrite <- (app_nil_r t12); apply Hg; by right]. cbn beta iota.
  apply wp_bind, throw_if_cancelled_spec. destruct (existsb is_cancel [ra; re]).
  - apply (Hg []). by right.
  - unfold _clear_user_data. wp_step. wp_step. destruct x.
    destruct re as [[]|e]; [apply wp_ret|apply wp_raise]; apply Hg; by left.
Qed.
End checked.

(** From the check of the tapper on. *)
Lemma recheck_gates tp q (k : bool -> io conv) :
  never stirs (k false) ->
  (forall t msg tapper, effective_user (c_upd c) = Some tapper -> effective_message (c_upd c) = Some msg ->
     during (recheck_executor_rank msg tapper (fl_min_role f)) true t -> gates (tp ++ t) (k true)) ->
  gates tp (allowed <- _recheck_tapper f c q ;; k allowed).
Proof.
  intros Hno Hyes. apply gates_bind; [apply recheck_still| |].
  - intros t [|] Hr _; [|by apply gates_still]. apply recheck_true in Hr as (_ & msg & tapper & Hu & Hm & Hr). eauto.
  - intros t [|] Hr; [left; by apply recheck_true in Hr as [Hq _]|by right].
Qed.

Lemma done_gated q : gates [] (_on_done_proof f c q).
Proof.
  unfold _on_done_proof. destruct q as [q|]; [|apply gates_still, never_ret].
  apply gates_quiet; [apply lookup_quiet; auto with never|]. intros t1 locale _.
  apply gates_quiet; [never_auto|]. intros t2 msgs _.
  destruct (ud_msgs msgs) as [|m ms]; [apply gates_still; never_auto|].
  apply gates_quiet; [never_auto|]. intros t3 flag Hflag%get_reads.
  destruct (ud_truthy flag) eqn:Hfree; [apply gates_still; pose proof ack_still; never_auto; auto|].
  apply recheck_gates; [apply never_ret|]. intros t4 msg tapper Hu Hm Hr. cbn [negb].
  apply gates_quiet; [by apply put_quiet|]. intros t5 [] _.
  apply gates_quiet; [apply ack_quiet|]. intros t6 [] _.
  eapply done_gates; [exact Hu|exact Hm| |  |exact Hfree].
  - do 2 apply during_l. by apply during_r.
  - unfold reads in *. rewrite !in_app_iff. auto 10.
Qed.

Lemma skip_gated q : gates [] (_on_skip_proof f c q).
Proof.
  unfold _on_skip_proof. destruct q as [q|]; [|apply gates_still, never_ret].
  apply gates_quiet; [never_auto|]. intros t3 flag Hflag%get_reads.
  destruct (ud_truthy flag) eqn:Hfree; [apply gates_still; pose proof ack_still; never_auto; auto|].
  apply recheck_gates; [apply never_ret|]. intros t4 msg tapper Hu Hm Hr. cbn [negb].
  apply gates_quiet; [by apply put_quiet|]. intros t5 [] _.
  eapply skip_gates; [exact Hu|exact Hm| |  |exact Hfree].
  - apply during_l. by apply during_r.
  - unfold reads in *. rewrite !in_app_iff. auto 10.
Qed.

Lemma cancel_still q : never stirs (_on_cancel f c q).
Proof. unfold _on_cancel. pose proof clear_still. pose proof @lookup_still. never_auto; auto with never. Qed.
Lemma end_conv_still : never stirs (_on_end_conv f c).
Proof. unfold _on_end_conv. pose proof clear_still. pose proof @lookup_still. never_auto; auto with never. Qed.
Lemma unexpected_still key next : never stirs (unexpected f c key next).
Proof. unfold unexpected. pose proof @lookup_still. never_auto; auto with never. Qed.
Lemma proof_step_still reason extra locale : never stirs (proof_step f reason extra locale).
Proof. unfold proof_step, _get_target. cbv zeta. never_auto. Qed.
Lemma reason_text_still : never stirs (_on_reason_text f c).
Proof.
  unfold _on_reason_text, put, too_long. pose proof clear_still. pose proof proof_step_still. pose proof @lookup_still.
  cbv zeta. never_auto; auto with never.
Qed.
Lemma skip_reason_still q : never stirs (_on_skip_reason f c q).
Proof.
  unfold _on_skip_reason, put. pose proof clear_still. pose proof proof_step_still. pose proof @lookup_still.
  cbv zeta. never_auto; auto with never.
Qed.
Lemma proof_still m : never stirs (_on_proof f m).
Proof. unfold _on_proof, put. never_auto. Qed.

(** Everything but Done and Skip stirs nothing. *)
Lemma handle_cases state i :
  never stirs (handle f state i c) \/
  state = WAITING_PROOF /\ exists data q, i = InButton data q /\
    (data = key_of f "skip_proof" /\ handle f state i c = _on_skip_proof f c (Some q) \/
     data = key_of f "done_proof" /\ handle f state i c = _on_done_proof f c (Some q)).
Proof.
  assert (never stirs (match fallbacks f i with Some h => h c | None => Ret state end)) as Hfall.
  { destruct i as [|m| |[]|data q]; unfold fallbacks; try (apply never_ret).
    - apply end_conv_still.
    - destruct (String.eqb data _); [exact (cancel_still (Some q))|apply never_ret]. }
  pose proof reason_text_still. pose proof skip_reason_still. pose proof proof_still.
  unfold handle, build. destruct state, i; try (left; exact Hfall);
    try (left; first [solve [auto] | apply never_ret | apply unexpected_still]).
  - destruct (_ && _); left; [auto|exact Hfall].
  - destruct (String.eqb_spec data (key_of f "skip_proof")); [eauto 10|].
    destruct (String.eqb_spec data (key_of f "done_proof")); [eauto 10|by left].
Qed.
End gate.

(** The evidence a Done tap executes with is not empty. *)
Lemma done_evidence {CAT : Catalog} f c q :
  wp (_on_done_proof f c q) (fun t _ =>
    existsb stirs t = true -> exists m ms, reads (_proof_msgs_key f) (Some (UdMsgs (m :: ms))) t).
Proof.
  unfold _on_done_proof. destruct q as [q|]; [|by apply wp_ret].
  assert (forall t, Forall (fun o => stirs o = false) t -> existsb stirs t = true -> False) as Hno.
  { intros t Ht Hs. by rewrite (proj2 (existsb_false_Forall _ _) Ht) in Hs. }
  apply (wp_never_bind stirs); [apply lookup_still; auto with never| |by intros; exfalso; eapply Hno].
  intros t1 locale Ht1 _. apply (wp_never_bind stirs); [never_auto| |].
  2: { intros t2 e Ht2 _ Hs. exfalso. by eapply (Hno (t1 ++ t2)); [apply Forall_app|]. }
  intros t2 msgs Ht2 Hm%get_reads. destruct (ud_msgs msgs) as [|m ms] eqn:Hms.
  - eapply wp_mono; [refine (_ : never stirs _); never_auto|]. intros t3 r Ht3 Hs. exfalso.
    apply (Hno (t1 ++ t2 ++ t3)); [by repeat (apply Forall_app; split)|exact Hs].
  - apply wp_intro. intros t3 r _ _. exists m, ms. unfold reads. rewrite !in_app_iff.
    destruct msgs as [[| |l]|]; simpl in Hms; try done. subst. auto.
Qed.

(** C20: the single update of a collecting conversation.  Whatever one update
    sends to the conversation of a kick, a mute or a warning, in whatever state,
    its handler run stirs nothing - no write, nobody's rights, no message to
    others; or the conversation is in the state that collects evidence, the
    update is Done or Skip, and this run runs the executor, once: before it, no
    execution was marked and the tapper's rank was checked again; Done had
    evidence; after it, whatever it ended with, the collected data is cleared -
    unless the run was cancelled.  Of two taps that overlap each may be such a
    run ([double_done_executes]). *)
Theorem flow_gate {CAT : Catalog} (f : flow) (state : conv) (i : input) (c : command) (t : trace eff) (r : result conv)
    (Hrun : exec (handle f state i c) t r) :
  gated f c t r /\
  (existsb stirs t = true ->
   state = WAITING_PROOF /\ exists data q, i = InButton data q /\
     (data = key_of f "skip_proof" \/
      data = key_of f "done_proof" /\ exists m ms, reads (_proof_msgs_key f) (Some (UdMsgs (m :: ms))) t)).
Proof.
  destruct (handle_cases f c state i) as [Hn|(-> & data & q & -> & [[Hd Hh]|[Hd Hh]])].
  - pose proof (never_elim _ _ _ _ Hn Hrun) as Ht. split; [by left|].
    intros Hs. by rewrite (proj2 (existsb_false_Forall _ _) Ht) in Hs.
  - rewrite Hh in Hrun. split; [exact (wp_elim _ _ _ _ (skip_gated f c (Some q) (Forall_nil_2 _)) Hrun)|]. eauto 10.
  - rewrite Hh in Hrun. split; [exact (wp_elim _ _ _ _ (done_gated f c (Some q) (Forall_nil_2 _)) Hrun)|].
    intros Hs. split; [done|]. exists data, q. split; [done|]. right. split; [done|].
    exact (wp_elim _ _ _ _ (done_evidence f c (Some q)) Hrun Hs).
Qed.

(** * The adapters hand over what was remembered *)
Section hands.
Context {CAT : Catalog} (cfg : config).
Abbreviation still := (Forall (fun o => stirs o = false)).

(** After calls that stir nothing, a run of one of the executors [E]; or an
    error before it. *)
Definition hands (E : io unit -> Prop) (t : trace eff) (r : result unit) : Prop :=
  (still t /\ is_err r = true) \/ exists p t1 t2, E p /\ t = t1 ++ t2 /\ still t1 /\ exec p t2 r.

Lemma hands_l E t1 t r : still t1 -> hands E t r -> hands E (t1 ++ t) r.
Proof.
  intros H1 [[Ht Hr]|(p & t2 & t3 & Hp & -> & Ht & Hx)]; [left; split; [by apply Forall_app|done]|].
  right. exists p, (t1 ++ t2), t3. split; [done|]. rewrite app_assoc. split; [done|]. split; [by apply Forall_app|done].
Qed.

(** Run where the dict holds [m]. *)
Definition given (m : memory) (E : io unit -> Prop) (p : io unit) : Prop :=
  wp p (fun t r => remembers m t -> hands E t r).

Lemma given_exec m E p : E p -> given m E p.
Proof. intros Hp. apply wp_intro. intros t r Hr _. right. exists p, [], t. by repeat (split; [done|]). Qed.

Lemma given_ud m E {X} (ev : eff X) (k : X -> io unit) :
  (forall r, stirs (Obs ev r) = false) -> in_process ev = true ->
  (forall x, answers m (Obs ev (Ok x)) -> given (updates m (Obs ev (Ok x))) E (k x)) ->
  given m E (x <- call ev ;; k x).
Proof.
  intros Hs Hin Hk. apply wp_bind, wp_call. intros [x|e] Hx.
  - apply wp_intro. intros t r Ht [Ha Hr]. apply (hands_l E [_]); [by repeat constructor|].
    exact (wp_elim _ _ _ _ (Hk x Ha) Ht Hr).
  - unfold admits, world_env in Hx. by rewrite Hin in Hx.
Qed.

Lemma given_get m E key (k : option ud_value -> io unit) :
  given m E (k (m !! key)) -> given m E (v <- call (UdGet key) ;; k v).
Proof. intros Hk. apply given_ud; [done|done|]. by intros v [= ->]. Qed.

Lemma given_pop m E key (k : option ud_value -> io unit) :
  given (delete key m) E (k (m !! key)) -> given m E (v <- pop key ;; k v).
Proof.
  intros Hk. unfold pop. apply wp_bind, wp_bind, wp_call. intros [v|e] Hv; [|discriminate Hv].
  apply wp_bind, wp_call. intros [[]|e] Hp; [|discriminate Hp]. apply wp_ret, wp_intro. intros t r Ht.
  intros [Ha [_ Hr]]. injection Ha as ->. apply (hands_l E [_; _]); [by repeat constructor|].
  exact (wp_elim _ _ _ _ Hk Ht Hr).
Qed.

Lemma given_other m E {A} (p : io A) (k : A -> io unit) :
  never stirs p -> never obs_ud p -> (forall a, given m E (k a)) -> given m E (bind p k).
Proof.
  intros Hs Hu Hk. apply wp_bind. eapply wp_mono; [apply (wp_conj _ _ _ Hs Hu)|]. intros t [a|e] [Hst Hut].
  - apply wp_intro. intros t' r Ht' [_ Hr]%remembers_app. rewrite (others_after m t Hut) in Hr.
    apply hands_l; [done|]. exact (wp_elim _ _ _ _ (Hk a) Ht' Hr).
  - intros _. by left.
Qed.

Lemma locale_ud upd : never obs_ud (locale_for_update upd).
Proof. apply locale_for_update_never. by intros [X [] r]. Qed.

(** What each action's executor is run for. *)
Definition acts_on (a : action) (c : command) (tid : Z) (p : io unit) : Prop :=
  match a with
  | AKick => exists k, p = execute_kick cfg (c_upd c) k /\ kick_target_id k = tid
  | AMute => exists m, p = _execute_mute cfg (c_upd c) m /\ mute_target_id m = tid
  | AWarn => (exists w msgs, p = execute_warn cfg (c_upd c) w msgs /\ w_target_id w = tid) \/ p = Ret tt
  | ABan => False
  end.

Definition flow_of (a : action) (chat_title : string) : flow :=
  match a with
  | AKick => kick_flow cfg chat_title
  | AWarn => warn_flow cfg chat_title
  | _ => mute_flow cfg
  end.

Lemma adapter_hands a title c tid m (Ha : a <> ABan) :
  m !! target_key a = Some (UdBson (BInt tid)) ->
  given m (acts_on a c tid) (fl_executor (flow_of a title) c).
Proof.
  intros Hm. destruct a; [done|..]; cbn [flow_of kick_flow warn_flow mute_flow fl_executor].
  - unfold _exec_kick. apply given_pop. change (target_key AKick) with "kick_target_id"%string in Hm. rewrite Hm.
    apply given_pop. apply given_other; [apply lookup_still; auto with never|apply locale_ud|]. intros locale.
    apply given_other; [auto with never|auto with never|]. intros default.
    do 4 apply given_pop. apply given_ud; [done|done|]. intros [] _. apply given_exec. by eexists.
  - unfold _exec_mute. change (target_key AMute) with "mute_target_id"%string in Hm.
    do 9 apply given_get. rewrite Hm. apply given_ud; [done|done|]. intros [] _. apply given_exec. by eexists.
  - unfold _exec_warn. apply given_pop. change (target_key AWarn) with "warn_target_id"%string in Hm. rewrite Hm.
    do 3 apply given_pop. apply given_ud; [done|done|]. intros [] _. apply given_exec.
    destruct (effective_message (c_upd c)), (effective_chat (c_upd c)) as [[]|], (effective_user (c_upd c)); simpl; eauto 10.
Qed.
End hands.

(** * The target of a conversation *)

(** A conversation that goes on made no call of class [g]. *)
Section going.
Context (g : obs eff -> bool).

Definition going (p : io conv) : Prop :=
  wp p (fun t r => forall w, r = Ok w -> w <> END -> Forall (fun o => g o = false) t).

Lemma going_never (p : io conv) : never g p -> going p.
Proof. intros Hp. eapply wp_mono; [exact Hp|]. by intros t r Ht w _ _. Qed.

Lemma going_bind {A} (p : io A) (k : A -> io conv) : never g p -> (forall x, going (k x)) -> going (bind p k).
Proof.
  intros Hp Hk. eapply wp_never_bind; [exact Hp| |done]. intros t x Ht _. eapply wp_mono; [exact (Hk x)|].
  intros t' r Hr w Hw Hne. apply Forall_app. split; [done|by apply (Hr w)].
Qed.

(** Nothing to keep where the conversation ends. *)
Definition ends (p : io conv) : Prop := wp p (fun _ r => forall w, r = Ok w -> w = END).

Lemma ends_bind {A} (p : io A) (k : A -> io conv) : (forall x, ends (k x)) -> ends (bind p k).
Proof. intros Hk. apply wp_bind, wp_intro. intros t [x|e] _; [exact (Hk x)|done]. Qed.
Lemma ends_ret : ends (Ret END).
Proof. apply wp_ret. by intros w [= <-]. Qed.
Lemma ends_raise e : ends (Raise e).
Proof. by apply wp_raise. Qed.

Lemma going_ends p : ends p -> going p.
Proof. intros H. eapply wp_mono; [exact H|]. intros t r Hr w Hw Hne. by apply Hr in Hw. Qed.
End going.
Ltac ends_auto := repeat (first [apply ends_ret | apply ends_raise | apply ends_bind; intros ? | case_match]; cbn beta iota).

Section keeps.
Context {CAT : Catalog} (f : flow) (c : command).
Abbreviation keeps := (going (touches (_target_key f))).

Lemma lookup_untouching {A} (p : io A) : never restless p -> never (touches (_target_key f)) p.
Proof. intros H. apply (never_weaken _ restless); [exact H|]. by intros [X [] r]. Qed.

Lemma put_untouching name v : String.eqb name "target_id" = false -> never (touches (_target_key f)) (put (key_of f name) v).
Proof. intros Hn. apply never_call. intros r. by apply other_key. Qed.

Lemma ack_untouching q : never (touches (_target_key f)) (ack q).
Proof. unfold ack. never_auto. Qed.

Lemma proof_step_untouching reason extra locale : never (touches (_target_key f)) (proof_step f reason extra locale).
Proof. unfold proof_step, _get_target. cbv zeta. never_auto. Qed.

Lemma reason_text_keeps : keeps (_on_reason_text f c).
Proof.
  unfold _on_reason_text. pose proof @lookup_untouching as Hl.
  destruct (effective_message (c_upd c)) as [msg|]; [|apply going_never, never_ret].
  destruct (msg_text msg) as [raw|]; [|apply going_never, never_ret]. cbv zeta.
  destruct (is_reason_too_long _).
  { apply going_never. apply never_bind; [apply Hl; auto with never|]. intros locale. unfold too_long.
    apply never_bind; [apply Hl; auto with never|intros; apply never_ret]. }
  apply going_bind; [by apply put_untouching|intros _]. apply going_bind; [never_auto|intros extra].
  apply going_bind; [apply Hl; auto with never|intros locale]. apply going_bind; [apply proof_step_untouching|intros txt].
  do 2 (apply going_bind; [never_auto|intros ?]). apply going_bind; [never_auto|intros [|]].
  - apply going_never, never_ret.
  - apply going_ends; ends_auto.
Qed.

Lemma skip_reason_keeps q : keeps (_on_skip_reason f c q).
Proof.
  unfold _on_skip_reason. pose proof @lookup_untouching as Hl. destruct q as [q|]; [|apply going_never, never_ret].
  apply going_bind; [apply Hl; auto with never|intros locale]. apply going_bind; [auto with never|intros reason].
  apply going_bind; [by apply put_untouching|intros _]. apply going_bind; [never_auto|intros extra].
  apply going_bind; [apply proof_step_untouching|intros txt].
  apply going_bind; [never_auto|intros [a e]]. apply going_bind; [apply throw_never|intros _].
  destruct e; [apply going_never, never_ret|apply going_ends; ends_auto].
Qed.

Lemma unexpected_keeps key next : keeps (unexpected f c key next).
Proof.
  apply going_never, lookup_untouching. unfold unexpected. never_auto.
Qed.

Lemma proof_keeps m : keeps (_on_proof f m).
Proof.
  unfold _on_proof. destruct m as [m|]; [|apply going_never, never_ret].
  apply going_bind; [never_auto|intros ex]. destruct (ud_truthy ex); [apply going_never, never_ret|].
  destruct (has_media m); [|apply going_never, never_ret]. apply going_bind; [never_auto|intros ms].
  apply going_bind; [by apply put_untouching|intros _]. apply going_never, never_ret.
Qed.

Lemma cancel_keeps q : keeps (_on_cancel f c q).
Proof. apply going_ends. unfold _on_cancel. ends_auto. Qed.

Lemma end_conv_keeps : keeps (_on_end_conv f c).
Proof. apply going_ends. unfold _on_end_conv. ends_auto. Qed.

Lemma skip_keeps q : keeps (_on_skip_proof f c (Some q)).
Proof. apply going_ends. unfold _on_skip_proof. ends_auto. Qed.

Lemma done_keeps q : keeps (_on_done_proof f c q).
Proof.
  unfold _on_done_proof. destruct q as [q|]; [|apply going_ends, ends_ret].
  apply going_bind; [apply lookup_untouching; auto with never|intros locale]. apply going_bind; [never_auto|intros msgs].
  destruct (ud_msgs msgs); [apply going_never, lookup_untouching; never_auto|]. apply going_ends. ends_auto.
Qed.

Lemma handle_keeps state i : state <> END -> keeps (handle f state i c).
Proof.
  intros Hst.
  assert (keeps (match fallbacks f i with Some h => h c | None => Ret state end)) as Hfall.
  { destruct i as [|m| |[]|data q]; unfold fallbacks; try (apply going_never, never_ret).
    - apply end_conv_keeps.
    - destruct (String.eqb data _); [exact (cancel_keeps (Some q))|apply going_never, never_ret]. }
  unfold handle, build. destruct state, i; try exact Hfall;
    try first [apply reason_text_keeps | apply unexpected_keeps | apply proof_keeps | apply going_never, never_ret].
  - destruct (_ && _); [apply (skip_reason_keeps (Some q))|exact Hfall].
  - destruct (String.eqb data _); [apply skip_keeps|]. destruct (String.eqb data _); [apply done_keeps|exact Hfall].
Qed.
End keeps.

(** * From the command to the execution *)
Section entry_keeps.
Context {CAT : Catalog} (cfg : config) (bot_id : Z) (c : command).
Abbreviation stays := (going pops_key).

Lemma lookup_pops {A} (p : io A) : never restless p -> never pops_key p.
Proof. intros H. apply (never_weaken _ restless); [exact H|]. by intros [X [] r]. Qed.

Lemma demote_pops act msg id n role aid : never pops_key (demote_target cfg act c msg id n role aid).
Proof.
  assert (forall en tr, never pops_key (DemoteFlow.execute cfg id n role aid en tr)) as He.
  { intros. unfold DemoteFlow.execute, remove_role, remove_admin, Roles.remove_role, invalidate, redis_del_background, db_call.
    destruct (cfg_logs cfg) as [lc lt]. pose proof lookup_user_locale as Hl. never_auto; auto. apply lookup_pops, Hl. }
  unfold demote_target, auto_demote_or_abort. never_auto; auto; apply lookup_pops; auto with never.
Qed.

Lemma open_stays msg txt kb sent keys next : (forall id, never pops_key (sent id)) -> stays (open_with msg txt kb sent keys next).
Proof.
  intros Hs. unfold open_with. apply going_bind; [never_auto|]. intros [id|e].
  - apply going_bind; [apply Hs|]. intros _. apply going_never, never_ret.
  - apply going_ends. ends_auto.
Qed.

Lemma put_pops k v : never pops_key (put k v).
Proof. unfold put. never_auto. Qed.

Ltac stays_auto :=
  cbv zeta;
  repeat first
    [ apply going_never, never_ret
    | apply going_ends; solve [ends_auto]
    | apply open_stays; intros ?; unfold ban_prompt_sent; solve [pose proof put_pops; never_auto; auto]
    | apply going_bind; [first [apply put_pops | apply demote_pops | solve [auto 2] | by (apply lookup_pops; auto with never)
                               | solve [pose proof @lookup_pops; never_auto; auto with never] ]|intros ?]
    | case_match ].

Lemma entry_stays a : stays (entry cfg bot_id a c).
Proof.
  pose proof lookup_gate as Hg. pose proof lookup_mod_target as Hm.
  assert (forall args hit used ex, never pops_key (inline_reason_of args hit used ex)) as Hr.
  { intros. unfold inline_reason_of. destruct (parse_inline_reason _ _ _); [apply never_ret|apply never_raise]. }
  assert (forall args, never pops_key (split_duration args)) as Hd by (intros; unfold split_duration; never_auto).
  destruct a; simpl;
    unfold cmd_ban_start_body, cmd_kick_body, cmd_mute_body, cmd_warn_entry_body, ban_target, kick_target, mute_target,
      warn_target, too_long, notify_staff, ban_open, _ask_update_confirm, kick_open, mute_open, warn_open,
      get_active_ban, db_call, say; stays_auto.
Qed.
End entry_keeps.

(** The updates of one conversation, one after the other, each returning. *)
Inductive conversation {CAT : Catalog} (f : flow) (s0 : conv) (m0 : memory) : conv -> memory -> Prop :=
  | conv_starts : conversation f s0 m0 s0 m0
  | conv_goes_on s m i c t w :
      conversation f s0 m0 s m -> s <> END -> exec (handle f s i c) t (Ok w) -> remembers m t ->
      conversation f s0 m0 w (after m t).

Section composed.
Context {CAT : Catalog} (cfg : config) (bot_id : Z).

Lemma flow_key a title : a <> ABan -> _target_key (flow_of cfg a title) = target_key a.
Proof. by destruct a. Qed.

(** The opened conversation remembers the target. *)
Lemma entry_memory a c aid msg tid name role m t w :
  opened cfg a c aid msg tid name role t w -> w <> END -> Forall (fun o => amiss a tid o = false) t ->
  exec (entry cfg bot_id a c) t (Ok w) -> after m t !! target_key a = Some (UdBson (BInt tid)).
Proof.
  intros (Hr & _ & _) Hw Ha Hx. apply put_stays; [by apply Hr| |].
  - exact (wp_elim _ _ _ _ (entry_stays cfg bot_id c a) Hx w eq_refl Hw).
  - intros v r Hin. apply (proj1 (List.Forall_forall _ _)) with (x := Obs (UdPut (target_key a) v) r) in Ha; [|done].
    unfold amiss in Ha. apply orb_false_iff in Ha as [_ Ha]. apply orb_false_iff in Ha as [Ha _].
    rewrite String.eqb_refl in Ha. simpl in Ha. apply negb_false_iff in Ha.
    destruct v as [[| |z| | | | |]|t'|ms]; try discriminate. by apply Z.eqb_eq in Ha as ->.
Qed.

(** And while it goes on it does not forget it. *)
Lemma conversation_memory f s0 m0 s m :
  conversation f s0 m0 s m -> s <> END -> m !! _target_key f = m0 !! _target_key f.
Proof.
  induction 1 as [|s m i c t w _ IH Hs Hx Hr]; [done|]. intros Hw. rewrite <- (IH Hs). apply untouched_after.
  exact (wp_elim _ _ _ _ (handle_keeps f c s i Hs) Hx w eq_refl Hw).
Qed.

(** An executed tap hands over to the executor, for the remembered target. *)
Lemma executed_hands a title c tid m t r (Ha : a <> ABan) :
  executed (flow_of cfg a title) c t r -> remembers m t -> m !! target_key a = Some (UdBson (BInt tid)) ->
  (exists msg tapper, during (recheck_executor_rank msg tapper (fl_min_role (flow_of cfg a title))) true t) /\
  exists te re, te `sublist_of` t /\ hands (acts_on cfg a c tid) te re.
Proof.
  intros (t1 & ta & te & t12 & t3 & msg & tapper & flag & re & -> & Hi & Hq & Hta & _ & _ & Hrank & _ & _ & Hx & _) Hm Htid.
  split; [exists msg, tapper; by apply during_l|]. exists te, re. split.
  { apply sublist_inserts_l, sublist_inserts_r. by apply interleave_sublist in Hi as [_ ?]. }
  apply remembers_app in Hm as [_ Hm]. apply remembers_app in Hm as [Hm _].
  refine (wp_elim _ _ _ _ (adapter_hands cfg a title c tid (after m t1) Ha _) Hx _).
  - rewrite <- (flow_key a title Ha). rewrite untouched_after; [by rewrite flow_key|].
    eapply Forall_impl; [exact Hq|]. intros o Ho. by apply orb_false_iff in Ho as [_ Ho].
  - eapply remembers_interleave; [exact Hi| |exact Hm]. eapply Forall_impl; [exact Hta|].
    intros o Ho. by apply orb_false_iff in Ho as [Ho _].
Qed.
End composed.


(** The Founder kicks a developer: command, one photo, Done. *)
Definition shot : proof_message := ProofMessage ["f1"%string] None None None.
Definition prompt : message := Message 1 (-100) "supergroup" None.
Definition done_button (action : string) : input := InButton (action ++ "_done_proof") prompt.
Definition tap : command :=
  Command (Update (Some 7) (Some ("supergroup"%string, -100)) (Some prompt) true) None [] "boss" None false.

Definition kick_entry : trace eff * result conv * memory :=
  with_dict developer_script (@entry demo_catalog demo_config 99 AKick kick_command) ∅.
Definition kicking : flow := @kick_flow demo_catalog demo_config "chat".
Definition kick_photo : trace eff * result conv * memory :=
  with_dict developer_script (@handle demo_catalog kicking WAITING_PROOF (InMedia shot) tap) kick_entry.2.
Definition kick_done : trace eff * result conv * memory :=
  with_dict developer_script (@handle demo_catalog kicking WAITING_PROOF (done_button "kick") tap) kick_photo.2.

(** Banned and unbanned, in which chat. *)
Definition bans_of (t : trace eff) : list (Z * Z) :=
  flat_map (fun o => match o with Obs ev _ => match ev with BanChatMember chat user => [(chat, user)] | _ => [] end end) t.

Example kick_runs :
  kick_entry.1.2 = Ok WAITING_PROOF /\ kick_photo.1.2 = Ok WAITING_PROOF /\ kick_done.1.2 = Ok END /\
  bans_of kick_done.1.1 = [(-100, 8)] /\ kick_done.2 = ∅.
Proof. vm_compute. done. Qed.

Lemma kick_entry_run :
  exec (@entry demo_catalog demo_config 99 AKick kick_command) kick_entry.1.1 (Ok WAITING_PROOF) /\
  kick_entry.2 = after ∅ kick_entry.1.1.
Proof.
  destruct (dict_run _ _ _ kick_entry eq_refl) as (He & _ & Hme).
  rewrite (proj1 kick_runs) in He. exact (conj He Hme).
Qed.

Lemma kick_photo_run :
  @conversation demo_catalog kicking WAITING_PROOF kick_entry.2 WAITING_PROOF kick_photo.2.
Proof.
  destruct (dict_run _ _ _ kick_photo eq_refl) as (Hp & Hrp & Hmp).
  rewrite (proj1 (proj2 kick_runs)) in Hp. rewrite Hmp.
  refine (@conv_goes_on demo_catalog _ _ _ WAITING_PROOF kick_entry.2 (InMedia shot) tap kick_photo.1.1 WAITING_PROOF
    (@conv_starts demo_catalog _ _ _) _ Hp Hrp). discriminate.
Qed.

Lemma kick_done_run :
  exec (@handle demo_catalog kicking WAITING_PROOF (done_button "kick") tap) kick_done.1.1 (Ok END) /\
  remembers kick_photo.2 kick_done.1.1.
Proof.
  destruct (dict_run _ _ _ kick_done eq_refl) as (Hd & Hrd & _).
  rewrite (proj1 (proj2 (proj2 kick_runs))) in Hd. exact (conj Hd Hrd).
Qed.


Lemma flow_gate_witness :
  existsb stirs kick_done.1.1 = true /\ @gated demo_catalog kicking tap kick_done.1.1 (Ok END).
Proof.
  split; [vm_compute; reflexivity|]. pose proof (proj1 kick_done_run) as Hd. revert Hd. generalize kick_done.1.1.
  intros t Hd. exact (proj1 (@flow_gate demo_catalog kicking WAITING_PROOF (done_button "kick") tap t (Ok END) Hd)).
Defined.

(** * What the shared dict allows

    A moderator with a kick open in two chats: Done in the first kicks the
    target of the second, in the first chat. *)
Definition kick_elsewhere : command :=
  Command (Update (Some 7) (Some ("supergroup"%string, -200))
             (Some (Message 6 (-200) "supergroup" (Some "/tckick 9 spamming"%string))) false) None [] "boss" None false.

Lemma kick_crosses_chats :
  let entry2 := with_dict developer_script (@entry demo_catalog demo_config 99 AKick kick_elsewhere) kick_entry.2 in
  let photo := with_dict developer_script (@handle demo_catalog kicking WAITING_PROOF (InMedia shot) tap) entry2.2 in
  let done := with_dict developer_script (@handle demo_catalog kicking WAITING_PROOF (done_button "kick") tap) photo.2 in
  entry2.1.2 = Ok WAITING_PROOF /\ effective_chat (c_upd tap) = Some ("supergroup"%string, -100) /\
  bans_of done.1.1 = [(-100, 9)].
Proof. vm_compute. done. Qed.

(** Runs [p] up to the first call [stop] holds of; what is left of [p]. *)
Fixpoint run_until {A} (ov : script) (stop : forall X, eff X -> bool) (p : io A) (m : memory) : trace eff * io A * memory :=
  match p with
  | Ret a => ([], Ret a, m)
  | Raise e => ([], Raise e, m)
  | Vis ev k =>
      if stop _ ev then ([], Vis ev k, m)
      else
        let '(x, m1) := mem_env ov _ ev m in
        let '(t, p', m2) := run_until ov stop (k x) m1 in
        (Obs ev x :: t, p', m2)
  | Par p1 p2 k =>
      let '(t1, r1, m1) := run (mem_env ov) p1 m in
      let '(t2, r2, m2) := run (mem_env ov) p2 m1 in
      let '(t3, p', m3) := run_until ov stop (k (Ok (r1, r2))) m2 in
      ((t1 ++ t2) ++ t3, p', m3)
  end.

Lemma run_until_spec {A} ov stop (p : io A) m t p' m' :
  run_until ov stop p m = (t, p', m') ->
  remembers m t /\ m' = after m t /\ forall t' r, exec p' t' r -> exec p (t ++ t') r.
Proof.
  revert m t p' m'. induction p as [A a|A e|A X ev k IH|A X Y p1 _ p2 _ k IH]; intros m t p' m'; cbn [run_until].
  - by intros [= <- <- <-].
  - by intros [= <- <- <-].
  - destruct (stop X ev); [by intros [= <- <- <-]|].
    pose proof (mem_env_spec ov X ev m) as [Hadm Ha]. unfold mem_env at 1. unfold mem_env in Ha, Hadm. cbn [fst] in Ha, Hadm.
    destruct (run_until ov stop (k (dict_answer ov X ev m)) _) as [[t' q] m2] eqn:Hk. intros [= <- <- <-].
    apply IH in Hk as (Hr & -> & Hx). split; [by split|]. split; [done|]. intros t2 r Ht2.
    exists (dict_answer ov X ev m), (t' ++ t2). split; [exact Hadm|]. split; [done|]. by apply Hx.
  - destruct (run (mem_env ov) p1 m) as [[t1 r1] m1] eqn:H1. destruct (run (mem_env ov) p2 m1) as [[t2 r2] m2] eqn:H2.
    destruct (run_until ov stop (k (Ok (r1, r2))) m2) as [[t3 q] m3] eqn:H3. intros [= <- <- <-].
    apply with_dict_spec in H1 as (Hx1 & Hr1 & ->), H2 as (Hx2 & Hr2 & ->). apply IH in H3 as (Hr3 & -> & Hx3).
    rewrite !remembers_app, !after_app. do 2 (split; [done|]). intros t4 r Ht4.
    exists t1, t2, (t1 ++ t2), (t3 ++ t4), r1, r2. split; [done|]. split; [done|]. split; [apply interleave_app|].
    split; [by rewrite <- !app_assoc|]. left. by apply Hx3.
Qed.

(** Two taps on Done: both read "not executing" before either says so. *)
Definition starts_executing (X : Type) (ev : eff X) : bool :=
  match ev with UdPut key _ => String.eqb key (_exec_key kicking) | _ => false end.

Definition double_done : list (trace eff) :=
  let tapped := @handle demo_catalog kicking WAITING_PROOF (done_button "kick") tap in
  let '(a1, p1, m1) := run_until developer_script starts_executing tapped kick_photo.2 in
  let '(a2, p2, m2) := run_until developer_script starts_executing tapped m1 in
  let '(b1, _, m3) := with_dict developer_script p1 m2 in
  let '(b2, _, _) := with_dict developer_script p2 m3 in
  [a1; a2; b1; b2].

Lemma interleave_halves {A} (a1 a2 b1 b2 : list A) : interleave (a1 ++ b1) (a2 ++ b2) (a1 ++ a2 ++ b1 ++ b2).
Proof.
  induction a1 as [|x a1 IH]; simpl; [|by constructor]. induction a2 as [|x a2 IH]; simpl; [apply interleave_app|by constructor].
Qed.

(** The flag is set only after the rank check: two taps that overlap both
    execute.  The second finds the data popped, records and bans user 0. *)
Lemma double_done_executes :
  exists a1 a2 b1 b2 r1 r2,
    let tapped := @handle demo_catalog kicking WAITING_PROOF (done_button "kick") tap in
    exec tapped (a1 ++ b1) r1 /\ exec tapped (a2 ++ b2) r2 /\
    interleave (a1 ++ b1) (a2 ++ b2) (a1 ++ a2 ++ b1 ++ b2) /\ remembers kick_photo.2 (a1 ++ a2 ++ b1 ++ b2) /\
    bans_of b1 = [(-100, 8)] /\ bans_of b2 = [(-100, 0)].
Proof.
  pose (tapped := @handle demo_catalog kicking WAITING_PROOF (done_button "kick") tap).
  assert (map bans_of double_done = [[]; []; [(-100, 8)]; [(-100, 0)]]) as Hb by (vm_compute; reflexivity).
  unfold double_done in Hb. fold tapped in Hb.
  destruct (run_until developer_script starts_executing tapped kick_photo.2) as [[a1 p1] m1] eqn:H1.
  destruct (run_until developer_script starts_executing tapped m1) as [[a2 p2] m2] eqn:H2.
  destruct (with_dict developer_script p1 m2) as [[b1 r1] m3] eqn:H3.
  destruct (with_dict developer_script p2 m3) as [[b2 r2] m4] eqn:H4.
  apply run_until_spec in H1 as (R1 & -> & X1), H2 as (R2 & -> & X2).
  apply with_dict_spec in H3 as (X3 & R3 & ->), H4 as (X4 & R4 & _).
  exists a1, a2, b1, b2, r1, r2. split; [by apply X1|]. split; [by apply X2|]. split; [apply interleave_halves|].
  split; [rewrite !remembers_app; exact (conj R1 (conj R2 (conj R3 R4)))|]. by injection Hb as _ _ -> ->.
Qed.
