(* ===== verification/ConnectedFlow.v ===== *)
(** Connecting a group to the federation and taking it out again:
    [connected_flow/] under [tcbot/modules/helper/workflows] (connection.py,
    bot_added.py, join_decision.py, harvest.py, shared.py) and the commands of
    [tcbot/modules/connecting.py] and [disconnecting.py]. *)

From S2P Require Import Prelude Prog Text World I18n Dispatch Cache Locale Roles Replies Auth Records DemoteFlow BanFlow MuteFlow AppealReview JoinFlow Prefixes Extract Handler.

(** A change of the bot's own membership, as [my_chat_member] reports it. *)
Record my_member := MyMember {
  mm_chat : chat_ref;
  mm_title : option string;
  mm_new : doc;
  mm_old : option doc;
  mm_from : option Z
}.

Definition gather5 {X Y Z V W} (p : io X) (q : io Y) (s : io Z) (v : io V) (w : io W)
    : io (result X * result Y * result Z * result V * result W) :=
  let! (rpq, rsvw) := gather2 (gather2 p q) (gather3 s v w) in
  rpq <- of_result rpq ;;
  rsvw <- of_result rsvw ;;
  Ret (rpq.1, rpq.2, rsvw.1.1, rsvw.1.2, rsvw.2).

(** * shared.py *)
Definition _REQUIRED_PERMS : list string :=
  ["can_delete_messages"; "can_restrict_members"; "can_invite_users"]%string.

Definition _REPLAY_CAP : nat := 500.

(** * harvest.py *)
Definition _harvest_admin_identities (admins : list mt_user) : io unit :=
  let coros := map (fun user => harvest_user_identity (mt_id user) (mt_username user)
                                  (str_or (mt_first_name user) "") (mt_last_name user))
                   (List.filter (fun user => negb (mt_is_bot user) && truthy_optstr (mt_first_name user)) admins) in
  match coros with
  | [] => Ret tt
  | _ => gather_bounded coros ;;; Ret tt
  end.

Section connection.
Context {CAT : Catalog} (cfg : config) (bot_id : Z).

(** * connection.py: the texts *)
Definition state_text (key : string) (locale : ustr) : text := TKey ("connecting.state." ++ key)%string locale [].
Definition community_text (key : string) (locale : ustr) : text :=
  TKey ("connecting.state." ++ key)%string locale [("community"%string, TStr (cfg_community_name cfg))].

Definition join_prompt (locale : ustr) : text := community_text "join_prompt" locale.
Definition connected_message (locale : ustr) : text := community_text "connected" locale.
Definition connected_blind_message (locale : ustr) : text := community_text "connected_blind" locale.
Definition declined_message (locale : ustr) : text := state_text "declined" locale.
Definition already_connected_message (locale : ustr) : text := community_text "already_connected" locale.
Definition connecting_message (locale : ustr) : text := state_text "connecting" locale.
Definition perms_required_message (locale : ustr) : text := state_text "perms_required" locale.

Definition join_callback : string := "tc_join".
Definition cancel_callback : string := "tc_cancel".

Definition join_keyboard (locale : ustr) : markup :=
  Some (TBuild "keyboards.connect_join_kb" [TStr join_callback; TStr cancel_callback]).

(** What the owner is told at the end. *)
Definition outcome_message (blind : bool) (locale : ustr) : text :=
  if blind then connected_blind_message locale else connected_message locale.

Definition check_perms (member : doc) : bool :=
  forallb (fun p => py_truthy (dget p member)) _REQUIRED_PERMS.

(** * connection.py: the executor *)
Definition user_of (b : bson) : Z := match bint b with Some z => z | None => 0 end.

Definition _replay_bans (chat_id : Z) (ban_uids : list bson) : io Z :=
  results <- fan_out (map (fun uid => call (BanChatMember chat_id (user_of uid))) ban_uids) ;;
  Ret (Z.of_nat (length results) - count_transient_errors results).

Definition _replay_mutes (chat_id : Z) (mute_docs : list doc) : io Z :=
  mute_results <- fan_out (map (fun d =>
      call (RestrictChatMember chat_id (dget_int "user_id" d 0) false (until_of d))) mute_docs) ;;
  Ret (Z.of_nat (length mute_results) - count_transient_errors mute_results).

(** The rows to replay, and whether some of them are not: the fetch failed, or
    there are more than the cap. *)
Definition replay_rows {A} (fetched : result (list A)) : list A * bool :=
  match fetched with
  | Err _ => ([], true)
  | Ok rows => if (_REPLAY_CAP <? length rows)%nat then (firstn _REPLAY_CAP rows, true) else (rows, false)
  end.

(** Both stages, bans first, then the log card. *)
Definition replay_and_log (chat_id : Z) (chat_title : string) (owner_id : Z) (owner_fname : string)
    (chat_username : option string) (ban_uids : list bson) (mute_docs : list doc) : io unit :=
  _replay_bans chat_id ban_uids ;;;
  _replay_mutes chat_id mute_docs ;;;
  let (lc, lt) := cfg_logs cfg in
  suppress (call (SendMessage lc
    (TBuild "parse_logmsg.group_connected_log"
       [TInt chat_id; TStr chat_title; TInt owner_id; TStr owner_fname; TOptStr chat_username]) lt None)).

(** The admins are harvested beside the replay.  The code does not await that
    task: it may outlive [complete_join], and nothing below depends on its end. *)
Definition beside_harvest (admins : result (list mt_user)) (p : io unit) : io unit :=
  match admins with
  | Ok ((_ :: _) as admins_list) =>
      let! (_, r) := gather2 (_harvest_admin_identities admins_list) p in of_result r
  | _ => p
  end.

Definition complete_join (chat_id : Z) (chat_title : string) (owner_id : Z) (owner_fname : string) : io bool :=
  let! (chat_result, ban_uids, mute_docs, admins_result, add_group_r) :=
    gather5 (call (GetChat (inl chat_id))) active_ban_user_ids active_mute_docs
            (call (GetChatAdministrators chat_id)) (add_group chat_id chat_title owner_id) in
  throw_if_cancelled [void chat_result; void ban_uids; void mute_docs; void admins_result; add_group_r] ;;;
  match add_group_r with
  | Err _ => Raise (RuntimeError "add_group failed")
  | Ok _ =>
      suppress (remove_pending chat_id) ;;;
      let chat_username := match chat_result with Ok ci => ci_username ci | Err _ => None end in
      let bans := replay_rows ban_uids in
      let mutes := replay_rows mute_docs in
      beside_harvest admins_result
        (replay_and_log chat_id chat_title owner_id owner_fname chat_username bans.1 mutes.1) ;;;
      Ret (bans.2 || mutes.2)
  end.

(** * bot_added.py *)

(** The bot left or was banned. *)
Definition bot_removed (m : my_member) : io unit :=
  let chat_id := (mm_chat m).2 in
  let! (was_connected, deactivated, removed) :=
    gather3 (is_connected chat_id) (deactivate_group chat_id) (remove_pending chat_id) in
  throw_if_cancelled [void was_connected; void deactivated; void removed] ;;;
  let was_connected := match was_connected with Ok b => py_truthy (Some b) | Err _ => false end in
  if was_connected then
    let (lc, lt) := cfg_logs cfg in
    suppress (call (SendMessage lc
      (TBuild "parse_logmsg.group_bot_removed_log" [TInt chat_id; TStr (str_or (mm_title m) "Unknown")]) lt None))
  else Ret tt.

(** The bot is no administrator any more. *)
Definition bot_demoted (m : my_member) : io unit :=
  let chat_id := (mm_chat m).2 in
  if is_primary_group cfg (Some chat_id) then Ret tt
  else
    let (lc, lt) := cfg_logs cfg in
    suppress (call (SendMessage lc
      (TCat [TStr "Bot was demoted in group "; TBuild "bold" [TStr (str_or (mm_title m) (py_str chat_id))];
             TStr " \(id: "; TBuild "code" [TStr (py_str chat_id)];
             TStr "\)\. Federation bans cannot be enforced there until admin rights are restored\."]) lt None)).

(** Promoted while a request is pending: the join is completed. *)
Definition pending_promoted (m : my_member) (pending : doc) (locale : ustr) : io unit :=
  let chat_id := (mm_chat m).2 in
  let owner_id := dget_int "owner_id" pending 0 in
  let prompt_id := dget_int "message_id" pending 0 in
  let edit txt := suppress (call (EditMessageText chat_id prompt_id txt None)) in
  owner_fname <- get_first_name owner_id "Owner" ;;
  edit (connecting_message locale) ;;;
  blind <- try_except
             (b <- complete_join chat_id (str_or (mm_title m) "") owner_id owner_fname ;; Ret (Some b))
             (fun _ => edit (state_text "complete_join" locale) ;;; Ret None) ;;
  match blind with
  | None => Ret tt
  | Some blind => edit (outcome_message blind locale)
  end.

(** The prompt goes out first, its pending row after it. *)
Definition prompt_owner (m : my_member) (by_user : Z) (locale : ustr) : io unit :=
  let chat_id := (mm_chat m).2 in
  suppress (prompt <- call (SendMessage chat_id (join_prompt locale) None (join_keyboard locale)) ;;
            add_pending chat_id (str_or (mm_title m) "") by_user prompt).

(** A missing or empty pending row is falsy. *)
Definition pending_row (r : result (option doc)) : option doc := live r.

Definition bot_joined (m : my_member) (locale : ustr) : io unit :=
  let chat_id := (mm_chat m).2 in
  if is_primary_group cfg (Some chat_id) then Ret tt
  else
    let! (pending, is_already_connected) := gather2 (get_pending chat_id) (is_connected chat_id) in
    throw_if_cancelled [void pending; void is_already_connected] ;;;
    let connected := match is_already_connected with Ok b => py_truthy (Some b) | Err _ => false end in
    match pending_row pending with
    | Some pending =>
        if String.eqb (status_of (mm_new m)) "administrator" && check_perms (mm_new m)
        then pending_promoted m pending locale
        else Ret tt
    | None =>
        if connected then Ret tt
        else match mm_from m with
             | None => Ret tt
             | Some by_user => prompt_owner m by_user locale
             end
    end.

Definition on_bot_added (upd : update) (my_chat_member : option my_member) : io unit :=
  match my_chat_member with
  | None => Ret tt
  | Some m =>
      if negb (one_of (mm_chat m).1 ["group"; "supergroup"]) then Ret tt
      else
        locale <- locale_for_update upd ;;
        let new_status := status_of (mm_new m) in
        let old_status := status_of <$> mm_old m in
        if one_of new_status ["left"; "kicked"] then bot_removed m
        else if one_of new_status ["member"; "restricted"] && bool_decide (old_status = Some "administrator"%string)
        then bot_demoted m
        else if one_of new_status ["member"; "administrator"] then bot_joined m locale
        else Ret tt
  end.

(** * join_decision.py *)

(** Strip the buttons and answer in the chat, whatever fails. *)
Definition refuse_tap (q : message) (msg : option message) (txt : text) : io unit :=
  gather_list ((call (EditMessageReplyMarkup (msg_chat_id q) (message_id q) None)) ::
               match msg with
               | Some msg => [call (ReplyText (message_id msg) txt None) ;;; Ret tt]
               | None => []
               end) ;;;
  Ret tt.

Definition tap_connect (q : message) (chat_id : Z) (title : option string) (user_id : Z) (first_name : string)
    (locale : ustr) : io unit :=
  let show txt := suppress (call (EditMessageText (msg_chat_id q) (message_id q) txt None)) in
  bot_member <- try_except (m <- call (GetChatMember chat_id bot_id) ;; Ret (Some m))
                  (fun _ => edit_cb q (state_text "bot_perms_verify" locale) ;;; Ret None) ;;
  match bot_member with
  | None => Ret tt
  | Some bot_member =>
      if negb (check_perms bot_member) then
        stored <- try_except (add_pending chat_id (str_or title "") user_id (message_id q) ;;; Ret true)
                    (fun _ => edit_cb q (state_text "complete_join" locale) ;;; Ret false) ;;
        if stored : bool then edit_cb q (perms_required_message locale) else Ret tt
      else
        already <- try_except (b <- is_connected chat_id ;; Ret (Some (py_truthy (Some b))))
                     (fun _ => show (state_text "complete_join" locale) ;;; Ret None) ;;
        match already with
        | None => Ret tt
        | Some true => edit_cb q (already_connected_message locale)
        | Some false =>
            show (connecting_message locale) ;;;
            blind <- try_except (b <- complete_join chat_id (str_or title "") user_id first_name ;; Ret (Some b))
                       (fun _ => show (state_text "complete_join" locale) ;;; Ret None) ;;
            match blind with
            | None => Ret tt
            | Some blind => show (outcome_message blind locale)
            end
        end
  end.

Definition tap_cancel (q : message) (chat_id : Z) (title : option string) (user_id : Z) (first_name : string)
    (locale : ustr) : io unit :=
  let (lc, lt) := cfg_logs cfg in
  suppress (remove_pending chat_id) ;;;
  gather3 (call (EditMessageText (msg_chat_id q) (message_id q) (declined_message locale) None))
          (call (SendMessage lc (TBuild "parse_logmsg.group_connection_rejected_log"
                   [TInt chat_id; TStr (str_or title "Unknown"); TInt user_id; TStr first_name]) lt None))
          (call (LeaveChat chat_id)) ;;;
  Ret tt.

Definition on_join_decision (c : command) (title : option string) (q : option callback) : io unit :=
  let upd := c_upd c in
  match q with
  | None => Ret tt
  | Some (Callback q data) =>
      match effective_chat upd, effective_user upd with
      | Some (_, chat_id), Some user_id =>
          locale <- locale_for_update upd ;;
          let! (member_res, ans_res) :=
            gather2 (call (GetChatMember chat_id user_id)) (call (AnswerCallback None)) in
          throw_if_cancelled [void member_res; ans_res] ;;;
          match member_res with
          | Err _ => refuse_tap q (effective_message upd) (state_text "role_check_failed" locale)
          | Ok member =>
              if negb (String.eqb (status_of member) "creator")
              then refuse_tap q (effective_message upd) (state_text "owner_only" locale)
              else if bool_decide (data = Some join_callback)
              then tap_connect q chat_id title user_id (c_first_name c) locale
              else if bool_decide (data = Some cancel_callback)
              then tap_cancel q chat_id title user_id (c_first_name c) locale
              else Ret tt
          end
      | _, _ => suppress (call (AnswerCallback None))
      end
  end.

(** * connecting.py *)
Definition group_only_text (locale : ustr) : text := TKey "common.err.group_only" locale [].
Definition err_role_unverified (locale : ustr) : text := TKey "common.err.role_verify" locale [].

(** No [throw_if_cancelled]: a cancelled lookup is a failed one. *)
Definition cmd_tcconnect_body (c : command) (title : option string) : io unit :=
  let upd := c_upd c in
  locale <- locale_for_update upd ;;
  match effective_chat upd, effective_user upd, effective_message upd with
  | Some (chat_type, chat_id), Some user_id, Some msg =>
      if String.eqb chat_type "private" then safe_reply msg (group_only_text locale)
      else if user_id =? ANONYMOUS_BOT_ID then safe_reply msg (state_text "admin_required" locale)
      else
        let! (member, connected, pending, bot_member) :=
          gather4 (call (GetChatMember chat_id user_id)) (is_connected chat_id) (get_pending chat_id)
                  (call (GetChatMember chat_id bot_id)) in
        match member with
        | Err _ => safe_reply msg (err_role_unverified locale)
        | Ok member =>
            if negb (one_of (status_of member) ["administrator"; "creator"])
            then safe_reply msg (state_text "admin_required" locale)
            else if is_primary_group cfg (Some chat_id) then safe_reply msg (state_text "primary_group" locale)
            else if match connected with Ok b => py_truthy (Some b) | Err _ => false end
            then safe_reply msg (already_connected_message locale)
            else match pending_row pending with
                 | Some _ => safe_reply msg (state_text "pending_request" locale)
                 | None =>
                     match bot_member with
                     | Err _ => safe_reply msg (err_role_unverified locale)
                     | Ok bot_member =>
                         if negb (check_perms bot_member) then safe_reply msg (perms_required_message locale)
                         else
                           blind <- try_except
                             (b <- complete_join chat_id (str_or title "") user_id (c_first_name c) ;; Ret (Some b))
                             (fun _ => safe_reply msg (state_text "connect_failed" locale) ;;; Ret None) ;;
                           match blind with
                           | None => Ret tt
                           | Some blind => safe_reply msg (outcome_message blind locale)
                           end
                     end
                 end
        end
  | _, _, _ => Ret tt
  end.

Definition cmd_tcconnect (c : command) (title : option string) :=
  ratelimiter_wrapper "cmd_tcconnect" (cmd_tcconnect_body c title) (c_upd c).

(** * disconnecting.py *)
Definition disc_text (key : string) (locale : ustr) : text := TKey ("disconnecting.state." ++ key)%string locale [].

Definition disconnected_log (chat_id : Z) (title : string) (user_id : Z) (first_name : string) : io Z :=
  let (lc, lt) := cfg_logs cfg in
  call (SendMessage lc (TBuild "parse_logmsg.group_disconnected_log"
          [TInt chat_id; TStr title; TInt user_id; TStr first_name]) lt None).

Definition cmd_tcdisconnect_body (c : command) (title : option string) : io unit :=
  let upd := c_upd c in
  match effective_chat upd, effective_user upd, effective_message upd with
  | Some (chat_type, chat_id), Some user_id, Some msg =>
      locale <- locale_for_update upd ;;
      if String.eqb chat_type "private" then safe_reply msg (group_only_text locale)
      else if is_primary_group cfg (Some chat_id) then safe_reply msg (disc_text "primary_refused" locale)
      else
        connected <- try_except (b <- is_connected chat_id ;; Ret (Some (py_truthy (Some b)))) (fun _ => Ret None) ;;
        match connected with
        | None => safe_reply msg (disc_text "status_failed" locale)
        | Some false => safe_reply msg (TKey "disconnecting.state.not_connected" locale
                          [("community"%string, TStr (cfg_community_name cfg))])
        | Some true =>
            allowed <- can_manage_group chat_id user_id ;;
            if negb allowed then
              safe_reply msg (disc_text (if user_id =? ANONYMOUS_BOT_ID then "anon_admin" else "not_authorized") locale)
            else
              deactivated <- try_except (deactivate_group chat_id) (fun _ => Ret false) ;;
              if negb deactivated then safe_reply msg (disc_text "deactivate_failed" locale)
              else
                gather3 (disconnected_log chat_id (str_or title "Unknown") user_id (c_first_name c))
                        (call (ReplyText (message_id msg) (TKey "disconnecting.state.disconnected" locale
                           [("community"%string, TStr (cfg_community_name cfg))]) None))
                        (call (LeaveChat chat_id)) ;;;
                Ret tt
        end
  | _, _, _ => Ret tt
  end.

Definition cmd_tcdisconnect (c : command) (title : option string) :=
  ratelimiter_wrapper "cmd_tcdisconnect" (cmd_tcdisconnect_body c title) (c_upd c).

Definition cmd_rmtc_body (c : command) : io unit :=
  let upd := c_upd c in
  locale <- locale_for_update upd ;;
  match effective_message upd, effective_user upd with
  | Some msg, Some admin =>
      match args_of msg with
      | [] => safe_reply msg (disc_text "usage" locale)
      | arg :: _ =>
          if negb (numeric_name arg) then safe_reply msg (disc_text "usage" locale)
          else
            match int_of arg with
            | None => Raise (ValueError arg)
            | Some chat_id =>
                if is_primary_group cfg (Some chat_id) then safe_reply msg (disc_text "primary_refused" locale)
                else
                  removed <- try_except (b <- deactivate_group chat_id ;; Ret (Some b)) (fun _ => Ret None) ;;
                  match removed with
                  | None => safe_reply msg (disc_text "rmtc_failed" locale)
                  | Some false => safe_reply msg (TKey "common.err.group_not_found" locale [])
                  | Some true =>
                      gather3 (disconnected_log chat_id (py_str chat_id) admin (c_first_name c))
                              (call (LeaveChat chat_id))
                              (call (ReplyText (message_id msg) (TKey "disconnecting.removed.body" locale
                                 [("id"%string, TBuild "code" [TStr (py_str chat_id)]);
                                  ("community"%string, TStr (cfg_community_name cfg))]) None)) ;;;
                      Ret tt
                  end
            end
      end
  | _, _ => Ret tt
  end.

Definition cmd_rmtc (c : command) := limited "cmd_rmtc" staff_only (cmd_rmtc_body c) (c_upd c).
End connection.

(** * Classes of calls *)

(** The group's row was written, active. *)
Definition obs_enrolled (chat_id : Z) (o : obs eff) : bool :=
  match o with
  | Obs ev r =>
      match ev in eff X return result X -> bool with
      | UpdateOne "federated_groups" [("chat_id", BInt c)] _ true => fun r => (c =? chat_id) && negb (is_err r)
      | _ => fun _ => false
      end r
  end.

(** A message that calls the group connected. *)
Definition obs_confirms (o : obs eff) : bool :=
  match o with
  | Obs ev _ =>
      match ev with
      | ReplyText _ (TKey k _ _) _ | EditMessageText _ _ (TKey k _ _) _ =>
          one_of k ["connecting.state.connected"; "connecting.state.connected_blind"]
      | _ => false
      end
  end.

(** What only a connected group sees: sanctions, and the confirmation. *)
Definition obs_joined (o : obs eff) : bool := obs_enforce o || obs_confirms o.

Lemma cache_joined c k o : cache_obs c k o = true -> obs_joined o = false.
Proof. destruct o as [X ev r]; by destruct ev. Qed.
Lemma locale_joined o : obs_locale o = true -> obs_joined o = false.
Proof. destruct o as [X ev r]; by destruct ev. Qed.

(** The operations on the stores, call by call. *)
Ltac store_never :=
  unfold is_connected, get_pending, remove_pending, deactivate_group, add_pending, add_group, active_ban_user_ids,
    active_mute_docs, put, invalidate, redis_put_background, redis_del_background, db_call;
  never_auto; try (apply get_or_fetch_never; [by intros ? ? [? [] ?]|never_auto]).

(** What is gathered before [w] waits for nothing. *)
Lemma waits_gather5 {X Y Z V W} (f g : obs eff -> bool) (p : io X) (q : io Y) (s : io Z) (v : io V) (w : io W) :
  never g p -> never g q -> never g s -> never g v ->
  waits f g (fun r => negb (is_err r)) w ->
  waits f g (fun r => match r with Ok (_, _, _, _, rw) => negb (is_err rw) | Err _ => false end) (gather5 p q s v w).
Proof.
  intros Hp Hq Hs Hv Hw. unfold gather5.
  assert (waits f g (fun r => match r with Ok (_, _, rw) => negb (is_err rw) | Err _ => false end) (gather3 s v w)) as H3.
  { unfold gather3. apply wp_bind. eapply wp_mono; [apply (waits_gather2 f g (fun r => match r with Ok (_, rw) => negb (is_err rw) | Err _ => false end) s (gather2 v w)); [exact Hs|]|].
    - exact (waits_gather2 f g _ v w Hv Hw).
    - intros t [[rs [[rv rw]|e]]|e] H; cbn beta iota in *; [apply wp_ret|apply wp_raise|]; rewrite ?app_nil_r; by destruct H. }
  apply wp_bind. eapply wp_mono; [apply (waits_gather2 f g (fun r => match r with Ok (_, _, rw) => negb (is_err rw) | Err _ => false end) (gather2 p q) (gather3 s v w)); [|exact H3]|].
  - by apply never_gather2.
  - intros t [[[rpq|e] [[[rs rv] rw]|e']]|e] [Hg Hr]; cbn beta iota in *; try (by split).
    + apply wp_bind, wp_ret, wp_bind, wp_ret, wp_ret. rewrite !app_nil_r. by split.
    + apply wp_bind, wp_ret, wp_bind, wp_raise. rewrite !app_nil_r. by split.
    + apply wp_bind, wp_raise. rewrite !app_nil_r. by split.
    + apply wp_bind, wp_raise. rewrite !app_nil_r. by split.
Qed.

Section joining.
Context {CAT : Catalog} (cfg : config) (bot_id : Z).

Lemma add_group_waits chat title by_ :
  waits (obs_enrolled chat) obs_joined (fun r => negb (is_err r)) (add_group chat title by_).
Proof.
  apply waits_from; [store_never|]. unfold add_group, db_call. do 2 wp_step.
  apply wp_bind, wp_call. intros [res|e] _; [|done].
  apply wp_intro. intros t r _ _. simpl. by rewrite Z.eqb_refl.
Qed.

Lemma complete_join_waits chat title owner fname :
  waits (obs_enrolled chat) obs_joined (fun r => negb (is_err r)) (complete_join cfg chat title owner fname).
Proof.
  unfold complete_join. eapply waits_then; [apply waits_gather5| |done].
  - never_auto.
  - store_never.
  - store_never.
  - never_auto.
  - apply add_group_waits.
  - intros [[[[rc rb] rm] ra] [u|e]] Hok; [done|]. apply waits_after; [apply throw_never| |done].
    intros _. apply waits_never; [apply never_raise|]. refine (wp_elim' _ _ _). by apply wp_raise.
Qed.
(** The success is told only when the join was completed. *)
Lemma told_waits chat title owner fname (h : io unit) (k : bool -> io unit) :
  never obs_joined h ->
  waits (obs_enrolled chat) obs_joined (fun _ => false)
    (blind <- try_except (b <- complete_join cfg chat title owner fname ;; Ret (Some b)) (fun _ => h ;;; Ret None) ;;
     match blind with None => Ret tt | Some b => k b end).
Proof.
  intros Hh. eapply (waits_then _ _ (fun r => match r with Ok (Some _) => true | _ => false end)); [| |done].
  - apply waits_try.
    + by eapply waits_map; [apply complete_join_waits| |].
    + intros e. apply waits_after; [exact Hh| |done]. intros _. apply waits_never; [apply never_ret|].
      refine (wp_elim' _ _ _). by apply wp_ret.
  - intros [b|] Hb; [done|]. apply waits_never; [apply never_ret|done].
Qed.

Lemma waits_calm {A} chat (p : io A) :
  never obs_joined p -> waits (obs_enrolled chat) obs_joined (fun _ => false) p.
Proof. intros Hp. by apply waits_never. Qed.

(** [on_bot_added] up to the join. *)
Lemma bot_added_waits upd m :
  waits (obs_enrolled (mm_chat m).2) obs_joined (fun _ => false) (on_bot_added cfg upd (Some m)).
Proof.
  unfold on_bot_added. destruct (negb _); [apply waits_calm, never_ret|].
  apply waits_after; [apply locale_for_update_never, locale_joined| |done]. intros locale. cbv zeta.
  destruct (one_of _ ["left"; "kicked"]%string).
  { apply waits_calm. unfold bot_removed, suppress, gather3. destruct (cfg_logs cfg). cbv zeta. store_never; apply throw_never. }
  destruct (_ && _).
  { apply waits_calm. unfold bot_demoted, suppress. destruct (cfg_logs cfg). cbv zeta. never_auto. }
  destruct (one_of _ _); [|apply waits_calm, never_ret]. unfold bot_joined. cbv zeta.
  destruct (is_primary_group _ _); [apply waits_calm, never_ret|].
  apply waits_after; [store_never| |done]. intros [pending connected].
  apply waits_after; [apply throw_never| |done]. intros _. cbv zeta.
  destruct (pending_row pending) as [row|].
  - destruct (_ && _); [|apply waits_calm, never_ret]. unfold pending_promoted. cbv zeta.
    apply waits_after; [apply first_name_never; [apply cache_joined|done]| |done]. intros fname.
    apply waits_after; [unfold suppress; never_auto| |done]. intros _.
    apply told_waits. unfold suppress. never_auto.
  - apply waits_calm. unfold prompt_owner, suppress. store_never.
Qed.

Lemma join_decision_waits c title q ty chat :
  effective_chat (c_upd c) = Some (ty, chat) ->
  waits (obs_enrolled chat) obs_joined (fun _ => false) (on_join_decision cfg bot_id c title q).
Proof.
  intros Hchat. unfold on_join_decision. destruct q as [[q data]|]; [|apply waits_calm, never_ret]. rewrite Hchat. cbv zeta.
  destruct (effective_user _) as [uid|]; [|apply waits_calm; unfold suppress; never_auto].
  apply waits_after; [apply locale_for_update_never, locale_joined| |done]. intros locale.
  apply waits_after; [never_auto| |done]. intros [member ans].
  apply waits_after; [apply throw_never| |done]. intros _.
  assert (forall txt, obs_confirms (Obs (ReplyText 0 txt None) (Ok 0)) = false -> waits (obs_enrolled chat) obs_joined (fun _ => false)
    (refuse_tap q (effective_message (c_upd c)) txt)) as Hrefuse.
  { intros txt Htxt. apply waits_calm. unfold refuse_tap. apply never_bind; [|intros; apply never_ret].
    apply never_gather_list. destruct (effective_message _); repeat constructor; never_auto. apply never_call. done. }
  destruct member as [member|]; [|by apply Hrefuse]. destruct (negb _); [by apply Hrefuse|].
  destruct (bool_decide (data = Some join_callback)).
  - unfold tap_connect. cbv zeta.
    apply waits_after; [unfold edit_cb, safe_edit_cb, edit_with; never_auto| |done]. intros [bm|]; [|apply waits_calm, never_ret].
    destruct (negb _); [apply waits_calm; unfold edit_cb, safe_edit_cb, edit_with; store_never|].
    apply waits_after; [unfold suppress; store_never| |done].
    intros [[]|]; [apply waits_calm; unfold edit_cb, safe_edit_cb, edit_with; never_auto| |apply waits_calm, never_ret].
    apply waits_after; [unfold suppress; never_auto| |done]. intros _.
    apply told_waits. unfold suppress. never_auto.
  - apply waits_calm. destruct (bool_decide _); [|apply never_ret]. unfold tap_cancel, suppress, gather3.
    destruct (cfg_logs cfg). store_never.
Qed.

Lemma tcconnect_waits c title ty chat :
  effective_chat (c_upd c) = Some (ty, chat) ->
  waits (obs_enrolled chat) obs_joined (fun _ => false) (cmd_tcconnect_body cfg bot_id c title).
Proof.
  intros Hchat. unfold cmd_tcconnect_body. cbv zeta.
  apply waits_after; [apply locale_for_update_never, locale_joined| |done]. intros locale. rewrite Hchat.
  destruct (effective_user _) as [uid|]; [|apply waits_calm, never_ret].
  destruct (effective_message _) as [msg|]; [|apply waits_calm, never_ret].
  destruct (String.eqb _ _); [apply waits_calm; unfold safe_reply; never_auto|].
  destruct (uid =? _); [apply waits_calm; unfold safe_reply; never_auto|].
  apply waits_after; [unfold gather4; store_never| |done]. intros [[[member connected] pending] bm].
  destruct member as [member|]; [|apply waits_calm; unfold safe_reply; never_auto].
  destruct (negb _); [apply waits_calm; unfold safe_reply; never_auto|].
  destruct (is_primary_group _ _); [apply waits_calm; unfold safe_reply; never_auto|].
  destruct (match connected with Ok _ => _ | Err _ => _ end); [apply waits_calm; unfold safe_reply; never_auto|].
  destruct (pending_row _); [apply waits_calm; unfold safe_reply; never_auto|].
  destruct bm as [bm|]; [|apply waits_calm; unfold safe_reply; never_auto].
  destruct (negb _); [apply waits_calm; unfold safe_reply; never_auto|].
  apply told_waits. unfold safe_reply. never_auto.
Qed.
End joining.

(** * Who may connect *)

(** Telegram said that [uid] is in the chat, with a membership [ok] accepts. *)
Definition obs_member (chat_id uid : Z) (ok : doc -> bool) (o : obs eff) : bool :=
  match o with
  | Obs ev r =>
      match ev in eff X return result X -> bool with
      | GetChatMember c u => fun r => (c =? chat_id) && (u =? uid) && match r with Ok m => ok m | Err _ => false end
      | _ => fun _ => false
      end r
  end.

Definition is_chat_owner (member : doc) : bool := String.eqb (status_of member) "creator".
Definition is_chat_admin (member : doc) : bool := one_of (status_of member) ["administrator"; "creator"]%string.

Definition obs_leave (o : obs eff) : bool :=
  match o with Obs ev _ => match ev with LeaveChat _ => true | _ => false end end.

(** Anything done for or against the group. *)
Definition obs_disposes (o : obs eff) : bool := obs_write o || obs_enforce o || obs_sends o || obs_leave o.

(** Joining: the group's row, and the sanctions that follow. *)
Definition obs_joining (o : obs eff) : bool :=
  match o with
  | Obs ev _ =>
      match ev with
      | UpdateOne "federated_groups" _ _ true => true
      | _ => obs_enforce o
      end
  end.

Lemma cache_disposes c k o : cache_obs c k o = true -> obs_disposes o = false.
Proof. destruct o as [X ev r]; by destruct ev. Qed.
Lemma locale_disposes o : obs_locale o = true -> obs_disposes o = false.
Proof. destruct o as [X ev r]; by destruct ev. Qed.
Lemma talk_disposes o : obs_talk o = true -> obs_disposes o = false.
Proof. destruct o as [X ev r]; by destruct ev. Qed.
Lemma disposes_joining o : obs_disposes o = false -> obs_joining o = false.
Proof.
  destruct o as [X ev r]. unfold obs_joining, obs_disposes. intros [[[Hw He]%orb_false_iff _]%orb_false_iff _]%orb_false_iff.
  destruct ev; try exact He. discriminate Hw.
Qed.

Lemma member_waits g chat uid ok :
  (forall r, g (Obs (GetChatMember chat uid) r) = false) ->
  waits (obs_member chat uid ok) g (fun r => match r with Ok m => ok m | Err _ => false end) (call (GetChatMember chat uid)).
Proof.
  intros Hg. apply wp_call. intros r _. cbn [guarded existsb obs_member]. rewrite !Z.eqb_refl, Hg, orb_false_r.
  split; [by destruct (_ && _)|]. destruct r; [by intros ->|done].
Qed.

Section gates.
Context {CAT : Catalog} (cfg : config) (bot_id : Z).

Lemma refuse_tap_talks q msg txt : never obs_disposes (refuse_tap q msg txt).
Proof.
  unfold refuse_tap. apply never_bind; [|intros; apply never_ret]. apply never_gather_list.
  destruct msg; repeat constructor; never_auto.
Qed.

(** Only the owner's tap disposes of anything. *)
Lemma tap_owner c title q ty chat uid :
  effective_chat (c_upd c) = Some (ty, chat) -> effective_user (c_upd c) = Some uid ->
  waits (obs_member chat uid is_chat_owner) obs_disposes (fun _ => false) (on_join_decision cfg bot_id c title q).
Proof.
  intros Hchat Huser. unfold on_join_decision. destruct q as [[q data]|]; [|apply waits_never; [apply never_ret|done]].
  rewrite Hchat, Huser. cbv zeta.
  apply waits_after; [apply locale_for_update_never, locale_disposes| |done]. intros locale.
  eapply waits_then; [eapply waits_gather2_l; [by apply member_waits|never_auto]| |done].
  intros [member ans] Hm. cbn beta iota in *. apply waits_after; [apply throw_never| |done]. intros _.
  apply waits_never; [|done]. destruct member as [member|]; [|apply refuse_tap_talks].
  unfold is_chat_owner in Hm. rewrite Hm. apply refuse_tap_talks.
Qed.

(** Only with the bot's own rights verified is anything joined. *)
Lemma tap_able c title q ty chat :
  effective_chat (c_upd c) = Some (ty, chat) ->
  waits (obs_member chat bot_id check_perms) obs_joining (fun _ => false) (on_join_decision cfg bot_id c title q).
Proof.
  intros Hchat. unfold on_join_decision. destruct q as [[q data]|]; [|apply waits_never; [apply never_ret|done]].
  rewrite Hchat. cbv zeta. destruct (effective_user _) as [uid|]; [|apply waits_never; [unfold suppress; never_auto|done]].
  apply waits_after; [apply locale_for_update_never; intros; by apply disposes_joining, locale_disposes| |done]. intros locale.
  apply waits_after; [never_auto| |done]. intros [member ans].
  apply waits_after; [apply throw_never| |done]. intros _.
  assert (forall txt, never obs_joining (refuse_tap q (effective_message (c_upd c)) txt)) as Hrefuse.
  { intros txt. eapply never_weaken; [apply refuse_tap_talks|apply disposes_joining]. }
  destruct member as [member|]; [|by apply waits_never]. destruct (negb _); [by apply waits_never|].
  destruct (bool_decide _).
  - unfold tap_connect. cbv zeta.
    eapply (waits_then _ _ (fun r => match r with Ok (Some m) => check_perms m | _ => false end)); [| |done].
    + apply waits_try; [eapply waits_map; [by apply member_waits|done|done]|]. intros e.
      apply waits_never; [unfold edit_cb, safe_edit_cb, edit_with; never_auto|]. refine (wp_elim' _ _ _).
      apply wp_bind, wp_intro. intros t [a|e'] _; [by apply wp_ret|done].
    + intros [bm|] Hbm; [rewrite Hbm|by apply waits_never; [apply never_ret|done]]. cbn [negb].
      apply waits_never; [unfold edit_cb, safe_edit_cb, edit_with; store_never|done].
  - apply waits_never; [|done]. destruct (bool_decide _); [|apply never_ret]. unfold tap_cancel, suppress, gather3.
    destruct (cfg_logs cfg). store_never.
Qed.

Lemma refused_waits (f g : obs eff -> bool) msg txt :
  (forall o, obs_talk o = true -> g o = false) -> waits f g (fun _ => false) (safe_reply msg txt).
Proof. intros Hg. apply waits_never; [by apply reply_never|done]. Qed.

(** The command's ladder of refusals, up to the join.  [Hadmin]: what the four
    lookups tell. *)
Lemma tcconnect_admin c title ty chat uid :
  effective_chat (c_upd c) = Some (ty, chat) -> effective_user (c_upd c) = Some uid ->
  waits (obs_member chat uid is_chat_admin) obs_disposes (fun _ => false) (cmd_tcconnect_body cfg bot_id c title).
Proof.
  intros Hchat Huser. unfold cmd_tcconnect_body. cbv zeta.
  apply waits_after; [apply locale_for_update_never, locale_disposes| |done]. intros locale. rewrite Hchat, Huser.
  destruct (effective_message _) as [msg|]; [|apply waits_never; [apply never_ret|done]].
  destruct (String.eqb _ _); [apply refused_waits, talk_disposes|].
  destruct (uid =? _); [apply refused_waits, talk_disposes|].
  eapply waits_then; [apply waits_gather4_first; [by apply member_waits|store_never..]| |done].
  intros [[[member connected] pending] bm] Hm. cbn beta iota in Hm.
  destruct member as [member|]; [|apply refused_waits, talk_disposes].
  unfold is_chat_admin in Hm. rewrite Hm. apply refused_waits, talk_disposes.
Qed.

Lemma tcconnect_able c title ty chat :
  effective_chat (c_upd c) = Some (ty, chat) ->
  waits (obs_member chat bot_id check_perms) obs_joining (fun _ => false) (cmd_tcconnect_body cfg bot_id c title).
Proof.
  assert (forall o, obs_talk o = true -> obs_joining o = false) as Htalk by (intros; by apply disposes_joining, talk_disposes).
  intros Hchat. unfold cmd_tcconnect_body. cbv zeta.
  apply waits_after; [apply locale_for_update_never; intros; by apply disposes_joining, locale_disposes| |done]. intros locale.
  rewrite Hchat. destruct (effective_user _) as [uid|]; [|apply waits_never; [apply never_ret|done]].
  destruct (effective_message _) as [msg|]; [|apply waits_never; [apply never_ret|done]].
  destruct (String.eqb _ _); [by apply refused_waits|].
  destruct (uid =? _); [by apply refused_waits|].
  eapply waits_then; [apply (waits_gather4_last _ _ (fun r => match r with Ok m => check_perms m | Err _ => false end));
    [| | |by apply member_waits]; store_never| |done].
  intros [[[member connected] pending] bm] Hbm. cbn beta iota in Hbm.
  destruct member as [member|]; [|by apply refused_waits]. destruct (negb _); [by apply refused_waits|].
  destruct (is_primary_group _ _); [by apply refused_waits|].
  destruct (match connected with Ok _ => _ | Err _ => _ end); [by apply refused_waits|].
  destruct (pending_row _); [by apply refused_waits|]. destruct bm as [bm|]; [|by apply refused_waits].
  rewrite Hbm. by apply refused_waits.
Qed.

(** A promotion joins for a pending row only. *)
Lemma promotion_joins upd m :
  wp (on_bot_added cfg upd (Some m))
     (fun t _ => existsb obs_joining t = true ->
        status_of (mm_new m) = "administrator"%string /\ check_perms (mm_new m) = true /\
        exists f row, during (get_pending (mm_chat m).2) (Some (f :: row)) t).
Proof.
  unfold on_bot_added. destruct (negb _); [apply calm_absent, never_ret|].
  apply calm_before; [apply locale_for_update_never; intros; by apply disposes_joining, locale_disposes|].
  intros t1 locale _. cbv zeta.
  destruct (one_of _ ["left"; "kicked"]%string).
  { apply calm_absent. unfold bot_removed, suppress, gather3. destruct (cfg_logs cfg). cbv zeta. store_never; apply throw_never. }
  destruct (_ && _).
  { apply calm_absent. unfold bot_demoted, suppress. destruct (cfg_logs cfg). cbv zeta. never_auto. }
  destruct (one_of _ _); [|apply calm_absent, never_ret]. unfold bot_joined. cbv zeta.
  destruct (is_primary_group _ _); [apply calm_absent, never_ret|].
  eapply wp_mono; [apply (calm_before obs_joining _ _ (fun t => status_of (mm_new m) = "administrator"%string /\
    check_perms (mm_new m) = true /\ exists f row, during (get_pending (mm_chat m).2) (Some (f :: row)) t)); [store_never|]|].
  2: { intros t r H Hj. destruct (H Hj) as (H1 & H2 & f & row & H3). split_and!; [done..|]. exists f, row. by apply during_r. }
  intros t2 [pending connected] Hrun.
  assert (exists t', t' `sublist_of` t2 /\ exec (get_pending (mm_chat m).2) t' pending) as (t' & Hsub & Hpending).
  { apply (wp_elim_ok _ _ (fun t => exists t', t' `sublist_of` t /\ exec (get_pending (mm_chat m).2) t' pending)) in Hrun; [done|].
    eapply wp_gather2; [apply wp_exec|apply wp_exec|]. intros ta tb t ra rb Ha _ [Hs _]%interleave_sublist.
    split; [|done]. intros [= -> ->]. by exists ta. }
  apply calm_before; [apply throw_never|]. intros t3 _ _. cbv zeta.
  destruct pending as [[[|f row]|]|e]; cbn [pending_row live];
    try solve [apply calm_absent; unfold prompt_owner, suppress; store_never].
  destruct (String.eqb_spec (status_of (mm_new m)) "administrator") as [Hadm|]; [|apply calm_absent, never_ret].
  destruct (check_perms (mm_new m)); [|apply calm_absent, never_ret].
  apply wp_intro. intros t4 r _ _. split_and!; [done..|]. exists f, row.
  apply during_l. exists t'. by split.
Qed.
End gates.

(** * What is replayed *)

(** The breaker refused a slot of the fan-out. *)
Definition obs_open (o : obs eff) : bool :=
  match o with
  | Obs ev r =>
      match ev in eff X return result X -> bool with
      | CbTryAcquire => fun r => match r with Ok b => negb b | Err _ => true end
      | _ => fun _ => false
      end r
  end.

(** [p] was run as part of [t] and ended with [r]. *)
Definition ended {A} (p : io A) (r : result A) (t : trace eff) : Prop :=
  exists t', t' `sublist_of` t /\ exec p t' r.

Lemma ran_sub {A} (p : io A) r t t' : ended p r t -> t `sublist_of` t' -> ended p r t'.
Proof. intros (u & Hu & H) Ht. exists u. split; [by etrans|done]. Qed.

Lemma ran_l {A} (p : io A) r t1 t2 : ended p r t1 -> ended p r (t1 ++ t2).
Proof. intros H. eapply ran_sub; [exact H|by apply sublist_inserts_r]. Qed.

Lemma gather2_runs {X Y} (p : io X) (q : io Y) :
  wp (gather2 p q) (fun t r => match r with Ok (rp, rq) => ended p rp t /\ ended q rq t | Err _ => True end).
Proof.
  eapply wp_gather2; [apply wp_exec|apply wp_exec|]. intros t1 t2 t r1 r2 H1 H2 [Hs1 Hs2]%interleave_sublist.
  split; [|done]. split; eexists; eauto.
Qed.

Lemma gather3_runs {X Y Z} (p : io X) (q : io Y) (s : io Z) :
  wp (gather3 p q s)
     (fun t r => match r with Ok (rp, rq, rs) => ended p rp t /\ ended q rq t /\ ended s rs t | Err _ => True end).
Proof.
  eapply wp_gather3; [apply wp_exec..|]. intros t1 t2 t3 t23 t r1 r2 r3 H1 H2 H3 [Hs2 Hs3]%interleave_sublist
    [Hs1 Hs23]%interleave_sublist. split; [|done].
  split_and!; eexists; (split; [|eassumption]); [done|by etrans|by etrans].
Qed.

Lemma gather5_runs {X Y Z V W} (p : io X) (q : io Y) (s : io Z) (v : io V) (w : io W) :
  wp (gather5 p q s v w)
     (fun t r => match r with Ok (_, rq, rs, _, rw) => ended q rq t /\ ended s rs t /\ ended w rw t | Err _ => True end).
Proof.
  unfold gather5. apply wp_bind. eapply wp_gather2; [apply gather2_runs|apply gather3_runs|].
  intros t1 t2 t r1 r2 H1 H2 [Hs1 Hs2]%interleave_sublist. split; [|done]. apply wp_bind.
  destruct r1 as [[rp rq]|e]; [apply wp_ret, wp_bind|by apply wp_raise].
  destruct r2 as [[[rs rv] rw]|e]; [apply wp_ret, wp_ret|by apply wp_raise].
  rewrite !app_nil_r. destruct H1 as [_ Hq], H2 as (Hs & _ & Hw). split_and!; by eapply ran_sub.
Qed.

Lemma actions_interleave t1 t2 t : interleave t1 t2 t -> actions t ≡ₚ actions t1 ++ actions t2.
Proof.
  induction 1 as [|o t1 t2 t _ IH|o t1 t2 t _ IH]; [done|..]; rewrite !actions_cons;
    destruct (obs_action o) as [a|]; rewrite IH; try done. by rewrite Permutation_middle.
Qed.

Lemma actions_beside t1 t2 t : interleave t1 t2 t -> actions t1 = [] -> actions t = actions t2.
Proof.
  induction 1 as [|o t1 t2 t _ IH|o t1 t2 t _ IH]; [done|..]; rewrite !actions_cons; intros H1.
  - destruct (obs_action o); [done|by apply IH].
  - destruct (obs_action o); by rewrite IH.
Qed.

(** At most one action for every row, and exactly one unless the breaker
    refused a slot. *)
Definition replays (want : list action) (t : trace eff) (got : list action) : Prop :=
  got ⊆+ want /\ (existsb obs_open t = false -> got ≡ₚ want).

Section fan_out_actions.
Context `{UCD} {A} (ev : A -> eff unit) (act : A -> action).
Context (Hev : forall x r, obs_action (Obs (ev x) r) = Some (act x)).

Lemma slot_replays x : wp (fan_out_slot (call (ev x))) (fun t _ => replays [act x] t (actions t)).
Proof.
  assert (forall t, Forall (fun o => obs_acts o = false) t ->
    replays [act x] (Obs CbTryAcquire (Ok false) :: t) (actions (Obs CbTryAcquire (Ok false) :: t))) as Hopen.
  { intros t Ht. rewrite actions_cons, (actions_none _ Ht). split; [apply submseteq_nil_l|done]. }
  assert (forall r t, Forall (fun o => obs_acts o = false) t ->
    replays [act x] (Obs CbTryAcquire (Ok true) :: Obs (ev x) r :: t) (actions (Obs CbTryAcquire (Ok true) :: Obs (ev x) r :: t)))
    as Hone.
  { intros r t Ht. rewrite !actions_cons, Hev, (actions_none _ Ht). cbn. split; done. }
  unfold fan_out_slot. do 2 wp_step. destruct x0; cbn [negb]; [|apply wp_ret; by apply (Hopen [])].
  do 3 wp_step. destruct x0 as [v|[]]; cbn [is_NetworkError is_BadRequest is_Exception];
    do 2 wp_step; destruct x0; wp_step; apply (Hone _ [_]); by repeat constructor.
Qed.

Lemma gather_replays xs :
  wp (gather_list (map (fun x => fan_out_slot (call (ev x))) xs)) (fun t _ => replays (map act xs) t (actions t)).
Proof.
  induction xs as [|x xs IH]; cbn [gather_list map]; [by apply wp_ret|].
  apply wp_bind. eapply wp_gather2; [apply slot_replays|exact IH|]. intros t1 t2 t r1 r2 [H1 H1'] [H2 H2'] Hi.
  assert (replays (act x :: map act xs) t (actions t)) as Hr.
  { split; rewrite (actions_interleave _ _ _ Hi).
    - change (act x :: map act xs) with ([act x] ++ map act xs). by apply submseteq_app.
    - rewrite (interleave_existsb _ _ _ _ Hi). intros [Ho1 Ho2]%orb_false_iff. by rewrite (H1' Ho1), (H2' Ho2). }
  split; [|done]. apply wp_bind. destruct r2; [apply wp_ret, wp_ret|apply wp_raise]; by rewrite !app_nil_r.
Qed.

Lemma fan_out_replays xs :
  wp (fan_out (map (fun x => call (ev x)) xs)) (fun t _ => replays (map act xs) t (actions t)).
Proof.
  unfold fan_out. destruct xs as [|x0 xs]; [by apply wp_ret|]. cbn [map].
  assert (fan_out_slot (call (ev x0)) :: map fan_out_slot (map (fun x => call (ev x)) xs) =
    map (fun x => fan_out_slot (call (ev x))) (x0 :: xs)) as -> by (simpl; by rewrite map_map).
  apply wp_bind. eapply wp_mono; [apply gather_replays|]. intros t [rs|e] Ht; [|done].
  apply wp_bind, throw_if_cancelled_spec. destruct (existsb is_cancel _); rewrite ?app_nil_r; [done|].
  apply wp_ret. by rewrite !app_nil_r.
Qed.
End fan_out_actions.

(** The harvest does what its writes do. *)
Lemma harvest_identities_never f admins :
  (forall u, never f (harvest_user_identity (mt_id u) (mt_username u) (str_or (mt_first_name u) "") (mt_last_name u))) ->
  never f (_harvest_admin_identities admins).
Proof.
  intros Hf. unfold _harvest_admin_identities. cbv zeta. destruct (map _ _) eqn:He; [apply never_ret|]. rewrite <- He.
  apply never_bind; [|intros; apply never_ret]. unfold gather_bounded. destruct (map _ _) eqn:He'; [apply never_ret|].
  rewrite <- He'. clear He He'. apply never_bind.
  - apply never_gather_list, Forall_map, Forall_map, Forall_forall. intros u _. unfold gather_bounded_slot.
    apply never_bind; [apply never_attempt, Hf|]. intros rs. never_auto.
  - intros rs. cbv zeta. apply never_bind; [apply throw_never|]. intros. apply never_ret.
Qed.

Section replay.
Context {CAT : Catalog} (cfg : config).

Definition ban_action (chat_id : Z) (uid : bson) : action := ABan chat_id (user_of uid).
Definition mute_action (chat_id : Z) (d : doc) : action := ARestrict chat_id (dget_int "user_id" d 0) false (until_of d).

Lemma harvest_calm admins : never obs_acts (_harvest_admin_identities admins).
Proof.
  apply harvest_identities_never. intros u. eapply never_weaken; [apply harvest_never|].
  by intros o [Ho _]%orb_false_iff.
Qed.

(** The two stages, in order. *)
Lemma replay_and_log_replays chat title owner fname un bans mutes :
  wp (replay_and_log cfg chat title owner fname un bans mutes)
     (fun t r => is_err r = false -> exists got_bans got_mutes, actions t = got_bans ++ got_mutes /\
        replays (map (ban_action chat) bans) t got_bans /\ replays (map (mute_action chat) mutes) t got_mutes).
Proof.
  unfold replay_and_log, _replay_bans, _replay_mutes.
  apply wp_bind, wp_bind. eapply wp_mono; [by apply (fan_out_replays _ (ban_action chat))|].
  intros t1 [rs|e] [H1 H1']; [|done]. apply wp_ret, wp_bind, wp_bind.
  eapply wp_mono; [by apply (fan_out_replays _ (mute_action chat))|].
  intros t2 [rs2|e] [H2 H2']; [|done]. apply wp_ret. destruct (cfg_logs cfg) as [lc lt].
  assert (forall txt, never obs_acts (suppress (call (SendMessage lc txt lt None)))) as Hlog
    by (intros; unfold suppress; never_auto).
  eapply wp_mono; [apply Hlog|].
  intros t3 r Ht3 _. exists (actions t1), (actions t2). rewrite !app_nil_r, !actions_app, (actions_none t3), app_nil_r by done.
  split; [done|]. split; (split; [done|]); rewrite !existsb_app, !orb_false_iff; tauto.
Qed.

Lemma beside_harvest_replays (admins : result (list mt_user)) (p : io unit) want_bans want_mutes :
  let post (t : trace eff) (r : result unit) := is_err r = false -> exists got_bans got_mutes, actions t = got_bans ++ got_mutes /\
    replays want_bans t got_bans /\ replays want_mutes t got_mutes in
  wp p post -> wp (beside_harvest admins p) post.
Proof.
  intros post Hp. unfold beside_harvest. destruct admins as [[|a l]|e]; [done| |done].
  apply wp_bind. eapply wp_gather2; [apply harvest_calm|exact Hp|]. cbn beta iota.
  intros t1 t2 t r1 r2 H1 H2 Hi. split; [|done].
  assert (post t r2) as Hpost.
  { intros Hr. destruct (H2 Hr) as (gb & gm & Ha & [Hb Hb'] & [Hm Hm']). exists gb, gm.
    rewrite (actions_beside _ _ _ Hi (actions_none _ H1)). split; [done|].
    unfold replays. rewrite (interleave_existsb obs_open _ _ _ Hi), orb_false_iff. split; (split; [done|]); intros [_ Ho]; auto. }
  destruct r2 as [[]|e]; [apply wp_ret|apply wp_raise]; by rewrite app_nil_r.
Qed.

(** A completed join: what it read and what it replayed of it. *)
Definition join_post (chat_id : Z) (t : trace eff) (blind : bool) : Prop :=
  exists fetched_bans fetched_mutes got_bans got_mutes,
    ended active_ban_user_ids fetched_bans t /\ ended active_mute_docs fetched_mutes t /\
    actions t = got_bans ++ got_mutes /\
    replays (map (ban_action chat_id) (replay_rows fetched_bans).1) t got_bans /\
    replays (map (mute_action chat_id) (replay_rows fetched_mutes).1) t got_mutes /\
    blind = (replay_rows fetched_bans).2 || (replay_rows fetched_mutes).2.

Lemma gather5_calm chat title owner :
  never obs_acts (gather5 (call (GetChat (inl chat))) active_ban_user_ids active_mute_docs
                          (call (GetChatAdministrators chat)) (add_group chat title owner)).
Proof. unfold gather5, gather3. store_never. Qed.

Lemma replays_more want t got t1 : replays want t got -> replays want (t1 ++ t) got.
Proof. intros [H H']. split; [done|]. rewrite existsb_app, orb_false_iff. intros [_ Ho]. auto. Qed.

Lemma complete_join_replays chat title owner fname :
  wp (complete_join cfg chat title owner fname)
     (fun t r => match r with Ok blind => join_post chat t blind | Err _ => True end).
Proof.
  unfold complete_join. apply wp_bind.
  eapply wp_mono; [exact (wp_conj _ _ _ (gather5_calm chat title owner) (gather5_runs _ _ _ _ _))|].
  intros t1 [[[[[rc rb] rm] ra] rg]|e] [Hcalm1 H1]; [|done]. destruct H1 as (Hb & Hm & _).
  apply wp_bind, throw_if_cancelled_spec. destruct (existsb is_cancel _); [done|]. destruct rg as [u|e]; [|by apply wp_raise].
  assert (never obs_acts (suppress (remove_pending chat))) as Hpending by (unfold suppress; store_never).
  apply wp_bind. eapply wp_mono; [exact Hpending|].
  intros t2 [[]|e] Hcalm2; [|done]. cbv zeta. apply wp_bind.
  eapply wp_mono; [apply beside_harvest_replays, replay_and_log_replays|].
  intros t3 [[]|e] H3; [|done]. destruct (H3 eq_refl) as (gb & gm & Ha & Hgb & Hgm). apply wp_ret.
  exists rb, rm, gb, gm. rewrite app_nil_r, app_nil_l. split_and!; [by apply ran_l|by apply ran_l| | | |done].
  - by rewrite !actions_app, (actions_none t1), (actions_none t2) by done.
  - by do 2 apply replays_more.
  - by do 2 apply replays_more.
Qed.
End replay.

(** * The properties *)

(** A run that may connect [chat_id]. *)
Inductive connecting {CAT : Catalog} (cfg : config) (bot_id chat_id : Z) (t : trace eff) : Prop :=
  | by_promotion upd m r : (mm_chat m).2 = chat_id -> exec (on_bot_added cfg upd (Some m)) t r ->
      connecting cfg bot_id chat_id t
  | by_button c title q ty r : effective_chat (c_upd c) = Some (ty, chat_id) ->
      exec (on_join_decision cfg bot_id c title q) t r -> connecting cfg bot_id chat_id t
  | by_command c title ty r : effective_chat (c_upd c) = Some (ty, chat_id) ->
      exec (cmd_tcconnect_body cfg bot_id c title) t r -> connecting cfg bot_id chat_id t.

(** On each of the three ways to connect a group, nobody in it is banned
    or muted and nobody is told that it is connected before its row was
    written in [federated_groups]. *)
Theorem connected_is_recorded {CAT : Catalog} (cfg : config) (bot_id chat_id : Z) (t : trace eff)
    (Hrun : connecting cfg bot_id chat_id t) :
  guarded (obs_enrolled chat_id) obs_joined t = true.
Proof.
  destruct Hrun as [upd m r <- Hrun|c title q ty r Hchat Hrun|c title ty r Hchat Hrun].
  - exact (proj1 (wp_elim _ _ _ _ (bot_added_waits cfg upd m) Hrun)).
  - exact (proj1 (wp_elim _ _ _ _ (join_decision_waits cfg bot_id c title q ty chat_id Hchat) Hrun)).
  - exact (proj1 (wp_elim _ _ _ _ (tcconnect_waits cfg bot_id c title ty chat_id Hchat) Hrun)).
Qed.

(** Who connects a group.  A tap disposes of anything only after Telegram
    named its author the owner of the chat, the command only after it named
    the sender an administrator; and for both, a group is joined only after
    Telegram showed the bot's own rights in it to suffice.  A change of the
    bot's membership joins only when it is a promotion with these rights, for
    a row of [pending_joins]. *)
Theorem join_gate {CAT : Catalog} (cfg : config) (bot_id chat_id uid : Z) (ty : string) (c : command)
    (title : option string) (t : trace eff) (r : result unit)
    (Hchat : effective_chat (c_upd c) = Some (ty, chat_id)) (Huser : effective_user (c_upd c) = Some uid) :
  (forall q, exec (on_join_decision cfg bot_id c title q) t r ->
     guarded (obs_member chat_id uid is_chat_owner) obs_disposes t = true /\
     guarded (obs_member chat_id bot_id check_perms) obs_joining t = true) /\
  (exec (cmd_tcconnect_body cfg bot_id c title) t r ->
     guarded (obs_member chat_id uid is_chat_admin) obs_disposes t = true /\
     guarded (obs_member chat_id bot_id check_perms) obs_joining t = true) /\
  (forall m, exec (on_bot_added cfg (c_upd c) (Some m)) t r -> existsb obs_joining t = true ->
     status_of (mm_new m) = "administrator"%string /\ check_perms (mm_new m) = true /\
     exists f row, during (get_pending (mm_chat m).2) (Some (f :: row)) t).
Proof.
  split; [intros q Hrun; split|split; [intros Hrun; split|]].
  - exact (proj1 (wp_elim _ _ _ _ (tap_owner cfg bot_id c title q ty chat_id uid Hchat Huser) Hrun)).
  - exact (proj1 (wp_elim _ _ _ _ (tap_able cfg bot_id c title q ty chat_id Hchat) Hrun)).
  - exact (proj1 (wp_elim _ _ _ _ (tcconnect_admin cfg bot_id c title ty chat_id uid Hchat Huser) Hrun)).
  - exact (proj1 (wp_elim _ _ _ _ (tcconnect_able cfg bot_id c title ty chat_id Hchat) Hrun)).
  - intros m Hrun. exact (wp_elim _ _ _ _ (promotion_joins cfg (c_upd c) m) Hrun).
Qed.

(** C31: a join that does not call itself blind read all the bans and all the
    mutes in force and replayed them all: the sanctions it carried out are the
    bans and then the mutes of these rows, each once, unless the breaker
    refused a slot.  Nobody else is sanctioned in any case. *)
Theorem join_replays_all {CAT : Catalog} (cfg : config) (chat_id owner_id : Z) (title fname : string) (t : trace eff)
    (Hrun : exec (complete_join cfg chat_id title owner_id fname) t (Ok false)) :
  exists bans mutes got_bans got_mutes,
    during active_ban_user_ids bans t /\ during active_mute_docs mutes t /\ actions t = got_bans ++ got_mutes /\
    replays (map (ban_action chat_id) bans) t got_bans /\ replays (map (mute_action chat_id) mutes) t got_mutes.
Proof.
  destruct (wp_elim _ _ _ _ (complete_join_replays cfg chat_id title owner_id fname) Hrun)
    as (rb & rm & gb & gm & Hb & Hm & Ha & Hgb & Hgm & Hblind). symmetry in Hblind.
  apply orb_false_iff in Hblind as [Hbb Hbm].
  assert (forall A (fetched : result (list A)), (replay_rows fetched).2 = false -> fetched = Ok (replay_rows fetched).1) as Hall.
  { intros A [rows|e]; cbn; [|done]. by case_match. }
  exists (replay_rows rb).1, (replay_rows rm).1, gb, gm.
  rewrite (Hall _ rb Hbb) in Hb. rewrite (Hall _ rm Hbm) in Hm. done.
Qed.

(** * Disconnecting *)

(** The group's row was found and made inactive. *)
Definition obs_withdrawn (chat_id : Z) (o : obs eff) : bool :=
  match o with
  | Obs ev r =>
      match ev in eff X return result X -> bool with
      | UpdateOne "federated_groups" [("chat_id", BInt c)] _ false =>
          fun r => (c =? chat_id) && match r with Ok res => negb (matched_count res =? 0) | Err _ => false end
      | _ => fun _ => false
      end r
  end.

(** The announcement and the departure. *)
Definition obs_departs (o : obs eff) : bool := obs_sends o || obs_leave o.

Lemma disposes_departs o : obs_disposes o = false -> obs_departs o = false.
Proof. unfold obs_disposes, obs_departs. by intros [[_ ->]%orb_false_iff ->]%orb_false_iff. Qed.
Lemma talk_departs o : obs_talk o = true -> obs_departs o = false.
Proof. intros. by apply disposes_departs, talk_disposes. Qed.

Section departures.
Context {CAT : Catalog} (cfg : config) (bot_id : Z).

Lemma deactivate_waits chat_id :
  waits (obs_withdrawn chat_id) obs_departs (fun r => match r with Ok b => b | Err _ => false end)
    (deactivate_group chat_id).
Proof.
  apply waits_from; [store_never|]. unfold deactivate_group, db_call. apply wp_bind, wp_call. intros [res|e] _; [|done].
  destruct (matched_count res =? 0) eqn:Hm; [by apply wp_ret|].
  apply wp_intro. intros t r _ _. simpl. by rewrite Z.eqb_refl, Hm.
Qed.

Lemma can_manage_calm chat_id uid : never obs_disposes (can_manage_group chat_id uid).
Proof.
  unfold can_manage_group. apply never_bind; [|intros []; never_auto].
  unfold is_staff. never_auto. apply get_effective_role_reads; [apply cache_disposes|done].
Qed.

Lemma tcdisconnect_waits c title ty chat :
  effective_chat (c_upd c) = Some (ty, chat) ->
  waits (obs_withdrawn chat) obs_departs (fun _ => false) (cmd_tcdisconnect_body cfg c title).
Proof.
  intros Hchat. unfold cmd_tcdisconnect_body. cbv zeta. rewrite Hchat.
  destruct (effective_user _) as [uid|]; [|apply waits_never; [apply never_ret|done]].
  destruct (effective_message _) as [msg|]; [|apply waits_never; [apply never_ret|done]].
  apply waits_after; [apply locale_for_update_never; intros; by apply disposes_departs, locale_disposes| |done]. intros locale.
  destruct (String.eqb _ _); [apply refused_waits, talk_departs|].
  destruct (is_primary_group _ _); [apply refused_waits, talk_departs|].
  apply waits_after; [store_never| |done]. intros [[]|]; [|apply refused_waits, talk_departs..].
  apply waits_after; [eapply never_weaken; [apply can_manage_calm|apply disposes_departs]| |done]. intros allowed.
  destruct (negb _); [apply refused_waits, talk_departs|].
  eapply (waits_then _ _ (fun r => match r with Ok b => b | Err _ => false end)); [| |done].
  - apply waits_try; [apply deactivate_waits|]. intros e. apply waits_never; [apply never_ret|].
    refine (wp_elim' _ _ _). by apply wp_ret.
  - intros [] Hd; [done|]. cbn [negb]. apply refused_waits, talk_departs.
Qed.

Lemma rmtc_waits c msg arg rest target :
  effective_message (c_upd c) = Some msg -> args_of msg = arg :: rest -> int_of arg = Some target ->
  waits (obs_withdrawn target) obs_departs (fun _ => false) (cmd_rmtc_body cfg c).
Proof.
  intros Hmsg Hargs Hint. unfold cmd_rmtc_body. cbv zeta.
  apply waits_after; [apply locale_for_update_never; intros; by apply disposes_departs, locale_disposes| |done]. intros locale.
  rewrite Hmsg. destruct (effective_user _) as [uid|]; [|apply waits_never; [apply never_ret|done]].
  rewrite Hargs. destruct (negb _); [apply refused_waits, talk_departs|]. rewrite Hint.
  destruct (is_primary_group _ _); [apply refused_waits, talk_departs|].
  eapply (waits_then _ _ (fun r => match r with Ok (Some b) => b | _ => false end)); [| |done].
  - apply waits_try; [by eapply waits_map; [apply deactivate_waits| |]|]. intros e. apply waits_never; [apply never_ret|].
    refine (wp_elim' _ _ _). by apply wp_ret.
  - intros [[]|] Hd; [done|apply refused_waits, talk_departs..].
Qed.

(** Who may take a group out. *)
Lemma tcdisconnect_managed c title ty chat uid :
  effective_chat (c_upd c) = Some (ty, chat) -> effective_user (c_upd c) = Some uid ->
  wp (cmd_tcdisconnect_body cfg c title)
     (fun t _ => existsb obs_disposes t = true -> during (can_manage_group chat uid) true t).
Proof.
  assert (forall msg txt (Q : trace eff -> Prop), wp (safe_reply msg txt) (fun t _ => existsb obs_disposes t = true -> Q t)) as Hreply
    by (intros; by apply calm_absent, reply_never, talk_disposes).
  assert (forall A (p : io A) k, never obs_disposes p ->
    (forall a, wp (k a) (fun t (_ : result unit) => existsb obs_disposes t = true -> during (can_manage_group chat uid) true t)) ->
    wp (bind p k) (fun t _ => existsb obs_disposes t = true -> during (can_manage_group chat uid) true t)) as Hstep.
  { intros A p k Hp Hk. apply calm_before; [exact Hp|]. intros t a _. eapply wp_mono; [apply Hk|].
    intros t' r H Hd. by apply during_r, H. }
  intros Hchat Huser. unfold cmd_tcdisconnect_body. cbv zeta. rewrite Hchat, Huser.
  destruct (effective_message _) as [msg|]; [|apply calm_absent, never_ret].
  apply Hstep; [apply locale_for_update_never, locale_disposes|]. intros locale.
  destruct (String.eqb _ _); [apply Hreply|]. destruct (is_primary_group _ _); [apply Hreply|].
  apply Hstep; [store_never|]. intros [[]|]; [|apply Hreply..].
  apply calm_before; [apply can_manage_calm|]. intros t [] Hrun; cbn [negb]; [|apply Hreply].
  apply wp_intro. intros t' r _ _. by apply during_l, during_exec.
Qed.
End departures.

(** A group is left, and its leaving announced, only after its row was
    found and made inactive, by [/tcdisconnect] and by [/rmtc] alike; and
    [/tcdisconnect] touches it only for staff or for the creator of the
    chat. *)
Theorem leaves_deactivated {CAT : Catalog} (cfg : config) (c : command) (title : option string) (ty arg : string)
    (chat_id uid target : Z) (msg : message) (rest : list string) (t : trace eff) (r : result unit)
    (Hchat : effective_chat (c_upd c) = Some (ty, chat_id)) (Huser : effective_user (c_upd c) = Some uid)
    (Hmsg : effective_message (c_upd c) = Some msg) :
  (exec (cmd_tcdisconnect_body cfg c title) t r ->
     guarded (obs_withdrawn chat_id) obs_departs t = true /\
     (existsb obs_disposes t = true -> during (can_manage_group chat_id uid) true t)) /\
  (args_of msg = arg :: rest -> int_of arg = Some target -> exec (cmd_rmtc_body cfg c) t r ->
     guarded (obs_withdrawn target) obs_departs t = true).
Proof.
  split.
  - intros Hrun. split; [exact (proj1 (wp_elim _ _ _ _ (tcdisconnect_waits cfg c title ty chat_id Hchat) Hrun))|].
    exact (wp_elim _ _ _ _ (tcdisconnect_managed cfg c title ty chat_id uid Hchat Huser) Hrun).
  - intros Hargs Hint Hrun.
    exact (proj1 (wp_elim _ _ _ _ (rmtc_waits cfg c msg arg rest target Hmsg Hargs Hint) Hrun)).
Qed.

(** * Where the code departs from its documentation *)

(** An argument that is digits behind its dashes but no number ends [/rmtc]
    without a word. *)
Theorem rmtc_malformed_raises {CAT : Catalog} (cfg : config) (c : command) (msg : message) (arg : string)
    (rest : list string) (uid : Z) (t : trace eff) (r : result unit)
    (Hmsg : effective_message (c_upd c) = Some msg) (Huser : effective_user (c_upd c) = Some uid)
    (Hargs : args_of msg = arg :: rest) (Hshape : numeric_name arg = true) (Hint : int_of arg = None)
    (Hrun : exec (cmd_rmtc_body cfg c) t r) :
  is_err r = true /\ existsb obs_reply t = false.
Proof.
  revert t r Hrun. refine (wp_elim' _ _ _). unfold cmd_rmtc_body. cbv zeta. apply wp_bind.
  eapply wp_mono; [apply (locale_for_update_never obs_reply); by intros [X [] r]|].
  intros t [locale|e] Ht%existsb_false_Forall; [|done]. rewrite Hmsg, Huser, Hargs, Hshape, Hint. cbn [negb].
  apply wp_raise. by rewrite app_nil_r.
Qed.

Lemma complete_join_asks {CAT : Catalog} (cfg : config) chat_id title owner fname c uid ok :
  never (obs_member c uid ok) (complete_join cfg chat_id title owner fname).
Proof.
  unfold complete_join. apply never_bind; [unfold gather5, gather3; store_never|]. intros [[[[rc rb] rm] ra] rg].
  apply never_bind; [apply throw_never|intros _]. destruct rg; [|apply never_raise].
  apply never_bind; [unfold suppress; store_never|intros _]. cbv zeta.
  apply never_bind; [|intros; apply never_ret].
  assert (forall bans mutes un, never (obs_member c uid ok) (replay_and_log cfg chat_id title owner fname un bans mutes)) as Hreplay.
  { intros bans mutes un. unfold replay_and_log, _replay_bans, _replay_mutes, suppress. destruct (cfg_logs cfg).
    never_auto; (apply fan_out_never; [done..|]); intros p (x & <- & _)%in_map_iff; by apply never_call. }
  unfold beside_harvest. destruct ra as [[|adm adms]|e0]; [apply Hreplay| |apply Hreplay].
  apply never_bind; [|intros [x y]; destruct y; [apply never_ret|apply never_raise]].
  apply never_gather2; [|apply Hreplay].
  apply harvest_identities_never. intros u. unfold harvest_user_identity, upsert_user_if_changed, upsert_user, invalidate, redis_del_background, db_call.
  cbv zeta. never_auto.
Qed.

(** Joining by a promotion asks Telegram about nobody: whoever put the bot into
    the group is recorded as its owner by the prompt, and the next promotion
    of the bot connects the group in that name, the prompt unanswered. *)
Theorem promotion_asks_nobody {CAT : Catalog} (cfg : config) (upd : update) (m : my_member) (chat_id uid : Z)
    (ok : doc -> bool) (t : trace eff) (r : result unit) (Hrun : exec (on_bot_added cfg upd (Some m)) t r) :
  existsb (obs_member chat_id uid ok) t = false.
Proof.
  apply existsb_false_Forall. revert t r Hrun. refine (wp_elim' _ _ _).
  change (never (obs_member chat_id uid ok) (on_bot_added cfg upd (Some m))).
  unfold on_bot_added. destruct (negb _); [apply never_ret|].
  apply never_bind; [apply locale_for_update_never; by intros [X [] r]|]. intros locale. cbv zeta.
  destruct (one_of _ ["left"; "kicked"]%string).
  { unfold bot_removed, suppress, gather3. destruct (cfg_logs cfg). cbv zeta. store_never; apply throw_never. }
  destruct (_ && _); [unfold bot_demoted, suppress; destruct (cfg_logs cfg); cbv zeta; never_auto|].
  destruct (one_of _ _); [|apply never_ret]. unfold bot_joined. cbv zeta.
  destruct (is_primary_group _ _); [apply never_ret|].
  apply never_bind; [store_never|]. intros [pending connected]. apply never_bind; [apply throw_never|intros _]. cbv zeta.
  destruct (pending_row pending) as [row|]; [|unfold prompt_owner, suppress; store_never].
  destruct (_ && _); [|apply never_ret]. unfold pending_promoted, suppress. cbv zeta.
  pose proof complete_join_asks as Hjoin.
  apply never_bind; [apply first_name_never; [by intros ? ? [X [] r]|done]|]. intros fname. never_auto.
Qed.

(** * Concrete runs *)
Definition able : doc :=
  [("status"%string, BStr "administrator"); ("can_delete_messages"%string, BBool true);
   ("can_restrict_members"%string, BBool true); ("can_invite_users"%string, BBool true)].

(** User 7 owns the chat; the bot, 99, has its rights; two users are banned and
    one is muted. *)
Definition group_script : script := fun X ev =>
  match ev in eff X return option (result X) with
  | GetChatMember _ 99 => Some (Ok able)
  | GetChatMember _ 7 => Some (Ok [("status"%string, BStr "creator")])
  | GetChatMember _ _ => Some (Ok [("status"%string, BStr "member")])
  | Distinct "bans" _ _ => Some (Ok [BInt 31; BInt 32])
  | Find "active_mutes" _ _ _ _ => Some (Ok [[("user_id"%string, BInt 33)]])
  | CbTryAcquire => Some (Ok true)
  | _ => None
  end.

Definition in_group (uid : Z) (text : string) : command :=
  Command (Update (Some uid) (Some ("supergroup"%string, -100)) (Some (Message 5 (-100) "supergroup" (Some text))) false)
    None [] "Ann" None false.

Definition join_card : message := Message 6 (-100) "supergroup" None.

Definition tapped (uid : Z) (data : string) : trace eff * result unit :=
  replay group_script (@on_join_decision demo_catalog demo_config 99 (in_group uid "") (Some "Chat"%string)
    (Some (Callback join_card (Some data)))).

(** The owner's tap bans, mutes and confirms. *)
Example tap_connects :
  (tapped 7 "tc_join").2 = Ok tt /\ actions (tapped 7 "tc_join").1 = [ABan (-100) 31; ABan (-100) 32; ARestrict (-100) 33 false None] /\
  existsb obs_confirms (tapped 7 "tc_join").1 = true /\ existsb obs_disposes (tapped 8 "tc_join").1 = false.
Proof. vm_compute. done. Qed.

Lemma connected_is_recorded_witness :
  guarded (obs_enrolled (-100)) obs_joined (tapped 7 "tc_join").1 = true.
Proof.
  refine (@connected_is_recorded demo_catalog demo_config 99 (-100) _ _).
  exact (by_button _ _ _ _ (in_group 7 "") (Some "Chat"%string) (Some (Callback join_card (Some "tc_join"%string)))
    "supergroup"%string _ eq_refl (replay_exec group_script _)).
Defined.

Lemma join_gate_witness :
  guarded (obs_member (-100) 7 is_chat_owner) obs_disposes (tapped 7 "tc_join").1 = true.
Proof.
  refine (proj1 (proj1 (@join_gate demo_catalog demo_config 99 (-100) 7 "supergroup" (in_group 7 "") (Some "Chat"%string) _ _
    eq_refl eq_refl) (Some (Callback join_card (Some "tc_join"%string))) (replay_exec group_script _))).
Defined.

Definition completed_join : trace eff * result bool :=
  replay group_script (@complete_join demo_catalog demo_config (-100) "Chat" 7 "Ann").

Lemma join_replays_all_witness :
  exists bans mutes got_bans got_mutes,
    during active_ban_user_ids bans completed_join.1 /\ during active_mute_docs mutes completed_join.1 /\
    actions completed_join.1 = got_bans ++ got_mutes /\
    replays (map (ban_action (-100)) bans) completed_join.1 got_bans /\ replays (map (mute_action (-100)) mutes) completed_join.1 got_mutes.
Proof.
  apply (@join_replays_all demo_catalog demo_config (-100) 7 "Chat" "Ann" completed_join.1).
  exact (replay_exec group_script (@complete_join demo_catalog demo_config (-100) "Chat" 7 "Ann")).
Defined.

(** The chat is connected, and user 7 may take it out. *)
Definition connected_script : script := fun X ev =>
  match ev in eff X return option (result X) with
  | FindOne "federated_groups" _ _ => Some (Ok (Some [("chat_id"%string, BInt (-100))]))
  | GetChatMember _ 7 => Some (Ok [("status"%string, BStr "creator")])
  | _ => None
  end.

Definition left_group : trace eff * result unit :=
  replay connected_script (@cmd_tcdisconnect_body demo_catalog demo_config (in_group 7 "/tcdisconnect") (Some "Chat"%string)).

Lemma leaves_deactivated_witness :
  existsb obs_leave left_group.1 = true /\ guarded (obs_withdrawn (-100)) obs_departs left_group.1 = true.
Proof.
  split; [vm_compute; reflexivity|].
  refine (proj1 (proj1 (@leaves_deactivated demo_catalog demo_config (in_group 7 "/tcdisconnect") (Some "Chat"%string)
    "supergroup" "" (-100) 7 0 (Message 5 (-100) "supergroup" (Some "/tcdisconnect"%string)) [] _ _ eq_refl eq_refl eq_refl)
    (replay_exec connected_script _))).
Defined.

Lemma rmtc_malformed_raises_witness :
  is_err (replay no_script (@cmd_rmtc_body demo_catalog demo_config (in_group 7 "/rmtc --5"))).2 = true.
Proof.
  refine (proj1 (@rmtc_malformed_raises demo_catalog demo_config (in_group 7 "/rmtc --5")
    (Message 5 (-100) "supergroup" (Some "/rmtc --5"%string)) "--5" [] 7 _ _ eq_refl eq_refl _ _ _ (replay_exec no_script _)));
    vm_compute; reflexivity.
Defined.

(** User 5, a plain member, adds the bot; an administrator promotes it. *)
Definition added_by (uid : Z) (status : doc) : my_member := MyMember ("supergroup"%string, -100) (Some "Chat"%string) status None (Some uid).

Definition promotion_script : script := fun X ev =>
  match ev in eff X return option (result X) with
  | FindOne "pending_joins" _ _ =>
      Some (Ok (Some [("chat_id"%string, BInt (-100)); ("owner_id"%string, BInt 5); ("message_id"%string, BInt 1)]))
  | _ => None
  end.

(** The row the adding leaves, and what the promotion makes of it. *)
Definition stored_owner (o : obs eff) : option Z :=
  match o with
  | Obs ev _ =>
      match ev with
      | UpdateOne "pending_joins" _ [("$set", BDoc d)] _ => dget "owner_id" d ≫= bint
      | UpdateOne "federated_groups" _ (("$set", BDoc d) :: _) _ => dget "added_by" d ≫= bint
      | _ => None
      end
  end.

Definition promoted : trace eff * result unit :=
  replay promotion_script (@on_bot_added demo_catalog demo_config (demo_update 8) (Some (added_by 8 able))).

Lemma promotion_asks_nobody_witness :
  omap stored_owner (replay no_script (@on_bot_added demo_catalog demo_config (demo_update 5)
    (Some (added_by 5 [("status"%string, BStr "member")])))).1 = [5] /\
  omap stored_owner promoted.1 = [5] /\ existsb obs_confirms promoted.1 = true /\
  existsb (obs_member (-100) 5 is_chat_owner) promoted.1 = false.
Proof.
  split; [vm_compute; reflexivity|]. split; [vm_compute; reflexivity|]. split; [vm_compute; reflexivity|].
  exact (@promotion_asks_nobody demo_catalog demo_config (demo_update 8) (added_by 8 able) (-100) 5 is_chat_owner _ _
    (replay_exec promotion_script _)).
Defined.
