(* ===== verification/Syncing.v ===== *)
(** The sweep that reconciles the chats with the records: [tcbot/modules/syncing]
    (core.py, __init__.py, command.py). *)

From stdpp Require Import sorting.
From S2P Require Import Prelude Prog Text World I18n Dispatch Cache Locale Roles Replies Auth Records DemoteFlow BanFlow MuteFlow AppealReview JoinFlow Prefixes Extract Handler ConnectedFlow.

(** * core.py *)
Definition _SYNC_MAX_CHECKS : Z := 200.
Definition _FAILED_SAMPLE_N : nat := 5.

Record SyncCounts := Counts {
  checked : Z;
  enforced_bans : Z;
  enforced_unbans : Z;
  enforced_mutes : Z;
  skipped : Z;
  failed : Z;
  truncated : bool;
  failed_titles : list string
}.

Definition no_counts : SyncCounts := Counts 0 0 0 0 0 0 false [].

(** [((uid, cid) for uid in user_ids for cid in chat_ids)] *)
Definition cross (user_ids chat_ids : list Z) : list (Z * Z) :=
  flat_map (fun uid => map (pair uid) chat_ids) user_ids.

Definition take_pairs (user_ids chat_ids : list Z) (max_checks : Z) : list (Z * Z) * bool :=
  let limit := Z.max 0 max_checks in
  let pairs := firstn (Z.to_nat limit) (cross user_ids chat_ids) in
  (pairs, Z.of_nat (length user_ids) * Z.of_nat (length chat_ids) >? Z.of_nat (length pairs)).

(** The short outcome labels. *)
Inductive outcome : Type := Enforced | Unenforced | Remuted | OkAlready | Absent | Privileged | Failed.

(** Failures are values, a cancellation is not. *)
Definition _member_status (chat_id user_id : Z) : io (result doc) :=
  r <- attempt (call (GetChatMember chat_id user_id)) ;;
  match r with
  | Err e => if is_Exception e then Ret (Err e) else Raise e
  | Ok m => Ret (Ok m)
  end.

Section syncing.
Context {CAT : Catalog} (cfg : config).

Definition refusal (exc : exn) : outcome :=
  if is_BadRequest exc || is_benign_telegram_error exc then Absent else Failed.

(** [await ev], and the outcome it is folded into. *)
Definition enforce (ev : eff unit) (done : outcome) : io outcome :=
  try_except (call ev ;;; Ret done) (fun exc => Ret (refusal exc)).

Definition _sync_ban_pair (chat_id user_id : Z) : io outcome :=
  probed <- _member_status chat_id user_id ;;
  match probed with
  | Err exc => Ret (refusal exc)
  | Ok member =>
      let status := status_of member in
      if String.eqb status "kicked" then Ret OkAlready
      else if String.eqb status "left" then Ret Absent
      else if one_of status ["administrator"; "creator"] then Ret Privileged
      else enforce (BanChatMember chat_id user_id) Enforced
  end.

Definition _sync_unban_pair (chat_id user_id : Z) : io outcome :=
  probed <- _member_status chat_id user_id ;;
  match probed with
  | Err exc => Ret (refusal exc)
  | Ok member =>
      if negb (String.eqb (status_of member) "kicked") then Ret OkAlready
      else enforce (UnbanChatMember chat_id user_id true) Unenforced
  end.

Definition _sync_mute_pair (chat_id user_id : Z) (until_date : option Z) : io outcome :=
  probed <- _member_status chat_id user_id ;;
  match probed with
  | Err exc => Ret (refusal exc)
  | Ok member =>
      let status := status_of member in
      if one_of status ["restricted"; "kicked"] then Ret OkAlready
      else if String.eqb status "left" then Ret Absent
      else if one_of status ["administrator"; "creator"] then Ret Privileged
      else enforce (RestrictChatMember chat_id user_id false until_date) Remuted
  end.

Definition title_in (titles : gmap Z string) (chat_id : Z) : string := default (py_str chat_id) (titles !! chat_id).

Definition sample (titles : gmap Z string) (chat_id : Z) (c : SyncCounts) : list string :=
  if (length (failed_titles c) <? _FAILED_SAMPLE_N)%nat then failed_titles c ++ [title_in titles chat_id] else failed_titles c.

(** One turn of the loop over pairs and outcomes. *)
Definition tally (titles : gmap Z string) (c : SyncCounts) (row : (Z * Z) * result outcome) : SyncCounts :=
  let '((_, cid), out) := row in
  let 'Counts n b u m s f tr ts := c in
  match out with
  | Err _ | Ok Failed => Counts n b u m s (f + 1) tr (sample titles cid c)
  | Ok Enforced => Counts n (b + 1) u m s f tr ts
  | Ok Unenforced => Counts n b (u + 1) m s f tr ts
  | Ok Remuted => Counts n b u (m + 1) s f tr ts
  | Ok _ => Counts n b u m (s + 1) f tr ts
  end.

Definition _summarize (pairs : list (Z * Z)) (outcomes : list (result outcome)) (titles : gmap Z string)
    (trunc : bool) : SyncCounts :=
  foldl (tally titles) (Counts (Z.of_nat (length pairs)) 0 0 0 0 0 trunc []) (combine pairs outcomes).

(** * __init__.py: the two runs *)

(** [sorted({g["chat_id"] for g in groups if g["chat_id"]})] *)
Definition chat_ids_of (groups : list doc) : list Z :=
  merge_sort Z.le (remove_dups (List.filter truthy_Z (map chat_of groups))).

(** The last title given to a chat counts. *)
Definition titles_of (groups : list doc) : gmap Z string :=
  foldl (fun m g => if truthy_Z (chat_of g)
                    then <[chat_of g := str_or (dget "title" g ≫= bstr) (py_str (chat_of g))]> m else m) ∅ groups.

(** A failed read of the mutes only skips them. *)
Definition mutes_or_none : io (list doc) := try_except active_mute_docs (fun _ => Ret []).

(** [{int(d["user_id"]): d.get("until_date") for d in mute_docs}] *)
Definition mute_until_of (mute_docs : list doc) : gmap Z (option Z) :=
  foldl (fun m d => <[dget_int "user_id" d 0 := until_of d]> m) ∅ mute_docs.

Definition mute_uids_of (mute_until : gmap Z (option Z)) : list Z :=
  merge_sort Z.le (List.filter truthy_Z (map fst (map_to_list mute_until))).

Definition sync_bans (pairs : list (Z * Z)) : io (list (result outcome)) :=
  match pairs with
  | [] => Ret []
  | _ => fan_out (map (fun p => _sync_ban_pair p.2 p.1) pairs)
  end.

Definition sync_mutes (until : Z -> option Z) (pairs : list (Z * Z)) : io (list (result outcome)) :=
  match pairs with
  | [] => Ret []
  | _ => fan_out (map (fun p => _sync_mute_pair p.2 p.1 (until p.1)) pairs)
  end.

Definition run_ban_sync (max_checks : Z) : io SyncCounts :=
  let! (groups_r, bans_r) := gather2 active_groups active_ban_user_ids in
  groups <- of_result groups_r ;;
  ban_uids <- of_result bans_r ;;
  mute_docs <- mutes_or_none ;;
  let chat_ids := chat_ids_of groups in
  let titles := titles_of groups in
  let (pairs, trunc) := take_pairs (merge_sort Z.le (map user_of ban_uids)) chat_ids max_checks in
  outcomes <- sync_bans pairs ;;
  let mute_until := mute_until_of mute_docs in
  let mute_uids := mute_uids_of mute_until in
  let (mute_pairs, mute_trunc) :=
    match mute_uids with
    | [] => ([], false)
    | _ => take_pairs mute_uids chat_ids (Z.max 0 (max_checks - Z.of_nat (length pairs)))
    end in
  mute_outcomes <- sync_mutes (fun uid => default None (mute_until !! uid)) mute_pairs ;;
  let pairs := pairs ++ mute_pairs in
  match pairs with
  | [] => Ret no_counts
  | _ => Ret (_summarize pairs (outcomes ++ mute_outcomes) titles (trunc || mute_trunc))
  end.

Definition verify_user (user_id : Z) : io SyncCounts :=
  let! (groups_r, ban_r) := gather2 active_groups (get_active_ban user_id) in
  groups <- of_result groups_r ;;
  ban <- of_result ban_r ;;
  mute <- try_except (get_active_mute user_id) (fun _ => Ret None) ;;
  let chat_ids := chat_ids_of groups in
  let titles := titles_of groups in
  let (pairs, trunc) := take_pairs [user_id] chat_ids _SYNC_MAX_CHECKS in
  match pairs with
  | [] => Ret no_counts
  | _ =>
      outcomes <- fan_out (map (fun p => match live (Ok ban) with
                                         | Some _ => _sync_ban_pair p.2 user_id
                                         | None => _sync_unban_pair p.2 user_id
                                         end) pairs) ;;
      let (mute_pairs, mute_trunc) :=
        match mute with
        | Some _ => take_pairs [user_id] chat_ids (Z.max 0 (_SYNC_MAX_CHECKS - Z.of_nat (length pairs)))
        | None => ([], false)
        end in
      mute_outcomes <- sync_mutes (fun _ => mute ≫= until_of) mute_pairs ;;
      Ret (_summarize (pairs ++ mute_pairs) (outcomes ++ mute_outcomes) titles
             (trunc || match mute_pairs with [] => false | _ => mute_trunc end))
  end.

(** The operator's summary. *)
Definition count_line (key : string) (locale : ustr) (n : Z) : text :=
  TKey ("syncing.summary." ++ key)%string locale [("n"%string, TBuild "code" [TInt n])].

Definition _render_summary (c : SyncCounts) (target : text) (locale : ustr) : text :=
  TCat ([TKey "syncing.summary.title" locale [("target"%string, target)];
         count_line "checked" locale (checked c); count_line "rebanned" locale (enforced_bans c);
         count_line "reunbanned" locale (enforced_unbans c); count_line "remuted" locale (enforced_mutes c);
         count_line "skipped" locale (skipped c); count_line "failed" locale (failed c)] ++
        (if truthy_Z (failed c) && negb (Nat.eqb (length (failed_titles c)) 0)
         then [TKey "syncing.summary.failing" locale [("sample"%string, TCat (map TStr (failed_titles c)))]] else []) ++
        (if truncated c then [TKey "syncing.summary.truncated" locale []] else [])).

(** * command.py *)

(** The summary, or what stands for it. *)
Definition sync_run (c : command) (args : list string) (locale : ustr) : io text :=
  match args with
  | _ :: _ =>
      target <- try_except (extract_target (c_incoming c) args true false) (fun _ => Ret None) ;;
      match target with
      | Some (target_id, _) =>
          if truthy_Z target_id then
            counts <- verify_user target_id ;;
            Ret (_render_summary counts (TKey "syncing.target.user" locale [("id"%string, TInt target_id)]) locale)
          else Raise (ValueError "unresolvable")
      | None => Raise (ValueError "unresolvable")
      end
  | [] =>
      counts <- run_ban_sync _SYNC_MAX_CHECKS ;;
      Ret (_render_summary counts (TKey "syncing.target.sweep" locale []) locale)
  end.

Definition sync_failure (exc : exn) (locale : ustr) : text :=
  match exc with
  | ValueError _ => TKey "common.err.cannot_resolve" locale []
  | _ => TKey "common.err.groups_load_failed" locale []
  end.

Definition cmd_sync_body (c : command) : io unit :=
  match effective_message (c_upd c) with
  | None => Ret tt
  | Some msg =>
      locale <- locale_for_update (c_upd c) ;;
      let args := args_of msg in
      status <- try_except (id <- call (ReplyText (message_id msg) (TKey "syncing.status.sending" locale []) None) ;; Ret (Some id))
                  (fun _ => Ret None) ;;
      text <- try_except (sync_run c args locale) (fun exc => Ret (sync_failure exc locale)) ;;
      edited <- match status with
                | Some id => try_except (call (EditMessageText (msg_chat_id msg) id text None) ;;; Ret true) (fun _ => Ret false)
                | None => Ret false
                end ;;
      if edited : bool then Ret tt else safe_reply msg text
  end.

Definition cmd_sync (c : command) := limited "cmd_sync" mod_only (cmd_sync_body c) (c_upd c).
End syncing.

(** * The pairs of a run *)

Lemma cross_in uids cids u c : In (u, c) (cross uids cids) <-> In u uids /\ In c cids.
Proof.
  unfold cross. rewrite in_flat_map. split.
  - intros (x & Hx & (y & [= <- <-] & Hy)%in_map_iff). done.
  - intros [Hu Hc]. exists u. split; [done|]. by apply in_map.
Qed.

Lemma cross_length uids cids : length (cross uids cids) = (length uids * length cids)%nat.
Proof.
  unfold cross. induction uids as [|u uids IH]; [done|]. simpl. by rewrite length_app, length_map, IH.
Qed.

Lemma take_pairs_spec uids cids n pairs trunc :
  take_pairs uids cids n = (pairs, trunc) ->
  (length pairs <= Z.to_nat n)%nat /\ (forall u c, In (u, c) pairs -> In u uids /\ In c cids) /\
  (trunc = false <-> pairs = cross uids cids).
Proof.
  unfold take_pairs. set (k := Z.to_nat (Z.max 0 n)). intros [= <- <-].
  assert (k = Z.to_nat n) as Hk by lia. rewrite length_firstn, cross_length. split_and!; [lia| |].
  - intros u c Hin. apply cross_in. rewrite <- (firstn_skipn k (cross uids cids)). apply in_or_app. by left.
  - rewrite Z.gtb_ltb, Z.ltb_ge. split.
    + intros Hle. apply firstn_all2. rewrite cross_length. lia.
    + intros Heq. apply (f_equal length) in Heq. rewrite length_firstn, cross_length in Heq. lia.
Qed.

(** * Accounting *)

Definition accounted (c : SyncCounts) : Z :=
  enforced_bans c + enforced_unbans c + enforced_mutes c + skipped c + failed c.

Lemma tally_keeps titles c row :
  checked (tally titles c row) = checked c /\ truncated (tally titles c row) = truncated c /\
  accounted (tally titles c row) = accounted c + 1 /\
  (Z.of_nat (length (failed_titles c)) = Z.min (Z.of_nat _FAILED_SAMPLE_N) (failed c) -> 0 <= failed c ->
   Z.of_nat (length (failed_titles (tally titles c row))) = Z.min (Z.of_nat _FAILED_SAMPLE_N) (failed (tally titles c row)) /\
   0 <= failed (tally titles c row)).
Proof.
  destruct c as [n b u m s f tr ts], row as [[uid cid] out]. unfold tally, accounted, sample, _FAILED_SAMPLE_N.
  assert (Z.of_nat (length ts) = Z.min 5 f -> 0 <= f ->
    Z.of_nat (length (if (length ts <? 5)%nat then ts ++ [title_in titles cid] else ts)) = Z.min 5 (f + 1) /\ 0 <= f + 1) as Hs.
  { intros Hl Hf. destruct (Nat.ltb_spec (length ts) 5); rewrite ?length_app; cbn [length]; lia. }
  destruct out as [[]|e]; cbn; split_and!; first [done|lia|exact Hs|auto].
Qed.

Section federation.
Context {CAT : Catalog}.

(** Telegram was asked about a member. *)
Definition obs_probe (o : obs eff) : bool :=
  match o with Obs ev _ => match ev with GetChatMember _ _ => true | _ => false end end.

Definition may_ban (m : doc) : bool := negb (one_of (status_of m) ["kicked"; "left"; "administrator"; "creator"]).
Definition may_unban (m : doc) : bool := one_of (status_of m) ["kicked"].
Definition may_mute (m : doc) : bool :=
  negb (one_of (status_of m) ["restricted"; "kicked"; "left"; "administrator"; "creator"]).

(** The membership that was seen allows the action. *)
Definition backed (t : trace eff) (a : action) : Prop :=
  match a with
  | ABan c u => existsb (obs_member c u may_ban) t = true
  | AUnban c u => existsb (obs_member c u may_unban) t = true
  | ARestrict c u _ _ => existsb (obs_member c u may_mute) t = true
  | ADecline _ _ => False
  end.

(** Every action of a run is of the kind [S] and backed by the run. *)
Definition sound (S : action -> Prop) (t : trace eff) : Prop := Forall (fun a => S a /\ backed t a) (actions t).

Lemma backed_sub t t' a : t `sublist_of` t' -> backed t a -> backed t' a.
Proof.
  intros Hsub. assert (forall f, existsb f t = true -> existsb f t' = true) as Hex.
  { intros f. rewrite !existsb_exists. intros (o & Ho & Hf). exists o. split; [|done].
    apply list_elem_of_In. apply list_elem_of_In in Ho. by eapply elem_of_sublist. }
  destruct a; cbn; auto.
Qed.

Lemma sound_none S t : actions t = [] -> sound S t.
Proof. unfold sound. by intros ->. Qed.

Lemma sound_interleave S t1 t2 t : sound S t1 -> sound S t2 -> interleave t1 t2 t -> sound S t.
Proof.
  intros H1 H2 Hi. unfold sound. rewrite (actions_interleave _ _ _ Hi).
  apply interleave_sublist in Hi as [Hs1 Hs2]. apply Forall_app.
  split; [eapply Forall_impl; [exact H1|]|eapply Forall_impl; [exact H2|]]; intros a [Ha Hb]; (split; [done|]).
  - exact (backed_sub _ _ _ Hs1 Hb).
  - exact (backed_sub _ _ _ Hs2 Hb).
Qed.

Lemma sound_app S t1 t2 : sound S t1 -> sound S t2 -> sound S (t1 ++ t2).
Proof. intros H1 H2. exact (sound_interleave S _ _ _ H1 H2 (interleave_app _ _)). Qed.

Lemma sound_weaken (S S' : action -> Prop) t : (forall a, S a -> S' a) -> sound S t -> sound S' t.
Proof. intros H Ht. eapply Forall_impl; [exact Ht|]. intros a [Ha Hb]. auto. Qed.

(** * One pair *)

(** A pair is asked about once, and acted on only as its membership allows. *)
Definition pair_post (S : action -> Prop) (t : trace eff) : Prop := (tcount obs_probe t <= 1)%nat /\ sound S t.

Lemma pair_spec (c u : Z) (ev : eff unit) (done_ : outcome) (a : action) (decide : doc -> bool) (p : doc -> io outcome) :
  (forall r, obs_action (Obs ev r) = Some a /\ obs_probe (Obs ev r) = false) ->
  (forall m r, decide m = true -> backed [Obs (GetChatMember c u) (Ok m); Obs ev r] a) ->
  (forall m, p m = enforce ev done_ \/ exists out, p m = Ret out) ->
  (forall m, p m = enforce ev done_ -> decide m = true) ->
  wp (probed <- _member_status c u ;;
      match probed with Err exc => Ret (refusal exc) | Ok m => p m end) (fun t _ => pair_post (eq a) t).
Proof.
  intros Hev Hback Hp Hdec. unfold _member_status. apply wp_bind, wp_bind, wp_attempt, wp_call.
  assert (forall r, pair_post (eq a) [Obs (GetChatMember c u) r]) as Hprobe.
  { intros r. split; [by rewrite tcount_cons, tcount_nil|]. by apply sound_none. }
  intros [m|e] _; cbn beta iota.
  - apply wp_ret. rewrite app_nil_r. destruct (Hp m) as [He|[out He]].
    2: { rewrite He. apply wp_ret. rewrite app_nil_r. apply Hprobe. }
    specialize (Hdec m He). rewrite He. unfold enforce. apply wp_try, wp_bind, wp_call.
    assert (forall r, pair_post (eq a) ([Obs (GetChatMember c u) (Ok m)] ++ [Obs ev r])) as Hact.
    { intros r. destruct (Hev r) as [Ha Hn]. split.
      - simpl. rewrite !tcount_cons, tcount_nil, Hn. cbn. lia.
      - unfold sound. rewrite actions_app, !actions_cons, Ha. repeat constructor. by apply Hback. }
    intros [[]|e] _; cbn beta iota.
    + apply wp_ret. apply Hact.
    + destruct (is_Exception e); [apply wp_ret|]; apply Hact.
  - destruct (is_Exception e); [apply wp_ret, wp_ret|apply wp_raise]; rewrite ?app_nil_r; apply Hprobe.
Qed.

Lemma ban_pair_spec c u : wp (_sync_ban_pair c u) (fun t _ => pair_post (eq (ABan c u)) t).
Proof.
  apply (pair_spec c u (BanChatMember c u) Enforced (ABan c u) may_ban); [done|..].
  - intros m r Hm. cbn [backed existsb obs_member]. by rewrite !Z.eqb_refl, Hm.
  - intros m. cbv zeta. repeat (case_match; eauto).
  - intros m. cbv zeta. unfold may_ban, one_of. cbn [existsb].
    destruct (String.eqb (status_of m) "kicked"); [done|]. destruct (String.eqb (status_of m) "left"); [done|].
    cbn [orb]. by destruct (_ || _).
Qed.

Lemma unban_pair_spec c u : wp (_sync_unban_pair c u) (fun t _ => pair_post (eq (AUnban c u)) t).
Proof.
  apply (pair_spec c u (UnbanChatMember c u true) Unenforced (AUnban c u) may_unban); [done|..].
  - intros m r Hm. cbn [backed existsb obs_member]. by rewrite !Z.eqb_refl, Hm.
  - intros m. case_match; eauto.
  - intros m. unfold may_unban, one_of. cbn [existsb]. by destruct (String.eqb (status_of m) "kicked").
Qed.

Lemma mute_pair_spec c u d : wp (_sync_mute_pair c u d) (fun t _ => pair_post (eq (ARestrict c u false d)) t).
Proof.
  apply (pair_spec c u (RestrictChatMember c u false d) Remuted (ARestrict c u false d) may_mute); [done|..].
  - intros m r Hm. cbn [backed existsb obs_member]. by rewrite !Z.eqb_refl, Hm.
  - intros m. cbv zeta. repeat (case_match; eauto).
  - intros m. cbv zeta. unfold may_mute, one_of. cbn [existsb].
    destruct (String.eqb (status_of m) "restricted"); [done|]. destruct (String.eqb (status_of m) "kicked"); [done|].
    cbn [orb]. destruct (String.eqb (status_of m) "left"); [done|]. cbn [orb]. by destruct (_ || _).
Qed.

(** * A fan-out over pairs *)
Lemma pairs_spec {A} (S : action -> Prop) (f : A -> io outcome) (a : A -> action) (xs : list A) :
  (forall x, In x xs -> S (a x)) -> (forall x, wp (f x) (fun t _ => pair_post (eq (a x)) t)) ->
  wp (fan_out (map f xs)) (fun t _ => (tcount obs_probe t <= length xs)%nat /\ sound S t).
Proof.
  intros HS Hf. apply wp_conj.
  - apply fan_out_counts; [intros o [Ho|[r ->]]; [by destruct o as [X [] r]|done]|].
    intros x _. eapply wp_mono; [apply Hf|]. by intros t r [Ht _].
  - apply fan_out_keeps; [apply sound_interleave| |by apply sound_none|].
    + intros o Ho. apply sound_none. destruct Ho as [Ho|[r ->]]; [by destruct o as [X [] r]|done].
    + intros p (x & <- & Hx)%in_map_iff. eapply wp_mono; [apply Hf|]. intros t r [_ Ht].
      eapply sound_weaken; [|exact Ht]. intros y <-. by apply HS.
Qed.
End federation.

(** A read whose failure stands for nothing. *)
Lemma or_default {A} (p : io A) (d : A) :
  wp (try_except p (fun _ => Ret d)) (fun t r => match r with Ok a => during p a t \/ a = d | Err _ => True end).
Proof.
  apply wp_try, wp_intro. intros t [a|e] Hrun; [left; by apply during_exec|].
  destruct (is_Exception e); [apply wp_ret; by right|done].
Qed.

(** * The sweep *)

(** A question about a member, or an action. *)
Definition obs_acting (o : obs eff) : bool := obs_probe o || obs_acts o.

Lemma acting_none t : Forall (fun o => obs_acting o = false) t -> tcount obs_probe t = 0%nat /\ actions t = [].
Proof.
  intros H. split; [apply tcount_zero|apply actions_none]; eapply Forall_impl; try exact H; by intros o [Hp Ha]%orb_false_iff.
Qed.

Definition ban_plan (groups : list doc) (bans : list bson) (n : Z) : list (Z * Z) :=
  (take_pairs (merge_sort Z.le (map user_of bans)) (chat_ids_of groups) n).1.

Definition mute_plan (groups mutes : list doc) (budget : Z) : list (Z * Z) :=
  match mute_uids_of (mute_until_of mutes) with
  | [] => []
  | uids => (take_pairs uids (chat_ids_of groups) (Z.max 0 budget)).1
  end.

Definition until_in (mutes : list doc) (uid : Z) : option Z := default None (mute_until_of mutes !! uid).

(** What a sweep read before it acted. *)
Definition sweep_reads (groups : list doc) (bans : list bson) (mutes : list doc) (t : trace eff) : Prop :=
  during active_groups groups t /\ during active_ban_user_ids bans t /\ (during active_mute_docs mutes t \/ mutes = []).

Section sweep.
Context {CAT : Catalog} (n : Z).

(** The parts of a sweep: reads, then the ban pairs, then the mute pairs in
    what is left of the budget. *)
Definition sweep_shape (t : trace eff) : Prop :=
  Forall (fun o => obs_acting o = false) t \/
  exists groups bans mutes t0 tb tm rb,
    t = t0 ++ tb ++ tm /\ Forall (fun o => obs_acting o = false) t0 /\ sweep_reads groups bans mutes t0 /\
    exec (sync_bans (ban_plan groups bans n)) tb rb /\
    (tm = [] \/ exists rm, exec (sync_mutes (until_in mutes)
                   (mute_plan groups mutes (n - Z.of_nat (length (ban_plan groups bans n))))) tm rm).

Lemma reads_calm : never obs_acting (gather2 active_groups active_ban_user_ids).
Proof. apply never_gather2; [apply groups_never; [by intros ? ? [X [] r]|done]|store_never]. Qed.

(** From the reads [t0] on. *)
Lemma acts_shape groups bans mutes t0 (k : list (result outcome) -> io SyncCounts) :
  Forall (fun o => obs_acting o = false) t0 -> sweep_reads groups bans mutes t0 ->
  (forall outcomes, exists fin : list (result outcome) -> SyncCounts,
     k outcomes = (mute_outcomes <- sync_mutes (until_in mutes)
                     (mute_plan groups mutes (n - Z.of_nat (length (ban_plan groups bans n)))) ;;
                   Ret (fin mute_outcomes))) ->
  wp (outcomes <- sync_bans (ban_plan groups bans n) ;; k outcomes) (fun t _ => sweep_shape (t0 ++ t)).
Proof.
  intros Hcalm Hreads Hk. apply wp_bind, wp_intro. intros t1 [ob|e] Hrun1.
  - destruct (Hk ob) as [fin ->]. apply wp_bind, wp_intro. intros t2 [om|e] Hrun2; [apply wp_ret; rewrite app_nil_r|];
      right; exists groups, bans, mutes, t0, t1, t2, (Ok ob); do 4 (split; [done|]); right; by eexists.
  - right. exists groups, bans, mutes, t0, t1, [], (Err e). rewrite app_nil_r. do 4 (split; [done|]). by left.
Qed.

Lemma sweep_has_shape : wp (run_ban_sync n) (fun t _ => sweep_shape t).
Proof.
  unfold run_ban_sync. apply wp_bind.
  eapply wp_mono; [exact (wp_conj _ _ _ reads_calm (gather2_runs _ _))|].
  intros t1 [[groups_r bans_r]|e] [Hcalm1 H1]; [|by left]. destruct H1 as [Hg Hb].
  apply wp_bind. destruct groups_r as [groups|e]; cbn [of_result]; [apply wp_ret|apply wp_raise; left; by rewrite app_nil_r].
  apply wp_bind. destruct bans_r as [bans|e]; cbn [of_result]; [apply wp_ret|apply wp_raise; left; by rewrite !app_nil_r].
  apply wp_bind, wp_intro. intros t2 r2 Hrun2. rewrite !app_nil_l.
  assert (never obs_acting mutes_or_none) as Hnever by (unfold mutes_or_none; store_never).
  pose proof (never_elim _ _ _ _ Hnever Hrun2) as Hcalm2.
  assert (Forall (fun o => obs_acting o = false) (t1 ++ t2)) as Hcalm by (by apply Forall_app).
  destruct r2 as [mutes|e]; [|left; exact Hcalm].
  assert (sweep_reads groups bans mutes (t1 ++ t2)) as Hreads.
  { split_and!; [by apply during_l|by apply during_l|].
    destruct (wp_elim _ _ _ _ (or_default active_mute_docs []) Hrun2); [left; by apply during_r|by right]. }
  cbv zeta. destruct (take_pairs (merge_sort Z.le (map user_of bans)) (chat_ids_of groups) n) as [pairs trunc] eqn:Hp.
  assert (pairs = ban_plan groups bans n) as -> by (unfold ban_plan; by rewrite Hp).
  apply (wp_mono _ (fun t _ => sweep_shape ((t1 ++ t2) ++ t))); [|intros t r H; by rewrite <- app_assoc in H].
  apply (acts_shape groups bans mutes); [done|done|]. intros outcomes. cbv zeta. unfold mute_plan.
  destruct (mute_uids_of (mute_until_of mutes)) as [|uid uids].
  - destruct (ban_plan groups bans n ++ _); [exists (fun _ => no_counts)|eexists (fun mo => _summarize _ _ _ _)]; reflexivity.
  - destruct (take_pairs (uid :: uids) _ _) as [mute_pairs mute_trunc]. cbn [fst].
    destruct (ban_plan groups bans n ++ _); [exists (fun _ => no_counts)|eexists (fun mo => _summarize _ _ _ _)]; reflexivity.
Qed.
End sweep.

Lemma sorted_in (l : list Z) x : In x (merge_sort Z.le l) <-> In x l.
Proof. rewrite <- !list_elem_of_In. by rewrite (merge_sort_Permutation Z.le l). Qed.

Lemma mute_until_in mutes u d :
  mute_until_of mutes !! u = Some d -> exists row, In row mutes /\ dget_int "user_id" row 0 = u /\ until_of row = d.
Proof.
  unfold mute_until_of. assert (forall m : gmap Z (option Z),
    foldl (fun m d => <[dget_int "user_id" d 0 := until_of d]> m) m mutes !! u = Some d ->
    m !! u = Some d \/ exists row, In row mutes /\ dget_int "user_id" row 0 = u /\ until_of row = d) as Hfold.
  { induction mutes as [|row mutes IH]; intros m; cbn [foldl]; [by left|]. intros [Hm|(r & Hr & H)]%IH.
    - destruct (decide (dget_int "user_id" row 0 = u)) as [Hu|Hu].
      + rewrite Hu, lookup_insert_eq in Hm. injection Hm as Hm. right. exists row. split_and!; [by left|done|done].
      + rewrite lookup_insert_ne in Hm by done. by left.
    - right. exists r. split; [by right|done]. }
  intros [H|H]%Hfold; [by rewrite lookup_empty in H|exact H].
Qed.

Lemma mute_uids_in mutes u :
  In u (mute_uids_of (mute_until_of mutes)) -> exists d, mute_until_of mutes !! u = Some d.
Proof.
  unfold mute_uids_of. intros Hu%(proj1 (sorted_in _ _)). apply filter_In in Hu as [Hu _]. apply in_map_iff in Hu as ([u' d] & <- & Hin).
  exists d. apply elem_of_map_to_list. by apply list_elem_of_In.
Qed.

(** The sanctions a sweep is for: an active ban or mute, in a connected chat. *)
Definition due (groups : list doc) (bans : list bson) (mutes : list doc) (a : action) : Prop :=
  exists c u, In c (chat_ids_of groups) /\
    ((a = ABan c u /\ In u (map user_of bans)) \/
     (exists row, In row mutes /\ dget_int "user_id" row 0 = u /\ a = ARestrict c u false (until_of row))).

Section sweep_sound.
Context {CAT : Catalog} (n : Z) (groups : list doc) (bans : list bson) (mutes : list doc).

Lemma ban_plan_in u c :
  In (u, c) (ban_plan groups bans n) -> In c (chat_ids_of groups) /\ In u (map user_of bans).
Proof.
  unfold ban_plan. destruct (take_pairs _ _ _) as [pairs trunc] eqn:Hp. cbn [fst].
  apply take_pairs_spec in Hp as (_ & Hin & _). intros [Hu Hc]%Hin. split; [done|]. exact (proj1 (sorted_in _ _) Hu).
Qed.

Lemma mute_plan_in u c budget :
  In (u, c) (mute_plan groups mutes budget) -> In c (chat_ids_of groups) /\ In u (mute_uids_of (mute_until_of mutes)).
Proof.
  unfold mute_plan. destruct (mute_uids_of _) as [|uid uids]; [done|].
  destruct (take_pairs _ _ _) as [pairs trunc] eqn:Hp. cbn [fst].
  apply take_pairs_spec in Hp as (_ & Hin & _). intros [Hu Hc]%Hin. done.
Qed.

Lemma plans_length :
  (length (ban_plan groups bans n) + length (mute_plan groups mutes (n - Z.of_nat (length (ban_plan groups bans n)))) <= Z.to_nat n)%nat.
Proof.
  assert ((length (ban_plan groups bans n) <= Z.to_nat n)%nat) as H1.
  { unfold ban_plan. destruct (take_pairs _ _ _) as [pairs trunc] eqn:Hp. by apply take_pairs_spec in Hp as (Hl & _ & _). }
  set (k := length (ban_plan groups bans n)) in *. unfold mute_plan. destruct (mute_uids_of _); [simpl; lia|].
  destruct (take_pairs _ _ _) as [pairs trunc] eqn:Hp. apply take_pairs_spec in Hp as (Hl & _ & _). cbn [fst]. lia.
Qed.

Lemma sync_bans_spec :
  wp (sync_bans (ban_plan groups bans n))
     (fun t _ => (tcount obs_probe t <= length (ban_plan groups bans n))%nat /\ sound (due groups bans mutes) t).
Proof.
  unfold sync_bans. pose proof ban_plan_in as Hin. destruct (ban_plan groups bans n) as [|p ps].
  { apply wp_ret. rewrite tcount_nil. split; [lia|by apply sound_none]. }
  apply (pairs_spec _ _ (fun p => ABan p.2 p.1)); [|intros; apply ban_pair_spec].
  intros [u c] [Hc Hu]%Hin. exists c, u. auto.
Qed.

Lemma sync_mutes_spec budget :
  wp (sync_mutes (until_in mutes) (mute_plan groups mutes budget))
     (fun t _ => (tcount obs_probe t <= length (mute_plan groups mutes budget))%nat /\ sound (due groups bans mutes) t).
Proof.
  unfold sync_mutes. pose proof (fun u c => mute_plan_in u c budget) as Hin.
  destruct (mute_plan groups mutes budget) as [|p ps].
  { apply wp_ret. rewrite tcount_nil. split; [lia|by apply sound_none]. }
  apply (pairs_spec _ _ (fun p => ARestrict p.2 p.1 false (until_in mutes p.1))); [|intros; apply mute_pair_spec].
  intros [u c] [Hc Hu]%Hin. apply mute_uids_in in Hu as [d Hd]. exists c, u. split; [done|]. right. unfold until_in.
  cbn [fst snd]. rewrite Hd. apply mute_until_in in Hd as (row & Hrow & Hid & <-). exists row. auto.
Qed.
End sweep_sound.

(** C32: what a sweep does.  It asks Telegram about at most [n] pairs, however
    many bans, mutes and chats there are; and whoever it bans or restricts has
    an active ban or mute among those it read, in a chat it read as connected,
    and was seen there with a membership that calls for it: never an
    administrator, never somebody who left. *)
Theorem sweep_sound {CAT : Catalog} (n : Z) (t : trace eff) (r : result SyncCounts)
    (Hrun : exec (run_ban_sync n) t r) :
  (tcount obs_probe t <= Z.to_nat n)%nat /\
  (actions t = [] \/ exists groups bans mutes, sweep_reads groups bans mutes t /\ sound (due groups bans mutes) t).
Proof.
  destruct (wp_elim _ _ _ _ (sweep_has_shape n) Hrun)
    as [[Hp Ha]%acting_none|(groups & bans & mutes & t0 & tb & tm & rb & -> & [Hp Ha]%acting_none & Hreads & Hb & Hm)].
  { split; [lia|by left]. }
  destruct (wp_elim _ _ _ _ (sync_bans_spec n groups bans mutes) Hb) as [Hpb Hsb].
  pose proof (plans_length n groups bans mutes) as Hlen.
  assert ((tcount obs_probe tm <= length (mute_plan groups mutes (n - Z.of_nat (length (ban_plan groups bans n)))))%nat /\
          sound (due groups bans mutes) tm) as [Hpm Hsm].
  { destruct Hm as [-> |[rm Hm]]; [rewrite tcount_nil; split; [lia|by apply sound_none]|].
    exact (wp_elim _ _ _ _ (sync_mutes_spec groups bans mutes _) Hm). }
  split; [rewrite !tcount_app; lia|]. right. exists groups, bans, mutes. split.
  - destruct Hreads as (Hg & Hbs & Hms). split_and!; [by apply during_l|by apply during_l|].
    destruct Hms; [left; by apply during_l|by right].
  - by apply sound_app; [apply sound_none|apply sound_app].
Qed.

(** The counts of a run add up: every pair is counted once, under exactly
    one heading, and the failing chats named are as many as there are failures,
    up to the cap. *)
Theorem summary_accounts (pairs : list (Z * Z)) (outcomes : list (result outcome)) (titles : gmap Z string) (trunc : bool)
    (Hlen : length outcomes = length pairs) :
  let c := _summarize pairs outcomes titles trunc in
  checked c = accounted c /\ checked c = Z.of_nat (length pairs) /\ truncated c = trunc /\
  Z.of_nat (length (failed_titles c)) = Z.min (Z.of_nat _FAILED_SAMPLE_N) (failed c).
Proof.
  cbv zeta. unfold _summarize. set (c0 := Counts _ 0 0 0 0 0 trunc []).
  assert (forall rows c, 0 <= failed c -> Z.of_nat (length (failed_titles c)) = Z.min (Z.of_nat _FAILED_SAMPLE_N) (failed c) ->
    let c' := foldl (tally titles) c rows in
    checked c' = checked c /\ truncated c' = truncated c /\ accounted c' = accounted c + Z.of_nat (length rows) /\
    Z.of_nat (length (failed_titles c')) = Z.min (Z.of_nat _FAILED_SAMPLE_N) (failed c')) as Hfold.
  { induction rows as [|row rows IH]; intros c Hf Hs; [cbn [foldl length]; rewrite Z.add_0_r; by split_and!|].
    destruct (tally_keeps titles c row) as (H1 & H2 & H3 & H4). destruct (H4 Hs Hf) as [H5 H6].
    destruct (IH _ H6 H5) as (I1 & I2 & I3 & I4). cbn [foldl length]. split_and!; [congruence|congruence|lia|exact I4]. }
  destruct (Hfold (combine pairs outcomes) c0 (Z.le_refl 0) eq_refl) as (H1 & H2 & H3 & H4).
  rewrite length_combine, Hlen, Nat.min_id in H3. rewrite H1, H2, H3. split_and!; [done|done|done|exact H4].
Qed.

(** * The sweep always asks about the same pairs *)
Definition obs_asks (chat_id uid : Z) (o : obs eff) : bool :=
  match o with Obs ev _ => match ev with GetChatMember c u => (c =? chat_id) && (u =? uid) | _ => false end end.

Lemma asks_calm c u t : Forall (fun o => obs_acting o = false) t -> existsb (obs_asks c u) t = false.
Proof.
  intros H. apply existsb_false_Forall. eapply Forall_impl; [exact H|]. intros [X [] r] Ho; done.
Qed.

Section asking.
Context {CAT : Catalog} (chat_id uid : Z).

Lemma pair_asks {A} (c u : Z) (p : result doc -> io A) :
  (c =? chat_id) && (u =? uid) = false -> (forall r, never (obs_asks chat_id uid) (p r)) ->
  never (obs_asks chat_id uid) (bind (_member_status c u) p).
Proof.
  intros Hne Hp. apply never_bind; [|exact Hp]. unfold _member_status. apply never_bind; [|intros r; never_auto].
  apply never_attempt, never_call. intros r. exact Hne.
Qed.

Lemma pairs_ask (f : Z * Z -> io outcome) (pairs : list (Z * Z)) :
  (forall p, exists k, f p = bind (_member_status p.2 p.1) k /\ forall r, never (obs_asks chat_id uid) (k r)) ->
  ~ In (uid, chat_id) pairs ->
  never (obs_asks chat_id uid) (match pairs with [] => Ret [] | _ => fan_out (map f pairs) end).
Proof.
  intros Hf Hnot. destruct pairs as [|p0 ps] eqn:Hps; [apply never_ret|]. rewrite <- Hps in *. clear Hps p0 ps.
  apply fan_out_never; [done..|]. intros p ([u c] & <- & Hin)%in_map_iff.
  destruct (Hf (u, c)) as (k & -> & Hk). apply pair_asks; [|exact Hk].
  cbn [fst snd]. destruct (Z.eqb_spec c chat_id) as [-> |]; [|done]. destruct (Z.eqb_spec u uid) as [-> |]; done.
Qed.

Lemma bans_ask pairs : ~ In (uid, chat_id) pairs -> never (obs_asks chat_id uid) (sync_bans pairs).
Proof.
  apply pairs_ask. intros p. eexists. split; [reflexivity|]. intros r. unfold enforce. never_auto.
Qed.

Lemma mutes_ask until pairs : ~ In (uid, chat_id) pairs -> never (obs_asks chat_id uid) (sync_mutes until pairs).
Proof.
  apply pairs_ask. intros p. eexists. split; [reflexivity|]. intros r. unfold enforce. never_auto.
Qed.
End asking.

(** The pairs a sweep asks about are a function of the rows it read, the first
    of their sorted product: over the same records every run asks about the
    same pairs, although the summary says that running it again continues the
    sweep. *)
Theorem sweep_asks_its_plan {CAT : Catalog} (n chat_id uid : Z) (t : trace eff) (r : result SyncCounts)
    (Hrun : exec (run_ban_sync n) t r) (Hasked : existsb (obs_asks chat_id uid) t = true) :
  exists groups bans mutes, sweep_reads groups bans mutes t /\
    (In (uid, chat_id) (ban_plan groups bans n) \/
     In (uid, chat_id) (mute_plan groups mutes (n - Z.of_nat (length (ban_plan groups bans n))))).
Proof.
  destruct (wp_elim _ _ _ _ (sweep_has_shape n) Hrun)
    as [Hcalm|(gs & bs & ms & t0 & tb & tm & rb & -> & Hcalm & (Hg & Hb & Hm) & Hrb & Hrm)].
  { by rewrite asks_calm in Hasked. }
  exists gs, bs, ms. split.
  { split_and!; [by apply during_l|by apply during_l|]. destruct Hm; [left; by apply during_l|by right]. }
  rewrite !existsb_app, asks_calm in Hasked by done. cbn [orb] in Hasked. apply orb_true_iff in Hasked as [Ha|Ha]; [left|right].
  - destruct (decide ((uid, chat_id) ∈ ban_plan gs bs n)) as [Hin|Hnot]; [by apply list_elem_of_In|].
    rewrite list_elem_of_In in Hnot.
    by rewrite (proj2 (existsb_false_Forall _ _) (never_elim _ _ _ _ (bans_ask chat_id uid _ Hnot) Hrb)) in Ha.
  - destruct Hrm as [-> |[rm Hrm]]; [done|].
    destruct (decide ((uid, chat_id) ∈ mute_plan gs ms (n - Z.of_nat (length (ban_plan gs bs n))))) as [Hin|Hnot];
      [by apply list_elem_of_In|].
    rewrite list_elem_of_In in Hnot.
    by rewrite (proj2 (existsb_false_Forall _ _) (never_elim _ _ _ _ (mutes_ask chat_id uid _ _ Hnot) Hrm)) in Ha.
Qed.

(** Telegram refused the ban. *)
Definition obs_refused (o : obs eff) : bool :=
  match o with
  | Obs ev r =>
      match ev in eff X return result X -> bool with
      | BanChatMember _ _ => fun r => match r with Err (BadRequest _) => true | _ => false end
      | _ => fun _ => false
      end r
  end.

(** Whatever Telegram refuses a ban with, the chat is counted as skipped: also
    when the bot lacks the right to ban, and the banned user stays. *)
Theorem refused_ban_is_skipped {CAT : Catalog} (chat_id uid : Z) (t : trace eff) (out : outcome)
    (titles : gmap Z string) (c : SyncCounts)
    (Hrun : exec (_sync_ban_pair chat_id uid) t (Ok out)) (Hrefused : existsb obs_refused t = true) :
  failed (tally titles c (uid, chat_id, Ok out)) = failed c.
Proof.
  assert (out = Absent) as ->; [|by destruct c].
  revert Hrefused. revert t Hrun. refine (wp_elim_ok _ _ (fun t => existsb obs_refused t = true -> out = Absent) _).
  unfold _sync_ban_pair, _member_status, enforce. apply wp_bind, wp_bind, wp_attempt, wp_call. intros [m|e] _; cbn beta iota.
  - apply wp_ret. cbv zeta. repeat (case_match; try by apply wp_ret). apply wp_try, wp_bind, wp_call. intros [u|e] _.
    + by apply wp_ret.
    + cbn beta iota. destruct (is_Exception e); [|done]. apply wp_ret. cbn. intros [= <-].
      destruct e; try discriminate. done.
  - destruct (is_Exception e); [by apply wp_ret, wp_ret|by apply wp_raise].
Qed.

Section verify.
Context {CAT : Catalog} (uid : Z).

(** What the records of a user call for, in some chat. *)
Definition user_due (ban : option doc) (mute : option doc) (a : action) : Prop :=
  exists c, (live (Ok ban) <> None /\ a = ABan c uid) \/ (live (Ok ban) = None /\ a = AUnban c uid) \/
            (exists row, mute = Some row /\ a = ARestrict c uid false (until_of row)).

Lemma own_pairs chats n : forall p, In p (take_pairs [uid] chats n).1 -> p.1 = uid.
Proof.
  destruct (take_pairs [uid] chats n) as [pairs trunc] eqn:Hp. apply take_pairs_spec in Hp as (_ & Hin & _).
  intros [u c] [[->|[]] _]%Hin. done.
Qed.

Lemma verify_pairs_spec ban mute pairs :
  wp (fan_out (map (fun p : Z * Z => match live (Ok ban) with
                             | Some _ => _sync_ban_pair p.2 uid
                             | None => _sync_unban_pair p.2 uid
                             end) pairs)) (fun t _ => sound (user_due ban mute) t).
Proof.
  eapply wp_mono; [apply (pairs_spec (user_due ban mute) _
    (fun p : Z * Z => match live (Ok ban) with Some _ => ABan p.2 uid | None => AUnban p.2 uid end))|by intros t r [_ H]].
  - intros p _. exists p.2. destruct (live (Ok ban)); [by left|by right; left].
  - intros p. destruct (live (Ok ban)); [apply ban_pair_spec|apply unban_pair_spec].
Qed.

Lemma verify_mutes_spec ban mute chats n :
  let mute_pairs := match mute with Some _ => (take_pairs [uid] chats n).1 | None => [] end in
  wp (sync_mutes (fun _ => mute ≫= (fun d => until_of d)) mute_pairs) (fun t _ => sound (user_due ban mute) t).
Proof.
  cbv zeta. unfold sync_mutes. destruct mute as [row|]; [|apply wp_ret; by apply sound_none].
  pose proof (own_pairs chats n) as Hown. destruct (take_pairs _ _ _).1 as [|p0 ps]; [apply wp_ret; by apply sound_none|].
  eapply wp_mono; [apply (pairs_spec (user_due ban (Some row)) _ (fun p : Z * Z => ARestrict p.2 p.1 false (until_of row)))|by intros t r [_ H]].
  - intros p ->%Hown. exists p.2. right; right. by exists row.
  - intros p. apply mute_pair_spec.
Qed.

Lemma verify_spec :
  wp (verify_user uid)
     (fun t _ => actions t = [] \/
        exists ban mute, during (get_active_ban uid) ban t /\ (during (get_active_mute uid) mute t \/ mute = None) /\
          sound (user_due ban mute) t).
Proof.
  assert (never obs_acting (gather2 active_groups (get_active_ban uid))) as Hcalm.
  { apply never_gather2; [apply groups_never; [by intros ? ? [X [] r]|done]|unfold get_active_ban; store_never]. }
  unfold verify_user. apply wp_bind. eapply wp_mono; [exact (wp_conj _ _ _ Hcalm (gather2_runs _ _))|].
  intros t1 [[groups_r ban_r]|e] [[_ H1]%acting_none Hr]; [|by left]. destruct Hr as [_ Hban].
  apply wp_bind. destruct groups_r as [groups|e]; cbn [of_result]; [apply wp_ret|apply wp_raise; left; by rewrite app_nil_r].
  apply wp_bind. destruct ban_r as [ban|e]; cbn [of_result]; [apply wp_ret|apply wp_raise; left; by rewrite !app_nil_r].
  assert (never obs_acting (try_except (get_active_mute uid) (fun _ => Ret None))) as Hcalm2
    by (unfold get_active_mute; store_never).
  apply wp_bind. eapply wp_mono; [exact (wp_conj _ _ _ Hcalm2 (or_default (get_active_mute uid) None))|].
  intros t2 [mute|e] [[_ H2]%acting_none Hm]; [|left; by rewrite !app_nil_l, actions_app, H1, H2].
  assert (forall t, sound (user_due ban mute) t -> actions (t1 ++ [] ++ [] ++ t2 ++ t) = [] \/
    exists ban mute, during (get_active_ban uid) ban (t1 ++ [] ++ [] ++ t2 ++ t) /\
      (during (get_active_mute uid) mute (t1 ++ [] ++ [] ++ t2 ++ t) \/ mute = None) /\
      sound (user_due ban mute) (t1 ++ [] ++ [] ++ t2 ++ t)) as Hdone.
  { intros t Ht. right. exists ban, mute. rewrite !app_nil_l. split_and!; [by apply during_l| |].
    - destruct Hm; [left; by apply during_r, during_l|by right].
    - apply sound_app; [by apply sound_none|]. by apply sound_app; [apply sound_none|]. }
  cbv zeta. pose proof (verify_mutes_spec ban mute (chat_ids_of groups)) as Hmutes.
  destruct (take_pairs [uid] (chat_ids_of groups) _SYNC_MAX_CHECKS) as [[|p0 ps] trunc];
    [apply wp_ret, Hdone; by apply sound_none|].
  apply wp_bind. eapply wp_mono; [apply (verify_pairs_spec ban mute)|].
  intros t3 [outs|e] H3; [|by apply Hdone].
  specialize (Hmutes (Z.max 0 (_SYNC_MAX_CHECKS - Z.of_nat (length (p0 :: ps))))). cbv zeta in Hmutes.
  assert (forall fin : list (Z * Z) -> bool -> list (result outcome) -> SyncCounts,
    wp (let (mute_pairs, mute_trunc) := match mute with
        | Some _ => take_pairs [uid] (chat_ids_of groups) (Z.max 0 (_SYNC_MAX_CHECKS - Z.of_nat (length (p0 :: ps))))
        | None => ([], false) end in
        mute_outcomes <- sync_mutes (fun _ => mute ≫= until_of) mute_pairs ;; Ret (fin mute_pairs mute_trunc mute_outcomes))
      (fun t _ => sound (user_due ban mute) t)) as Hlast.
  { intros fin. destruct mute as [row|]; [destruct (take_pairs _ _ _) as [mps mtr]|]; cbn [fst] in Hmutes;
      (apply wp_bind; eapply wp_mono; [exact Hmutes|]; intros t [mo|e] H; [apply wp_ret; by rewrite app_nil_r|exact H]). }
  eapply wp_mono; [apply (Hlast (fun mps mtr mo => _summarize ((p0 :: ps) ++ mps) (outs ++ mo) _ _))|].
  intros t4 r H4. apply Hdone. by apply sound_app.
Qed.
End verify.

(** Checking one user sanctions and frees nobody else: a ban for an active
    ban only, an unban only when there is none, a mute for an active mute; each
    where the membership Telegram reported calls for it. *)
Theorem verify_sound {CAT : Catalog} (uid : Z) (t : trace eff) (r : result SyncCounts)
    (Hrun : exec (verify_user uid) t r) (Hacts : actions t <> []) :
  exists ban mute, during (get_active_ban uid) ban t /\ (during (get_active_mute uid) mute t \/ mute = None) /\
    sound (user_due uid ban mute) t.
Proof. by destruct (wp_elim _ _ _ _ (verify_spec uid) Hrun). Qed.

(** * Concrete runs *)

(** One connected chat, where 31 and 33 are members and 32 an administrator;
    31 and 32 are banned, 33 is muted. *)
Definition sweep_script : script := fun X ev =>
  match ev in eff X return option (result X) with
  | Find "federated_groups" _ _ _ _ => Some (Ok [[("chat_id"%string, BInt (-100))]])
  | Distinct "bans" _ _ => Some (Ok [BInt 32; BInt 31])
  | Find "active_mutes" _ _ _ _ => Some (Ok [[("user_id"%string, BInt 33)]])
  | FindOne "bans" _ _ => Some (Ok (Some [("banned_user_id"%string, BInt 31)]))
  | GetChatMember _ 32 => Some (Ok [("status"%string, BStr "administrator")])
  | GetChatMember _ _ => Some (Ok [("status"%string, BStr "member")])
  | CbTryAcquire => Some (Ok true)
  | _ => None
  end.

Definition swept : trace eff * result SyncCounts := replay sweep_script (@run_ban_sync demo_catalog 200).

Example swept_counts :
  swept.2 = Ok (Counts 3 1 0 1 1 0 false []) /\ actions swept.1 = [ABan (-100) 31; ARestrict (-100) 33 false None].
Proof. vm_compute. done. Qed.

Lemma sweep_sound_witness : (tcount obs_probe swept.1 <= 200)%nat.
Proof. exact (proj1 (@sweep_sound demo_catalog 200 _ _ (replay_exec sweep_script (@run_ban_sync demo_catalog 200)))). Defined.

Lemma summary_accounts_witness :
  checked (_summarize [(31, -100); (32, -100)] [Ok Enforced; Ok Privileged] ∅ false) = 2.
Proof. exact (proj1 (proj2 (summary_accounts [(31, -100); (32, -100)] [Ok Enforced; Ok Privileged] ∅ false eq_refl))). Defined.

Lemma sweep_asks_its_plan_witness :
  exists groups bans mutes, sweep_reads groups bans mutes swept.1 /\
    (In (31, -100) (ban_plan groups bans 200) \/
     In (31, -100) (mute_plan groups mutes (200 - Z.of_nat (length (ban_plan groups bans 200))))).
Proof.
  apply (@sweep_asks_its_plan demo_catalog 200 (-100) 31 swept.1 swept.2 (replay_exec sweep_script (@run_ban_sync demo_catalog 200))).
  vm_compute. reflexivity.
Defined.

(** Of 201 banned users in one chat the last one is in no plan. *)
Example last_ban_unplanned :
  let bans := map (fun k => BInt (Z.of_nat k)) (seq 1 201) in
  let plan := ban_plan [[("chat_id"%string, BInt (-100))]] bans _SYNC_MAX_CHECKS in
  length plan = 200%nat /\ existsb (fun p => p.1 =? 200) plan = true /\ existsb (fun p => p.1 =? 201) plan = false.
Proof. vm_compute. done. Qed.

Definition verified : trace eff * result SyncCounts := replay sweep_script (@verify_user demo_catalog 31).

Lemma verify_sound_witness :
  exists ban mute, during (get_active_ban 31) ban verified.1 /\ (during (get_active_mute 31) mute verified.1 \/ mute = None) /\
    sound (user_due 31 ban mute) verified.1.
Proof.
  apply (@verify_sound demo_catalog 31 verified.1 verified.2 (replay_exec sweep_script (@verify_user demo_catalog 31))).
  vm_compute. discriminate.
Defined.

(** The bot may not ban in the chat. *)
Definition powerless_script : script := fun X ev =>
  match ev in eff X return option (result X) with
  | GetChatMember _ _ => Some (Ok [("status"%string, BStr "member")])
  | BanChatMember _ _ => Some (Err (BadRequest "Not enough rights to restrict/unrestrict chat member"))
  | _ => None
  end.

Lemma refused_ban_is_skipped_witness :
  failed (tally ∅ no_counts (31, -100, Ok Absent)) = 0.
Proof.
  refine (@refused_ban_is_skipped demo_catalog (-100) 31 (replay powerless_script (@_sync_ban_pair demo_catalog (-100) 31)).1 Absent ∅ no_counts
    (replay_exec powerless_script (@_sync_ban_pair demo_catalog (-100) 31)) _).
  vm_compute. reflexivity.
Defined.
