(* ===== verification/Maintenance.v ===== *)
(** Federation-wide commands of the staff: [tcbot/modules/maintenance]
    (cleanup.py, leave.py) and [tcbot/modules/broadcasting.py]. *)

From S2P Require Import Prelude Prog Text World I18n Dispatch Cache Locale Roles Replies Auth Records DemoteFlow BanFlow MuteFlow AppealReview JoinFlow Prefixes Extract Handler ConnectedFlow.

(** [grp.get("chat_id")] *)
Definition group_chat (grp : doc) : option Z := dget "chat_id" grp ≫= bint.

Definition is_true (r : result bool) : bool := match r with Ok b => b | Err _ => false end.

(** What came of leaving one group. *)
Record _LeaveResult := LeaveResult {
  lr_chat_id : Z;
  left : bool;
  deactivated : bool;
  log_sent : bool
}.

(** [_LeaveResult.ok] *)
Definition ok_leave (r : _LeaveResult) : bool := left r && deactivated r.

Definition partly_left (r : _LeaveResult) : bool := (left r || deactivated r) && negb (ok_leave r).

Definition count {A} (f : A -> bool) (l : list A) : Z := Z.of_nat (length (List.filter f l)).

(** The results that are results. *)
Definition ok_results {A} (rs : list (result A)) : list A :=
  omap (fun r => match r with Ok a => Some a | Err _ => None end) rs.

Section maintenance.
Context {CAT : Catalog} (cfg : config) (bot_id : Z).

Definition groups_failed (locale : ustr) : text := TKey "common.err.groups_load_failed" locale [].
Definition no_groups (locale : ustr) : text := TKey "common.err.no_connected_groups" locale [].

(** * cleanup.py *)
Definition _should_remove (grp : doc) : io bool :=
  match group_chat grp with
  | None => Ret true
  | Some chat_id =>
      if is_primary_group cfg (Some chat_id) then Ret false
      else try_except (m <- call (GetChatMember chat_id bot_id) ;; Ret (one_of (status_of m) ["left"; "kicked"]))
             (fun _ => Ret false)
  end.

(** [g for g, remove in zip(groups, checks) if remove is True] *)
Definition to_remove_of (groups : list doc) (checks : list (result bool)) : list doc :=
  map fst (List.filter (fun p => is_true p.2) (combine groups checks)).

Definition prune (to_remove : list doc) : io Z :=
  match to_remove with
  | [] => Ret 0
  | _ =>
      deact_results <- gather_bounded (map (fun g => deactivate_group (chat_of g)) to_remove) ;;
      Ret (count is_true deact_results)
  end.

Definition cmd_cleanup_body (c : command) : io unit :=
  match effective_message (c_upd c) with
  | None => Ret tt
  | Some msg =>
      locale <- locale_for_update (c_upd c) ;;
      groups <- try_except (gs <- active_groups ;; Ret (Some gs)) (fun _ => Ret None) ;;
      match groups with
      | None => safe_reply msg (groups_failed locale)
      | Some groups =>
          checks <- fan_out (map _should_remove groups) ;;
          deactivated <- prune (to_remove_of groups checks) ;;
          safe_reply msg (TKey "maintenance.cleanup.done" locale [("n"%string, TBuild "code" [TInt deactivated])])
      end
  end.

Definition cmd_cleanup (c : command) := limited "cmd_cleanup" staff_only (cmd_cleanup_body c) (c_upd c).

(** * leave.py *)
Definition _leave_one (admin_id : Z) (admin_name : string) (grp : doc) : io _LeaveResult :=
  match group_chat grp with
  | None => Ret (LeaveResult 0 false false false)
  | Some chat_id =>
      let title := dget_str "title" grp "Unknown" in
      let! (leave_result, deactivate_result, log_result) :=
        gather3 (call (LeaveChat chat_id)) (deactivate_group chat_id)
                (disconnected_log cfg chat_id title admin_id admin_name) in
      throw_if_cancelled [leave_result; void deactivate_result; void log_result] ;;;
      Ret (LeaveResult chat_id (negb (is_err leave_result)) (negb (is_err deactivate_result)) (negb (is_err log_result)))
  end.

(** The counts the status message ends with. *)
Definition leave_summary (groups : list doc) (all_results : list (result _LeaveResult)) (locale : ustr) : text :=
  let rs := ok_results all_results in
  let left_ok := count ok_leave rs in
  let partial := count partly_left rs in
  let log_failed := count (fun r => negb (log_sent r)) rs in
  let failed := Z.of_nat (length groups) - left_ok in
  TKey "maintenance.leaveall.done" locale
    [("ok"%string, TBuild "code" [TInt left_ok]); ("failed"%string, TBuild "code" [TInt failed]);
     ("detail"%string, TCat ((if truthy_Z partial then [TKey "maintenance.leaveall.partial" locale [("n"%string, TInt partial)]] else []) ++
        (if truthy_Z log_failed then [TKey "maintenance.leaveall.log_failed" locale [("n"%string, TInt log_failed)]] else [])))].

(** The groups to leave. *)
Definition leavable (all_groups : list doc) : list doc :=
  List.filter (fun g => negb (is_primary_group cfg (group_chat g))) all_groups.

Definition cmd_leaveall_body (c : command) : io unit :=
  let upd := c_upd c in
  match effective_user upd with
  | None => Ret tt
  | Some admin =>
      locale <- locale_for_update upd ;;
      all_groups <- try_except (gs <- active_groups ;; Ret (Some gs)) (fun _ => Ret None) ;;
      match all_groups with
      | None => reply_if (effective_message upd) (groups_failed locale)
      | Some all_groups =>
          match leavable all_groups with
          | [] => reply_if (effective_message upd) (no_groups locale)
          | groups =>
              status <- match effective_message upd with
                        | Some msg => try_except (id <- call (ReplyText (message_id msg)
                                        (TKey "maintenance.status.sending" locale
                                           [("n"%string, TInt (Z.of_nat (length groups)))]) None) ;; Ret (Some (msg_chat_id msg, id)))
                                        (fun _ => Ret None)
                        | None => Ret None
                        end ;;
              all_results <- fan_out (map (_leave_one admin (c_first_name c)) groups) ;;
              match status with
              | Some (chat, id) => suppress (call (EditMessageText chat id (leave_summary groups all_results locale) None))
              | None => Ret tt
              end
          end
      end
  end.

Definition cmd_leaveall (c : command) := limited "cmd_leaveall" owner_only (cmd_leaveall_body c) (c_upd c).

(** * broadcasting.py *)

(** [" ".join(args).strip() if args else None] *)
Definition broadcast_text (args : list string) : string := s_of (strip_ws (u (String.concat " " args))).

(** A malformed markup, as Telegram words it. *)
Definition is_parse_failure (exc : exn) : bool :=
  match exc with
  | BadRequest msg => contains (str_lower (u msg)) (u "can't parse entities")
  | _ => false
  end.

(** [reply]: the message the command replies to. *)
Definition _send_one (reply : option message) (txt : string) (grp : doc) : io unit :=
  match group_chat grp with
  | None => Ret tt
  | Some chat_id =>
      match reply with
      | Some m => call (ForwardMessage (msg_chat_id m) (message_id m) chat_id None) ;;; Ret tt
      | None =>
          if negb (truthy_str txt) then Ret tt
          else
            r <- attempt (call (SendMessage chat_id (TStr txt) None None)) ;;
            match r with
            | Ok _ => Ret tt
            | Err exc =>
                if is_parse_failure exc then call (SendMessage chat_id (TStr txt) None None) ;;; Ret tt else Raise exc
            end
      end
  end.

Definition preview_of (reply : option message) (txt : string) : text :=
  if truthy_str txt then TStr txt
  else match reply with
       | Some m => TStr (str_or (msg_text m) "media")
       | None => TStr ""
       end.

(** The status message, the fan-out, and the two reports of it. *)
Definition deliver (first_name : string) (reply : option message) (msg : message) (admin : Z) (txt : string)
    (locale : ustr) (groups : list doc) : io unit :=
  status <- try_except (id <- call (ReplyText (message_id msg) (TKey "broadcasting.send.sending" locale
              [("n"%string, TInt (Z.of_nat (length groups)))]) None) ;; Ret (Some id)) (fun _ => Ret None) ;;
  results <- fan_out (map (_send_one reply txt) groups) ;;
  let failed := count_transient_errors results in
  let success := Z.of_nat (length results) - failed in
  let (lc, lt) := cfg_logs cfg in
  let log := call (SendMessage lc (TBuild "parse_logmsg.broadcast_log"
               [TInt admin; TStr first_name; preview_of reply txt; TInt success; TInt failed]) lt None) in
  match status with
  | Some id =>
      gather2 (call (EditMessageText (msg_chat_id msg) id (TKey "broadcasting.send.done" locale
                 [("ok"%string, TBuild "code" [TInt success]); ("failed"%string, TBuild "code" [TInt failed])]) None)) log ;;;
      Ret tt
  | None => gather_list [log] ;;; Ret tt
  end.

Definition cmd_broadcast_body (c : command) (reply : option message) : io unit :=
  let upd := c_upd c in
  locale <- locale_for_update upd ;;
  match effective_message upd, effective_user upd with
  | Some msg, Some admin =>
      let txt := broadcast_text (args_of msg) in
      if negb (truthy_str txt) && negb (match reply with Some _ => true | None => false end)
      then safe_reply msg (TKey "broadcasting.send.no_content" locale [])
      else
        groups <- try_except (gs <- active_groups ;; Ret (Some gs)) (fun _ => Ret None) ;;
        match groups with
        | None => safe_reply msg (groups_failed locale)
        | Some [] => safe_reply msg (no_groups locale)
        | Some groups => deliver (c_first_name c) reply msg admin txt locale groups
        end
  | _, _ => Ret tt
  end.

Definition cmd_broadcast (c : command) (reply : option message) :=
  limited "cmd_broadcast" staff_only (cmd_broadcast_body c reply) (c_upd c).
End maintenance.

(** * Fan-outs whose results speak of the run *)

Section fan_out_rel.
Context {A T : Type} (f : A -> io T) (R : A -> trace eff -> result T -> Prop).
Context (Hmono : forall x t t' r, t `sublist_of` t' -> R x t r -> R x t' r).

Lemma gather_list_rel (slot : io T -> io (result T)) (xs : list A) :
  (forall x, In x xs -> wp (slot (f x)) (fun t r => R x t (flatten r))) ->
  wp (gather_list (map slot (map f xs)))
     (fun t r => match r with Ok rs => Forall2 (fun x r => R x t (flatten r)) xs rs | Err _ => True end).
Proof.
  intros Hf. induction xs as [|x xs IH]; cbn [gather_list map]; [apply wp_ret; constructor|].
  apply wp_bind. eapply wp_gather2; [apply Hf; by left|apply IH; intros y Hy; apply Hf; by right|].
  cbn beta iota. intros t1 t2 t r1 r2 H1 H2 [Hs1 Hs2]%interleave_sublist. split; [|done]. apply wp_bind.
  destruct r2 as [rs|e]; [apply wp_ret, wp_ret|by apply wp_raise]. rewrite !app_nil_r. constructor.
  - exact (Hmono _ _ _ _ Hs1 H1).
  - eapply Forall2_impl; [exact H2|]. intros y r. by apply Hmono.
Qed.

(** One result for each, in order; a slot the breaker refused is an error. *)
Lemma fan_out_rel (xs : list A) :
  (forall x t, R x t (Err CircuitOpenError)) ->
  (forall x, In x xs -> wp (f x) (R x)) ->
  wp (fan_out (map f xs))
     (fun t r => match r with Ok rs => Forall2 (fun x r => R x t r) xs rs | Err _ => True end).
Proof.
  intros Hopen Hf. unfold fan_out. destruct (map f xs) as [|c0 cs] eqn:He.
  { apply wp_ret. destruct xs; [constructor|done]. }
  rewrite <- He. clear He c0 cs. apply wp_bind. eapply wp_mono; [apply (gather_list_rel fan_out_slot)|].
  - intros x Hx. unfold fan_out_slot. do 2 wp_step. destruct x0; cbn [negb]; [|apply wp_ret; apply Hopen].
    do 2 wp_step. eapply wp_mono; [by apply Hf|]. intros t r HR.
    assert (forall o, R x ([Obs CbTryAcquire (Ok true)] ++ t ++ [o]) r) as Ht.
    { intros o. eapply Hmono; [|exact HR]. by apply sublist_inserts_l, sublist_inserts_r. }
    destruct r as [v|[]]; cbn [is_NetworkError is_BadRequest is_Exception];
      do 2 wp_step; destruct x0; wp_step; rewrite ?app_nil_r; apply Ht.
  - intros t [rs|e] Ht; [|done]. apply wp_bind, throw_if_cancelled_spec.
    destruct (existsb is_cancel _); [done|]. apply wp_ret. rewrite app_nil_r. by apply Forall2_fmap_r.
Qed.
End fan_out_rel.

(** * Pruning *)

(** The bot is no member any more. *)
Definition gone (member : doc) : bool := one_of (status_of member) ["left"; "kicked"].

(** The row of a group is made inactive. *)
Definition obs_withdraws (chat_id : Z) (o : obs eff) : bool :=
  match o with
  | Obs ev _ =>
      match ev with UpdateOne "federated_groups" [("chat_id", BInt c)] _ false => c =? chat_id | _ => false end
  end.

Lemma existsb_sublist {A} (f : A -> bool) l l' : l `sublist_of` l' -> existsb f l = true -> existsb f l' = true.
Proof.
  intros Hsub. rewrite !existsb_exists. intros (x & Hx & Hf). exists x. split; [|done].
  apply list_elem_of_In. apply list_elem_of_In in Hx. by eapply elem_of_sublist.
Qed.

Section pruning.
Context {CAT : Catalog} (cfg : config) (bot_id : Z).

(** Why a group may be pruned. *)
Definition removable (grp : doc) (t : trace eff) : Prop :=
  match group_chat grp with
  | None => True
  | Some chat_id => is_primary_group cfg (Some chat_id) = false /\ existsb (obs_member chat_id bot_id gone) t = true
  end.

Lemma removable_mono grp t t' : t `sublist_of` t' -> removable grp t -> removable grp t'.
Proof.
  unfold removable. destruct (group_chat grp); [|done]. intros Hs [Hp He]. split; [done|]. by eapply existsb_sublist.
Qed.

Lemma should_remove_spec grp :
  wp (_should_remove cfg bot_id grp) (fun t r => is_true r = true -> removable grp t).
Proof.
  unfold _should_remove, removable. destruct (group_chat grp) as [chat|]; [|by apply wp_ret].
  destruct (is_primary_group cfg (Some chat)); [by apply wp_ret|].
  apply wp_try, wp_bind, wp_call. intros [m|e] _; cbn beta iota.
  - apply wp_ret. cbn [is_true]. intros Hm. cbn [existsb app obs_member]. unfold gone. by rewrite !Z.eqb_refl, Hm.
  - destruct (is_Exception e); [by apply wp_ret|done].
Qed.

Lemma to_remove_spec groups checks t :
  Forall2 (fun g r => is_true r = true -> removable g t) groups checks ->
  forall g, In g (to_remove_of groups checks) -> In g groups /\ removable g t.
Proof.
  intros HF g ([g' r] & <- & [Hin Hr]%filter_In)%in_map_iff. cbn [fst snd] in *. split; [by eapply in_combine_l|].
  revert Hin Hr. induction HF as [|x y xs ys H _ IH]; [done|]. intros [[= -> ->]|Hin]; auto.
Qed.

Lemma withdraw_never chat grp :
  chat_of grp <> chat -> never (obs_withdraws chat) (deactivate_group (chat_of grp)).
Proof.
  intros Hne. unfold deactivate_group, put, invalidate, redis_put_background, redis_del_background, db_call. never_auto.
  apply never_call. intros r. cbn. by apply Z.eqb_neq.
Qed.

Lemma prune_spec chat gs :
  wp (prune gs) (fun t _ => existsb (obs_withdraws chat) t = true -> exists g, In g gs /\ chat_of g = chat).
Proof.
  destruct (existsb (fun g => chat_of g =? chat) gs) eqn:Hex.
  { apply wp_intro. intros t r _ _. apply existsb_exists in Hex as (g & Hg & Hc%Z.eqb_eq). eauto. }
  apply calm_absent. unfold prune. destruct gs as [|g0 gs0] eqn:He; [apply never_ret|]. rewrite <- He in *. clear He g0 gs0.
  apply never_bind; [|intros; apply never_ret]. unfold gather_bounded.
  destruct (map _ gs) eqn:Hm; [apply never_ret|]. rewrite <- Hm. clear Hm.
  apply never_bind; [|intros; cbv zeta; apply never_bind; [apply throw_never|intros; apply never_ret]].
  apply never_gather_list, Forall_map, Forall_map, Forall_forall. intros g Hg%list_elem_of_In. unfold gather_bounded_slot.
  apply never_bind; [apply never_attempt, withdraw_never|intros; never_auto].
  intros Hc. apply existsb_false_Forall in Hex. rewrite List.Forall_forall in Hex. specialize (Hex g Hg). by rewrite Hc, Z.eqb_refl in Hex.
Qed.
End pruning.

Section cleanup.
Context {CAT : Catalog} (cfg : config) (bot_id : Z).

(** A pruned group is a connected one, and removable. *)
Definition pruned (chat : Z) (t : trace eff) : Prop :=
  exists groups g, during active_groups groups t /\ In g groups /\ chat_of g = chat /\ removable cfg bot_id g t.

Lemma pruned_sub chat t t' : t `sublist_of` t' -> pruned chat t -> pruned chat t'.
Proof.
  intros Hs (gs & g & (u & Hu & Hd) & Hg & Hc & Hr). exists gs, g.
  split_and!; [exists u; split; [by etrans|done]|done|done|by eapply removable_mono].
Qed.

(** The groups, when they can be read. *)
Lemma groups_read :
  wp (try_except (gs <- active_groups ;; Ret (Some gs)) (fun _ => Ret None))
     (fun t r => match r with Ok (Some gs) => during active_groups gs t | _ => True end).
Proof.
  apply wp_try, wp_bind, wp_intro. intros t [gs|e] Hrun; [apply wp_ret; rewrite app_nil_r; by apply during_exec|].
  destruct (is_Exception e); [by apply wp_ret|done].
Qed.

Lemma should_remove_never chat grp : never (obs_withdraws chat) (_should_remove cfg bot_id grp).
Proof. unfold _should_remove. never_auto. Qed.

(** The checks and the pruning, the groups read. *)
Lemma checks_prune chat msg locale groups t0 :
  during active_groups groups t0 ->
  wp (checks <- fan_out (map (_should_remove cfg bot_id) groups) ;;
      deactivated <- prune (to_remove_of groups checks) ;;
      safe_reply msg (TKey "maintenance.cleanup.done" locale [("n"%string, TBuild "code" [TInt deactivated])]))
     (fun t _ => existsb (obs_withdraws chat) t = true -> pruned chat (t0 ++ t)).
Proof.
  intros Hg. apply (calm_before _ _ _ (fun t => pruned chat (t0 ++ t))).
  { apply fan_out_never; [done..|]. intros p (g & <- & _)%in_map_iff. apply should_remove_never. }
  intros t1 checks Hrun.
  assert (Forall2 (fun g r => is_true r = true -> removable cfg bot_id g t1) groups checks) as Hrel.
  { refine (wp_elim _ _ _ _ (fan_out_rel (_should_remove cfg bot_id) (fun g t r => is_true r = true -> removable cfg bot_id g t)
      _ groups _ _) Hrun); [|done|intros g _; apply should_remove_spec].
    intros g t t' r Hs H Hr. by eapply removable_mono, H. }
  apply wp_bind. eapply wp_mono; [apply (prune_spec chat)|]. intros t2 r H2.
  assert (existsb (obs_withdraws chat) t2 = true -> forall t3, pruned chat (t0 ++ t1 ++ t2 ++ t3)) as Hdone.
  { intros (g & Hin & Hc)%H2 t3. destruct (to_remove_spec _ _ _ _ _ Hrel g Hin) as [Hgs Hrem]. exists groups, g.
    split_and!; [by apply during_l|done|done|]. eapply removable_mono; [|exact Hrem].
    by apply sublist_inserts_l, sublist_inserts_r. }
  destruct r as [d|e]; [|intros Hex; specialize (Hdone Hex []); by rewrite app_nil_r in Hdone].
  eapply wp_mono; [apply (reply_never (obs_withdraws chat)); by intros [X [] r]|].
  intros t3 r Ht3 Hex. rewrite existsb_app, (proj2 (existsb_false_Forall _ _) Ht3), orb_false_r in Hex. by apply Hdone.
Qed.

Lemma cleanup_prunes chat c :
  wp (cmd_cleanup_body cfg bot_id c) (fun t _ => existsb (obs_withdraws chat) t = true -> pruned chat t).
Proof.
  assert (forall o, obs_talk o = true -> obs_withdraws chat o = false) as Htalk by (intros [X [] r]; done).
  unfold cmd_cleanup_body. destruct (effective_message _) as [msg|]; [|apply calm_absent, never_ret].
  apply calm_before; [apply locale_for_update_never; by intros [X [] r]|]. intros t1 locale _.
  apply (calm_before _ _ _ (fun t => pruned chat (t1 ++ t))).
  { never_auto. apply groups_never; [by intros ? ? [X [] r]|done]. }
  intros t2 [groups|] Hrun; [|by apply calm_absent, reply_never].
  eapply wp_mono; [apply (checks_prune chat msg locale groups t2); exact (wp_elim _ _ _ _ groups_read Hrun)|].
  intros t3 r H Hex. eapply pruned_sub; [|by apply H]. by apply sublist_inserts_l.
Qed.
End cleanup.

(** Pruning makes a group inactive only when the list of connected groups
    has it and Telegram said of the bot itself that it left the chat or was
    banned from it (or the row names no chat at all): an error of the lookup,
    a refused slot and a primary group keep the group. *)
Theorem cleanup_sound {CAT : Catalog} (cfg : config) (bot_id chat : Z) (c : command) (t : trace eff) (r : result unit)
    (Hrun : exec (cmd_cleanup_body cfg bot_id c) t r) (Hpruned : existsb (obs_withdraws chat) t = true) :
  exists groups g, during active_groups groups t /\ In g groups /\ chat_of g = chat /\
    match group_chat g with
    | None => True
    | Some chat_id => is_primary_group cfg (Some chat_id) = false /\ existsb (obs_member chat_id bot_id gone) t = true
    end.
Proof. exact (wp_elim _ _ _ _ (cleanup_prunes cfg bot_id chat c) Hrun Hpruned). Qed.

(** * Leaving *)

(** A leave that counts: Telegram let the bot go. *)
Definition obs_left (chat_id : Z) (o : obs eff) : bool :=
  match o with
  | Obs ev r =>
      match ev in eff X return result X -> bool with
      | LeaveChat c => fun r => (c =? chat_id) && negb (is_err r)
      | _ => fun _ => false
      end r
  end.

(** No leave is counted as done that Telegram did not confirm. *)
Lemma leave_one_left {CAT : Catalog} (cfg : config) (admin : Z) (name : string) (grp : doc) :
  wp (_leave_one cfg admin name grp)
     (fun t r => match r with
                 | Ok lr => ok_leave lr = true -> existsb (obs_left (lr_chat_id lr)) t = true
                 | Err _ => True
                 end).
Proof.
  unfold _leave_one. destruct (group_chat grp) as [chat|]; [|by apply wp_ret]. cbv zeta. apply wp_bind.
  eapply wp_gather3; [apply (wp_call _ (fun t r => is_err r = false -> existsb (obs_left chat) t = true))|apply wp_exec..|].
  { intros [u|e] _; cbn; [by rewrite Z.eqb_refl|done]. }
  intros t1 t2 t3 t23 t r1 r2 r3 H1 _ _ _ Hi. split; [|done]. apply wp_bind, throw_if_cancelled_spec.
  destruct (existsb is_cancel _); [done|]. apply wp_ret. cbn [ok_leave left lr_chat_id]. rewrite !app_nil_r.
  unfold ok_leave. cbn. intros [Hl%negb_true_iff _]%andb_true_iff. rewrite (interleave_existsb _ _ _ _ Hi), (H1 Hl). done.
Qed.

(** No row matched: the group stays as it was, and still counts as left. *)
Definition unmatched_script : script := fun X ev =>
  match ev in eff X return option (result X) with
  | UpdateOne "federated_groups" _ _ _ => Some (Ok (UpdateResult 0 0 false))
  | _ => None
  end.

(** Only an exception makes a deactivation a failed one: a leave whose row was
    not found, so that nothing was made inactive, counts as done. *)
Theorem unmatched_leave_counts :
  exists t lr, exec (_leave_one demo_config 7 "Ann" [("chat_id"%string, BInt (-100))]) t (Ok lr) /\
    ok_leave lr = true /\ existsb (obs_withdrawn (-100)) t = false.
Proof.
  exists (replay unmatched_script (_leave_one demo_config 7 "Ann" [("chat_id"%string, BInt (-100))])).1,
    (LeaveResult (-100) true true true).
  split; [exact (replay_exec unmatched_script _)|]. by vm_compute.
Qed.

(** * Broadcasting *)

(** A message or a forward into the chat. *)
Definition obs_delivers (chat_id : Z) (o : obs eff) : bool :=
  match o with
  | Obs ev _ => match ev with SendMessage c _ _ _ => c =? chat_id | ForwardMessage _ _ c _ => c =? chat_id | _ => false end
  end.

(** A plain text is sent. *)
Definition obs_text (o : obs eff) : bool :=
  match o with Obs ev _ => match ev with SendMessage _ (TStr _) _ _ => true | _ => false end end.

Section broadcast.
Context {CAT : Catalog} (cfg : config) (c : command) (reply : option message).

(** What no delivery and no report does. *)
Lemma deliver_never (f : obs eff -> bool) name msg admin txt locale groups :
  (forall o, obs_talk o = true -> f o = false) ->
  (forall r, f (Obs CbTryAcquire r) = false) -> (forall r, f (Obs CbRecordSuccess r) = false) ->
  (forall r, f (Obs CbRecordFailure r) = false) -> (forall r, f (Obs CbReleaseProbe r) = false) ->
  (forall args lt r, f (Obs (SendMessage (cfg_logs cfg).1 (TBuild "parse_logmsg.broadcast_log" args) lt None) r) = false) ->
  (forall g, In g groups -> never f (_send_one reply txt g)) ->
  never f (deliver cfg name reply msg admin txt locale groups).
Proof.
  intros Htalk B1 B2 B3 B4 Hlog Hall. unfold deliver. destruct (cfg_logs cfg) as [lc lt]. cbn [fst] in Hlog.
  apply never_bind; [never_auto; by apply never_call; intros; apply Htalk|]. intros status.
  apply never_bind; [apply fan_out_never; [done..|]; intros p (g & <- & Hg)%in_map_iff; by apply Hall|]. intros results.
  cbv zeta. assert (forall args, never f (call (SendMessage lc (TBuild "parse_logmsg.broadcast_log" args) lt None))) as Hlogs
    by (intros; apply never_call; intros; apply Hlog).
  destruct status; (apply never_bind; [|intros; apply never_ret]).
  - apply never_gather2; [apply never_call; intros; by apply Htalk|apply Hlogs].
  - apply never_gather_list. repeat constructor. apply Hlogs.
Qed.

(** A command that delivers nothing, up to the groups. *)
Lemma broadcast_calm (f : obs eff -> bool) (Q : trace eff -> Prop) :
  (forall o, obs_talk o = true -> f o = false) -> (forall o, obs_locale o = true -> f o = false) ->
  never f (try_except (gs <- active_groups ;; Ret (Some gs)) (fun _ => Ret None)) ->
  (forall t t', t `sublist_of` t' -> Q t -> Q t') ->
  (forall msg admin txt locale groups t0, during active_groups groups t0 ->
     wp (deliver cfg (c_first_name c) reply msg admin txt locale groups) (fun t _ => existsb f t = true -> Q (t0 ++ t))) ->
  wp (cmd_broadcast_body cfg c reply) (fun t _ => existsb f t = true -> Q t).
Proof.
  intros Htalk Hloc Hgs Hmono Hdel. unfold cmd_broadcast_body. cbv zeta.
  apply calm_before; [by apply locale_for_update_never|]. intros t1 locale _.
  destruct (effective_message _) as [msg|]; [|apply (calm_absent f _ (fun t => Q (t1 ++ t))), never_ret].
  destruct (effective_user _) as [admin|]; [|apply (calm_absent f _ (fun t => Q (t1 ++ t))), never_ret].
  destruct (_ && _); [by apply (calm_absent f _ (fun t => Q (t1 ++ t))), reply_never|].
  apply (calm_before f _ _ (fun t => Q (t1 ++ t))); [exact Hgs|].
  intros t2 [[|g0 gs]|] Hrun; try by apply (calm_absent f _ (fun t => Q (t1 ++ t2 ++ t))), reply_never.
  eapply wp_mono; [apply (Hdel msg admin _ locale (g0 :: gs) t2); exact (wp_elim _ _ _ _ groups_read Hrun)|].
  intros t3 r H Hex. eapply Hmono; [|by apply H]. by apply sublist_inserts_l.
Qed.

Lemma send_one_never chat txt g : group_chat g <> Some chat -> never (obs_delivers chat) (_send_one reply txt g).
Proof.
  intros Hne. unfold _send_one. destruct (group_chat g) as [c'|]; [|apply never_ret].
  assert ((c' =? chat) = false) as Hc by (apply Z.eqb_neq; congruence). never_auto; by apply never_call.
Qed.

Lemma broadcast_scope chat :
  (cfg_logs cfg).1 <> chat ->
  wp (cmd_broadcast_body cfg c reply)
     (fun t _ => existsb (obs_delivers chat) t = true ->
        exists groups g, during active_groups groups t /\ In g groups /\ group_chat g = Some chat).
Proof.
  intros Hlog. apply broadcast_calm.
  - by intros [X [] r].
  - by intros [X [] r].
  - never_auto. apply groups_never; [by intros ? ? [X [] r]|done].
  - intros t t' Hs (gs & g & (u0 & Hu & Hd) & H). exists gs, g. split; [exists u0; split; [by etrans|done]|done].
  - intros msg admin txt locale groups t0 Hread.
    destruct (existsb (fun g => bool_decide (group_chat g = Some chat)) groups) eqn:Hex.
    + apply existsb_exists in Hex as (g & Hg & Hc%bool_decide_eq_true). apply wp_intro. intros t r _ _.
      exists groups, g. split; [by apply during_l|done].
    + apply (calm_absent _ _ (fun t => exists groups g, during active_groups groups (t0 ++ t) /\ In g groups /\ group_chat g = Some chat)).
      apply deliver_never; try done; [by intros [X [] r]|intros; cbn; by apply Z.eqb_neq|].
      intros g Hg. apply send_one_never. intros Hc. apply existsb_false_Forall in Hex. rewrite List.Forall_forall in Hex.
      specialize (Hex g Hg). by rewrite bool_decide_eq_false, Hc in Hex.
Qed.
End broadcast.

(** A broadcast goes to the connected groups: every chat but the log
    channel that gets anything of it is one the list of groups has. *)
Theorem broadcast_to_groups {CAT : Catalog} (cfg : config) (c : command) (reply : option message) (chat : Z)
    (t : trace eff) (r : result unit) (Hrun : exec (cmd_broadcast_body cfg c reply) t r)
    (Hlog : (cfg_logs cfg).1 <> chat) (Hsent : existsb (obs_delivers chat) t = true) :
  exists groups g, during active_groups groups t /\ In g groups /\ group_chat g = Some chat.
Proof. exact (wp_elim _ _ _ _ (broadcast_scope cfg c reply chat Hlog) Hrun Hsent). Qed.

(** A command that quotes a message and has a text forwards the message and
    sends the text to nobody, while the log card shows the text as what was
    broadcast. *)
Theorem quoted_text_unsent {CAT : Catalog} (cfg : config) (c : command) (m : message) (txt : string)
    (t : trace eff) (r : result unit) (Hrun : exec (cmd_broadcast_body cfg c (Some m)) t r) (Htxt : truthy_str txt = true) :
  existsb obs_text t = false /\ preview_of (Some m) txt = TStr txt.
Proof.
  split; [|unfold preview_of; by rewrite Htxt].
  destruct (existsb obs_text t) eqn:Hex; [|done].
  destruct (wp_elim _ _ _ _ (broadcast_calm cfg c (Some m) obs_text (fun _ => False) ltac:(by intros [X [] r'])
    ltac:(by intros [X [] r']) ltac:(never_auto; apply groups_never; [by intros ? ? [X [] r']|done]) ltac:(done)
    ltac:(intros msg admin txt' locale groups t0 _; apply (calm_absent obs_text _ (fun _ => False));
          apply deliver_never; try done; [by intros [X [] r']|]; intros g _; unfold _send_one; never_auto)) Hrun Hex).
Qed.

(** * Concrete runs *)

(** Three groups; the bot left one of them, another cannot be asked. *)
Definition groups_script : script := fun X ev =>
  match ev in eff X return option (result X) with
  | Find "federated_groups" _ _ _ _ =>
      Some (Ok [[("chat_id"%string, BInt (-100))]; [("chat_id"%string, BInt (-200))]; [("chat_id"%string, BInt (-300))]])
  | GetChatMember (-100) _ => Some (Ok [("status"%string, BStr "administrator")])
  | GetChatMember (-200) _ => Some (Ok [("status"%string, BStr "left")])
  | GetChatMember _ _ => Some (Err TimedOut)
  | CbTryAcquire => Some (Ok true)
  | _ => None
  end.

Definition cleaned : trace eff * result unit :=
  replay groups_script (@cmd_cleanup_body demo_catalog demo_config 99 (in_group 7 "/cleanup")).

Example cleaned_one :
  map (fun chat => existsb (obs_withdraws chat) cleaned.1) [-100; -200; -300] = [false; true; false].
Proof. vm_compute. done. Qed.

Lemma cleanup_sound_witness :
  exists groups g, during active_groups groups cleaned.1 /\ In g groups /\ chat_of g = -200 /\
    match group_chat g with
    | None => True
    | Some chat_id => is_primary_group demo_config (Some chat_id) = false /\ existsb (obs_member chat_id 99 gone) cleaned.1 = true
    end.
Proof.
  apply (@cleanup_sound demo_catalog demo_config 99 (-200) (in_group 7 "/cleanup") cleaned.1 cleaned.2).
  - exact (replay_exec groups_script (@cmd_cleanup_body demo_catalog demo_config 99 (in_group 7 "/cleanup"))).
  - vm_compute. reflexivity.
Defined.

Definition broadcasted (reply : option message) : trace eff * result unit :=
  replay groups_script (@cmd_broadcast_body demo_catalog demo_config (in_group 7 "/bc hello all") reply).

Lemma broadcast_to_groups_witness :
  exists groups g, during active_groups groups (broadcasted None).1 /\ In g groups /\ group_chat g = Some (-300).
Proof.
  apply (@broadcast_to_groups demo_catalog demo_config (in_group 7 "/bc hello all") None (-300) (broadcasted None).1 (broadcasted None).2).
  - exact (replay_exec groups_script (@cmd_broadcast_body demo_catalog demo_config (in_group 7 "/bc hello all") None)).
  - discriminate.
  - vm_compute. reflexivity.
Defined.

Lemma quoted_text_unsent_witness :
  existsb obs_text (broadcasted (Some join_card)).1 = false /\ preview_of (Some join_card) "hello all" = TStr "hello all".
Proof.
  refine (@quoted_text_unsent demo_catalog demo_config (in_group 7 "/bc hello all") join_card "hello all" _ _
    (replay_exec groups_script (@cmd_broadcast_body demo_catalog demo_config (in_group 7 "/bc hello all") (Some join_card))) _).
  reflexivity.
Defined.
