(* ===== verification/Language.v ===== *)
(** The language commands, [tcbot/modules/language.py]: the panel of locales,
    its buttons, and what a tap on one may store. *)

From Stdlib Require Import Sorting.Sorted.
From S2P Require Import Prelude Prog Text World I18n Dispatch Cache Locale Roles Replies Auth Records AppealReview Prefixes Extract Handler.

(** * [tcbot/utils/i18n.py] *)
Section names.
Context `{UCD} (data : catalog).

(** Code point order, as Python compares strings. *)
Fixpoint str_leb (a b : ustr) : bool :=
  match a, b with
  | [], _ => true
  | _ :: _, [] => false
  | x :: a', y :: b' => if x <? y then true else if y <? x then false else str_leb a' b'
  end.

Fixpoint insert_sorted (x : ustr) (l : list ustr) : list ustr :=
  match l with
  | [] => [x]
  | y :: l' => if str_leb x y then x :: l else y :: insert_sorted x l'
  end.

Definition sort_names (l : list ustr) : list ustr := fold_right insert_sorted [] l.

(** [sorted(data)] *)
Definition available_locales : list ustr := sort_names (locale_names data).

Definition display_name (locale : ustr) : ustr :=
  match _canonical_locale data (Some locale) with
  | None => locale
  | Some canonical =>
      match lookup_field (u "button.language_name") (default [] (lookup_field canonical data)) with
      | Some name => name
      | None => canonical
      end
  end.
End names.

(** * Callback data *)

(** What is left of [s] behind [p]. *)
Fixpoint after_prefix (p s : ustr) : option ustr :=
  match p, s with
  | [], _ => Some s
  | c :: p', d :: s' => if c =? d then after_prefix p' s' else None
  | _ :: _, [] => None
  end.

(** [[A-Za-z]] *)
Definition is_letter (c : Z) : bool := ((65 <=? c) && (c <=? 90)) || ((97 <=? c) && (c <=? 122)).

(** [_LOCALE_RE] on the whole of a string. *)
Definition locale_shape (s : ustr) : bool :=
  match s with
  | [a; b] => is_letter a && is_letter b
  | [a; b; d; e; f] => is_letter a && is_letter b && (d =? c_minus) && is_letter e && is_letter f
  | _ => false
  end.

Definition set_data (scope : string) (code : ustr) : ustr := u "lang:set:" ++ u scope ++ u ":" ++ code.
Definition list_data (scope : string) : ustr := u "lang:list:" ++ u scope.

(** [re.fullmatch(_LIST_PATTERN, data)]: the scope. *)
Definition list_match (data : ustr) : option string :=
  if ueqb data (list_data "user") then Some "user"%string
  else if ueqb data (list_data "group") then Some "group"%string
  else None.

(** [re.fullmatch(_SET_PATTERN, data)]: the scope and the locale. *)
Definition set_match (data : ustr) : option (string * ustr) :=
  let matched scope :=
    code ← after_prefix (set_data scope []) data;
    if locale_shape code then Some (scope, code) else None in
  match matched "user"%string with
  | Some m => Some m
  | None => matched "group"%string
  end.

Definition _chat_scope (chat_type : string) : string :=
  if String.eqb chat_type "private" then "user" else "group".

(** * Panels *)
Section language.
Context {CAT : Catalog}.

Definition button (label : text) (data : ustr) : text := TBuild "button" [label; TStr (s_of data)].

(** [keyboards.language_list_kb] *)
Definition language_list_kb (scope : string) (items : list (ustr * ustr)) (back_label : text)
    (back_callback : option string) (selected : ustr) : markup :=
  Some (TBuild "keyboard"
    (map (fun '(name, code) =>
            let label := TStr (s_of name) in
            button (if ueqb code selected then TBuild "checked" [label] else label) (set_data scope code)) items ++
     match back_callback with
     | Some data => [button back_label (u data)]
     | None => []
     end)).

Definition items : list (ustr * ustr) := map (fun c => (display_name cat_data c, c)) (available_locales cat_data).

Definition back_label (locale : ustr) : text := TKey "button.back" locale [].

Definition _options_kb (scope : string) (locale : ustr) : markup :=
  language_list_kb scope items (back_label locale) None locale.

Definition _panel_text (scope : string) (locale : ustr) : text :=
  let language := ("language"%string, TStr (s_of (display_name cat_data locale))) in
  let '(body, title) :=
    if String.eqb scope "user"
    then (TKey "language.current_user" locale [language], TKey "language.title_user" locale [])
    else (TKey "language.current_group" locale [language], TKey "language.title_group" locale []) in
  TBuild "paragraphs" [title; body; TKey "language.prompt" locale []].

Definition _confirmation_text (scope : string) (chosen : ustr) : text :=
  TKey (if String.eqb scope "user" then "language.updated_user" else "language.updated_group") chosen
    [("language"%string, TStr (s_of (display_name cat_data chosen)))].

(** [keyboards.back_to_module_kb] *)
Definition back_to_module_kb (module_callback : ustr) (locale : ustr) : markup :=
  Some (TBuild "keyboard" [button (back_label locale) module_callback]).

(** * Commands *)
Definition cmd_language_body (c : command) : io unit :=
  match effective_message (c_upd c), effective_user (c_upd c), effective_chat (c_upd c) with
  | Some msg, Some user_id, Some (chat_type, chat_id) =>
      let scope := _chat_scope chat_type in
      locale <- effective_locale (Some chat_type) user_id chat_id ;;
      permitted <- (if String.eqb scope "group" then can_manage_group chat_id user_id else Ret true) ;;
      let kb := if permitted : bool then _options_kb scope locale else None in
      safe_reply_kb msg (_panel_text scope locale) kb
  | _, _, _ => Ret tt
  end.

(** The keyboard that leads back to the start menu. *)
Definition show_panel (q : message) (scope : string) (back_callback : option string) (locale : ustr) : io unit :=
  safe_edit_cb q (_panel_text scope locale)
    (language_list_kb scope items (back_label locale) back_callback locale) true.

Definition answer : io unit := call (AnswerCallback None).

(** [q.answer(t(key, locale), show_alert=True)], whatever comes of it. *)
Definition alert_key (key : string) (locale : ustr) : io unit :=
  try_except (call (AnswerCallback (Some (TKey key locale [])))) (fun _ => Ret tt).

Definition on_language_menu_body (c : command) (q : option callback) : io unit :=
  match q, effective_user (c_upd c), effective_chat (c_upd c) with
  | Some (Callback q _), Some user_id, Some (chat_type, chat_id) =>
      answer ;;;
      locale <- effective_locale (Some chat_type) user_id chat_id ;;
      show_panel q "user" (Some "back_to_start"%string) locale
  | Some _, _, _ => answer
  | None, _, _ => Ret tt
  end.

Definition on_lang_list_body (c : command) (q : option callback) : io unit :=
  match q, effective_user (c_upd c), effective_chat (c_upd c) with
  | Some (Callback q (Some data)), Some user_id, Some (chat_type, chat_id) =>
      match list_match (u data) with
      | None => answer
      | Some scope =>
          if negb (String.eqb scope (_chat_scope chat_type)) then answer
          else
            answer ;;;
            locale <- effective_locale (Some chat_type) user_id chat_id ;;
            show_panel q scope (if String.eqb scope "user" then Some "back_to_start"%string else None) locale
      end
  | Some _, _, _ => answer
  | None, _, _ => Ret tt
  end.

(** Whether the choice was stored; if not, the tapper has been told. *)
Definition save_group_locale (msg : option message) (chat_id user_id : Z) (locale : string) (tapper_locale : ustr)
    : io bool :=
  allowed <- can_manage_group chat_id user_id ;;
  if negb allowed then alert_key "language.denied" tapper_locale ;;; Ret false
  else
    connected <- try_except (is_connected chat_id) (fun _ => Ret (BBool false)) ;;
    if negb (py_truthy (Some connected)) then
      reply_if msg (TKey "language.not_connected" tapper_locale []) ;;; Ret false
    else
      saved <- try_except (set_group_locale chat_id (Some locale) ;;; Ret true) (fun _ => Ret false) ;;
      if negb saved then reply_if msg (TKey "common.retry" tapper_locale []) ;;; Ret false
      else Ret true.

Definition save_user_locale (msg : option message) (user_id : Z) (locale : string) (tapper_locale : ustr) : io bool :=
  saved <- try_except (set_user_locale user_id (Some locale) ;;; Ret true) (fun _ => Ret false) ;;
  if negb saved then reply_if msg (TKey "common.retry" tapper_locale []) ;;; Ret false
  else Ret true.

Definition on_lang_set_body (c : command) (q : option callback) : io unit :=
  match q, effective_user (c_upd c), effective_chat (c_upd c) with
  | Some (Callback q (Some data)), Some user_id, Some (chat_type, chat_id) =>
      match set_match (u data) with
      | None => answer
      | Some (scope, raw_locale) =>
          if negb (String.eqb scope (_chat_scope chat_type)) then answer
          else
            answer ;;;
            tapper_locale <- effective_locale (Some chat_type) user_id chat_id ;;
            if negb (is_known_locale cat_data (Some raw_locale)) then alert_key "language.unavailable" tapper_locale
            else
              let msg := effective_message (c_upd c) in
              saved <- (if String.eqb scope "group"
                        then save_group_locale msg chat_id user_id (s_of raw_locale) tapper_locale
                        else save_user_locale msg user_id (s_of raw_locale) tapper_locale) ;;
              if saved : bool then
                safe_edit_cb q (_confirmation_text scope raw_locale)
                  (back_to_module_kb (list_data scope) raw_locale) true
              else Ret tt
      end
  | Some _, _, _ => answer
  | None, _, _ => Ret tt
  end.

(** Throttled, for anybody. *)
Definition cmd_language (c : command) := ratelimiter_wrapper "cmd_language" (cmd_language_body c) (c_upd c).
Definition on_language_menu (c : command) (q : option callback) :=
  ratelimiter_wrapper "on_language_menu" (on_language_menu_body c q) (c_upd c).
Definition on_lang_list (c : command) (q : option callback) :=
  ratelimiter_wrapper "on_lang_list" (on_lang_list_body c q) (c_upd c).
Definition on_lang_set (c : command) (q : option callback) :=
  ratelimiter_wrapper "on_lang_set" (on_lang_set_body c q) (c_upd c).
End language.

(** * Buttons *)
Lemma after_prefix_app p s : after_prefix p (p ++ s) = Some s.
Proof. induction p as [|c p IH]; [done|]. simpl. by rewrite Z.eqb_refl. Qed.

Lemma insert_sorted_perm x l : Permutation (insert_sorted x l) (x :: l).
Proof.
  induction l as [|y l IH]; simpl; [done|]. destruct (str_leb x y); [done|]. rewrite IH. constructor.
Qed.

Lemma sort_names_perm l : Permutation (sort_names l) l.
Proof. induction l as [|x l IH]; simpl; [done|]. by rewrite insert_sorted_perm, IH. Qed.

Lemma str_leb_total a b : str_leb a b = true \/ str_leb b a = true.
Proof.
  revert b. induction a as [|x a IH]; intros [|y b]; simpl; auto.
  destruct (Z.ltb_spec x y), (Z.ltb_spec y x); auto.
Qed.

Lemma insert_sorted_sorted x l :
  Sorted (fun a b => str_leb a b = true) l -> Sorted (fun a b => str_leb a b = true) (insert_sorted x l).
Proof.
  induction 1 as [|y l Hl IH Hy]; simpl; [by repeat constructor|].
  destruct (str_leb x y) eqn:Hxy; [by repeat constructor|].
  assert (str_leb y x = true) by (destruct (str_leb_total x y); congruence).
  constructor; [done|]. destruct Hy as [|z l Hyz]; simpl; [by constructor|].
  destruct (str_leb x z); by constructor.
Qed.

Lemma sort_names_sorted l : Sorted (fun a b => str_leb a b = true) (sort_names l).
Proof. induction l as [|x l IH]; simpl; [constructor|]. by apply insert_sorted_sorted. Qed.

(** A locale code as the pattern has it is letters and a dash. *)
Lemma shape_chars s : locale_shape s = true -> Forall (fun c => 0 <= c < 128 /\ ascii_space c = false) s /\ s <> [].
Proof.
  assert (forall c, is_letter c = true -> 0 <= c < 128 /\ ascii_space c = false) as Hl.
  { intros c Hc. unfold is_letter in Hc. split; [lia|]. unfold ascii_space. lia. }
  destruct s as [|a [|b [|d [|e [|f [|]]]]]]; simpl; try done; rewrite ?andb_true_iff, ?Z.eqb_eq.
  - intros [Ha Hb]. split; [|done]. repeat constructor; by apply Hl.
  - intros ((((Ha & Hb) & ->) & He) & Hf). split; [|done].
    repeat constructor; try (by apply Hl); done.
Qed.

Section choice.
Context {CAT : Catalog}.

Lemma shape_stripped code : locale_shape code = true -> strip_ws code = code.
Proof.
  intros [Hc _]%shape_chars. apply strip_none. eapply Forall_impl; [exact Hc|].
  intros c [Hr Hs]. by rewrite is_space_ascii by lia.
Qed.

Lemma shape_bytes scope code :
  scope = "user"%string \/ scope = "group"%string -> locale_shape code = true ->
  u (s_of (set_data scope code)) = set_data scope code /\ u (s_of code) = code.
Proof.
  intros Hs [Hc _]%shape_chars. assert (Forall (fun c => 0 <= c < 256) code) as Hcode.
  { eapply Forall_impl; [exact Hc|]. intros c [? _]. lia. }
  split; apply u_s_of; [|done]. unfold set_data. rewrite !Forall_app. split_and!; [..|exact Hcode].
  - vm_compute. repeat constructor; discriminate.
  - destruct Hs as [-> | ->]; vm_compute; repeat constructor; discriminate.
  - vm_compute. repeat constructor; discriminate.
Qed.

Lemma shape_matched scope code :
  scope = "user"%string \/ scope = "group"%string -> locale_shape code = true ->
  set_match (set_data scope code) = Some (scope, code).
Proof.
  intros Hs Hc. unfold set_match. destruct Hs as [-> | ->].
  - change (set_data "user" code) with (set_data "user" [] ++ code). by rewrite after_prefix_app; simpl; rewrite Hc.
  - change (set_data "group" code) with (set_data "group" [] ++ code). rewrite after_prefix_app. simpl. by rewrite Hc.
Qed.

Lemma ueqb_spec a b : reflect (a = b) (ueqb a b).
Proof. unfold ueqb. case_bool_decide; by constructor. Qed.

(** A name of the catalog is its own canonical spelling. *)
Lemma canonical_self code :
  NoDup (map str_lower (locale_names cat_data)) -> In code (locale_names cat_data) -> locale_shape code = true ->
  _canonical_locale cat_data (Some code) = Some code /\ is_known_locale cat_data (Some code) = true.
Proof.
  intros Hnd Hin Hc. destruct (shape_chars _ Hc) as [_ Hne].
  unfold _canonical_locale, is_known_locale. destruct code as [|c code0] eqn:He; [done|]. rewrite <- He in *. clear He Hne.
  rewrite (shape_stripped _ Hc). revert Hnd Hin. generalize (locale_names cat_data) as names.
  induction names as [|x names IH]; [done|]. cbn [map]. intros Hnd%NoDup_cons Hin. cbn [List.find existsb].
  destruct (ueqb_spec (str_lower x) (str_lower code)) as [Hx|Hx].
  - split; [|done]. f_equal. destruct Hin as [|Hin]; [done|]. destruct Hnd as [Hn _]. exfalso. apply Hn.
    rewrite Hx. apply list_elem_of_In, in_map, Hin.
  - destruct Hin as [->|Hin]; [done|]. apply IH; [by destruct Hnd|done].
Qed.

Lemma items_codes name code : In (name, code) items -> In code (locale_names cat_data).
Proof.
  unfold items, available_locales. intros (x & [= _ ->] & Hx)%in_map_iff.
  apply list_elem_of_In. rewrite <- (sort_names_perm (locale_names cat_data)). by apply list_elem_of_In.
Qed.
End choice.

(** The buttons of a panel are the locales of the catalog, each once and in
    order, and a tap on one says what it shows: the data of the button for a
    locale parses back to the panel's scope and that locale, the locale is a
    known one, and a preference stored from it resolves, in a chat of that
    scope, to that locale again.  The codes of the catalog are of the shape
    the pattern allows and differ in more than case. *)
Theorem offered_choice_kept {CAT : Catalog} (chat_type : string) (name code : ustr) (other : option ustr)
    (Hshape : Forall (fun c => locale_shape c = true) (locale_names cat_data))
    (Hcase : NoDup (map str_lower (locale_names cat_data)))
    (Hitem : In (name, code) items) :
  let scope := _chat_scope chat_type in
  let user := String.eqb scope "user" in
  let stored := Some (u (s_of code)) in
  Permutation (map snd items) (locale_names cat_data) /\
  Sorted (fun a b => str_leb a b = true) (map snd items) /\
  set_match (u (s_of (set_data scope code))) = Some (scope, code) /\
  is_known_locale cat_data (Some code) = true /\
  resolve_locale cat_data (u chat_type) (if user then stored else other) (if user then other else stored) None = code.
Proof.
  intros scope user stored. assert (map snd items = available_locales cat_data) as Hitems.
  { unfold items. rewrite map_map. apply map_id. }
  assert (locale_shape code = true) as Hc.
  { apply items_codes in Hitem. rewrite List.Forall_forall in Hshape. by apply Hshape. }
  assert (scope = "user"%string \/ scope = "group"%string) as Hs.
  { unfold scope, _chat_scope. destruct (String.eqb chat_type _); auto. }
  destruct (shape_bytes scope code Hs Hc) as [Hb Hu], (canonical_self code Hcase (items_codes _ _ Hitem) Hc) as [Hcan Hk].
  rewrite Hitems. split; [apply sort_names_perm|]. split; [apply sort_names_sorted|].
  rewrite Hb. split; [by apply shape_matched|]. split; [exact Hk|].
  unfold stored, resolve_locale. rewrite Hu. cbn [_canonical_locale].
  assert (ueqb (u chat_type) (u "private") = user) as ->.
  { unfold user, scope, _chat_scope. destruct (String.eqb_spec chat_type "private") as [->|Hn]; [done|].
    cbn [String.eqb]. destruct (ueqb_spec (u chat_type) (u "private")) as [He|]; [|done]. destruct Hn.
    by rewrite <- (s_of_u chat_type), He, s_of_u. }
  change (_canonical_locale cat_data None) with (@None ustr). destruct user; by rewrite Hcan.
Qed.

(** * What a tap may store *)

(** The one write of [set_user_locale], or of [set_group_locale]. *)
Definition stores (scope : string) (chat_id user_id : Z) (locale : string) (o : obs eff) : bool :=
  match o with
  | Obs ev _ =>
      match ev with
      | UpdateOne "user_settings" [("user_id", BInt x)] [("$set", BDoc [("user_id", BInt y); ("locale", BStr l)])] _ =>
          String.eqb scope "user" && (x =? user_id) && (y =? user_id) && String.eqb l locale
      | UpdateOne "federated_groups" [("chat_id", BInt x)] [("$set", BDoc [("locale", BStr l)])] false =>
          String.eqb scope "group" && (x =? chat_id) && String.eqb l locale
      | _ => false
      end
  end.

Section gate.
Context {CAT : Catalog}.
Abbreviation quiet := (Forall (fun o => obs_write o = false)).

Lemma writeless {A} (p : io A) : never restless p -> never obs_write p.
Proof. intros Hp. eapply never_weaken; [exact Hp|apply restless_write]. Qed.

Lemma manage_lookup chat_id uid : never restless (can_manage_group chat_id uid).
Proof. unfold can_manage_group, is_staff. never_auto. Qed.

Lemma connected_lookup chat_id : never restless (is_connected chat_id).
Proof. unfold is_connected, db_call. apply get_or_fetch_never; [apply restless_cache|]. never_auto. Qed.

Lemma alert_lookup key locale : never restless (alert_key key locale).
Proof. unfold alert_key. never_auto. Qed.

Lemma reply_if_lookup msg txt : never restless (reply_if msg txt).
Proof. apply reply_if_never, restless_talk. Qed.

Lemma edit_lookup q txt kb : never restless (safe_edit_cb q txt kb true).
Proof. unfold safe_edit_cb, edit_with. never_auto. Qed.

#[local] Hint Resolve manage_lookup connected_lookup alert_lookup reply_if_lookup edit_lookup : never.

(** The three other handlers only read. *)
Lemma panels_lookup c q :
  never restless (cmd_language_body c) /\ never restless (on_language_menu_body c q) /\
  never restless (on_lang_list_body c q).
Proof.
  unfold cmd_language_body, on_language_menu_body, on_lang_list_body, answer, show_panel. split_and!; never_auto.
Qed.

(** One write, of the choice, after calls [t] that are none. *)
Definition one_store (scope : string) (chat_id uid : Z) (l : string) (t : trace eff) : Prop :=
  exists t1 o t2, t = t1 ++ o :: t2 /\ quiet t1 /\ quiet t2 /\ stores scope chat_id uid l o = true /\
  (scope = "group"%string -> during (can_manage_group chat_id uid) true t1 /\
     exists v, py_truthy (Some v) = true /\ during (is_connected chat_id) v t1).

Lemma one_store_r scope chat_id uid l t t' : one_store scope chat_id uid l t -> quiet t' -> one_store scope chat_id uid l (t ++ t').
Proof.
  intros (t1 & o & t2 & -> & H1 & H2 & H) Ht. exists t1, o, (t2 ++ t'). rewrite <- app_assoc. split; [done|].
  split; [done|]. split; [by apply Forall_app|done].
Qed.

Lemma one_store_l scope chat_id uid l t t' : quiet t -> one_store scope chat_id uid l t' -> one_store scope chat_id uid l (t ++ t').
Proof.
  intros Ht (t1 & o & t2 & -> & H1 & H2 & Ho & Hg). exists (t ++ t1), o, t2. rewrite app_assoc. split; [done|].
  split; [by apply Forall_app|]. split; [done|]. split; [done|]. intros Hs. destruct (Hg Hs) as (Hm & v & Hv & Hc).
  split; [by apply during_r|]. exists v. split; [done|]. by apply during_r.
Qed.

(** Programs that begin with the write, and make no other. *)
Definition begins_storing {A} (scope : string) (chat_id uid : Z) (l : string) (p : io A) : Prop :=
  wp p (fun t _ => exists o t2, t = o :: t2 /\ stores scope chat_id uid l o = true /\ quiet t2).

Lemma storing_call {X} scope chat_id uid l (ev : eff X) :
  (forall r, stores scope chat_id uid l (Obs ev r) = true) -> begins_storing scope chat_id uid l (call ev).
Proof. intros H. apply wp_call. intros r _. exists (Obs ev r), []. by repeat split; [apply H|constructor]. Qed.

Lemma storing_bind {A B} scope chat_id uid l (p : io A) (k : A -> io B) :
  begins_storing scope chat_id uid l p -> (forall a, never obs_write (k a)) -> begins_storing scope chat_id uid l (bind p k).
Proof.
  intros Hp Hk. apply wp_bind. eapply wp_mono; [exact Hp|]. intros t [a|e] (o & t2 & -> & Ho & Ht); [|by eauto].
  eapply wp_mono; [apply Hk|]. intros t' r Ht'. exists o, (t2 ++ t'). by rewrite Forall_app.
Qed.

Lemma storing_try {A} scope chat_id uid l (p : io A) h :
  begins_storing scope chat_id uid l p -> (forall e, never obs_write (h e)) -> begins_storing scope chat_id uid l (try_except p h).
Proof.
  intros Hp Hh. apply wp_try. eapply wp_mono; [exact Hp|]. intros t [a|e] (o & t2 & -> & Ho & Ht); [by eauto|].
  destruct (is_Exception e); [|by eauto]. eapply wp_mono; [apply Hh|]. intros t' r Ht'. exists o, (t2 ++ t'). by rewrite Forall_app.
Qed.

Lemma save_user_stores msg chat_id uid l tl :
  wp (save_user_locale msg uid l tl) (fun t _ => one_store "user" chat_id uid l t).
Proof.
  assert (begins_storing "user" chat_id uid l (save_user_locale msg uid l tl)) as H.
  { apply storing_bind.
    - apply storing_try; [|intros; apply never_ret]. apply storing_bind; [|intros; apply never_ret].
      apply storing_bind; [apply storing_call; intros; simpl; by rewrite !Z.eqb_refl, String.eqb_refl|intros; never_auto].
    - intros b. apply writeless. never_auto. }
  eapply wp_mono; [exact H|]. intros t r (o & t2 & -> & Ho & Ht). exists [], o, t2. by repeat split.
Qed.

(** A failed lookup of the group counts as not connected. *)
Lemma connected_ran chat_id :
  wp (try_except (is_connected chat_id) (fun _ => Ret (BBool false)))
     (fun t r => quiet t /\ forall v, r = Ok v -> py_truthy (Some v) = true -> during (is_connected chat_id) v t).
Proof.
  apply wp_try. eapply wp_mono; [exact (wp_conj _ _ _ (wp_exec _) (writeless _ (connected_lookup chat_id)))|].
  intros t [v|e] [Hr Ht]; [split; [done|]; intros w [= <-] _; by apply during_exec|].
  destruct (is_Exception e); [|by split]. apply wp_ret. rewrite app_nil_r. split; [done|]. by intros v [= <-].
Qed.

Lemma save_group_stores msg chat_id uid l tl :
  wp (save_group_locale msg chat_id uid l tl) (fun t _ => existsb obs_write t = true -> one_store "group" chat_id uid l t).
Proof.
  unfold save_group_locale. apply calm_before; [apply writeless; never_auto|]. intros tm allowed Hm.
  pose proof (never_elim _ _ _ _ (writeless _ (manage_lookup chat_id uid)) Hm) as Hqm.
  destruct allowed; cbn [negb]; [|apply calm_absent, writeless; never_auto].
  apply wp_bind. eapply wp_mono; [apply connected_ran|]. intros tc [v|e] [Htc Hv].
  2: { intros Hw. by rewrite (proj2 (existsb_false_Forall _ _) Htc) in Hw. }
  destruct (py_truthy (Some v)) eqn:Htrue; cbn [negb].
  2: { eapply wp_mono; [apply writeless; never_auto|]. intros t r Ht Hw.
       by rewrite existsb_app, (proj2 (existsb_false_Forall _ _) Htc), (proj2 (existsb_false_Forall _ _) Ht) in Hw. }
  eapply (wp_mono _ (fun t _ => exists o t2, t = o :: t2 /\ stores "group" chat_id uid l o = true /\ quiet t2)).
  - apply storing_bind.
    + apply storing_try; [|intros; apply never_ret]. apply storing_bind; [|intros; apply never_ret].
      apply storing_bind; [apply storing_call; intros; simpl; by rewrite Z.eqb_refl, String.eqb_refl|intros; never_auto].
    + intros b. apply writeless. never_auto.
  - intros t r (o & t2 & -> & Ho & Ht2) _. exists (tm ++ tc), o, t2. rewrite <- app_assoc.
    split; [done|]. split; [by apply Forall_app|]. split; [done|]. split; [done|]. intros _.
    split; [by apply during_l, during_exec|]. exists v. split; [done|]. by apply during_r, Hv.
Qed.

Lemma lang_set_stores c q data chat_type chat_id uid :
  effective_user (c_upd c) = Some uid -> effective_chat (c_upd c) = Some (chat_type, chat_id) ->
  wp (on_lang_set_body c (Some (Callback q (Some data)))) (fun t _ => existsb obs_write t = true ->
    exists code, set_match (u data) = Some (_chat_scope chat_type, code) /\
      is_known_locale cat_data (Some code) = true /\ one_store (_chat_scope chat_type) chat_id uid (s_of code) t).
Proof.
  intros Huser Hchat. unfold on_lang_set_body, answer. rewrite Huser, Hchat.
  destruct (set_match (u data)) as [[scope code]|]; [|apply calm_absent; never_auto].
  destruct (String.eqb_spec scope (_chat_scope chat_type)) as [->|]; cbn [negb]; [|apply calm_absent; never_auto].
  set (scope := _chat_scope chat_type).
  assert (forall A (p : io A) k, never obs_write p ->
    (forall a, wp (k a) (fun t (_ : result unit) => existsb obs_write t = true ->
      is_known_locale cat_data (Some code) = true /\ one_store scope chat_id uid (s_of code) t)) ->
    wp (bind p k) (fun t _ => existsb obs_write t = true ->
      is_known_locale cat_data (Some code) = true /\ one_store scope chat_id uid (s_of code) t)) as Hstep.
  { intros A p k Hp Hk. apply calm_before; [exact Hp|]. intros t a Hr. eapply wp_mono; [apply Hk|].
    intros t' r H Hd. destruct (H Hd) as [? Ho]. split; [done|]. apply one_store_l; [|done]. by eapply never_elim. }
  eapply (wp_mono _ (fun t _ => existsb obs_write t = true ->
    is_known_locale cat_data (Some code) = true /\ one_store scope chat_id uid (s_of code) t)).
  2: { intros t r H Hw. exists code. destruct (H Hw). by split. }
  apply Hstep; [never_auto|intros _]. apply Hstep; [apply writeless, lookup_effective_locale|intros tl].
  destruct (is_known_locale _ _) eqn:Hk; cbn [negb]; [|apply calm_absent, writeless; never_auto]. cbv zeta.
  apply wp_bind. eapply (wp_mono _ (fun t _ => existsb obs_write t = true -> one_store scope chat_id uid (s_of code) t)).
  - unfold scope, _chat_scope. destruct (String.eqb chat_type "private"); cbn [String.eqb Ascii.eqb Bool.eqb].
    + eapply wp_mono; [apply (save_user_stores _ chat_id)|]. by intros.
    + apply save_group_stores.
  - intros t [b|e] Ht; [|intros Hw; by split; [|apply Ht]].
    eapply wp_mono; [apply writeless; never_auto|]. intros t' r Ht' Hw. split; [done|]. apply one_store_r; [|done]. apply Ht.
    by rewrite existsb_app, (proj2 (existsb_false_Forall _ _) Ht'), orb_false_r in Hw.
Qed.
End gate.

(** The panels store nothing, and a tap stores at most the choice it
    carries: a known locale, written once - for the tapper alone in a private
    chat, and elsewhere for this chat alone, once the tapper was found to
    manage it and the chat to be connected.  A failed lookup of either stores
    nothing. *)
Theorem tap_stores_choice {CAT : Catalog} (c : command) (q : option callback) (t : trace eff) (r : result unit) :
  (exec (cmd_language_body c) t r \/ exec (on_language_menu_body c q) t r \/ exec (on_lang_list_body c q) t r ->
     existsb obs_write t = false) /\
  (exec (on_lang_set_body c q) t r -> existsb obs_write t = true ->
     exists card data chat_type chat_id uid code,
       q = Some (Callback card (Some data)) /\ effective_user (c_upd c) = Some uid /\
       effective_chat (c_upd c) = Some (chat_type, chat_id) /\
       set_match (u data) = Some (_chat_scope chat_type, code) /\ is_known_locale cat_data (Some code) = true /\
       exists t1 o t2, t = t1 ++ o :: t2 /\
         existsb obs_write t1 = false /\ existsb obs_write t2 = false /\
         stores (_chat_scope chat_type) chat_id uid (s_of code) o = true /\
         (_chat_scope chat_type = "group"%string -> during (can_manage_group chat_id uid) true t1 /\
            exists v, py_truthy (Some v) = true /\ during (is_connected chat_id) v t1)).
Proof.
  split.
  - destruct (panels_lookup c q) as (H1 & H2 & H3).
    intros [Hr|[Hr|Hr]]; eapply existsb_false_Forall, never_elim; try exact Hr; by apply writeless.
  - intros Hr Hw.
    assert (never obs_write (on_lang_set_body c q) \/
      exists card data uid chat_type chat_id, q = Some (Callback card (Some data)) /\
        effective_user (c_upd c) = Some uid /\ effective_chat (c_upd c) = Some (chat_type, chat_id))
      as [Hn|(card & data & uid & ty & chat & -> & Huser & Hchat)].
    { unfold on_lang_set_body, answer. destruct q as [[card [data|]]|]; [|left; never_auto..].
      destruct (effective_user _); [|left; never_auto]. destruct (effective_chat _) as [[]|]; [|left; never_auto].
      right. eauto 10. }
    { by rewrite (proj2 (existsb_false_Forall _ _) (never_elim _ _ _ _ Hn Hr)) in Hw. }
    destruct (wp_elim _ _ _ _ (lang_set_stores c card data ty chat uid Huser Hchat) Hr Hw)
      as (code & Hm & Hk & t1 & o & t2 & Ht & H1 & H2 & Ho & Hg).
    exists card, data, ty, chat, uid, code. repeat (split; [done|]). exists t1, o, t2.
    rewrite (proj2 (existsb_false_Forall _ _) H1), (proj2 (existsb_false_Forall _ _) H2).
    split; [exact Ht|]. do 2 (split; [done|]). split; [exact Ho|exact Hg].
Qed.

(** The creator of a connected chat picks a language for it. *)
Definition creator_script : script := fun X ev =>
  match ev in eff X return option (result X) with
  | FindOne "federated_groups" _ _ => Some (Ok (Some [("chat_id"%string, BInt (-100))]))
  | GetChatMember _ 7 => Some (Ok [("status"%string, BStr "creator")])
  | _ => None
  end.

Definition group_tap : command :=
  Command (Update (Some 7) (Some ("supergroup"%string, -100)) (Some (Message 5 (-100) "supergroup" None)) true)
    None [] "Ann" None false.

Definition group_choice : callback := Callback (Message 5 (-100) "supergroup" None) (Some "lang:set:group:en-US"%string).

Definition chosen_for_group : trace eff * result unit :=
  replay creator_script (@on_lang_set_body demo_catalog group_tap (Some group_choice)).

Lemma tap_stores_choice_witness :
  existsb obs_write chosen_for_group.1 = true /\
  exists t1 o t2, chosen_for_group.1 = t1 ++ o :: t2 /\ stores "group" (-100) 7 "en-US" o = true.
Proof.
  assert (existsb obs_write chosen_for_group.1 = true) as Hw by (vm_compute; reflexivity). split; [exact Hw|].
  destruct (proj2 (@tap_stores_choice demo_catalog group_tap (Some group_choice) chosen_for_group.1 chosen_for_group.2)
    (replay_exec creator_script _) Hw)
    as (card & data & ty & chat & uid & code & [= <- <-] & [= <-] & [= <- <-] & Hm & _ & t1 & o & t2 & Ht & _ & _ & Ho & _).
  vm_compute in Hm. injection Hm as <-. exists t1, o, t2. split; [exact Ht|exact Ho].
Defined.

Lemma offered_choice_kept_witness :
  set_match (u (s_of (set_data "group" DEFAULT_LOCALE))) = Some ("group"%string, DEFAULT_LOCALE).
Proof.
  refine (proj1 (proj2 (proj2 (@offered_choice_kept demo_catalog "supergroup" DEFAULT_LOCALE DEFAULT_LOCALE None _ _ _)))).
  - repeat constructor.
  - repeat constructor. set_solver.
  - vm_compute. left. reflexivity.
Defined.
