(* ===== verification/Jobs.v ===== *)
(** The scheduled jobs, [tcbot/database/scheduler/jobs.py]: the expiry of
    warnings and the timed enforcement sweep. *)

From S2P Require Import Prelude Prog Text World Dispatch Cache Roles Auth Records Warns Duration Handler Syncing.

Definition _EXPIRE_OP_TIMEOUT_S : Z := 60.
Definition _SYNC_RUN_TIMEOUT_S : Z := 300.

(** One day, and the first instant of year 1, in microseconds. *)
Definition day_us : Z := 24 * 3600 * 1000000.
Definition min_datetime : Z := -62135596800 * 1000000.

(** [utc_now() - timedelta(days=days)]: both may leave their range. *)
Definition cutoff_of (now days : Z) : result Z :=
  if timedelta_max_days <? days then Err OverflowError
  else if now - days * day_us <? min_datetime then Err OverflowError
  else Ok (now - days * day_us).

Definition expire_counts (cutoff : Z) : eff Z :=
  DeleteMany "warn_counts" ["updated_at" ~> BDoc ["$lt" ~> BDate cutoff]].
Definition expire_warns (cutoff : Z) : eff Z :=
  DeleteMany "warns" ["timestamp" ~> BDoc ["$lt" ~> BDate cutoff]].

Definition expire_old_warns (warn_expiry_days : Z) : io unit :=
  if warn_expiry_days <=? 0 then Ret tt
  else
    now <- call UtcNow ;;
    cutoff <- of_result (cutoff_of now warn_expiry_days) ;;
    r <- attempt (with_timeout (_EXPIRE_OP_TIMEOUT_S * 1000)
           (gather2 (db_call (expire_counts cutoff)) (db_call (expire_warns cutoff)))) ;;
    match r with
    | Err TimeoutError => Ret tt
    | Err e => Raise e
    | Ok (counts_res, warns_res) => throw_if_cancelled [counts_res; warns_res]
    end.

(** Kept for schedules that older versions stored. *)
Definition _cleanup_old_records : io unit := Ret tt.

Section sync.
Context {CAT : Locale.Catalog}.

(** The bot is a module variable: none before start-up and after shutdown. *)
Definition _run_scheduled_sync : io unit :=
  bot <- call (VarGet "_sync_bot") ;;
  match bot with
  | BNull => Ret tt
  | _ =>
      try_except (with_timeout (_SYNC_RUN_TIMEOUT_S * 1000) (run_ban_sync _SYNC_MAX_CHECKS) ;;; Ret tt)
        (fun _ => Ret tt)
  end.
End sync.

(** * What expiry deletes *)

(** A deletion of the warnings older than [cutoff], or of the counters not
    touched since. *)
Definition obs_expires (cutoff : Z) (o : obs eff) : bool :=
  match o with
  | Obs ev _ =>
      match ev with
      | DeleteMany "warn_counts" [("updated_at", BDoc [("$lt", BDate d)])]
      | DeleteMany "warns" [("timestamp", BDoc [("$lt", BDate d)])] => d =? cutoff
      | _ => false
      end
  end.

(** What a run of expiry did: the clock reading, and the two deletions in
    either order. *)
Definition expiry_run (days : Z) (t : trace eff) (r : result unit) : Prop :=
  exists now, match cutoff_of now days with
  | Err e => t = [Obs UtcNow (Ok now)] /\ r = Err e
  | Ok cutoff =>
      exists rc rw t12 late,
        interleave [Obs (expire_counts cutoff) rc] [Obs (expire_warns cutoff) rw] t12 /\
        t = Obs UtcNow (Ok now) :: t12 ++ [Obs (DeadlinePassed (_EXPIRE_OP_TIMEOUT_S * 1000)) (Ok late)] /\
        match r with
        | Ok _ => late = true \/ (is_cancel rc = false /\ is_cancel rw = false)
        | Err e => late = false /\ e = CancelledError
        end
  end.

Lemma throw_two {A} (r1 r2 : result A) :
  wp (throw_if_cancelled [r1; r2]) (fun t r => t = [] /\
    match r with Ok _ => is_cancel r1 = false /\ is_cancel r2 = false | Err e => e = CancelledError end).
Proof. destruct r1 as [|[]], r2 as [|[]]; simpl; first [apply wp_ret; by repeat split|apply wp_raise; by repeat split]. Qed.

Lemma expiry_runs days : 0 < days -> wp (expire_old_warns days) (expiry_run days).
Proof.
  intros Hd. unfold expire_old_warns. destruct (Z.leb_spec days 0); [lia|].
  apply wp_bind, wp_call. intros [now|e] Hadm; [|done].
  destruct (cutoff_of now days) as [cutoff|e] eqn:Hc; cbn [of_result].
  2: { apply wp_bind, wp_raise. exists now. by rewrite Hc. }
  apply wp_bind, wp_ret. apply wp_bind, wp_attempt. unfold with_timeout.
  apply wp_bind, wp_attempt.
  apply (wp_gather2 _ _ (fun t r => t = [Obs (expire_counts cutoff) r]) (fun t r => t = [Obs (expire_warns cutoff) r]));
    [by apply wp_call|by apply wp_call|].
  intros t1 t2 t rc rw -> -> Hi. split.
  - apply wp_bind, wp_call. intros [late|e] Hlate; [|done]. destruct late.
    + apply wp_raise. apply wp_ret. exists now. rewrite Hc. exists rc, rw, t, true. rewrite !app_nil_r. auto.
    + apply wp_ret. eapply wp_mono; [apply throw_two|]. intros t' r [-> Hr]. exists now. rewrite Hc.
      exists rc, rw, t, false. rewrite !app_nil_r. split; [done|]. split; [done|]. destruct r; [by right|done].
  - apply wp_bind, wp_call. intros [late|e] Hlate; [|done]. destruct late.
    + apply wp_raise. apply wp_ret. exists now. rewrite Hc. exists rc, rw, t, true. rewrite !app_nil_r. auto.
    + apply wp_raise. apply wp_raise. exists now. rewrite Hc. exists rc, rw, t, false. rewrite !app_nil_r. auto.
Qed.

(** Expiry touches no warning younger than the setting.  A non-positive
    setting makes no call at all; otherwise one clock reading fixes the
    cutoff, and the run asks for two deletions, of the records and of the
    counters older than it, and for nothing else.  It reports a cancelled
    deletion as a cancellation unless its deadline passed; it ends in an error
    otherwise only when the cutoff is no date. *)
Theorem expiry_sound (days : Z) (t : trace eff) (r : result unit) :
  exec (expire_old_warns days) t r ->
  (days <= 0 /\ t = [] /\ r = Ok tt) \/
  (0 < days /\ expiry_run days t r /\
   exists now, In (Obs UtcNow (Ok now)) t /\
     Forall (fun o => obs_write o = true -> obs_expires (now - days * day_us) o = true) t).
Proof.
  intros Hr. destruct (Z.le_gt_cases days 0) as [Hd|Hd].
  - left. revert t r Hr. refine (wp_elim' _ _ _). unfold expire_old_warns. destruct (Z.leb_spec days 0); [|lia].
    by apply wp_ret.
  - right. pose proof (wp_elim _ _ _ _ (expiry_runs days Hd) Hr) as Hrun. split; [done|]. split; [done|].
    destruct Hrun as (now & Hrun). exists now. unfold cutoff_of in Hrun.
    destruct (_ <? days); [destruct Hrun as [-> _]; split; [by left|repeat constructor; done]|].
    destruct (_ <? min_datetime); [destruct Hrun as [-> _]; split; [by left|repeat constructor; done]|].
    destruct Hrun as (rc & rw & t12 & late & Hi & -> & _). split; [by left|].
    constructor; [done|]. apply Forall_app. split; [|by repeat constructor].
    apply (interleave_Forall _ _ _ _ Hi). split; repeat constructor; intros _; simpl; apply Z.eqb_refl.
Qed.

(** ** Counters outlive what they count

    The rows a deletion leaves, for what [$lt] means on dates. *)
Section store.
Context (matches : doc -> doc -> bool).

Definition deleted_by (c : string) (o : obs eff) (rows : list doc) : list doc :=
  match o with
  | Obs ev r =>
      match ev in eff X return result X -> list doc with
      | DeleteMany c' f => fun r =>
          if String.eqb c c' && negb (is_err r) then List.filter (fun row => negb (matches f row)) rows else rows
      | _ => fun _ => rows
      end r
  end.

(** A collection after the deletions of a run. *)
Definition after_run (c : string) (t : trace eff) (rows : list doc) : list doc :=
  fold_left (fun rows o => deleted_by c o rows) t rows.

Definition date_of (k : string) (d : doc) (dflt : Z) : Z :=
  match dget k d with Some (BDate n) => n | _ => dflt end.

Context (Hlt : forall k d row,
  matches [(k, BDoc ["$lt" ~> BDate d])] row = match dget k row with Some (BDate n) => n <? d | _ => false end).

Lemma deleted_two c rc rw t12 cutoff rows :
  interleave [Obs (expire_counts cutoff) rc] [Obs (expire_warns cutoff) rw] t12 ->
  after_run c t12 rows =
    (if String.eqb c "warns" then deleted_by c (Obs (expire_warns cutoff) rw) rows
     else deleted_by c (Obs (expire_counts cutoff) rc) rows).
Proof.
  intros Hi. assert (t12 = [Obs (expire_counts cutoff) rc; Obs (expire_warns cutoff) rw] \/
    t12 = [Obs (expire_warns cutoff) rw; Obs (expire_counts cutoff) rc]) as [-> | ->].
  { repeat match goal with H : interleave _ _ _ |- _ => inversion H; clear H; subst end; auto. }
  - cbn. destruct (String.eqb_spec c "warns") as [->|]; [done|]. by cbn.
  - cbn. destruct (String.eqb_spec c "warns") as [->|]; [done|]. by cbn.
Qed.

Lemma after_run_split c now rc rw t12 late cutoff rows :
  interleave [Obs (expire_counts cutoff) rc] [Obs (expire_warns cutoff) rw] t12 ->
  after_run c (Obs UtcNow (Ok now) :: t12 ++ [Obs (DeadlinePassed (_EXPIRE_OP_TIMEOUT_S * 1000)) (Ok late)]) rows =
  (if String.eqb c "warns" then deleted_by c (Obs (expire_warns cutoff) rw) rows
   else deleted_by c (Obs (expire_counts cutoff) rc) rows).
Proof. intros Hi. unfold after_run. cbn [fold_left deleted_by]. rewrite fold_left_app. exact (deleted_two c rc rw t12 cutoff rows Hi). Qed.

(** What is left of either collection after a run. *)
Lemma expiry_leaves days t r :
  exec (expire_old_warns days) t r -> 0 < days ->
  exists now, In (Obs UtcNow (Ok now)) t /\
    (forall counters row, In row counters -> now - days * day_us <= date_of "updated_at" row 0 ->
       In row (after_run "warn_counts" t counters)) /\
    (forall warns row, existsb (fun o => match o with Obs ev r => match ev with DeleteMany "warns" _ => negb (is_err r) | _ => false end end) t = true ->
       In row (after_run "warns" t warns) -> now - days * day_us <= date_of "timestamp" row (now - days * day_us)).
Proof.
  intros Hr Hd. destruct (wp_elim _ _ _ _ (expiry_runs days Hd) Hr) as (now & Hrun). exists now.
  unfold cutoff_of in Hrun. set (cutoff := now - days * day_us) in *.
  destruct (_ <? days); [destruct Hrun as [-> _]; split; [by left|by split]|].
  destruct (_ <? min_datetime); [destruct Hrun as [-> _]; split; [by left|by split]|].
  destruct Hrun as (rc & rw & t12 & late & Hi & -> & _). split; [by left|]. split.
  - intros counters row Hin Hn. rewrite (after_run_split _ _ _ _ _ _ _ _ Hi). cbn. destruct rc; cbn [negb is_err andb]; [|done].
    apply filter_In. split; [done|]. rewrite Hlt. unfold date_of in Hn. destruct (dget "updated_at" row) as [[]|]; try done.
    apply negb_true_iff, Z.ltb_ge. exact Hn.
  - intros warns row Hok. rewrite (after_run_split _ _ _ _ _ _ _ _ Hi). cbn.
    assert (is_err rw = false) as ->.
    { apply existsb_exists in Hok as (o & [<-|[Ho|[<-|[]]]%in_app_iff] & Hok); [done| |done].
      destruct rw; [done|]. exfalso. revert Hok.
      repeat match goal with H : interleave _ _ _ |- _ => inversion H; clear H; subst end;
        by destruct Ho as [<-|[<-|[]]]. }
    cbn [negb andb]. intros [_ Hrow]%filter_In. rewrite Hlt in Hrow. unfold date_of.
    destruct (dget "timestamp" row) as [[]|]; lia.
Qed.
End store.

(** Three warnings of one pair, two of them expired: one record is left, and
    the counter, touched by the last, still says three - which is what the
    next warning adds to and what the threshold is compared with. *)
Theorem counter_outlives_records (matches : doc -> doc -> bool)
    (Hlt : forall k d row,
       matches [(k, BDoc ["$lt" ~> BDate d])] row = match dget k row with Some (BDate n) => n <? d | _ => false end)
    (days : Z) (t : trace eff) (r : result unit)
    (Hrun : exec (expire_old_warns days) t r) (Hdays : 0 < days) (counter : doc) (counters : list doc)
    (Hcounter : In counter counters)
    (Hnow : forall n, In (Obs UtcNow (Ok n)) t -> n - days * day_us <= date_of "updated_at" counter 0) :
  In counter (after_run matches "warn_counts" t counters).
Proof.
  destruct (expiry_leaves matches Hlt days t r Hrun Hdays) as (n & Hn & Hc & _). apply Hc; [done|]. by apply Hnow.
Qed.

(** [$lt] on dates, and nothing else. *)
Definition lt_matches (f row : doc) : bool :=
  match f with
  | [(k, BDoc [("$lt"%string, BDate d)])] => match dget k row with Some (BDate n) => n <? d | _ => false end
  | _ => false
  end.

Definition warned_at (day : Z) : doc := ["user_id" ~> BInt 9; "chat_id" ~> BInt (-100); "timestamp" ~> BDate (day * day_us)].
Definition nine_counter : doc :=
  ["user_id" ~> BInt 9; "chat_id" ~> BInt (-100); "count" ~> BInt 3; "updated_at" ~> BDate (99 * day_us)].

Definition at_day_100 : script := fun X ev =>
  match ev in eff X return option (result X) with UtcNow => Some (Ok (100 * day_us)) | _ => None end.

Definition clock_of (o : obs eff) : option Z :=
  match o with
  | Obs ev r =>
      match ev in eff X return result X -> option Z with
      | UtcNow => fun r => match r with Ok n => Some n | Err _ => None end
      | _ => fun _ => None
      end r
  end.

Definition month_expired : trace eff * result unit := replay at_day_100 (expire_old_warns 30).

Lemma counter_outlives_records_witness :
  after_run lt_matches "warns" month_expired.1 [warned_at 10; warned_at 20; warned_at 99] = [warned_at 99] /\
  In nine_counter (after_run lt_matches "warn_counts" month_expired.1 [nine_counter]).
Proof.
  split; [vm_compute; reflexivity|].
  apply (counter_outlives_records lt_matches ltac:(reflexivity) 30 month_expired.1 month_expired.2
    (replay_exec at_day_100 (expire_old_warns 30)) ltac:(lia) nine_counter [nine_counter]); [by left|].
  intros n Hn%(in_map clock_of). vm_compute in Hn. destruct Hn as [[= <-]|[Hn|[Hn|[Hn|[]]]]]; try discriminate;
    vm_compute; discriminate.
Defined.

Lemma expiry_sound_witness :
  exists now, In (Obs UtcNow (Ok now)) month_expired.1 /\
    Forall (fun o => obs_write o = true -> obs_expires (now - 30 * day_us) o = true) month_expired.1.
Proof.
  destruct (expiry_sound 30 month_expired.1 month_expired.2 (replay_exec at_day_100 (expire_old_warns 30)))
    as [(H & _)|(_ & _ & H)]; [lia|exact H].
Defined.
