(* ===== verification/Identity.v ===== *)
(** Keeping cached identities current: [tcbot/modules/helper/extraction/sync.py]. *)

From stdpp Require Import pretty.
From S2P Require Import Prelude Prog Text World I18n Dispatch Cache Locale Roles Replies Auth Records DemoteFlow BanFlow AppealReview Prefixes Extract Handler.

(** First name, username, last name. *)
Abbreviation identity := (string * option string * option string)%type.

Definition _RESOLVE_SWEEP_TIMEOUT : Z := 15.
(** [_SYNC_MAX_AGE_S], in microseconds. *)
Definition _SYNC_MAX_AGE : Z := 7 * 24 * 3600 * 1000000.

(** [d.get(k) or None] of an optional string. *)
Definition str_field (k : string) (d : doc) : option string :=
  match dget k d ≫= bstr with Some s => if truthy_str s then Some s else None | None => None end.

(** [users_cache.get_user] *)
Definition get_user (user_id : Z) : io (option doc) :=
  db_call (FindOne "member_cache" ["user_id" ~> BInt user_id] []).

(** * The live lookup *)

(** The user behind a membership, unless a bot or without a name. *)
Definition member_identity (member : doc) : option identity :=
  match dget "user" member with
  | Some (BDoc user) =>
      if py_truthy (dget "is_bot" user) then None
      else match str_field "first_name" user with
           | Some name => Some (name, dget "username" user ≫= bstr, dget "last_name" user ≫= bstr)
           | None => None
           end
  | _ => None
  end.

Definition _probe (target_id : Z) (grp : doc) : io (option identity) :=
  match dget "chat_id" grp ≫= bint with
  | Some chat_id =>
      if negb (truthy_Z chat_id) then Ret None
      else
        member <- try_except (m <- call (GetChatMember chat_id target_id) ;; Ret (Some m)) (fun _ => Ret None) ;;
        Ret ((member : option doc) ≫= member_identity)
  | None => Ret None
  end.

(** The first hit in group order; a cancelled probe on the way is raised. *)
Fixpoint first_hit (probed : list (result (option identity))) : io (option identity) :=
  match probed with
  | [] => Ret None
  | Err CancelledError :: _ => Raise CancelledError
  | Ok (Some hit) :: _ => Ret (Some hit)
  | _ :: rest => first_hit rest
  end.

(** The probes run at once, at most ten of them, against one deadline. *)
Definition sweep_groups (target_id : Z) : io (option identity) :=
  groups <- active_groups ;;
  probed <- attempt (with_timeout (_RESOLVE_SWEEP_TIMEOUT * 1000) (gather_list (map (_probe target_id) groups))) ;;
  match probed with
  | Ok probed => first_hit probed
  | Err TimeoutError => Ret None
  | Err e => Raise e
  end.

Definition _fetch_live_identity (target_id : Z) : io (option identity) :=
  chat <- try_except (c <- call (GetChat (inl target_id)) ;; Ret (Some c)) (fun _ => Ret None) ;;
  let of_chat := match chat : option chat_info with
                 | Some chat => (str_or (ci_first_name chat) "", ci_username chat, ci_last_name chat)
                 | None => (""%string, None, None)
                 end in
  if truthy_str of_chat.1.1 then Ret (Some of_chat)
  else
    mt_hit <- resolve_user target_id ;;
    match mt_hit with
    | Some hit => Ret (Some hit)
    | None => sweep_groups target_id
    end.

(** * The sync *)
Definition identity_of (cached : option doc) : identity :=
  match cached with
  | Some ((_ :: _) as d) =>
      (match str_field "first_name" d with Some s => s | None => ""%string end,
       str_field "username" d, str_field "last_name" d)
  | _ => (""%string, None, None)
  end.

Definition complete (have : identity) : bool := truthy_str have.1.1 && bool_decide (is_Some have.1.2).

(** Whether the row was written at most [max_age] ago; a row without a date
    was not, nor one whose date is none. *)
Definition recent (cached : option doc) (max_age : Z) : io bool :=
  match cached ≫= dget "last_updated" with
  | None | Some BNull => Ret false
  | Some v =>
      now <- call UtcNow ;;
      Ret match v with BDate ts => now - ts <=? max_age | _ => false end
  end.

Definition save_identity (target_id : Z) (live : identity) : io unit :=
  let '(fname, uname, lname) := live in
  try_except (upsert_user target_id (Some (match uname with Some s => s | None => ""%string end)) fname
                (Some (match lname with Some s => s | None => ""%string end)))
    (fun _ => Ret tt) ;;;
  remember_identity target_id (Some fname) uname lname.

Definition sync_user_identity (target_id max_age : Z) : io identity :=
  cached <- get_user target_id ;;
  let have := identity_of cached in
  fresh <- (if complete have then recent cached max_age else Ret false) ;;
  if fresh : bool then Ret have
  else
    live <- _fetch_live_identity target_id ;;
    match live with
    | None =>
        if truthy_str have.1.1 then Ret have
        else remember_identity target_id None None None ;;; Ret (pretty target_id, None, None)
    | Some live => save_identity target_id live ;;; Ret live
    end.

(** A row of a past the clock has not reached is not old. *)
Definition identity_needs_refresh (cached : option doc) : io bool :=
  match cached with
  | None | Some [] => Ret true
  | Some d =>
      if negb (complete (identity_of (Some d))) then Ret true
      else match dget "last_updated" d with
           | Some (BDate ts) => now <- call UtcNow ;; Ret (_SYNC_MAX_AGE <? now - ts)
           | _ => Ret true
           end
  end.

Definition _refresh_identity (target_id : Z) : io unit :=
  try_except (sync_user_identity target_id _SYNC_MAX_AGE ;;; Ret tt) (fun _ => Ret tt).

(** * What a sync shows and stores *)

(** Asking Telegram, by either client, about an account. *)
Definition obs_asks (o : obs eff) : bool :=
  match o with
  | Obs ev _ => match ev with GetChat _ | GetChatMember _ _ | MtGetUsers _ => true | _ => false end
  end.

(** The profile of [target_id] becomes [live]; what the account does not have
    is stored as the empty string. *)
Definition obs_saves (target_id : Z) (live : identity) (o : obs eff) : bool :=
  match o with
  | Obs ev _ =>
      match ev with
      | UpdateOne "member_cache" [("user_id", BInt x)]
          [("$set", BDoc [("user_id", BInt y); ("first_name", BStr f); ("last_updated", BDate _);
                          ("username", BStr un); ("last_name", BStr ln)]); ("$setOnInsert", _)] true =>
          (x =? target_id) && (y =? target_id) && String.eqb f live.1.1 &&
          String.eqb un (match live.1.2 with Some s => s | None => ""%string end) &&
          String.eqb ln (match live.2 with Some s => s | None => ""%string end)
      | _ => false
      end
  end.

Section sync.
Abbreviation quiet f := (Forall (fun o => f o = false)).

Lemma groups_lookup : never restless active_groups.
Proof. unfold active_groups, db_call. never_auto. apply get_or_fetch_never; [apply restless_cache|]. never_auto. Qed.

Lemma first_hit_silent f probed : never f (first_hit probed).
Proof. induction probed as [|[[]|[]] rest IH]; cbn [first_hit]; never_auto; done. Qed.

Lemma probes_lookup target_id groups : never restless (gather_list (map (_probe target_id) groups)).
Proof. apply never_gather_list, Forall_map, Forall_forall. intros g _. unfold _probe. never_auto. Qed.

Lemma live_lookup target_id : never restless (_fetch_live_identity target_id).
Proof.
  unfold _fetch_live_identity, resolve_user, _fetch_user, sweep_groups, with_timeout.
  pose proof groups_lookup. pose proof (first_hit_silent restless). pose proof (probes_lookup target_id).
  cbv zeta. never_auto; auto.
Qed.

Lemma recent_silent cached max_age f : (forall r, f (Obs UtcNow r) = false) -> never f (recent cached max_age).
Proof. intros Hf. unfold recent. never_auto; by apply never_call. Qed.

(** ** Live identities have a name *)
Lemma member_named m l : member_identity m = Some l -> truthy_str l.1.1 = true.
Proof.
  unfold member_identity, str_field. destruct (dget "user" m) as [[]|]; try done. destruct (py_truthy _); [done|].
  destruct (dget "first_name" _ ≫= bstr) as [s|]; [|done]. destruct (truthy_str s) eqn:Hs; [|done]. by intros [= <-].
Qed.

Lemma probe_named target_id g : wp (_probe target_id g) (fun _ r => forall l, r = Ok (Some l) -> truthy_str l.1.1 = true).
Proof.
  unfold _probe. destruct (dget _ _ ≫= bint) as [c|]; [|by apply wp_ret]. destruct (negb _); [by apply wp_ret|].
  apply wp_bind, wp_intro. intros t [[m|]|e] _; [|by apply wp_ret|done].
  apply wp_ret. intros l [= Hl]. by eapply member_named.
Qed.

Definition gives_named (r : result (option identity)) : Prop := forall l, r = Ok (Some l) -> truthy_str l.1.1 = true.

Lemma first_hit_named probed : Forall gives_named probed -> wp (first_hit probed) (fun _ r => gives_named r).
Proof.
  induction 1 as [|r rest Hr _ IH]; cbn [first_hit]; [by apply wp_ret|].
  destruct r as [[l|]|[]]; try exact IH; [apply wp_ret; intros l' [= <-]; by apply Hr|by apply wp_raise].
Qed.

Lemma sweep_named target_id : wp (sweep_groups target_id) (fun _ r => gives_named r).
Proof.
  unfold sweep_groups, with_timeout. apply wp_bind, wp_intro. intros t0 [groups|e] _; [|done].
  apply wp_bind, wp_attempt, wp_bind, wp_attempt.
  eapply wp_mono; [apply (wp_gather_list _ _ (fun _ => True) (fun _ => gives_named)); [done|done|]|].
  { intros g _. eapply wp_mono; [apply probe_named|]. intros t r H. by split. }
  intros t [rs|e] [_ Hrs]; apply wp_bind, wp_call; (intros [late|e'] Hlate; [|done]);
    (destruct late; [apply wp_raise; by apply wp_ret|]); cbn [of_result].
  - apply wp_ret. eapply wp_mono; [apply (first_hit_named rs)|done].
    clear -Hrs. by induction Hrs; constructor.
  - apply wp_raise. subst e. by apply wp_raise.
Qed.

Lemma live_named target_id : wp (_fetch_live_identity target_id) (fun _ r => gives_named r).
Proof.
  unfold _fetch_live_identity. apply wp_bind, wp_intro. intros t0 [chat|e] _; [|done]. cbv zeta.
  destruct (truthy_str _) eqn:Hname; [by apply wp_ret; intros l [= <-]|].
  apply wp_bind. eapply (wp_mono _ (fun _ r => gives_named r)).
  - unfold resolve_user. apply wp_bind, wp_intro. intros t [[user|]|e] _; [|by apply wp_ret|done]. apply wp_ret.
    unfold gives_named, named. cbn. destruct (mt_first_name user) as [n|]; [|done]. destruct (truthy_str n) eqn:Hn; [|done].
    by intros l [= <-].
  - intros t [[hit|]|e] Hhit; [|eapply wp_mono; [apply sweep_named|done]|done].
    apply wp_ret. exact Hhit.
Qed.

(** What happens anyway, whatever follows it. *)
Lemma happens_bind {A B} (f : obs eff -> bool) (p : io A) (k : A -> io B) :
  wp p (fun t _ => existsb f t = true) -> wp (bind p k) (fun t _ => existsb f t = true).
Proof.
  intros Hp. apply wp_bind. eapply wp_mono; [exact Hp|]. intros t [a|e] Ht; [|done].
  apply wp_intro. intros t' r _. by rewrite existsb_app, Ht.
Qed.

Lemma happens_try {A} (f : obs eff -> bool) (p : io A) h :
  wp p (fun t _ => existsb f t = true) -> wp (try_except p h) (fun t _ => existsb f t = true).
Proof.
  intros Hp. apply wp_try. eapply wp_mono; [exact Hp|]. intros t [a|e] Ht; [done|].
  destruct (is_Exception e); [|done]. apply wp_intro. intros t' r _. by rewrite existsb_app, Ht.
Qed.

(** The row is asked to be written with exactly the live identity, and no
    other. *)
Lemma save_saves target_id live :
  wp (save_identity target_id live) (fun t _ => existsb (obs_saves target_id live) t = true) /\
  never (fun o => obs_write o && negb (obs_saves target_id live o)) (save_identity target_id live).
Proof.
  destruct live as [[f un] ln]. unfold save_identity, remember_identity, upsert_user, invalidate, put,
    redis_put_background, redis_del_background, db_call. split.
  - apply happens_bind, happens_try, wp_bind, wp_call. intros [now|e] Hnow; [|done].
    eapply wp_mono; [apply (happens_bind (obs_saves target_id (f, un, ln)))|by intros t r Ht; rewrite existsb_app, Ht, orb_true_r].
    apply wp_call. intros r _. simpl. by rewrite !Z.eqb_refl, !String.eqb_refl.
  - never_auto. apply never_call. intros r. simpl. by rewrite !Z.eqb_refl, !String.eqb_refl.
Qed.
End sync.

(** What a sync shows, and what it stores.  It shows the cached identity
    without asking Telegram only when that has a name and a username and was
    written within the given age; otherwise it shows the live one, which has a
    name, and asks MongoDB to store exactly that for this user and nothing
    else; and with no live one it stores nothing and falls back on the cached
    one, or on the number when there is none. *)
Theorem sync_sound (target_id max_age : Z) (t : trace eff) (shown : identity)
    (Hrun : exec (sync_user_identity target_id max_age) t (Ok shown)) :
  exists cached, during (get_user target_id) cached t /\
    let have := identity_of cached in
    (complete have = true /\ shown = have /\ during (recent cached max_age) true t /\
       existsb obs_asks t = false /\ existsb obs_write t = false) \/
    (exists live, during (_fetch_live_identity target_id) live t /\
       match live with
       | Some live =>
           shown = live /\ truthy_str live.1.1 = true /\
           existsb (obs_saves target_id live) t = true /\
           existsb (fun o => obs_write o && negb (obs_saves target_id live o)) t = false
       | None =>
           existsb obs_write t = false /\
           shown = if truthy_str have.1.1 then have else (pretty target_id, None, None)
       end).
Proof.
  apply exec_bind_ok in Hrun as (t1 & cached & t2 & H1 & Hrun & ->). exists cached.
  assert (forall f, (forall r, f (Obs (FindOne "member_cache" ["user_id" ~> BInt target_id] []) r) = false) ->
    existsb f t1 = false) as Hget.
  { intros f Hf. eapply existsb_false_Forall, never_elim; [|exact H1]. by apply never_call. }
  split; [by apply during_l, during_exec|]. cbv zeta in *.
  apply exec_bind_ok in Hrun as (t3 & fresh & t4 & H3 & Hrun & ->).
  assert (forall f, (forall r, f (Obs UtcNow r) = false) -> existsb f t3 = false) as Hfresh.
  { intros f Hf. eapply existsb_false_Forall, never_elim; [|exact H3].
    destruct (complete _); [by apply recent_silent|apply never_ret]. }
  destruct fresh.
  - destruct Hrun as [-> [= ->]]. left. destruct (complete (identity_of cached)); [|by destruct H3].
    rewrite app_nil_r, !existsb_app, !Hget, !Hfresh by done. do 2 (split; [done|]).
    split; [by apply during_r, during_exec|done].
  - right. apply exec_bind_ok in Hrun as (t5 & live & t6 & H5 & Hrun & ->). exists live.
    pose proof (never_elim _ _ _ _ (live_lookup target_id) H5) as Hq.
    assert (existsb obs_write t5 = false) as Hw.
    { apply existsb_false_Forall. eapply Forall_impl; [exact Hq|]. intros o. apply restless_write. }
    split; [by apply during_r, during_r, during_l, during_exec|]. destruct live as [live|].
    + apply exec_bind_ok in Hrun as (t7 & [] & t8 & H7 & [-> [= ->]] & ->). split; [done|].
      split; [by apply (wp_elim _ _ _ _ (live_named target_id) H5)|]. destruct (save_saves target_id live) as [Hs Hn].
      rewrite app_nil_r, !existsb_app, (wp_elim _ _ _ _ Hs H7), !orb_true_r. split; [done|].
      rewrite (Hget _ (fun _ => eq_refl)), (Hfresh _ (fun _ => eq_refl)), (proj2 (existsb_false_Forall _ _) (never_elim _ _ _ _ Hn H7)).
      rewrite orb_false_r. apply existsb_false_Forall. eapply Forall_impl; [exact Hq|]. intros o Ho.
      by rewrite (restless_write o Ho).
    + rewrite !existsb_app, Hget, Hfresh, Hw by done. cbn [orb].
      destruct (truthy_str _); [by destruct Hrun as [-> [= ->]]|].
      apply exec_bind_ok in Hrun as (t7 & [] & t8 & H7 & [-> [= ->]] & ->). split; [|done].
      rewrite app_nil_r. eapply existsb_false_Forall, never_elim; [|exact H7].
      unfold remember_identity, put, redis_put_background. never_auto.
Qed.

(** * Where the code departs from its documentation *)

(** The row a run begins by reading. *)
Definition row_read (t : trace eff) : option doc :=
  match t with
  | Obs ev r :: _ =>
      match ev in eff X return result X -> option doc with
      | FindOne "member_cache" _ _ => fun r => match r with Ok row => row | Err _ => None end
      | _ => fun _ => None
      end r
  | [] => None
  end.

(** An account without a username is asked for on every sync, however recent
    its row: what the previous sync stored - the empty username - is not
    complete. *)
Theorem nameless_never_rests (target_id max_age now : Z) (fname : string) (lname : option string)
    (t : trace eff) (shown : identity)
    (Hread : row_read t = Some ["user_id" ~> BInt target_id; "first_name" ~> BStr fname; "last_updated" ~> BDate now;
                                "username" ~> BStr ""; "last_name" ~> boptstr lname])
    (Hrun : exec (sync_user_identity target_id max_age) t (Ok shown)) :
  exists live, during (_fetch_live_identity target_id) live t.
Proof.
  apply exec_bind_ok in Hrun as (t1 & got & t2 & (x & t1' & Hx & -> & Hgot) & Hrun & ->).
  destruct x as [x|e]; [|by destruct Hgot]. destruct Hgot as [-> [= <-]]. cbn in Hread. subst got. cbv zeta in Hrun.
  match type of Hrun with context [complete ?h] => assert (complete h = false) as Hc end.
  { unfold complete. rewrite bool_decide_eq_false_2; [apply andb_false_r|by intros [? [=]]]. }
  rewrite Hc in Hrun. apply exec_bind_ok in Hrun as (t3 & fresh & t4 & H3 & Hrun & ->).
  destruct H3 as [-> [= ->]]. apply exec_bind_ok in Hrun as (t5 & live & t6 & H5 & _ & ->). exists live.
  apply (during_r _ _ [_]), (during_r _ _ []), during_l, during_exec, H5.
Qed.

(** User 9 has a name of a year ago; Telegram answers nothing. *)
Definition year_old_row : doc :=
  ["user_id" ~> BInt 9; "first_name" ~> BStr "Ann"; "last_updated" ~> BDate 0; "username" ~> BStr "ann"].

Definition stale_script (groups_fail : bool) : script := fun X ev =>
  match ev in eff X return option (result X) with
  | FindOne "member_cache" _ _ => Some (Ok (Some year_old_row))
  | UtcNow => Some (Ok (52 * _SYNC_MAX_AGE))
  | GetChat _ => Some (Err TimedOut)
  | Find "federated_groups" _ _ _ _ => if groups_fail then Some (Err (PyMongoError "down")) else None
  | _ => None
  end.

Definition stale_sync (groups_fail : bool) : trace eff * result identity :=
  replay (stale_script groups_fail) (sync_user_identity 9 _SYNC_MAX_AGE).

(** Stale beats absent, says the protocol, when Telegram is out of reach; but
    when the list of groups cannot be read the sync raises instead. *)
Theorem unread_groups_lose_the_name :
  (stale_sync false).2 = Ok ("Ann"%string, Some "ann"%string, None) /\ is_err (stale_sync true).2 = true.
Proof. split; vm_compute; reflexivity. Qed.

Lemma sync_sound_witness :
  exists cached, during (get_user 9) cached (stale_sync false).1 /\ existsb obs_write (stale_sync false).1 = false.
Proof.
  destruct (sync_sound 9 _SYNC_MAX_AGE (stale_sync false).1 ("Ann"%string, Some "ann"%string, None)
    (replay_exec (stale_script false) _)) as (cached & Hc & _).
  exists cached. split; [exact Hc|vm_compute; reflexivity].
Defined.

Definition nameless_script : script := fun X ev =>
  match ev in eff X return option (result X) with
  | FindOne "member_cache" _ _ => Some (Ok (Some ["user_id" ~> BInt 9; "first_name" ~> BStr "Ann"; "last_updated" ~> BDate 0;
                                                  "username" ~> BStr ""; "last_name" ~> BStr ""]))
  | GetChat _ => Some (Ok (ChatInfo 9 (Some "Ann"%string) None None))
  | _ => None
  end.

Lemma nameless_never_rests_witness :
  exists live, during (_fetch_live_identity 9) live (replay nameless_script (sync_user_identity 9 _SYNC_MAX_AGE)).1.
Proof.
  apply (nameless_never_rests 9 _SYNC_MAX_AGE 0 "Ann" (Some ""%string) _ ("Ann"%string, None, None)).
  - vm_compute. reflexivity.
  - exact (replay_exec nameless_script (sync_user_identity 9 _SYNC_MAX_AGE)).
Defined.
