(* ===== verification/Drills.v ===== *)
(** The buttons of the /check cards: the keyboards
    ([tcbot/modules/helper/keyboards/check.py], drills.py, ban.py), the data
    they carry, and the handlers that data reaches
    ([tcbot/modules/checking/__init__.py], views.py). *)

From S2P Require Import Prelude Prog Text World I18n Locale Duration Prefixes Extract Handler Language.

(** * Where a button leads *)
Inductive drill : Type :=
  | Main (target : Z)
  | Bans (target page : Z)
  | BanItem (target : Z) (ban_id : ustr)
  | Warns (target : Z)
  | WarnChat (target chat page : Z)
  | Kicks (target page : Z)
  | Mutes (target page : Z)
  | Appeals (target page : Z).

Definition about (d : drill) : Z :=
  match d with
  | Main t | Bans t _ | BanItem t _ | Warns t | WarnChat t _ _ | Kicks t _ | Mutes t _ | Appeals t _ => t
  end.

(** The page asked for; a view without pages is on its first. *)
Definition page_of (d : drill) : Z :=
  match d with
  | Bans _ p | WarnChat _ _ p | Kicks _ p | Mutes _ p | Appeals _ p => p
  | _ => 0
  end.

Definition colon : ustr := [c_colon].

(** f"{prefix}:{n}" *)
Definition with_int (prefix : ustr) (n : Z) : ustr := prefix ++ colon ++ str_int n.

Definition data_of (d : drill) : ustr :=
  match d with
  | Main t => with_int (u "check_main") t
  | Bans t p => with_int (with_int (u "check_bans") t) p
  | BanItem t id => with_int (u "check_ban_item") t ++ colon ++ id
  | Warns t => with_int (u "check_warns") t
  | WarnChat t c p => with_int (with_int (with_int (u "check_warn_chat") t) c) p
  | Kicks t p => with_int (with_int (u "check_kicks") t) p
  | Mutes t p => with_int (with_int (u "check_mutes") t) p
  | Appeals t p => with_int (with_int (u "check_appeals") t) p
  end.

(** * The handlers' patterns *)

(** [s.split(":")] *)
Fixpoint fields (s : ustr) : list ustr :=
  match s with
  | [] => [[]]
  | c :: s' =>
      if c =? c_colon then [] :: fields s'
      else match fields s' with
           | f :: fs => (c :: f) :: fs
           | [] => [[c]]
           end
  end.

Section routing.
Context `{UCD}.

(** [\d+] *)
Definition digits (s : ustr) : bool := match s with [] => false | _ => forallb is_decimal s end.
(** [-?\d+] *)
Definition signed_digits (s : ustr) : bool :=
  match s with c :: s' => if c =? c_minus then digits s' else digits s | [] => false end.
(** [[a-z0-9]+] *)
Definition short_id (s : ustr) : bool :=
  match s with [] => false | _ => forallb (fun c => ascii_lower_letter c || ((48 <=? c) && (c <=? 57))) s end.

Inductive view : Type := VMain | VBans | VBanItem | VWarns | VWarnChat | VKicks | VMutes | VAppeals.

(** The handlers in the order they are registered, each with the shape its
    pattern wants; the newline [$] would let through is left out. *)
Definition patterns : list (view * string * list (ustr -> bool)) :=
  [(VMain, "check_main"%string, [digits]);
   (VBans, "check_bans"%string, [digits; digits]);
   (VBanItem, "check_ban_item"%string, [digits; short_id]);
   (VWarns, "check_warns"%string, [digits]);
   (VWarnChat, "check_warn_chat"%string, [digits; signed_digits; digits]);
   (VKicks, "check_kicks"%string, [digits; digits]);
   (VMutes, "check_mutes"%string, [digits; digits]);
   (VAppeals, "check_appeals"%string, [digits; digits])].

Fixpoint fit (shapes : list (ustr -> bool)) (fs : list ustr) : bool :=
  match shapes, fs with
  | [], [] => true
  | shape :: shapes', f :: fs' => shape f && fit shapes' fs'
  | _, _ => false
  end.

Definition matches (data : ustr) (p : view * string * list (ustr -> bool)) : bool :=
  let '(_, prefix, shapes) := p in
  match fields data with
  | head :: fs => ueqb head (u prefix) && fit shapes fs
  | [] => false
  end.

Definition handler_of (data : ustr) : option view :=
  match List.filter (matches data) patterns with
  | (v, _, _) :: _ => Some v
  | [] => None
  end.

(** * What the handlers read out of the data *)

(** [int(data.split(":", 1)[1])] *)
Definition one_int (data : ustr) : option Z :=
  match partition1 c_colon data with (_, true, rest) => py_int rest | _ => None end.

(** [_, a, b = data.split(":")], both integers. *)
Definition two_ints (data : ustr) : option (Z * Z) :=
  match fields data with
  | [_; a; b] => a ← py_int a; b ← py_int b; Some (a, b)
  | _ => None
  end.

(** [_, a, b, c = data.split(":")] *)
Definition three_ints (data : ustr) : option (Z * Z * Z) :=
  match fields data with
  | [_; a; b; c] => a ← py_int a; b ← py_int b; c ← py_int c; Some (a, b, c)
  | _ => None
  end.

(** [_, target, ban_id = data.split(":", 2)] *)
Definition int_and_id (data : ustr) : option (Z * ustr) :=
  match partition1 c_colon data with
  | (_, true, rest) =>
      match partition1 c_colon rest with
      | (a, true, id) => a ← py_int a; Some (a, id)
      | _ => None
      end
  | _ => None
  end.

Definition drill_of (v : view) (data : ustr) : option drill :=
  match v with
  | VMain => Main <$> one_int data
  | VBans => (fun '(t, p) => Bans t p) <$> two_ints data
  | VBanItem => (fun '(t, id) => BanItem t id) <$> int_and_id data
  | VWarns => Warns <$> one_int data
  | VWarnChat => (fun '(t, c, p) => WarnChat t c p) <$> three_ints data
  | VKicks => (fun '(t, p) => Kicks t p) <$> two_ints data
  | VMutes => (fun '(t, p) => Mutes t p) <$> two_ints data
  | VAppeals => (fun '(t, p) => Appeals t p) <$> two_ints data
  end.

(** A tap reaches the first handler whose pattern fits, which reads the data. *)
Definition route (data : ustr) : option drill := v ← handler_of data; drill_of v data.
End routing.

(** * Keyboards *)
Section keyboards.
Abbreviation row := text.

Definition url_button (key : string) (locale : ustr) (url : text) : text :=
  TBuild "url_button" [TKey key locale []; url].
Definition kb_row (bs : list text) : row := TBuild "row" bs.
Definition keyboard (rows : list row) : text := TBuild "keyboard" rows.

Definition check_back_row (target_id : Z) (locale : ustr) : row :=
  kb_row [button (TKey "button.back" locale []) (with_int (u "check_main") target_id)].

Definition check_warns_back_row (target_id : Z) (locale : ustr) : row :=
  kb_row [button (TKey "button.back" locale []) (with_int (u "check_warns") target_id)].

Definition _WARN_GROUP_TITLE_MAX : nat := 24.

(** [s[:n]] *)
Definition str_take (n : nat) (s : string) : string := s_of (take n (u s)).

Definition check_warn_groups_kb (target_id : Z) (groups : list (string * Z * Z)) (locale : ustr) : text :=
  keyboard
    (map (fun '(title, count, cid) =>
       kb_row [button (TKey "checking.warns.group_button" locale
                      [("title"%string, TStr (str_take _WARN_GROUP_TITLE_MAX title)); ("n"%string, TInt count)])
                   (with_int (with_int (with_int (u "check_warn_chat") target_id) cid) 0)]) groups ++
     [check_back_row target_id locale]).

Definition check_profile_kb (target_id ban_total appeal_total fed_warn_total kick_total mute_total : Z)
    (locale : ustr) : text :=
  let counted key n := TKey ("checking.profile.button." ++ key)%string locale [("n"%string, TInt n)] in
  let paged prefix := with_int (with_int (u prefix) target_id) 0 in
  keyboard
    [kb_row [button (counted "bans"%string ban_total) (paged "check_bans"%string);
             button (counted "appeals"%string appeal_total) (paged "check_appeals"%string)];
     kb_row [button (counted "warnings"%string fed_warn_total) (with_int (u "check_warns") target_id)];
     kb_row [button (counted "kicks"%string kick_total) (paged "check_kicks"%string);
             button (counted "mutes"%string mute_total) (paged "check_mutes"%string)]].

(** [pagination.nav_row]: no row when there is nowhere to go. *)
Definition nav_rows (page total_pages : Z) (cb_prefix : ustr) (locale : ustr) : list row :=
  match nav_row page total_pages with
  | [] => []
  | nav => [kb_row (map (fun '(key, p) => button (TKey key locale []) (with_int cb_prefix p)) nav)]
  end.

(** [[l[i : i + k] for i in range(0, len(l), k)]] *)
Fixpoint chunks_fuel {A} (fuel k : nat) (l : list A) : list (list A) :=
  match fuel, l with
  | S fuel', _ :: _ => take k l :: chunks_fuel fuel' k (drop k l)
  | _, _ => []
  end.
Definition chunks {A} (k : nat) (l : list A) : list (list A) := chunks_fuel (length l) k l.

Definition paged_drill_kb (items : list (string * ustr)) (page total_pages : Z) (nav_prefix : ustr)
    (back_callback : ustr) (extra_rows : list row) (per_row : nat) (locale : ustr) : text :=
  keyboard
    (map (fun ch => kb_row (map (fun '(label, cb) => button (TStr label) cb) ch)) (chunks per_row items) ++
     nav_rows page total_pages nav_prefix locale ++ extra_rows ++
     [kb_row [button (TKey "button.back" locale []) back_callback]]).

Definition detail_kb (back_callback : ustr) (proof_link appeal_link : option text) (locale : ustr) : text :=
  let url key link := match link with Some l => [kb_row [url_button key locale l]] | None => [] end in
  keyboard (url "button.view_proof"%string proof_link ++ url "button.view_appeal"%string appeal_link ++
            [kb_row [button (TKey "button.back" locale []) back_callback]]).

(** No keyboard for a bot without a username. *)
Definition checkme_ban_kb (bot_username : string) (ban_id : string) (proof_link : option text) (locale : ustr) : markup :=
  if negb (truthy_str bot_username) then None
  else
    Some (keyboard
      [kb_row (button (TKey "button.details" locale []) (u "checkme_detail:" ++ u ban_id) ::
               match proof_link with Some l => [url_button "button.proof" locale l] | None => [] end);
       kb_row [url_button "button.appeal" locale (TBuild "appeal_deep_link" [TStr bot_username; TStr ban_id])]]).

Definition checkme_detail_back_kb (ban_id : string) (proof_link : option text) (locale : ustr) : text :=
  keyboard (match proof_link with Some l => [kb_row [url_button "button.proof" locale l]] | None => [] end ++
            [kb_row [button (TKey "button.back" locale []) (u "checkme_back:" ++ u ban_id)]]).
End keyboards.

(** The data of the buttons of a keyboard, in order. *)
Fixpoint taps (kb : text) : list string :=
  match kb with
  | TBuild name args =>
      if String.eqb name "button" then match args with [_; TStr data] => [data] | _ => [] end
      else if String.eqb name "url_button" then []
      else flat_map taps args
  | _ => []
  end.

Lemma taps_keyboard rows : taps (keyboard rows) = flat_map taps rows.
Proof. reflexivity. Qed.
Lemma taps_row bs : taps (kb_row bs) = flat_map taps bs.
Proof. reflexivity. Qed.

(** * Data and where it leads *)
Lemma fields_app (a b : ustr) : Forall (fun c => c <> c_colon) a -> fields (a ++ colon ++ b) = a :: fields b.
Proof.
  induction 1 as [|c a Hc _ IH]; [done|]. cbn [app fields] in *. rewrite IH.
  by rewrite (proj2 (Z.eqb_neq _ _) Hc).
Qed.

Lemma fields_plain (a : ustr) : Forall (fun c => c <> c_colon) a -> fields a = [a].
Proof.
  induction 1 as [|c a Hc _ IH]; [done|]. cbn [fields]. by rewrite IH, (proj2 (Z.eqb_neq _ _) Hc).
Qed.

Lemma partition_app (a b : ustr) :
  Forall (fun c => c <> c_colon) a -> partition1 c_colon (a ++ colon ++ b) = (a, true, b).
Proof.
  induction 1 as [|c a Hc _ IH]; [done|]. cbn [app partition1] in *. by rewrite IH, (proj2 (Z.eqb_neq _ _) Hc).
Qed.

Lemma str_int_no_colon z : Forall (fun c => c <> c_colon) (str_int z).
Proof.
  eapply Forall_impl; [apply str_int_chars|]. intros c Hc ->. unfold c_colon, c_minus, ch in Hc. simpl in Hc. lia.
Qed.

Section routes.
Context `{UCD}.

Lemma digits_str_int z : 0 <= z -> digits (str_int z) = true.
Proof.
  intros Hz. destruct (str_int_decimal z Hz) as (Hn & Hd & _). unfold digits.
  destruct (str_int z); [done|]. apply forallb_forall. intros c Hc. by apply (proj1 (Forall_forall _ _) Hd), list_elem_of_In.
Qed.

Lemma digits_negative z : z < 0 -> digits (str_int z) = false.
Proof.
  intros Hz. unfold str_int. destruct z as [|p|p]; try lia. cbn [Z.to_int digits forallb].
  unfold is_decimal. by rewrite decimal_digit_ascii by done.
Qed.

Lemma signed_str_int z : signed_digits (str_int z) = true.
Proof.
  destruct (Z.ltb_spec z 0) as [Hz|Hz].
  - pose proof (digits_str_int (- z) ltac:(lia)) as Hd. unfold str_int in *.
    destruct z as [|p|p]; try lia. exact Hd.
  - pose proof (digits_str_int z Hz) as Hd. destruct (str_int_decimal z Hz) as (Hn & Hf & _).
    unfold signed_digits. destruct (str_int z) as [|c s]; [done|]. inversion Hf as [|? ? Hc _]; subst.
    destruct (Z.eqb_spec c c_minus) as [->|]; [|exact Hd]. unfold is_decimal in Hc.
    rewrite decimal_digit_ascii in Hc by done. done.
Qed.

(** Buttons the handlers were written for. *)
Definition routable (d : drill) : Prop :=
  0 <= about d /\ 0 <= page_of d /\ match d with BanItem _ id => short_id id = true | _ => True end.

Lemma with_int_app a n b : with_int a n ++ b = a ++ colon ++ str_int n ++ b.
Proof. unfold with_int. by rewrite <- !app_assoc. Qed.

Section readers.
Context (name : string) (Hname : Forall (fun c => c <> c_colon) (u name)).

Lemma fields_1 t : fields (with_int (u name) t) = [u name; str_int t].
Proof. unfold with_int. by rewrite fields_app, fields_plain by (exact Hname || apply str_int_no_colon). Qed.

Lemma fields_2 t p : fields (with_int (with_int (u name) t) p) = [u name; str_int t; str_int p].
Proof.
  unfold with_int at 1. rewrite with_int_app.
  by rewrite !fields_app, fields_plain by (exact Hname || apply str_int_no_colon).
Qed.

Lemma fields_3 t c p :
  fields (with_int (with_int (with_int (u name) t) c) p) = [u name; str_int t; str_int c; str_int p].
Proof.
  unfold with_int at 1. rewrite !with_int_app.
  by rewrite !fields_app, fields_plain by (exact Hname || apply str_int_no_colon).
Qed.

Lemma fields_item t id : Forall (fun c => c <> c_colon) id ->
  fields (with_int (u name) t ++ colon ++ id) = [u name; str_int t; id].
Proof.
  intros Hid. rewrite with_int_app.
  by rewrite !fields_app, fields_plain by (exact Hname || exact Hid || apply str_int_no_colon).
Qed.

Lemma one_int_data t : one_int (with_int (u name) t) = Some t.
Proof. unfold one_int, with_int. by rewrite partition_app, py_int_str_int by exact Hname. Qed.

Lemma two_ints_data t p : two_ints (with_int (with_int (u name) t) p) = Some (t, p).
Proof. unfold two_ints. by rewrite fields_2, !py_int_str_int. Qed.

Lemma three_ints_data t c p : three_ints (with_int (with_int (with_int (u name) t) c) p) = Some (t, c, p).
Proof. unfold three_ints. by rewrite fields_3, !py_int_str_int. Qed.

Lemma int_and_id_data t id : int_and_id (with_int (u name) t ++ colon ++ id) = Some (t, id).
Proof.
  unfold int_and_id. rewrite with_int_app, partition_app by exact Hname.
  by rewrite partition_app, py_int_str_int by apply str_int_no_colon.
Qed.
End readers.

Lemma short_id_no_colon id : short_id id = true -> Forall (fun c => c <> c_colon) id.
Proof.
  intros Hid. assert (forallb (fun c => ascii_lower_letter c || ((48 <=? c) && (c <=? 57))) id = true) as Hf.
  { by destruct id. }
  apply Forall_forall. intros c Hc%list_elem_of_In ->. rewrite forallb_forall in Hf. by apply Hf in Hc.
Qed.

(** The first pattern with this name decides. *)
Lemma handler_by_name data name fs :
  fields data = u name :: fs ->
  handler_of data =
    match List.filter (fun p => ueqb (u name) (u p.1.2) && fit p.2 fs) patterns with
    | (v, _, _) :: _ => Some v
    | [] => None
    end.
Proof.
  intros Hf. unfold handler_of, matches. rewrite Hf.
  erewrite filter_ext; [reflexivity|]. by intros [[v pre] shapes].
Qed.

Ltac closed_eqb :=
  repeat match goal with
  | |- context [ueqb (u ?a) (u ?b)] =>
      let v := eval vm_compute in (ueqb (u a) (u b)) in change (ueqb (u a) (u b)) with v
  end.

Ltac no_colon := vm_compute; repeat constructor; discriminate.

Ltac handled name lem :=
  rewrite (handler_by_name _ name _ lem); unfold patterns; cbn [List.filter fst snd]; closed_eqb;
  cbn [andb fit]; rewrite ?digits_str_int, ?signed_str_int by done; cbn [andb].

(** Printing a button's data and routing it gives the button back. *)
Lemma data_routes d : routable d -> route (data_of d) = Some d.
Proof.
  intros (Ht & Hp & Hid). unfold route.
  destruct d as [t|t p|t id|t|t c p|t p|t p|t p]; cbn [about page_of data_of] in *.
  - handled "check_main"%string (fields_1 "check_main" ltac:(no_colon) t). cbn [mbind option_bind drill_of].
    by rewrite one_int_data by no_colon.
  - handled "check_bans"%string (fields_2 "check_bans" ltac:(no_colon) t p). cbn [mbind option_bind drill_of].
    by rewrite two_ints_data by no_colon.
  - handled "check_ban_item"%string (fields_item "check_ban_item" ltac:(no_colon) t id (short_id_no_colon _ Hid)).
    rewrite Hid. cbn [mbind option_bind drill_of andb]. by rewrite int_and_id_data by no_colon.
  - handled "check_warns"%string (fields_1 "check_warns" ltac:(no_colon) t). cbn [mbind option_bind drill_of].
    by rewrite one_int_data by no_colon.
  - handled "check_warn_chat"%string (fields_3 "check_warn_chat" ltac:(no_colon) t c p). cbn [mbind option_bind drill_of].
    by rewrite three_ints_data by no_colon.
  - handled "check_kicks"%string (fields_2 "check_kicks" ltac:(no_colon) t p). cbn [mbind option_bind drill_of].
    by rewrite two_ints_data by no_colon.
  - handled "check_mutes"%string (fields_2 "check_mutes" ltac:(no_colon) t p). cbn [mbind option_bind drill_of].
    by rewrite two_ints_data by no_colon.
  - handled "check_appeals"%string (fields_2 "check_appeals" ltac:(no_colon) t p). cbn [mbind option_bind drill_of].
    by rewrite two_ints_data by no_colon.
Qed.

Lemma no_digits_no_handler data name f fs :
  fields data = u name :: f :: fs -> digits f = false -> handler_of data = None.
Proof.
  intros Hd Hf. rewrite (handler_by_name _ _ _ Hd). unfold patterns. cbn [List.filter fst snd fit].
  by rewrite Hf, !andb_false_r.
Qed.

(** The handlers have different names, so at most one of them takes any data. *)
Lemma one_pattern data l :
  NoDup (map (fun p : view * string * list (ustr -> bool) => u p.1.2) l) -> (length (List.filter (matches data) l) <= 1)%nat.
Proof.
  induction l as [|p l IH]; cbn [map List.filter]; [simpl; lia|]. intros [Hp Hl]%NoDup_cons.
  destruct (matches data p) eqn:Hm; [|by apply IH].
  destruct (List.filter (matches data) l) as [|q l'] eqn:Hf; [simpl; lia|]. exfalso.
  assert (In q l /\ matches data q = true) as [Hq Hmq] by (apply List.filter_In; rewrite Hf; by left). apply Hp. apply list_elem_of_In, in_map_iff. exists q. split; [|done].
  destruct p as [[v pre] sh], q as [[v' pre'] sh']. cbn in *. destruct (fields data) as [|head fs]; [done|].
  apply andb_true_iff in Hm as [Hm _], Hmq as [Hmq _]. destruct (ueqb_spec head (u pre)), (ueqb_spec head (u pre')); congruence.
Qed.

Lemma handled_once data v : handler_of data = Some v -> length (List.filter (matches data) patterns) = 1%nat.
Proof.
  pose proof (one_pattern data patterns) as Hone. unfold handler_of. destruct (List.filter _ patterns) as [|p l]; [done|].
  intros _. cut (length (p :: l) <= 1)%nat; [simpl; lia|]. apply Hone. apply (bool_decide_unpack _). by vm_compute.
Qed.

(** No handler takes the buttons of a card about a negative id. *)
Lemma negative_dead d :
  about d < 0 -> match d with BanItem _ id => Forall (fun c => c <> c_colon) id | _ => True end ->
  route (data_of d) = None.
Proof.
  intros Ht Hid. unfold route. cut (handler_of (data_of d) = None); [by intros ->|].
  destruct d as [t|t p|t id|t|t c p|t p|t p|t p]; cbn [about data_of] in *;
    (eapply no_digits_no_handler; [|by apply (digits_negative t)]).
  - apply (fields_1 "check_main"). no_colon.
  - apply (fields_2 "check_bans"). no_colon.
  - apply (fields_item "check_ban_item"); [no_colon|exact Hid].
  - apply (fields_1 "check_warns"). no_colon.
  - apply (fields_3 "check_warn_chat"). no_colon.
  - apply (fields_2 "check_kicks"). no_colon.
  - apply (fields_2 "check_mutes"). no_colon.
  - apply (fields_2 "check_appeals"). no_colon.
Qed.
End routes.
