(* ===== verification/CheckViews.v ===== *)
(** The profile a moderator looks up, and its lists:
    [tcbot/modules/helper/workflows/check_flow/], [tcbot/modules/helper/ban_info.py]
    and the handlers of [tcbot/modules/checking/views.py]. *)

From stdpp Require Import pretty.
From S2P Require Import Prelude Prog Text World I18n Dispatch Cache Locale Roles Replies Auth Records Warns DemoteFlow BanFlow AppealReview Duration PromoteFlow Admins Prefixes Extract Handler Language Identity Drills.

Abbreviation card := (text * markup)%type.

(** Texts joined by newlines. *)
Definition lines (ts : list text) : text := TBuild "lines" ts.
Definition blank : text := TStr "".

Definition bold_of (t : text) : text := TBuild "bold" [t].
Definition code_of (t : text) : text := TBuild "code" [t].
Definition italic_of (t : text) : text := TBuild "italic" [t].

(** * Batch lookups of the member cache and of group titles *)

(** [user_mention_cache.get(uid)] for every distinct id: what the process has,
    and whom it does not. *)
Fixpoint cached_triples (uids : list Z) : io (list (Z * bson) * list Z) :=
  match uids with
  | [] => Ret ([], [])
  | uid :: uids' =>
      cached <- call (MemGet "umention" (pretty uid)) ;;
      rest <- cached_triples uids' ;;
      Ret match cached with
          | Some v => ((uid, v) :: rest.1, rest.2)
          | None => (rest.1, uid :: rest.2)
          end
  end.

Definition null_or (o : option bson) : bson := match o with Some v => v | None => BNull end.

(** [doc["user_id"]] *)
Definition row_id (key : string) (d : doc) : io Z :=
  match dget key d with
  | Some (BInt uid) => Ret uid
  | Some _ => Raise (OtherException "TypeError")
  | None => Raise (KeyError key)
  end.

(** The rows found become triples, kept in the cache. *)
Fixpoint store_found (docs : list doc) (result : gmap Z bson) : io (gmap Z bson) :=
  match docs with
  | [] => Ret result
  | d :: docs' =>
      uid <- row_id "user_id" d ;;
      let triple := BArr [match str_field "first_name" d with Some s => BStr s | None => BStr (pretty uid) end;
                          null_or (dget "username" d); null_or (dget "last_name" d)] in
      put "umention" (pretty uid) triple ;;;
      store_found docs' (<[uid := triple]> result)
  end.

Definition not_found_triple : bson := BArr [BNull; BNull; BNull].

Fixpoint store_absent (missing : list Z) (result : gmap Z bson) : io (gmap Z bson) :=
  match missing with
  | [] => Ret result
  | uid :: missing' =>
      match result !! uid with
      | Some _ => store_absent missing' result
      | None =>
          put "umention" (pretty uid) not_found_triple ;;;
          store_absent missing' (<[uid := not_found_triple]> result)
      end
  end.

(** [dict.fromkeys]: each id once, where it first stands. *)
Fixpoint distinct (l : list Z) : list Z :=
  match l with
  | [] => []
  | x :: l' => x :: List.filter (fun y => negb (x =? y)) (distinct l')
  end.

Definition _mention_triples (user_ids : list Z) : io (gmap Z bson) :=
  let! (hits, missing) := cached_triples (distinct user_ids) in
  let result := list_to_map hits in
  match missing with
  | [] => Ret result
  | _ =>
      docs <- db_call (Find "member_cache" ["user_id" ~> BDoc ["$in" ~> BArr (map BInt missing)]] [] 0 None) ;;
      result <- store_found docs result ;;
      store_absent missing result
  end.

(** [data[0]], or the id for a user nobody knows. *)
Definition first_of (uid : Z) (data : bson) : result string :=
  match data with
  | BArr (BStr name :: _) => Ok name
  | BArr (BNull :: _) => Ok (pretty uid)
  | BArr [] => Err (OtherException "IndexError")
  | _ => Err (OtherException "TypeError")
  end.

Fixpoint names_of (triples : list (Z * bson)) : io (gmap Z string) :=
  match triples with
  | [] => Ret ∅
  | (uid, data) :: triples' =>
      name <- of_result (first_of uid data) ;;
      rest <- names_of triples' ;;
      Ret (<[uid := name]> rest)
  end.

Definition get_first_names_batch (user_ids : list Z) : io (gmap Z string) :=
  triples <- _mention_triples user_ids ;;
  names_of (map_to_list triples).

Fixpoint titles_of (docs : list doc) : io (gmap Z string) :=
  match docs with
  | [] => Ret ∅
  | d :: docs' =>
      chat_id <- row_id "chat_id" d ;;
      rest <- titles_of docs' ;;
      Ret (match rest !! chat_id with
           | Some _ => rest
           | None => <[chat_id := match str_field "title" d with Some s => s | None => pretty chat_id end]> rest
           end)
  end.

(** [groups_db.get_group_titles]; of two rows for a chat the later one counts. *)
Definition get_group_titles (chat_ids : list Z) : io (gmap Z string) :=
  match chat_ids with
  | [] => Ret ∅
  | _ =>
      docs <- db_call (Find "federated_groups" ["chat_id" ~> BDoc ["$in" ~> BArr (map BInt chat_ids)]] [] 0 None) ;;
      titles_of docs
  end.

(** [titles.get(cid) or str(cid)] *)
Definition title_of (titles : gmap Z string) (cid : Z) : string :=
  match titles !! cid with Some s => if truthy_str s then s else pretty cid | None => pretty cid end.

(** * shared.py *)
Definition _PAGE_SIZE : Z := 5.
Definition _REASON_PREVIEW_LEN : nat := 80.
Definition _BAN_LIST_REASON_LEN : nat := 60.
Definition _BTNS_PER_ROW : nat := 3.

Section check.
Context {CAT : Catalog} (cfg : config) (bot_id : Z).

(** The task itself is [Identity._refresh_identity]; it is started and kept in
    the module's set. *)
Definition launch_identity_refresh (target_id : Z) : io unit := call (VarPut "_refresh_tasks" (BInt target_id)).

Definition _resolve_user_info (target_id : Z) : io (string * option string) :=
  d <- try_except (get_user target_id) (fun _ => Ret None) ;;
  let '(fname, uname) :=
    match d with
    | Some ((_ :: _) as row) =>
        (match str_field "first_name" row with Some s => s | None => pretty target_id end, str_field "username" row)
    | _ => (pretty target_id, None)
    end in
  stale <- identity_needs_refresh d ;;
  (if stale : bool then launch_identity_refresh target_id else Ret tt) ;;;
  Ret (fname, uname).

Definition _maybe_caveat (txt : text) (locale : ustr) (failed : bool) : text :=
  if failed then lines [txt; blank; TKey "checking.profile.caveat" locale []] else txt.

Definition _name (uid : Z) : io string := get_first_name uid (pretty uid).

(** [date_or_unknown(value, locale)] *)
Definition date_or_unknown (v : option bson) (locale : ustr) : text :=
  match v with
  | Some (BDate ts) => TBuild "fmt_dt" [TInt ts]
  | _ => TKey "common.action.unknown_date" locale []
  end.

Definition _ban_ts (ban : doc) (locale : ustr) : text := date_or_unknown (dget "timestamp" ban) locale.

Definition _appeal_ts (ban : doc) (locale : ustr) : text :=
  match dget "appeal_submitted_at" ban with
  | Some (BDate ts) => TBuild "fmt_dt" [TInt ts]
  | _ => _ban_ts ban locale
  end.

(** The start of the stored reason, or of the words for none. *)
Definition reason_short (n : nat) (d : doc) (locale : ustr) : text :=
  match dget "reason" d with
  | Some BNull | None => TBuild "take" [TInt (Z.of_nat n); TKey "checking.events.no_reason" locale []]
  | Some v => TStr (str_take n (match v with BStr s => s | _ => "" end))
  end.

(** * One page of records

    The count and something beside it, then the rows of the page clamped into
    the count. *)
Record listing := Listing {
  l_total : Z;
  l_pages : Z;
  l_page : Z;
  l_rows : list doc;
  count_failed : bool;
  rows_failed : bool
}.

Definition pages_of (total : Z) : Z := Z.max 1 ((total + _PAGE_SIZE - 1) / _PAGE_SIZE).
Definition clamp (page total_pages : Z) : Z := Z.max 0 (Z.min page (total_pages - 1)).

Definition fetch_page {B} (count : io Z) (beside : io B) (db_rows : Z -> option Z -> io (list doc)) (page : Z)
    : io (listing * result B) :=
  let! (total, other) := gather2 count beside in
  let known := match total with Ok n => n | Err _ => 0 end in
  let total_pages := pages_of known in
  let page := clamp page total_pages in
  fetched <- try_except (ds <- db_rows (page * _PAGE_SIZE) (Some _PAGE_SIZE) ;; Ret (Some ds)) (fun _ => Ret None) ;;
  let chunk := match fetched with Some ds => ds | None => [] end in
  let failed := match fetched with Some _ => false | None => true end in
  if is_err total then
    let n := Z.of_nat (length chunk) in
    Ret (Listing n (pages_of n) page chunk true failed, other)
  else Ret (Listing known total_pages page chunk false failed, other).

(** The retry card: an outage is never the empty card. *)
Definition retry_card (target_id : Z) (locale : ustr) : card :=
  (TKey "checking.warns.db_fail" locale [], Some (keyboard [check_back_row target_id locale])).

(** * bans.py *)
Record ban_list := BanList {
  db_call_of : Z -> Z -> option Z -> io (list doc);
  count_call : Z -> io Z;
  key_prefix : string;
  nav_prefix : string;
  active_key : string;
  inactive_key : string;
  ts_of : doc -> ustr -> text;
  show_reason : bool
}.

Definition bans_view : ban_list :=
  BanList user_bans user_ban_count "bans" "check_bans" "active" "inactive" _ban_ts true.
Definition appeals_view : ban_list :=
  BanList user_appealable_bans user_appeal_count "appeals_list" "check_appeals" "pending" "approved" _appeal_ts false.

Definition view_key (v : ban_list) (key : string) : string := ("checking." ++ key_prefix v ++ "." ++ key)%string.

Definition ban_item (v : ban_list) (i : Z) (ban : doc) (locale : ustr) : text :=
  let status := if py_truthy (dget "is_active" ban) then active_key v else inactive_key v in
  TKey (view_key v "item") locale
    ([("i"%string, TInt i); ("status"%string, TKey (view_key v status) locale []);
      ("ban"%string, code_of (TStr (dget_str "ban_id" ban ""))); ("ts"%string, ts_of v ban locale)] ++
     if show_reason v then [("reason"%string, italic_of (reason_short _BAN_LIST_REASON_LEN ban locale))] else []).

(** [enumerate(l, start)] *)
Fixpoint enumerate {A} (start : Z) (l : list A) : list (Z * A) :=
  match l with [] => [] | x :: l' => (start, x) :: enumerate (start + 1) l' end.

Definition ban_items (v : ban_list) (l : listing) (locale : ustr) : list text :=
  map (fun '(i, ban) => ban_item v i ban locale) (enumerate (l_page l * _PAGE_SIZE + 1) (l_rows l)).

(** The numbered buttons of the rows. *)
Definition ban_buttons (target_id : Z) (l : listing) : list (string * ustr) :=
  map (fun '(i, ban) => (s_of (str_int i), with_int (u "check_ban_item") target_id ++ colon ++ u (dget_str "ban_id" ban "")))
    (enumerate (l_page l * _PAGE_SIZE + 1) (l_rows l)).

Definition _ban_list_render (target_id page : Z) (locale : ustr) (v : ban_list) : io card :=
  let! (l, name) := fetch_page (count_call v target_id) (_name target_id) (db_call_of v target_id) page in
  let display_name := match name with Ok n => n | Err _ => pretty target_id end in
  match l_rows l with
  | [] =>
      if count_failed l || rows_failed l then Ret (retry_card target_id locale)
      else
        Ret (_maybe_caveat (TKey (view_key v "empty") locale [("user"%string, TUser target_id display_name)])
               locale (count_failed l),
             Some (keyboard [check_back_row target_id locale]))
  | _ =>
      let header := TKey (view_key v "header") locale
        [("n"%string, TInt (l_total l)); ("page"%string, TInt (l_page l + 1)); ("pages"%string, TInt (l_pages l))] in
      Ret (_maybe_caveat (lines (header :: blank :: ban_items v l locale)) locale (count_failed l || rows_failed l),
           Some (paged_drill_kb (ban_buttons target_id l) (l_page l) (l_pages l) (with_int (u (nav_prefix v)) target_id)
                   (with_int (u "check_main") target_id) [] _BTNS_PER_ROW locale))
  end.

Definition bans_list (target_id page : Z) (locale : ustr) : io card := _ban_list_render target_id page locale bans_view.
Definition appeals_list (target_id page : Z) (locale : ustr) : io card :=
  _ban_list_render target_id page locale appeals_view.

(** ** ban_info.py *)
Definition mention_or_id (uid : Z) (r : result (string * option string)) : string * option string :=
  match r with Ok m => m | Err _ => (pretty uid, None) end.

Definition ban_mentions (uid aid : Z) (target_fname : option string)
    : io ((string * option string) * (string * option string)) :=
  match target_fname with
  | None =>
      let! (r_target, r_admin) := gather2 (get_user_mention_data uid) (get_user_mention_data aid) in
      throw_if_cancelled [void r_target; void r_admin] ;;;
      Ret (mention_or_id uid r_target, mention_or_id aid r_admin)
  | Some fname =>
      admin <- try_except (get_user_mention_data aid) (fun _ => Ret (pretty aid, None)) ;;
      Ret ((fname, None), admin)
  end.

(** [d.get("reason") or t("checking.events.no_reason")] *)
Definition reason_or_none (ban : doc) (locale : ustr) : text :=
  match str_field "reason" ban with Some s => TStr s | None => TKey "checking.events.no_reason" locale [] end.

Definition detail_date (ban : doc) (locale : ustr) : text :=
  match dget "timestamp" ban with
  | Some (BDate ts) => TBuild "fmt_dt" [TInt ts]
  | _ => TKey "checking.ban_info.unknown_date" locale []
  end.

Definition build_ban_detail (ban : doc) (target_fname : option string) (locale : ustr) : io (text * option text) :=
  let uid := dget_int "banned_user_id" ban 0 in
  let aid := dget_int "admin_user_id" ban 0 in
  let! (target, admin) := ban_mentions uid aid target_fname in
  let (proof_chat, proof_thread) := cfg_proofs cfg in
  let proof_msg_id := dget_int "proof_message_id" ban 0 in
  let proof_link := if truthy_Z proof_msg_id then Some (TLink proof_chat proof_msg_id proof_thread) else None in
  let key k arg v := TKey ("checking.ban_info." ++ k)%string locale [(arg%string, v)] in
  Ret (lines [TKey "checking.ban_info.title" locale []; blank;
              key "user"%string "user"%string (TUserRef uid target.1 target.2);
              key "user_id"%string "id"%string (code_of (TInt uid)); blank;
              key "banned_by"%string "admin"%string (TUserRef aid admin.1 admin.2);
              key "admin_id"%string "id"%string (code_of (TInt aid)); blank;
              key "reason"%string "reason"%string (reason_or_none ban locale);
              key "ban_id"%string "id"%string (code_of (TStr (dget_str "ban_id" ban "")));
              key "date"%string "date"%string (detail_date ban locale)],
       proof_link).

(** [ban.get("banned_user_id") == target_id] *)
Definition ban_of_user (target_id : Z) (ban : doc) : bool :=
  match dget "banned_user_id" ban with Some (BInt uid) => uid =? target_id | _ => false end.

Definition link_field (key : string) (d : doc) : option text := TStr <$> str_field key d.

Definition ban_detail (target_id : Z) (ban_id : string) (locale : ustr) : io card :=
  let back := with_int (with_int (u "check_bans") target_id) 0 in
  let refused key := (TKey key locale [("ban"%string, code_of (TStr ban_id))], back_to_module_kb back locale) in
  ban <- try_except (b <- get_ban ban_id ;; Ret (Some b)) (fun _ => Ret None) ;;
  match ban with
  | None => Ret (refused "checking.bans.db_fail"%string)
  | Some None | Some (Some []) => Ret (refused "checking.bans.not_found"%string)
  | Some (Some ban) =>
      if negb (ban_of_user target_id ban) then Ret (refused "checking.bans.not_found"%string)
      else
        let! (txt, proof_link) := build_ban_detail ban None locale in
        Ret (txt, Some (detail_kb back proof_link (link_field "appeal_link" ban) locale))
  end.

(** * events.py *)
Definition warns_by_group (target_id : Z) (locale : ustr) : io card :=
  let! (groups, name) := gather2 (user_warn_groups target_id) (_name target_id) in
  match groups with
  | Err _ => Ret (retry_card target_id locale)
  | Ok [] =>
      let display_name := match name with Ok n => n | Err _ => pretty target_id end in
      Ret (TKey "checking.warns.empty" locale [("user"%string, TUser target_id display_name)],
           Some (keyboard [check_back_row target_id locale]))
  | Ok groups =>
      titles <- try_except (get_group_titles (map fst groups)) (fun _ => Ret ∅) ;;
      let total := fold_right Z.add 0 (map snd groups) in
      let header := TKey "checking.warns.header" locale
        [("n"%string, TInt total); ("groups"%string, TInt (Z.of_nat (length groups)))] in
      let group_line '(cid, count) := TKey "checking.warns.group_line" locale
        [("title"%string, TStr (title_of titles cid)); ("n"%string, bold_of (TInt count))] in
      Ret (lines (header :: blank :: map group_line groups),
           Some (check_warn_groups_kb target_id
                   (map (fun '(cid, count) => (title_of titles cid, count, cid)) groups) locale))
  end.

(** The ids of the admins the rows name, and what to call them. *)
Definition admin_ids (rows : list doc) : list Z :=
  List.filter truthy_Z (map (fun d => dget_int "admin_id" d 0) rows).

Definition admin_names (rows : list doc) : io (gmap Z string) :=
  match admin_ids rows with [] => Ret ∅ | ids => get_first_names_batch ids end.

Definition admin_ref (names : gmap Z string) (d : doc) : text :=
  let admin_id := dget_int "admin_id" d 0 in
  let name := if truthy_Z admin_id then match names !! admin_id with Some n => n | None => "Admin"%string end
              else "Admin"%string in
  TUser admin_id name.

(** Rows [first], [first + 1], ... of a list of warnings, kicks or mutes. *)
Definition event_item (key : string) (titles : option (gmap Z string)) (names : gmap Z string) (locale : ustr)
    (i : Z) (d : doc) : text :=
  TKey key locale
    ([("i"%string, TInt i); ("ts"%string, _ban_ts d locale)] ++
     match titles with
     | Some titles => [("title"%string, TStr (title_of titles (dget_int "chat_id" d 0)))]
     | None => []
     end ++
     [("reason"%string, italic_of (reason_short _REASON_PREVIEW_LEN d locale)); ("admin"%string, admin_ref names d)]).

Definition event_items (key : string) (titles : option (gmap Z string)) (names : gmap Z string) (locale : ustr)
    (l : listing) : list text :=
  map (fun '(i, d) => event_item key titles names locale i d) (enumerate (l_page l * _PAGE_SIZE + 1) (l_rows l)).

Definition warns_in_group (target_id chat_id page : Z) (locale : ustr) : io card :=
  let! (l, titles) := fetch_page (warn_count target_id chat_id) (get_group_titles [chat_id])
                        (fun skip limit => get_warns target_id chat_id skip limit true) page in
  let titles := match titles with Ok m => m | Err _ => ∅ end in
  let title := TStr (title_of titles chat_id) in
  match l_rows l with
  | [] =>
      Ret (_maybe_caveat (TKey "checking.warns.in_empty" locale [("title"%string, title)]) locale
             (count_failed l || rows_failed l),
           Some (keyboard [check_warns_back_row target_id locale]))
  | warns =>
      names <- admin_names warns ;;
      let header := TKey "checking.warns.in_header" locale
        [("title"%string, title); ("n"%string, TInt (l_total l)); ("page"%string, TInt (l_page l + 1));
         ("pages"%string, TInt (l_pages l))] in
      Ret (_maybe_caveat (lines (header :: blank :: event_items "checking.warns.in_item" None names locale l)) locale
             (count_failed l),
           Some (keyboard (nav_rows (l_page l) (l_pages l)
                             (with_int (with_int (u "check_warn_chat") target_id) chat_id) locale ++
                           [check_warns_back_row target_id locale])))
  end.

(** The chats the rows name; Python's set leaves their order open. *)
Definition chat_ids (rows : list doc) : list Z :=
  distinct (omap (fun d => dget "chat_id" d ≫= bint) rows).

Record event_list := EventList {
  heading_name : string;
  lower_name : string;
  ev_rows : Z -> Z -> option Z -> io (list doc);
  ev_count : Z -> io Z;
  cb_prefix : string
}.

Definition kicks_view : event_list := EventList "Kicks" "kicks" user_kicks user_kick_count "check_kicks".
Definition mutes_view : event_list := EventList "Mutes" "mutes" user_mutes user_mute_count "check_mutes".

Definition _per_chat_event_list (target_id page : Z) (v : event_list) (locale : ustr) : io card :=
  let! (l, name) := fetch_page (ev_count v target_id) (_name target_id) (ev_rows v target_id) page in
  let display_name := match name with Ok n => n | Err _ => pretty target_id end in
  let heading := ("heading"%string, bold_of (TStr (heading_name v))) in
  match l_rows l with
  | [] =>
      if count_failed l || rows_failed l then Ret (retry_card target_id locale)
      else
        Ret (_maybe_caveat (TKey "checking.events.empty" locale
               [heading; ("lower"%string, TStr (lower_name v)); ("user"%string, TUser target_id display_name)])
               locale (count_failed l),
             Some (keyboard [check_back_row target_id locale]))
  | records =>
      let! (titles, names) := gather2 (get_group_titles (chat_ids records)) (admin_names records) in
      let titles := match titles with Ok m => m | Err _ => ∅ end in
      let names := match names with Ok m => m | Err _ => ∅ end in
      let header := TKey "checking.events.header" locale
        [heading; ("n"%string, TInt (l_total l)); ("page"%string, TInt (l_page l + 1)); ("pages"%string, TInt (l_pages l))] in
      Ret (_maybe_caveat (lines (header :: blank :: event_items "checking.events.item" (Some titles) names locale l))
             locale (count_failed l),
           Some (keyboard (nav_rows (l_page l) (l_pages l) (with_int (u (cb_prefix v)) target_id) locale ++
                           [check_back_row target_id locale])))
  end.

Definition kicks_list (target_id page : Z) (locale : ustr) : io card := _per_chat_event_list target_id page kicks_view locale.
Definition mutes_list (target_id page : Z) (locale : ustr) : io card := _per_chat_event_list target_id page mutes_view locale.

(** * profile.py *)

(** [identity.profile_note] *)
Definition profile_note (ident : Identity) (locale : ustr) : option text :=
  match id_kind ident with
  | ThisBot => Some (TKey "identity.note.this_bot" locale [])
  | Self => Some (TKey "identity.note.self" locale [])
  | Telegram => Some (TKey "identity.note.telegram" locale [])
  | AnonAdmin => Some (TKey "identity.note.anon_admin" locale [])
  | _ => None
  end.

(** The seven counters. *)
Record counters := Counters {
  ban_total : result Z;
  appeal_total : result Z;
  warn_total : result Z;
  warn_groups : result (list (Z * Z));
  fed_warn_total : result Z;
  kick_total : result Z;
  mute_total : result Z
}.

Definition read_counters (target_id : Z) : io counters :=
  let! (records, warns) :=
    gather2 (gather4 (user_ban_count target_id) (user_appeal_count target_id)
                     (user_kick_count target_id) (user_mute_count target_id))
            (gather3 (user_total_warns target_id) (user_warn_groups target_id) (federation_warn_count target_id)) in
  let! (bans, appeals, kicks, mutes) := of_result records in
  let! (warns, groups, fed) := of_result warns in
  Ret (Counters bans appeals warns groups fed kicks mutes).

(** Everything the card shows, read at once; the viewer's identity only when
    there is one. *)
Record profile_reads := ProfileReads {
  r_user_info : result (string * option string);
  r_role_meta : result (bson * bson * bson);
  r_ban : result (option doc);
  r_mute : result (option doc);
  r_counters : counters;
  r_ident : option (result Identity)
}.

Definition read_profile (executor_id : option Z) (target_id : Z) : io profile_reads :=
  let! (reads, rest) :=
    gather2 (gather4 (_resolve_user_info target_id) (role_meta target_id) (get_active_ban target_id)
                     (get_active_mute target_id))
            (gather2 (read_counters target_id)
                     (match executor_id with
                      | Some e => ident <- attempt (classify bot_id e target_id None None) ;; Ret (Some ident)
                      | None => Ret None
                      end)) in
  let! (info, role, ban, mute) := of_result reads in
  let! (counted, ident) := of_result rest in
  counted <- of_result counted ;;
  ident <- of_result ident ;;
  Ret (ProfileReads info role ban mute counted ident).

Definition counts_failed (c : counters) : bool :=
  is_err (ban_total c) || is_err (appeal_total c) || is_err (warn_total c) || is_err (warn_groups c) ||
  is_err (fed_warn_total c) || is_err (kick_total c) || is_err (mute_total c).

Definition num (r : result Z) : Z := match r with Ok n => n | Err _ => 0 end.

Definition active_part (ban : result (option doc)) (locale : ustr) : text :=
  match ban with
  | Err _ => TKey "checking.profile.unknown" locale []
  | Ok (Some ((_ :: _) as ban)) =>
      TKey "checking.profile.yes_ban" locale [("ban"%string, code_of (TStr (dget_str "ban_id" ban "")))]
  | Ok _ => TKey "checking.profile.no" locale []
  end.

Definition active_mute_part (mute : result (option doc)) (locale : ustr) : text :=
  match mute with
  | Err _ => TKey "checking.profile.unknown" locale []
  | Ok (Some (_ :: _)) => TKey "checking.profile.yes" locale []
  | Ok _ => TKey "checking.profile.no" locale []
  end.

Definition role_label_text (role : bson) (locale : ustr) : text :=
  let regular := TKey "checking.profile.regular" locale [] in
  match role with
  | BStr s => if truthy_str s then match assoc s ROLE_LABEL with Some l => TStr l | None => regular end else regular
  | _ => regular
  end.

(** The role, who gave it and when; a founder was given it by nobody. *)
Definition role_lines (meta : bson * bson * bson) (locale : ustr) : io (list text) :=
  let '(role, by_, at_) := meta in
  let granted := truthy_role role && negb (role_is "founder" role) in
  by_line <- match bint by_ with
             | Some by_id =>
                 if granted && truthy_Z by_id then
                   by_name <- get_first_name by_id (pretty by_id) ;;
                   Ret [TKey "checking.profile.assigned_by" locale [("by"%string, TUser by_id by_name)]]
                 else Ret []
             | None => Ret []
             end ;;
  let at_line := match at_ with
                 | BDate ts => if granted then [TKey "checking.profile.assigned_at" locale [("at"%string, TBuild "fmt_dt" [TInt ts])]] else []
                 | _ => []
                 end in
  Ret (TKey "checking.profile.role" locale [("role"%string, bold_of (role_label_text role locale))] :: by_line ++ at_line).

(** The lines from the activity heading on. *)
Definition activity_lines (ban mute : result (option doc)) (c : counters) (locale : ustr) : list text :=
  let key k args := TKey ("checking.profile." ++ k)%string locale args in
  let groups := match warn_groups c with Ok g => g | Err _ => [] end in
  [key "activity"%string []; blank;
   key "active_ban"%string [("state"%string, active_part ban locale)];
   key "active_mute"%string [("state"%string, active_mute_part mute locale)];
   key "total_bans"%string [("n"%string, TInt (num (ban_total c)))];
   key "warnings"%string [("active"%string, TInt (num (fed_warn_total c)));
                          ("groups"%string, TInt (Z.of_nat (length groups))); ("total"%string, TInt (num (warn_total c)))];
   key "kicks"%string [("n"%string, TInt (num (kick_total c)))];
   key "mutes"%string [("n"%string, TInt (num (mute_total c)))];
   key "appeals"%string [("n"%string, TInt (num (appeal_total c)))]].

Definition profile (target_id : Z) (executor_id : option Z) (locale : ustr) : io card :=
  r <- read_profile executor_id target_id ;;
  let '(fname, uname) := match r_user_info r with Ok info => info | Err _ => (pretty target_id, None) end in
  let meta := match r_role_meta r with Ok meta => meta | Err _ => (BNull, BNull, BNull) end in
  note <- match r_ident r with
          | Some (Err CancelledError) => Raise CancelledError
          | Some (Ok ident) => Ret (profile_note ident locale)
          | _ => Ret None
          end ;;
  role_block <- role_lines meta locale ;;
  let key k args := TKey ("checking.profile." ++ k)%string locale args in
  let uname_line := match uname with
                    | Some un => if truthy_str un then key "username"%string [("name"%string, TStr un)] else key "username_none"%string []
                    | None => key "username_none"%string []
                    end in
  let c := r_counters r in
  let txt := lines
    (match note with Some note => [note; blank] | None => [] end ++
     [key "title"%string []; blank;
      key "name"%string [("user"%string, TUser target_id fname)];
      key "id"%string [("id"%string, code_of (TInt target_id))]; uname_line] ++
     role_block ++ [blank] ++ activity_lines (r_ban r) (r_mute r) c locale) in
  Ret (_maybe_caveat txt locale (counts_failed c),
       Some (check_profile_kb target_id (num (ban_total c)) (num (appeal_total c)) (num (fed_warn_total c))
               (num (kick_total c)) (num (mute_total c)) locale)).

(** * views.py *)
Definition check_command (c : command) (msg : message) (target_id : Z) (target_fname : string) (locale : ustr) : io unit :=
  (if truthy_str target_fname && negb (String.prefix "User " target_fname) && negb (numeric_name target_fname)
   then suppress (upsert_user target_id None target_fname None)
   else Ret tt) ;;;
  let! (txt, kb) := profile target_id (effective_user (c_upd c)) locale in
  safe_reply_kb msg txt kb.

Definition cmd_check_body (c : command) : io unit :=
  match effective_message (c_upd c) with
  | None => Ret tt
  | Some msg =>
      locale <- locale_for_update (c_upd c) ;;
      hit <- extract_target (c_incoming c) (args_of msg) true true ;;
      match hit with
      | Some (target_id, target_fname) =>
          if truthy_Z target_id then check_command c msg target_id target_fname locale
          else safe_reply msg (err_cannot_resolve locale)
      | None => safe_reply msg (err_cannot_resolve locale)
      end
  end.

(** A list's handler: data it cannot read is only acknowledged. *)
Definition on_view {A} (upd : update) (q : option callback) (parse : ustr -> option A) (render : A -> ustr -> io card)
    : io unit :=
  match q with
  | None => Ret tt
  | Some (Callback m None) => answer
  | Some (Callback m (Some data)) =>
      match parse (u data) with
      | None => answer
      | Some a => locale <- locale_for_update upd ;; ack_and_render m (render a locale)
      end
  end.

Definition on_check_main_body upd q :=
  on_view upd q one_int (fun target_id locale => profile target_id (effective_user upd) locale).
Definition on_check_bans_body upd q := on_view upd q two_ints (fun '(target_id, page) locale => bans_list target_id page locale).
Definition on_check_ban_item_body upd q :=
  on_view upd q int_and_id (fun '(target_id, ban_id) locale => ban_detail target_id (s_of ban_id) locale).
Definition on_check_warns_body upd q := on_view upd q one_int warns_by_group.
Definition on_check_warn_chat_body upd q :=
  on_view upd q three_ints (fun '(target_id, chat_id, page) locale => warns_in_group target_id chat_id page locale).
Definition on_check_kicks_body upd q := on_view upd q two_ints (fun '(target_id, page) locale => kicks_list target_id page locale).
Definition on_check_mutes_body upd q := on_view upd q two_ints (fun '(target_id, page) locale => mutes_list target_id page locale).
Definition on_check_appeals_body upd q :=
  on_view upd q two_ints (fun '(target_id, page) locale => appeals_list target_id page locale).

Definition cmd_check (c : command) := ratelimiter_wrapper "cmd_check" (cmd_check_body c) (c_upd c).
Definition on_check_main upd q := ratelimiter_wrapper "on_check_main" (on_check_main_body upd q) upd.
Definition on_check_bans upd q := ratelimiter_wrapper "on_check_bans" (on_check_bans_body upd q) upd.
Definition on_check_ban_item upd q := ratelimiter_wrapper "on_check_ban_item" (on_check_ban_item_body upd q) upd.
Definition on_check_warns upd q := ratelimiter_wrapper "on_check_warns" (on_check_warns_body upd q) upd.
Definition on_check_warn_chat upd q := ratelimiter_wrapper "on_check_warn_chat" (on_check_warn_chat_body upd q) upd.
Definition on_check_kicks upd q := ratelimiter_wrapper "on_check_kicks" (on_check_kicks_body upd q) upd.
Definition on_check_mutes upd q := ratelimiter_wrapper "on_check_mutes" (on_check_mutes_body upd q) upd.
Definition on_check_appeals upd q := ratelimiter_wrapper "on_check_appeals" (on_check_appeals_body upd q) upd.
End check.

(** * What ran

    [ran p r t]: somewhere in the run [t], [p] was run and ended with [r];
    [during p a] is [ran p (Ok a)]. *)
Definition ran {A} (p : io A) (r : result A) (t : trace eff) : Prop := exists t', t' `sublist_of` t /\ exec p t' r.

Section ran.
Context (t : trace eff).

Lemma ran_exec {A} (p : io A) r : exec p t r -> ran p r t.
Proof. intros H. by exists t. Qed.

Lemma ran_bind {A B} (p : io A) (k : A -> io B) b :
  ran (bind p k) (Ok b) t -> exists a, ran p (Ok a) t /\ ran (k a) (Ok b) t.
Proof.
  intros (t' & Hs & (t1 & a & t2 & H1 & H2 & ->)%exec_bind_ok). exists a. split.
  - exists t1. split; [|done]. etrans; [|exact Hs]. by apply sublist_inserts_r.
  - exists t2. split; [|done]. etrans; [|exact Hs]. by apply sublist_inserts_l.
Qed.

Lemma ran_ret {A} (a b : A) : ran (Ret a) (Ok b) t -> b = a.
Proof. intros (t' & _ & _ & [= H]). done. Qed.

Lemma ran_raise {A} e (b : A) : ran (Raise e) (Ok b) t -> False.
Proof. intros (t' & _ & _ & [=]). Qed.

Lemma ran_of_result {A} (r : result A) b : ran (of_result r) (Ok b) t -> r = Ok b.
Proof. destruct r; [by intros ->%ran_ret|by intros ?%ran_raise]. Qed.

Lemma ran_attempt {A} (p : io A) r : ran (attempt p) (Ok r) t -> ran p r t.
Proof. intros (t' & Hs & (ra & [= ->] & H)%exec_attempt). by exists t'. Qed.

Lemma ran_gather2 {A B} (p : io A) (q : io B) a b : ran (gather2 p q) (Ok (a, b)) t -> ran p a t /\ ran q b t.
Proof.
  intros (t' & Hs & t1 & t2 & t12 & t3 & r1 & r2 & H1 & H2 & [Hi1 Hi2]%interleave_sublist & -> & [[_ H]|[_ H]]); [|done].
  injection H as -> ->.
  split; [exists t1|exists t2]; (split; [|done]); (etrans; [|exact Hs]); by apply sublist_inserts_r.
Qed.

Lemma ran_gather3 {A B C} (p : io A) (q : io B) (s : io C) a b c :
  ran (gather3 p q s) (Ok (a, b, c)) t -> ran p a t /\ ran q b t /\ ran s c t.
Proof.
  intros ([ra rbc] & [Ha Hbc]%ran_gather2 & H)%ran_bind. destruct rbc as [[rb rc]|e]; [|by apply ran_raise in H].
  apply ran_gather2 in Hbc as [Hb Hc]. apply ran_ret in H as [= -> -> ->]. done.
Qed.

Lemma ran_gather4 {A B C D} (p : io A) (q : io B) (s : io C) (v : io D) a b c d :
  ran (gather4 p q s v) (Ok (a, b, c, d)) t -> ran p a t /\ ran q b t /\ ran s c t /\ ran v d t.
Proof.
  intros ([rab rcd] & [Hab Hcd]%ran_gather2 & H)%ran_bind.
  apply ran_bind in H as ([ra rb] & ->%ran_of_result & H). apply ran_bind in H as ([rc rd] & ->%ran_of_result & H).
  apply ran_gather2 in Hab as [Ha Hb]. apply ran_gather2 in Hcd as [Hc Hd].
  apply ran_ret in H as [= -> -> -> ->]. done.
Qed.

(** A [try]: its block answered, or it failed and the handler did. *)
Lemma ran_try {A} (p : io A) h a :
  ran (try_except p h) (Ok a) t -> ran p (Ok a) t \/ exists e, ran p (Err e) t /\ ran (h e) (Ok a) t.
Proof.
  intros ([b|e] & Hp%ran_attempt & H)%ran_bind; [left|right]; [by apply ran_ret in H as ->|].
  destruct (is_Exception e); [by exists e|by apply ran_raise in H].
Qed.

(** [try: Some p except: None] *)
Lemma ran_option {A} (p : io A) o :
  ran (try_except (a <- p ;; Ret (Some a)) (fun _ => Ret None)) (Ok o) t -> forall a, o = Some a -> ran p (Ok a) t.
Proof.
  intros H a ->. apply ran_try in H as [H|(e & _ & H)]; [|by apply ran_ret in H].
  apply ran_bind in H as (a' & Hp & [= ->]%ran_ret). done.
Qed.
End ran.

(** * What a card claims *)

(** A message of the catalog with these arguments stands in a text. *)
Fixpoint mentions (f : string -> list (string * text) -> bool) (t : text) : bool :=
  match t with
  | TKey key _ args => f key args || existsb (fun a => mentions f a.2) args
  | TBuild _ args => existsb (mentions f) args
  | TCat parts => existsb (mentions f) parts
  | _ => false
  end.

Definition has_key (key : string) : text -> bool := mentions (fun k _ => String.eqb k key).

(** The ways to say that somebody's record is clean. *)
Inductive clean : Type :=
  | NoActiveBan | NoActiveMute | NoBans | NoAppeals | NoWarns | NoWarnsIn (chat : Z) | NoKicks | NoMutes.

(** The line of the profile whose state is no. *)
Definition state_no (line : string) (key : string) (args : list (string * text)) : bool :=
  String.eqb key line &&
  match args with [(_, TKey state _ _)] => String.eqb state "checking.profile.no" | _ => false end.

Definition says (c : clean) : text -> bool :=
  match c with
  | NoActiveBan => mentions (state_no "checking.profile.active_ban")
  | NoActiveMute => mentions (state_no "checking.profile.active_mute")
  | NoBans => has_key "checking.bans.empty"
  | NoAppeals => has_key "checking.appeals_list.empty"
  | NoWarns => has_key "checking.warns.empty"
  | NoWarnsIn _ => has_key "checking.warns.in_empty"
  | NoKicks | NoMutes => has_key "checking.events.empty"
  end.

Section honesty.
Context {CAT : Catalog} (cfg : config) (bot_id : Z).

(** The card that may say so. *)
Definition card_of (c : clean) (executor_id : option Z) (target_id page : Z) (locale : ustr) : io card :=
  match c with
  | NoActiveBan | NoActiveMute => profile bot_id target_id executor_id locale
  | NoBans => bans_list target_id page locale
  | NoAppeals => appeals_list target_id page locale
  | NoWarns => warns_by_group target_id locale
  | NoWarnsIn chat => warns_in_group target_id chat page locale
  | NoKicks => kicks_list target_id page locale
  | NoMutes => mutes_list target_id page locale
  end.

(** The count was answered, and the rows of one of its pages, with none. *)
Definition empty_page (count : io Z) (rows : Z -> option Z -> io (list doc)) (t : trace eff) : Prop :=
  exists n i, during count n t /\ 0 <= i < pages_of n /\ during (rows (i * _PAGE_SIZE) (Some _PAGE_SIZE)) [] t.

Definition no_row (d : option doc) : Prop := d = None \/ d = Some [].

(** What the database answered. *)
Definition evidence (c : clean) (target_id : Z) (t : trace eff) : Prop :=
  match c with
  | NoActiveBan => exists ban, during (get_active_ban target_id) ban t /\ no_row ban
  | NoActiveMute => exists mute, during (get_active_mute target_id) mute t /\ no_row mute
  | NoBans => empty_page (user_ban_count target_id) (user_bans target_id) t
  | NoAppeals => empty_page (user_appeal_count target_id) (user_appealable_bans target_id) t
  | NoWarns => during (user_warn_groups target_id) [] t
  | NoWarnsIn chat =>
      empty_page (warn_count target_id chat) (fun skip limit => get_warns target_id chat skip limit true) t
  | NoKicks => empty_page (user_kick_count target_id) (user_kicks target_id) t
  | NoMutes => empty_page (user_mute_count target_id) (user_mutes target_id) t
  end.

Lemma clamp_bounds page n : 0 <= clamp page (pages_of n) < pages_of n.
Proof. unfold clamp, pages_of. lia. Qed.

(** A page: in range, its rows and its total what the database answered unless
    they are marked as failed. *)
Lemma page_facts {B} (count : io Z) (beside : io B) rows page t l o :
  ran (fetch_page count beside rows page) (Ok (l, o)) t ->
  0 <= l_page l < l_pages l /\ ran beside o t /\ (rows_failed l = true -> l_rows l = []) /\
  (rows_failed l = false -> during (rows (l_page l * _PAGE_SIZE) (Some _PAGE_SIZE)) (l_rows l) t) /\
  (count_failed l = false -> during count (l_total l) t /\ l_pages l = pages_of (l_total l)).
Proof.
  intros ([total other] & [Hcount Hbeside]%ran_gather2 & H)%ran_bind.
  apply ran_bind in H as (fetched & Hrows & H). pose proof (ran_option _ _ _ Hrows) as Hgot. clear Hrows.
  destruct total as [n|e]; cbn [is_err] in *.
  - apply ran_ret in H as [= -> ->]. cbn [l_page l_pages l_rows l_total rows_failed count_failed].
    split; [apply clamp_bounds|]. split; [done|]. destruct fetched as [ds|]; repeat split; try done.
    intros _. by apply Hgot.
  - apply ran_ret in H as [= -> ->]. cbn [l_page l_pages l_rows l_total rows_failed count_failed].
    split; [unfold clamp, pages_of; change (Z.max 1 ((0 + _PAGE_SIZE - 1) / _PAGE_SIZE)) with 1; lia|].
    split; [done|]. destruct fetched as [ds|]; repeat split; try done. intros _. by apply Hgot.
Qed.

(** An unmarked page without rows. *)
Lemma page_empty {B} (count : io Z) (beside : io B) rows page t l o :
  ran (fetch_page count beside rows page) (Ok (l, o)) t ->
  l_rows l = [] -> count_failed l || rows_failed l = false -> empty_page count rows t.
Proof.
  intros (Hp & _ & _ & Hrows & Hcount)%page_facts Hnil [Hc Hr]%orb_false_iff.
  destruct (Hcount Hc) as [Hn Hpages]. exists (l_total l), (l_page l).
  rewrite <- Hpages, <- Hnil. auto.
Qed.

(** ** Cards with rows on them *)
Lemma mentions_map {A} f (g : A -> text) l : (forall x, mentions f (g x) = false) -> existsb (mentions f) (map g l) = false.
Proof. intros Hg. induction l as [|x l IH]; [done|]. cbn [map existsb]. by rewrite Hg, IH. Qed.

Lemma mentions_lines f ts : mentions f (lines ts) = existsb (mentions f) ts.
Proof. reflexivity. Qed.

Lemma existsb_step {A} (f : A -> bool) x l : existsb f (x :: l) = f x || existsb f l.
Proof. reflexivity. Qed.

(** A header over items that do not say it. *)
Lemma listed_plain f header items :
  mentions f header = false -> existsb (mentions f) items = false -> mentions f (lines (header :: blank :: items)) = false.
Proof. intros Hh Hi. cbn [lines mentions existsb blank]. by rewrite Hh, Hi. Qed.

Lemma mentions_caveat f txt locale b :
  f "checking.profile.caveat" [] = false -> mentions f (_maybe_caveat txt locale b) = mentions f txt.
Proof. intros Hf. destruct b; [|done]. simpl. rewrite Hf. cbn [orb]. by rewrite !orb_false_r. Qed.

Ltac plain_text := repeat (case_match; simplify_eq; cbn [mentions existsb orb]); try done.

Lemma date_plain key v locale : String.eqb "common.action.unknown_date" key = false ->
  has_key key (date_or_unknown v locale) = false.
Proof. intros Hk. unfold has_key, date_or_unknown. destruct v as [[]|]; cbn [mentions existsb orb]; by rewrite ?Hk. Qed.

Lemma reason_plain key n d locale : String.eqb "checking.events.no_reason" key = false ->
  has_key key (reason_short n d locale) = false.
Proof. intros Hk. unfold has_key, reason_short. destruct (dget "reason" d) as [[]|]; cbn [mentions existsb orb]; by rewrite ?Hk. Qed.

(** A key a listed card never uses. *)
Definition foreign (key : string) : Prop :=
  String.eqb "common.action.unknown_date" key = false /\ String.eqb "checking.events.no_reason" key = false /\
  String.eqb "checking.profile.caveat" key = false.

(** The messages a ban list is made of. *)
Definition ban_keys (v : ban_list) : list string :=
  map (view_key v) ["header"; "item"; active_key v; inactive_key v]%string.

Lemma ban_item_plain key v i ban locale :
  foreign key -> forallb (fun k => negb (String.eqb k key)) (ban_keys v) = true ->
  (forall d, has_key key (ts_of v d locale) = false) -> has_key key (ban_item v i ban locale) = false.
Proof.
  intros (Hd & Hr & _) Hk Hts. unfold ban_item, has_key in *. cbn [mentions]. unfold ban_keys in Hk.
  cbn [map forallb] in Hk. repeat rewrite andb_true_iff, negb_true_iff in Hk. destruct Hk as (_ & -> & Ha & Hi & _).
  cbn [orb app existsb snd mentions code_of italic_of]. rewrite Hts.
  replace (String.eqb _ key) with false by (by destruct (py_truthy _)).
  pose proof (reason_plain key _BAN_LIST_REASON_LEN ban locale Hr) as Hrs. unfold has_key in Hrs.
  destruct (show_reason v); cbn [existsb snd mentions orb italic_of]; by rewrite ?Hrs.
Qed.

Lemma appeal_ts_plain key d locale : foreign key -> has_key key (_appeal_ts d locale) = false.
Proof.
  intros (Hd & _). unfold _appeal_ts, _ban_ts. destruct (dget "appeal_submitted_at" d) as [[]|]; try done;
    by apply date_plain.
Qed.

(** The empty card of a list of bans is an answer. *)
Lemma ban_list_honest v key target_id page locale t txt kb :
  key = view_key v "empty" -> foreign key ->
  forallb (fun k => negb (String.eqb k key)) ("checking.warns.db_fail"%string :: ban_keys v) = true ->
  (forall d, has_key key (ts_of v d locale) = false) ->
  ran (_ban_list_render target_id page locale v) (Ok (txt, kb)) t ->
  has_key key txt = true -> empty_page (count_call v target_id) (db_call_of v target_id) t.
Proof.
  intros Hkey Hf Hk Hts ([l name] & Hl & H)%ran_bind Hsays. cbn [forallb] in Hk.
  apply andb_true_iff in Hk as [Hfail%negb_true_iff Hk]. cbv zeta in H. destruct (l_rows l) as [|r rows] eqn:Hr.
  - destruct (count_failed l || rows_failed l) eqn:Hc; [|by eapply page_empty].
    apply ran_ret in H as [= -> ->]. unfold has_key in Hsays. cbn [mentions existsb] in Hsays. by rewrite Hfail in Hsays.
  - exfalso. apply ran_ret in H as [= -> ->]. unfold has_key in Hsays. rewrite mentions_caveat in Hsays by apply Hf.
    rewrite listed_plain in Hsays; [done| |].
    + unfold ban_keys in Hk. cbn [map forallb] in Hk. apply andb_true_iff in Hk as [Hh%negb_true_iff _].
      cbn [mentions existsb snd]. by rewrite Hh.
    + apply mentions_map. intros [i ban]. by apply ban_item_plain.
Qed.

(** ** Warnings, kicks and mutes *)
Lemma admin_ref_plain key names d : has_key key (admin_ref names d) = false.
Proof. unfold admin_ref. cbv zeta. by destruct (truthy_Z _). Qed.

Lemma event_item_plain key k titles names locale i d :
  foreign key -> String.eqb k key = false -> has_key key (event_item k titles names locale i d) = false.
Proof.
  intros (Hd & Hr & _) Hk. unfold event_item, has_key. cbn [mentions]. rewrite Hk.
  pose proof (date_plain key (dget "timestamp" d) locale Hd) as Hts.
  pose proof (reason_plain key _REASON_PREVIEW_LEN d locale Hr) as Hrs.
  pose proof (admin_ref_plain key names d) as Ha. unfold has_key, _ban_ts in *.
  destruct titles; cbn [orb app existsb snd mentions italic_of]; unfold _ban_ts; by rewrite Hts, Hrs, Ha.
Qed.

Lemma event_items_plain key k titles names locale l :
  foreign key -> String.eqb k key = false ->
  existsb (mentions (fun k' _ => String.eqb k' key)) (event_items k titles names locale l) = false.
Proof. intros Hf Hk. apply mentions_map. intros [i d]. by apply event_item_plain. Qed.

Lemma event_list_honest v target_id page locale t txt kb :
  ran (_per_chat_event_list target_id page v locale) (Ok (txt, kb)) t ->
  has_key "checking.events.empty" txt = true -> empty_page (ev_count v target_id) (ev_rows v target_id) t.
Proof.
  intros ([l name] & Hl & H)%ran_bind Hsays. cbv zeta in H. destruct (l_rows l) as [|r rows] eqn:Hr.
  - destruct (count_failed l || rows_failed l) eqn:Hc; [|by eapply page_empty].
    by apply ran_ret in H as [= -> ->].
  - exfalso. apply ran_bind in H as ([titles names] & _ & [= -> ->]%ran_ret). unfold has_key in Hsays.
    by rewrite mentions_caveat, listed_plain in Hsays by first [done|by apply event_items_plain].
Qed.

Lemma group_list_honest target_id chat page locale t txt kb :
  ran (warns_in_group target_id chat page locale) (Ok (txt, kb)) t ->
  has_key "checking.warns.in_empty" txt = true ->
  empty_page (warn_count target_id chat) (fun skip limit => get_warns target_id chat skip limit true) t \/
  has_key "checking.profile.caveat" txt = true.
Proof.
  intros ([l titles] & Hl & H)%ran_bind Hsays. cbv zeta in H. destruct (l_rows l) as [|r rows] eqn:Hr.
  - destruct (count_failed l || rows_failed l) eqn:Hc; [right|left; by eapply page_empty].
    by apply ran_ret in H as [= -> ->].
  - exfalso. apply ran_bind in H as (names & _ & [= -> ->]%ran_ret). unfold has_key in Hsays.
    by rewrite mentions_caveat, listed_plain in Hsays by first [done|by apply event_items_plain].
Qed.

Lemma groups_honest target_id locale t txt kb :
  ran (warns_by_group target_id locale) (Ok (txt, kb)) t -> has_key "checking.warns.empty" txt = true ->
  during (user_warn_groups target_id) [] t.
Proof.
  intros ([groups name] & [Hg _]%ran_gather2 & H)%ran_bind Hsays. cbv zeta in H.
  destruct groups as [[|g groups]|e]; [exact Hg| |by apply ran_ret in H as [= -> ->]].
  exfalso. apply ran_bind in H as (titles & _ & [= -> ->]%ran_ret). unfold has_key in Hsays.
  rewrite listed_plain in Hsays; [done|done|].
  apply (mentions_map _ (fun '(cid, count) => TKey _ _ [_; _]) (g :: groups)). by intros [].
Qed.

(** ** The profile *)
Definition state_line (line : string) : Prop :=
  line = "checking.profile.active_ban"%string \/ line = "checking.profile.active_mute"%string.

Lemma role_label_plain line role locale :
  state_line line -> mentions (state_no line) (bold_of (role_label_text role locale)) = false.
Proof. intros [-> | ->]; unfold role_label_text; destruct role; try done; repeat (case_match; try done). Qed.

Lemma role_lines_plain line meta locale ls t :
  state_line line -> ran (role_lines meta locale) (Ok ls) t -> existsb (mentions (state_no line)) ls = false.
Proof.
  intros Hline H. destruct meta as [[role by_] at_]. apply ran_bind in H as (by_line & Hby & ->%ran_ret).
  assert (existsb (mentions (state_no line)) by_line = false) as Hb.
  { destruct (bint by_) as [by_id|]; [|by apply ran_ret in Hby as ->].
    destruct (_ && _); [|by apply ran_ret in Hby as ->].
    apply ran_bind in Hby as (n & _ & ->%ran_ret). by destruct Hline as [-> | ->]. }
  cbn [existsb mentions snd]. rewrite existsb_app, Hb, role_label_plain by done.
  destruct Hline as [-> | ->]; destruct at_; try done; by destruct (_ && _).
Qed.

(** What the card reads, and what of it was answered. *)
Lemma read_profile_ran executor_id target_id r t :
  ran (read_profile bot_id executor_id target_id) (Ok r) t ->
  ran (get_active_ban target_id) (r_ban r) t /\ ran (get_active_mute target_id) (r_mute r) t /\
  ran (read_counters target_id) (Ok (r_counters r)) t.
Proof.
  intros ([reads rest] & [Hreads Hrest]%ran_gather2 & H)%ran_bind.
  apply ran_bind in H as ([[[info role] ban] mute] & ->%ran_of_result & H).
  apply ran_bind in H as ([counted ident] & ->%ran_of_result & H).
  apply ran_bind in H as (c & ->%ran_of_result & H). apply ran_bind in H as (i & _ & ->%ran_ret).
  apply ran_gather4 in Hreads as (_ & _ & Hban & Hmute). by apply ran_gather2 in Hrest as [Hc _].
Qed.

(** A state line says no only for the state that is absent. *)
Lemma activity_says line ban mute c locale :
  state_line line -> existsb (mentions (state_no line)) (activity_lines ban mute c locale) = true ->
  exists d, (if String.eqb line "checking.profile.active_ban" then ban else mute) = Ok d /\ no_row d.
Proof.
  unfold no_row. intros [-> | ->] H; cbn [String.eqb]; [destruct mute as [[[|]|]|]|destruct ban as [[[|]|]|]];
    (destruct ban as [[[|]|]|] || destruct mute as [[[|]|]|]); try discriminate H; simpl; eauto.
Qed.

Lemma profile_says line target_id executor_id locale t txt kb :
  state_line line -> ran (profile bot_id target_id executor_id locale) (Ok (txt, kb)) t ->
  mentions (state_no line) txt = true ->
  if String.eqb line "checking.profile.active_ban"
  then exists d, during (get_active_ban target_id) d t /\ no_row d
  else exists d, during (get_active_mute target_id) d t /\ no_row d.
Proof.
  intros Hline (r & (Hban & Hmute & _)%read_profile_ran & H)%ran_bind Hsays.
  destruct (match r_user_info r with Ok info => info | Err _ => _ end) as [fname uname].
  apply ran_bind in H as (note & Hnote & H). apply ran_bind in H as (role_block & Hrole & [= -> ->]%ran_ret).
  rewrite mentions_caveat in Hsays by (by destruct Hline as [-> | ->]).
  rewrite mentions_lines, existsb_app, !existsb_step, existsb_app, existsb_step in Hsays.
  rewrite (role_lines_plain _ _ _ _ _ Hline Hrole) in Hsays.
  assert (existsb (mentions (state_no line)) (match note with Some n => [n; blank] | None => [] end) = false) as Hn.
  { destruct note as [n|]; [|done]. destruct (r_ident r) as [[ident|[]]|]; try by apply ran_ret in Hnote.
    - apply ran_ret in Hnote. unfold profile_note in Hnote.
      destruct Hline as [-> | ->]; destruct (id_kind ident); try done; by injection Hnote as ->.
    - by apply ran_raise in Hnote. }
  rewrite Hn in Hsays.
  assert (existsb (mentions (state_no line)) (activity_lines (r_ban r) (r_mute r) (r_counters r) locale) = true) as Ha.
  { destruct Hline as [-> | ->]; repeat case_match; exact Hsays. }
  destruct (activity_says _ _ _ _ _ Hline Ha) as (d & Hd & Hno).
  revert Hd. destruct (String.eqb line _); intros Hd; rewrite Hd in *; by exists d.
Qed.

(** C5: a failed read never reads as a clean record, save under a notice.
    Wherever the profile says that there is no active ban or mute, that very
    lookup was answered with no record; wherever a list says that there is
    nothing on it, the count was answered, and so were, with no rows, the rows
    of a page within that count.  (A page emptied between the two reads shows so
    beside older records.)  The list of the warnings in one chat alone may say so
    after a failed read, and then under the notice that the figures are
    incomplete. *)
Theorem no_clean_bill (c : clean) (executor_id : option Z) (target_id page : Z) (locale : ustr)
    (t : trace eff) (txt : text) (kb : markup)
    (Hrun : exec (card_of c executor_id target_id page locale) t (Ok (txt, kb)))
    (Hsays : says c txt = true) :
  evidence c target_id t \/ (exists chat, c = NoWarnsIn chat) /\ has_key "checking.profile.caveat" txt = true.
Proof.
  apply ran_exec in Hrun. destruct c as [| | | | |chat| |]; cbn [card_of says] in *.
  - left. eapply (profile_says "checking.profile.active_ban"); [by left|done|done].
  - left. eapply (profile_says "checking.profile.active_mute"); [by right|done|done].
  - left. eapply (ban_list_honest bans_view "checking.bans.empty"); try done. intros d. by apply date_plain.
  - left. eapply (ban_list_honest appeals_view "checking.appeals_list.empty"); try done. intros d. by apply appeal_ts_plain.
  - left. by eapply groups_honest.
  - destruct (group_list_honest _ _ _ _ _ _ _ Hrun Hsays) as [H|H]; [by left|right]. split; [by exists chat|done].
  - left. by eapply (event_list_honest kicks_view).
  - left. by eapply (event_list_honest mutes_view).
Qed.
End honesty.

(** * Where the buttons lead *)
Section taps.
Context {CAT : Catalog} (cfg : config) (bot_id : Z).

(** The view a button asks for. *)
Definition show (executor_id : option Z) (d : drill) (locale : ustr) : io card :=
  match d with
  | Main t => profile bot_id t executor_id locale
  | Bans t p => bans_list t p locale
  | BanItem t id => ban_detail cfg t (s_of id) locale
  | Warns t => warns_by_group t locale
  | WarnChat t c p => warns_in_group t c p locale
  | Kicks t p => kicks_list t p locale
  | Mutes t p => mutes_list t p locale
  | Appeals t p => appeals_list t p locale
  end.

(** The registered handlers. *)
Definition body_of (v : view) (upd : update) (q : option callback) : io unit :=
  match v with
  | VMain => on_check_main_body bot_id upd q
  | VBans => on_check_bans_body upd q
  | VBanItem => on_check_ban_item_body cfg upd q
  | VWarns => on_check_warns_body upd q
  | VWarnChat => on_check_warn_chat_body upd q
  | VKicks => on_check_kicks_body upd q
  | VMutes => on_check_mutes_body upd q
  | VAppeals => on_check_appeals_body upd q
  end.

(** A handler shows what its data asks for. *)
Lemma body_shows v upd m data d :
  drill_of v (u data) = Some d ->
  body_of v upd (Some (Callback m (Some data))) =
  (locale <- locale_for_update upd ;; ack_and_render m (show (effective_user upd) d locale)).
Proof.
  destruct v; cbn [drill_of body_of]; unfold on_check_main_body, on_check_bans_body, on_check_ban_item_body,
    on_check_warns_body, on_check_warn_chat_body, on_check_kicks_body, on_check_mutes_body, on_check_appeals_body, on_view;
    (destruct (one_int (u data)) as [a1|] || idtac); (destruct (two_ints (u data)) as [[a2 b2]|] || idtac);
    (destruct (three_ints (u data)) as [[[a3 b3] c3]|] || idtac); (destruct (int_and_id (u data)) as [[a4 b4]|] || idtac);
    cbn; by intros [= <-].
Qed.

(** Data that names a view about this user. *)
Definition stays (target_id : Z) (data : string) : Prop :=
  exists d, u data = data_of d /\ about d = target_id /\ 0 <= page_of d.

Definition small (s : ustr) : Prop := Forall (fun c => 0 <= c < 256) s.

Lemma small_u s : small (u s).
Proof. induction s as [|c s IH]; constructor; [|exact IH]. pose proof (N_ascii_bounded c). lia. Qed.

Lemma small_int n : small (str_int n).
Proof. eapply Forall_impl; [apply str_int_chars|]. unfold c_minus, ch. simpl. lia. Qed.

Lemma small_with_int s n : small s -> small (with_int s n).
Proof. intros Hs. unfold with_int, small. rewrite !Forall_app. repeat split; [done|by repeat constructor|apply small_int]. Qed.

Lemma small_data d : match d with BanItem _ id => small id | _ => True end -> small (data_of d).
Proof.
  intros Hid. destruct d; cbn [data_of]; repeat (apply small_with_int || apply small_u).
  unfold small. rewrite !Forall_app. split; [apply small_with_int, small_u|]. split; [by repeat constructor|exact Hid].
Qed.

Lemma button_stays d label target_id :
  about d = target_id -> 0 <= page_of d -> match d with BanItem _ id => small id | _ => True end ->
  Forall (stays target_id) (taps (button label (data_of d))).
Proof.
  intros Ha Hp Hid. unfold button. cbn [taps String.eqb Ascii.eqb eqb]. constructor; [|constructor].
  exists d. by rewrite u_s_of by by apply small_data.
Qed.

Lemma row_stays target_id bs : Forall (fun b => Forall (stays target_id) (taps b)) bs -> Forall (stays target_id) (taps (kb_row bs)).
Proof. intros H. rewrite taps_row. by apply Forall_flat_map. Qed.

Lemma keyboard_stays target_id rows :
  Forall (fun r => Forall (stays target_id) (taps r)) rows -> Forall (stays target_id) (taps (keyboard rows)).
Proof. intros H. rewrite taps_keyboard. by apply Forall_flat_map. Qed.

Lemma back_row_stays target_id locale : Forall (stays target_id) (taps (check_back_row target_id locale)).
Proof. apply row_stays. constructor; [|constructor]. by apply (button_stays (Main target_id)). Qed.

Lemma warns_back_row_stays target_id locale : Forall (stays target_id) (taps (check_warns_back_row target_id locale)).
Proof. apply row_stays. constructor; [|constructor]. by apply (button_stays (Warns target_id)). Qed.

(** The navigation row of a view with pages. *)
Lemma nav_stays target_id page total_pages prefix locale (mk : Z -> drill) :
  0 <= page -> (forall p, data_of (mk p) = with_int prefix p) ->
  (forall p, about (mk p) = target_id /\ page_of (mk p) = p /\ match mk p with BanItem _ _ => False | _ => True end) ->
  Forall (fun r => Forall (stays target_id) (taps r)) (nav_rows page total_pages prefix locale).
Proof.
  intros Hp Hdata Hmk. unfold nav_rows. destruct (nav_row page total_pages) as [|b bs] eqn:Hnav; [constructor|].
  constructor; [|constructor]. rewrite <- Hnav. apply row_stays, Forall_map, Forall_forall. intros [key p] Hin.
  cbn beta iota. rewrite <- Hdata. destruct (Hmk p) as (Ha & Hpage & Hid).
  apply button_stays; [done| |by destruct (mk p)]. rewrite Hpage. unfold nav_row in Hin. apply elem_of_app in Hin as [Hin|Hin].
  - destruct (Z.gtb_spec page 0); [|by apply elem_of_nil in Hin]. apply list_elem_of_singleton in Hin as [= _ ->]. lia.
  - destruct (Z.ltb_spec page (total_pages - 1)); [|by apply elem_of_nil in Hin].
    apply list_elem_of_singleton in Hin as [= _ ->]. lia.
Qed.

Lemma Forall_chunks {A} (P : A -> Prop) k l : Forall P l -> Forall (Forall P) (chunks k l).
Proof.
  unfold chunks. generalize (length l). intros fuel. revert l. induction fuel as [|fuel IH]; intros l Hl; [constructor|].
  destruct l as [|x l]; [constructor|]. cbn [chunks_fuel]. constructor; [by apply Forall_take|]. apply IH. by apply Forall_drop.
Qed.

Lemma drill_kb_stays target_id buttons page total_pages prefix mk locale :
  0 <= page -> (forall p, data_of (mk p) = with_int prefix p) ->
  (forall p, about (mk p) = target_id /\ page_of (mk p) = p /\ match mk p with BanItem _ _ => False | _ => True end) ->
  Forall (fun b => exists id, b.2 = data_of (BanItem target_id (u id))) buttons ->
  Forall (stays target_id)
    (taps (paged_drill_kb buttons page total_pages prefix (with_int (u "check_main") target_id) [] _BTNS_PER_ROW locale)).
Proof.
  intros Hp Hd Hmk Hb. apply keyboard_stays. rewrite !Forall_app. split; [|split; [by apply (nav_stays _ _ _ _ _ mk)|split; [done|]]].
  - apply Forall_map. eapply Forall_impl; [by apply Forall_chunks|]. intros ch Hch. apply row_stays, Forall_map.
    eapply Forall_impl; [exact Hch|]. intros [label cb] [id Hid]. cbn [snd] in Hid. subst cb.
    by apply button_stays; [| |apply small_u].
  - constructor; [|constructor]. apply back_row_stays.
Qed.

Lemma enumerate_Forall {A} (P : Z * A -> Prop) (l : list A) i : (forall j x, P (j, x)) -> Forall P (enumerate i l).
Proof. intros H. revert i. induction l as [|x l IH]; intros i; constructor; auto. Qed.

Lemma ban_list_stays target_id page locale v mk t txt kb :
  (forall p, data_of (mk p) = with_int (with_int (u (nav_prefix v)) target_id) p) ->
  (forall p, about (mk p) = target_id /\ page_of (mk p) = p /\ match mk p with BanItem _ _ => False | _ => True end) ->
  ran (_ban_list_render target_id page locale v) (Ok (txt, Some kb)) t -> Forall (stays target_id) (taps kb).
Proof.
  intros Hd Hmk ([l name] & (Hp & _)%page_facts & H)%ran_bind. cbv zeta in H. destruct (l_rows l) as [|r rows].
  - assert (kb = keyboard [check_back_row target_id locale]) as ->.
    { destruct (_ || _); by apply ran_ret in H as [= _ ->]. }
    apply keyboard_stays. constructor; [apply back_row_stays|constructor].
  - apply ran_ret in H as [= _ ->]. apply (drill_kb_stays _ _ _ _ _ mk); [lia|done|done|].
    apply Forall_map, enumerate_Forall.
    intros j ban. by exists (dget_str "ban_id" ban "").
Qed.

Lemma event_list_stays target_id page locale v mk t txt kb :
  (forall p, data_of (mk p) = with_int (with_int (u (cb_prefix v)) target_id) p) ->
  (forall p, about (mk p) = target_id /\ page_of (mk p) = p /\ match mk p with BanItem _ _ => False | _ => True end) ->
  ran (_per_chat_event_list target_id page v locale) (Ok (txt, Some kb)) t -> Forall (stays target_id) (taps kb).
Proof.
  intros Hd Hmk ([l name] & (Hp & _)%page_facts & H)%ran_bind. cbv zeta in H. destruct (l_rows l) as [|r rows].
  - assert (kb = keyboard [check_back_row target_id locale]) as ->.
    { destruct (_ || _); by apply ran_ret in H as [= _ ->]. }
    apply keyboard_stays. constructor; [apply back_row_stays|constructor].
  - apply ran_bind in H as ([titles names] & _ & [= _ ->]%ran_ret). apply keyboard_stays, Forall_app.
    split; [apply (nav_stays _ _ _ _ _ mk); [lia|done|done]|]. constructor; [apply back_row_stays|constructor].
Qed.

Lemma group_list_stays target_id chat page locale t txt kb :
  ran (warns_in_group target_id chat page locale) (Ok (txt, Some kb)) t -> Forall (stays target_id) (taps kb).
Proof.
  intros ([l titles] & (Hp & _)%page_facts & H)%ran_bind. cbv zeta in H. destruct (l_rows l) as [|r rows].
  - apply ran_ret in H as [= _ ->]. apply keyboard_stays. constructor; [apply warns_back_row_stays|constructor].
  - apply ran_bind in H as (names & _ & [= _ ->]%ran_ret). apply keyboard_stays, Forall_app.
    split; [apply (nav_stays _ _ _ _ _ (WarnChat target_id chat)); [lia|done|done]|].
    constructor; [apply warns_back_row_stays|constructor].
Qed.

Lemma groups_stays target_id locale t txt kb :
  ran (warns_by_group target_id locale) (Ok (txt, Some kb)) t -> Forall (stays target_id) (taps kb).
Proof.
  intros ([groups name] & _ & H)%ran_bind. cbv zeta in H. destruct groups as [[|g groups]|e].
  - apply ran_ret in H as [= _ ->]. apply keyboard_stays. constructor; [apply back_row_stays|constructor].
  - apply ran_bind in H as (titles & _ & [= _ ->]%ran_ret). apply keyboard_stays, Forall_app.
    split; [|constructor; [apply back_row_stays|constructor]]. apply Forall_map, Forall_forall.
    intros [[title n] cid] _. apply row_stays. constructor; [|constructor]. by apply (button_stays (WarnChat target_id cid 0)).
  - apply ran_ret in H as [= _ ->]. apply keyboard_stays. constructor; [apply back_row_stays|constructor].
Qed.

Lemma profile_stays target_id executor_id locale t txt kb :
  ran (profile bot_id target_id executor_id locale) (Ok (txt, Some kb)) t -> Forall (stays target_id) (taps kb).
Proof.
  intros (r & _ & H)%ran_bind. destruct (match r_user_info r with Ok info => info | Err _ => _ end) as [fname uname].
  apply ran_bind in H as (note & _ & H). apply ran_bind in H as (role_block & _ & [= _ ->]%ran_ret).
  apply keyboard_stays.
  apply Forall_cons_2; [|apply Forall_cons_2; [|apply Forall_cons_2; [|constructor]]]; apply row_stays.
  - apply Forall_cons_2; [by apply (button_stays (Bans target_id 0))|].
    apply Forall_cons_2; [by apply (button_stays (Appeals target_id 0))|constructor].
  - apply Forall_cons_2; [by apply (button_stays (Warns target_id))|constructor].
  - apply Forall_cons_2; [by apply (button_stays (Kicks target_id 0))|].
    apply Forall_cons_2; [by apply (button_stays (Mutes target_id 0))|constructor].
Qed.

Lemma url_row_stays target_id key locale link :
  Forall (fun r => Forall (stays target_id) (taps r)) [kb_row [url_button key locale link]].
Proof. apply Forall_cons_2; [|apply Forall_nil_2]. change (Forall (stays target_id) []). apply Forall_nil_2. Qed.

Lemma detail_stays target_id ban_id locale t txt kb :
  ran (ban_detail cfg target_id ban_id locale) (Ok (txt, Some kb)) t -> Forall (stays target_id) (taps kb).
Proof.
  intros (ban & _ & H)%ran_bind.
  assert (forall label, Forall (stays target_id) (taps (button label (with_int (with_int (u "check_bans") target_id) 0)))) as Hback.
  { intros label. by apply (button_stays (Bans target_id 0)). }
  destruct ban as [[[|f ban]|]|]; try (apply ran_ret in H as [= _ ->]; exact (Hback (back_label locale))).
  destruct (negb _); [apply ran_ret in H as [= _ ->]; exact (Hback (back_label locale))|].
  apply ran_bind in H as ([dtext proof] & _ & [= _ ->]%ran_ret).
  apply keyboard_stays, Forall_app. split; [destruct proof; [apply url_row_stays|constructor]|].
  apply Forall_app. split; [destruct (link_field _ _); [apply url_row_stays|constructor]|].
  apply Forall_cons_2; [|apply Forall_nil_2]. apply row_stays. apply Forall_cons_2; [apply Hback|apply Forall_nil_2].
Qed.

Lemma show_stays executor_id d locale t txt kb :
  ran (show executor_id d locale) (Ok (txt, Some kb)) t -> Forall (stays (about d)) (taps kb).
Proof.
  destruct d as [tid|tid p|tid id|tid|tid c p|tid p|tid p|tid p]; cbn [show about].
  - apply profile_stays.
  - by apply (ban_list_stays _ _ _ bans_view (Bans tid)).
  - apply detail_stays.
  - apply groups_stays.
  - apply group_list_stays.
  - by apply (event_list_stays _ _ _ kicks_view (Kicks tid)).
  - by apply (event_list_stays _ _ _ mutes_view (Mutes tid)).
  - by apply (ban_list_stays _ _ _ appeals_view (Appeals tid)).
Qed.
End taps.

(** C6: no tap leaves the user.  Every button of a card about a user whose id is
    not negative is data that exactly one of the registered handlers takes, and
    that handler reads from it a view about the same user, on a page that is not
    negative, and shows that view; save a button for a ban whose id is not of the
    form the bot mints. *)
Theorem taps_stay {CAT : Catalog} (cfg : config) (bot_id : Z) (executor_id : option Z) (d : drill) (locale : ustr)
    (t : trace eff) (txt kb : text) (data : string) (upd : update) (m : message)
    (Htarget : 0 <= about d)
    (Hrun : exec (show cfg bot_id executor_id d locale) t (Ok (txt, Some kb)))
    (Hdata : data ∈ taps kb) :
  (exists v d', handler_of (u data) = Some v /\ length (List.filter (matches (u data)) patterns) = 1%nat /\
     about d' = about d /\ 0 <= page_of d' /\
     body_of cfg bot_id v upd (Some (Callback m (Some data))) =
     (locale <- locale_for_update upd ;; ack_and_render m (show cfg bot_id (effective_user upd) d' locale))) \/
  (exists id, u data = data_of (BanItem (about d) id) /\ short_id id = false).
Proof.
  pose proof (show_stays _ _ _ _ _ _ _ _ (ran_exec _ _ _ Hrun)) as Hall.
  destruct (proj1 (Forall_forall _ _) Hall _ Hdata) as (d' & Hd & Ha & Hp).
  assert (routable d' \/ exists id, d' = BanItem (about d) id /\ short_id id = false) as [Hr|(id & -> & Hid)]; [| |right; eauto].
  { unfold routable. destruct d' as [| |tid id| | | | |]; cbn [about] in Ha; subst; auto.
    destruct (short_id id) eqn:Hid; eauto. }
  left. pose proof (data_routes _ Hr) as Hroute. unfold route in Hroute. rewrite <- Hd in Hroute.
  destruct (handler_of (u data)) as [v|] eqn:Hv; [|done]. exists v, d'. split; [done|].
  split; [by apply (handled_once _ v)|]. do 2 (split; [done|]). by apply body_shows.
Qed.

(** * Where the code departs from its documentation *)
Section departures.
#[local] Existing Instance demo_catalog.

(** Six bans counted, the sixth gone before its page is read. *)
Definition sixth_gone : script := fun X ev =>
  match ev in eff X return option (result X) with
  | CountDocuments "bans" _ => Some (Ok 6)
  | _ => None
  end.

Definition card_text (r : result card) : text := match r with Ok (txt, _) => txt | Err _ => TNone end.

(** The bans of this user are counted, and there are six. *)
Definition obs_six (o : obs eff) : bool :=
  match o with
  | Obs ev r =>
      match ev in eff X return result X -> bool with
      | CountDocuments "bans" _ => fun r => match r with Ok n => n =? 6 | Err _ => false end
      | _ => fun _ => false
      end r
  end.

(** A page emptied behind the count reads as no bans at all. *)
Theorem stale_count_shows_clean :
  let (t, shown) := replay sixth_gone (bans_list 9 1 DEFAULT_LOCALE) in
  says NoBans (card_text shown) = true /\ existsb obs_six t = true.
Proof. vm_compute. split; reflexivity. Qed.

(** The role lookup fails, nothing else. *)
Definition roleless : script := fun X ev =>
  match ev in eff X return option (result X) with
  | FindOne "tc_owners" _ _ => Some (Err (PyMongoError "down"))
  | _ => None
  end.

(** A role that could not be read shows as a regular user, without a caveat. *)
Theorem failed_role_reads_as_regular :
  let shown := card_text (replay roleless (profile 1 9 None DEFAULT_LOCALE)).2 in
  has_key "checking.profile.regular" shown = true /\ has_key "checking.profile.caveat" shown = false /\
  has_key "checking.profile.unknown" shown = false.
Proof. vm_compute. repeat split; reflexivity. Qed.

(** One warning by admin 4, whose name cannot be looked up. *)
Definition nameless_admin : script := fun X ev =>
  match ev in eff X return option (result X) with
  | Find "warns" _ _ _ _ => Some (Ok [["admin_id" ~> BInt 4; "timestamp" ~> BDate 0; "reason" ~> BStr "spam"]])
  | Find "kicks" _ _ _ _ => Some (Ok [["admin_id" ~> BInt 4; "chat_id" ~> BInt (-100); "timestamp" ~> BDate 0]])
  | Find "member_cache" _ _ _ _ => Some (Err (PyMongoError "down"))
  | CountDocuments "kicks" _ => Some (Ok 1)
  | _ => None
  end.

(** The warnings of a chat are lost with the name of an admin; the kicks are
    shown without it. *)
Theorem names_outage_loses_page :
  is_err (replay nameless_admin (warns_in_group 9 (-100) 0 DEFAULT_LOCALE)).2 = true /\
  has_key "checking.events.item" (card_text (replay nameless_admin (kicks_list 9 0 DEFAULT_LOCALE)).2) = true.
Proof. split; vm_compute; reflexivity. Qed.

Lemma no_clean_bill_witness :
  says NoKicks (card_text (replay no_script (kicks_list 9 3 DEFAULT_LOCALE)).2) = true /\
  evidence NoKicks 9 (replay no_script (kicks_list 9 3 DEFAULT_LOCALE)).1.
Proof.
  split; [vm_compute; reflexivity|].
  pose proof (replay_exec no_script (kicks_list 9 3 DEFAULT_LOCALE)) as Hrun.
  remember (replay no_script (kicks_list 9 3 DEFAULT_LOCALE)).2 as r eqn:Hr. vm_compute in Hr. subst r.
  destruct (no_clean_bill 1 NoKicks None 9 3 DEFAULT_LOCALE _ _ _ Hrun) as [H|[[chat [=]] _]]; [vm_compute; reflexivity|exact H].
Defined.

Definition one_ban : script := fun X ev =>
  match ev in eff X return option (result X) with
  | CountDocuments "bans" _ => Some (Ok 1)
  | Find "bans" _ _ _ _ => Some (Ok [["ban_id" ~> BStr "a1b2"; "banned_user_id" ~> BInt 9; "is_active" ~> BBool true]])
  | _ => None
  end.

Definition kb_of (r : result card) : text := match r with Ok (_, Some kb) => kb | _ => TNone end.

Definition bans_shown : trace eff * result card := replay one_ban (bans_list 9 0 DEFAULT_LOCALE).

Lemma taps_stay_witness :
  "check_ban_item:9:a1b2"%string ∈ taps (kb_of bans_shown.2) /\
  exists v d', handler_of (u "check_ban_item:9:a1b2") = Some v /\
    length (List.filter (matches (u "check_ban_item:9:a1b2")) patterns) = 1%nat /\ about d' = 9.
Proof.
  assert ("check_ban_item:9:a1b2"%string ∈ taps (kb_of bans_shown.2)) as Hin by (vm_compute; left).
  split; [exact Hin|].
  assert (exec (show demo_config 1 None (Bans 9 0) DEFAULT_LOCALE) bans_shown.1 (Ok (card_text bans_shown.2, Some (kb_of bans_shown.2)))) as Hrun.
  { exact (replay_exec one_ban (bans_list 9 0 DEFAULT_LOCALE)). }
  destruct (taps_stay demo_config 1 None (Bans 9 0) DEFAULT_LOCALE _ _ _ _ (Update None None None true)
              (Message 1 1 "private" None) ltac:(discriminate) Hrun Hin) as [(v & d' & Hv & Hone & Ha & _)|(id & Hid & Hs)].
  - exists v, d'. split; [exact Hv|]. split; [exact Hone|exact Ha].
  - exfalso. vm_compute in Hid. injection Hid as <-. vm_compute in Hs. discriminate Hs.
Defined.
End departures.
