(* ===== verification/Checkme.v ===== *)
(** A user's own standing, [tcbot/modules/checking/checkme.py]: the verdict,
    the card of a ban and its details. *)

From stdpp Require Import pretty.
From S2P Require Import Prelude Prog Text World I18n Dispatch Cache Locale Roles Replies Auth Records DemoteFlow BanFlow AppealReview Duration Prefixes Extract Handler Language Identity Drills CheckViews.

Section checkme.
Context {CAT : Catalog} (cfg : config) (bot_username : string).

(** The text of a ban and the link to its proof. *)
Definition _ban_summary (ban : doc) (user_id : Z) (user_fname : string) (admin_fname : option string) (locale : ustr)
    : io (text * option text) :=
  let aid := dget_int "admin_user_id" ban 0 in
  let! (user_r, admin_r) := gather2 (get_user_mention_data user_id) (get_user_mention_data aid) in
  let user_uname := match user_r with Ok (_, un) => un | Err _ => None end in
  let '(admin_cached, admin_uname) :=
    match admin_r with Ok (n, un) => (Some n, un) | Err _ => (None, None) end in
  let admin_fname := match admin_fname with Some n => n | None => str_or admin_cached (pretty aid) end in
  let (proof_chat, proof_thread) := cfg_proofs cfg in
  let proof_link := match dget "proof_message_id" ban ≫= bint with
                    | Some id => Some (TLink proof_chat id proof_thread)
                    | None => None
                    end in
  Ret (TKey "checking.checkme.banned" locale
         [("community"%string, TStr (cfg_community_name cfg)); ("user"%string, TUserRef user_id user_fname user_uname);
          ("id"%string, code_of (TInt user_id)); ("reason"%string, reason_or_none ban locale);
          ("admin"%string, TUserRef aid admin_fname admin_uname); ("date"%string, detail_date ban locale)],
       proof_link).

(** [str(ban.get("ban_id", ""))] *)
Definition ban_id_of (ban : doc) : string := dget_str "ban_id" ban "".

(** The reply to somebody who is not banned. *)
Definition standing_text (role : bson) (user_id : Z) (fname : string) (uname : option string) (locale : ustr) : text :=
  let me := ("user"%string, TUserRef user_id fname uname) in
  let community := ("community"%string, TStr (cfg_community_name cfg)) in
  if role_is "admin" role then TKey "checking.checkme.staff_admin" locale [me]
  else if role_is "developer" role || role_is "tester" role then
    TKey "checking.checkme.staff_role" locale [me; community; ("role"%string, TStr (role_label role))]
  else TKey "checking.checkme.clean" locale [community].

Definition cmd_checkme_body (c : command) : io unit :=
  match effective_user (c_upd c), effective_message (c_upd c) with
  | Some user_id, Some msg =>
      locale <- locale_for_update (c_upd c) ;;
      if c_is_bot c then safe_reply msg (TKey "checking.error.bot_sender" locale [])
      else
        let fname := if truthy_str (c_first_name c) then c_first_name c else pretty user_id in
        let! (role, ban) := gather2 (get_effective_role user_id) (get_active_ban user_id) in
        let role := match role with Ok role => role | Err _ => BNull end in
        match ban with
        | Err _ => safe_reply msg (TKey "checking.error.status_retry" locale [])
        | Ok (Some ban) =>
            let! (txt, proof_link) := _ban_summary ban user_id fname None locale in
            safe_reply_kb msg txt (checkme_ban_kb bot_username (ban_id_of ban) proof_link locale)
        | Ok None => safe_reply msg (standing_text role user_id fname (c_username c) locale)
        end
  | _, _ => Ret tt
  end.

(** [q.data.split(":")[1]] *)
Definition second_field (data : ustr) : option ustr :=
  match fields data with _ :: id :: _ => Some id | _ => None end.

(** The head of both buttons: the answer beside the record, and a popup when
    the record cannot be read. *)
Definition with_ban (upd : update) (q : option callback) (body : message -> string -> option doc -> ustr -> io unit)
    : io unit :=
  match q with
  | None => Ret tt
  | Some (Callback m data) =>
      match data ≫= (fun s => second_field (u s)) with
      | None => answer
      | Some id =>
          locale <- locale_for_update upd ;;
          let! (_, ban) := gather2 answer (get_ban (s_of id)) in
          match ban with
          | Err _ => alert_key "checking.error.status_retry" locale
          | Ok ban => body m (s_of id) ban locale
          end
      end
  end.

Definition on_checkme_detail_body (upd : update) (q : option callback) : io unit :=
  with_ban upd q (fun m ban_id ban locale =>
    match ban with
    | Some ((_ :: _) as ban) =>
        if negb (py_truthy (dget "is_active" ban)) then safe_edit_cb m (TKey "checking.error.ban_inactive" locale []) None true
        else
          let! (txt, proof_link) := build_ban_detail cfg ban None locale in
          safe_edit_cb m txt (Some (checkme_detail_back_kb ban_id proof_link locale)) false
    | _ => safe_edit_cb m (TKey "checking.error.ban_inactive" locale []) None true
    end).

Definition on_checkme_back_body (upd : update) (q : option callback) : io unit :=
  with_ban upd q (fun m ban_id ban locale =>
    match ban with
    | Some ((_ :: _) as ban) =>
        let uid := dget_int "banned_user_id" ban 0 in
        let aid := dget_int "admin_user_id" ban 0 in
        let! (fname, admin_fname) := gather2 (get_first_name uid (pretty uid)) (get_first_name aid "Admin") in
        let fname := match fname with Ok n => n | Err _ => pretty uid end in
        let admin_fname := match admin_fname with Ok n => n | Err _ => "Admin"%string end in
        let! (txt, proof_link) := _ban_summary ban uid fname (Some admin_fname) locale in
        safe_edit_cb m txt (checkme_ban_kb bot_username ban_id proof_link locale) false
    | _ => safe_edit_cb m (TKey "checking.error.ban_not_found" locale []) None true
    end).

Definition cmd_checkme (c : command) := ratelimiter_wrapper "cmd_checkme" (cmd_checkme_body c) (c_upd c).
Definition on_checkme_detail upd q := ratelimiter_wrapper "on_checkme_detail" (on_checkme_detail_body upd q) upd.
Definition on_checkme_back upd q := ratelimiter_wrapper "on_checkme_back" (on_checkme_back_body upd q) upd.
End checkme.

(** * What the caller is told *)

(** A reply whose text and keyboard are such. *)
Definition obs_says (f : text -> markup -> bool) (o : obs eff) : bool :=
  match o with Obs ev _ => match ev with ReplyText _ txt kb => f txt kb | _ => false end end.

Definition is_message (key : string) (txt : text) : bool :=
  match txt with TKey k _ _ => String.eqb k key | _ => false end.

(** "You are clean", or the staff's version of it. *)
Definition reassures (txt : text) : bool :=
  is_message "checking.checkme.clean" txt || is_message "checking.checkme.staff_admin" txt ||
  is_message "checking.checkme.staff_role" txt.

Definition tells_ban (txt : text) : bool := is_message "checking.checkme.banned" txt.

(** The message of a button changes. *)
Definition obs_edits (o : obs eff) : bool :=
  match o with Obs ev _ => match ev with EditMessageText _ _ _ _ | EditMessageReplyMarkup _ _ _ => true | _ => false end end.

(** Reads, caches and answered taps say nothing and edit nothing. *)
Definition obs_speaks (o : obs eff) : bool := obs_says (fun _ _ => true) o || obs_edits o.

Lemma says_speaks f o : obs_says f o = true -> obs_speaks o = true.
Proof. destruct o as [X [] r]; done. Qed.

Lemma edits_speaks o : obs_edits o = true -> obs_speaks o = true.
Proof. destruct o as [X [] r]; done. Qed.

Lemma speaks_cache c k o : cache_obs c k o = true -> obs_speaks o = false.
Proof. destruct o as [X [] r]; done. Qed.

Lemma speaks_locale o : obs_locale o = true -> obs_speaks o = false.
Proof. destruct o as [X [] r]; done. Qed.

Lemma ran_app_l {A} (p : io A) r t1 t2 : ran p r t1 -> ran p r (t1 ++ t2).
Proof. intros (t' & Hs & H). exists t'. split; [|exact H]. by apply sublist_inserts_r. Qed.

Lemma ran_app_r {A} (p : io A) r t1 t2 : ran p r t2 -> ran p r (t1 ++ t2).
Proof. intros (t' & Hs & H). exists t'. split; [|exact H]. by apply sublist_inserts_l. Qed.

Section silence.
Context {CAT : Catalog} (cfg : config) (bot_username : string).
Abbreviation silent := (never obs_speaks).

Lemma silent_locale upd : silent (locale_for_update upd).
Proof. apply locale_for_update_never, speaks_locale. Qed.

Lemma silent_mention uid : silent (get_user_mention_data uid).
Proof.
  unfold get_user_mention_data, _fetch_mention_triple, db_call. apply never_bind; [|intros v; never_auto].
  apply get_or_fetch_never; [apply speaks_cache|]. never_auto.
Qed.

Lemma silent_first_name uid fb : silent (get_first_name uid fb).
Proof. apply first_name_never; [apply speaks_cache|done]. Qed.

Lemma silent_standing uid : silent (gather2 (get_effective_role uid) (get_active_ban uid)).
Proof.
  apply never_gather2; [apply get_effective_role_reads; [apply speaks_cache|done]|].
  unfold get_active_ban, db_call. never_auto.
Qed.

Lemma silent_record ban_id : silent (gather2 answer (get_ban ban_id)).
Proof. unfold answer, get_ban, db_call. never_auto. Qed.

Lemma silent_summary ban uid fname aname locale : silent (_ban_summary cfg ban uid fname aname locale).
Proof.
  unfold _ban_summary. pose proof silent_mention. apply never_bind; [by apply never_gather2|].
  intros [ru ra]. cbv zeta. never_auto.
Qed.

Lemma silent_detail ban fname locale : silent (build_ban_detail cfg ban fname locale).
Proof.
  unfold build_ban_detail, ban_mentions. pose proof silent_mention. cbv zeta. apply never_bind; [|intros; never_auto].
  destruct fname as [n|]; [never_auto; auto|]. apply never_bind; [by apply never_gather2|]. intros [a b].
  apply never_bind; [apply throw_never|]. intros; apply never_ret.
Qed.

(** A silent prefix says nothing of any kind. *)
Lemma silent_says {A} f (p : io A) t r : silent p -> exec p t r -> existsb (obs_says f) t = false.
Proof.
  intros Hp Hr. apply existsb_false_Forall. eapply Forall_impl; [exact (never_elim _ _ _ _ Hp Hr)|]. intros o Ho. cbn beta in Ho.
  destruct (obs_says f o) eqn:Hs; [|done]. by rewrite (says_speaks _ _ Hs) in Ho.
Qed.

Lemma silent_never {A} (g : obs eff -> bool) (p : io A) :
  (forall o, g o = true -> obs_speaks o = true) -> silent p -> never g p.
Proof.
  intros Hg Hp. eapply wp_mono; [exact Hp|]. intros t r Ht. eapply Forall_impl; [exact Ht|]. intros o Ho. cbn beta in Ho.
  destruct (g o) eqn:Hs; [|done]. by rewrite (Hg _ Hs) in Ho.
Qed.

(** The reply is the one given. *)
Lemma reply_says f msg txt : f txt None = false -> never (obs_says f) (safe_reply msg txt).
Proof. intros Hf. unfold safe_reply. never_auto. by apply never_call. Qed.

Lemma reply_kb_says f msg txt kb : f txt kb = false -> never (obs_says f) (safe_reply_kb msg txt kb).
Proof. intros Hf. unfold safe_reply_kb. never_auto. by apply never_call. Qed.
End silence.

(** A link that opens the appeal of this ban. *)
Fixpoint opens_appeal (bot_username ban_id : string) (t : text) : bool :=
  match t with
  | TBuild name args =>
      match args with
      | [TStr bot; TStr id] => String.eqb name "appeal_deep_link" && String.eqb bot bot_username && String.eqb id ban_id
      | _ => existsb (opens_appeal bot_username ban_id) args
      end
  | _ => false
  end.

(** What the lookup of an active ban calls for. *)
Definition fits (bot_username : string) (ban : result (option doc)) (txt : text) (kb : markup) : bool :=
  match ban with
  | Ok None => reassures txt && negb (tells_ban txt)
  | Ok (Some ban) =>
      tells_ban txt && negb (reassures txt) &&
      match kb with
      | Some kb => opens_appeal bot_username (ban_id_of ban) kb
      | None => negb (truthy_str bot_username)
      end
  | Err _ => is_message "checking.error.status_retry" txt && negb (reassures txt) && negb (tells_ban txt)
  end.

Definition any_reply : obs eff -> bool := obs_says (fun _ _ => true).
Definition misfit (bot_username : string) (ban : result (option doc)) : obs eff -> bool :=
  obs_says (fun txt kb => negb (fits bot_username ban txt kb)).

Section verdict.
Context {CAT : Catalog} (cfg : config) (bot_username : string).

Lemma standing_fits role uid fname uname locale :
  fits bot_username (Ok None) (standing_text cfg role uid fname uname locale) None = true.
Proof.
  unfold standing_text. destruct (role_is "admin" role); [done|].
  by destruct (role_is "developer" role || role_is "tester" role).
Qed.

Lemma summary_fits ban uid fname aname locale t txt link :
  exec (_ban_summary cfg ban uid fname aname locale) t (Ok (txt, link)) ->
  fits bot_username (Ok (Some ban)) txt (checkme_ban_kb bot_username (ban_id_of ban) link locale) = true.
Proof.
  intros ([ru ra] & _ & H)%ran_exec%ran_bind. cbv zeta in H.
  destruct (match ra with Ok (n, un) => _ | Err _ => _ end) as [ac au]. destruct (cfg_proofs cfg) as [pc pt].
  apply ran_ret in H as [= -> ->]. unfold fits, checkme_ban_kb, ban_id_of. cbn [tells_ban reassures is_message].
  destruct (truthy_str bot_username) eqn:Hb; cbn [negb]; [|done].
  destruct (dget "proof_message_id" ban ≫= bint), pt; cbn; by rewrite !String.eqb_refl.
Qed.

(** Nobody is told that all is well on a guess.  When somebody who is not a
    bot gets an answer about his own standing, his active ban has been looked
    up, and every reply is the one that lookup calls for: with no ban, that he
    is clean or staff; with a ban - staff or not - the ban, with a button that
    opens the appeal of just that ban; and after a failed lookup only the
    request to try again. *)
Theorem standing_honest (c : command) (user_id : Z) (t : trace eff) (r : result unit)
    (Huser : effective_user (c_upd c) = Some user_id) (Hbot : c_is_bot c = false)
    (Hrun : exec (cmd_checkme_body cfg bot_username c) t r)
    (Hreply : existsb any_reply t = true) :
  exists ban, ran (get_active_ban user_id) ban t /\ existsb (misfit bot_username ban) t = false.
Proof.
  revert Hreply. revert t r Hrun.
  change (wp (cmd_checkme_body cfg bot_username c) (fun t _ => existsb any_reply t = true ->
    exists ban, ran (get_active_ban user_id) ban t /\ existsb (misfit bot_username ban) t = false)).
  unfold cmd_checkme_body. rewrite Huser, Hbot. destruct (effective_message (c_upd c)) as [msg|]; [|by apply wp_ret].
  apply calm_before; [apply (silent_never _ _ (says_speaks _)), silent_locale|]. intros t1 locale H1.
  apply calm_before; [apply (silent_never _ _ (says_speaks _)), silent_standing|]. intros t2 [role ban] H2. cbv zeta.
  assert (forall t3, existsb (misfit bot_username ban) t3 = false ->
    exists ban, ran (get_active_ban user_id) ban (t1 ++ (t2 ++ t3)) /\
                existsb (misfit bot_username ban) (t1 ++ (t2 ++ t3)) = false) as Hleaf.
  { intros t3 H3. exists ban. split; [by apply ran_app_r, ran_app_l, (ran_gather2 _ _ _ _ _ (ran_exec _ _ _ H2))|].
    unfold misfit in *. rewrite !existsb_app, H3.
    by rewrite (silent_says _ _ _ _ (silent_locale _) H1), (silent_says _ _ _ _ (silent_standing _) H2). }
  destruct ban as [[ban|]|e].
  - apply calm_before; [apply (silent_never _ _ (says_speaks _)), silent_summary|]. intros t3 [txt link] H3.
    eapply wp_mono; [apply (reply_kb_says (fun txt kb => negb (fits bot_username (Ok (Some ban)) txt kb)))|].
    + by rewrite (summary_fits _ _ _ _ _ _ _ _ H3).
    + intros t4 r H4 _. apply Hleaf. unfold misfit in *.
      rewrite existsb_app, (silent_says _ _ _ _ (silent_summary _ _ _ _ _ _) H3). by apply existsb_false_Forall.
  - eapply wp_mono; [apply (reply_says (fun txt kb => negb (fits bot_username (Ok None) txt kb)))|].
    + by rewrite standing_fits.
    + intros t4 r H4 _. apply Hleaf. by apply existsb_false_Forall.
  - eapply wp_mono; [apply (reply_says (fun txt kb => negb (fits bot_username (Err e) txt kb)))|]; [done|].
    intros t4 r H4 _. apply Hleaf. by apply existsb_false_Forall.
Qed.
End verdict.

Section cards.
Context {CAT : Catalog} (cfg : config) (bot_username : string).

Lemma edits_quiet {A} (p : io A) : never obs_speaks p -> never obs_edits p.
Proof. apply silent_never, edits_speaks. Qed.

Lemma with_ban_edits upd q body :
  wp (with_ban upd q body) (fun t _ => existsb obs_edits t = true ->
    exists m data id ban, q = Some (Callback m (Some data)) /\ second_field (u data) = Some id /\
      during (get_ban (s_of id)) ban t).
Proof.
  destruct q as [[m [data|]]|]; cbn [with_ban mbind option_bind]; [|apply calm_absent; unfold answer; by never_auto|by apply wp_ret].
  destruct (second_field (u data)) as [id|] eqn:Hid; [|apply calm_absent; unfold answer; by never_auto].
  apply calm_before; [apply edits_quiet, silent_locale|]. intros t1 locale H1.
  apply calm_before; [apply edits_quiet, silent_record|]. intros t2 [a ban] H2. destruct ban as [ban|e].
  - apply wp_intro. intros t3 r _ _. exists m, data, id, ban. do 2 (split; [done|]).
    by apply ran_app_r, ran_app_l, (ran_gather2 _ _ _ _ _ (ran_exec _ _ _ H2)).
  - apply calm_absent. unfold alert_key. never_auto.
Qed.
End cards.

(** The card of a ban survives an outage.  The buttons below it change the
    message only when the record of the ban they name was read, or its absence
    was. *)
Theorem card_survives_outage {CAT : Catalog} (cfg : config) (bot_username : string) (back : bool)
    (upd : update) (q : option callback) (t : trace eff) (r : result unit)
    (Hrun : exec (if back then on_checkme_back_body cfg bot_username upd q else on_checkme_detail_body cfg upd q) t r)
    (Hedit : existsb obs_edits t = true) :
  exists m data id ban, q = Some (Callback m (Some data)) /\ second_field (u data) = Some id /\
    during (get_ban (s_of id)) ban t.
Proof. destruct back; exact (wp_elim _ _ _ _ (with_ban_edits upd q _) Hrun Hedit). Qed.

(** * Where the code departs from its documentation *)
Section departures.
#[local] Existing Instance demo_catalog.

Definition caller : command :=
  Command (Update (Some 9) (Some ("private"%string, 9)) (Some (Message 5 9 "private" (Some "/checkme"%string))) false)
    None [] "Ann" None false.

(** The texts replied with. *)
Definition replied (t : trace eff) : list text :=
  omap (fun o => match o with Obs ev _ => match ev with ReplyText _ txt _ => Some txt | _ => None end end) t.

Definition owned_by_caller : script := fun X ev =>
  match ev in eff X return option (result X) with
  | FindOne "tc_owners" _ _ => Some (Ok (Some ["user_id" ~> BInt 9]))
  | _ => None
  end.

Definition checked (ov : script) : trace eff * result unit := replay ov (cmd_checkme_body demo_config "tcbot" caller).

(** The founder gets the answer everybody gets, not one of his own. *)
Theorem founder_reads_as_anyone :
  existsb (is_message "checking.checkme.clean") (replied (checked owned_by_caller).1) = true /\
  (replay owned_by_caller (get_effective_role 9)).2 = Ok (BStr "founder").
Proof. split; vm_compute; reflexivity. Qed.

(** A ban recorded without evidence, as [Records.create_ban] stores it. *)
Definition unproven : doc :=
  ["ban_id" ~> BStr "a1"; "banned_user_id" ~> BInt 9; "admin_user_id" ~> BInt 4; "proof_message_id" ~> BInt 0;
   "is_active" ~> BBool true].

Definition proof_of {A} (r : result (A * option text)) : option text := match r with Ok (_, l) => l | Err _ => None end.

(** The summary links to the proof of a ban that has none; the details do not. *)
Theorem absent_proof_is_linked :
  proof_of (replay no_script (_ban_summary demo_config unproven 9 "Ann" None DEFAULT_LOCALE)).2 =
    Some (TLink (-12) 0 None) /\
  proof_of (replay no_script (build_ban_detail demo_config unproven None DEFAULT_LOCALE)).2 = None.
Proof. split; vm_compute; reflexivity. Qed.

Definition banned_script : script := fun X ev =>
  match ev in eff X return option (result X) with
  | FindOne "bans" _ _ => Some (Ok (Some unproven))
  | _ => None
  end.

Lemma standing_honest_witness :
  existsb tells_ban (replied (checked banned_script).1) = true /\
  exists ban, ran (get_active_ban 9) ban (checked banned_script).1 /\ existsb (misfit "tcbot" ban) (checked banned_script).1 = false.
Proof.
  split; [vm_compute; reflexivity|].
  apply (standing_honest demo_config "tcbot" caller 9 (checked banned_script).1 (checked banned_script).2).
  - reflexivity.
  - reflexivity.
  - exact (replay_exec banned_script _).
  - vm_compute. reflexivity.
Defined.

Definition detail_tap : option callback := Some (Callback (Message 5 9 "private" None) (Some "checkme_detail:a1"%string)).
Definition detailed : trace eff * result unit :=
  replay banned_script (on_checkme_detail_body demo_config (c_upd caller) detail_tap).

Lemma card_survives_outage_witness :
  existsb obs_edits detailed.1 = true /\
  exists m data id ban, detail_tap = Some (Callback m (Some data)) /\ second_field (u data) = Some id /\
    during (get_ban (s_of id)) ban detailed.1.
Proof.
  assert (existsb obs_edits detailed.1 = true) as He by (vm_compute; reflexivity). split; [exact He|].
  exact (card_survives_outage demo_config "tcbot" false (c_upd caller) detail_tap detailed.1 detailed.2
    (replay_exec banned_script _) He).
Defined.
End departures.
