(* ===== verification/Reporter.v ===== *)
(** Reporting errors to the log channel and to the owner,
    [tcbot/utils/error_reporter/]: which errors are shipped, the dedupe window,
    the owner's hourly budget, and the throttle in front of the channel.  The
    clock is an argument, in nanoseconds; the module's variables are the
    states.  [attach] and [set_owner] only store their arguments; the layout of
    a report (format.py) is [ErrorReport]. *)

From stdpp Require Import countable.
From S2P Require Import Prelude Text CircuitBreaker Duration Language.

(** * Exceptions as the reporter sees them *)

(** Names of the classes an exception is an instance of, its module, its text
    and the place it was raised at last. *)
Record exc_info := ExcInfo {
  exc_type : string;
  exc_bases : list string;
  exc_module : string;
  exc_text : ustr;
  exc_file : string;
  exc_line : Z
}.

Record log_record := LogRecord {
  rec_name : string;
  rec_line : Z;
  rec_message : ustr;
  rec_exc : option exc_info
}.

Definition isinstance (e : exc_info) (classes : list string) : bool :=
  existsb (fun c => existsb (String.eqb c) (exc_type e :: exc_bases e)) classes.

Definition any_in (parts : list string) (s : ustr) : bool := existsb (fun p => contains s (u p)) parts.

(** * classify.py *)
Definition _BENIGN_PATTERNS : list string :=
  ["message is not modified"; "message to edit not found"; "message to delete not found"; "query is too old";
   "message is too old"; "message can't be edited"].

Definition _LOG_NOISE_PATTERNS : list string := [" raised after "].

Definition _OWNER_ONLY_TYPES : list string := ["Conflict"; "InvalidToken"].

Section classify.
Context `{UCD}.

Definition _benign (exc : option exc_info) : bool :=
  match exc with
  | None => false
  | Some e => isinstance e ["CancelledError"%string] || any_in _BENIGN_PATTERNS (str_lower (exc_text e))
  end.

Definition _log_noise (rec : option log_record) : bool :=
  match rec with None => false | Some r => any_in _LOG_NOISE_PATTERNS (rec_message r) end.

Definition _owner_only (exc : option exc_info) : bool :=
  match exc with None => false | Some e => isinstance e _OWNER_ONLY_TYPES end.

(** The first of these an exception is an instance of names it. *)
Definition telegram_labels : list (string * string) :=
  [("RetryAfter", "[~] Rate Limit: Flood Wait"); ("TimedOut", "[~] Telegram Timed Out");
   ("Conflict", "[~] Polling Conflict"); ("BadRequest", "[!] Telegram Bad Request");
   ("Forbidden", "[!] Telegram Forbidden"); ("InvalidToken", "[!] Telegram Invalid Token");
   ("NetworkError", "[~] Telegram Network Error"); ("TelegramError", "[!] Telegram API Error")]%string.

Fixpoint first_label (labels : list (string * string)) (e : exc_info) : option string :=
  match labels with
  | [] => None
  | (c, label) :: labels' => if isinstance e [c] then Some label else first_label labels' e
  end.

Definition _classify (exc : option exc_info) : string :=
  match exc with
  | None => "[?] Unknown"
  | Some e =>
      match first_label telegram_labels e with
      | Some label => label
      | None =>
          let mod_ := u (exc_module e) in
          if any_in ["motor"; "pymongo"; "mongo"]%string mod_ then "[DB] Database Error"
          else if any_in ["circuit_breaker"%string] mod_ then "[~] Circuit Open"
          else if isinstance e ["TimeoutError"%string] then "[~] Async Timeout"
          else if isinstance e ["CancelledError"%string] then "[-] Task Cancelled"
          else if isinstance e ["ConnectionError"; "TimeoutError"; "OSError"]%string ||
                  any_in ["httpx"; "aiohttp"; "urllib3"; "ssl"]%string mod_
          then "[~] Network / Server Error"
          else "[!] Code Bug"
      end
  end.

Definition _ACTION_HINTS : list (string * string) :=
  [("[DB]", "Check MongoDB reachability and credentials, then retry the action.");
   ("Rate Limit", "Telegram asked to slow down; no action needed unless it persists.");
   ("Timed Out", "Transient Telegram hiccup; retry the action.");
   ("Polling Conflict", "Two bot instances are polling; stop the duplicate.");
   ("Invalid Token", "Token revoked or wrong; update BOT_TOKEN and restart.");
   ("Forbidden", "Bot lacks admin rights in the target chat; re-promote it.");
   ("Bad Request", "Check the reported call arguments for a bad ID or text.");
   ("Network", "Transient connectivity issue; retry the action.");
   ("Timeout", "Operation exceeded its deadline; retry the action.");
   ("Code Bug", "Needs a code fix; see the traceback below.");
   ("[?] Unknown", "No exception attached; check the message and location above.");
   ("Circuit Open", "Telegram circuit is open; retry after the cooldown.")]%string.

Definition default_hint : string := "Check the message and location above.".

Definition _action_hint (label : string) : string :=
  match List.filter (fun p => contains (u label) (u p.1)) _ACTION_HINTS with
  | (_, hint) :: _ => hint
  | [] => default_hint
  end.

(** * Fingerprints *)
Definition _MAX_CONTEXT_LEN : nat := 120.

(** [re.sub(pre + cls + "+", repl, s)] for a class that [pre] does not end in;
    the fuel is the length of the text. *)
Fixpoint sub_run (fuel : nat) (pre : ustr) (cls : Z -> bool) (repl s : ustr) : ustr :=
  match fuel, s with
  | S fuel', c :: s' =>
      match after_prefix pre s with
      | Some ((d :: _) as rest) =>
          if cls d then repl ++ sub_run fuel' pre cls repl (drop_while cls rest)
          else c :: sub_run fuel' pre cls repl s'
      | _ => c :: sub_run fuel' pre cls repl s'
      end
  | _, _ => []
  end.

Definition is_hex (c : Z) : bool :=
  ((48 <=? c) && (c <=? 57)) || ((97 <=? c) && (c <=? 102)) || ((65 <=? c) && (c <=? 70)).

Definition _normalize_fp_text (s : ustr) : ustr :=
  let s := sub_run (length s) (u "Task-") is_decimal (u "Task-#") s in
  sub_run (length s) (u "0x") is_hex (u "0x#") s.

Inductive fingerprint : Type :=
  | FpExc (type_ file : string) (line : Z) (msg : ustr)
  | FpLog (name : string) (line : Z) (msg : ustr).

#[export] Instance fingerprint_eq_dec : EqDecision fingerprint.
Proof. solve_decision. Defined.

#[export] Instance fingerprint_countable : Countable fingerprint.
Proof.
  refine (inj_countable'
    (fun fp => match fp with FpExc t f l m => inl (t, f, l, m) | FpLog n l m => inr (n, l, m) end)
    (fun s => match s with inl (t, f, l, m) => FpExc t f l m | inr (n, l, m) => FpLog n l m end) _).
  by intros [].
Defined.

Definition _fingerprint_exc (e : exc_info) : fingerprint :=
  FpExc (exc_type e) (exc_file e) (exc_line e) (take _MAX_CONTEXT_LEN (_normalize_fp_text (exc_text e))).

Definition _fingerprint_record (r : log_record) : fingerprint :=
  FpLog (rec_name r) (rec_line r) (take _MAX_CONTEXT_LEN (_normalize_fp_text (rec_message r))).
End classify.

(** * state.py: the windows *)
Definition _DEDUPE_WINDOW : Z := seconds 30.
Definition _RECENT_MAX : nat := 1000.
Definition _OWNER_WINDOW : Z := seconds 3600.
Definition _OWNER_BUDGET : Z := 3.
Definition _OWNER_MAX : nat := 1000.

(** A dict in insertion order. *)
Definition dict_get {V} (k : fingerprint) (d : list (fingerprint * V)) : option V :=
  snd <$> head (List.filter (fun p => bool_decide (p.1 = k)) d).

(** [sorted(d.items(), key=lambda x: x[1])] *)
Fixpoint insert_seen (x : fingerprint * Z) (l : list (fingerprint * Z)) : list (fingerprint * Z) :=
  match l with
  | [] => [x]
  | y :: l' => if x.2 <=? y.2 then x :: l else y :: insert_seen x l'
  end.
Definition by_age (d : list (fingerprint * Z)) : list (fingerprint * Z) := fold_right insert_seen [] d.

Definition without (keys : list fingerprint) {V} (d : list (fingerprint * V)) : list (fingerprint * V) :=
  List.filter (fun p => negb (bool_decide (p.1 ∈ keys))) d.

Abbreviation recent := (list (fingerprint * Z)).

Definition prune_recent (now : Z) (d : recent) : recent := List.filter (fun p => now - p.2 <=? _DEDUPE_WINDOW) d.

(** The cap is reached: the oldest tenth goes. *)
Definition evict (d : recent) : recent :=
  if Nat.leb _RECENT_MAX (length d) then without (map fst (take (_RECENT_MAX / 10) (by_age d))) d else d.

Definition _seen_recently (now : Z) (fp : fingerprint) (d : recent) : bool * recent :=
  let d := evict (prune_recent now d) in
  match dict_get fp d with
  | Some _ => (true, d)
  | None => (false, d ++ [(fp, now)])
  end.

Abbreviation owner_log := (gmap fingerprint (Z * Z)).

Definition prune_owner (now : Z) (d : owner_log) : owner_log :=
  if Nat.leb _OWNER_MAX (size d) then filter (fun p => now - p.2.1 < _OWNER_WINDOW) d else d.

Definition _owner_suppressed (now : Z) (fp : fingerprint) (d : owner_log) : bool * owner_log :=
  let d := prune_owner now d in
  let '(start, count) := match d !! fp with Some sc => sc | None => (now, 0) end in
  let '(start, count) := if _OWNER_WINDOW <=? now - start then (now, 0) else (start, count) in
  if _OWNER_BUDGET <=? count then (true, <[fp := (start, count)]> d)
  else (false, <[fp := (start, count + 1)]> d).

Section dedup.
Context `{UCD}.

(** The fingerprint of an exception is preferred. *)
Definition _dedup (now : Z) (exc : option exc_info) (rec : option log_record) (d : recent) : bool * recent :=
  match exc, rec with
  | Some e, _ => _seen_recently now (_fingerprint_exc e) d
  | None, Some r => _seen_recently now (_fingerprint_record r) d
  | None, None => (false, d)
  end.

(** * ship.py: what becomes of an error *)
Inductive destination : Type := Dropped | ToOwner | ToChannel.

Record reporter := Reporter { recent_of : recent; owner_sent : owner_log }.

Definition ship (now : Z) (exc : option exc_info) (fp : fingerprint) (st : reporter) : destination * reporter :=
  if _owner_only exc then
    let '(suppressed, sent) := _owner_suppressed now fp (owner_sent st) in
    (if suppressed then Dropped else ToOwner, Reporter (recent_of st) sent)
  else (ToChannel, st).

Definition report_exc (now : Z) (e : exc_info) (st : reporter) : destination * reporter :=
  if _benign (Some e) then (Dropped, st)
  else
    let '(seen, d) := _dedup now (Some e) None (recent_of st) in
    let st := Reporter d (owner_sent st) in
    if seen then (Dropped, st) else ship now (Some e) (_fingerprint_exc e) st.

Definition report_record (now : Z) (r : log_record) (st : reporter) : destination * reporter :=
  let exc := rec_exc r in
  if _benign exc then (Dropped, st)
  else if _log_noise (Some r) then (Dropped, st)
  else
    let '(seen, d) := _dedup now exc (Some r) (recent_of st) in
    let st := Reporter d (owner_sent st) in
    if seen then (Dropped, st)
    else ship now exc (match exc with Some e => _fingerprint_exc e | None => _fingerprint_record r end) st.
End dedup.

(** * ship.py: the throttle

    [_ship_throttled] awaits twice: once for the summary of a window that
    suppressed reports, once for the report.  Its runs interleave there; the
    text of a report plays no part. *)
Definition _SEND_BUDGET : Z := 20.
Definition _SEND_WINDOW : Z := seconds 60.

Record throttle := Throttle {
  _send_window_start : Z;
  _sent_in_window : Z;
  _suppressed_in_window : Z;
  (* runs that wait for their summary *)
  summaries : nat
}.

Definition throttle_init : throttle := Throttle 0 0 0 0.

(** A summary carries the number of reports it stands for. *)
Inductive message_kind : Type := Summary (suppressed : Z) | Report.

(** The part behind the summary: a report within the budget. *)
Definition send_report (st : throttle) : throttle * list message_kind :=
  if _SEND_BUDGET <=? _sent_in_window st
  then (Throttle (_send_window_start st) (_sent_in_window st) (_suppressed_in_window st + 1) (summaries st), [])
  else (Throttle (_send_window_start st) (_sent_in_window st + 1) (_suppressed_in_window st) (summaries st), [Report]).

Inductive throttle_event : Type :=
  | Enter                 (* [_ship_throttled] is called *)
  | SummarySent           (* the summary of some run went out, and it goes on *)
  | SummaryFailed.        (* or did not, and it returns *)

Definition throttle_step (now : Z) (ev : throttle_event) (st : throttle) : option (throttle * list message_kind) :=
  match ev with
  | Enter =>
      if _SEND_WINDOW <=? now - _send_window_start st then
        if _suppressed_in_window st =? 0
        then Some (send_report (Throttle now 0 (_suppressed_in_window st) (summaries st)))
        else Some (Throttle now 0 0 (S (summaries st)), [Summary (_suppressed_in_window st)])
      else Some (send_report st)
  | SummarySent =>
      match summaries st with
      | S n => Some (send_report (Throttle (_send_window_start st) (_sent_in_window st) (_suppressed_in_window st) n))
      | O => None
      end
  | SummaryFailed =>
      match summaries st with
      | S n => Some (Throttle (_send_window_start st) (_sent_in_window st) (_suppressed_in_window st) n, [])
      | O => None
      end
  end.

(** A history of steps, each with the time it runs at, and what it sends. *)
Fixpoint throttle_run (evs : list (Z * throttle_event)) (st : throttle) : option (throttle * list (Z * message_kind)) :=
  match evs with
  | [] => Some (st, [])
  | (now, ev) :: evs' =>
      '(st, sent) ← throttle_step now ev st;
      '(st, log) ← throttle_run evs' st;
      Some (st, map (pair now) sent ++ log)
  end.

(** The clock does not go back. *)
Fixpoint monotone (ts : list Z) : Prop :=
  match ts with [] => True | t :: ts' => Forall (Z.le t) ts' /\ monotone ts' end.

Lemma monotone_snoc ts t : monotone (ts ++ [t]) <-> monotone ts /\ Forall (fun t' => t' <= t) ts.
Proof.
  induction ts as [|t' ts IH]; cbn [monotone app].
  - split; [split; constructor|by intros; split].
  - rewrite IH, Forall_app, !Forall_cons, Forall_nil. tauto.
Qed.

Lemma monotone_app_l ts1 ts2 : monotone (ts1 ++ ts2) -> monotone ts1.
Proof. induction ts1 as [|t ts1 IH]; [done|]. cbn. rewrite Forall_app. tauto. Qed.

(** * The dedupe window *)
Section recent.
Context (W : Z := _DEDUPE_WINDOW).

Fixpoint state_after (calls : list (Z * fingerprint)) (d : recent) : recent :=
  match calls with
  | [] => d
  | (now, fp) :: calls' => state_after calls' (_seen_recently now fp d).2
  end.

Lemma state_after_app c1 c2 d : state_after (c1 ++ c2) d = state_after c2 (state_after c1 d).
Proof. revert d. induction c1 as [|[now fp] c1 IH]; intros d; [done|]. apply IH. Qed.

Lemma insert_seen_perm x l : insert_seen x l ≡ₚ x :: l.
Proof.
  induction l as [|y l IH]; [done|]. cbn [insert_seen]. destruct (x.2 <=? y.2); [done|].
  rewrite IH. apply Permutation_swap.
Qed.

Lemma by_age_perm d : by_age d ≡ₚ d.
Proof. induction d as [|x d IH]; [done|]. cbn [by_age fold_right]. by rewrite insert_seen_perm, IH. Qed.

Lemma evict_sub d p : p ∈ evict d -> p ∈ d.
Proof.
  unfold evict. destruct (Nat.leb _ _); [|done]. unfold without. intros Hp%list_elem_of_In%filter_In.
  apply list_elem_of_In. tauto.
Qed.

Lemma evict_room d : (length d < _RECENT_MAX)%nat -> evict d = d.
Proof. intros H. unfold evict. by rewrite (proj2 (Nat.leb_gt _ _) H). Qed.

(** A full dict loses at least its oldest entry. *)
Lemma evict_length d : (length d <= _RECENT_MAX)%nat -> (length (evict d) < _RECENT_MAX)%nat.
Proof.
  intros Hd. unfold evict. destruct (Nat.leb_spec _RECENT_MAX (length d)) as [Hfull|]; [|lia].
  destruct (by_age d) as [|x l] eqn:Hl.
  { apply (f_equal length) in Hl. rewrite (Permutation_length (by_age_perm d)) in Hl. unfold _RECENT_MAX in *. simpl in Hl. lia. }
  assert (x ∈ d) as Hx. { rewrite <- (by_age_perm d), Hl. by left. }
  apply list_elem_of_split in Hx as (d1 & d2 & ->). unfold without. rewrite List.filter_app, length_app in *. cbn [List.filter].
  rewrite bool_decide_true; [cbn [negb]|by left].
  pose proof (List.filter_length_le (fun p => negb (bool_decide (p.1 ∈ map fst (take (_RECENT_MAX / 10) (x :: l))))) d1).
  pose proof (List.filter_length_le (fun p => negb (bool_decide (p.1 ∈ map fst (take (_RECENT_MAX / 10) (x :: l))))) d2).
  unfold _RECENT_MAX in *. cbn [length] in *. lia.
Qed.

Lemma dict_get_spec {V} k (d : list (fingerprint * V)) : is_Some (dict_get k d) <-> exists v, (k, v) ∈ d.
Proof.
  unfold dict_get. split.
  - intros [v Hv]. destruct (List.filter _ d) as [|[k' v'] l] eqn:Hl; [done|]. exists v'.
    assert (In (k', v') (List.filter (fun p => bool_decide (p.1 = k)) d)) as Hin by (rewrite Hl; by left).
    apply filter_In in Hin as [Hin Hk%bool_decide_eq_true]. cbn in Hk. subst k'. by apply list_elem_of_In.
  - intros [v Hv]. destruct (List.filter _ d) as [|[k' v'] l] eqn:Hl; [|by eexists].
    assert (In (k, v) (List.filter (fun p => bool_decide (p.1 = k)) d)) as Hin.
    { apply filter_In. split; [by apply list_elem_of_In|]. by apply bool_decide_eq_true. }
    by rewrite Hl in Hin.
Qed.

(** The dict never holds more than its cap. *)
Lemma recent_bounded calls : (length (state_after calls []) <= _RECENT_MAX)%nat.
Proof.
  induction calls as [|[now fp] calls IH] using rev_ind; [cbn; lia|]. rewrite state_after_app. cbn [state_after].
  unfold _seen_recently. set (d := state_after calls []) in *.
  assert (length (evict (prune_recent now d)) < _RECENT_MAX)%nat as Hl.
  { apply evict_length. unfold prune_recent. etrans; [apply List.filter_length_le|done]. }
  destruct (dict_get fp _); cbn [snd]; [lia|]. rewrite length_app. cbn [length]. lia.
Qed.

(** Every entry is a report. *)
Lemma entry_reported calls fp s : (fp, s) ∈ state_after calls [] ->
  exists p1 p2, calls = p1 ++ (s, fp) :: p2 /\ (_seen_recently s fp (state_after p1 [])).1 = false.
Proof.
  induction calls as [|[now fp'] calls IH] using rev_ind; [by intros ?%elem_of_nil|].
  rewrite state_after_app. cbn [state_after]. set (d := state_after calls []) in *. intros Hin.
  destruct (_seen_recently now fp' d) as [seen d'] eqn:Hs. cbn [snd] in Hin.
  assert ((fp, s) ∈ d \/ (fp, s) = (fp', now) /\ seen = false) as [Hold|[[= -> ->] ->]].
  { unfold _seen_recently in Hs. assert (forall p, p ∈ evict (prune_recent now d) -> p ∈ d) as Hsub.
    { intros p Hp%evict_sub. unfold prune_recent in Hp. apply list_elem_of_In, filter_In in Hp. apply list_elem_of_In. tauto. }
    destruct (dict_get fp' _); injection Hs as <- <-; [left; by apply Hsub|].
    apply elem_of_app in Hin as [Hin|Hin%list_elem_of_singleton]; [left; by apply Hsub|by right]. }
  - destruct (IH Hold) as (p1 & p2 & -> & Hr). exists p1, (p2 ++ [(now, fp')]). by rewrite <- app_assoc.
  - exists calls, []. split; [done|]. fold d. by rewrite Hs.
Qed.
Lemma lfilter_sublist {A} (f : A -> bool) l : sublist (List.filter f l) l.
Proof. induction l as [|x l IH]; [constructor|]. cbn. by destruct (f x); [apply sublist_skip|apply sublist_cons]. Qed.

Lemma lfilter_mono {A} (f : A -> bool) l1 l2 : sublist l1 l2 -> sublist (List.filter f l1) (List.filter f l2).
Proof. induction 1 as [|x l1 l2 _ IH|x l1 l2 _ IH]; [done| |]; cbn; destruct (f x); try assumption; by constructor. Qed.

Lemma lfilter_weaken {A} (f g : A -> bool) l :
  (forall x, f x = true -> g x = true) -> sublist (List.filter f l) (List.filter g l).
Proof.
  intros Hfg. induction l as [|x l IH]; [constructor|]. cbn. specialize (Hfg x).
  destruct (f x), (g x); try assumption; try (by constructor); by discriminate (Hfg eq_refl).
Qed.

(** The dict is a part of the calls, in their order. *)
Lemma state_after_sublist calls : sublist (map (fun p => (p.2, p.1)) (state_after calls [])) calls.
Proof.
  induction calls as [|[now fp] calls IH] using rev_ind; [constructor|]. rewrite state_after_app. cbn [state_after].
  unfold _seen_recently. set (d := state_after calls []) in *.
  assert (sublist (map (fun p => (p.2, p.1)) (evict (prune_recent now d))) calls) as Hsub.
  { etrans; [|exact IH]. apply fmap_sublist. unfold evict, prune_recent, without.
    destruct (Nat.leb _ _); [etrans; apply lfilter_sublist|apply lfilter_sublist]. }
  destruct (dict_get fp _); cbn [snd]; [by apply sublist_inserts_r|].
  rewrite map_app. by apply sublist_app.
Qed.

(** The calls of the last [w] nanoseconds. *)
Definition lately (b w : Z) (calls : list (Z * fingerprint)) : list (Z * fingerprint) :=
  List.filter (fun p => b - p.1 <=? w) calls.

(** Few calls, no eviction. *)
Lemma few_calls_no_evict calls b t : b - t <= W -> (length (lately b (2 * W) calls) < _RECENT_MAX)%nat ->
  evict (prune_recent t (state_after calls [])) = prune_recent t (state_after calls []).
Proof.
  intros Ht Hfew. apply evict_room. eapply Nat.le_lt_trans; [|exact Hfew].
  rewrite <- (length_map (fun p : fingerprint * Z => (p.2, p.1))). apply sublist_length. unfold lately.
  etrans; [|apply lfilter_mono, (state_after_sublist calls)]. rewrite filter_map_swap. apply fmap_sublist.
  apply lfilter_weaken. intros [fp s]. cbn. rewrite !Z.leb_le. fold W. lia.
Qed.

(** What was reported stays until its window is over. *)
Lemma report_stays p1 a fp p2 b : b - a <= W -> Forall (fun p => a <= p.1 <= b) p2 ->
  (_seen_recently a fp (state_after p1 [])).1 = false ->
  (length (lately b (2 * W) (p1 ++ (a, fp) :: p2)) < _RECENT_MAX)%nat ->
  (fp, a) ∈ state_after (p1 ++ (a, fp) :: p2) [].
Proof.
  intros Hb Hp2 Hnew. induction p2 as [|[t fp'] p2 IH] using rev_ind; intros Hfew.
  - rewrite state_after_app. cbn [state_after]. unfold _seen_recently in *. destruct (dict_get fp _); [done|].
    cbn [snd]. apply elem_of_app. right. by left.
  - apply Forall_app in Hp2 as [Hp2 Ht]. apply Forall_cons in Ht as [Ht _]. cbn in Ht.
    assert (length (lately b (2 * W) (p1 ++ (a, fp) :: p2)) < _RECENT_MAX)%nat as Hless.
    { eapply Nat.le_lt_trans; [|exact Hfew]. rewrite app_comm_cons, app_assoc. unfold lately.
      rewrite (List.filter_app _ (p1 ++ _)), length_app. lia. }
    specialize (IH Hp2 Hless). rewrite app_comm_cons, app_assoc, state_after_app.
    set (calls := p1 ++ (a, fp) :: p2) in *. cbn [state_after]. unfold _seen_recently.
    rewrite (few_calls_no_evict calls b t ltac:(lia) Hless).
    assert ((fp, a) ∈ prune_recent t (state_after calls [])) as Hin.
    { apply list_elem_of_In, filter_In. split; [by apply list_elem_of_In|]. apply Z.leb_le. cbn. fold W. lia. }
    destruct (dict_get fp' _); [done|]. apply elem_of_app. by left.
Qed.

(** An error is reported once in thirty seconds, and only a report silences
    it: with fewer than a thousand errors in the last minute, a call is told
    that its fingerprint was seen exactly when an earlier call of at most thirty
    seconds ago was told that it was not. *)
Theorem one_report_per_incident calls b fp :
  monotone (map fst calls ++ [b]) -> (length (lately b (2 * W) calls) < _RECENT_MAX)%nat ->
  (_seen_recently b fp (state_after calls [])).1 = true <->
  exists p1 a p2, calls = p1 ++ (a, fp) :: p2 /\ b - a <= W /\ (_seen_recently a fp (state_after p1 [])).1 = false.
Proof.
  intros [Hm Hb]%monotone_snoc Hfew. split.
  - unfold _seen_recently. rewrite (few_calls_no_evict calls b b ltac:(unfold W, _DEDUPE_WINDOW, seconds; lia) Hfew).
    destruct (dict_get fp _) as [v|] eqn:Hget; [intros _|done].
    apply mk_is_Some, dict_get_spec in Hget as [s Hs]. apply list_elem_of_In, filter_In in Hs as [Hs Hw].
    apply list_elem_of_In, entry_reported in Hs as (p1 & p2 & Hcalls & Hr). apply Z.leb_le in Hw. cbn in Hw.
    by exists p1, s, p2.
  - intros (p1 & a & p2 & -> & Hw & Hr). assert (Forall (fun p => a <= p.1 <= b) p2) as Hp2.
    { rewrite map_app in Hm, Hb. apply Forall_app in Hb as [_ Hb]. cbn in Hb. apply Forall_cons in Hb as [_ Hb].
      assert (Forall (Z.le a) (map fst p2)) as Ha.
      { clear -Hm. induction p1 as [|p p1 IH]; cbn in Hm; [tauto|]. apply IH, Hm. }
      apply Forall_forall. intros p Hp%(list_elem_of_fmap_2 fst).
      by split; [apply (proj1 (Forall_forall _ _) Ha)|apply (proj1 (Forall_forall _ _) Hb)]. }
    pose proof (report_stays p1 a fp p2 b Hw Hp2 Hr Hfew) as Hin. unfold _seen_recently.
    rewrite (few_calls_no_evict _ b b ltac:(unfold W, _DEDUPE_WINDOW, seconds; lia) Hfew).
    assert (is_Some (dict_get fp (prune_recent b (state_after (p1 ++ (a, fp) :: p2) [])))) as [v ->]; [|done].
    apply dict_get_spec. exists a. apply list_elem_of_In, filter_In. split; [by apply list_elem_of_In|].
    by apply Z.leb_le.
Qed.

Lemma one_report_per_incident_witness :
  let fp := FpLog "tcbot" 7 [] in
  (_seen_recently (seconds 5) fp (state_after [(0, fp)] [])).1 = true.
Proof.
  intros fp. apply (one_report_per_incident [(0, fp)] (seconds 5) fp).
  - cbn. repeat constructor. by vm_compute.
  - vm_compute. repeat constructor.
  - exists [], 0, []. split; [done|]. split; [by vm_compute|done].
Defined.
End recent.

(** * Budgets over windows

    Both budgets count in a window that starts when a call finds the last one
    over.  [windowed]: what was fired is within the budget since the start of
    the window, and within twice the budget since one window before it. *)
Section windowed.
Context (W B : Z).

Definition after (a : Z) (fired : list Z) : Z := Z.of_nat (length (List.filter (Z.ltb a) fired)).

Lemma after_snoc a fired t : after a (fired ++ [t]) = after a fired + (if a <? t then 1 else 0).
Proof. unfold after. rewrite List.filter_app, length_app. cbn. destruct (a <? t); cbn [length]; lia. Qed.

Lemma after_mono a a' fired : a <= a' -> after a' fired <= after a fired.
Proof.
  intros Ha. induction fired as [|t fired IH] using rev_ind; [done|]. rewrite !after_snoc.
  destruct (Z.ltb_spec a t), (Z.ltb_spec a' t); lia.
Qed.

Lemma after_none a fired : Forall (fun t => t <= a) fired -> after a fired = 0.
Proof.
  induction fired as [|t fired IH] using rev_ind; [done|]. rewrite Forall_app, Forall_singleton, after_snoc.
  intros [? ?]. destruct (Z.ltb_spec a t); [lia|]. rewrite IH; [lia|done].
Qed.

Lemma after_nonneg a fired : 0 <= after a fired.
Proof. unfold after. lia. Qed.

Definition windowed (start count : Z) (fired : list Z) : Prop :=
  0 <= count <= B /\ after start fired <= count /\ after (start - W) fired <= B + count.

Lemma windowed_new start : 0 <= B -> windowed start 0 [].
Proof. unfold windowed, after. cbn. lia. Qed.

Lemma windowed_fire start count fired t :
  windowed start count fired -> count < B -> windowed start (count + 1) (fired ++ [t]).
Proof.
  unfold windowed. rewrite !after_snoc. intros. destruct (start <? t), (start - W <? t); lia.
Qed.

Lemma windowed_reset start count fired now :
  windowed start count fired -> Forall (fun t => t <= now) fired -> W <= now - start -> windowed now 0 fired.
Proof.
  unfold windowed. intros (Hc & Hs & _) Hpast Hw. rewrite (after_none now) by done.
  pose proof (after_mono start (now - W) fired ltac:(lia)). lia.
Qed.

Lemma windowed_rate start count fired now :
  windowed start count fired -> start <= now -> after (now - W) fired <= 2 * B.
Proof.
  unfold windowed. intros (Hc & _ & Hs) Hnow. pose proof (after_mono (start - W) (now - W) fired ltac:(lia)). lia.
Qed.
End windowed.

(** ** The owner's messages *)
Section owner.
Abbreviation owner_windowed := (windowed _OWNER_WINDOW _OWNER_BUDGET).

(** The calls of a history that were let through, by time. *)
Fixpoint owner_run (calls : list (Z * fingerprint)) (d : owner_log) : owner_log * list (Z * fingerprint) :=
  match calls with
  | [] => (d, [])
  | (now, fp) :: calls' =>
      let '(suppressed, d) := _owner_suppressed now fp d in
      let '(d, sent) := owner_run calls' d in
      (d, if suppressed then sent else (now, fp) :: sent)
  end.

Definition sent_for (fp : fingerprint) (sent : list (Z * fingerprint)) : list Z :=
  map fst (List.filter (fun p => bool_decide (p.2 = fp)) sent).

Lemma owner_run_snoc calls now fp d :
  owner_run (calls ++ [(now, fp)]) d =
  let '(d1, sent) := owner_run calls d in
  let '(suppressed, d2) := _owner_suppressed now fp d1 in
  (d2, if suppressed then sent else sent ++ [(now, fp)]).
Proof.
  revert d. induction calls as [|[t fp'] calls IH]; intros d.
  - cbn. by destruct (_owner_suppressed now fp d) as [[] d2].
  - cbn [app owner_run]. destruct (_owner_suppressed t fp' d) as [b1 d1]. rewrite IH.
    destruct (owner_run calls d1) as [d2 sent]. destruct (_owner_suppressed now fp d2) as [b2 d3]. by destruct b1, b2.
Qed.

Lemma sent_for_snoc fp sent now fp' :
  sent_for fp (sent ++ [(now, fp')]) = sent_for fp sent ++ (if decide (fp' = fp) then [now] else []).
Proof.
  unfold sent_for. rewrite List.filter_app, map_app. cbn. destruct (decide (fp' = fp)).
  - by rewrite bool_decide_true.
  - by rewrite bool_decide_false.
Qed.

(** What the state says of a fingerprint. *)
Definition owner_inv (now : Z) (d : owner_log) (fp : fingerprint) (fired : list Z) : Prop :=
  Forall (fun t => t <= now) fired /\
  exists start count, owner_windowed start count fired /\ start <= now /\
    (d !! fp = Some (start, count) \/ d !! fp = None /\ _OWNER_WINDOW <= now - start).

Lemma owner_inv_later now now' d fp fired : now <= now' -> owner_inv now d fp fired -> owner_inv now' d fp fired.
Proof.
  intros Hle (Hpast & s & c & Hw & Hs & Hd). split; [eapply Forall_impl; [exact Hpast|intros; cbn in *; lia]|].
  exists s, c. split; [done|]. split; [lia|]. destruct Hd as [?|[? ?]]; [by left|right; split; [done|lia]].
Qed.

Lemma prune_owner_inv now d fp fired : owner_inv now d fp fired -> owner_inv now (prune_owner now d) fp fired.
Proof.
  intros (Hpast & s & c & Hw & Hs & Hd). split; [done|]. exists s, c. split; [done|]. split; [done|].
  unfold prune_owner. destruct (Nat.leb _ _); [|done]. destruct Hd as [Hd|[Hd ?]].
  - destruct (decide (now - s < _OWNER_WINDOW)).
    + left. by apply map_lookup_filter_Some_2.
    + right. split; [|lia]. apply map_lookup_filter_None. right. intros [s' c'] Hd'. rewrite Hd in Hd'. by injection Hd' as <- <-.
  - right. split; [|done]. apply map_lookup_filter_None. by left.
Qed.

Lemma owner_inv_fired now d fp fired start count : Forall (fun t => t <= now) fired ->
  owner_windowed start count fired -> start <= now -> count < _OWNER_BUDGET ->
  owner_inv now (<[fp := (start, count + 1)]> d) fp (fired ++ [now]).
Proof.
  intros Hpast Hw Hs Hc. split; [apply Forall_app; split; [done|by repeat constructor]|].
  exists start, (count + 1). split; [by apply windowed_fire|]. split; [done|]. left. apply lookup_insert_eq.
Qed.

(** One call: its own fingerprint, and the others. *)
Lemma owner_step_own now fp d fired : owner_inv now d fp fired ->
  let '(suppressed, d') :=
    let '(start, count) := match d !! fp with Some sc => sc | None => (now, 0) end in
    let '(start, count) := if _OWNER_WINDOW <=? now - start then (now, 0) else (start, count) in
    if _OWNER_BUDGET <=? count then (true, <[fp := (start, count)]> d)
    else (false, <[fp := (start, count + 1)]> d) in
  owner_inv now d' fp (fired ++ if suppressed then [] else [now]).
Proof.
  intros (Hpast & s & c & Hw & Hs & Hd).
  assert (_OWNER_WINDOW <= now - s -> owner_windowed now 0 fired) as Hreset by (intros; by eapply windowed_reset).
  destruct Hd as [Hd|[Hd Hover]]; rewrite Hd.
  - destruct (Z.leb_spec _OWNER_WINDOW (now - s)) as [Hover|].
    + change (_OWNER_BUDGET <=? 0) with false. cbn match. apply owner_inv_fired; [done|by apply Hreset|done|done].
    + destruct (Z.leb_spec _OWNER_BUDGET c).
      * rewrite app_nil_r. split; [done|]. exists s, c. rewrite lookup_insert_eq. by repeat split; try apply Hw; try left.
      * by apply owner_inv_fired.
  - rewrite Z.sub_diag. change (_OWNER_WINDOW <=? 0) with false. cbn match. change (_OWNER_BUDGET <=? 0) with false.
    cbn match. apply owner_inv_fired; [done|by apply Hreset|done|done].
Qed.

Lemma owner_step_inv now fp fp' d fired : owner_inv now d fp fired ->
  let '(suppressed, d') := _owner_suppressed now fp' d in
  owner_inv now d' fp (fired ++ if decide (fp' = fp) then (if suppressed then [] else [now]) else []).
Proof.
  intros Hinv%prune_owner_inv. unfold _owner_suppressed. set (d0 := prune_owner now d) in *.
  destruct (decide (fp' = fp)) as [->|Hne].
  - by apply owner_step_own.
  - destruct (d0 !! fp') as [[s c]|]; destruct (_OWNER_WINDOW <=? _), (_OWNER_BUDGET <=? _);
      rewrite app_nil_r; destruct Hinv as (Hpast & s0 & c0 & Hw & Hs & Hd); (split; [done|]); exists s0, c0;
      by rewrite lookup_insert_ne.
Qed.

Lemma owner_run_inv calls now fp : monotone (map fst calls ++ [now]) ->
  owner_inv now (owner_run calls ∅).1 fp (sent_for fp (owner_run calls ∅).2).
Proof.
  revert now. induction calls as [|[t fp'] calls IH] using rev_ind; intros now Hm.
  - split; [constructor|]. exists (now - _OWNER_WINDOW), 0. split; [by apply windowed_new|].
    split; [unfold _OWNER_WINDOW, seconds; lia|]. right. split; [apply lookup_empty|lia].
  - rewrite map_app in Hm. apply monotone_snoc in Hm as [Hm Hnow]. apply Forall_app in Hnow as [_ Hnow].
    apply Forall_cons in Hnow as [Hnow _]. cbn in Hnow. specialize (IH t Hm).
    apply owner_step_inv with (fp' := fp') in IH. rewrite owner_run_snoc.
    destruct (owner_run calls ∅) as [d1 sent]. cbn [fst snd] in IH.
    destruct (_owner_suppressed t fp' d1) as [suppressed d2]. apply (owner_inv_later _ _ _ _ _ Hnow). cbn [fst snd].
    destruct suppressed; [|by rewrite sent_for_snoc]. by destruct (decide (fp' = fp)); rewrite app_nil_r in IH.
Qed.

(** The owner gets at most six messages about one fault in an hour, over
    any history of calls about any faults: twice the hourly budget, since two
    windows meet in the hour. *)
Theorem owner_rate calls now fp : monotone (map fst calls ++ [now]) ->
  after (now - _OWNER_WINDOW) (sent_for fp (owner_run calls ∅).2) <= 2 * _OWNER_BUDGET.
Proof. intros (_ & s & c & Hw & Hs & _)%(owner_run_inv calls now fp). by apply (windowed_rate _ _ s c). Qed.

Lemma owner_rate_witness :
  let fp := FpExc "Conflict" "" 0 [] in
  let calls := map (fun t => (seconds t, fp)) [0; 30; 60; 90; 3599; 3601; 3602; 3603; 3604] in
  map fst (owner_run calls ∅).2 = map seconds [0; 30; 60; 3601; 3602; 3603] /\
  after (seconds 3700 - _OWNER_WINDOW) (sent_for fp (owner_run calls ∅).2) <= 6.
Proof.
  intros fp calls. split; [by vm_compute|]. apply (owner_rate calls (seconds 3700) fp).
  repeat constructor; by vm_compute.
Defined.
End owner.

(** ** The log channel *)
Section channel.
Abbreviation channel_windowed := (windowed _SEND_WINDOW _SEND_BUDGET).

Definition reports (log : list (Z * message_kind)) : list Z :=
  map fst (List.filter (fun p => match p.2 with Report => true | Summary _ => false end) log).

Lemma reports_app l1 l2 : reports (l1 ++ l2) = reports l1 ++ reports l2.
Proof. unfold reports. by rewrite List.filter_app, map_app. Qed.

Definition throttle_inv (now : Z) (st : throttle) (fired : list Z) : Prop :=
  Forall (fun t => t <= now) fired /\ _send_window_start st <= now /\
  channel_windowed (_send_window_start st) (_sent_in_window st) fired.

Lemma throttle_inv_later now now' st fired : now <= now' -> throttle_inv now st fired -> throttle_inv now' st fired.
Proof. intros Hle (? & ? & ?). split; [eapply Forall_impl; [done|intros; cbn in *; lia]|]. split; [lia|done]. Qed.

Lemma send_report_inv now st fired : throttle_inv now st fired ->
  throttle_inv now (send_report st).1 (fired ++ reports (map (pair now) (send_report st).2)).
Proof.
  intros (Hpast & Hs & Hw). unfold send_report. destruct (Z.leb_spec _SEND_BUDGET (_sent_in_window st)); cbn.
  - by rewrite app_nil_r.
  - split; [apply Forall_app; by repeat constructor|]. split; [done|]. by apply windowed_fire.
Qed.

(** Any step of any run, in any order. *)
Lemma throttle_step_inv now ev st st' sent fired : throttle_inv now st fired ->
  throttle_step now ev st = Some (st', sent) -> throttle_inv now st' (fired ++ reports (map (pair now) sent)).
Proof.
  intros Hinv Hstep. destruct ev; cbn [throttle_step] in Hstep.
  - destruct (Z.leb_spec _SEND_WINDOW (now - _send_window_start st)) as [Hover|].
    + assert (forall susp n, throttle_inv now (Throttle now 0 susp n) fired) as Hnew.
      { intros susp n. destruct Hinv as (Hpast & Hs & Hw). split; [done|]. split; [cbn; lia|]. by eapply windowed_reset. }
      destruct (_suppressed_in_window st =? 0).
      * destruct (send_report _) as [st1 out] eqn:Hsend in Hstep. injection Hstep as <- <-.
        pose proof (send_report_inv now _ _ (Hnew (_suppressed_in_window st) (summaries st))) as Hr. by rewrite Hsend in Hr.
      * injection Hstep as <- <-. cbn. rewrite app_nil_r. apply Hnew.
    + pose proof (send_report_inv now _ _ Hinv) as Hr. destruct (send_report st) as [st1 out]. by injection Hstep as <- <-.
  - destruct (summaries st) as [|n]; [done|].
    pose proof (send_report_inv now (Throttle (_send_window_start st) (_sent_in_window st) (_suppressed_in_window st) n)
      fired Hinv) as Hr.
    destruct (send_report _) as [st1 out]. by injection Hstep as <- <-.
  - destruct (summaries st) as [|n]; [done|]. injection Hstep as <- <-. cbn. by rewrite app_nil_r.
Qed.

Lemma throttle_run_inv evs st st' log t0 now fired : throttle_run evs st = Some (st', log) ->
  monotone (t0 :: map fst evs ++ [now]) -> throttle_inv t0 st fired -> throttle_inv now st' (fired ++ reports log).
Proof.
  revert st log t0 fired. induction evs as [|[t ev] evs IH]; intros st log t0 fired Hrun [Hle Hm] Hinv.
  - injection Hrun as <- <-. cbn. rewrite app_nil_r. apply Forall_cons in Hle as [Hle _]. by eapply throttle_inv_later.
  - cbn [throttle_run] in Hrun. destruct (throttle_step t ev st) as [[st1 sent]|] eqn:Hstep; [|done]. cbn in Hrun.
    destruct (throttle_run evs st1) as [[st2 log2]|] eqn:Hrest; [|done]. cbn in Hrun. injection Hrun as <- <-.
    apply Forall_cons in Hle as [Hle _]. cbn in Hle.
    rewrite reports_app, app_assoc. eapply (IH st1 log2 t); [done|done|].
    eapply throttle_step_inv; [|done]. by eapply throttle_inv_later.
Qed.

(** At most forty reports reach the log channel in any minute, twice the
    budget of a window, whatever the order in which the runs of the throttle
    interleave and whether their summaries go out. *)
Theorem send_rate evs st log now : throttle_run evs throttle_init = Some (st, log) ->
  monotone (0 :: map fst evs ++ [now]) -> after (now - _SEND_WINDOW) (reports log) <= 2 * _SEND_BUDGET.
Proof.
  intros Hrun Hm. destruct (throttle_run_inv evs throttle_init st log 0 now [] Hrun Hm) as (_ & Hs & Hw).
  - split; [constructor|]. split; [done|]. by apply windowed_new.
  - by apply (windowed_rate _ _ (_send_window_start st) (_sent_in_window st)).
Qed.

(** A storm: twenty-one errors at once, and the next window's. *)
Definition storm : list (Z * throttle_event) :=
  map (fun _ => (seconds 60, Enter)) (seq 0 21) ++
  [(seconds 121, Enter); (seconds 121, SummarySent); (seconds 122, Enter)].

Lemma send_rate_witness : exists st log, throttle_run storm throttle_init = Some (st, log) /\
  length (reports log) = 22%nat /\ after (seconds 122 - _SEND_WINDOW) (reports log) <= 40.
Proof.
  eexists _, _. split; [vm_compute; reflexivity|]. split; [by vm_compute|].
  eapply (send_rate storm); [vm_compute; reflexivity|]. repeat constructor; by vm_compute.
Defined.

(** ** Where each report went *)
Definition announced (log : list (Z * message_kind)) : Z :=
  fold_right (fun p acc => match p.2 with Summary n => n + acc | Report => acc end) 0 log.

Definition count_ev (f : throttle_event -> bool) (evs : list (Z * throttle_event)) : Z :=
  Z.of_nat (length (List.filter (fun p => f p.2) evs)).

Definition entered := count_ev (fun ev => match ev with Enter => true | _ => false end).
Definition failed := count_ev (fun ev => match ev with SummaryFailed => true | _ => false end).

Lemma count_ev_cons f now ev evs : count_ev f ((now, ev) :: evs) = (if f ev then 1 else 0) + count_ev f evs.
Proof. unfold count_ev. cbn. destruct (f ev); cbn [length]; lia. Qed.

Lemma announced_app l1 l2 : announced (l1 ++ l2) = announced l1 + announced l2.
Proof. induction l1 as [|[t []] l1 IH]; unfold announced in *; cbn in *; lia. Qed.

(** The reports sent, announced, to be announced, and waiting. *)
Definition held (st : throttle) : Z := _suppressed_in_window st + Z.of_nat (summaries st).
Definition told (log : list (Z * message_kind)) : Z := Z.of_nat (length (reports log)) + announced log.

Lemma told_app l1 l2 : told (l1 ++ l2) = told l1 + told l2.
Proof. unfold told. rewrite reports_app, length_app, announced_app. lia. Qed.

Lemma send_report_account now st :
  told (map (pair now) (send_report st).2) + held (send_report st).1 = 1 + held st.
Proof. unfold send_report, told, held. destruct (_ <=? _); cbn; lia. Qed.

Lemma throttle_step_account now ev st st' sent : throttle_step now ev st = Some (st', sent) ->
  told (map (pair now) sent) + held st' + failed [(now, ev)] = held st + entered [(now, ev)].
Proof.
  intros Hstep. destruct ev; cbn [throttle_step] in Hstep; unfold failed, entered; rewrite !count_ev_cons; cbn [count_ev].
  - assert (Some (send_report (Throttle now 0 (_suppressed_in_window st) (summaries st))) = Some (st', sent) \/
            Some (Throttle now 0 0 (S (summaries st)), [Summary (_suppressed_in_window st)]) = Some (st', sent) \/
            Some (send_report st) = Some (st', sent)) as [Hs%(inj Some)|[[= <- <-]|Hs%(inj Some)]].
    { destruct (_SEND_WINDOW <=? _); [destruct (_ =? 0)|]; tauto. }
    + pose proof (send_report_account now (Throttle now 0 (_suppressed_in_window st) (summaries st))) as H.
      rewrite Hs in H. unfold held, count_ev in *. cbn in *. lia.
    + unfold told, held, count_ev. cbn. lia.
    + pose proof (send_report_account now st) as H. rewrite Hs in H. unfold held, count_ev in *. cbn in *. lia.
  - destruct (summaries st) as [|n] eqn:Hn; [done|]. apply (inj Some) in Hstep as Hs.
    pose proof (send_report_account now (Throttle (_send_window_start st) (_sent_in_window st) (_suppressed_in_window st) n)) as H.
    rewrite Hs in H. unfold held, count_ev in *. cbn in *. lia.
  - destruct (summaries st) as [|n] eqn:Hn; [done|]. injection Hstep as <- <-. unfold told, held, count_ev. cbn. lia.
Qed.

(** No report disappears in the throttle but with a failed summary: over
    any interleaving, every call is a report sent, a suppressed one that a
    summary told of or the next will, a run that waits for its summary, or one
    whose summary failed. *)
Theorem reports_accounted evs st log : throttle_run evs throttle_init = Some (st, log) ->
  entered evs = Z.of_nat (length (reports log)) + announced log +
                _suppressed_in_window st + Z.of_nat (summaries st) + failed evs.
Proof.
  change (throttle_run evs throttle_init = Some (st, log) -> entered evs = told log + _suppressed_in_window st + Z.of_nat (summaries st) + failed evs).
  assert (forall st0, throttle_run evs st0 = Some (st, log) -> told log + held st + failed evs = held st0 + entered evs) as Hrun.
  - revert log. induction evs as [|[now ev] evs IH]; intros log st0 Hrun; cbn [throttle_run] in Hrun.
    + injection Hrun as <- <-. unfold told, failed, entered, count_ev. cbn. lia.
    + destruct (throttle_step now ev st0) as [[st1 sent]|] eqn:Hstep; [|done]. cbn in Hrun.
      destruct (throttle_run evs st1) as [[st2 log2]|] eqn:Hrest; [|done]. cbn in Hrun. injection Hrun as <- <-.
      specialize (IH _ _ Hrest). apply throttle_step_account in Hstep. unfold failed, entered in *.
      rewrite told_app, !(count_ev_cons _ now ev evs). rewrite !(count_ev_cons _ now ev []) in Hstep.
      unfold count_ev in Hstep |- *. cbn in Hstep. unfold count_ev in IH. lia.
  - intros H%Hrun. unfold held in H. cbn in H. lia.
Qed.

Lemma reports_accounted_witness : exists st log, throttle_run storm throttle_init = Some (st, log) /\
  entered storm = 23 /\ length (reports log) = 22%nat /\ announced log = 1 /\
  entered storm = Z.of_nat (length (reports log)) + announced log + _suppressed_in_window st + Z.of_nat (summaries st) + failed storm.
Proof.
  eexists _, _. split; [vm_compute; reflexivity|]. split; [by vm_compute|]. split; [by vm_compute|]. split; [by vm_compute|].
  eapply reports_accounted. vm_compute. reflexivity.
Defined.

(** A failed summary takes the report at hand with it: it is not sent, and the
    next summary does not count it. *)
Theorem failed_summary_loses_report now st st' sent : throttle_step now SummaryFailed st = Some (st', sent) ->
  sent = [] /\ _sent_in_window st' = _sent_in_window st /\ _suppressed_in_window st' = _suppressed_in_window st /\
  summaries st = S (summaries st').
Proof. cbn. destruct (summaries st) as [|n]; [done|]. by intros [= <- <-]. Qed.

Lemma failed_summary_loses_report_witness : exists st st' sent,
  throttle_step (seconds 122) SummaryFailed st = Some (st', sent) /\ summaries st' = 0%nat /\ sent = [].
Proof.
  exists (Throttle (seconds 121) 0 0 1). eexists _, _. split; [reflexivity|]. split; [reflexivity|].
  eapply (failed_summary_loses_report (seconds 122) (Throttle (seconds 121) 0 0 1)). reflexivity.
Defined.
End channel.

(** * Labels and their action lines *)
Definition labels : list string :=
  "[?] Unknown"%string :: map snd telegram_labels ++
  ["[DB] Database Error"; "[~] Circuit Open"; "[~] Async Timeout"; "[-] Task Cancelled"; "[~] Network / Server Error";
   "[!] Code Bug"]%string.

Lemma classify_label exc : In (_classify exc) labels.
Proof.
  unfold _classify. destruct exc as [e|]; [|by left]. unfold labels. right. apply in_app_iff.
  destruct (first_label telegram_labels e) as [l|] eqn:Hl.
  - left. revert Hl. generalize telegram_labels. intros ls. induction ls as [|[c l'] ls IH]; [done|]. cbn [first_label map snd In].
    destruct (isinstance e [c]); [intros [= ->]; by left|]. intros ?%IH. by right.
  - right. repeat case_match; cbn; tauto.
Qed.

(** Every label but two has an action line of its own. *)
Lemma labels_have_hints exc : _action_hint (_classify exc) = default_hint <->
  _classify exc = "[!] Telegram API Error"%string \/ _classify exc = "[-] Task Cancelled"%string.
Proof.
  assert (forallb (fun l => Bool.eqb (String.eqb (_action_hint l) default_hint)
    (String.eqb l "[!] Telegram API Error" || String.eqb l "[-] Task Cancelled")) labels = true) as Hall
    by (vm_compute; reflexivity).
  rewrite forallb_forall in Hall. specialize (Hall _ (classify_label exc)). apply Bool.eqb_prop in Hall.
  by rewrite <- !String.eqb_eq, Hall, orb_true_iff.
Qed.

(** * Fingerprints that ignore task names *)
Section normalize.
Context `{UCD}.

Lemma after_prefix_length p s rest : after_prefix p s = Some rest -> (length rest <= length s)%nat.
Proof.
  revert s. induction p as [|c p IH]; intros s Hs; cbn in Hs; [injection Hs as ->; done|].
  destruct s as [|d s]; [done|]. destruct (c =? d); [|done]. apply IH in Hs. cbn. lia.
Qed.

Lemma drop_while_length f s : (length (drop_while f s) <= length s)%nat.
Proof. induction s as [|c s IH]; [done|]. cbn. destruct (f c); cbn; lia. Qed.

Lemma sub_run_fuel pre cls repl f1 f2 s : (length s <= f1)%nat -> (length s <= f2)%nat ->
  sub_run f1 pre cls repl s = sub_run f2 pre cls repl s.
Proof.
  revert f2 s. induction f1 as [|f1 IH]; intros [|f2] [|c s] H1 H2; cbn in H1, H2; try lia; try done. cbn [sub_run].
  destruct (after_prefix pre (c :: s)) as [[|d rest]|] eqn:Hpre; try (f_equal; apply IH; lia).
  apply after_prefix_length in Hpre. pose proof (drop_while_length cls rest) as Hl. cbn in Hpre.
  destruct (cls d) eqn:Hd; f_equal; apply IH; cbn [drop_while]; rewrite ?Hd; lia.
Qed.

Lemma drop_while_app_stop f s c s' : f c = false -> drop_while f (s ++ c :: s') = drop_while f s ++ c :: s'.
Proof. intros Hc. induction s as [|d s IH]; cbn; [by rewrite Hc|]. by destruct (f d). Qed.

Lemma drop_while_skip f s s' : forallb f s = true -> drop_while f (s ++ s') = drop_while f s'.
Proof. induction s as [|c s IH]; [done|]. cbn. intros [-> ?]%andb_true_iff. by apply IH. Qed.

(** No match straddles the start of another. *)
Lemma task_no_overlap P : P <> [] -> (exists P', P = u "Task-" ++ P') \/
  forall X, after_prefix (u "Task-") (P ++ u "Task-" ++ X) = None.
Proof.
  intros HP. destruct (decide (take 5 P = u "Task-")) as [Ht|Hne].
  - left. exists (drop 5 P). by rewrite <- Ht, take_drop.
  - right. intros X. change (u "Task-") with [84; 97; 115; 107; 45] in *.
    do 5 (destruct P as [|? P]; [cbn -[Z.eqb]; repeat case_match; done|]).
    cbn -[Z.eqb] in Hne |- *. rewrite take_0 in Hne. repeat case_match; to_prop; subst; done.
Qed.

Definition task_sub (s : ustr) : ustr := sub_run (length s) (u "Task-") is_decimal (u "Task-#") s.

Lemma task_letter_stops X s : drop_while is_decimal (s ++ u "Task-" ++ X) = drop_while is_decimal s ++ u "Task-" ++ X.
Proof. apply drop_while_app_stop. unfold is_decimal. by rewrite decimal_digit_ascii. Qed.

Lemma task_sub_cons c s : task_sub (c :: s) =
  match after_prefix (u "Task-") (c :: s) with
  | Some ((d :: _) as rest) =>
      if is_decimal d then u "Task-#" ++ task_sub (drop_while is_decimal rest) else c :: task_sub s
  | _ => c :: task_sub s
  end.
Proof.
  unfold task_sub at 1. cbn [length sub_run].
  destruct (after_prefix (u "Task-") (c :: s)) as [[|d rest]|] eqn:Hpre; try done.
  apply after_prefix_length in Hpre. pose proof (drop_while_length is_decimal rest). cbn in Hpre.
  destruct (is_decimal d) eqn:Hd; [|done]. f_equal. apply sub_run_fuel; cbn [drop_while]; rewrite ?Hd; lia.
Qed.

(** The number of a task is replaced, and the rest goes on behind it. *)
Lemma task_sub_number ds r : ds <> [] -> forallb is_decimal ds = true ->
  task_sub (u "Task-" ++ ds ++ r) = u "Task-#" ++ task_sub (drop_while is_decimal r).
Proof.
  intros Hne Hds. destruct ds as [|d ds]; [done|]. change (u "Task-" ++ (d :: ds) ++ r) with (84 :: u "ask-" ++ (d :: ds) ++ r).
  rewrite task_sub_cons. change (84 :: u "ask-" ++ (d :: ds) ++ r) with (u "Task-" ++ (d :: ds) ++ r).
  rewrite after_prefix_app. cbn [app]. cbn [forallb] in Hds. apply andb_true_iff in Hds as [Hd Hds]. rewrite Hd.
  do 2 f_equal. change (d :: ds ++ r) with ((d :: ds) ++ r). apply drop_while_skip. cbn. by rewrite Hd.
Qed.

Lemma task_sub_same P d1 d2 r : d1 <> [] -> d2 <> [] -> forallb is_decimal d1 = true -> forallb is_decimal d2 = true ->
  task_sub (P ++ u "Task-" ++ d1 ++ r) = task_sub (P ++ u "Task-" ++ d2 ++ r).
Proof.
  intros H1 H2 Hd1 Hd2. remember (length P) as n eqn:Hn. revert P Hn.
  induction n as [n IH] using lt_wf_ind; intros P Hn. destruct P as [|c P].
  - cbn [app]. by rewrite !task_sub_number.
  - cbn [app]. rewrite !task_sub_cons, !app_comm_cons.
    assert (task_sub (P ++ u "Task-" ++ d1 ++ r) = task_sub (P ++ u "Task-" ++ d2 ++ r)) as HP
      by (apply (IH (length P)); [cbn in Hn; lia|done]).
    destruct (task_no_overlap (c :: P)) as [[P' HP']|Hnone]; [done| |by rewrite !Hnone, HP].
    rewrite HP', <- !app_assoc, !after_prefix_app. rewrite HP' in Hn. rewrite length_app in Hn. cbn in Hn.
    destruct P' as [|d P']; cbn [app].
    + change (u "Task-") with (84 :: u "ask-"). cbn [app].
      assert (is_decimal 84 = false) as -> by (unfold is_decimal; by rewrite decimal_digit_ascii). by f_equal.
    + destruct (is_decimal d) eqn:Hd; [|by f_equal]. f_equal. rewrite !app_comm_cons, !task_letter_stops.
      apply (IH (length (drop_while is_decimal (d :: P')))); [|done].
      pose proof (drop_while_length is_decimal (d :: P')). cbn [length] in *. lia.
Qed.

(** Messages that differ in the number of a task have one fingerprint. *)
Lemma task_number_ignored name line P d1 d2 r e1 e2 :
  d1 <> [] -> d2 <> [] -> forallb is_decimal d1 = true -> forallb is_decimal d2 = true ->
  _fingerprint_record (LogRecord name line (P ++ u "Task-" ++ d1 ++ r) e1) =
  _fingerprint_record (LogRecord name line (P ++ u "Task-" ++ d2 ++ r) e2).
Proof.
  intros H1 H2 Hd1 Hd2. unfold _fingerprint_record, _normalize_fp_text. cbn [rec_name rec_line rec_message].
  fold (task_sub (P ++ u "Task-" ++ d1 ++ r)). fold (task_sub (P ++ u "Task-" ++ d2 ++ r)).
  by rewrite (task_sub_same P d1 d2 r).
Qed.

(** A background task that crashes again under a new task number is not
    reported again: a record without an exception, shipped or not, drops the
    next one of its logger and line that differs in the number only, within
    thirty seconds and while fewer than a thousand faults are remembered. *)
Theorem recurring_crash_once t1 t2 name line P d1 d2 r st rt st1 :
  d1 <> [] -> d2 <> [] -> forallb is_decimal d1 = true -> forallb is_decimal d2 = true ->
  t1 <= t2 <= t1 + _DEDUPE_WINDOW -> (length (recent_of st1) < _RECENT_MAX)%nat ->
  report_record t1 (LogRecord name line (P ++ u "Task-" ++ d1 ++ r) None) st = (rt, st1) -> rt <> Dropped ->
  (report_record t2 (LogRecord name line (P ++ u "Task-" ++ d2 ++ r) None) st1).1 = Dropped.
Proof.
  intros H1 H2 Hd1 Hd2 Ht Hroom Hrep Hrt.
  pose proof (task_number_ignored name line P d1 d2 r None None H1 H2 Hd1 Hd2) as Hfp.
  unfold report_record, _dedup in *. cbn [rec_exc _benign] in *.
  destruct (_log_noise (Some (LogRecord name line (P ++ u "Task-" ++ d1 ++ r) None))); [congruence|].
  destruct (_log_noise _); [done|]. rewrite <- Hfp. set (fp := _fingerprint_record _) in *. clearbody fp.
  destruct (_seen_recently t1 fp (recent_of st)) as [seen d] eqn:Hseen. destruct seen; [congruence|].
  cbn in Hrep. injection Hrep as <- <-. cbn [recent_of] in *. unfold _seen_recently in *.
  destruct (dict_get fp (evict (prune_recent t1 (recent_of st)))); [done|]. injection Hseen as <-.
  set (d := _ ++ [(fp, t1)]) in *. rewrite (evict_room (prune_recent t2 d)).
  - assert (is_Some (dict_get fp (prune_recent t2 d))) as [v ->]; [|done]. apply dict_get_spec. exists t1.
    apply list_elem_of_In, filter_In. split; [|apply Z.leb_le; cbn; lia]. apply in_app_iff. right. by left.
  - eapply Nat.le_lt_trans; [apply List.filter_length_le|exact Hroom].
Qed.
End normalize.

Lemma recurring_crash_once_witness : exists rt st1,
  let rec n := LogRecord "tcbot.mtproto" 40 (u "crash in Task-" ++ u n ++ u ": closed") None in
  @report_record ascii_ucd (seconds 100) (rec "812") (Reporter [] ∅) = (rt, st1) /\ rt = ToChannel /\
  (@report_record ascii_ucd (seconds 110) (rec "4077") st1).1 = Dropped.
Proof.
  eexists _, _. intros rec. split; [vm_compute; reflexivity|]. split; [reflexivity|].
  refine (@recurring_crash_once ascii_ucd (seconds 100) (seconds 110) "tcbot.mtproto" 40 (u "crash in ") (u "812") (u "4077")
    (u ": closed") (Reporter [] ∅) ToChannel _ _ _ _ _ _ _ _ _); try done; vm_compute; try done.
  repeat constructor.
Defined.
