(* ===== verification/Faults.v ===== *)
(** What becomes of an exception nobody caught, [tcbot/runtime/errors.py]: the
    error handler of the application and the one of the event loop, in front
    of the reporter. *)

From S2P Require Import Prelude Text Formatter Language Reporter ErrorReport.

Definition _ERROR_CONTEXT_TEXT_LEN : nat := 120.

(** What the handler reads of an update: name and id of the user, title and id
    of the chat, the text of the message, the data of the button. *)
Record seen_update := SeenUpdate {
  su_user : option (ustr * Z);
  su_chat : option (ustr * Z);
  su_text : ustr;
  su_callback : option (option ustr)
}.

(** Errors of the network and of Telegram that retry by themselves. *)
Definition transient_telegram : list string := ["NetworkError"; "TimedOut"; "RetryAfter"].
Definition transient_network : list string := ["ConnectionError"; "TimeoutError"; "OSError"].

Definition with_id (label name : ustr) (id : Z) : ustr := label ++ name ++ u " (" ++ str_int id ++ u ")".

Definition context_parts (upd : option seen_update) : list ustr :=
  match upd with
  | None => []
  | Some s =>
      match su_user s with Some (name, id) => [with_id (u "User: ") name id] | None => [] end ++
      match su_chat s with
      | Some (title, id) => [with_id (u "Chat: ") (match title with [] => u "DM" | _ => title end) id]
      | None => []
      end ++
      match su_text s, su_callback s with
      | (_ :: _) as text, _ => [u "Text: " ++ take _ERROR_CONTEXT_TEXT_LEN text]
      | [], Some data => [u "CBQ data: " ++ match data with Some d => d | None => u "None" end]
      | [], None => []
      end
  end.

Section handlers.
Context `{UCD} (cfg : secrets).

Definition context_str (upd : option seen_update) : option ustr :=
  match context_parts upd with
  | [] => None
  | parts => Some (scrub_text cfg (join (u " | ") parts))
  end.

(** An error is passed over, or goes to the console with its context and to
    the reporter, which may still drop it. *)
Inductive fate : Type := PassedOver | Handed (context : option ustr) (to : destination).

Definition _error_handler (now : Z) (exc : option exc_info) (upd : option seen_update) (st : reporter) : fate * reporter :=
  match exc with
  | None => (PassedOver, st)
  | Some e =>
      if isinstance e ["CircuitOpenError"%string] then (PassedOver, st)
      else if isinstance e transient_telegram then (PassedOver, st)
      else if isinstance e transient_network then (PassedOver, st)
      else if _benign (Some e) then (PassedOver, st)
      else
        let context := context_str upd in
        let '(to, st) := report_exc now e st in
        (Handed context to, st)
  end.

(** ** The event loop's handler *)

(** [park]: the task that shuts the session down; scheduling a task may fail. *)
Inductive loop_task : Type := Park | ReportTask (exc : exc_info) (context : ustr).

Definition detail_of (msg : ustr) (future : option ustr) : ustr :=
  match future with Some f => msg ++ u " | Task: " ++ f | None => msg end.

Definition duplicated_key (e : exc_info) : bool := isinstance e ["AuthKeyDuplicated"%string].

Definition asyncio_handler (dead : bool) (park_fails report_fails : bool)
    (exc : option exc_info) (msg : ustr) (future : option ustr) : list loop_task :=
  let detail := detail_of msg future in
  let report := if report_fails then []
                else [ReportTask (match exc with Some e => e | None => ExcInfo "RuntimeError" [] "builtins" detail "" 0 end) detail] in
  match exc with
  | None => report
  | Some e =>
      if isinstance e transient_telegram then []
      else if isinstance e transient_network then []
      else if _benign (Some e) then []
      else if duplicated_key e then
        if dead then []
        else (if park_fails then [] else [Park]) ++ report
      else report
  end.

(** ** Lemmas *)

Definition expected_classes : list string := ["CircuitOpenError"%string] ++ transient_telegram ++ transient_network.

Lemma isinstance_app e l1 l2 : isinstance e (l1 ++ l2) = isinstance e l1 || isinstance e l2.
Proof. apply existsb_app. Qed.

Lemma handler_split now e upd st :
  _error_handler now (Some e) upd st =
    if isinstance e expected_classes || _benign (Some e) then (PassedOver, st)
    else (Handed (context_str upd) (report_exc now e st).1, (report_exc now e st).2).
Proof.
  unfold _error_handler, expected_classes. rewrite !isinstance_app.
  destruct (isinstance e ["CircuitOpenError"%string]), (isinstance e transient_telegram), (isinstance e transient_network),
    (_benign (Some e)), (report_exc now e st); done.
Qed.

(** The console copy is redacted as well. *)
Lemma context_hides_secrets upd secret c : In secret (configured cfg) -> opaque secret ->
  context_str upd = Some c -> contains c secret = false.
Proof.
  unfold context_str. intros Hin Hp. destruct (context_parts upd) as [|p ps]; [done|]. intros [= <-]. by apply scrub_hides.
Qed.

(** A session that is dead ships nothing more. *)
Lemma dead_session_silent pf rf e msg future : duplicated_key e = true ->
  asyncio_handler true pf rf (Some e) msg future = [].
Proof. intros Hd. unfold asyncio_handler. rewrite Hd. by repeat case_match. Qed.

(** Whatever is a kind of NetworkError is taken for an outage and neither
    reported nor remembered, and a rejected call is one: its label and its
    action line are never used here. *)
Theorem bad_request_is_passed_over now text mod_ file line upd st :
  let e := ExcInfo "BadRequest" ["NetworkError"; "TelegramError"; "Exception"] mod_ text file line in
  _error_handler now (Some e) upd st = (PassedOver, st) /\
  _classify (Some e) = "[!] Telegram Bad Request"%string /\
  _action_hint (_classify (Some e)) = "Check the reported call arguments for a bad ID or text."%string.
Proof. split; [done|]. split; [done|]. vm_compute. reflexivity. Qed.

(** An unexpected error is reported, once: one that is neither an open
    circuit, nor a transient error, nor benign, nor the owner's alone goes to
    the log channel the first time in thirty seconds, and again only after
    them; passing errors over leaves the reporter as it was. *)
Theorem unexpected_error_reported now e upd st :
  (isinstance e expected_classes || _benign (Some e) = true /\
   _error_handler now (Some e) upd st = (PassedOver, st)) \/
  (_owner_only (Some e) = true /\ exists to st', _error_handler now (Some e) upd st = (Handed (context_str upd) to, st') /\ to <> ToChannel) \/
  exists to st', _error_handler now (Some e) upd st = (Handed (context_str upd) to, st') /\
    (to = ToChannel <-> (_seen_recently now (_fingerprint_exc e) (recent_of st)).1 = false).
Proof.
  rewrite handler_split. destruct (isinstance e expected_classes || _benign (Some e)) eqn:Hp; [by left|].
  apply orb_false_iff in Hp as [_ Hb]. right. unfold report_exc, _dedup. rewrite Hb.
  destruct (_seen_recently now (_fingerprint_exc e) (recent_of st)) as [seen d]. unfold ship. cbn [fst].
  destruct (_owner_only (Some e)).
  - left. split; [done|]. destruct seen; [by eexists _, _|]. cbn [owner_sent recent_of].
    destruct (_owner_suppressed now _ _) as [[] sent]; by eexists _, _.
  - right. destruct seen; by eexists _, _.
Qed.
End handlers.
