(* ===== verification/Intake.v ===== *)
(** How updates reach the bot over HTTP: the webhook and the health page of the
    long-lived process ([tcbot/alive.py]), the serverless endpoints ([api/])
    and the driver behind them ([tcbot/serverless.py]).

    The Telegram library (decoding an update, initialising the application,
    running its handlers), the JSON decoder and the connections that
    [_init_subsystems] opens through third-party drivers are parameters. *)

From S2P Require Import Prelude Prog Text World Dispatch Cache CircuitBreaker Roles Jobs.

(** An HTTP status and the body that goes with it. *)
Abbreviation response := (Z * string)%type.

(** [hmac.compare_digest] on two strings: it refuses those that are not ASCII. *)
Definition is_ascii (s : ustr) : bool := forallb (fun c => c <? 128) s.
Definition compare_digest (a b : ustr) : result bool :=
  if is_ascii a && is_ascii b then Ok (ueqb a b) else Err (OtherException "TypeError").

(** * alive.py *)
Section alive.
Context {payload U : Type} (de_json : payload -> result (option U)).

(** The module's variables; the queue, the loop and the bot are set together. *)
Record receiver := Receiver { _wh_ready : bool; _wh_secret : ustr }.

Definition receiver_init : receiver := Receiver false [].
Definition register_webhook (secret : ustr) (r : receiver) : receiver := Receiver true secret.

(** How handing an update to the bot's loop ends; after a timeout the update
    may be in the queue already. *)
Inductive handover : Type :=
  | NotScheduled
  | Accepted
  | TimedOut (in_queue : bool)
  | Refused
  | Broken.

(** The answer, and what is in the queue because of it. *)
Definition hand_over (x : U) (h : handover) : response * list U :=
  match h with
  | NotScheduled => ((503, "Service unavailable"%string), [])
  | Accepted => ((200, "OK"%string), [x])
  | TimedOut in_queue => ((503, "Service unavailable"%string), if in_queue then [x] else [])
  | Refused => ((503, "Service unavailable"%string), [])
  | Broken => ((500, "Internal error"%string), [])
  end.

(** [data]: the JSON of the body, none when it is empty or no JSON. *)
Definition webhook_route (r : receiver) (token : ustr) (data : option payload) (h : handover)
    : result (response * list U) :=
  let forbidden := Ok ((403, "Forbidden"%string), []) in
  match _wh_secret r with
  | [] => forbidden
  | secret =>
      match compare_digest token secret with
      | Err e => Err e
      | Ok false => forbidden
      | Ok true =>
          if negb (_wh_ready r) then Ok ((503, "Service unavailable"%string), [])
          else match data with
               | None => Ok ((400, "Bad request"%string), [])
               | Some d =>
                   match de_json d with
                   | Err e => if is_Exception e then Ok ((400, "Bad request"%string), []) else Err e
                   | Ok None => Ok ((200, "OK"%string), [])
                   | Ok (Some x) => Ok (hand_over x h)
                   end
               end
      end
  end.

(** What a run of the process does to the receiver: it is registered at most
    once, after start-up. *)
Definition receivers (secret : ustr) : list receiver := [receiver_init; register_webhook secret receiver_init].

(** The receiver queues only updates that Telegram sent: an update is in
    the queue only if the request carried the secret, after registration, and
    it is the one of the body. *)
Theorem queued_is_authentic r token data h resp q x :
  webhook_route r token data h = Ok (resp, q) -> In x q ->
  _wh_secret r <> [] /\ token = _wh_secret r /\ _wh_ready r = true /\
  exists d, data = Some d /\ de_json d = Ok (Some x).
Proof.
  unfold webhook_route. destruct (_wh_secret r) as [|c s] eqn:Hs; [by intros [= <- <-]|]. unfold compare_digest.
  destruct (_ && _); [|done]. destruct (ueqb token (c :: s)) eqn:Ht; [|by intros [= <- <-]].
  apply bool_decide_eq_true in Ht as ->. destruct (_wh_ready r); [|by intros [= <- <-]].
  destruct data as [d|]; [|by intros [= <- <-]]. destruct (de_json d) as [[x'|]|e] eqn:Hd; [| by intros [= <- <-]|].
  - intros [= Hr] Hin. split; [done|]. split; [done|]. split; [done|]. exists d. split; [done|]. rewrite Hd. do 2 f_equal.
    destruct h as [| |[]| |]; cbn in Hr; injection Hr as <- <-; cbn in Hin; tauto.
  - destruct (is_Exception e); [by intros [= <- <-]|done].
Qed.

(** What is acknowledged is kept: the answer 200 means that the update is in
    the queue, or that its kind is unknown to the library. *)
Theorem acknowledged_is_queued r token d h body q :
  webhook_route r token (Some d) h = Ok ((200, body), q) ->
  match de_json d with Ok (Some x) => q = [x] | Ok None => q = [] | Err _ => False end.
Proof.
  unfold webhook_route. destruct (_wh_secret r) as [|c s]; [done|]. destruct (compare_digest _ _) as [[]|]; [|done..].
  destruct (_wh_ready r); [|done]. destruct (de_json d) as [[x|]|e]; cbn.
  - intros [= Hr]. by destruct h as [| |[]| |]; cbn in Hr; injection Hr.
  - by intros [= _ <-].
  - by destruct (is_Exception e).
Qed.

(** Before registration the answer is 403 for every token: the branch for a
    process that is not ready is never reached. *)
Theorem not_ready_is_forbidden secret r token data h resp q :
  In r (receivers secret) -> webhook_route r token data h = Ok (resp, q) -> _wh_ready r = false -> resp.1 = 403.
Proof. intros [<-|[<-|[]]]; [|done]. cbn. by intros [= <- _]. Qed.
End alive.

(** * The health page *)
Record health_view := HealthView {
  mongo_connected : bool; scheduler_ready : bool;
  mongo_circuit : CircuitState; telegram_circuit : CircuitState;
  redis_configured : bool; redis_liveness : option bool; queue_size : option Z
}.

Definition state_value (s : CircuitState) : string :=
  match s with CLOSED => "closed" | OPEN => "open" | HALF_OPEN => "half_open" end.
Definition closed (s : CircuitState) : bool := match s with CLOSED => true | _ => false end.

Record health_payload := HealthPayload {
  h_status : string; h_mongodb : string; h_redis : string; h_scheduler : string;
  h_circuit_telegram : string; h_circuit_mongodb : string; h_update_queue : option Z
}.

Definition health (v : health_view) : health_payload * Z :=
  let mongodb_ok := if closed (mongo_circuit v) then mongo_connected v else false in
  let redis_status :=
    if negb (redis_configured v) then "disabled"%string
    else match redis_liveness v with Some true => "ok" | Some false => "error" | None => "unknown" end%string in
  let overall :=
    if mongodb_ok && scheduler_ready v && closed (telegram_circuit v) && closed (mongo_circuit v)
    then "ok"%string else "degraded"%string in
  (HealthPayload overall (if mongodb_ok then "ok" else "error") redis_status
     (if scheduler_ready v then "ok" else "error") (state_value (telegram_circuit v)) (state_value (mongo_circuit v))
     (queue_size v),
   if String.eqb overall "ok" then 200 else 503).

(** The page is green exactly when the database, the scheduler and both
    circuits are up; Redis does not count. *)
Lemma health_spec v : (health v).2 = 200 <->
  mongo_connected v = true /\ scheduler_ready v = true /\ mongo_circuit v = CLOSED /\ telegram_circuit v = CLOSED.
Proof.
  unfold health. destruct v as [mc sr m tg rc rl qs]; cbn. destruct m, tg, mc, sr; cbn; split; try done; by intros (?&?&?&?).
Qed.

(** * serverless.py *)
Section serverless.
Context {payload U raw : Type}.
Context (de_json : payload -> result (option U)) (process_update : U -> io unit).
Context (initialize connect ensure_indexes connect_if_configured : io unit) (initial_owner_id : Z).

(** The error reporter is attached last. *)
Definition _init_subsystems : io unit :=
  connect ;;;
  let! (indexes_r, owner_r, _) := gather3 ensure_indexes (ensure_initial_owner initial_owner_id) connect_if_configured in
  match indexes_r with
  | Err e => Raise e
  | Ok _ => call (VarPut "_bot" (BId "bot"))
  end.

(** Building the application and registering its handlers makes no call. *)
Definition get_app : io unit :=
  app <- call (VarGet "_app") ;;
  match app with
  | BNull => initialize ;;; _init_subsystems ;;; call (VarPut "_app" (BId "app"))
  | _ => Ret tt
  end.

Definition succeeds {A} (p : io A) : io bool := try_except (p ;;; Ret true) (fun _ => Ret false).

Definition handle_telegram_payload (data : payload) : io response :=
  ready <- succeeds get_app ;;
  if negb ready then Ret (503, "Service unavailable"%string)
  else
    match de_json data with
    | Err e => if is_Exception e then Ret (400, "Bad request"%string) else Raise e
    | Ok None => Ret (200, "OK"%string)
    | Ok (Some x) =>
        done <- succeeds (process_update x) ;;
        if done : bool then Ret (200, "OK"%string) else Ret (500, "Internal error"%string)
    end.

Definition run_warn_expiry (days : Z) : io response :=
  if days <=? 0 then Ret (200, "warn expiry disabled"%string)
  else
    ran <- succeeds (db <- call (VarGet "_db") ;;
                     (match db with BNull => connect | _ => Ret tt end) ;;;
                     expire_old_warns days) ;;
    if ran : bool then Ret (200, "warn expiry ran"%string) else Ret (500, "warn expiry failed"%string).

(** [run(coro)]: the instance's loop, one invocation at a time. *)
Definition run_invocation (p : io response) : io response := try_except p (fun _ => Ret (500, "Internal error"%string)).

(** * api/webhook.py and api/cron.py *)
Inductive decoded : Type := NotJson | NotObject | Object (p : payload).

Context {UCD_ : UCD} (read : Z -> raw) (nothing : raw) (decode : raw -> decoded).

(** [int(headers.get("Content-Length", 0) or 0)], and 0 for no number. *)
Definition content_length (header : option ustr) : Z :=
  match header with
  | None | Some [] => 0
  | Some s => match py_int s with Some n => n | None => 0 end
  end.

Definition webhook_do_POST (expected token : ustr) (length_header : option ustr) : io response :=
  match expected with
  | [] => Ret (503, "webhook secret not configured"%string)
  | _ =>
      same <- of_result (compare_digest token expected) ;;
      if negb same then Ret (403, "Forbidden"%string)
      else
        let n := content_length length_header in
        match decode (if 0 <? n then read n else nothing) with
        | NotJson | NotObject => Ret (400, "Bad request"%string)
        | Object data => run_invocation (handle_telegram_payload data)
        end
  end.

Definition cron_do_GET (secret auth : ustr) (days : Z) : io response :=
  match secret with
  | [] => Ret (503, "cron secret not configured"%string)
  | _ =>
      same <- of_result (compare_digest auth (u "Bearer " ++ secret)) ;;
      if negb same then Ret (401, "Unauthorized"%string)
      else run_invocation (run_warn_expiry days)
  end.

Definition webhook_do_GET : response := (200, "OK"%string).
Definition cron_do_POST : response := (405, "Method not allowed"%string).

(** ** What the endpoints promise *)

Lemma succeeds_spec {A} (p : io A) :
  wp (succeeds p) (fun t r => match r with
    | Ok true => exists a, exec p t (Ok a)
    | Ok false => exists e, is_Exception e = true /\ exec p t (Err e)
    | Err e => is_Exception e = false /\ exec p t (Err e)
    end).
Proof.
  unfold succeeds. apply wp_try, wp_bind. eapply wp_mono; [apply wp_exec|]. intros t [a|e] Hp; cbn.
  - apply wp_ret. rewrite app_nil_r. by exists a.
  - destruct (is_Exception e) eqn:He; [|done]. apply wp_ret. rewrite app_nil_r. by exists e.
Qed.

(** C8: both serverless endpoints fail closed: a request makes no call at all
    without a configured secret that it carries. *)
Theorem endpoints_gated expected token header secret auth days t r :
  t <> [] ->
  (exec (webhook_do_POST expected token header) t r -> expected <> [] /\ token = expected) /\
  (exec (cron_do_GET secret auth days) t r -> secret <> [] /\ auth = u "Bearer " ++ secret).
Proof.
  intros Ht. assert (forall a b (p : response) (k : io response) t' r',
    t' <> [] -> exec (same <- of_result (compare_digest a b) ;; if negb same then Ret p else k) t' r' -> a = b) as Hcmp.
  { intros a b p k t' r' Hne. unfold compare_digest. destruct (_ && _); cbn; [|by intros [-> _]].
    destruct (ueqb a b) eqn:Hab; cbn; [by apply bool_decide_eq_true in Hab|by intros [-> _]]. }
  split.
  - unfold webhook_do_POST. destruct expected as [|c s]; [by intros [-> _]|]. intros He. split; [done|]. by eapply Hcmp.
  - unfold cron_do_GET. destruct secret as [|c s]; [by intros [-> _]|]. intros He. split; [done|]. by eapply Hcmp.
Qed.

Definition handled (data : payload) (t : trace eff) : Prop :=
  de_json data = Ok None \/
  exists x t1 t2, de_json data = Ok (Some x) /\ t = t1 ++ t2 /\
    exec get_app t1 (Ok tt) /\ exists a, exec (process_update x) t2 (Ok a).

Lemma handle_ok data : wp (handle_telegram_payload data) (fun t r => forall body, r = Ok (200, body) -> handled data t).
Proof.
  unfold handle_telegram_payload. apply wp_bind. eapply wp_mono; [apply succeeds_spec|].
  intros t1 [[]|e] Hready; cbn [negb]; [|apply wp_ret; by intros body [=]|by intros body [=]].
  destruct Hready as [[] Hready]. unfold handled. destruct (de_json data) as [[x|]|e] eqn:Hd.
  - apply wp_bind. eapply wp_mono; [apply succeeds_spec|]. intros t2 [[]|e] Hdone; [|apply wp_ret; by intros body [=]|by intros body [=]].
    apply wp_ret. intros body _. right. exists x, t1, t2. by rewrite app_nil_r.
  - apply wp_ret. by left.
  - destruct (is_Exception e); [apply wp_ret|apply wp_raise]; by intros body [=].
Qed.

(** C9: what the serverless endpoint acknowledges was processed: the answer 200
    to an update means that its kind is unknown to the library, or that the
    application was there or was set up with success in this very request, and
    then the library's [process_update] was called on this update and returned
    without an exception (what a handler raised it may have given to the error
    handlers). *)
Theorem acknowledged_is_processed expected token header t body :
  exec (webhook_do_POST expected token header) t (Ok (200, body)) ->
  exists data, decode (if 0 <? content_length header then read (content_length header) else nothing) = Object data /\
    handled data t.
Proof.
  unfold webhook_do_POST. destruct expected as [|c s]; [by intros [_ [=]]|].
  destruct (compare_digest token (c :: s)) as [[]|e]; cbn [of_result negb]; [rewrite bind_ret|by intros [_ [=]]..].
  cbn [negb]. destruct (decode _) as [| |data]; [by intros [_ [=]]..|]. intros Hrun. exists data. split; [done|].
  revert t Hrun. apply (wp_elim_ok _ (200, body)). apply wp_try. eapply wp_mono; [apply handle_ok|].
  intros t [a|e] Hh; [by apply Hh|]. destruct (is_Exception e); [apply wp_ret|]; by intros [=].
Qed.

(** The answers of the endpoint: Telegram delivers again what got a 5xx. *)
Lemma webhook_statuses expected token header :
  wp (webhook_do_POST expected token header) (fun t r => forall s body, r = Ok (s, body) -> In s [200; 400; 403; 500; 503]).
Proof.
  assert (forall s (b : string), In s [200; 400; 403; 500; 503] ->
    wp (Ret (s, b) : io response) (fun _ r => forall s' b', r = Ok (s', b') -> In s' [200; 400; 403; 500; 503])) as Hret.
  { intros s b Hs. apply wp_ret. by intros s' b' [= <- _]. }
  unfold webhook_do_POST. destruct expected as [|c s]; [by apply Hret; cbn; tauto|].
  destruct (compare_digest token (c :: s)) as [[]|e]; cbn [of_result]; [rewrite bind_ret..|by apply wp_raise]; cbn [negb].
  2: by apply Hret; cbn; tauto.
  destruct (decode _) as [| |data]; [by apply Hret; cbn; tauto..|]. apply wp_try.
  eapply (wp_mono _ (fun t r => forall s b, r = Ok (s, b) -> In s [200; 400; 403; 500; 503])).
  - unfold handle_telegram_payload. apply wp_bind. eapply wp_mono; [apply succeeds_spec|].
    intros t1 [[]|e] _; cbn [negb]; [|by apply Hret; cbn; tauto|done].
    destruct (de_json data) as [[x|]|e]; [|by apply Hret; cbn; tauto|destruct (is_Exception e); [by apply Hret; cbn; tauto|by apply wp_raise]].
    apply wp_bind. eapply wp_mono; [apply succeeds_spec|]. by intros t2 [[]|e'] _; [apply Hret; cbn; tauto..|].
  - intros t [a|e] Hr; [done|]. destruct (is_Exception e); [by apply Hret; cbn; tauto|done].
Qed.
End serverless.

(** * Examples

    A toy library: an update is its number, the kinds above nine are unknown. *)
Definition toy_decode (d : Z) : result (option Z) :=
  if d <? 0 then Err (ValueError "bad") else Ok (if d <? 10 then Some d else None).

Lemma queued_is_authentic_witness :
  let r := register_webhook (u "s3cret") receiver_init in
  webhook_route toy_decode r (u "s3cret") (Some 7) Accepted = Ok ((200, "OK"%string), [7]) /\ In 7 [7] /\
  u "s3cret" = _wh_secret r.
Proof.
  intros r. split; [by vm_compute|]. split; [by left|].
  apply (queued_is_authentic toy_decode r (u "s3cret") (Some 7) Accepted (200, "OK"%string) [7] 7); [by vm_compute|by left].
Defined.

Lemma acknowledged_is_queued_witness :
  webhook_route toy_decode (register_webhook (u "k") receiver_init) (u "k") (Some 12) Refused = Ok ((200, "OK"%string), []) /\
  match toy_decode 12 with Ok (Some x) => @nil Z = [x] | Ok None => @nil Z = [] | Err _ => False end.
Proof.
  split; [by vm_compute|].
  apply (acknowledged_is_queued toy_decode (register_webhook (u "k") receiver_init) (u "k") 12 Refused "OK" []). by vm_compute.
Defined.

Lemma not_ready_is_forbidden_witness :
  webhook_route toy_decode receiver_init (u "k") (Some 1) Accepted = Ok ((403, "Forbidden"%string), []) /\
  (403, "Forbidden"%string).1 = 403.
Proof.
  split; [by vm_compute|].
  apply (not_ready_is_forbidden toy_decode (u "k") receiver_init (u "k") (Some 1) Accepted (403, "Forbidden"%string) []);
    [by left|by vm_compute|done].
Defined.

(** A token outside ASCII is no answer but an exception. *)
Example foreign_token_raises r data h : _wh_secret r = u "k" ->
  webhook_route toy_decode r [233] data h = Err (OtherException "TypeError").
Proof. unfold webhook_route. by intros ->. Qed.

Abbreviation toy_post := (webhook_do_POST (U := Z) toy_decode (fun _ => Ret tt) (Ret tt) (Ret tt) (Ret tt) (Ret tt) 1
  (raw := Z) (UCD_ := ascii_ucd) (fun n => n) 0 (fun n => Object n)).

Lemma warm_post : exec (toy_post (u "k") (u "k") (Some (u "5"))) [Obs (VarGet "_app") (Ok (BId "app"))] (Ok (200, "OK"%string)).
Proof. exists (Ok (BId "app")), []. repeat split. Qed.

Lemma endpoints_gated_witness :
  [Obs (VarGet "_app") (Ok (BId "app"))] <> [] /\ u "k" <> [] /\ u "k" = u "k".
Proof.
  split; [done|].
  apply (endpoints_gated toy_decode (fun _ => Ret tt) (Ret tt) (Ret tt) (Ret tt) (Ret tt) 1 (UCD_ := ascii_ucd) (fun n => n) 0
    (fun n => Object n) (u "k") (u "k") (Some (u "5")) [] [] 0 [Obs (VarGet "_app") (Ok (BId "app"))] (Ok (200, "OK"%string)));
    [done|apply warm_post].
Defined.

Lemma acknowledged_is_processed_witness : exists data,
  Object (if 0 <? content_length (UCD_ := ascii_ucd) (Some (u "5")) then 5 else 0) = Object data /\
  handled (U := Z) toy_decode (fun _ => Ret tt) (Ret tt) (Ret tt) (Ret tt) (Ret tt) 1 data [Obs (VarGet "_app") (Ok (BId "app"))].
Proof.
  exact (acknowledged_is_processed toy_decode (fun _ => Ret tt) (Ret tt) (Ret tt) (Ret tt) (Ret tt) 1 (UCD_ := ascii_ucd)
    (fun n => n) 0 (fun n => Object n) (u "k") (u "k") (Some (u "5")) _ "OK"%string warm_post).
Defined.

(** * The cron endpoint

    Expiry logs what its deletions end with and returns: a run whose deletions
    both failed is answered with 200. *)
Theorem failed_expiry_reports_success connect : exists t,
  exec (run_warn_expiry connect 30) t (Ok (200, "warn expiry ran"%string)) /\
  Forall (fun o => match o with Obs (DeleteMany _ _) r => is_err r = true | _ => True end) t /\
  (exists c f, In (Obs (DeleteMany c f) (Err (PyMongoError "down"))) t).
Proof.
  set (now := 63000000000 * 1000000). set (cutoff := now - 30 * day_us). set (down := PyMongoError "down").
  set (o1 := Obs (expire_counts cutoff) (Err down)). set (o2 := Obs (expire_warns cutoff) (Err down)).
  set (late := Obs (DeadlinePassed 60000) (Ok false)).
  exists [Obs (VarGet "_db") (Ok (BId "db")); Obs UtcNow (Ok now); o1; o2; late].
  split; [|split; [by repeat constructor|]].
  - exists (Ok (BId "db")), [Obs UtcNow (Ok now); o1; o2; late]. split; [done|]. split; [done|].
    exists (Ok now), [o1; o2; late]. split; [done|]. split; [done|].
    assert (cutoff_of now 30 = Ok cutoff) as Hc by (vm_compute; reflexivity). cbn [of_result]. rewrite bind_ret, Hc.
    cbn [of_result]. rewrite bind_ret.
    exists [o1], [o2], [o1; o2], [late], (Err down), (Err down).
    split; [exists (Err down), []; repeat split|]. split; [exists (Err down), []; repeat split|].
    split; [repeat constructor|]. split; [done|]. left. exists (Ok false), []. repeat split.
  - exists "warn_counts"%string. eexists. right. right. left. reflexivity.
Qed.
