(* ===== verification/Stats.v ===== *)
(** The federation's statistics: [tcbot/modules/stats/], the cards of
    [tcbot/modules/helper/workflows/stats_flow/] and their keyboards
    (keyboards/stats.py, drills.py). *)

From stdpp Require Import pretty.
From S2P Require Import Prelude Prog Text World I18n Dispatch Cache Locale Roles Replies Auth Records DemoteFlow BanFlow AppealReview Duration PromoteFlow Prefixes Extract Handler UserData Language Identity Drills CheckViews.

Definition _STATS_PAGE_SIZE : Z := 6.
Definition _SEARCH_LIMIT : Z := 30.
Definition SEARCH_KEY : string := "stats_search_active".
Definition RESULTS_KEY : string := "stats_search_results".
Definition MSG_KEY : string := "stats_search_msg_id".
Definition CHAT_KEY : string := "stats_search_chat_id".
Definition QUERY_KEY : string := "stats_last_query".

(** * The member cache *)
Definition total_users : io Z := db_call (EstimatedDocumentCount "member_cache").

Definition _ALLOWED_USER_SORTS : list string := ["user_id"; "username"; "first_name"; "last_updated"].

Definition all_users_page (skip limit : Z) (sort_by : string) : io (list doc) :=
  let sort_by := if one_of sort_by _ALLOWED_USER_SORTS then sort_by else "first_name"%string in
  let sort_dir := if String.eqb sort_by "last_updated" then -1 else 1 in
  db_call (Find "member_cache" [] [(sort_by, sort_dir)] (Z.max 0 skip) (Some (Z.max 1 limit))).

(** The name, or the id; and the username, when there is one. *)
Definition mention_of (uid : Z) (data : bson) : result (string * option string) :=
  match first_of uid data with
  | Ok name => Ok (name, match data with BArr (_ :: username :: _) => bstr username | _ => None end)
  | Err e => Err e
  end.

Fixpoint mentions_of (triples : list (Z * bson)) : io (gmap Z (string * option string)) :=
  match triples with
  | [] => Ret ∅
  | (uid, data) :: triples' =>
      m <- of_result (mention_of uid data) ;;
      rest <- mentions_of triples' ;;
      Ret (<[uid := m]> rest)
  end.

Definition get_mention_data_batch (user_ids : list Z) : io (gmap Z (string * option string)) :=
  triples <- _mention_triples user_ids ;;
  mentions_of (map_to_list triples).

(** [d[k]] *)
Definition must_have {V} (m : gmap Z V) (k : Z) : io V :=
  match m !! k with Some v => Ret v | None => Raise (KeyError (pretty k)) end.

(** * Keyboards *)
Section keyboards.
Abbreviation row := text.

Definition data_button (key : string) (locale : ustr) (data : string) : text := button (TKey key locale []) (u data).

Definition stats_back_row (locale : ustr) : row := kb_row [data_button "button.back" locale "stats_main"].

Definition stats_main_kb (show_users : bool) (locale : ustr) : text :=
  keyboard
    ([kb_row [data_button "stats.button.roster" locale "stats_admins"; data_button "stats.button.bans" locale "stats_bans:0"];
      kb_row [data_button "stats.button.chats" locale "stats_chats:0"]] ++
     if show_users then [kb_row [data_button "stats.button.users" locale "stats_users:0"]] else []).

Definition stats_back_kb (locale : ustr) : text := keyboard [stats_back_row locale].

(** The data of the [i]-th numbered button; without ids it ends there. *)
Definition item_data (prefix : ustr) (i : Z) (id : option string) : ustr :=
  with_int prefix i ++ match id with Some id => colon ++ u id | None => [] end.

Definition numbered (prefix : ustr) (n_items : nat) (item_ids : list string) : list (string * ustr) :=
  map (fun i => (pretty (Z.of_nat i + 1), item_data prefix (Z.of_nat i) (item_ids !! i))) (seq 0 n_items).

Definition stats_list_kb (page total_pages : Z) (n_items : nat) (cb_prefix item_cb_prefix : string)
    (extra_row : option row) (item_ids : list string) (locale : ustr) : text :=
  paged_drill_kb (numbered (with_int (u item_cb_prefix) page) n_items item_ids)
    page total_pages (u cb_prefix) (u "stats_main") (match extra_row with Some r => [r] | None => [] end) 3 locale.

Definition stats_search_panel_kb (locale : ustr) : text :=
  keyboard [kb_row [data_button "button.cancel" locale "stats_search_cancel"]].

Definition stats_search_row (locale : ustr) : row := kb_row [data_button "button.search" locale "stats_bans_search"].

Definition stats_search_results_kb (n : nat) (locale : ustr) (item_ids : list string) : text :=
  keyboard
    (map (fun ch => kb_row (map (fun '(label, cb) => button (TStr label) cb) ch))
       (chunks 3 (numbered (u "stats_search_item") n item_ids)) ++
     [kb_row [data_button "button.new_search" locale "stats_bans_search";
              data_button "button.cancel" locale "stats_search_cancel"]]).
End keyboards.

Section stats.
Context {CAT : Catalog} (cfg : config) (bot_id : Z).

(** * overview.py *)
Definition owner_known (owner_id : bson) : option Z :=
  match owner_id with BInt z => if truthy_Z z then Some z else None | _ => None end.

Definition owner_line (owner_id : bson) (locale : ustr) : io text :=
  match owner_known owner_id with
  | Some uid =>
      m <- try_except (get_user_mention_data uid) (fun _ => Ret (pretty uid, None)) ;;
      Ret (TUserRef uid m.1 m.2)
  | None => Ret (TKey "stats.main.owner_unset" locale [])
  end.

Record overview := Overview {
  o_owner : result bson;
  o_admins : result Z;
  o_developers : result Z;
  o_testers : result Z;
  o_bans : result Z;
  o_groups : result Z;
  o_users : result Z;
  (* the viewer's two lookups, when there is a viewer *)
  o_viewer : option (result bool * result bson)
}.

Definition read_overview (viewer_id : option Z) : io overview :=
  let! (staffed, rest) :=
    gather2 (gather4 get_owner_id admin_count (role_count "developer") (role_count "tester"))
            (gather2 (gather3 active_ban_count active_group_count total_users)
                     (match viewer_id with
                      | Some v => vs <- gather2 (is_owner v) (get_effective_role v) ;; Ret (Some vs)
                      | None => Ret None
                      end)) in
  let! (owner, admins, developers, testers) := of_result staffed in
  let! (counted, viewer) := of_result rest in
  let! (bans, groups, users) := of_result counted in
  viewer <- of_result viewer ;;
  Ret (Overview owner admins developers testers bans groups users viewer).

Definition degraded (o : overview) : bool :=
  is_err (o_owner o) || is_err (o_admins o) || is_err (o_developers o) || is_err (o_testers o) ||
  is_err (o_bans o) || is_err (o_groups o) || is_err (o_users o).

(** Cancelled viewer lookups propagate, failed ones hide the button. *)
Definition show_users (viewer : option (result bool * result bson)) : io bool :=
  match viewer with
  | None => Ret false
  | Some (owner_check, role_check) =>
      throw_if_cancelled [void owner_check; void role_check] ;;;
      Ret (match owner_check with Ok true => true | _ => false end ||
           match role_check with Ok role => role_is "founder" role | Err _ => false end)
  end.

Definition Stats_main (viewer_id : option Z) (locale : ustr) : io card :=
  o <- read_overview viewer_id ;;
  show <- show_users (o_viewer o) ;;
  let owner_id := match o_owner o with Ok v => v | Err _ => BNull end in
  owner <- owner_line owner_id locale ;;
  let known := match owner_known owner_id with Some _ => 1 | None => 0 end in
  let staff_total := known + num (o_admins o) + num (o_developers o) + num (o_testers o) in
  let key k args := TKey ("stats.main." ++ k)%string locale args in
  let txt :=
    [key "title"%string [("community"%string, bold_of (TStr (cfg_community_name cfg)))]; blank;
     key "founder"%string [("owner"%string, owner)];
     key "staff"%string [("n"%string, bold_of (TInt staff_total)); ("admins"%string, TInt (num (o_admins o)));
                         ("devs"%string, TInt (num (o_developers o))); ("testers"%string, TInt (num (o_testers o)))];
     key "users"%string [("n"%string, bold_of (TInt (num (o_users o))))];
     key "bans"%string [("n"%string, bold_of (TInt (num (o_bans o))))];
     key "chats"%string [("n"%string, bold_of (TInt (num (o_groups o))))]] in
  Ret (lines (txt ++ if degraded o then [blank; key "degraded"%string []] else []),
       Some (stats_main_kb show locale)).

Definition member_id (d : doc) : Z := dget_int "user_id" d 0.

(** The members of a role, or the word for none, under a heading that counts
    them. *)
Fixpoint member_lines (mentions : gmap Z (string * option string)) (docs : list doc) (locale : ustr) : io (list text) :=
  match docs with
  | [] => Ret []
  | d :: docs' =>
      m <- must_have mentions (member_id d) ;;
      rest <- member_lines mentions docs' locale ;;
      Ret (TKey "stats.roster.member" locale [("user"%string, TUserRef (member_id d) m.1 m.2)] :: rest)
  end.

Definition _section (mentions : gmap Z (string * option string)) (label : string) (docs : list doc) (locale : ustr)
    : io (list text) :=
  let heading := TKey "stats.roster.section" locale
    [("label"%string, bold_of (TCat [TStr label; TStr " ("; TInt (Z.of_nat (length docs)); TStr ")"]))] in
  body <- match docs with
          | [] => Ret [TKey "stats.roster.empty" locale []]
          | _ => member_lines mentions docs locale
          end ;;
  Ret (heading :: body ++ [blank]).

Definition docs_or_none (r : result (list doc)) : list doc := match r with Ok ds => ds | Err _ => [] end.

Definition staff_roster (locale : ustr) : io card :=
  let! (owner_r, admins_r, developers_r, testers_r) :=
    gather4 get_owner_id all_admins (all_by_role "developer") (all_by_role "tester") in
  let owner := owner_known (match owner_r with Ok v => v | Err _ => BNull end) in
  let admins := docs_or_none admins_r in
  let developers := docs_or_none developers_r in
  let testers := docs_or_none testers_r in
  let owner_ids := match owner with Some uid => [uid] | None => [] end in
  mentions <- get_mention_data_batch (owner_ids ++ map member_id (admins ++ developers ++ testers)) ;;
  founder <- match owner with
             | Some uid =>
                 m <- must_have mentions uid ;;
                 Ret [TKey "stats.roster.founder" locale [];
                      TKey "stats.roster.member" locale [("user"%string, TUserRef uid m.1 m.2)]; blank]
             | None => Ret []
             end ;;
  a <- _section mentions "Admins" admins locale ;;
  d <- _section mentions "Developers" developers locale ;;
  ts <- _section mentions "Testers" testers locale ;;
  let title := TKey "stats.roster.title" locale [("community"%string, TBuild "esc" [TStr (cfg_community_name cfg)])] in
  Ret (TBuild "rstrip" [lines (title :: blank :: founder ++ a ++ d ++ ts)], Some (stats_back_kb locale)).

(** * Pages and items *)
Definition pages_for (total : Z) : Z := Z.max 1 ((total + _STATS_PAGE_SIZE - 1) / _STATS_PAGE_SIZE).

(** [pretty] is [str(n)]. *)
Definition card_back (txt : text) (back : string) (page : Z) (locale : ustr) : card :=
  (txt, back_to_module_kb (with_int (u back) page) locale).

Definition db_fail (locale : ustr) : card := (TKey "stats.error.db_fail" locale [], Some (stats_back_kb locale)).

(** A page read behind a count, clamped into it; [None] when either read
    failed. *)
Definition read_page (count : io Z) (rows : Z -> Z -> io (list doc)) (page : Z) : io (option (Z * Z * Z * list doc)) :=
  try_except
    (total <- count ;;
     let total_pages := pages_for total in
     let page := clamp page total_pages in
     chunk <- rows (page * _STATS_PAGE_SIZE) _STATS_PAGE_SIZE ;;
     Ret (Some (total, total_pages, page, chunk)))
    (fun _ => Ret None).

Definition first_name_or_id (d : doc) (uid : Z) : string :=
  match str_field "first_name" d with Some s => s | None => pretty uid end.

Definition list_header (key : string) (n page total_pages : Z) (locale : ustr) : text :=
  TKey key locale [("n"%string, TInt n); ("page"%string, TInt (page + 1)); ("pages"%string, TInt total_pages)].

(** ** people.py *)
Definition users_list (page : Z) (locale : ustr) : io card :=
  r <- read_page total_users (fun skip limit => all_users_page skip limit "first_name") page ;;
  match r with
  | None => Ret (db_fail locale)
  | Some (total, total_pages, page, chunk) =>
      if total =? 0 then Ret (TKey "stats.users.empty" locale [], Some (stats_back_kb locale))
      else
        let item '(i, d) := TKey "stats.users.item" locale
          [("i"%string, TInt i); ("user"%string, TUserRef (member_id d) (first_name_or_id d (member_id d)) (dget "username" d ≫= bstr))] in
        Ret (lines (list_header "stats.users.header" total page total_pages locale :: blank ::
                    map item (enumerate (page * _STATS_PAGE_SIZE + 1) chunk)),
             Some (stats_list_kb page total_pages (length chunk) "stats_users" "stats_user_item" None
                     (map (fun d => pretty (member_id d)) chunk) locale))
  end.

(** The record at an index that still carries the id of the tapped button. *)
Definition still_there (stable : option string) (id : string) : bool :=
  match stable with Some s => String.eqb id s | None => true end.

Definition item_at (idx : Z) (chunk : list doc) (id_of : doc -> string) (stable : option string) : option doc :=
  if (idx <? 0) || (Z.of_nat (length chunk) <=? idx) then None
  else d ← chunk !! Z.to_nat idx; if still_there stable (id_of d) then Some d else None.

Definition user_detail (page idx : Z) (stable : option string) (locale : ustr) : io card :=
  chunk <- all_users_page (page * _STATS_PAGE_SIZE) _STATS_PAGE_SIZE "first_name" ;;
  match item_at idx chunk (fun d => pretty (member_id d)) stable with
  | None => Ret (card_back (TKey "stats.error.user_not_found" locale []) "stats_users" page locale)
  | Some d =>
      let uid := member_id d in
      let fname := first_name_or_id d uid in
      let last_name := match str_field "last_name" d with Some s => s | None => "-"%string end in
      stale <- identity_needs_refresh (Some d) ;;
      (if stale : bool then launch_identity_refresh uid else Ret tt) ;;;
      let key k arg v := TKey ("stats.user_detail." ++ k)%string locale [(arg%string, v)] in
      let username_line := match str_field "username" d with
                           | Some un => key "username"%string "name"%string (TStr un)
                           | None => TKey "stats.user_detail.username_none" locale []
                           end in
      Ret (card_back
             (lines [TKey "stats.user_detail.title" locale []; blank;
                     key "name"%string "user"%string (TUserRef uid fname (dget "username" d ≫= bstr));
                     key "id"%string "id"%string (code_of (TInt uid)); username_line;
                     key "last_name"%string "name"%string (TStr last_name); blank;
                     key "first_seen"%string "date"%string (date_or_unknown (dget "commit_date" d) locale);
                     key "last_seen"%string "date"%string (date_or_unknown (dget "last_updated" d) locale); blank;
                     key "check_hint"%string "command"%string (code_of (TCat [TStr "/check "; TInt uid]))])
             "stats_users" page locale)
  end.

(** ** chats.py *)
Definition group_id (d : doc) : Z := dget_int "chat_id" d 0.
Definition group_title (d : doc) : string := dget_str "title" d "Unknown".

Definition chats_list (page : Z) (locale : ustr) : io card :=
  groups <- try_except (gs <- active_groups ;; Ret (Some gs)) (fun _ => Ret None) ;;
  match groups with
  | None => Ret (db_fail locale)
  | Some [] => Ret (TKey "stats.chats.empty" locale [], Some (stats_back_kb locale))
  | Some groups =>
      let '(chunk, total_pages, page) := paginate groups page _STATS_PAGE_SIZE in
      let item '(i, d) := TKey "stats.chats.item" locale
        [("i"%string, TInt i); ("title"%string, TStr (group_title d)); ("id"%string, code_of (TInt (group_id d)))] in
      Ret (lines (list_header "stats.chats.header" (Z.of_nat (length groups)) page total_pages locale :: blank ::
                  map item (enumerate (page * _STATS_PAGE_SIZE + 1) chunk)),
           Some (stats_list_kb page total_pages (length chunk) "stats_chats" "stats_chat_item" None
                   (map (fun d => pretty (group_id d)) chunk) locale))
  end.

(** The task verifies the title live; it is started and kept. *)
Definition launch_group_title_refresh (chat_id : Z) : io unit := call (VarPut "stats._refresh_tasks" (BInt chat_id)).

Definition chat_detail (page idx : Z) (stable : option string) (locale : ustr) : io card :=
  groups <- active_groups ;;
  let '(chunk, _, page) := paginate groups page _STATS_PAGE_SIZE in
  match item_at idx chunk (fun d => pretty (group_id d)) stable with
  | None => Ret (card_back (TKey "stats.error.group_not_found" locale []) "stats_chats" page locale)
  | Some d =>
      launch_group_title_refresh (group_id d) ;;;
      let added_by := dget_int "added_by" d 0 in
      adder <- get_user_mention_data added_by ;;
      let key k arg v := TKey ("stats.chat_detail." ++ k)%string locale [(arg%string, v)] in
      Ret (card_back
             (lines [TKey "stats.chat_detail.title" locale []; blank;
                     key "name"%string "name"%string (bold_of (TStr (group_title d)));
                     key "chat_id"%string "id"%string (code_of (TInt (group_id d))); blank;
                     key "connected_by"%string "user"%string (TUserRef added_by adder.1 adder.2);
                     key "date"%string "date"%string (date_or_unknown (dget "added_date" d) locale)])
             "stats_chats" page locale)
  end.

(** ** bans.py *)
Definition banned_id (d : doc) : Z := dget_int "banned_user_id" d 0.
Definition ban_name (names : gmap Z string) (d : doc) : string :=
  match names !! banned_id d with Some n => n | None => pretty (banned_id d) end.

Definition ban_entry (key : string) (names : gmap Z string) (locale : ustr) (i : Z) (d : doc) : text :=
  TKey key locale [("i"%string, TInt i); ("name"%string, TStr (ban_name names d)); ("id"%string, code_of (TInt (banned_id d)))].

Definition Stats_bans_list (page : Z) (locale : ustr) : io card :=
  r <- read_page active_ban_count active_bans_page page ;;
  match r with
  | None => Ret (db_fail locale)
  | Some (total, total_pages, page, chunk) =>
      if total =? 0 then Ret (TKey "stats.bans_view.empty" locale [], Some (stats_back_kb locale))
      else
        names <- match chunk with [] => Ret ∅ | _ => get_first_names_batch (map banned_id chunk) end ;;
        Ret (lines (list_header "stats.bans_view.header" total page total_pages locale :: blank ::
                    map (fun '(i, d) => ban_entry "stats.bans_view.item" names locale i d)
                      (enumerate (page * _STATS_PAGE_SIZE + 1) chunk)),
             Some (stats_list_kb page total_pages (length chunk) "stats_bans" "stats_ban_item"
                     (Some (stats_search_row locale)) (map (fun d => dget_str "ban_id" d "") chunk) locale))
  end.

Definition Stats_ban_detail (page idx : Z) (stable : option string) (locale : ustr) : io card :=
  let not_found := card_back (TKey "stats.error.ban_not_found" locale []) "stats_bans" page locale in
  match stable with
  | None => Ret not_found
  | Some id =>
      ban <- get_ban id ;;
      match ban with
      | Some ((_ :: _) as ban) =>
          if negb (py_truthy (dget "is_active" ban)) then Ret not_found
          else
            let! (txt, proof_link) := build_ban_detail cfg ban None locale in
            Ret (txt, Some (detail_kb (with_int (u "stats_bans") page) proof_link None locale))
      | _ => Ret not_found
      end
  end.

(** ** search.py: the panel

    The panel's card and the last results live in the conversation's data. *)
Definition open_search (accessible : bool) (q : message) (locale : ustr) : io card :=
  (if accessible then
     put SEARCH_KEY (BBool true) ;;;
     put MSG_KEY (BInt (message_id q)) ;;;
     put CHAT_KEY (BInt (msg_chat_id q))
   else Ret tt) ;;;
  Ret (TKey "stats.search.title" locale [], Some (stats_search_panel_kb locale)).

Definition clear_search : io unit := pops [SEARCH_KEY; RESULTS_KEY; MSG_KEY; CHAT_KEY; QUERY_KEY].

(** [int(q)] of digits that are no decimals raises. *)
Definition search_run (query : string) : io (list doc) :=
  let q := strip_ws (u query) in
  if isdigit q then
    uid <- match py_int q with Some uid => Ret uid | None => Raise (ValueError "invalid literal for int()") end ;;
    ban <- get_active_ban uid ;;
    Ret match ban with Some ((_ :: _) as ban) => [ban] | _ => [] end
  else
    hits <- search_by_name (s_of q) _SEARCH_LIMIT ;;
    match hits with
    | [] => Ret []
    | _ => active_bans_for_users (List.filter truthy_Z (map member_id hits))
    end.

Definition search_results (query : string) (results : list doc) (locale : ustr) : io card :=
  match results with
  | [] => Ret (TKey "stats.search.empty" locale [("query"%string, TStr query)], Some (stats_search_results_kb 0 locale []))
  | _ =>
      names <- get_first_names_batch (map banned_id results) ;;
      let header := TKey "stats.search.header" locale
        [("query"%string, TStr query); ("n"%string, TInt (Z.of_nat (length results)))] in
      Ret (lines (header :: blank :: map (fun '(i, d) => ban_entry "stats.search.item" names locale i d) (enumerate 1 results)),
           Some (stats_search_results_kb (length results) locale (map (fun d => dget_str "ban_id" d "") results)))
  end.

Definition search_detail (results : list doc) (idx : Z) (locale : ustr) (stable : option string) : io card :=
  match item_at idx results (fun d => dget_str "ban_id" d "") stable with
  | None => Ret (TKey "stats.error.result_unavailable" locale [], back_to_module_kb (u "stats_search_back") DEFAULT_LOCALE)
  | Some ban =>
      let! (txt, proof_link) := build_ban_detail cfg ban None locale in
      Ret (txt, Some (detail_kb (u "stats_search_back") proof_link None locale))
  end.

(** The stored results, as the documents they are. *)
Definition stored_results (v : option ud_value) : list doc :=
  match v with
  | Some (UdBson (BArr items)) => map (fun x => match x with BDoc d => d | _ => [] end) items
  | _ => []
  end.

(** * The handlers *)

(** [q.answer(text, show_alert=True)], whatever comes of it. *)
Definition deny (t : text) : io bool := alert t ;;; Ret false.

Definition _require_founder_list (user_id : option Z) (upd : update) : io bool :=
  locale <- locale_for_update upd ;;
  match user_id with
  | None => deny (TKey "common.perm.founder_only" locale [])
  | Some uid =>
      r <- try_except
             (let! (owner_r, role_r) := gather2 (is_owner uid) (get_effective_role uid) in
              owner <- of_result owner_r ;;
              role <- of_result role_r ;;
              Ret (Some (owner, role)))
             (fun _ => Ret None) ;;
      match r with
      | None => deny (TKey "stats.error.access_retry" locale [])
      | Some (owner, role) =>
          if negb owner && negb (role_is "founder" role) then deny (TKey "common.perm.founder_only" locale [])
          else Ret true
      end
  end.

(** [int(data.split(":")[1])] *)
Definition page_arg (data : ustr) : option Z :=
  match fields data with _ :: p :: _ => py_int p | _ => None end.

(** [prefix:page:idx] and [prefix:page:idx:stable] *)
Definition _parse_item_callback (data : ustr) : option (Z * Z * option string) :=
  match fields data with
  | [_; p; i; stable] => p ← py_int p; i ← py_int i; Some (p, i, Some (s_of stable))
  | [_; p; i] => p ← py_int p; i ← py_int i; Some (p, i, None)
  | _ => None
  end.

(** [prefix:idx] and [prefix:idx:stable:...] *)
Definition search_arg (data : ustr) : option (Z * option string) :=
  match fields data with
  | _ :: i :: rest => i ← py_int i; Some (i, s_of <$> head rest)
  | _ => None
  end.

Definition with_data {A} (q : option callback) (parse : ustr -> option A) (k : message -> A -> io unit) : io unit :=
  match q with
  | None => Ret tt
  | Some (Callback m data) =>
      match parse (u (match data with Some d => d | None => "" end)) with
      | None => answer
      | Some a => k m a
      end
  end.

Definition render_in (upd : update) (m : message) (view : ustr -> io card) : io unit :=
  locale <- locale_for_update upd ;;
  ack_and_render m (view locale).

Definition cmd_stats_body (c : command) : io unit :=
  match effective_message (c_upd c) with
  | None => Ret tt
  | Some msg =>
      locale <- locale_for_update (c_upd c) ;;
      let! (txt, kb) := Stats_main (effective_user (c_upd c)) locale in
      safe_reply_kb msg txt kb
  end.

Definition on_stats_main_body (upd : update) (q : option callback) : io unit :=
  match q with None => Ret tt | Some q => render_in upd (cb_message q) (Stats_main (effective_user upd)) end.

Definition on_stats_admins_body (upd : update) (q : option callback) : io unit :=
  match q with None => Ret tt | Some q => render_in upd (cb_message q) staff_roster end.

(** Both views of the user list stand behind the gate. *)
Definition if_founder (upd : update) (p : io unit) : io unit :=
  allowed <- _require_founder_list (effective_user upd) upd ;;
  if allowed : bool then p else Ret tt.

Definition on_stats_users_body (upd : update) (q : option callback) : io unit :=
  with_data q page_arg (fun m page => if_founder upd (render_in upd m (users_list page))).

Definition on_stats_user_item_body (upd : update) (q : option callback) : io unit :=
  with_data q _parse_item_callback (fun m '(page, idx, stable) =>
    if_founder upd (render_in upd m (user_detail page idx stable))).

Definition on_stats_chats_body (upd : update) (q : option callback) : io unit :=
  with_data q page_arg (fun m page => render_in upd m (chats_list page)).

Definition on_stats_chat_item_body (upd : update) (q : option callback) : io unit :=
  with_data q _parse_item_callback (fun m '(page, idx, stable) => render_in upd m (chat_detail page idx stable)).

Definition on_stats_bans_body (upd : update) (q : option callback) : io unit :=
  with_data q page_arg (fun m page => clear_search ;;; render_in upd m (Stats_bans_list page)).

Definition on_stats_ban_item_body (upd : update) (q : option callback) : io unit :=
  with_data q _parse_item_callback (fun m '(page, idx, stable) => render_in upd m (Stats_ban_detail page idx stable)).

(** The prompt replaces the card of the button. *)
Definition show_prompt (accessible : bool) (upd : update) (m : message) : io unit :=
  locale <- locale_for_update upd ;;
  let! (txt, kb) := open_search accessible m locale in
  answer_and_edit m txt kb.

Definition on_stats_bans_search_body (accessible : bool) (upd : update) (q : option callback) : io unit :=
  match q with None => Ret tt | Some q => show_prompt accessible upd (cb_message q) end.

Definition on_bans_search_input_body (upd : update) : io unit :=
  active <- call (UdGet SEARCH_KEY) ;;
  if negb (ud_truthy active) then Ret tt
  else
    match effective_message upd with
    | None => Ret tt
    | Some msg =>
        call (UdPop SEARCH_KEY) ;;;
        panel <- call (UdGet CHAT_KEY) ;;
        if match panel with Some (UdBson (BInt chat)) => negb (chat =? msg_chat_id msg) | _ => false end
        then put SEARCH_KEY (BBool true)
        else
          let query := s_of (strip_ws (u (match msg_text msg with Some s => s | None => "" end))) in
          let! (results_r, _) := gather2 (search_run query) (call (DeleteMessage (msg_chat_id msg) (message_id msg))) in
          let results := match results_r with Ok ds => ds | Err _ => [] end in
          put RESULTS_KEY (BArr (map BDoc results)) ;;;
          put QUERY_KEY (BStr query) ;;;
          chat_id <- call (UdGet CHAT_KEY) ;;
          msg_id <- call (UdGet MSG_KEY) ;;
          locale <- locale_for_update upd ;;
          let! (txt, kb) := search_results query results locale in
          match chat_id, msg_id with
          | Some (UdBson (BInt chat_id)), Some (UdBson (BInt msg_id)) => safe_edit_message chat_id msg_id txt kb true
          | _, _ => safe_reply_kb msg txt kb
          end
    end.

Definition on_stats_search_item_body (upd : update) (q : option callback) : io unit :=
  with_data q search_arg (fun m '(idx, stable) =>
    results <- call (UdGet RESULTS_KEY) ;;
    render_in upd m (fun locale => search_detail (stored_results results) idx locale stable)).

Definition on_stats_search_back_body (accessible : bool) (upd : update) (q : option callback) : io unit :=
  match q with
  | None => Ret tt
  | Some q =>
      results <- call (UdGet RESULTS_KEY) ;;
      match stored_results results with
      | [] => show_prompt accessible upd (cb_message q)
      | results =>
          previous <- call (UdGet QUERY_KEY) ;;
          render_in upd (cb_message q) (search_results (ud_str previous) results)
      end
  end.

Definition on_stats_search_cancel_body (upd : update) (q : option callback) : io unit :=
  match q with
  | None => Ret tt
  | Some q => clear_search ;;; render_in upd (cb_message q) (Stats_bans_list 0)
  end.

Definition cmd_stats (c : command) := ratelimiter_wrapper "cmd_stats" (cmd_stats_body c) (c_upd c).
Definition on_stats_main upd q := ratelimiter_wrapper "on_stats_main" (on_stats_main_body upd q) upd.
Definition on_stats_admins upd q := ratelimiter_wrapper "on_stats_admins" (on_stats_admins_body upd q) upd.
Definition on_stats_users upd q := ratelimiter_wrapper "on_stats_users" (on_stats_users_body upd q) upd.
Definition on_stats_user_item upd q := ratelimiter_wrapper "on_stats_user_item" (on_stats_user_item_body upd q) upd.
Definition on_stats_chats upd q := ratelimiter_wrapper "on_stats_chats" (on_stats_chats_body upd q) upd.
Definition on_stats_chat_item upd q := ratelimiter_wrapper "on_stats_chat_item" (on_stats_chat_item_body upd q) upd.
Definition on_stats_bans upd q := ratelimiter_wrapper "on_stats_bans" (on_stats_bans_body upd q) upd.
Definition on_stats_ban_item upd q := ratelimiter_wrapper "on_stats_ban_item" (on_stats_ban_item_body upd q) upd.
Definition on_stats_bans_search accessible upd q :=
  ratelimiter_wrapper "on_stats_bans_search" (on_stats_bans_search_body accessible upd q) upd.
Definition on_bans_search_input upd := ratelimiter_wrapper "on_bans_search_input" (on_bans_search_input_body upd) upd.
Definition on_stats_search_item upd q := ratelimiter_wrapper "on_stats_search_item" (on_stats_search_item_body upd q) upd.
Definition on_stats_search_back accessible upd q :=
  ratelimiter_wrapper "on_stats_search_back" (on_stats_search_back_body accessible upd q) upd.
Definition on_stats_search_cancel upd q :=
  ratelimiter_wrapper "on_stats_search_cancel" (on_stats_search_cancel_body upd q) upd.
End stats.

(** * Who sees the list of users *)
Definition obs_roster (o : obs eff) : bool :=
  match o with
  | Obs ev _ =>
      match ev with
      | Find c f _ _ _ => String.eqb c "member_cache" && match f with [] => true | _ => false end
      | EstimatedDocumentCount c => String.eqb c "member_cache"
      | _ => false
      end
  end.

(** The run answered that this user is the owner or the founder. *)
Definition viewer_granted (uid : Z) (t : trace eff) : Prop :=
  during (is_owner uid) true t \/ exists role, during (get_effective_role uid) role t /\ role_is "founder" role = true.

Section gate.
Context {CAT : Catalog} (cfg : config).

Lemma cache_roster c k o : cache_obs c k o = true -> obs_roster o = false.
Proof. destruct o as [X ev r]; by destruct ev. Qed.

Lemma locale_roster upd : never obs_roster (locale_for_update upd).
Proof. apply locale_for_update_never. intros [X ev r]; by destruct ev. Qed.

Lemma deny_roster txt : never obs_roster (deny txt).
Proof. unfold deny, alert. never_auto. Qed.

Lemma deny_no txt t : ~ exec (deny txt) t (Ok true).
Proof.
  intros H%ran_exec. apply ran_bind in H as ([] & _ & H). by apply ran_ret in H.
Qed.

Lemma gate_roster uid upd : never obs_roster (_require_founder_list uid upd).
Proof.
  unfold _require_founder_list. apply never_bind; [apply locale_roster|intros locale].
  destruct uid as [uid|]; [|apply deny_roster]. apply never_bind.
  - apply never_try; [|intros e; apply never_ret]. apply never_bind.
    2: { intros [[o|e] [r|e']]; cbn [of_result]; rewrite ?bind_ret; cbn [of_result]; rewrite ?bind_ret; first [apply never_ret|apply never_raise]. }
    apply never_gather2.
    + unfold is_owner. apply never_bind; [apply get_owner_id_reads; [apply cache_roster|done]|intros a; apply never_ret].
    + apply get_effective_role_reads; [apply cache_roster|done].
  - intros [[o r]|]; [|apply deny_roster]. destruct (_ && _); [apply deny_roster|never_auto].
Qed.

Lemma gate_grants user upd t : exec (_require_founder_list user upd) t (Ok true) ->
  exists uid, user = Some uid /\ viewer_granted uid t.
Proof.
  intros H%ran_exec. apply ran_bind in H as (locale & _ & H). destruct user as [uid|].
  2: { destruct H as (t' & _ & H). by apply deny_no in H. }
  exists uid. split; [done|]. apply ran_bind in H as (r & Hr & H). destruct r as [[owner role]|].
  2: { destruct H as (t' & _ & H). by apply deny_no in H. }
  destruct (negb owner && negb (role_is "founder" role)) eqn:Hno.
  { destruct H as (t' & _ & H). by apply deny_no in H. }
  apply ran_try in Hr as [Hr|(e & _ & Hr)]; [|by apply ran_ret in Hr].
  apply ran_bind in Hr as ([ro rr] & [Ho Hro]%ran_gather2 & Hr).
  apply ran_bind in Hr as (o' & ->%ran_of_result & Hr). apply ran_bind in Hr as (r' & ->%ran_of_result & Hr).
  apply ran_ret in Hr as [= <- <-]. destruct owner; [by left|]. right. exists role. split; [done|].
  cbn in Hno. by destruct (role_is "founder" role).
Qed.

Definition behind_gate (user : option Z) (t : trace eff) : Prop :=
  existsb obs_roster t = true ->
  exists t1 t2 uid, t = t1 ++ t2 /\ existsb obs_roster t1 = false /\ user = Some uid /\ viewer_granted uid t1.

Lemma if_founder_gated upd p : wp (if_founder upd p) (fun t _ => behind_gate (effective_user upd) t).
Proof.
  unfold if_founder. apply wp_bind. eapply wp_mono; [apply (wp_conj _ _ _ (gate_roster _ _) (wp_exec _))|].
  intros t [[]|e] [Hq%existsb_false_Forall He]; unfold behind_gate.
  - eapply wp_mono; [apply wp_exec|]. intros t' r _ _. apply gate_grants in He as (uid & Hu & Hg). by exists t, t', uid.
  - apply wp_ret. rewrite app_nil_r. congruence.
  - congruence.
Qed.

Lemma with_data_wp {A} q (parse : ustr -> option A) k (Q : trace eff -> Prop) :
  Q [] -> (forall r, Q [Obs (AnswerCallback None) r]) -> (forall m a, wp (k m a) (fun t _ => Q t)) ->
  wp (with_data q parse k) (fun t _ => Q t).
Proof.
  intros Hn Ha Hk. destruct q as [[m data]|]; [|by apply wp_ret]. cbn. destruct (parse _); [apply Hk|].
  apply wp_call. intros x _. apply Ha.
Qed.

(** The list of users is the Founder's: neither its pages nor the card of
    one of its users read the member cache, in any run, before a lookup has
    answered that the tapper is the owner or the founder. *)
Theorem users_behind_gate upd q t r :
  exec (on_stats_users_body upd q) t r \/ exec (on_stats_user_item_body upd q) t r ->
  behind_gate (effective_user upd) t.
Proof.
  assert (behind_gate (effective_user upd) []) as H0 by done.
  assert (forall r, behind_gate (effective_user upd) [Obs (AnswerCallback None) r]) as H1 by done.
  intros [H|H]; revert t r H; refine (wp_elim' _ (fun t _ => behind_gate (effective_user upd) t) _); apply with_data_wp; try done.
  - intros m page. apply if_founder_gated.
  - intros m [[page idx] stable]. apply if_founder_gated.
Qed.
End gate.

(** * The card of a tapped button *)

(** A line of a card with this argument. *)
Definition shows_line (key name : string) (v : text -> bool) : text -> bool :=
  mentions (fun k args => String.eqb k key &&
                          match args with (n, arg) :: _ => String.eqb n name && v arg | [] => false end).

Definition is_code_int (p : Z -> bool) (t : text) : bool :=
  match t with TBuild "code" [TInt n] => p n | _ => false end.
Definition is_bold_int (n : Z) (t : text) : bool :=
  match t with TBuild "bold" [TInt m] => m =? n | _ => false end.

Section cards.
Context {CAT : Catalog} (cfg : config).

Lemma item_at_stable idx chunk id_of s d : item_at idx chunk id_of (Some s) = Some d -> id_of d = s /\ d ∈ chunk.
Proof.
  unfold item_at. destruct (_ || _); [done|]. destruct (chunk !! Z.to_nat idx) as [d'|] eqn:Hd; [|done]. cbn.
  destruct (String.eqb_spec (id_of d') s) as [Hs|]; [|done]. intros [= <-]. split; [done|]. by eapply list_elem_of_lookup_2.
Qed.

(** A detail card is about what its button stood for.  Whatever has changed
    since the list was shown, the card of a user or a chat shows the id in the
    button's data, the card of a search result is about a result with its ban
    id, and the card of a ban about an active ban the database has under it. *)
Theorem detail_is_tapped page idx stable results locale t txt kb :
  (exec (user_detail page idx (Some stable) locale) t (Ok (txt, kb)) -> has_key "stats.user_detail.title" txt = true ->
   exists uid, pretty uid = stable /\ shows_line "stats.user_detail.id" "id" (is_code_int (Z.eqb uid)) txt = true) /\
  (exec (chat_detail page idx (Some stable) locale) t (Ok (txt, kb)) -> has_key "stats.chat_detail.title" txt = true ->
   exists cid, pretty cid = stable /\ shows_line "stats.chat_detail.chat_id" "id" (is_code_int (Z.eqb cid)) txt = true) /\
  (exec (search_detail cfg results idx locale (Some stable)) t (Ok (txt, kb)) ->
   txt = TKey "stats.error.result_unavailable" locale [] \/
   exists ban proof, ban ∈ results /\ dget_str "ban_id" ban "" = stable /\ during (build_ban_detail cfg ban None locale) (txt, proof) t) /\
  (exec (Stats_ban_detail cfg page idx (Some stable) locale) t (Ok (txt, kb)) ->
   txt = TKey "stats.error.ban_not_found" locale [] \/
   exists ban proof, during (get_ban stable) (Some ban) t /\ py_truthy (dget "is_active" ban) = true /\
     during (build_ban_detail cfg ban None locale) (txt, proof) t).
Proof.
  split; [|split; [|split]].
  - intros (chunk & _ & H)%ran_exec%ran_bind Hkey. destruct (item_at _ _ _ _) as [d|] eqn:Hd.
    2: { by apply ran_ret in H as [= -> ->]. }
    apply item_at_stable in Hd as [Hid _]. exists (member_id d). split; [done|].
    apply ran_bind in H as (stale & _ & H). apply ran_bind in H as ([] & _ & H). apply ran_ret in H as [= -> ->].
    unfold shows_line. rewrite mentions_lines. cbn. rewrite Z.eqb_refl. by rewrite ?orb_true_r.
  - intros (groups & _ & H)%ran_exec%ran_bind Hkey. destruct (paginate groups page _STATS_PAGE_SIZE) as [[chunk tp] pg].
    destruct (item_at _ _ _ _) as [d|] eqn:Hd.
    2: { by apply ran_ret in H as [= -> ->]. }
    apply item_at_stable in Hd as [Hid _]. exists (group_id d). split; [done|].
    apply ran_bind in H as ([] & _ & H). apply ran_bind in H as (adder & _ & H). apply ran_ret in H as [= -> ->].
    unfold shows_line. rewrite mentions_lines. cbn. rewrite Z.eqb_refl. by rewrite ?orb_true_r.
  - intros H%ran_exec. unfold search_detail in H. destruct (item_at _ _ _ _) as [d|] eqn:Hd.
    2: { left. by apply ran_ret in H as [= -> ->]. }
    apply item_at_stable in Hd as [Hid Hin]. right. apply ran_bind in H as ([txt' proof] & Hb & H).
    apply ran_ret in H as [= -> ->]. by exists d, proof.
  - intros (ban & Hb & H)%ran_exec%ran_bind. destruct ban as [[|f ban]|]; [by left; apply ran_ret in H as [= -> ->]| |by left; apply ran_ret in H as [= -> ->]].
    destruct (py_truthy _) eqn:Hact; cbn [negb] in H; [|by left; apply ran_ret in H as [= -> ->]].
    right. apply ran_bind in H as ([txt' proof] & Hd & H). apply ran_ret in H as [= -> ->].
    by exists (f :: ban), proof.
Qed.

Lemma users_button show locale : "stats_users:0"%string ∈ taps (stats_main_kb show locale) -> show = true.
Proof.
  destruct show; [done|]. intros Htap.
  assert ("stats_users:0"%string ∈ ["stats_admins"; "stats_bans:0"; "stats_chats:0"]%string) as Hx by exact Htap.
  apply list_elem_of_In in Hx. cbn in Hx. intuition discriminate.
Qed.

(** An outage never reads as clean zeroes: an overview without the notice of
    incomplete figures shows what the database answered, and the list of users
    is offered only to a viewer who was found to be the owner or the founder. *)
Theorem overview_honest viewer locale t txt kb : exec (Stats_main cfg viewer locale) t (Ok (txt, Some kb)) ->
  (has_key "stats.main.degraded" txt = false ->
   exists owner admins developers testers bans groups users,
     during get_owner_id owner t /\ during admin_count admins t /\ during (role_count "developer") developers t /\
     during (role_count "tester") testers t /\ during active_ban_count bans t /\ during active_group_count groups t /\
     during total_users users t /\
     shows_line "stats.main.staff" "n" (is_bold_int
       ((match owner_known owner with Some _ => 1 | None => 0 end) + admins + developers + testers)) txt = true /\
     shows_line "stats.main.users" "n" (is_bold_int users) txt = true /\
     shows_line "stats.main.bans" "n" (is_bold_int bans) txt = true /\
     shows_line "stats.main.chats" "n" (is_bold_int groups) txt = true) /\
  ("stats_users:0"%string ∈ taps kb -> exists uid, viewer = Some uid /\ viewer_granted uid t).
Proof.
  intros (o & Ho & H)%ran_exec%ran_bind. apply ran_bind in H as (show & Hshow & H).
  apply ran_bind in H as (line & _ & H). apply ran_ret in H as [= -> ->].
  apply ran_bind in Ho as ([staffed rest] & [Hstaffed Hrest]%ran_gather2 & Ho).
  apply ran_bind in Ho as ([[[ro ra] rd] rt] & ->%ran_of_result & Ho).
  apply ran_bind in Ho as ([rcounted rviewer] & ->%ran_of_result & Ho).
  apply ran_bind in Ho as ([[rb rg] ru] & ->%ran_of_result & Ho).
  apply ran_bind in Ho as (viewed & ->%ran_of_result & Ho). apply ran_ret in Ho as ->.
  apply ran_gather4 in Hstaffed as (H1 & H2 & H3 & H4). apply ran_gather2 in Hrest as [Hcounts Hviewer].
  apply ran_gather3 in Hcounts as (H5 & H6 & H7). cbn [o_owner o_admins o_developers o_testers o_bans o_groups o_users o_viewer] in *.
  split.
  - intros Hkey. destruct ro, ra, rd, rt, rb, rg, ru; try (exfalso; revert Hkey; cbn; by rewrite ?orb_true_r).
    eexists _, _, _, _, _, _, _. do 7 (split; [eassumption|]). unfold shows_line. rewrite !mentions_lines. cbn.
    by rewrite !Z.eqb_refl, ?orb_true_r.
  - intros ->%users_button. destruct viewed as [[oc rc]|]; [|by apply ran_ret in Hshow].
    apply ran_bind in Hshow as ([] & _ & Hshow). apply ran_ret in Hshow. destruct viewer as [uid|]; [|by apply ran_ret in Hviewer].
    apply ran_bind in Hviewer as ([oc' rc'] & [Hoc Hrc]%ran_gather2 & Hviewer). apply ran_ret in Hviewer as [= -> ->].
    exists uid. split; [done|]. destruct oc' as [[]|e]; [by left| |];
      (destruct rc' as [role|e']; [|done]; right; by exists role).
Qed.
End cards.

(** * Buttons and what they carry *)
Section buttons.
Context {CAT : Catalog}.

(** The data of an item's button parses back to its page, index and id. *)
Lemma item_button_parses prefix page i id :
  Forall (fun c => c <> c_colon) (u prefix) -> Forall (fun c => c <> c_colon) (u id) ->
  _parse_item_callback (item_data (with_int (u prefix) page) i (Some id)) = Some (page, i, Some id).
Proof.
  intros Hp Hid. unfold _parse_item_callback, item_data. rewrite !with_int_app.
  rewrite !fields_app, fields_plain by (exact Hp || exact Hid || apply str_int_no_colon).
  by rewrite !py_int_str_int, s_of_u.
Qed.
End buttons.

(** * The search panel *)
Section panel.
Context {CAT : Catalog}.

(** The panel is open, and in the chat of the message. *)
Definition panel_here (upd : update) (t : trace eff) : Prop :=
  exists v c msg, reads SEARCH_KEY v t /\ ud_truthy v = true /\ reads CHAT_KEY c t /\ effective_message upd = Some msg /\
    match c with Some (UdBson (BInt chat)) => chat = msg_chat_id msg | _ => True end.

(** A message is taken for a search only while the panel is open in its own
    chat; in every other case the handler touches nothing but the conversation's
    data, deletes no message and answers nothing. *)
Theorem search_input_scoped upd t r : exec (on_bans_search_input_body upd) t r ->
  Forall (fun o => obs_ud o = true) t \/ panel_here upd t.
Proof.
  revert t r. refine (wp_elim' _ (fun t _ => Forall (fun o => obs_ud o = true) t \/ panel_here upd t) _).
  unfold on_bans_search_input_body. apply wp_bind, wp_call. intros [v|e] Hv; [|done].
  destruct (ud_truthy v) eqn:Htv; cbn [negb]; [|apply wp_ret; left; by repeat constructor].
  destruct (effective_message upd) as [msg|] eqn:Hmsg; [|apply wp_ret; left; by repeat constructor].
  apply wp_bind, wp_call. intros [[]|e] Hpop; [|done].
  apply wp_bind, wp_call. intros [c|e] Hc; [|done].
  destruct (match c with Some (UdBson (BInt chat)) => negb (chat =? msg_chat_id msg) | _ => false end) eqn:Helse.
  - apply wp_call. intros [[]|e] Hput; [|done]. left. by repeat constructor.
  - eapply wp_mono; [apply wp_exec|]. intros t r _. right. exists v, c, msg.
    split; [by left|]. split; [done|]. split; [right; right; by left|]. split; [done|].
    destruct c as [[[]| |]|]; try done. by apply negb_false_iff, Z.eqb_eq in Helse.
Qed.
End panel.

(** * Examples *)
Definition founder_update : update := Update (Some 7) None (Some demo_message) true.

(** The cache knows user 7 as the owner; there is one user. *)
Definition seven_owns : script := fun X ev =>
  match ev in eff X return option (result X) with
  | MemGet "owner" _ => Some (Ok (Some (BInt 7)))
  | EstimatedDocumentCount "member_cache" => Some (Ok 1)
  | Find "member_cache" _ _ _ _ => Some (Ok [["user_id" ~> BInt 9; "first_name" ~> BStr "Ann"]])
  | _ => None
  end.

Definition users_tap : option callback := Some (Callback demo_message (Some "stats_users:0"%string)).
Definition users_run : trace eff * result unit :=
  replay seven_owns (on_stats_users_body (CAT:=demo_catalog) founder_update users_tap).

Lemma users_behind_gate_witness :
  existsb obs_roster users_run.1 = true /\
  exists t1 t2 uid, users_run.1 = t1 ++ t2 /\ existsb obs_roster t1 = false /\ Some 7 = Some uid /\ viewer_granted uid t1.
Proof.
  assert (existsb obs_roster users_run.1 = true) as Hr by (vm_compute; reflexivity). split; [exact Hr|].
  refine (users_behind_gate (CAT:=demo_catalog) founder_update users_tap users_run.1 users_run.2 _ Hr).
  left. exact (replay_exec seven_owns (on_stats_users_body (CAT:=demo_catalog) founder_update users_tap)).
Defined.

Lemma detail_is_tapped_witness :
  let run := replay seven_owns (user_detail 0 0 (Some "9"%string) DEFAULT_LOCALE) in
  has_key "stats.user_detail.title" (card_text run.2) = true /\
  exists uid, pretty uid = "9"%string /\ shows_line "stats.user_detail.id" "id" (is_code_int (Z.eqb uid)) (card_text run.2) = true.
Proof.
  intros run. pose proof (replay_exec seven_owns (user_detail 0 0 (Some "9"%string) DEFAULT_LOCALE)) as Hrun. fold run in Hrun.
  split; [vm_compute; reflexivity|]. remember run.2 as r eqn:Hr. vm_compute in Hr. subst r.
  refine (proj1 (detail_is_tapped demo_config 0 0 "9" [] DEFAULT_LOCALE _ _ _) Hrun _). vm_compute. reflexivity.
Defined.

Lemma overview_honest_witness :
  let run := replay seven_owns (Stats_main demo_config (Some 7) DEFAULT_LOCALE) in
  "stats_users:0"%string ∈ taps (kb_of run.2) /\ exists uid, Some 7 = Some uid /\ viewer_granted uid run.1.
Proof.
  intros run. assert ("stats_users:0"%string ∈ taps (kb_of run.2)) as Hin by (vm_compute; apply list_elem_of_In; cbn; tauto).
  split; [exact Hin|].
  refine (proj2 (overview_honest demo_config (Some 7) DEFAULT_LOCALE run.1 (card_text run.2) (kb_of run.2) _) Hin).
  exact (replay_exec seven_owns (Stats_main demo_config (Some 7) DEFAULT_LOCALE)).
Defined.

(** The panel is open in chat [-100], where the message is. *)
Definition open_panel : script := fun X ev =>
  match ev in eff X return option (result X) with
  | UdGet key => Some (Ok (if String.eqb key SEARCH_KEY then Some (UdBson (BBool true))
                           else if String.eqb key CHAT_KEY then Some (UdBson (BInt (-100))) else None))
  | _ => None
  end.

Lemma search_input_scoped_witness :
  let run := replay open_panel (on_bans_search_input_body (CAT:=demo_catalog) (demo_update 7)) in
  forallb obs_ud run.1 = false /\ (Forall (fun o => obs_ud o = true) run.1 \/ panel_here (demo_update 7) run.1).
Proof.
  intros run. split; [vm_compute; reflexivity|].
  apply (search_input_scoped (CAT:=demo_catalog) (demo_update 7) run.1 run.2).
  exact (replay_exec open_panel (on_bans_search_input_body (CAT:=demo_catalog) (demo_update 7))).
Defined.

(** * What does not work *)

(** A button without the id of its ban, which older keyboards have, is always
    answered that the ban is gone. *)
Theorem old_ban_buttons_dead cfg page idx locale :
  Stats_ban_detail cfg page idx None locale =
    Ret (card_back (TKey "stats.error.ban_not_found" locale []) "stats_bans" page locale).
Proof. reflexivity. Qed.

(** The reads of the staff fail. *)
Definition roles_down : script := fun X ev =>
  match ev in eff X return option (result X) with
  | Find "tc_admins" _ _ _ _ => Some (Err (PyMongoError "down"))
  | Find "tc_roles" _ _ _ _ => Some (Err (PyMongoError "down"))
  | Find "bans" _ _ _ _ => Some (Err (PyMongoError "down"))
  | Find "member_cache" _ _ _ _ => Some (Err (PyMongoError "down"))
  | _ => None
  end.

(** The roster has no notice of incomplete figures: an outage reads as a
    federation without admins. *)
Theorem roster_outage_reads_as_empty :
  let txt := card_text (replay roles_down (staff_roster demo_config DEFAULT_LOCALE)).2 in
  is_err (replay roles_down all_admins).2 = true /\
  has_key "stats.roster.empty" txt = true /\ has_key "stats.main.degraded" txt = false /\ has_key "stats.error.db_fail" txt = false.
Proof. vm_compute. done. Qed.

Definition replies (key : string) (t : trace eff) : bool :=
  existsb (fun o => match o with
                    | Obs ev _ => match ev with
                                  | ReplyText _ txt _ => has_key key txt
                                  | EditMessageText _ _ txt _ => has_key key txt
                                  | _ => false
                                  end
                    end) t.

(** A search whose lookup fails answers that nobody was found. *)
Theorem search_outage_reads_as_empty :
  let down : script := fun X ev =>
    match ev in eff X return option (result X) with
    | Find _ _ _ _ _ => Some (Err (PyMongoError "down"))
    | UdGet key => Some (Ok (if String.eqb key SEARCH_KEY then Some (UdBson (BBool true)) else None))
    | _ => None
    end in
  replies "stats.search.empty" (replay down (on_bans_search_input_body (CAT:=demo_catalog) (demo_update 7))).1 = true.
Proof. vm_compute. reflexivity. Qed.
