(* ===== verification/LogCards.v ===== *)
(** [helper/parse_logmsg/] and the display of dates
    ([utils/time_and_date.py]): the fluent builder of the log cards, every
    card, and what a reader of MarkdownV2 finds in them.  [now] is the clock's
    answer, [community_name] the setting of that name. *)

From S2P Require Import Prelude Text Prog World Formatter Roles Auth.

(** * Dates

    The fields of a [datetime]; [dt_offset] is its distance to UTC in minutes,
    missing from a naive one. *)
Record datetime := {
  dt_year : Z; dt_month : Z; dt_day : Z; dt_hour : Z; dt_minute : Z;
  dt_offset : option Z }.

Definition replace_utc (dt : datetime) : datetime :=
  {| dt_year := dt_year dt; dt_month := dt_month dt; dt_day := dt_day dt;
     dt_hour := dt_hour dt; dt_minute := dt_minute dt; dt_offset := Some 0 |}.

(** [%d], [%m], [%H] and [%M]; [%Y] has no padding. *)
Definition pad2 (n : Z) : ustr := if n <? 10 then 48 :: str_int n else str_int n.

Definition strftime (dt : datetime) : ustr :=
  pad2 (dt_day dt) ++ u "-" ++ pad2 (dt_month dt) ++ u "-" ++ str_int (dt_year dt)
  ++ u " | " ++ pad2 (dt_hour dt) ++ u ":" ++ pad2 (dt_minute dt).

Definition fmt_dt (dt : datetime) : ustr :=
  let dt := match dt_offset dt with None => replace_utc dt | Some _ => dt end in
  esc (strftime dt).

(** * The builder: the lines it has collected *)
Definition LogBuilder : Type := list ustr.

Definition line_break : ustr := [10].

Definition log_init (title : ustr) : LogBuilder := [esc title; []].

Definition log_field (label value : ustr) (escape : bool) (b : LogBuilder) : LogBuilder :=
  let v := if escape then esc value else value in
  b ++ [label ++ u ": " ++ v].

Definition code_field (label value : ustr) (b : LogBuilder) : LogBuilder :=
  b ++ [label ++ u ": " ++ code value].

Definition mention_field (label : ustr) (user_id : Z) (name : ustr) (b : LogBuilder) : LogBuilder :=
  b ++ [label ++ u ": " ++ user_ref user_id name None].

Definition log_link_field (label text url : ustr) (b : LogBuilder) : LogBuilder :=
  b ++ [label ++ u ": " ++ link text url].

Definition raw_line (text : ustr) (b : LogBuilder) : LogBuilder := b ++ [text].
Definition section_break (b : LogBuilder) : LogBuilder := b ++ [[]].

Definition user_block (target_id : Z) (target_fname : ustr) (target_username : option ustr)
    (user_label id_label : ustr) (b : LogBuilder) : LogBuilder :=
  (b ++ [user_label ++ u ": " ++ user_ref target_id target_fname target_username])
  ++ [id_label ++ u ": " ++ code (str_int target_id)].

Definition actor_block (actor_id : Z) (actor_fname : ustr) (actor_username : option ustr)
    (label id_label : ustr) (b : LogBuilder) : LogBuilder :=
  (b ++ [label ++ u ": " ++ user_ref actor_id actor_fname actor_username])
  ++ [id_label ++ u ": " ++ code (str_int actor_id)].

Definition date_line (now : datetime) (ts : option datetime) (label : ustr) (b : LogBuilder) : LogBuilder :=
  b ++ [label ++ u ": " ++ fmt_dt (match ts with Some t => t | None => now end)].

Definition log_build (b : LogBuilder) : ustr := join line_break b.

(** The chain of method calls: each gets the builder the one before returns. *)
Declare Scope card_scope.
Notation "b |> f" := (f b) (at level 61, left associativity, only parsing) : card_scope.
Open Scope card_scope.

Section cards.
Context (community_name : ustr) (now : datetime).

(** * moderation.py *)
Definition ban_log (target_id : Z) (target_fname : ustr) (admin_id : Z) (admin_fname reason ban_id : ustr)
    (timestamp : option datetime) : ustr :=
  log_init (u "New " ++ community_name ++ u " Ban")
  |> mention_field (u "Admin") admin_id admin_fname
  |> section_break
  |> mention_field (u "User") target_id target_fname
  |> code_field (u "User ID") (str_int target_id)
  |> code_field (u "Ban ID") ban_id
  |> log_field (u "Reason") reason true
  |> section_break
  |> date_line now timestamp (u "Commit at")
  |> log_build.

Definition ban_update_log (target_id : Z) (target_fname : ustr) (new_admin_id : Z) (new_admin_fname : ustr)
    (old_admin_id : Z) (old_admin_fname reason ban_id : ustr) (original_ts : datetime) : ustr :=
  log_init (u "Update " ++ community_name ++ u " Ban")
  |> mention_field (u "Admin") new_admin_id new_admin_fname
  |> mention_field (u "Previous Admin") old_admin_id old_admin_fname
  |> section_break
  |> mention_field (u "User") target_id target_fname
  |> code_field (u "User ID") (str_int target_id)
  |> code_field (u "Ban ID") ban_id
  |> log_field (u "Reason") reason true
  |> section_break
  |> date_line now (Some original_ts) (u "Commit at")
  |> date_line now None (u "Update at")
  |> log_build.

Definition proof_caption_new (target_id admin_id : Z) (admin_fname : ustr) (timestamp : datetime) : ustr :=
  log_init (u "ID: " ++ str_int target_id)
  |> section_break
  |> mention_field (u "Admin") admin_id admin_fname
  |> code_field (u "Admin ID") (str_int admin_id)
  |> section_break
  |> date_line now (Some timestamp) (u "Commit at")
  |> log_build.

Definition proof_caption_update (target_id admin_id : Z) (admin_fname : ustr) (original_ts : datetime)
    (prev_proof_lnk : option ustr) : ustr :=
  let b :=
    log_init (u "ID: " ++ str_int target_id)
    |> section_break
    |> mention_field (u "Admin") admin_id admin_fname
    |> code_field (u "Admin ID") (str_int admin_id) in
  let b :=
    match prev_proof_lnk with
    | None | Some [] => b
    | Some lnk => b |> section_break |> log_field (u "Previous") (link (u "Click Here") lnk) false
    end in
  b |> section_break
  |> date_line now (Some original_ts) (u "Commit at")
  |> date_line now None (u "Update at")
  |> log_build.

Definition mute_log (target_id : Z) (target_fname : ustr) (admin_id : Z) (admin_fname reason duration_str : ustr) : ustr :=
  log_init (community_name ++ u " Muted")
  |> mention_field (u "Admin") admin_id admin_fname
  |> mention_field (u "User") target_id target_fname
  |> code_field (u "User ID") (str_int target_id)
  |> log_field (u "Reason") reason true
  |> log_field (u "Duration") duration_str true
  |> section_break
  |> date_line now None (u "Date")
  |> log_build.

Definition unmute_log (target_id : Z) (target_fname : ustr) (admin_id : Z) (admin_fname : ustr) : ustr :=
  log_init (community_name ++ u " Federation Unmute")
  |> mention_field (u "Admin") admin_id admin_fname
  |> mention_field (u "User") target_id target_fname
  |> code_field (u "User ID") (str_int target_id)
  |> section_break
  |> date_line now None (u "Date")
  |> log_build.

(** The line of kicks and warnings that names the group. *)
Definition group_line (chat_id : Z) (chat_title : ustr) : ustr :=
  u "Group: " ++ esc chat_title ++ u " \(" ++ code (str_int chat_id) ++ u "\)".

Definition kick_log (target_id : Z) (target_fname : ustr) (admin_id : Z) (admin_fname reason : ustr)
    (chat_id : Z) (chat_title : ustr) : ustr :=
  log_init (community_name ++ u " Kicked")
  |> mention_field (u "Admin") admin_id admin_fname
  |> mention_field (u "User") target_id target_fname
  |> code_field (u "User ID") (str_int target_id)
  |> log_field (u "Reason") reason true
  |> raw_line (group_line chat_id chat_title)
  |> section_break
  |> date_line now None (u "Date")
  |> log_build.

Definition resetwarns_log (target_id : Z) (target_fname : ustr) (admin_id : Z) (admin_fname : ustr)
    (removed chat_id : Z) (chat_title : ustr) : ustr :=
  log_init (community_name ++ u " Reset Warns")
  |> mention_field (u "Admin") admin_id admin_fname
  |> mention_field (u "User") target_id target_fname
  |> code_field (u "User ID") (str_int target_id)
  |> log_field (u "Warnings cleared") (str_int removed) true
  |> raw_line (group_line chat_id chat_title)
  |> section_break
  |> date_line now None (u "Date")
  |> log_build.

Definition warn_log (target_id : Z) (target_fname : ustr) (admin_id : Z) (admin_fname reason : ustr)
    (count warn_limit chat_id : Z) (chat_title : ustr) : ustr :=
  log_init (community_name ++ u " Warn")
  |> mention_field (u "Admin") admin_id admin_fname
  |> mention_field (u "User") target_id target_fname
  |> code_field (u "User ID") (str_int target_id)
  |> log_field (u "Reason") reason true
  |> log_field (u "Warnings") (str_int count ++ u "/" ++ str_int warn_limit) true
  |> raw_line (group_line chat_id chat_title)
  |> section_break
  |> date_line now None (u "Date")
  |> log_build.

Definition unwarn_log_card (target_id : Z) (target_fname : ustr) (admin_id : Z) (admin_fname : ustr)
    (new_count warn_limit chat_id : Z) (chat_title : ustr) : ustr :=
  log_init (community_name ++ u " Unwarn")
  |> mention_field (u "Admin") admin_id admin_fname
  |> mention_field (u "User") target_id target_fname
  |> code_field (u "User ID") (str_int target_id)
  |> log_field (u "Warnings now") (str_int new_count ++ u "/" ++ str_int warn_limit) true
  |> raw_line (group_line chat_id chat_title)
  |> section_break
  |> date_line now None (u "Date")
  |> log_build.

Definition unban_log (target_id : Z) (target_fname : ustr) (admin_id : Z) (admin_fname ban_id : ustr)
    (reason : option ustr) : ustr :=
  let b :=
    log_init (community_name ++ u " Unban")
    |> mention_field (u "Admin") admin_id admin_fname
    |> mention_field (u "User") target_id target_fname
    |> code_field (u "User ID") (str_int target_id)
    |> code_field (u "Ban ID") ban_id in
  let b :=
    match reason with
    | None | Some [] => b
    | Some r => b |> log_field (u "Unban Reason") r true
    end in
  b |> section_break |> date_line now None (u "Date") |> log_build.

(** * appeals.py *)

(** The line that links the appeal, or says there is none. *)
Definition appeal_field (appeal_link : ustr) (b : LogBuilder) : LogBuilder :=
  match appeal_link with
  | [] => b |> log_field (u "Appeal") (u "N/A") true
  | _ => b |> log_link_field (u "Appeal") (u "View") appeal_link
  end.

Definition appeal_received_log (target_id : Z) (target_fname ban_id appeal_link : ustr) : ustr :=
  log_init (u "New " ++ community_name ++ u " Appeal Request")
  |> raw_line (u "User: " ++ user_ref target_id target_fname None ++ u " \(ID: " ++ code (str_int target_id) ++ u "\)")
  |> code_field (u "Ban ID") ban_id
  |> appeal_field appeal_link
  |> date_line now None (u "Submitted")
  |> section_break
  |> raw_line (u "This appeal is pending review\.")
  |> log_build.

Definition appeal_submitted_log (target_id : Z) (target_fname ban_id appeal_link : ustr) : ustr :=
  log_init (u "New " ++ community_name ++ u " Appeal Submitted")
  |> mention_field (u "User") target_id target_fname
  |> code_field (u "ID") (str_int target_id)
  |> section_break
  |> code_field (u "Ban ID") ban_id
  |> appeal_field appeal_link
  |> section_break
  |> date_line now None (u "Submitted")
  |> log_build.

Definition _appeal_decision_edit (title decision_label : ustr) (target_id : Z) (target_fname : ustr) (admin_id : Z)
    (admin_fname ban_id appeal_link : ustr) (submitted_at : option datetime) : ustr :=
  let submitted_str := match submitted_at with Some t => fmt_dt t | None => u "N/A" end in
  log_init title
  |> mention_field (u "User") target_id target_fname
  |> code_field (u "ID") (str_int target_id)
  |> section_break
  |> code_field (u "Ban ID") ban_id
  |> appeal_field appeal_link
  |> section_break
  |> log_field (u "Submitted") submitted_str false
  |> raw_line (decision_label ++ u ": " ++ user_ref admin_id admin_fname None)
  |> date_line now None (decision_label ++ u " at")
  |> log_build.

Definition appeal_approved_edit (target_id : Z) (target_fname : ustr) (admin_id : Z)
    (admin_fname ban_id appeal_link : ustr) (submitted_at : option datetime) : ustr :=
  _appeal_decision_edit (community_name ++ u " Appeal Approved") (u "Approved by")
    target_id target_fname admin_id admin_fname ban_id appeal_link submitted_at.

Definition appeal_rejected_edit (target_id : Z) (target_fname : ustr) (admin_id : Z)
    (admin_fname ban_id appeal_link : ustr) (submitted_at : option datetime) : ustr :=
  _appeal_decision_edit (community_name ++ u " Appeal Rejected") (u "Rejected by")
    target_id target_fname admin_id admin_fname ban_id appeal_link submitted_at.

Definition appeal_unban_log (target_id : Z) (target_fname : ustr) (admin_id : Z) (admin_fname ban_id : ustr) : ustr :=
  log_init (community_name ++ u " Unban (via Appeal)")
  |> mention_field (u "Admin") admin_id admin_fname
  |> mention_field (u "User") target_id target_fname
  |> code_field (u "User ID") (str_int target_id)
  |> code_field (u "Ban ID") ban_id
  |> section_break
  |> date_line now None (u "Date")
  |> log_build.

(** * roles.py *)
Definition _role_title (role : string) : ustr :=
  u (match assoc role ROLE_LABEL with Some l => l | None => capitalize role end).

Definition promoted_log (target_id : Z) (target_fname : ustr) (role : string) (by_id : Z) (by_fname : ustr) : ustr :=
  log_init (u "New " ++ community_name ++ u " Promoted")
  |> mention_field (u "User") target_id target_fname
  |> code_field (u "User ID") (str_int target_id)
  |> log_field (u "Role") (_role_title role) true
  |> section_break
  |> mention_field (u "Promoted by") by_id by_fname
  |> code_field (u "ID") (str_int by_id)
  |> section_break
  |> date_line now None (u "Date")
  |> log_build.

Definition demoted_log (target_id : Z) (target_fname : ustr) (role : string) (by_id : Z) (by_fname : ustr) : ustr :=
  log_init (community_name ++ u " Demoted")
  |> mention_field (u "User") target_id target_fname
  |> code_field (u "User ID") (str_int target_id)
  |> log_field (u "Role removed") (_role_title role) true
  |> section_break
  |> mention_field (u "Demoted by") by_id by_fname
  |> code_field (u "ID") (str_int by_id)
  |> section_break
  |> date_line now None (u "Date")
  |> log_build.

Definition ownership_transferred (new_owner_id : Z) (new_owner_fname : ustr) (old_owner_id : Z)
    (old_owner_fname : ustr) : ustr :=
  log_init (community_name ++ u " Ownership Transferred")
  |> mention_field (u "New Owner") new_owner_id new_owner_fname
  |> code_field (u "ID") (str_int new_owner_id)
  |> section_break
  |> mention_field (u "Previous Owner") old_owner_id old_owner_fname
  |> code_field (u "ID") (str_int old_owner_id)
  |> section_break
  |> date_line now None (u "Date")
  |> log_build.

Definition promote_request_log (user_id : Z) (user_fname : ustr) (username : option ustr) (request_id : ustr) : ustr :=
  let uname_part := match username with None | Some [] => u "N/A" | Some n => u "@" ++ n end in
  log_init (community_name ++ u " Promotion Request")
  |> mention_field (u "User") user_id user_fname
  |> code_field (u "ID") (str_int user_id)
  |> log_field (u "Username") uname_part true
  |> section_break
  |> code_field (u "Request ID") request_id
  |> date_line now None (u "Date")
  |> log_build.

Definition promote_approved_log (target_id : Z) (target_fname : ustr) (admin_id : Z) (admin_fname request_id : ustr) : ustr :=
  log_init (u "New " ++ community_name ++ u " Admin Promoted")
  |> mention_field (u "Admin") target_id target_fname
  |> code_field (u "ID") (str_int target_id)
  |> section_break
  |> mention_field (u "Promoted by") admin_id admin_fname
  |> code_field (u "ID") (str_int admin_id)
  |> section_break
  |> code_field (u "Request ID") request_id
  |> date_line now None (u "Date")
  |> log_build.

Definition promote_rejected_log (target_id : Z) (target_fname : ustr) (admin_id : Z) (admin_fname request_id : ustr) : ustr :=
  log_init (community_name ++ u " Promotion Request Rejected")
  |> mention_field (u "User") target_id target_fname
  |> code_field (u "ID") (str_int target_id)
  |> section_break
  |> mention_field (u "Rejected by") admin_id admin_fname
  |> code_field (u "ID") (str_int admin_id)
  |> section_break
  |> code_field (u "Request ID") request_id
  |> date_line now None (u "Date")
  |> log_build.

(** * groups.py *)
Definition _MAX_BROADCAST_PREVIEW_LEN : Z := 100.

Definition group_connected_log (chat_id : Z) (chat_title : ustr) (owner_id : Z) (owner_fname : ustr)
    (chat_username : option ustr) : ustr :=
  let group_display :=
    match safe_username chat_username with
    | Some uname => link chat_title (u "https://t.me/" ++ uname)
    | None => esc chat_title
    end in
  log_init (u "New " ++ community_name ++ u " Connected Group")
  |> raw_line (u "Group: " ++ group_display)
  |> code_field (u "ID") (str_int chat_id)
  |> section_break
  |> mention_field (u "Added by Owner") owner_id owner_fname
  |> code_field (u "ID") (str_int owner_id)
  |> section_break
  |> date_line now None (u "Date")
  |> log_build.

Definition group_connection_rejected_log (chat_id : Z) (chat_title : ustr) (owner_id : Z) (owner_fname : ustr) : ustr :=
  log_init (community_name ++ u " Connection Rejected")
  |> raw_line (u "Group: " ++ esc chat_title ++ u " \(ID: " ++ str_int chat_id ++ u "\)")
  |> section_break
  |> raw_line (u "Rejected by Owner: " ++ user_ref owner_id owner_fname None
               ++ u " \(ID: " ++ code (str_int owner_id) ++ u "\)")
  |> section_break
  |> date_line now None (u "Date")
  |> log_build.

Definition group_disconnected_log (chat_id : Z) (chat_title : ustr) (actor_id : Z) (actor_fname : ustr) : ustr :=
  log_init (community_name ++ u " Group Disconnected")
  |> log_field (u "Group") chat_title true
  |> code_field (u "ID") (str_int chat_id)
  |> section_break
  |> mention_field (u "Removed by") actor_id actor_fname
  |> code_field (u "ID") (str_int actor_id)
  |> section_break
  |> date_line now None (u "Date")
  |> log_build.

Definition group_bot_removed_log (chat_id : Z) (chat_title : ustr) : ustr :=
  log_init (community_name ++ u " Group Removed Bot")
  |> log_field (u "Group") chat_title true
  |> code_field (u "ID") (str_int chat_id)
  |> section_break
  |> date_line now None (u "Date")
  |> log_build.

Definition broadcast_log (admin_id : Z) (admin_fname message_preview : ustr) (success failed : Z) : ustr :=
  let preview := take (Z.to_nat _MAX_BROADCAST_PREVIEW_LEN) message_preview in
  log_init (community_name ++ u " Broadcast Sent")
  |> mention_field (u "Admin") admin_id admin_fname
  |> log_field (u "Message") preview true
  |> section_break
  |> log_field (u "Groups reached") (str_int success) true
  |> log_field (u "Failed groups") (str_int failed) true
  |> section_break
  |> date_line now None (u "Date")
  |> log_build.
End cards.

(** * What Telegram finds in a message

    The automaton of [Formatter], remembering what it reads_as: the entities of
    a message, in order, with the text they show and the address they open. *)
Inductive md_entity : Type :=
  | ELink (text url : ustr)
  | ECode (text : ustr)
  | EBold (text : ustr)
  | EItal (text : ustr).

Record scan := { sc_mode : md_mode; sc_text : ustr; sc_url : ustr; sc_found : list md_entity }.

Definition scan_step (st : scan) (c : Z) : option scan :=
  match md_step (sc_mode st) c with
  | None => None
  | Some m' =>
      let keep := {| sc_mode := m'; sc_text := sc_text st; sc_url := sc_url st; sc_found := sc_found st |} in
      let fresh := {| sc_mode := m'; sc_text := []; sc_url := []; sc_found := sc_found st |} in
      let push := {| sc_mode := m'; sc_text := sc_text st ++ [c]; sc_url := sc_url st; sc_found := sc_found st |} in
      let push_url := {| sc_mode := m'; sc_text := sc_text st; sc_url := sc_url st ++ [c]; sc_found := sc_found st |} in
      let emit e := {| sc_mode := m'; sc_text := []; sc_url := []; sc_found := sc_found st ++ [e] |} in
      Some (match sc_mode st, m' with
            | Txt, (LinkTxt | Code _ | Bold _ | Ital _) => fresh
            | (LinkTxt | LinkTxtEsc), LinkTxt
            | (Code _ | CodeEsc), Code _
            | (Bold _ | BoldEsc), Bold _
            | (Ital _ | ItalEsc), Ital _ => push
            | (Url | UrlEsc), Url => push_url
            | Url, Txt => emit (ELink (sc_text st) (sc_url st))
            | Code _, Txt => emit (ECode (sc_text st))
            | Bold _, Txt => emit (EBold (sc_text st))
            | Ital _, Txt => emit (EItal (sc_text st))
            | _, _ => keep
            end)
  end.

Fixpoint scan_run (st : scan) (s : ustr) : option scan :=
  match s with
  | [] => Some st
  | c :: s' => match scan_step st c with Some st' => scan_run st' s' | None => None end
  end.

(** The entities of a message; [None] when Telegram refuses it. *)
Definition md_entities (s : ustr) : option (list md_entity) :=
  match scan_run {| sc_mode := Txt; sc_text := []; sc_url := []; sc_found := [] |} s with
  | Some {| sc_mode := Txt; sc_found := es |} => Some es
  | _ => None
  end.

(** A mention shows the name, or the id of a user without one, and opens the
    profile of the id; an identifier is shown in a code span. *)
Definition mention_entity (user_id : Z) (name : ustr) : md_entity :=
  ELink (match name with [] => str_int user_id | _ => name end) (u "tg://user?id=" ++ str_int user_id).
Definition id_entity (z : Z) : md_entity := ECode (str_int z).
Definition code_entity (s : ustr) : list md_entity := match s with [] => [] | _ => [ECode s] end.
Definition link_entity (text url : ustr) : list md_entity := match url with [] => [] | _ => [ELink text url] end.

(** ** Reading fragments *)

(** Read in plain text, [s] adds the entities [es] and ends in plain text. *)
Definition reads_as (s : ustr) (es : list md_entity) : Prop :=
  forall text url found, exists text' url',
    scan_run {| sc_mode := Txt; sc_text := text; sc_url := url; sc_found := found |} s
    = Some {| sc_mode := Txt; sc_text := text'; sc_url := url'; sc_found := found ++ es |}.

Lemma scan_run_app st s t :
  scan_run st (s ++ t) = match scan_run st s with Some st' => scan_run st' t | None => None end.
Proof. revert st. induction s as [|c s IH]; intros st; simpl; [done|]. destruct (scan_step st c); auto. Qed.

Lemma reads_entities s es : reads_as s es -> md_entities s = Some es.
Proof. intros H. destruct (H [] [] []) as (t & v & Hr). unfold md_entities. by rewrite Hr. Qed.

(** The scan follows the automaton. *)
Lemma scan_mode st s : sc_mode <$> scan_run st s = md_run (sc_mode st) s.
Proof.
  revert st. induction s as [|c s IH]; intros st; simpl; [done|].
  unfold scan_step. destruct (md_step (sc_mode st) c) as [m'|]; [|done].
  rewrite IH. by destruct (sc_mode st), m'.
Qed.

Lemma entities_wf s es : md_entities s = Some es -> md_wf s.
Proof.
  unfold md_entities, md_wf. pose proof (scan_mode {| sc_mode := Txt; sc_text := []; sc_url := []; sc_found := [] |} s) as H.
  simpl in H. rewrite <- H. destruct (scan_run _ s) as [[[] ? ? ?]|]; simpl; congruence.
Qed.

Lemma reads_nil : reads_as [] [].
Proof. intros t v f. exists t, v. by rewrite app_nil_r. Qed.

Lemma reads_app s t es fs : reads_as s es -> reads_as t fs -> reads_as (s ++ t) (es ++ fs).
Proof.
  intros Hs Ht tx ur fo. destruct (Hs tx ur fo) as (t1 & u1 & H1).
  destruct (Ht t1 u1 (fo ++ es)) as (t2 & u2 & H2). exists t2, u2.
  by rewrite scan_run_app, H1, H2, <- app_assoc.
Qed.

Lemma reads_esc s : reads_as (esc s) [].
Proof.
  intros t v f. exists t, v. rewrite app_nil_r. induction s as [|c s IH]; [done|].
  change (esc (c :: s)) with ((if md_special c then [c_backslash; c] else [c]) ++ esc s).
  rewrite scan_run_app. destruct (md_special c) eqn:Hc.
  - assert (scan_run {| sc_mode := Txt; sc_text := t; sc_url := v; sc_found := f |} [c_backslash; c]
      = Some {| sc_mode := Txt; sc_text := t; sc_url := v; sc_found := f |}) as ->; [|done].
    unfold scan_run, scan_step. simpl. unfold md_esc_next. by rewrite Hc.
  - apply md_special_false in Hc as Hs. destruct Hs as (? & ? & ? & ? & ? & ?).
    unfold scan_run at 1, scan_step. cbn [md_step sc_mode]. md_plain.
Qed.

(** The fixed parts of a card: every special character is escaped. *)
Fixpoint plain_text (s : ustr) : bool :=
  match s with
  | [] => true
  | c :: s' =>
      if c =? c_backslash then match s' with d :: s'' => md_special d && plain_text s'' | [] => false end
      else negb (md_special c) && plain_text s'
  end.

Lemma reads_plain s : plain_text s = true -> reads_as s [].
Proof.
  intros Hp t v f. exists t, v. rewrite app_nil_r.
  enough (forall n s, (length s <= n)%nat -> plain_text s = true ->
    scan_run {| sc_mode := Txt; sc_text := t; sc_url := v; sc_found := f |} s
    = Some {| sc_mode := Txt; sc_text := t; sc_url := v; sc_found := f |}) as H by (by eapply H).
  clear s Hp. induction n as [|n IH]; intros [|c s] Hn Hp; simpl in Hn; try done; try lia.
  cbn [plain_text] in Hp. unfold scan_run, scan_step. cbn [md_step sc_mode].
  destruct (c =? c_backslash) eqn:Hb.
  - destruct s as [|d s]; [done|]. apply andb_true_iff in Hp as [Hd Hp].
    cbn [md_step sc_mode]. unfold md_esc_next. rewrite Hd. apply IH; [simpl in *; lia|done].
  - apply andb_true_iff in Hp as [Hc Hp]. apply negb_true_iff in Hc.
    apply md_special_false in Hc as Hs. destruct Hs as (? & ? & ? & ? & ? & ?).
    md_plain. apply IH; [lia|done].
Qed.

(** What is escaped inside an entity is collected as it was given. *)
Lemma scan_link_text s t v f :
  scan_run {| sc_mode := LinkTxt; sc_text := t; sc_url := v; sc_found := f |} (esc s)
  = Some {| sc_mode := LinkTxt; sc_text := t ++ s; sc_url := v; sc_found := f |}.
Proof.
  revert t. induction s as [|c s IH]; intros t; [by rewrite app_nil_r|].
  change (esc (c :: s)) with ((if md_special c then [c_backslash; c] else [c]) ++ esc s).
  rewrite scan_run_app.
  assert (scan_run {| sc_mode := LinkTxt; sc_text := t; sc_url := v; sc_found := f |}
    (if md_special c then [c_backslash; c] else [c])
    = Some {| sc_mode := LinkTxt; sc_text := t ++ [c]; sc_url := v; sc_found := f |}) as ->.
  { destruct (md_special c) eqn:Hc.
    - unfold scan_run, scan_step. cbn [md_step sc_mode]. simpl. unfold md_esc_next. by rewrite Hc.
    - apply md_special_false in Hc as Hs. destruct Hs as (? & ? & ? & ? & ? & ?).
      unfold scan_run, scan_step. cbn [md_step sc_mode]. md_plain. }
  by rewrite IH, <- app_assoc.
Qed.

Lemma scan_url s t v f :
  scan_run {| sc_mode := Url; sc_text := t; sc_url := v; sc_found := f |} (translate url_special s)
  = Some {| sc_mode := Url; sc_text := t; sc_url := v ++ s; sc_found := f |}.
Proof.
  revert v. induction s as [|c s IH]; intros v; [by rewrite app_nil_r|].
  change (translate url_special (c :: s))
    with ((if url_special c then [c_backslash; c] else [c]) ++ translate url_special s).
  rewrite scan_run_app.
  assert (scan_run {| sc_mode := Url; sc_text := t; sc_url := v; sc_found := f |}
    (if url_special c then [c_backslash; c] else [c])
    = Some {| sc_mode := Url; sc_text := t; sc_url := v ++ [c]; sc_found := f |}) as ->.
  { destruct (url_special c) eqn:Hc; unfold scan_run, scan_step; cbn [md_step sc_mode].
    - simpl. by rewrite Hc.
    - apply orb_false_iff in Hc as [-> ->]. done. }
  by rewrite IH, <- app_assoc.
Qed.

Lemma scan_code b s t v f : s <> [] ->
  scan_run {| sc_mode := Code b; sc_text := t; sc_url := v; sc_found := f |} (translate code_special s)
  = Some {| sc_mode := Code true; sc_text := t ++ s; sc_url := v; sc_found := f |}.
Proof.
  revert b t. induction s as [|c s IH]; intros b t Hs; [done|]. clear Hs.
  change (translate code_special (c :: s))
    with ((if code_special c then [c_backslash; c] else [c]) ++ translate code_special s).
  rewrite scan_run_app.
  assert (scan_run {| sc_mode := Code b; sc_text := t; sc_url := v; sc_found := f |}
    (if code_special c then [c_backslash; c] else [c])
    = Some {| sc_mode := Code true; sc_text := t ++ [c]; sc_url := v; sc_found := f |}) as ->.
  { destruct (code_special c) eqn:Hc; unfold scan_run, scan_step; cbn [md_step sc_mode].
    - simpl. by rewrite Hc.
    - apply orb_false_iff in Hc as [-> ->]. done. }
  destruct s as [|d s]; [done|]. by rewrite IH, <- app_assoc.
Qed.

Lemma reads_bracket_link text url_esc url :
  (forall t v f, scan_run {| sc_mode := Url; sc_text := t; sc_url := v; sc_found := f |} url_esc
     = Some {| sc_mode := Url; sc_text := t; sc_url := v ++ url; sc_found := f |}) ->
  reads_as ([c_lbracket] ++ esc text ++ u "](" ++ url_esc ++ [c_rparen]) [ELink text url].
Proof.
  intros Hu t v f. exists [], []. rewrite !scan_run_app. cbn [scan_run scan_step md_step sc_mode].
  simpl. rewrite !scan_run_app, scan_link_text. simpl. by rewrite scan_run_app, Hu.
Qed.

Lemma reads_link text url : reads_as (link text url) [ELink text url].
Proof. apply reads_bracket_link. intros. apply scan_url. Qed.

Lemma reads_user_ref i n us : reads_as (user_ref i n us) [mention_entity i n].
Proof.
  unfold user_ref, mention_entity. replace (u "](tg://user?id=" ++ str_int i ++ [c_rparen])
    with (u "](" ++ (u "tg://user?id=" ++ str_int i) ++ [c_rparen]) by (by rewrite <- app_assoc).
  apply reads_bracket_link. intros t v f.
  rewrite <- (url_plain (str_int i)) at 1.
  - rewrite <- (scan_url (u "tg://user?id=" ++ str_int i)). done.
  - eapply Forall_impl; [apply str_int_chars|]. simpl. intros c [?|[_ ?]]; auto.
Qed.

Lemma reads_code s : reads_as (code s) (code_entity s).
Proof.
  assert (s = [] \/ code_entity s = [ECode s] /\ s <> []) as [-> | [-> Hs]]
    by (destruct s; auto); [apply reads_nil|].
  unfold code. destruct (translate code_special s) eqn:He; [by apply translate_nil in He|]. rewrite <- He.
  intros t v f. exists [], []. change (c_backtick :: translate code_special s ++ [c_backtick])
    with ([c_backtick] ++ translate code_special s ++ [c_backtick]).
  rewrite scan_run_app. simpl. by rewrite scan_run_app, scan_code.
Qed.

Lemma reads_code_int z : reads_as (code (str_int z)) [id_entity z].
Proof.
  pose proof (reads_code (str_int z)) as H. pose proof (str_int_nonnil z).
  unfold id_entity. by destruct (str_int z).
Qed.

Lemma reads_fmt_dt dt : reads_as (fmt_dt dt) [].
Proof. apply reads_esc. Qed.

(** ** The lines of a card *)

(** A builder that has collected lines with these entities. *)
Definition collects (b : LogBuilder) (es : list md_entity) : Prop := b <> [] /\ reads_as (log_build b) es.

Lemma join_snoc sep b l : b <> [] -> join sep (b ++ [l]) = join sep b ++ sep ++ l.
Proof.
  induction b as [|x b IH]; intros H; [done|]. destruct b as [|y b]; [done|].
  change (join sep ((x :: y :: b) ++ [l])) with (x ++ sep ++ join sep ((y :: b) ++ [l])).
  rewrite IH by done. change (join sep (x :: y :: b)) with (x ++ sep ++ join sep (y :: b)).
  by rewrite <- !app_assoc.
Qed.

Lemma collects_init title : collects (log_init title) [].
Proof.
  split; [done|]. unfold log_build, log_init. simpl. apply (reads_app _ _ [] []); [apply reads_esc|].
  by apply reads_plain.
Qed.

Lemma collects_line b es l fs : collects b es -> reads_as l fs -> collects (b ++ [l]) (es ++ fs).
Proof.
  intros [Hb Hr] Hl. split; [by destruct b|]. unfold log_build. rewrite join_snoc by done.
  apply reads_app; [done|]. apply (reads_app _ _ [] fs); [by apply reads_plain|done].
Qed.

Lemma collects_quiet b es l : collects b es -> reads_as l [] -> collects (b ++ [l]) es.
Proof. intros Hb Hl. rewrite <- (app_nil_r es). by apply collects_line. Qed.

Section steps.
Context (label : ustr) (plain_label : plain_text label = true) (b : LogBuilder) (es : list md_entity)
  (sound : collects b es).

Lemma reads_labelled v fs : reads_as v fs -> reads_as (label ++ u ": " ++ v) fs.
Proof.
  intros Hv. apply (reads_app _ _ [] fs); [by apply reads_plain|].
  apply (reads_app _ _ [] fs); [by apply reads_plain|done].
Qed.

Lemma collects_field value : collects (log_field label value true b) es.
Proof. apply collects_quiet; [done|]. apply reads_labelled, reads_esc. Qed.

Lemma collects_field_raw value fs : reads_as value fs -> collects (log_field label value false b) (es ++ fs).
Proof. intros Hv. apply collects_line; [done|]. by apply reads_labelled. Qed.

Lemma collects_code value : collects (code_field label value b) (es ++ code_entity value).
Proof. apply collects_line; [done|]. apply reads_labelled, reads_code. Qed.

Lemma collects_id z : collects (code_field label (str_int z) b) (es ++ [id_entity z]).
Proof. apply collects_line; [done|]. apply reads_labelled, reads_code_int. Qed.

Lemma collects_mention i n : collects (mention_field label i n b) (es ++ [mention_entity i n]).
Proof. apply collects_line; [done|]. apply reads_labelled, reads_user_ref. Qed.

Lemma collects_link text url : collects (log_link_field label text url b) (es ++ [ELink text url]).
Proof. apply collects_line; [done|]. apply reads_labelled, reads_link. Qed.

Lemma collects_date now ts : collects (date_line now ts label b) es.
Proof. apply collects_quiet; [done|]. apply reads_labelled, reads_fmt_dt. Qed.

Lemma collects_section : collects (section_break b) es.
Proof. by apply collects_quiet, reads_nil. Qed.

Lemma collects_appeal appeal_link :
  collects (appeal_field appeal_link b) (es ++ link_entity (u "View") appeal_link).
Proof.
  destruct appeal_link as [|c l]; simpl.
  - rewrite app_nil_r. apply collects_quiet; [done|]. by apply reads_plain.
  - apply collects_line; [done|]. apply (reads_app _ _ [] _); [by apply reads_plain|].
    apply (reads_app _ _ [] _); [by apply reads_plain|]. apply reads_link.
Qed.
End steps.

Lemma collects_entities b es es' : collects b es -> es = es' -> md_entities (log_build b) = Some es'.
Proof. intros [_ Hr] <-. by apply reads_entities. Qed.

Lemma group_line_reads chat_id chat_title : reads_as (group_line chat_id chat_title) [id_entity chat_id].
Proof.
  unfold group_line. apply (reads_app _ _ [] _); [by apply reads_plain|].
  apply (reads_app _ _ [] _); [apply reads_esc|]. apply (reads_app _ _ [] _); [by apply reads_plain|].
  apply (reads_app _ _ [_] []); [apply reads_code_int|by apply reads_plain].
Qed.

(** A line that mentions a user and adds the id in brackets. *)
Lemma mention_line_reads label i n :
  plain_text label = true ->
  reads_as (label ++ user_ref i n None ++ u " \(ID: " ++ code (str_int i) ++ u "\)") [mention_entity i n; id_entity i].
Proof.
  intros Hl. apply (reads_app _ _ [] _); [by apply reads_plain|].
  apply (reads_app _ _ [_] [_]); [apply reads_user_ref|]. apply (reads_app _ _ [] _); [by apply reads_plain|].
  apply (reads_app _ _ [_] []); [apply reads_code_int|by apply reads_plain].
Qed.

(** ** The line that announces a refused connection

    It writes the chat id outside a code span. *)
Definition rejected_line (chat_id : Z) (chat_title : ustr) : ustr :=
  u "Group: " ++ esc chat_title ++ u " \(ID: " ++ str_int chat_id ++ u "\)".

Lemma plain_digits s : Forall (fun c => 48 <= c <= 57) s -> plain_text s = true.
Proof.
  induction 1 as [|c s Hc _ IH]; [done|]. cbn [plain_text]. rewrite IH.
  replace (c =? c_backslash) with false by (symmetry; apply Z.eqb_neq; unfold c_backslash; lia).
  rewrite andb_true_r. apply negb_true_iff. unfold md_special. simpl.
  rewrite !orb_false_iff, !Z.eqb_neq. unfold c_backslash. lia.
Qed.

Lemma rejected_line_reads chat_id chat_title : 0 <= chat_id -> reads_as (rejected_line chat_id chat_title) [].
Proof.
  intros Hc. apply (reads_app _ _ [] []); [by apply reads_plain|].
  apply (reads_app _ _ [] []); [apply reads_esc|]. apply (reads_app _ _ [] []); [by apply reads_plain|].
  apply (reads_app _ _ [] []); [|by apply reads_plain]. apply reads_plain, plain_digits.
  eapply Forall_impl; [apply str_int_chars|]. simpl. intros c [?|[? _]]; [done|lia].
Qed.

Lemma str_int_neg z : z < 0 -> exists s, str_int z = c_minus :: s.
Proof. intros Hz. destruct z as [|p|p]; try lia. by eexists. Qed.

(** Once a line cannot be read, the card cannot. *)
Definition unreadable (b : LogBuilder) : Prop :=
  b <> [] /\ forall st, sc_mode st = Txt -> scan_run st (log_build b) = None.

Lemma unreadable_line b l : unreadable b -> unreadable (b ++ [l]).
Proof.
  intros [Hb Hn]. split; [by destruct b|]. intros st Hst. unfold log_build. rewrite join_snoc by done.
  rewrite scan_run_app. unfold log_build in Hn. by rewrite Hn.
Qed.

Lemma rejected_unreadable b es chat_id chat_title :
  collects b es -> chat_id < 0 -> unreadable (raw_line (rejected_line chat_id chat_title) b).
Proof.
  intros [Hb Hr] Hc. split; [by destruct b|]. intros [m t v f] Hst. simpl in Hst. subst m.
  unfold log_build, raw_line. rewrite join_snoc by done. rewrite scan_run_app.
  unfold log_build in Hr. destruct (Hr t v f) as (t1 & v1 & ->).
  destruct (str_int_neg _ Hc) as [ds Hds].
  assert (reads_as (line_break ++ u "Group: " ++ esc chat_title ++ u " \(ID: ") []) as Hpre.
  { apply (reads_app _ _ [] []); [by apply reads_plain|]. apply (reads_app _ _ [] []); [by apply reads_plain|].
    apply (reads_app _ _ [] []); [apply reads_esc|by apply reads_plain]. }
  replace (line_break ++ rejected_line chat_id chat_title)
    with ((line_break ++ u "Group: " ++ esc chat_title ++ u " \(ID: ") ++ c_minus :: ds ++ u "\)")
    by (unfold rejected_line; rewrite Hds, <- !app_assoc; reflexivity).
  rewrite scan_run_app. by destruct (Hpre t1 v1 (f ++ es)) as (t2 & v2 & ->).
Qed.

Lemma rejected_card_unreadable community_name now chat_id chat_title owner_id owner_fname st :
  chat_id < 0 -> sc_mode st = Txt ->
  scan_run st (group_connection_rejected_log community_name now chat_id chat_title owner_id owner_fname) = None.
Proof.
  intros Hc. revert st. unfold group_connection_rejected_log. apply unreadable_line.
  do 3 apply unreadable_line. eapply rejected_unreadable; [apply collects_init|done].
Qed.

(** One method call at a time; the labels are closed terms. *)
Ltac card_step :=
  match goal with
  | |- plain_text _ = true => reflexivity
  | |- collects (log_init _) _ => apply collects_init
  | |- collects (section_break _) _ => eapply collects_section
  | |- collects (mention_field _ _ _ _) _ => eapply collects_mention
  | |- collects (code_field _ (str_int _) _) _ => eapply collects_id
  | |- collects (code_field _ _ _) _ => eapply collects_code
  | |- collects (log_field _ _ true _) _ => eapply collects_field
  | |- collects (log_field _ _ false _) _ => eapply collects_field_raw
  | |- collects (log_link_field _ _ _ _) _ => eapply collects_link
  | |- collects (appeal_field _ _) _ => eapply collects_appeal
  | |- collects (date_line _ _ _ _) _ => eapply collects_date
  | |- collects (raw_line _ _) _ => eapply collects_line
  | |- reads_as (group_line _ _) _ => apply group_line_reads
  | |- reads_as (link _ _) _ => apply reads_link
  | |- reads_as (fmt_dt _) _ => apply reads_fmt_dt
  | |- reads_as (u _) _ => by apply reads_plain
  | |- reads_as (u _ ++ user_ref _ _ _ ++ _) _ => by apply mention_line_reads
  | |- reads_as (u _ ++ u ": " ++ user_ref _ _ _) _ => eapply reads_labelled; [reflexivity|apply reads_user_ref]
  | |- reads_as (u _ ++ _) _ => eapply (reads_app _ _ []); [by apply reads_plain|]
  | |- reads_as (esc _) _ => apply reads_esc
  | |- reads_as (rejected_line _ _) _ => by apply rejected_line_reads
  end.
Ltac card :=
  eapply collects_entities; [repeat card_step|rewrite ?app_nil_r, <- ?app_assoc; try reflexivity].

Section theorems.
Context (community_name : ustr) (now : datetime).

(** C35: Every card about a sanction is well-formed MarkdownV2 whatever names,
    reasons, titles and links it is given, and the entities Telegram finds in
    it are exactly the intended ones in order: the mention of the moderator
    and of the target, each opening the profile of the id it is given, their
    identifiers, the reference of the ban; nothing a user or moderator wrote
    becomes a link, a mention or a style. *)
Theorem moderation_cards (target admin old : Z) (tname aname oname reason ban_id dur title : ustr)
    (ts : option datetime) (t0 : datetime) (lnk rsn : option ustr) (chat n lim : Z) :
  let who := mention_entity target tname in
  let by_ := mention_entity admin aname in
  let id := id_entity target in
  md_entities (ban_log community_name now target tname admin aname reason ban_id ts)
    = Some ([by_; who; id] ++ code_entity ban_id)
  /\ md_entities (ban_update_log community_name now target tname admin aname old oname reason ban_id t0)
    = Some ([by_; mention_entity old oname; who; id] ++ code_entity ban_id)
  /\ md_entities (proof_caption_new now target admin aname t0) = Some [by_; id_entity admin]
  /\ md_entities (proof_caption_update now target admin aname t0 lnk)
    = Some ([by_; id_entity admin] ++ from_option (link_entity (u "Click Here")) [] lnk)
  /\ md_entities (mute_log community_name now target tname admin aname reason dur) = Some [by_; who; id]
  /\ md_entities (unmute_log community_name now target tname admin aname) = Some [by_; who; id]
  /\ md_entities (kick_log community_name now target tname admin aname reason chat title)
    = Some [by_; who; id; id_entity chat]
  /\ md_entities (resetwarns_log community_name now target tname admin aname n chat title)
    = Some [by_; who; id; id_entity chat]
  /\ md_entities (warn_log community_name now target tname admin aname reason n lim chat title)
    = Some [by_; who; id; id_entity chat]
  /\ md_entities (unwarn_log_card community_name now target tname admin aname n lim chat title)
    = Some [by_; who; id; id_entity chat]
  /\ md_entities (unban_log community_name now target tname admin aname ban_id rsn)
    = Some ([by_; who; id] ++ code_entity ban_id).
Proof.
  intros who by_ id.
  repeat split; unfold ban_log, ban_update_log, proof_caption_new, proof_caption_update, mute_log, unmute_log,
    kick_log, resetwarns_log, warn_log, unwarn_log_card, unban_log; try solve [card].
  - destruct lnk as [[|c l]|]; card.
  - destruct rsn as [[|c r]|]; card.
Qed.

(** The cards of appeals, roles and groups are read the same way: well formed,
    with exactly the entities meant, a username as a link only when it has
    the shape of one.  One card is the exception: a refused connection shows
    its chat id unescaped, and is read only when that id has no sign. *)
Theorem federation_cards (target admin : Z) (tname aname title ban_id lnk preview : ustr) (role : string)
    (username : option ustr) (submitted : option datetime) (chat ok failed : Z) :
  let who := mention_entity target tname in
  let by_ := mention_entity admin aname in
  let id := id_entity target in
  let aid := id_entity admin in
  let ref := code_entity ban_id in
  let view := link_entity (u "View") lnk in
  md_entities (appeal_received_log community_name now target tname ban_id lnk) = Some ([who; id] ++ ref ++ view)
  /\ md_entities (appeal_submitted_log community_name now target tname ban_id lnk) = Some ([who; id] ++ ref ++ view)
  /\ md_entities (appeal_approved_edit community_name now target tname admin aname ban_id lnk submitted)
    = Some ([who; id] ++ ref ++ view ++ [by_])
  /\ md_entities (appeal_rejected_edit community_name now target tname admin aname ban_id lnk submitted)
    = Some ([who; id] ++ ref ++ view ++ [by_])
  /\ md_entities (appeal_unban_log community_name now target tname admin aname ban_id) = Some ([by_; who; id] ++ ref)
  /\ md_entities (promoted_log community_name now target tname role admin aname) = Some [who; id; by_; aid]
  /\ md_entities (demoted_log community_name now target tname role admin aname) = Some [who; id; by_; aid]
  /\ md_entities (ownership_transferred community_name now target tname admin aname) = Some [who; id; by_; aid]
  /\ md_entities (promote_request_log community_name now target tname username ban_id) = Some ([who; id] ++ ref)
  /\ md_entities (promote_approved_log community_name now target tname admin aname ban_id)
    = Some ([who; id; by_; aid] ++ ref)
  /\ md_entities (promote_rejected_log community_name now target tname admin aname ban_id)
    = Some ([who; id; by_; aid] ++ ref)
  /\ md_entities (group_connected_log community_name now chat title admin aname username)
    = Some (from_option (fun n => [ELink title (u "https://t.me/" ++ n)]) [] (safe_username username)
            ++ [id_entity chat; by_; aid])
  /\ md_entities (group_connection_rejected_log community_name now chat title admin aname)
    = (if chat <? 0 then None else Some [by_; aid])
  /\ md_entities (group_disconnected_log community_name now chat title admin aname)
    = Some [id_entity chat; by_; aid]
  /\ md_entities (group_bot_removed_log community_name now chat title) = Some [id_entity chat]
  /\ md_entities (broadcast_log community_name now admin aname preview ok failed) = Some [by_].
Proof.
  intros who by_ id aid ref view.
  repeat split; unfold appeal_received_log, appeal_submitted_log, appeal_approved_edit, appeal_rejected_edit,
    _appeal_decision_edit, appeal_unban_log, promoted_log, demoted_log, ownership_transferred,
    promote_request_log, promote_approved_log, promote_rejected_log, group_connected_log,
    group_connection_rejected_log, group_disconnected_log, group_bot_removed_log, broadcast_log;
    try solve [card].
  - destruct submitted; card.
  - destruct submitted; card.
  - destruct (safe_username username); card.
  - change (u "Group: " ++ esc title ++ u " \(ID: " ++ str_int chat ++ u "\)") with (rejected_line chat title).
    destruct (Z.ltb_spec chat 0).
    + unfold md_entities. by rewrite (rejected_card_unreadable community_name now chat title admin aname).
    + card.
Qed.

(** A refused connection of a real group or supergroup, whose id is negative,
    is a message Telegram cannot parse: the card is never delivered. *)
Theorem rejected_card_malformed (chat : Z) (title : ustr) (admin : Z) (aname : ustr) : chat < 0 ->
  ~ md_wf (group_connection_rejected_log community_name now chat title admin aname).
Proof.
  intros Hc Hwf.
  pose proof (scan_mode {| sc_mode := Txt; sc_text := []; sc_url := []; sc_found := [] |}
    (group_connection_rejected_log community_name now chat title admin aname)) as Hm.
  by rewrite (rejected_card_unreadable _ _ _ _ _ _ _ Hc), Hwf in Hm.
Qed.
End theorems.

(** [fmt_dt] shows the fields as they stand: of an aware date it shows the
    local time, although it is said to show UTC. *)
Theorem local_time_shown (dt : datetime) (offset : option Z) :
  fmt_dt {| dt_year := dt_year dt; dt_month := dt_month dt; dt_day := dt_day dt; dt_hour := dt_hour dt;
            dt_minute := dt_minute dt; dt_offset := offset |} = fmt_dt dt.
Proof. unfold fmt_dt. by destruct dt as [? ? ? ? ? []], offset. Qed.
