(* ===== verification/Settings.v ===== *)
(** [tcbot/config/]: the environment read into settings.  The environment is
    the answer of [os.getenv] for every name, after the env file is loaded;
    [ast.literal_eval] and the random token are parameters. *)

From S2P Require Import Prelude Text Prog World Prefixes.

Open Scope result_scope.

(** What [literal_eval] answers: the [str] of every item of a list, or that
    the value is something else. *)
Inductive literal_value : Type := LList (items : list ustr) | LOther.

Definition _DEFAULT_PORT : Z := 5000.
Definition _ERR_OWNER_ID : string := "OWNER_ID is required and must be a positive integer.".
Definition _DEFAULT_COMMUNITY_CHANNEL_URL : ustr := u "https://t.me/TranssionCoreFederation".
Definition _DEFAULT_COMMUNITY_GROUP_URL : ustr := u "https://t.me/TranssionCoreFederationGroup".
Definition _DEFAULT_COMMUNITY_LOGS_URL : ustr := u "https://t.me/TranssionCoreFederationLogs".
Definition _DEFAULT_COMMUNITY_EXEC_URL : ustr := u "https://t.me/+A105pfnCvkhiZWM1".
Definition _DEFAULT_COMMUNITY_TRAVEL_URL : ustr := u "https://t.me/+S2C_ppFvHlAwMzNl".

(** [s.split(sep)] for a separator of one character. *)
Fixpoint split_all (sep : Z) (s : ustr) : list ustr :=
  match s with
  | [] => [[]]
  | c :: s' =>
      match split_all sep s' with
      | h :: t => if c =? sep then [] :: h :: t else (c :: h) :: t
      | [] => [[c]]
      end
  end.

(** The levels of [logging]. *)
Definition LOG_LEVELS : list (string * Z) :=
  [("CRITICAL", 50); ("FATAL", 50); ("ERROR", 40); ("WARNING", 30); ("WARN", 30); ("INFO", 20); ("DEBUG", 10);
   ("NOTSET", 0)]%string.

Definition filled (s : ustr) : bool := match s with [] => false | _ => true end.

(** [["/", "!", "."]] as text: brackets 91 and 93, quotes 34, comma 44. *)
Definition DEFAULT_PREFIXES_TEXT : ustr := [91; 34; 47; 34; 44; 32; 34; 33; 34; 44; 32; 34; 46; 34; 93].

Definition default_of (d s : ustr) : ustr := match s with [] => d | _ => s end.

(** * models.py: the settings *)
Record Configs := {
  bot_token : ustr; c_owner_id : Z; mongodb_uri : ustr; db_name : ustr; c_community_name : ustr;
  c_prefixes : list ustr; port : ustr; main_group : ustr; main_channel : ustr; proofs : ustr; logs : ustr;
  logs_errors : ustr; appeals : ustr; appeal_log_handle : ustr; appeal_discussion_topic : Z; extend_group : ustr;
  album_debounce_seconds : Z; log_level : Z; modules_load : list ustr; modules_no_load : list ustr;
  redis_url : option ustr; warn_expiry_days : Z; sync_interval_hours : Z; fed_warn_limit : Z; c_warn_limit : Z;
  webhook_url : ustr; webhook_secret : ustr; webhook_secret_explicit : ustr; c_cron_secret : ustr;
  community_channel_url : ustr; community_group_url : ustr; community_logs_url : ustr;
  community_exec_url : ustr; community_travel_url : ustr; api_id : Z; api_hash : ustr; mtproto_session : ustr }.

Section settings.
Context {UCD_ : UCD} (literal_eval : ustr -> result literal_value) (token_hex : ustr).

(** * parsing.py *)
Definition csv_items (raw : ustr) : list ustr :=
  let bracket c := (c =? ch "[") || (c =? ch "]") in
  let quote c := (c =? 39) || (c =? 34) in
  map (fun item => strip quote (strip_ws item))
    (List.filter (fun item => filled (strip_ws item)) (split_all (ch ",") (strip bracket raw))).

Definition is_SyntaxError (e : exn) : bool :=
  match e with OtherException n => String.eqb n "SyntaxError" | _ => false end.
Definition is_ValueError (e : exn) : bool := match e with ValueError _ => true | _ => false end.

Definition parse_list (raw : ustr) : result (list ustr) :=
  if negb (filled (strip_ws raw)) then Ok []
  else
    match literal_eval raw with
    | Ok (LList parsed) => Ok (map strip_ws parsed)
    | Ok LOther => Ok (csv_items raw)
    | Err e => if is_ValueError e || is_SyntaxError e then Ok (csv_items raw) else Err e
    end.

Definition parse_port (port_str : ustr) : Z :=
  if negb (filled port_str) || ueqb (str_lower port_str) (u "auto") then _DEFAULT_PORT
  else
    match py_int port_str with
    | None => _DEFAULT_PORT
    | Some port => if (1 <=? port) && (port <=? 65535) then port else _DEFAULT_PORT
    end.

Definition parse_chat_id (raw : ustr) : Z * option Z :=
  match raw with
  | [] => (0, None)
  | _ =>
      let '(chat_str, found, thread_str) := partition1 c_slash raw in
      if found : bool then
        match py_int chat_str, py_int thread_str with
        | Some c, Some t => (c, Some t)
        | _, _ => (0, None)
        end
      else match py_int raw with Some c => (c, None) | None => (0, None) end
  end.

Section environment.
Context (getenv : string -> option ustr).

Definition env_or (key : string) (default : ustr) : ustr :=
  match getenv key with Some v => v | None => default end.

Definition _owner_id_from_env : result Z :=
  match getenv "OWNER_ID" with
  | None => Err (RuntimeError _ERR_OWNER_ID)
  | Some raw =>
      if negb (filled (strip_ws raw)) then Err (RuntimeError _ERR_OWNER_ID)
      else
        match py_int (strip_ws raw) with
        | None => Err (RuntimeError _ERR_OWNER_ID)
        | Some owner_id => if owner_id <=? 0 then Err (RuntimeError _ERR_OWNER_ID) else Ok owner_id
        end
  end.

Definition _required_env (key : string) : result ustr :=
  let value := strip_ws (env_or key []) in
  match value with
  | [] => Err (RuntimeError (key ++ " is required but not set.")%string)
  | _ => Ok value
  end.

Definition _int_from_env (key : string) (default : Z) (minimum : option Z) : Z :=
  match py_int (env_or key (str_int default)) with
  | None => default
  | Some value =>
      match minimum with
      | Some m => if value <? m then default else value
      | None => value
      end
  end.

Definition _env_list (key : string) : result (list ustr) := parse_list (env_or key []).

Definition _parse_log_level (raw : ustr) : Z :=
  match List.find (fun e => ueqb (u (fst e)) (str_upper (strip_ws raw))) LOG_LEVELS with
  | Some (_, level) => level
  | None => 20
  end.

Definition _auto_webhook_url : ustr :=
  let explicit := strip_ws (env_or "WEBHOOK_URL" []) in
  match explicit with
  | _ :: _ => rstrip (Z.eqb c_slash) explicit
  | [] =>
      match strip_ws (env_or "REPLIT_DEV_DOMAIN" []) with
      | [] => []
      | replit_domain => u "https://" ++ replit_domain
      end
  end.

Definition _resolve_webhook_secret : ustr :=
  match strip_ws (env_or "WEBHOOK_SECRET" []) with
  | [] => token_hex
  | explicit => explicit
  end.

Definition env_text (key : string) : ustr := strip_ws (env_or key []).

Definition load : result Configs :=
  token <~ _required_env "BOT_TOKEN" ;;
  uri <~ _required_env "MONGODB_URI" ;;
  owner <~ _owner_id_from_env ;;
  parsed <~ parse_list (env_or "PREFIXES" DEFAULT_PREFIXES_TEXT) ;;
  let prefixes := match parsed with [] => [u "/"; u "!"; u "."] | _ => parsed end in
  let db := default_of (u "tcbot") (strip_ws (env_or "DB_NAME" (u "tcbot"))) in
  only <~ _env_list "MODULES_LOAD" ;;
  skipped <~ _env_list "MODULES_NO_LOAD" ;;
  Ok {| bot_token := token;
        c_owner_id := owner;
        mongodb_uri := uri;
        db_name := db;
        c_community_name := default_of (u "Bot") (strip_ws (env_or "COMMUNITY_NAME" (u "Bot")));
        c_prefixes := prefixes;
        port := strip_ws (env_or "PORT" (str_int _DEFAULT_PORT));
        main_group := env_text "MAIN_GROUP";
        main_channel := env_text "MAIN_CHANNEL";
        proofs := env_text "PROOFS";
        logs := env_text "LOGS";
        logs_errors := env_text "LOGS_ERRORS";
        appeals := env_text "APPEALS";
        appeal_log_handle := default_of (u "@TranssionCoreFederationLogs")
          (strip_ws (env_or "APPEAL_LOG_HANDLE" (u "@TranssionCoreFederationLogs")));
        appeal_discussion_topic := _int_from_env "APPEAL_DISCUSSION_TOPIC" 0 (Some 0);
        extend_group := env_text "EXTEND_GROUP";
        album_debounce_seconds := _int_from_env "ALBUM_DEBOUNCE_SECONDS" 4 (Some 1);
        log_level := _parse_log_level (env_or "LOG_LEVEL" (u "INFO"));
        modules_load := only;
        modules_no_load := skipped;
        redis_url := match env_text "REDIS_URL" with [] => None | url => Some url end;
        warn_expiry_days := _int_from_env "WARN_EXPIRY_DAYS" 0 (Some 0);
        sync_interval_hours := _int_from_env "SYNC_INTERVAL_HOURS" 0 (Some 0);
        fed_warn_limit := _int_from_env "FED_WARN_LIMIT" 0 (Some 0);
        c_warn_limit := _int_from_env "WARN_LIMIT" 3 (Some 1);
        webhook_url := _auto_webhook_url;
        webhook_secret := _resolve_webhook_secret;
        webhook_secret_explicit := env_text "WEBHOOK_SECRET";
        c_cron_secret := env_text "CRON_SECRET";
        community_channel_url := default_of _DEFAULT_COMMUNITY_CHANNEL_URL
          (strip_ws (env_or "COMMUNITY_CHANNEL_URL" _DEFAULT_COMMUNITY_CHANNEL_URL));
        community_group_url := default_of _DEFAULT_COMMUNITY_GROUP_URL
          (strip_ws (env_or "COMMUNITY_GROUP_URL" _DEFAULT_COMMUNITY_GROUP_URL));
        community_logs_url := default_of _DEFAULT_COMMUNITY_LOGS_URL
          (strip_ws (env_or "COMMUNITY_LOGS_URL" _DEFAULT_COMMUNITY_LOGS_URL));
        community_exec_url := default_of _DEFAULT_COMMUNITY_EXEC_URL
          (strip_ws (env_or "COMMUNITY_EXEC_URL" _DEFAULT_COMMUNITY_EXEC_URL));
        community_travel_url := default_of _DEFAULT_COMMUNITY_TRAVEL_URL
          (strip_ws (env_or "COMMUNITY_TRAVEL_URL" _DEFAULT_COMMUNITY_TRAVEL_URL));
        api_id := _int_from_env "API_ID" 0 (Some 0);
        api_hash := env_text "API_HASH";
        mtproto_session := default_of (u "tcbot_mtproto") (strip_ws (env_or "MTPROTO_SESSION" (u "tcbot_mtproto"))) |}.
End environment.

(** ** The properties that cast *)

(** [int(raw) if raw else 0], and 0 for no number. *)
Definition int_or_zero (raw : ustr) : Z :=
  match raw with
  | [] => 0
  | _ => match py_int raw with Some z => z | None => 0 end
  end.

Definition port_int (c : Configs) : Z := parse_port (port c).
Definition main_group_id (c : Configs) : Z := int_or_zero (main_group c).
Definition main_channel_id (c : Configs) : Z := int_or_zero (main_channel c).
Definition extend_group_id (c : Configs) : Z := int_or_zero (extend_group c).
Definition logs_tuple (c : Configs) : Z * option Z := parse_chat_id (logs c).
Definition proofs_id (c : Configs) : Z * option Z := parse_chat_id (proofs c).
Definition logs_errors_id (c : Configs) : Z * option Z := parse_chat_id (logs_errors c).
Definition appeals_id (c : Configs) : Z * option Z := parse_chat_id (appeals c).

(** * adapter.py *)
Definition mtproto_enabled (c : Configs) : bool := (0 <? api_id c) && filled (api_hash c).
Definition is_webhook_mode (c : Configs) : bool := filled (webhook_url c).

(** The names the modules read, for the record the other files take. *)
Definition _CfgAdapter (c : Configs) : config := {|
  cfg_warn_limit := c_warn_limit c;
  cfg_fed_warn_limit := fed_warn_limit c;
  cfg_logs := logs_tuple c;
  cfg_proofs := proofs_id c;
  cfg_main_group := main_group_id c;
  cfg_exec_group := extend_group_id c;
  cfg_community_name := s_of (c_community_name c);
  cfg_appeals := appeals_id c;
  cfg_appeal_log_handle := s_of (appeal_log_handle c);
  cfg_appeal_discussion_topic := appeal_discussion_topic c;
  cfg_mtproto_enabled := mtproto_enabled c;
  cfg_mtproto_session := s_of (mtproto_session c) |}.

(** * Lemmas *)
Lemma filled_default d s : filled d = true -> filled (default_of d s) = true.
Proof. by destruct s. Qed.

Lemma parse_port_range s : 1 <= parse_port s <= 65535.
Proof.
  unfold parse_port, _DEFAULT_PORT. destruct (_ || _); [lia|]. destruct (py_int s) as [p|]; [|lia].
  destruct (_ && _) eqn:H; [|lia]. to_prop. lia.
Qed.

Lemma int_from_env_bound getenv key d m : m <= d -> m <= _int_from_env getenv key d (Some m).
Proof.
  intros Hd. unfold _int_from_env. destruct (py_int _) as [v|]; [|done]. destruct (Z.ltb_spec v m); lia.
Qed.

Lemma required_filled getenv key v : _required_env getenv key = Ok v -> filled v = true.
Proof. unfold _required_env. destruct (strip_ws _) eqn:H; [done|]. intros [= <-]. done. Qed.

Lemma owner_positive getenv z : _owner_id_from_env getenv = Ok z -> 0 < z.
Proof.
  unfold _owner_id_from_env. destruct (getenv _) as [raw|]; [|done]. destruct (negb _); [done|].
  destruct (py_int _) as [o|]; [|done]. destruct (Z.leb_spec o 0); [done|]. intros [= <-]. done.
Qed.

Lemma owner_refused getenv e : _owner_id_from_env getenv = Err e ->
  e = RuntimeError _ERR_OWNER_ID /\
  (~ exists raw z, getenv "OWNER_ID" = Some raw /\ py_int (strip_ws raw) = Some z /\ 0 < z).
Proof.
  unfold _owner_id_from_env. destruct (getenv "OWNER_ID") as [raw|].
  - destruct (strip_ws raw) as [|x s] eqn:Hs; simpl.
    + intros [= <-]. split; [done|]. intros (r & z & [= <-] & Hz & _). by rewrite Hs in Hz.
    + destruct (py_int (x :: s)) as [o|] eqn:Ho.
      * destruct (Z.leb_spec o 0); [|done]. intros [= <-]. split; [done|].
        intros (r & z & [= <-] & Hz & ?). rewrite Hs, Ho in Hz. injection Hz as <-. lia.
      * intros [= <-]. split; [done|]. intros (r & z & [= <-] & Hz & _). by rewrite Hs, Ho in Hz.
  - intros [= <-]. split; [done|]. by intros (r & z & ? & _).
Qed.

Lemma parse_list_err raw e : parse_list raw = Err e ->
  strip_ws raw <> [] /\ literal_eval raw = Err e /\ is_ValueError e || is_SyntaxError e = false.
Proof.
  unfold parse_list. destruct (strip_ws raw); [done|]. simpl. destruct (literal_eval raw) as [[]|e'] eqn:H; try done.
  destruct (is_ValueError e' || is_SyntaxError e') eqn:He; [done|]. by intros [= <-].
Qed.

(** * What the settings promise *)
Record valid (c : Configs) : Prop := {
  v_token : filled (bot_token c) = true;
  v_uri : filled (mongodb_uri c) = true;
  v_owner : 0 < c_owner_id c;
  v_names : Forall (fun s => filled s = true) [db_name c; c_community_name c; appeal_log_handle c; mtproto_session c];
  v_urls : Forall (fun s => filled s = true)
    [community_channel_url c; community_group_url c; community_logs_url c; community_exec_url c; community_travel_url c];
  v_prefixes : c_prefixes c <> [];
  v_port : 1 <= port_int c <= 65535;
  v_limits : 1 <= c_warn_limit c /\ 0 <= fed_warn_limit c /\ 1 <= album_debounce_seconds c;
  v_periods : 0 <= warn_expiry_days c /\ 0 <= sync_interval_hours c;
  v_ids : 0 <= appeal_discussion_topic c /\ 0 <= api_id c;
  v_secret : filled (webhook_secret c) = true /\
    (webhook_secret_explicit c <> [] -> webhook_secret c = webhook_secret_explicit c);
  v_redis : redis_url c <> Some [] }.

Section environment.
Context (getenv : string -> option ustr).

(** C36: Settings that load are in their ranges, whatever the environment
    holds: token, database address and owner are there, the owner's id is
    positive, the port is a port, the warn limit and the debounce are at least
    one and no period or limit is negative, every text with a default is not
    empty, the webhook always has a secret, and it is the configured one when
    there is one. *)
Theorem settings_valid (c : Configs) :
  filled token_hex = true -> load getenv = Ok c -> valid c.
Proof.
  intros Ht Hl. unfold load in Hl.
  apply rbind_Ok in Hl as (tok & Htok & Hl). apply rbind_Ok in Hl as (uri & Huri & Hl).
  apply rbind_Ok in Hl as (own & Hown & Hl). apply rbind_Ok in Hl as (pre & _ & Hl). cbv zeta in Hl.
  apply rbind_Ok in Hl as (only & _ & Hl). apply rbind_Ok in Hl as (sk & _ & Hl). injection Hl as <-.
  split; simpl; try apply parse_port_range; repeat split; repeat constructor;
    eauto using required_filled, owner_positive, filled_default; try (apply int_from_env_bound; lia).
  - by destruct pre.
  - unfold _resolve_webhook_secret. by destruct (strip_ws _) eqn:E.
  - unfold _resolve_webhook_secret, env_text. by destruct (strip_ws _).
  - by destruct (env_text getenv "REDIS_URL").
Qed.

(** Loading fails only for a reason it names: a required variable is missing,
    the owner's id is not a positive integer, or a list variable makes the
    literal parser raise something other than the two errors it is guarded
    against. *)
Theorem load_errors (e : exn) : load getenv = Err e ->
  (exists key, In key ["BOT_TOKEN"; "MONGODB_URI"]%string /\ env_text getenv key = [] /\
    e = RuntimeError (key ++ " is required but not set.")%string)
  \/ e = RuntimeError _ERR_OWNER_ID /\
     (~ exists raw z, getenv "OWNER_ID" = Some raw /\ py_int (strip_ws raw) = Some z /\ 0 < z)
  \/ exists key raw, In key ["PREFIXES"; "MODULES_LOAD"; "MODULES_NO_LOAD"]%string /\
       (getenv key = Some raw \/ raw = DEFAULT_PREFIXES_TEXT) /\
       literal_eval raw = Err e /\ is_ValueError e || is_SyntaxError e = false.
Proof.
  assert (forall key, _required_env getenv key = Err e ->
    env_text getenv key = [] /\ e = RuntimeError (key ++ " is required but not set.")%string) as Hreq.
  { intros key. unfold _required_env, env_text. destruct (strip_ws _); [|done]. by intros [= <-]. }
  assert (forall key d, (d = [] \/ d = DEFAULT_PREFIXES_TEXT) -> parse_list (env_or getenv key d) = Err e ->
    exists raw, (getenv key = Some raw \/ raw = DEFAULT_PREFIXES_TEXT) /\ literal_eval raw = Err e /\
      is_ValueError e || is_SyntaxError e = false) as Hlist.
  { intros key d Hd. unfold env_or. destruct (getenv key) as [raw|]; intros H; apply parse_list_err in H as [Hne H].
    - eauto.
    - destruct Hd as [-> | ->]; [done|eauto]. }
  unfold load. intros [H|(tok & _ & H)]%rbind_Err.
  { left. destruct (Hreq _ H). exists "BOT_TOKEN"%string. simpl. auto. }
  apply rbind_Err in H as [H|(uri & _ & H)].
  { left. destruct (Hreq _ H). exists "MONGODB_URI"%string. simpl. auto. }
  right. apply rbind_Err in H as [H|(own & _ & H)]; [left; by apply owner_refused|right].
  apply rbind_Err in H as [H|(pre & _ & H)]; cbv zeta in *.
  { apply Hlist in H as (raw & H); [|auto]. exists "PREFIXES"%string, raw. simpl. tauto. }
  apply rbind_Err in H as [H|(only & _ & H)].
  { apply Hlist in H as (raw & H); [|auto]. exists "MODULES_LOAD"%string, raw. simpl. tauto. }
  apply rbind_Err in H as [H|(sk & _ & H)]; [|done].
  apply Hlist in H as (raw & H); [|auto]. exists "MODULES_NO_LOAD"%string, raw. simpl. tauto.
Qed.

(** A list of blank prefixes is a list, so the default does not replace it,
    and the filters drop every one of them: no message is a command. *)
Theorem blank_prefixes_deafen (c : Configs) (raw : ustr) (ps : list ustr) (bot text : option ustr) :
  load getenv = Ok c -> getenv "PREFIXES" = Some raw -> parse_list raw = Ok ps ->
  ps <> [] -> Forall (fun p => strip_ws p = []) ps ->
  any_command_filter (_get_prefixes (c_prefixes c)) bot text = false.
Proof.
  intros Hl Hg Hp Hne Hb. unfold load in Hl.
  apply rbind_Ok in Hl as (tok & _ & Hl). apply rbind_Ok in Hl as (uri & _ & Hl).
  apply rbind_Ok in Hl as (own & _ & Hl). apply rbind_Ok in Hl as (pre & Hpre & Hl). cbv zeta in Hl.
  apply rbind_Ok in Hl as (only & _ & Hl). apply rbind_Ok in Hl as (sk & _ & Hl). injection Hl as <-.
  unfold env_or in Hpre. rewrite Hg, Hp in Hpre. injection Hpre as <-. simpl.
  destruct ps as [|p ps]; [done|].
  assert (_get_prefixes (p :: ps) = []) as ->.
  { clear Hp Hne. unfold _get_prefixes. change (List.filter (fun p => nonempty p && nonempty (strip_ws p)) (p :: ps) = []).
    induction Hb as [|q qs Hq _ IH]; [done|]. simpl. rewrite Hq, andb_false_r. exact IH. }
  unfold any_command_filter, parse_message, _parse_prefixed_command. by destruct text.
Qed.
End environment.

(** * Round trips *)

Lemma str_int_no_slash z : Forall (fun c => c <> c_slash) (str_int z).
Proof. eapply Forall_impl; [apply str_int_chars|]. unfold c_slash, c_minus, ch. simpl. intros c ?. lia. Qed.

Lemma str_int_head z : exists c s, str_int z = c :: s /\ (48 <= c <= 57 \/ c = c_minus).
Proof.
  pose proof (str_int_chars z) as H. pose proof (str_int_nonnil z). destruct (str_int z) as [|c s]; [done|].
  inversion H; subst. exists c, s. split; [done|]. tauto.
Qed.

(** A port written as a number in its range is that port. *)
Theorem port_roundtrip p : 1 <= p <= 65535 -> parse_port (str_int p) = p.
Proof.
  intros Hp. unfold parse_port. destruct (str_int_head p) as (c & s & He & Hc).
  assert (ueqb (str_lower (str_int p)) (u "auto") = false) as ->.
  { apply bool_decide_eq_false_2. rewrite He. unfold str_lower. simpl. rewrite lower_ascii.
    - unfold ascii_lower, ascii_upper_letter, c_minus, ch in *. simpl in *.
      destruct (_ && _) eqn:E; to_prop; intros [= ? ?]; lia.
    - unfold c_minus, ch in Hc. simpl in Hc. lia. }
  rewrite He at 1. simpl. rewrite py_int_str_int.
  destruct (_ && _) eqn:E; [done|]. apply andb_false_iff in E as [E|E]; to_prop; lia.
Qed.

(** A destination is read as it is written: a chat, or a chat and a topic. *)
Theorem chat_id_roundtrip chat thread :
  parse_chat_id (str_int chat) = (chat, None) /\
  parse_chat_id (str_int chat ++ u "/" ++ str_int thread) = (chat, Some thread).
Proof.
  unfold parse_chat_id. destruct (str_int_head chat) as (c & s & He & _). split.
  - rewrite (partition1_none _ _ (str_int_no_slash chat)), py_int_str_int. by rewrite He.
  - change (u "/" ++ str_int thread) with (c_slash :: str_int thread).
    rewrite (partition1_app _ _ _ (str_int_no_slash chat)), !py_int_str_int. by rewrite He.
Qed.

(** An integer variable in its range is read as it is written; a text that is
    no number, or a number out of range, gives the default. *)
Theorem int_from_env_spec getenv key d m z :
  (getenv key = Some (str_int z) -> m <= z -> _int_from_env getenv key d (Some m) = z) /\
  (getenv key = Some (str_int z) -> z < m -> _int_from_env getenv key d (Some m) = d) /\
  (getenv key = None -> m <= d -> _int_from_env getenv key d (Some m) = d).
Proof.
  unfold _int_from_env, env_or. repeat split; intros -> H; rewrite py_int_str_int.
  - by destruct (Z.ltb_spec z m); [lia|].
  - by destruct (Z.ltb_spec z m); [|lia].
  - by destruct (Z.ltb_spec d m); [lia|].
Qed.

(** ** Lists written with commas *)
Definition csv_char (c : Z) : Prop :=
  c < 128 /\ ascii_space c = false /\ ~ In c [ch ","; ch "["; ch "]"; 39; 34].
Definition csv_item (s : ustr) : Prop := s <> [] /\ Forall csv_char s.

Lemma split_all_none sep s : Forall (fun c => c <> sep) s -> split_all sep s = [s].
Proof.
  induction 1 as [|c s Hc _ IH]; [done|]. simpl. rewrite IH. by rewrite (proj2 (Z.eqb_neq _ _) Hc).
Qed.

Lemma split_all_app sep s t : Forall (fun c => c <> sep) s -> split_all sep (s ++ sep :: t) = s :: split_all sep t.
Proof.
  induction 1 as [|c s Hc _ IH]; simpl.
  - rewrite Z.eqb_refl. destruct (split_all sep t) eqn:E; [|done].
    exfalso. revert E. clear. destruct t as [|x t]; simpl; [done|]. destruct (split_all sep t); [done|].
    by destruct (x =? sep).
  - rewrite IH. by rewrite (proj2 (Z.eqb_neq _ _) Hc).
Qed.

Lemma split_all_join sep items : items <> [] -> Forall (Forall (fun c => c <> sep)) items ->
  split_all sep (join [sep] items) = items.
Proof.
  intros Hne H. induction H as [|s items Hs _ IH]; [done|]. destruct items as [|t items].
  - by apply split_all_none.
  - change (join [sep] (s :: t :: items)) with (s ++ sep :: join [sep] (t :: items)).
    by rewrite split_all_app, IH.
Qed.

Lemma Forall_join (P : Z -> Prop) sep items : Forall P sep -> Forall (Forall P) items -> Forall P (join sep items).
Proof.
  intros Hsep H. induction H as [|s items Hs _ IH]; [constructor|]. destruct items as [|t items]; [done|].
  change (join sep (s :: t :: items)) with (s ++ sep ++ join sep (t :: items)).
  rewrite !Forall_app. auto.
Qed.

Lemma csv_item_stripped s : csv_item s -> strip_ws s = s.
Proof.
  intros [_ H]. apply strip_none. eapply Forall_impl; [exact H|].
  intros c (Hc & Hs & _). simpl. by rewrite is_space_ascii.
Qed.

Lemma strip_ws_head c r : is_space c = false -> strip_ws (c :: r) <> [].
Proof.
  intros Hc. unfold strip_ws, strip, lstrip, rstrip. simpl. rewrite Hc.
  intros H%(f_equal (@rev Z)). rewrite rev_involutive in H. simpl in H. revert H.
  induction (rev r) as [|x l IH]; simpl; [by rewrite Hc|]. by destruct (is_space x).
Qed.

(** Names separated by commas are read as those names, when the text is no
    Python literal; so is a list the parser accepts, its items stripped. *)
Theorem csv_roundtrip items :
  items <> [] -> Forall csv_item items ->
  (literal_eval (join (u ",") items) = Ok LOther
   \/ exists e, literal_eval (join (u ",") items) = Err e /\ is_ValueError e || is_SyntaxError e = true) ->
  parse_list (join (u ",") items) = Ok items.
Proof.
  intros Hne Hi Hl. unfold parse_list.
  assert (Forall (Forall csv_char) items) as Hc by (eapply Forall_impl; [exact Hi|]; by intros s [_ ?]).
  assert (csv_items (join (u ",") items) = items) as Hcsv.
  { unfold csv_items. rewrite strip_none.
    - change (u ",") with [ch ","]. rewrite split_all_join; [|done|].
      + assert (forall l, Forall csv_item l ->
          map (fun item => strip (fun c => (c =? 39) || (c =? 34)) (strip_ws item))
            (List.filter (fun item => filled (strip_ws item)) l) = l) as H; [|by apply H].
        clear Hne Hi Hl Hc items. intros l H. induction H as [|s l Hs _ IH]; [done|]. simpl.
        rewrite csv_item_stripped by done. destruct Hs as [Hs Hcs].
        assert (filled s = true) as -> by (by destruct s). simpl. rewrite IH. f_equal.
        rewrite csv_item_stripped by (by split). apply strip_none.
        eapply Forall_impl; [exact Hcs|]. intros c (_ & _ & Hn). simpl in Hn.
        apply orb_false_iff. rewrite !Z.eqb_neq. split; intros ->; apply Hn; tauto.
      + eapply Forall_impl; [exact Hc|]. intros s Hs. eapply Forall_impl; [exact Hs|].
        intros c (_ & _ & Hn) ->. apply Hn. simpl. auto.
    - apply Forall_join; [by repeat constructor|]. eapply Forall_impl; [exact Hc|].
      intros s Hs. eapply Forall_impl; [exact Hs|]. intros c (_ & _ & Hn). simpl in Hn.
      apply orb_false_iff. rewrite !Z.eqb_neq. split; intros ->; apply Hn; tauto. }
  assert (negb (filled (strip_ws (join (u ",") items))) = false) as ->.
  { destruct items as [|it items]; [done|]. inversion Hi as [|? ? [Hit Hcs] _]; subst.
    destruct it as [|c it]; [done|]. inversion Hcs as [|? ? (Hlt & Hsp & _) _]; subst.
    assert (exists r, join (u ",") ((c :: it) :: items) = c :: r) as [r ->] by (destruct items; eexists; reflexivity).
    pose proof (strip_ws_head c r) as H. rewrite is_space_ascii in H by done.
    destruct (strip_ws (c :: r)); [by destruct H|done]. }
  destruct Hl as [-> | (e & -> & ->)]; by rewrite Hcsv.
Qed.
End settings.

(** * Concrete environments *)
Definition sample_literal (raw : ustr) : result literal_value :=
  if ueqb raw DEFAULT_PREFIXES_TEXT then Ok (LList [u "/"; u "!"; u "."])
  else if ueqb raw (u "[' ']") then Ok (LList [u " "])
  else Err (OtherException "SyntaxError").

Definition sample_env (extra : list (string * string)) (key : string) : option ustr :=
  match assoc key (extra ++ [("BOT_TOKEN", "1:x"); ("MONGODB_URI", "mongodb://db"); ("OWNER_ID", " 42 ")]%string) with
  | Some v => Some (u v)
  | None => None
  end.

Definition sample_load (extra : list (string * string)) : result Configs :=
  @load ascii_ucd sample_literal (u "f00d") (sample_env extra).

Example defaults_load :
  match sample_load [("WARN_LIMIT", "0"); ("PORT", "70000"); ("LOGS", "-100/7")]%string with
  | Ok c => c_owner_id c = 42 /\ c_warn_limit c = 3 /\ @port_int ascii_ucd c = 5000 /\
            @logs_tuple ascii_ucd c = (-100, Some 7) /\ c_prefixes c = [u "/"; u "!"; u "."]
  | Err _ => False
  end.
Proof. vm_compute. auto. Qed.

Example owner_missing : sample_load [("OWNER_ID", "0")]%string = Err (RuntimeError _ERR_OWNER_ID).
Proof. vm_compute. reflexivity. Qed.

Lemma settings_valid_witness :
  exists c, sample_load [("WARN_LIMIT", "5")]%string = Ok c /\ valid (UCD_ := ascii_ucd) c.
Proof.
  destruct (sample_load [("WARN_LIMIT", "5")]%string) as [c|e] eqn:E; [|exfalso; vm_compute in E; discriminate E].
  exists c. split; [reflexivity|].
  eapply (settings_valid (UCD_ := ascii_ucd) sample_literal (u "f00d")); [reflexivity|exact E].
Defined.

Example blank_prefix_setting :
  exists c, sample_load [("PREFIXES", "[' ']")]%string = Ok c /\
    @any_command_filter ascii_ucd (@_get_prefixes ascii_ucd (c_prefixes c)) None (Some (u "/help")) = false.
Proof.
  destruct (sample_load [("PREFIXES", "[' ']")]%string) as [c|e] eqn:E; [|exfalso; vm_compute in E; discriminate E].
  exists c. split; [reflexivity|].
  eapply (blank_prefixes_deafen (UCD_ := ascii_ucd) sample_literal (u "f00d") _ c (u "[' ']") [[]]);
    [exact E|vm_compute; reflexivity|vm_compute; reflexivity|discriminate|].
  repeat constructor.
Qed.
