(* ===== verification/GroupList.v ===== *)
(** The list of connected groups: [tcbot/modules/groups.py] and its view in the
    start menu ([start.py]).  The renderer works on real text; the handlers
    send the listing as a symbolic text, like every handler. *)

From S2P Require Import Prelude Prog Text World Formatter I18n Dispatch Cache Locale Roles Replies Auth Records DemoteFlow Prefixes Extract Handler Language Drills CheckViews Checkme Stats LogCards.

Open Scope result_scope.

(** * The renderer *)
Definition _MAX_RENDER_CHARS : Z := 3800.

Definition len (s : ustr) : Z := Z.of_nat (length s).

Section render.
Context {CAT : Catalog} (locale : ustr) (detailed : bool).

(** [t(key, locale, **kwargs)] *)
Definition tr (key : string) (kwargs : list (ustr * value)) : result ustr :=
  I18n.t cat_data (u key) (Some locale) false kwargs.

Definition group_item (g : doc) : result ustr :=
  let title := u (group_title g) in
  if detailed then
    tr "groups.list.item_detailed" [(u "title", VStr title); (u "id", VSafe (code (str_int (group_id g))))]
  else tr "groups.list.item" [(u "title", VStr title)].

(** The loop over the groups: [left] of them remain, [used] characters are
    taken. *)
Fixpoint render_lines (groups : list doc) (used : Z) : result (list ustr) :=
  match groups with
  | [] => Ok []
  | g :: rest =>
      line <~ group_item g ;;
      if used + len line + 1 >? _MAX_RENDER_CHARS then
        more <~ tr "groups.list.more" [(u "n", VInt (Z.of_nat (length groups)))] ;;
        Ok [more]
      else
        lines <~ render_lines rest (used + len line + 1) ;;
        Ok (line :: lines)
  end.

Definition render_groups (groups : list doc) : result ustr :=
  header <~ tr "groups.list.header" [(u "n", VInt (Z.of_nat (length groups)))] ;;
  lines <~ render_lines groups (len header + 1) ;;
  Ok (join line_break (header :: lines)).

(** ** What it lists *)

(** [lines] are the items of the first groups, and then, if some are left
    over, the line that counts them. *)
Definition lists (groups : list doc) (items tail : list ustr) : Prop :=
  exists shown rest, groups = shown ++ rest /\ Forall2 (fun g line => group_item g = Ok line) shown items /\
    match rest with
    | [] => tail = []
    | _ => exists more, tr "groups.list.more" [(u "n", VInt (Z.of_nat (length rest)))] = Ok more /\ tail = [more]
    end.

Definition total (ls : list ustr) : Z := fold_right (fun l n => len l + 1 + n) 0 ls.

Lemma render_lines_spec groups used lines :
  render_lines groups used = Ok lines ->
  exists items tail, lines = items ++ tail /\ lists groups items tail /\
    (items <> [] -> used + total items <= _MAX_RENDER_CHARS).
Proof.
  revert used lines. induction groups as [|g groups IH]; intros used lines; simpl.
  - intros [= <-]. exists [], []. split; [done|]. split; [|done]. by exists [], [].
  - intros (line & Hline & H)%rbind_Ok. destruct (Z.gtb_spec (used + len line + 1) _MAX_RENDER_CHARS) as [Hgt|Hle].
    + apply rbind_Ok in H as (more & Hmore & [= <-]). exists [], [more]. split; [done|]. split; [|done].
      exists [], (g :: groups). split; [done|]. split; [constructor|]. by exists more.
    + apply rbind_Ok in H as (ls & Hls & [= <-]). destruct (IH _ _ Hls) as (items & tail & -> & Hl & Hb).
      exists (line :: items), tail. split; [done|]. split.
      * destruct Hl as (shown & rest & -> & Hs & Hr). exists (g :: shown), rest.
        split; [done|]. split; [by constructor|done].
      * intros _. simpl. destruct items as [|i items]; [simpl; lia|]. specialize (Hb ltac:(done)). lia.
Qed.

Lemma len_app a b : len (a ++ b) = len a + len b.
Proof. unfold len. rewrite length_app. lia. Qed.

Lemma len_join h ls : len (join line_break (h :: ls)) = len h + total ls.
Proof.
  revert h. induction ls as [|l ls IH]; intros h; [simpl; lia|].
  change (join line_break (h :: l :: ls)) with (h ++ line_break ++ join line_break (l :: ls)).
  rewrite !len_app, IH. simpl. unfold len at 2. simpl. lia.
Qed.

Lemma total_app a b : total (a ++ b) = total a + total b.
Proof. induction a as [|l a IH]; simpl; lia. Qed.

(** The list shows the groups from the first on, in order, under the count
    of all of them; what does not fit is counted by a last line, so every
    group is listed or counted.  Up to that last line the text is no longer
    than the budget, or than the header alone. *)
Theorem listing_accounts (groups : list doc) (s : ustr) : render_groups groups = Ok s ->
  exists header items tail,
    tr "groups.list.header" [(u "n", VInt (Z.of_nat (length groups)))] = Ok header /\
    s = join line_break (header :: items ++ tail) /\ lists groups items tail /\
    len s <= Z.max (len header) _MAX_RENDER_CHARS + total tail.
Proof.
  unfold render_groups. intros (header & Hh & H)%rbind_Ok. apply rbind_Ok in H as (lines & Hl & Hs).
  assert (s = join line_break (header :: lines)) as -> by congruence. clear Hs.
  destruct (render_lines_spec _ _ _ Hl) as (items & tail & -> & Hlists & Hb).
  exists header, items, tail. do 3 (split; [done|]). rewrite len_join, total_app.
  destruct items as [|i items]; [simpl; lia|]. specialize (Hb ltac:(done)). lia.
Qed.

(** ** Well-formed, whatever the titles *)
Definition present (key : string) : Prop :=
  exists template, find_template cat_data (Some locale) (u key) = Ok (Some template).

Lemma tr_wf key kwargs s :
  present key -> Forall (fun kv => value_ok kv.2) kwargs -> tr key kwargs = Ok s -> md_wf s.
Proof. intros [tpl Hf] Ha Ht. by eapply t_wf; [exact Hf|exact Ha|exact Ht]. Qed.

Lemma join_wf ls : Forall md_wf ls -> md_wf (join line_break ls).
Proof.
  induction 1 as [|l ls Hl _ IH]; [done|]. destruct ls as [|l2 ls]; [done|].
  change (join line_break (l :: l2 :: ls)) with (l ++ line_break ++ join line_break (l2 :: ls)).
  apply md_wf_app; [done|]. by apply md_wf_app.
Qed.

Theorem listing_wf (groups : list doc) (s : ustr) :
  Forall present ["groups.list.header"; "groups.list.item"; "groups.list.item_detailed"; "groups.list.more"]%string ->
  render_groups groups = Ok s -> md_wf s.
Proof.
  intros Hp (header & items & tail & Hh & -> & (shown & rest & -> & Hs & Hr) & _)%listing_accounts.
  assert (forall key, In key ["groups.list.header"; "groups.list.item"; "groups.list.item_detailed";
    "groups.list.more"]%string -> present key) as Hk by (intros key; apply List.Forall_forall; exact Hp).
  apply join_wf. constructor.
  { eapply (tr_wf "groups.list.header"); [apply Hk; simpl; auto| |exact Hh]. repeat constructor. simpl. lia. }
  apply Forall_app. split.
  - clear Hr. rewrite length_app in Hh. clear Hh.
    induction Hs as [|g l gs ls Hg _ IH]; [constructor|]. constructor; [|exact IH]. unfold group_item in Hg.
    destruct detailed.
    + eapply (tr_wf "groups.list.item_detailed"); [apply Hk; simpl; auto| |exact Hg]. repeat constructor. apply md_wf_code.
    + eapply (tr_wf "groups.list.item"); [apply Hk; simpl; auto| |exact Hg]. repeat constructor.
  - destruct rest as [|g rest]; [by subst|]. destruct Hr as (more & Hm & ->). constructor; [|done].
    eapply (tr_wf "groups.list.more"); [apply Hk; simpl; auto 6| |exact Hm]. repeat constructor. simpl. lia.
Qed.
End render.

(** * Keyboards (keyboards/menus.py) *)
Definition toggle_key (detailed : bool) : string := if detailed then "button.simple" else "button.details_toggle".

Definition tcgroups_kb (detailed : bool) (locale : ustr) : text :=
  keyboard [kb_row [data_button (toggle_key detailed) locale (if detailed then "groups_simple" else "groups_details")]].

Definition groups_menu_kb (detailed : bool) (locale : ustr) : text :=
  keyboard [kb_row [data_button (toggle_key detailed) locale
                      (if detailed then "menu_groups_simple" else "menu_groups_details");
                    data_button "button.back" locale "back_to_start"]].

Definition back_to_start_kb (locale : ustr) : text := keyboard [kb_row [data_button "button.back" locale "back_to_start"]].

(** * Handlers *)
Definition group_text (g : doc) : text := TBuild "group" [TStr (group_title g); TInt (group_id g)].

(** [render_groups(groups, detailed=detailed, locale=locale)] *)
Definition group_listing (groups : list doc) (detailed : bool) (locale : ustr) : text :=
  TBuild "render_groups" [TCat (map group_text groups); TStr (if detailed then "detailed" else "simple"); TStr (s_of locale)].

Definition err_groups_load_failed (locale : ustr) : text := TKey "common.err.groups_load_failed" locale [].

Section handlers.
Context {CAT : Catalog} (cfg : config).

Definition no_groups_text (locale : ustr) : text :=
  TKey "groups.menu.empty" locale [("community"%string, TStr (cfg_community_name cfg))].

Definition cmd_tcfgroups_body (upd : update) : io unit :=
  locale <- locale_for_update upd ;;
  match effective_message upd with
  | None => Ret tt
  | Some msg =>
      groups <- try_except (gs <- active_groups ;; Ret (Some gs)) (fun _ => Ret None) ;;
      match groups with
      | None => safe_reply msg (err_groups_load_failed locale)
      | Some [] => safe_reply msg (no_groups_text locale)
      | Some gs => safe_reply_kb msg (group_listing gs false locale) (Some (tcgroups_kb false locale))
      end
  end.

(** The query, and the message its button belongs to when Telegram still has
    it.  The answer and the read run side by side; whatever the answer does. *)
Definition _toggle (upd : update) (q : option (option message)) (detailed : bool) : io unit :=
  match q with
  | None => Ret tt
  | Some None => try_except (call (AnswerCallback None)) (fun _ => Ret tt)
  | Some (Some cbq_msg) =>
      locale <- locale_for_update upd ;;
      let! (_, groups_r) := gather2 (call (AnswerCallback None)) active_groups in
      match groups_r with
      | Err _ => safe_edit cbq_msg (err_groups_load_failed locale) (Some (tcgroups_kb detailed locale)) false
      | Ok groups => safe_edit cbq_msg (group_listing groups detailed locale) (Some (tcgroups_kb detailed locale)) false
      end
  end.

Definition _show_groups (q : message) (upd : update) (detailed : bool) : io unit :=
  locale <- locale_for_update upd ;;
  let! (_, groups_r) := gather2 (call (AnswerCallback None)) active_groups in
  match groups_r with
  | Err _ => safe_edit_cb q (err_groups_load_failed locale) (Some (back_to_start_kb locale)) true
  | Ok [] => safe_edit_cb q (no_groups_text locale) (Some (back_to_start_kb locale)) true
  | Ok groups => safe_edit_cb q (group_listing groups detailed locale) (Some (groups_menu_kb detailed locale)) true
  end.

Definition shown_for (upd : update) (q : option message) (detailed : bool) : io unit :=
  match q with Some q => _show_groups q upd detailed | None => Ret tt end.

Definition cmd_tcfgroups (upd : update) := ratelimiter_wrapper "cmd_tcfgroups" (cmd_tcfgroups_body upd) upd.
Definition on_groups_details (upd : update) q := ratelimiter_wrapper "on_groups_details" (_toggle upd q true) upd.
Definition on_groups_simple (upd : update) q := ratelimiter_wrapper "on_groups_simple" (_toggle upd q false) upd.
Definition on_menu_groups (upd : update) q := ratelimiter_wrapper "on_menu_groups" (shown_for upd q false) upd.
Definition on_menu_groups_details (upd : update) q :=
  ratelimiter_wrapper "on_menu_groups_details" (shown_for upd q true) upd.

(** ** A list is only shown of groups that were read

    What a message says of the groups: the items it lists, none when it says
    that there are no groups. *)
Definition claim (txt : text) : option (list text) :=
  match txt with
  | TBuild b (TCat items :: _) => if String.eqb b "render_groups" then Some items else None
  | TKey k _ _ => if String.eqb k "groups.menu.empty" then Some [] else None
  | _ => None
  end.

Definition claims (o : obs eff) : option (list text) :=
  match o with
  | Obs ev _ =>
      match ev with
      | ReplyText _ txt _ | EditMessageText _ _ txt _ => claim txt
      | _ => None
      end
  end.

Definition claiming (o : obs eff) : bool := match claims o with Some _ => true | None => false end.

(** Everything said in the run [t] about the groups is what a read in [t]
    answered. *)
Definition honest (t : trace eff) : Prop :=
  Forall (fun o => forall items, claims o = Some items ->
    exists groups, during active_groups groups t /\ items = map group_text groups) t.

(** A reply or an edit says its text, or fails to. *)
Definition says (txt : text) (t : trace eff) : Prop := Forall (fun o => claims o = None \/ claims o = claim txt) t.

Ltac says_auto := wp_auto; unfold says; repeat (apply List.Forall_cons; [right; reflexivity|]); apply List.Forall_nil.

Lemma edit_says msg txt kb catch_all : wp (safe_edit msg txt kb catch_all) (fun t _ => says txt t).
Proof. unfold safe_edit, edit_with. says_auto. Qed.

Lemma edit_cb_says q txt kb catch_all : wp (safe_edit_cb q txt kb catch_all) (fun t _ => says txt t).
Proof. unfold safe_edit_cb, edit_with. says_auto. Qed.

Lemma list_reply_says msg txt : wp (safe_reply msg txt) (fun t _ => says txt t).
Proof. unfold safe_reply. says_auto. Qed.

Lemma list_reply_kb_says msg txt kb : wp (safe_reply_kb msg txt kb) (fun t _ => says txt t).
Proof. unfold safe_reply_kb. says_auto. Qed.

(** After silence, saying a text whose claim was read. *)
Lemma honest_say t1 t2 txt :
  Forall (fun o => claiming o = false) t1 -> says txt t2 ->
  (forall items, claim txt = Some items ->
     exists groups, during active_groups groups t1 /\ items = map group_text groups) ->
  honest (t1 ++ t2).
Proof.
  intros H1 H2 Hc. apply Forall_app. split.
  - eapply Forall_impl; [exact H1|]. intros o Ho items Hi. unfold claiming in Ho. by rewrite Hi in Ho.
  - eapply Forall_impl; [exact H2|]. intros o [Ho|Ho] items Hi; [congruence|].
    rewrite Ho in Hi. destruct (Hc _ Hi) as (gs & Hd & ->). exists gs. split; [by apply during_l|done].
Qed.

Lemma honest_silent t : Forall (fun o => claiming o = false) t -> honest t.
Proof.
  intros H. eapply Forall_impl; [exact H|]. intros o Ho items Hi. unfold claiming in Ho. by rewrite Hi in Ho.
Qed.

Lemma locale_silent upd : never claiming (locale_for_update upd).
Proof. apply locale_for_update_never. by intros [X [] r]. Qed.

Lemma groups_silent : never claiming active_groups.
Proof. apply groups_never; [by intros ? ? [X [] r]|done]. Qed.

Lemma answer_silent : never claiming (call (AnswerCallback None)).
Proof. by apply never_call. Qed.

(** The body after the locale and the read: [show] says a text whose claim is
    the answer of the read. *)
Lemma read_then_say {A} (read : io A) (show : ustr -> A -> io unit) (upd : update) (answered : A -> list doc -> Prop) :
  never claiming read ->
  (forall t a gs, exec read t (Ok a) -> answered a gs -> during active_groups gs t) ->
  (forall locale a, exists txt, wp (show locale a) (fun t _ => says txt t) /\
     forall items, claim txt = Some items -> exists gs, answered a gs /\ items = map group_text gs) ->
  wp (locale <- locale_for_update upd ;; a <- read ;; show locale a) (fun t _ => honest t).
Proof.
  intros Hn Hd Hs. apply wp_never_bind with (f := claiming); [apply locale_silent| |].
  2: { intros t e Ht _. by apply honest_silent. }
  intros t1 locale Ht1 _. apply wp_never_bind with (f := claiming); [done| |].
  2: { intros t e Ht _. apply honest_silent, Forall_app. done. }
  intros t2 a Ht2 Hx. destruct (Hs locale a) as (txt & Hsay & Hc). eapply wp_mono; [exact Hsay|].
  intros t3 r Ht3. rewrite app_assoc. eapply honest_say; [by apply Forall_app|exact Ht3|].
  intros items Hi. destruct (Hc _ Hi) as (gs & Ha & ->). exists gs. split; [|done]. apply during_r. by eapply Hd.
Qed.

Lemma silent_honest {A} (p : io A) : never claiming p -> wp p (fun t _ => honest t).
Proof. intros H. eapply wp_mono; [exact H|]. intros t r Ht. by apply honest_silent. Qed.

(** The same for a read beside the answer to the tap. *)
Lemma read_both (upd : update) (show : ustr -> list doc -> io unit) (failed : ustr -> io unit) :
  (forall locale gs, exists txt, wp (show locale gs) (fun t _ => says txt t) /\
     forall items, claim txt = Some items -> items = map group_text gs) ->
  (forall locale, exists txt, wp (failed locale) (fun t _ => says txt t) /\ claim txt = None) ->
  wp (locale <- locale_for_update upd ;;
      let! (_, groups_r) := gather2 (call (AnswerCallback None)) active_groups in
      match groups_r with Err _ => failed locale | Ok groups => show locale groups end) (fun t _ => honest t).
Proof.
  intros Hs Hf.
  apply (read_then_say (gather2 (call (AnswerCallback None)) active_groups)
    (fun locale x => match x with (_, groups_r) => match groups_r with Err _ => failed locale | Ok gs => show locale gs end end)
    upd (fun x gs => x.2 = Ok gs)).
  - apply never_gather2; [apply answer_silent|apply groups_silent].
  - intros t [ra rg] gs Hx%ran_exec%ran_gather2 Hg. simpl in Hg. subst rg. exact (proj2 Hx).
  - intros locale [ra [gs|e]]; simpl.
    + destruct (Hs locale gs) as (txt & Hw & Hc). exists txt. split; [exact Hw|]. intros items Hi. exists gs. auto.
    + destruct (Hf locale) as (txt & Hw & Hc). exists txt. split; [exact Hw|]. intros items Hi. congruence.
Qed.

(** Whatever a screen says of the connected groups, the names it lists or
    that there are none, is what the read of the groups answered in the same
    run: a failed read never shows as an empty federation. *)
Theorem groups_shown_are_read (upd : update) (q : option (option message)) (menu : option message)
    (detailed : bool) (t : trace eff) (r : result unit) :
  exec (cmd_tcfgroups_body upd) t r \/ exec (_toggle upd q detailed) t r \/ exec (shown_for upd menu detailed) t r ->
  honest t.
Proof.
  intros [H|[H|H]]; revert t r H; refine (wp_elim' _ _ _).
  - unfold cmd_tcfgroups_body. destruct (effective_message upd) as [msg|].
    + apply (read_then_say (try_except (gs <- active_groups ;; Ret (Some gs)) (fun _ => Ret None))
        (fun locale groups => match groups with
         | None => safe_reply msg (err_groups_load_failed locale)
         | Some [] => safe_reply msg (no_groups_text locale)
         | Some gs => safe_reply_kb msg (group_listing gs false locale) (Some (tcgroups_kb false locale))
         end) upd (fun a gs => a = Some gs)).
      * never_auto. apply groups_silent.
      * intros t a gs Hx ->. exact (ran_option _ _ _ (ran_exec _ _ _ Hx) gs eq_refl).
      * intros locale [[|g gs]|].
        -- eexists. split; [apply list_reply_says|]. intros items [= <-]. by exists [].
        -- eexists. split; [apply list_reply_kb_says|]. intros items [= <-]. by exists (g :: gs).
        -- eexists. split; [apply list_reply_says|]. done.
    + apply silent_honest. apply never_bind; [apply locale_silent|]. intros. apply never_ret.
  - destruct q as [[msg|]|].
    + apply (read_both upd
        (fun locale gs => safe_edit msg (group_listing gs detailed locale) (Some (tcgroups_kb detailed locale)) false)
        (fun locale => safe_edit msg (err_groups_load_failed locale) (Some (tcgroups_kb detailed locale)) false)).
      * intros locale gs. eexists. split; [apply edit_says|]. by intros items [= <-].
      * intros locale. eexists. split; [apply edit_says|done].
    + apply silent_honest. unfold _toggle. never_auto.
    + apply silent_honest, never_ret.
  - destruct menu as [msg|]; [|apply silent_honest, never_ret].
    apply (read_both upd
      (fun locale gs => match gs with
       | [] => safe_edit_cb msg (no_groups_text locale) (Some (back_to_start_kb locale)) true
       | _ => safe_edit_cb msg (group_listing gs detailed locale) (Some (groups_menu_kb detailed locale)) true
       end)
      (fun locale => safe_edit_cb msg (err_groups_load_failed locale) (Some (back_to_start_kb locale)) true)).
    + intros locale [|g gs]; eexists; (split; [apply edit_cb_says|]); by intros items [= <-].
    + intros locale. eexists. split; [apply edit_cb_says|done].
Qed.
End handlers.

(** ** Witnesses *)
Definition two_groups : script := fun X ev =>
  match ev in eff X return option (result X) with
  | Find "federated_groups" _ _ _ _ =>
      Some (Ok [["chat_id" ~> BInt (-1001); "title" ~> BStr "Alpha"]; ["chat_id" ~> BInt (-1002); "title" ~> BStr "Beta"]])
  | _ => None
  end.

Definition group_run : trace eff * result unit :=
  replay two_groups (cmd_tcfgroups_body (CAT:=demo_catalog) demo_config founder_update).

Lemma groups_shown_are_read_witness : existsb claiming group_run.1 = true /\ honest group_run.1.
Proof.
  split; [vm_compute; reflexivity|].
  refine (groups_shown_are_read (CAT:=demo_catalog) demo_config founder_update None None false group_run.1 group_run.2 _).
  left. exact (replay_exec two_groups (cmd_tcfgroups_body (CAT:=demo_catalog) demo_config founder_update)).
Defined.

(** A catalog with the four keys, as they stand in [i18n/en-US/groups.toml]. *)
#[local] Instance group_catalog : Catalog := {|
  cat_ucd := ascii_ucd;
  cat_data := [(DEFAULT_LOCALE,
    [(u "groups.list.header", u "*Connected Groups*" ++ [10; 10] ++ u "Count: {n}"); (u "groups.list.item", u "- {title}");
     (u "groups.list.item_detailed", u "- {title} - {id}"); (u "groups.list.more", u "...and {n} more not shown.")])] |}.

Definition many_groups : list doc :=
  map (fun i => ["chat_id" ~> BInt (- Z.of_nat i); "title" ~> BStr "Group *one* of_many"]) (seq 1 200).

Lemma listing_wf_witness :
  exists s, render_groups DEFAULT_LOCALE true many_groups = Ok s /\ md_wf s.
Proof.
  destruct (render_groups DEFAULT_LOCALE true many_groups) as [s|e] eqn:E; [|exfalso; vm_compute in E; discriminate E].
  exists s. split; [reflexivity|]. refine (listing_wf DEFAULT_LOCALE true many_groups s _ E).
  repeat constructor; eexists; vm_compute; reflexivity.
Defined.

Lemma listing_accounts_witness :
  exists s, render_groups DEFAULT_LOCALE true many_groups = Ok s /\
    exists header items tail, lists DEFAULT_LOCALE true many_groups items tail /\
      len s <= Z.max (len header) _MAX_RENDER_CHARS + total tail.
Proof.
  destruct (render_groups DEFAULT_LOCALE true many_groups) as [s|e] eqn:E; [|exfalso; vm_compute in E; discriminate E].
  exists s. split; [reflexivity|].
  destruct (listing_accounts DEFAULT_LOCALE true many_groups s E) as (header & items & tail & _ & _ & Hl & Hlen).
  exists header, items, tail. split; [exact Hl|exact Hlen].
Defined.

(** A long list is cut: it counts what it leaves out. *)
Example long_list_cut :
  match render_groups DEFAULT_LOCALE true many_groups with
  | Ok s => len s <= 3900 /\ contains s (u "more not shown")
  | Err _ => False
  end.
Proof. vm_compute. split; [discriminate|done]. Qed.
