(* ===== verification/Menus.v ===== *)
(** The start menu and what it opens: [start.py], [about.py], [additional.py],
    [privacy.py], the help browser ([help/]) with their keyboards
    ([keyboards/menus.py], [topics.py], [common.py]), and the selection of
    modules ([modules/__init__.py]).  What each module says of itself is a
    parameter. *)

From S2P Require Import Prelude Prog Text World Formatter I18n Dispatch Cache Locale Roles Replies Auth Records DemoteFlow Prefixes Extract Handler Language Drills CheckViews Stats GroupList Settings.

(** * modules/__init__.py

    [None] stands for the exit of the process. *)
Definition _filter_modules (to_load no_load modules : list string) : option (list string) :=
  let mem m l := existsb (String.eqb m) l in
  let kept :=
    match to_load with
    | [] => Some modules
    | _ =>
        if existsb (fun m => negb (mem m modules)) to_load then None
        else Some (List.filter (fun m => mem m modules) to_load)
    end in
  match kept, no_load with
  | Some modules, _ :: _ => Some (List.filter (fun m => negb (mem m no_load)) modules)
  | _, _ => kept
  end.

(** [get_handlers]: an import that fails stops the process, and otherwise the
    handlers are those of the modules in their order. *)
Definition get_handlers {H} (import : string -> option (list H)) (modules : list string) : option (list H) :=
  if existsb (fun m => match import m with None => true | Some _ => false end) modules then None
  else Some (flat_map (fun m => default [] (import m)) modules).

(** * Keyboards *)
Abbreviation row := text.

(** [_https_url(url, label)] *)
Definition _https_url (url : ustr) : option ustr :=
  if filled url && (startswith url (u "https://") || startswith url (u "http://")) then Some url else None.

Definition _build_topic_rows (topics : list (text * ustr)) : list row :=
  map (fun ch => kb_row (map (fun '(label, cb) => button label cb) ch)) (chunks 2 topics).

Section keyboards.
Context (locale : ustr).

Definition back_row (data : string) : row := kb_row [data_button "button.back" locale data].

Definition main_menu_kb : text :=
  keyboard
    [kb_row [data_button "button.about" locale "about_menu"; data_button "button.help" locale "help_menu"];
     kb_row [data_button "button.additional" locale "additional_menu"; data_button "button.privacy" locale "privacy_menu"];
     kb_row [data_button "button.language" locale "language_menu"]].

Definition group_start_kb (bot_username : string) : text :=
  keyboard
    ((if truthy_str bot_username
      then [kb_row [url_button "button.open_pm" locale (TStr ("https://t.me/" ++ bot_username ++ "?start=menu"))]]
      else []) ++
     [kb_row [data_button "button.help" locale "help_menu_group"]]).

(** A button for every address that is one; a row for every pair with one. *)
Definition link_row (links : list (string * ustr)) : list row :=
  match flat_map (fun '(key, url) => match _https_url url with
                    | Some url => [url_button key locale (TStr (s_of url))] | None => [] end) links with
  | [] => []
  | buttons => [kb_row buttons]
  end.

Definition additional_menu_kb (c : Configs) : text :=
  keyboard
    (link_row [("button.main_channel", community_channel_url c); ("button.discussion_group", community_group_url c)]%string ++
     link_row [("button.logs_channel", community_logs_url c); ("button.exec_group", community_exec_url c)]%string ++
     link_row [("button.travel", community_travel_url c)]%string ++
     [back_row "back_to_start"]).

Definition help_topics_menu_kb (topics : list (text * ustr)) : text :=
  keyboard (_build_topic_rows topics ++ [back_row "back_to_start"]).
Definition help_topics_kb (topics : list (text * ustr)) : text := keyboard (_build_topic_rows topics).
Definition back_to_help_kb : text := keyboard [back_row "help_menu"].
Definition back_to_help_cmd_kb : text := keyboard [back_row "helpc_main"].
Definition module_help_kb (section_buttons : list (text * ustr)) (back_callback : string) : text :=
  keyboard (_build_topic_rows section_buttons ++ [back_row back_callback]).
Definition help_module_back_kb (module_callback : ustr) : text :=
  keyboard [kb_row [button (TKey "button.back" locale []) module_callback]].

Definition privacy_kb : text :=
  keyboard [kb_row [data_button "button.privacy_policy" locale "privacy_policy_menu"]; back_row "back_to_start"].
Definition privacy_policy_sections_kb (section_labels : list text) : text :=
  keyboard (_build_topic_rows (imap (fun i label => (label, u "privacy_section_" ++ str_int (Z.of_nat i))) section_labels)
            ++ [back_row "privacy_menu"]).
Definition back_to_privacy_policy_kb : text := keyboard [back_row "privacy_policy_menu"].
End keyboards.

(** * help/builder.py *)
Record help_entry := HelpEntry { h_name : string; h_overview : string; h_sections : list (string * string) }.

(** [d[k] = v]: in its place, or at the end. *)
Fixpoint dict_set {V} (k : ustr) (v : V) (d : list (ustr * V)) : list (ustr * V) :=
  match d with
  | [] => [(k, v)]
  | (k', v') :: d' => if ueqb k k' then (k, v) :: d' else (k', v') :: dict_set k v d'
  end.

Definition dict_of {V} (l : list (ustr * V)) : list (ustr * V) := fold_left (fun d '(k, v) => dict_set k v d) l [].

(** [sorted(l, key=key)] by a text: equal keys keep their order. *)
Fixpoint insert_by {A} (key : A -> ustr) (x : A) (l : list A) : list A :=
  match l with
  | [] => [x]
  | y :: l' => if str_leb (key x) (key y) then x :: l else y :: insert_by key x l'
  end.
Definition sort_by {A} (key : A -> ustr) (l : list A) : list A := fold_right (insert_by key) [] l.

(** The same by a pair [(not contained, distance)]. *)
Definition pair_leb (a b : bool * Z) : bool :=
  match a.1, b.1 with
  | false, true => true
  | true, false => false
  | _, _ => a.2 <=? b.2
  end.
Fixpoint insert_near {A} (key : A -> bool * Z) (x : A) (l : list A) : list A :=
  match l with
  | [] => [x]
  | y :: l' => if pair_leb (key x) (key y) then x :: l else y :: insert_near key x l'
  end.
Definition sort_near {A} (key : A -> bool * Z) (l : list A) : list A := fold_right (insert_near key) [] l.

Section help.
Context {CAT : Catalog} (cfg : config) (bot_first_name bot_username : string).
(** The modules that are loaded, and what [get_help] of each returns:
    nothing without a builder, or when it fails. *)
Context (ALL_MODULES : list ustr) (get_help : ustr -> ustr -> option help_entry).

Definition help_key (mod_name : ustr) : ustr := u "help_" ++ mod_name.

Definition _builder_help (locale : ustr) : list (ustr * help_entry) :=
  dict_of (omap (fun m => h ← get_help m locale; Some (help_key m, h)) ALL_MODULES).

(** [key[5:]] *)
Definition slug_of (key : ustr) : ustr := drop 5 key.

Definition lower_name (name : string) : ustr := str_lower (u name).

Definition _topics_for_locale (locale : ustr) (menu : bool) : list (text * ustr) :=
  map (fun '(key, h) => (TStr (h_name h), if menu then key else u "helpc_" ++ slug_of key))
    (sort_by (fun '(_, h) => lower_name (h_name h)) (_builder_help locale)).

Definition _module_map_for_locale (locale : ustr) : list (ustr * ustr) :=
  fold_left (fun m '(key, h) => dict_set (lower_name (h_name h)) key (dict_set (str_lower (slug_of key)) key m))
    (_builder_help locale) [].

Definition _help_index_text (locale : ustr) : text :=
  TKey "help.index.body" locale
    [("title"%string, bold_of (TKey "help.index.title" locale [("botname"%string, TStr bot_first_name)]));
     ("community"%string, TStr (cfg_community_name cfg))].

Definition _section_buttons (mod_slug : ustr) (sections : list (string * string)) (is_menu_path : bool)
    : list (text * ustr) :=
  imap (fun i '(label, _) => (TStr label, u (if is_menu_path then "helps_" else "helpcs_") ++ mod_slug ++ colon ++
                                          str_int (Z.of_nat i))) sections.

Definition _module_text (h : help_entry) (locale : ustr) : text :=
  TKey "help.module.body" locale
    [("title"%string, bold_of (TKey "help.module.title" locale [("name"%string, TStr (h_name h))]));
     ("overview"%string, TStr (h_overview h)); ("note"%string, TBuild "prefix_note" [])].

(** * help/callbacks.py *)

(** A screen: the text and keyboard a tap leads to. *)
Definition module_screen (menu_key : ustr) (is_menu_path : bool) (locale : ustr) : text * text :=
  let back := if is_menu_path then back_to_help_kb locale else back_to_help_cmd_kb locale in
  match lookup_field menu_key (_builder_help locale) with
  | None => (TKey "help.error.topic_not_found" locale [], back)
  | Some h =>
      let kb := match h_sections h with
                | [] => back
                | sections => module_help_kb locale (_section_buttons (slug_of menu_key) sections is_menu_path)
                                (if is_menu_path then "help_menu" else "helpc_main")
                end in
      (_module_text h locale, kb)
  end.

Definition section_screen (mod_slug : ustr) (idx : Z) (is_menu_path : bool) (locale : ustr) : text * text :=
  let back := help_module_back_kb locale (u (if is_menu_path then "help_" else "helpc_") ++ mod_slug) in
  match lookup_field (help_key mod_slug) (_builder_help locale) with
  | None => (TKey "help.error.topic_not_found" locale [], back)
  | Some h =>
      if (idx <? 0) || (Z.of_nat (length (h_sections h)) <=? idx) then (TKey "help.error.section_not_found" locale [], back)
      else
        match h_sections h !! Z.to_nat idx with
        | None => (TKey "help.error.section_not_found" locale [], back)
        | Some (label, content) =>
            (TKey "help.section.body" locale
               [("title"%string, bold_of (TStr (h_name h ++ " > " ++ label))); ("content"%string, TStr content)], back)
        end
  end.

Definition index_screen (with_back_to_start : bool) (locale : ustr) : text * text :=
  (_help_index_text locale,
   if with_back_to_start then help_topics_menu_kb locale (_topics_for_locale locale true)
   else help_topics_kb (_topics_for_locale locale false)).

(** Resolve the locale, then answer and edit. *)
Definition open_screen (upd : update) (q : message) (screen : ustr -> text * text) : io unit :=
  locale <- locale_for_update upd ;;
  let (txt, kb) := screen locale in
  answer_and_edit q txt (Some kb).

Definition alert_in (upd : update) (key : string) : io unit :=
  locale <- locale_for_update upd ;; call (AnswerCallback (Some (TKey key locale []))).

Definition _render_help_index (upd : update) (q : option callback) (with_back_to_start : bool) : io unit :=
  match q with
  | None => Ret tt
  | Some q => open_screen upd (cb_message q) (index_screen with_back_to_start)
  end.

Definition on_help_menu_group_body (upd : update) (q : option callback) : io unit :=
  match q with None => Ret tt | Some _ => alert_in upd "help.group.alert" end.

(** The module a tap on a topic names, and whether it came from the menu. *)
Definition topic_target (data : ustr) : ustr * bool :=
  match after_prefix (u "helpc_") data with
  | Some slug => (help_key slug, false)
  | None => (data, true)
  end.

Definition on_help_topic_any_body (upd : update) (q : option callback) : io unit :=
  match q with
  | Some (Callback q (Some data)) =>
      if truthy_str data then
        let '(menu_key, is_menu_path) := topic_target (u data) in
        open_screen upd q (module_screen menu_key is_menu_path)
      else Ret tt
  | _ => Ret tt
  end.

(** The section a tap names; [None] when the number is none. *)
Definition section_target (data : ustr) : option (ustr * Z * bool) :=
  let is_menu_path := startswith data (u "helps_") in
  let body := if is_menu_path then drop 6 data else drop 7 data in
  match partition1 c_colon body with
  | (mod_slug, true, idx_str) => idx ← py_int idx_str; Some (mod_slug, idx, is_menu_path)
  | _ => None
  end.

Definition on_help_section_body (upd : update) (q : option callback) : io unit :=
  match q with
  | Some (Callback q (Some data)) =>
      if truthy_str data then
        match section_target (u data) with
        | None => alert_in upd "help.error.invalid_section"
        | Some (mod_slug, idx, is_menu_path) => open_screen upd q (section_screen mod_slug idx is_menu_path)
        end
      else Ret tt
  | _ => Ret tt
  end.

(** * help/command.py *)

(** [" ".join(args).strip().lower()] *)
Definition help_query (args : list string) : ustr := str_lower (strip_ws (join (u " ") (map u args))).

Definition candidates (query : ustr) (names : list ustr) : list ustr :=
  take 3 (sort_near (fun k => (negb (contains k query), Z.abs (Z.of_nat (length k) - Z.of_nat (length query)))) names).

Definition not_found_text (query : ustr) (names : list ustr) (locale : ustr) : text :=
  let suggested := List.filter nonempty (candidates query names) in
  TKey "help.not_found.body" locale
    [("query"%string, bold_of (TStr (s_of query)));
     ("hint"%string,
      match suggested with
      | [] => TStr ""
      | _ => TKey "help.not_found.hint" locale
               [("suggestions"%string, TBuild "commas" (map (fun k => code_of (TStr ("/help " ++ s_of k))) suggested))]
      end)].

Definition help_answer (args : list string) (locale : ustr) : text * text :=
  let topics := help_topics_kb (_topics_for_locale locale false) in
  match args with
  | [] => (_help_index_text locale, topics)
  | _ =>
      let query := help_query args in
      let name_map := _module_map_for_locale locale in
      let not_found := (not_found_text query (map fst name_map) locale, topics) in
      match lookup_field query name_map with
      | None => not_found
      | Some key =>
          match lookup_field key (_builder_help locale) with
          | None => not_found
          | Some _ => module_screen key false locale
          end
      end
  end.

Definition cmd_help_body (upd : update) : io unit :=
  match effective_message upd with
  | None => Ret tt
  | Some msg =>
      locale <- locale_for_update upd ;;
      let (txt, kb) := help_answer (args_of msg) locale in
      safe_reply_kb msg txt (Some kb)
  end.

(** * start.py, about.py, additional.py, privacy.py *)
Context (settings : Configs).

Definition start_text (key : string) (locale : ustr) : text :=
  TKey key locale [("bot"%string, bold_of (TStr bot_first_name)); ("community"%string, TStr (cfg_community_name cfg))].

Definition about_msg (locale : ustr) : text :=
  let cname := TStr (cfg_community_name cfg) in
  TBuild "about"
    [TKey "about.page.title" locale [("title"%string, bold_of cname)]; TKey "about.page.intro" locale [];
     TKey "about.page.how_title" locale []; TKey "about.page.how_body" locale [];
     TKey "about.page.history_title" locale []; TKey "about.page.history_body" locale [("community"%string, cname)];
     TKey "about.page.disclaimer" locale
       [("disc"%string, TKey "about.page.disclaimer_text" locale [("community"%string, cname)])]].

(** What follows the first word, stripped. *)
Definition start_arg (txt : option string) : ustr :=
  match split_ws_1 (strip_ws (u (default ""%string txt))) with
  | [_; rest] => strip_ws rest
  | _ => []
  end.

Definition cmd_start_body (upd : update) : io unit :=
  match effective_message upd, effective_chat upd with
  | Some msg, Some (chat_type, _) =>
      locale <- locale_for_update upd ;;
      if one_of chat_type ["group"; "supergroup"; "forum"]%string then
        safe_reply_kb msg (start_text "start.group.body" locale) (Some (group_start_kb locale bot_username))
      else if ueqb (start_arg (msg_text msg)) (u "about") then
        safe_reply_kb msg (about_msg locale) (Some (back_to_start_kb locale))
      else safe_reply_kb msg (start_text "start.private.body" locale) (Some (main_menu_kb locale))
  | _, _ => Ret tt
  end.

Definition with_query (q : option callback) (k : message -> io unit) : io unit :=
  match q with Some q => k (cb_message q) | None => Ret tt end.

Definition on_back_to_start_body (upd : update) (q : option callback) : io unit :=
  with_query q (fun q => open_screen upd q (fun locale => (start_text "start.private.body" locale, main_menu_kb locale))).

Definition on_about_menu_body (upd : update) (q : option callback) : io unit :=
  with_query q (fun q => open_screen upd q (fun locale => (about_msg locale, back_to_start_kb locale))).

Definition on_additional_menu_body (upd : update) (q : option callback) : io unit :=
  with_query q (fun q => open_screen upd q (fun locale =>
    (TKey "additional.msg.body" locale [("community"%string, TStr (cfg_community_name cfg))],
     additional_menu_kb locale settings))).

Definition _SECTION_KEYS : list string := ["collect"; "why"; "access"; "retention"; "rights"; "contact"]%string.

Definition bot_name_or_this : text := TStr (if truthy_str bot_first_name then bot_first_name else "This bot").
Definition section_label (key : string) (locale : ustr) : text := TKey ("privacy.section." ++ key ++ ".label") locale [].

Definition on_privacy_menu_body (upd : update) (q : option callback) : io unit :=
  with_query q (fun q => open_screen upd q (fun locale =>
    (TKey "privacy.msg.body" locale [("bot"%string, bot_name_or_this)], privacy_kb locale))).

Definition on_privacy_policy_menu_body (upd : update) (q : option callback) : io unit :=
  with_query q (fun q => open_screen upd q (fun locale =>
    (TKey "privacy.index.body" locale [("bot"%string, bot_name_or_this)],
     privacy_policy_sections_kb locale (map (fun key => section_label key locale) _SECTION_KEYS)))).

Definition _section_body (key : string) (locale : ustr) : text :=
  TBuild "paragraphs"
    [bold_of (section_label key locale);
     TKey ("privacy.section." ++ key ++ ".body") locale [("community"%string, TStr (cfg_community_name cfg))]].

Definition on_privacy_section_body (upd : update) (q : option callback) : io unit :=
  match q with
  | Some (Callback q (Some data)) =>
      if truthy_str data then
        match py_int (drop 16 (u data)) with
        | None => alert_in upd "privacy.error.invalid_section"
        | Some idx =>
            if (idx <? 0) || (Z.of_nat (length _SECTION_KEYS) <=? idx) then alert_in upd "privacy.error.not_found"
            else
              match _SECTION_KEYS !! Z.to_nat idx with
              | None => Ret tt
              | Some key => open_screen upd q (fun locale => (_section_body key locale, back_to_privacy_policy_kb locale))
              end
        end
      else Ret tt
  | _ => Ret tt
  end.
End help.

(** * Where a tap leads: the patterns of the handlers, in their order *)
Inductive menu_view : Type :=
  | VAbout | VAdditional | VGroupsSimple | VGroupsDetails | VHelpMenu | VHelpGroup | VHelpcMain | VSection | VTopic
  | VLanguage | VPrivacy | VPolicy | VPrivacySection | VStart | VMenuGroups | VMenuGroupsDetails.

Section routes.
Context `{UCD}.

(** [\w+] *)
Definition word_re (s : ustr) : bool :=
  match s with [] => false | _ => forallb (fun c => is_alnum c || (c =? c_under)) s end.

(** [^p1\w+:\d+$] and [^p\w+$] behind one of the prefixes. *)
Definition section_re (data : ustr) : bool :=
  existsb (fun p =>
    match after_prefix (u p) data with
    | Some body => match partition1 c_colon body with (slug, true, n) => word_re slug && digits n | _ => false end
    | None => false
    end) ["helps_"; "helpcs_"]%string.
Definition topic_re (data : ustr) : bool :=
  existsb (fun p => match after_prefix (u p) data with Some body => word_re body | None => false end) ["help_"; "helpc_"]%string.

Definition menu_route (data : ustr) : option menu_view :=
  let exact := [("about_menu", VAbout); ("additional_menu", VAdditional); ("groups_details", VGroupsDetails);
    ("groups_simple", VGroupsSimple); ("help_menu", VHelpMenu); ("help_menu_group", VHelpGroup); ("helpc_main", VHelpcMain)]%string in
  let later := [("language_menu", VLanguage); ("privacy_menu", VPrivacy); ("privacy_policy_menu", VPolicy);
    ("back_to_start", VStart); ("menu_groups", VMenuGroups); ("menu_groups_simple", VMenuGroups);
    ("menu_groups_details", VMenuGroupsDetails)]%string in
  let find l := snd <$> List.find (fun e => ueqb data (u (fst e))) l in
  match find exact with
  | Some v => Some v
  | None =>
      if section_re data then Some VSection
      else if topic_re data then Some VTopic
      else
        match find later with
        | Some v => Some v
        | None =>
            match after_prefix (u "privacy_section_") data with
            | Some n => if digits n then Some VPrivacySection else None
            | None => None
            end
        end
  end.
End routes.

(** * Dictionaries and sorts *)
Lemma ueqb_true a b : ueqb a b = true <-> a = b.
Proof. apply bool_decide_eq_true. Qed.

Lemma ueqb_refl a : ueqb a a = true.
Proof. by apply ueqb_true. Qed.

Lemma lookup_dict_set {V} k k' (v : V) d :
  lookup_field k (dict_set k' v d) = if ueqb k' k then Some v else lookup_field k d.
Proof.
  induction d as [|[k1 v1] d IH]; simpl; [done|].
  destruct (ueqb k' k1) eqn:E1; simpl.
  - apply ueqb_true in E1 as ->. by destruct (ueqb k1 k).
  - rewrite IH. destruct (ueqb k1 k) eqn:E2; [|done]. apply ueqb_true in E2 as ->. by rewrite E1.
Qed.

Lemma dict_set_In {V} k (v : V) d k' v' : In (k', v') (dict_set k v d) -> (k', v') = (k, v) \/ In (k', v') d.
Proof.
  induction d as [|[k1 v1] d IH]; simpl; [intros [?|[]]; auto|].
  destruct (ueqb k k1); simpl; [intros [?|?]; auto|]. intros [?|H]; [auto|]. destruct (IH H); auto.
Qed.

Lemma lookup_field_In {V} k (d : list (ustr * V)) v : lookup_field k d = Some v -> In (k, v) d.
Proof.
  induction d as [|[k1 v1] d IH]; simpl; [done|]. destruct (ueqb k1 k) eqn:E; [|auto].
  intros [= ->]. apply ueqb_true in E as ->. auto.
Qed.

(** Entries that agree on their key: the dictionary has each. *)
Definition functional {V} (l : list (ustr * V)) : Prop := forall k v v', In (k, v) l -> In (k, v') l -> v = v'.

Lemma dict_fold_In {V} (l : list (ustr * V)) d k v :
  In (k, v) (fold_left (fun d '(k, v) => dict_set k v d) l d) -> In (k, v) l \/ In (k, v) d.
Proof.
  revert d. induction l as [|[k1 v1] l IH]; intros d; simpl; [auto|]. intros [H|H]%IH; [auto|].
  apply dict_set_In in H as [[= -> ->]|H]; auto.
Qed.

Lemma dict_fold_lookup {V} (l : list (ustr * V)) d k v :
  functional (l ++ d) -> In (k, v) l \/ lookup_field k d = Some v ->
  lookup_field k (fold_left (fun d '(k, v) => dict_set k v d) l d) = Some v.
Proof.
  revert d. induction l as [|[k1 v1] l IH]; intros d Hf H; simpl; [by destruct H|]. apply IH.
  - intros k' w w' Hw Hw'. apply (Hf k').
    + apply in_app_iff in Hw as [Hw|[[= -> ->]|Hw]%dict_set_In]; simpl; rewrite ?in_app_iff; auto.
    + apply in_app_iff in Hw' as [Hw'|[[= -> ->]|Hw']%dict_set_In]; simpl; rewrite ?in_app_iff; auto.
  - rewrite lookup_dict_set. destruct H as [[[= -> ->]|H]|H].
    + right. by rewrite ueqb_refl.
    + auto.
    + right. destruct (ueqb k1 k) eqn:E; [|done]. apply ueqb_true in E as ->. f_equal.
      apply (Hf k); simpl; [auto|]. right. apply in_app_iff. right. by apply lookup_field_In.
Qed.

Lemma dict_of_lookup {V} (l : list (ustr * V)) k v :
  functional l -> In (k, v) l <-> lookup_field k (dict_of l) = Some v.
Proof.
  intros Hf. unfold dict_of. split.
  - intros H. apply dict_fold_lookup; [by rewrite app_nil_r|auto].
  - intros H%lookup_field_In%dict_fold_In. by destruct H.
Qed.

Lemma dict_of_In {V} (l : list (ustr * V)) k v : In (k, v) (dict_of l) -> In (k, v) l.
Proof. intros H%dict_fold_In. by destruct H. Qed.

Lemma insert_by_In {A} key (x y : A) l : In y (insert_by key x l) <-> y = x \/ In y l.
Proof.
  induction l as [|z l IH]; simpl; [intuition auto|]. destruct (str_leb _ _); simpl; [intuition auto|].
  rewrite IH. intuition auto.
Qed.

Lemma sort_by_In {A} key (x : A) l : In x (sort_by key l) <-> In x l.
Proof. induction l as [|y l IH]; simpl; [done|]. rewrite insert_by_In, IH. intuition auto. Qed.

Lemma insert_near_In {A} key (x y : A) l : In y (insert_near key x l) <-> y = x \/ In y l.
Proof.
  induction l as [|z l IH]; simpl; [intuition auto|]. destruct (pair_leb _ _); simpl; [intuition auto|].
  rewrite IH. intuition auto.
Qed.

Lemma sort_near_In {A} key (x : A) l : In x (sort_near key l) <-> In x l.
Proof. induction l as [|y l IH]; simpl; [done|]. rewrite insert_near_In, IH. intuition auto. Qed.

(** The first of a sorted list is nearest. *)
Lemma pair_leb_total a b : pair_leb a b = false -> pair_leb b a = true.
Proof.
  unfold pair_leb. destruct a as [[] x], b as [[] y]; simpl; try done; intros H; to_prop; apply Z.leb_le; lia.
Qed.
Lemma pair_leb_trans a b c : pair_leb a b = true -> pair_leb b c = true -> pair_leb a c = true.
Proof.
  unfold pair_leb. destruct a as [[] x], b as [[] y], c as [[] z]; simpl; try done; intros H1 H2; to_prop; apply Z.leb_le; lia.
Qed.

Lemma sort_near_first {A} key (l : list A) x rest : sort_near key l = x :: rest ->
  forall y, In y l -> pair_leb (key x) (key y) = true.
Proof.
  revert x rest. induction l as [|z l IH]; intros x rest; simpl; [done|].
  assert (forall a : bool * Z, pair_leb a a = true) as Hrefl.
  { intros [[] n]; unfold pair_leb; simpl; apply Z.leb_refl. }
  destruct (sort_near key l) as [|w ws] eqn:E; simpl.
  - intros [= <- _] y [<-|Hy]; [apply Hrefl|]. apply (sort_near_In key) in Hy. by rewrite E in Hy.
  - destruct (pair_leb (key z) (key w)) eqn:Hle; intros [= <- _] y [<-|Hy]; try apply Hrefl.
    + eapply pair_leb_trans; [exact Hle|]. by eapply IH.
    + by apply pair_leb_total.
    + by eapply IH.
Qed.

(** Literal texts and prefixes as numbers. *)
Ltac literals :=
  repeat match goal with
  | |- context[after_prefix ?p ?q] => let r := eval vm_compute in (after_prefix p q) in change (after_prefix p q) with r
  | H : context[u ?p] |- _ => let r := eval vm_compute in (u p) in change (u p) with r in H
  end; cbv iota beta.

(** * What the help browser promises *)
Section help_theorems.
Context {CAT : Catalog} (cfg : config) (bot_first_name : string)
  (ALL_MODULES : list ustr) (get_help : ustr -> ustr -> option help_entry).

Abbreviation content := (_builder_help ALL_MODULES get_help).

Lemma help_key_inj m m' : help_key m = help_key m' -> m = m'.
Proof. unfold help_key. apply app_inv_head. Qed.

Lemma slug_of_key m : slug_of (help_key m) = m.
Proof. reflexivity. Qed.

(** The content is the help of the modules that have one. *)
Lemma content_spec locale key h :
  lookup_field key (content locale) = Some h <->
  exists m, In m ALL_MODULES /\ key = help_key m /\ get_help m locale = Some h.
Proof.
  unfold _builder_help. rewrite <- dict_of_lookup.
  - rewrite <- list_elem_of_In, list_elem_of_omap. split.
    + intros (m & Hm & He). apply list_elem_of_In in Hm. destruct (get_help m locale) as [h'|] eqn:Hh; [|done].
      injection He as <- <-. eauto.
    + intros (m & Hm & -> & Hh). exists m. apply list_elem_of_In in Hm. by rewrite Hh.
  - intros k v v' Hv Hv'. apply list_elem_of_In, list_elem_of_omap in Hv as (m & _ & He).
    apply list_elem_of_In, list_elem_of_omap in Hv' as (m' & _ & He').
    destruct (get_help m locale) as [h1|] eqn:H1; [|done]. destruct (get_help m' locale) as [h2|] eqn:H2; [|done].
    injection He as <- <-. injection He' as Hk <-. subst. congruence.
Qed.

Lemma content_In locale key h : In (key, h) (content locale) ->
  exists m, In m ALL_MODULES /\ key = help_key m /\ get_help m locale = Some h.
Proof.
  intros H. apply dict_of_In in H. apply list_elem_of_In, list_elem_of_omap in H as (m & Hm & He).
  apply list_elem_of_In in Hm. destruct (get_help m locale) as [h'|] eqn:Hh; [|done]. injection He as <- <-. eauto.
Qed.

Lemma topic_target_path m (menu : bool) :
  topic_target (if menu then help_key m else u "helpc_" ++ m) = (help_key m, menu).
Proof.
  unfold topic_target. destruct menu; [|by rewrite after_prefix_app].
  unfold help_key. by destruct m as [|c m].
Qed.

(** Names the patterns of the index and of the group alert take first. *)
Definition reserved (m : ustr) : bool := existsb (fun r => ueqb m (u r)) ["menu"; "menu_group"; "main"]%string.

Lemma word_no_colon m : word_re m = true -> Forall (fun c => c <> c_colon) m.
Proof.
  unfold word_re. destruct m as [|c m]; [done|]. intros H. apply List.Forall_forall. intros x Hx ->.
  apply (proj1 (forallb_forall _ _) H) in Hx. rewrite is_alnum_ascii in Hx by (vm_compute; reflexivity). vm_compute in Hx. done.
Qed.

Lemma ueqb_app p m s : ueqb (p ++ m) s = match after_prefix p s with Some r => ueqb m r | None => false end.
Proof.
  revert s. induction p as [|c p IH]; intros s; [done|]. destruct s as [|d s]; simpl; [done|].
  destruct (Z.eqb_spec c d) as [->|Hne].
  - rewrite <- IH. unfold ueqb. apply bool_decide_ext. split; [by intros [= ?]|by intros ->].
  - unfold ueqb. apply bool_decide_eq_false_2. by intros [= ? _].
Qed.

Lemma topic_route m (menu : bool) : word_re m = true -> reserved m = false ->
  menu_route (if menu then help_key m else u "helpc_" ++ m) = Some VTopic.
Proof.
  intros Hw Hr. unfold reserved in Hr. cbn [existsb] in Hr. rewrite !orb_false_iff in Hr.
  destruct Hr as (H1 & H2 & H3 & _).
  assert (topic_re (if menu then help_key m else u "helpc_" ++ m) = true) as Ht.
  { unfold topic_re, help_key. destruct menu; cbn [existsb]; rewrite after_prefix_app, Hw; [done|]. by rewrite orb_true_r. }
  assert (section_re (if menu then help_key m else u "helpc_" ++ m) = false) as Hs by (by destruct menu).
  unfold menu_route. rewrite Ht, Hs. destruct menu; unfold help_key; cbn [List.find fst];
    rewrite !ueqb_app; literals.
  - by rewrite H1, H2.
  - by rewrite H3.
Qed.

(** Every topic of the help index opens its module: the tap is routed to
    the topics, names a loaded module and the way it was reached, and what it
    opens, in the same language, is the help of the module the label names. *)
Theorem topic_taps_resolve (locale : ustr) (menu : bool) (label : text) (cb : ustr) :
  In (label, cb) (_topics_for_locale ALL_MODULES get_help locale menu) ->
  exists m h, In m ALL_MODULES /\ get_help m locale = Some h /\ label = TStr (h_name h) /\
    topic_target cb = (help_key m, menu) /\
    (module_screen ALL_MODULES get_help (help_key m) menu locale).1 = _module_text h locale /\
    (word_re m = true -> reserved m = false -> menu_route cb = Some VTopic).
Proof.
  unfold _topics_for_locale. intros ((key & h) & [= <- <-] & Hin)%in_map_iff.
  apply sort_by_In, content_In in Hin as (m & Hm & -> & Hh). rewrite slug_of_key.
  exists m, h. do 3 (split; [done|]). split; [by destruct menu; rewrite <- topic_target_path|]. split.
  - unfold module_screen. by rewrite (proj2 (content_spec locale (help_key m) h)) by eauto.
  - intros Hw Hr. rewrite <- (topic_route m menu Hw Hr). by destruct menu.
Qed.

Lemma section_route m n (menu : bool) : word_re m = true -> 0 <= n ->
  menu_route (u (if menu then "helps_" else "helpcs_") ++ m ++ colon ++ str_int n) = Some VSection.
Proof.
  intros Hw Hn. pose proof (word_no_colon m Hw) as Hc.
  assert (section_re (u (if menu then "helps_" else "helpcs_") ++ m ++ colon ++ str_int n) = true) as Hs.
  { unfold section_re. destruct menu; cbn [existsb]; rewrite after_prefix_app, partition_app, Hw, digits_str_int by done;
      [done|by rewrite orb_true_r]. }
  unfold menu_route. rewrite Hs. destruct menu; cbn [List.find fst]; rewrite !ueqb_app; by literals.
Qed.

(** Every button of a module's help opens its section: the tap is routed to
    the sections, is read as the module, the number and the way it was
    reached, and the screen shows the section of that number, whose label the
    button carries. *)
Theorem section_taps_resolve (m : ustr) (h : help_entry) (locale : ustr) (menu : bool) (i : nat) (label : text) (cb : ustr) :
  In m ALL_MODULES -> get_help m locale = Some h -> word_re m = true ->
  _section_buttons m (h_sections h) menu !! i = Some (label, cb) ->
  exists name body, h_sections h !! i = Some (name, body) /\ label = TStr name /\
    menu_route cb = Some VSection /\ section_target cb = Some (m, Z.of_nat i, menu) /\
    (section_screen ALL_MODULES get_help m (Z.of_nat i) menu locale).1
      = TKey "help.section.body" locale
          [("title"%string, bold_of (TStr (h_name h ++ " > " ++ name))); ("content"%string, TStr body)].
Proof.
  intros Hm Hh Hw. unfold _section_buttons. rewrite list_lookup_imap.
  destruct (h_sections h !! i) as [[name body]|] eqn:Hi; [|done]. intros [= <- <-]. exists name, body.
  do 2 (split; [done|]). split; [by apply section_route; [|lia]|]. split.
  - unfold section_target. cbv zeta. destruct menu.
    + rewrite startswith_app. cbv iota.
      assert (forall n, drop 6 (u "helps_" ++ m ++ c_colon :: n) = m ++ colon ++ n) as -> by done.
      by rewrite (partition_app _ _ (word_no_colon m Hw)), py_int_str_int.
    + assert (forall n, startswith (u "helpcs_" ++ m ++ c_colon :: n) (u "helps_") = false) as -> by done. cbv iota.
      assert (forall n, drop 7 (u "helpcs_" ++ m ++ c_colon :: n) = m ++ colon ++ n) as -> by done.
      by rewrite (partition_app _ _ (word_no_colon m Hw)), py_int_str_int.
  - unfold section_screen. rewrite (proj2 (content_spec locale (help_key m) h)) by eauto.
    apply lookup_lt_Some in Hi as Hlt.
    destruct (Z.ltb_spec (Z.of_nat i) 0); [lia|]. destruct (Z.leb_spec (Z.of_nat (length (h_sections h))) (Z.of_nat i)); [lia|].
    simpl. by rewrite Nat2Z.id, Hi.
Qed.

(** [/help] with a name opens a module whose name in lower case, or whose
    display name in lower case, is what was asked for. *)
Theorem help_answer_sound (args : list string) (locale : ustr) (key : ustr) :
  lookup_field (help_query args) (_module_map_for_locale ALL_MODULES get_help locale) = Some key ->
  exists m h, In m ALL_MODULES /\ get_help m locale = Some h /\ key = help_key m /\
    (str_lower m = help_query args \/ lower_name (h_name h) = help_query args) /\
    (args <> [] -> help_answer cfg bot_first_name ALL_MODULES get_help args locale
                   = module_screen ALL_MODULES get_help (help_key m) false locale).
Proof.
  intros H.
  assert (exists h, In (key, h) (content locale) /\
    (str_lower (slug_of key) = help_query args \/ lower_name (h_name h) = help_query args)) as (h & Hin & Hq).
  { pose proof (lookup_field_In _ _ _ H) as Hf. revert Hf. unfold _module_map_for_locale.
    enough (forall l acc, (forall k v, In (k, v) acc -> exists h, In (v, h) (content locale) /\
        (str_lower (slug_of v) = k \/ lower_name (h_name h) = k)) ->
      (forall e, In e l -> In e (content locale)) ->
      forall k v, In (k, v) (fold_left (fun m '(key, h) => dict_set (lower_name (h_name h)) key (dict_set (str_lower (slug_of key)) key m)) l acc) ->
      exists h, In (v, h) (content locale) /\ (str_lower (slug_of v) = k \/ lower_name (h_name h) = k)) as Hall.
    { intros Hf. by eapply Hall in Hf. }
    induction l as [|[k1 h1] l IH]; intros acc Hacc Hl k v; simpl; [apply Hacc|]. apply IH; [|intros e He; apply Hl; by right].
    intros k2 v2 [[= -> ->]|[[= -> ->]|Hi]%dict_set_In]%dict_set_In; [| |by apply Hacc];
      exists h1; (split; [apply Hl; by left|auto]). }
  apply content_In in Hin as (m & Hm & -> & Hh). rewrite slug_of_key in Hq. exists m, h. do 4 (split; [done|]).
  intros Hargs. unfold help_answer. destruct args as [|a args]; [done|]. rewrite H.
  by rewrite (proj2 (content_spec locale (help_key m) h)) by eauto.
Qed.

(** When nothing matches, the names suggested are names there are, and the
    first of them contains what was asked for when any does. *)
Theorem suggestions_relevant (query : ustr) (names : list ustr) :
  (forall k, In k (candidates query names) -> In k names) /\ (length (candidates query names) <= 3)%nat /\
  (forall k, In k names -> contains k query = true ->
     exists first rest, candidates query names = first :: rest /\ contains first query = true).
Proof.
  unfold candidates. set (key := fun k => _). split; [|split].
  - intros k Hk. apply (sort_near_In key). apply list_elem_of_In, elem_of_take in Hk as (i & Hi & _).
    by apply list_elem_of_In, (list_elem_of_lookup_2 _ i).
  - rewrite length_take. lia.
  - intros k Hk Hc. destruct (sort_near key names) as [|first rest] eqn:E.
    + apply (sort_near_In key) in Hk. by rewrite E in Hk.
    + exists first, (take 2 rest). split; [done|]. pose proof (sort_near_first key names first rest E k Hk) as Hle.
      unfold pair_leb, key in Hle. simpl in Hle. rewrite Hc in Hle. simpl in Hle. by destruct (contains first query).
Qed.
End help_theorems.

(** * The fixed menus *)
Section menus.
Context {CAT : Catalog} (locale : ustr).

Abbreviation routes_of kb := (map (fun d => menu_route (u d)) (taps kb)).

Lemma link_row_taps links : flat_map taps (link_row locale links) = [].
Proof.
  unfold link_row. set (f := fun '(key, url) => _).
  assert (flat_map taps (flat_map f links) = []) as H.
  { induction links as [|[key url] links IH]; [done|]. cbn [flat_map]. rewrite flat_map_app, IH, app_nil_r.
    unfold f. by destruct (_https_url url). }
  destruct (flat_map f links) as [|b bs]; [done|]. cbn [flat_map]. by rewrite taps_row, H.
Qed.

(** No button of the start menu and of the pages behind it is dead, and each
    leads to the page it names; links to addresses are the only others. *)
Theorem menu_taps_resolve (bot_username : string) (c : Configs) (detailed : bool) :
  routes_of (main_menu_kb locale) = map Some [VAbout; VHelpMenu; VAdditional; VPrivacy; VLanguage] /\
  routes_of (group_start_kb locale bot_username) = [Some VHelpGroup] /\
  routes_of (additional_menu_kb locale c) = [Some VStart] /\
  routes_of (back_to_start_kb locale) = [Some VStart] /\
  routes_of (back_to_help_kb locale) = [Some VHelpMenu] /\
  routes_of (back_to_help_cmd_kb locale) = [Some VHelpcMain] /\
  routes_of (privacy_kb locale) = [Some VPolicy; Some VStart] /\
  routes_of (back_to_privacy_policy_kb locale) = [Some VPolicy] /\
  routes_of (tcgroups_kb detailed locale) = [Some (if detailed then VGroupsSimple else VGroupsDetails)] /\
  routes_of (groups_menu_kb detailed locale)
    = [Some (if detailed then VMenuGroups else VMenuGroupsDetails); Some VStart].
Proof.
  split; [reflexivity|]. split; [by destruct bot_username|]. split.
  - unfold additional_menu_kb. rewrite taps_keyboard, !flat_map_app, !link_row_taps. reflexivity.
  - do 5 (split; [reflexivity|]). split; by destruct detailed.
Qed.

(** The buttons of the privacy policy open the section they number. *)
Theorem privacy_taps_resolve :
  Forall (fun d => (menu_route (u d) = Some VPrivacySection /\
            exists i key, _SECTION_KEYS !! i = Some key /\ py_int (drop 16 (u d)) = Some (Z.of_nat i))
         \/ menu_route (u d) = Some VPrivacy)
    (taps (privacy_policy_sections_kb locale (map (fun key => section_label key locale) _SECTION_KEYS))).
Proof.
  assert (forall i : nat, (i < 6)%nat ->
    menu_route (u "privacy_section_" ++ str_int (Z.of_nat i)) = Some VPrivacySection /\
    exists j key, _SECTION_KEYS !! j = Some key /\
      py_int (drop 16 (u "privacy_section_" ++ str_int (Z.of_nat i))) = Some (Z.of_nat j)) as H.
  { intros i Hi. split.
    - assert (section_re (u "privacy_section_" ++ str_int (Z.of_nat i)) = false) as Hs by done.
      assert (topic_re (u "privacy_section_" ++ str_int (Z.of_nat i)) = false) as Ht by done.
      unfold menu_route. rewrite Hs, Ht, after_prefix_app, digits_str_int by lia.
      cbn [List.find fst]. rewrite !ueqb_app. by literals.
    - destruct (lookup_lt_is_Some_2 _SECTION_KEYS i Hi) as [key Hk]. exists i, key. split; [done|].
      change (drop 16 (u "privacy_section_" ++ str_int (Z.of_nat i))) with (str_int (Z.of_nat i)). apply py_int_str_int. }
  assert (taps (privacy_policy_sections_kb locale (map (fun key => section_label key locale) _SECTION_KEYS))
    = map s_of (map (fun i : nat => u "privacy_section_" ++ str_int (Z.of_nat i)) (seq 0 6)) ++ ["privacy_menu"%string]) as ->
    by reflexivity.
  apply Forall_app. split; [|repeat constructor; by right].
  apply Forall_fmap, Forall_fmap, Forall_seq. intros i Hi. left. unfold compose.
  rewrite u_s_of; [by apply H; lia|]. apply Forall_app. split.
  - repeat constructor; done.
  - eapply Forall_impl; [apply str_int_chars|]. unfold c_minus, ch. simpl. intros x Hx. lia.
Qed.
End menus.

(** * The modules that are loaded *)
Lemma mem_In m l : existsb (String.eqb m) l = true <-> In m l.
Proof.
  rewrite existsb_exists. split; [intros (x & Hx & ->%String.eqb_eq); done|intros H; exists m; by rewrite String.eqb_refl].
Qed.

(** The process stops exactly for a name that is no module; otherwise what is
    loaded are the modules asked for, all when none are, without the denied
    ones. *)
Theorem filter_modules_spec (to_load no_load modules : list string) :
  match _filter_modules to_load no_load modules with
  | None => exists m, In m to_load /\ ~ In m modules
  | Some loaded => forall m, In m loaded <-> In m modules /\ (to_load = [] \/ In m to_load) /\ ~ In m no_load
  end.
Proof.
  assert (forall m l, In m (List.filter (fun m => negb (existsb (String.eqb m) no_load)) l) <-> In m l /\ ~ In m no_load) as Hno.
  { intros m l. by rewrite filter_In, negb_true_iff, <- not_true_iff_false, mem_In. }
  assert (forall m, In m (List.filter (fun m => existsb (String.eqb m) modules) to_load) <-> In m to_load /\ In m modules) as Hto.
  { intros m. by rewrite filter_In, mem_In. }
  unfold _filter_modules. destruct to_load as [|t ts] eqn:Et; [|rewrite <- Et in *; destruct (existsb _ to_load) eqn:Hbad].
  - destruct no_load as [|d ds] eqn:Ed; intros m; [simpl; tauto|]. rewrite Hno. tauto.
  - apply existsb_exists in Hbad as (m & Hm & Hn). exists m. split; [by subst|].
    by rewrite negb_true_iff, <- not_true_iff_false, mem_In in Hn.
  - assert (to_load <> []) by (by subst).
    destruct no_load as [|d ds] eqn:Ed; intros m; [rewrite Hto; simpl; tauto|]. rewrite Hno, Hto. tauto.
Qed.

(** * A small installation *)
Definition sample_help (m locale : ustr) : option help_entry :=
  if ueqb m (u "banning") then Some (HelpEntry "Banning" "Bans." [("Commands", "/tcban"); ("Who", "Staff")]%string)
  else if ueqb m (u "groups") then Some (HelpEntry "Groups" "Groups." []) else None.
Definition sample_modules : list ustr := [u "groups"; u "start"; u "banning"].

Example help_by_name :
  help_answer (CAT:=demo_catalog) demo_config "Bot" sample_modules sample_help ["BANNING"%string] DEFAULT_LOCALE
  = module_screen sample_modules sample_help (u "help_banning") false DEFAULT_LOCALE.
Proof. vm_compute. reflexivity. Qed.

Example help_suggests :
  candidates (u "ban") (map fst (_module_map_for_locale (CAT:=demo_catalog) sample_modules sample_help DEFAULT_LOCALE))
  = [u "banning"; u "groups"].
Proof. vm_compute. reflexivity. Qed.

Lemma section_taps_resolve_witness :
  exists name body, h_sections (HelpEntry "Banning" "Bans." [("Commands", "/tcban"); ("Who", "Staff")]%string) !! 1%nat = Some (name, body) /\
    menu_route (H := @cat_ucd demo_catalog) (u "helpcs_banning:1") = Some VSection.
Proof.
  destruct (section_taps_resolve (CAT:=demo_catalog) sample_modules sample_help (u "banning")
    (HelpEntry "Banning" "Bans." [("Commands", "/tcban"); ("Who", "Staff")]%string) DEFAULT_LOCALE false 1
    (TStr "Who") (u "helpcs_banning:1")) as (name & body & Hs & _ & Hr & _);
    [simpl; tauto|reflexivity|vm_compute; reflexivity|reflexivity|].
  exists name, body. split; [exact Hs|exact Hr].
Defined.
