(* ===== verification/Clients.v ===== *)
(** The connections of the process ([database/redis_client.py],
    [database/mongos/client.py]): what the modules hold open, how they connect
    and close, what Redis is last known to do, and the ids the bot draws.

    A pool or a client is the number of its creation; the handler records which
    ones were made and which were told to close.  Told is not closed: the call
    may have raised, or been cancelled, and the code swallows what it can; what
    the driver then did with its sockets is its own. *)

From S2P Require Import Prelude Prog Text Hoare.

Inductive conn : Type -> Type :=
  (* the variables of redis_client.py and of mongos/client.py *)
  | GetRedis : conn (option nat)
  | SetRedis (c : option nat) : conn unit
  | GetPool : conn (option nat)
  | SetPool (p : option nat) : conn unit
  | GetMongo : conn (option nat)
  | SetMongo (c : option nat) : conn unit
  | SetDb (d : option nat) : conn unit
  (* redis-py; the client of a pool has the pool's number *)
  | NewPool (url : string) : conn nat
  | RedisPing (c : nat) : conn unit
  | RedisAclose (c : nat) : conn unit
  | PoolAclose (p : nat) : conn unit
  (* dnspython and Motor *)
  | ResolvConfExists : conn bool
  | InstallResolver : conn unit
  | NewMongo (uri : string) : conn nat
  | MongoPing (c : nat) : conn unit
  | MongoClose (c : nat) : conn unit.

Record conns := Conns {
  r_client : option nat;
  r_pool : option nat;
  m_client : option nat;
  m_db : option nat;
  pools : nat;
  pools_told : list nat;
  clients : nat;
  clients_told : list nat;
  script : list (result bool)
}.

(** The next answer from outside: one that never comes is a success. *)
Definition answer (s : conns) : result bool * conns :=
  match script s with
  | [] => (Ok true, s)
  | a :: rest => (a, Conns (r_client s) (r_pool s) (m_client s) (m_db s) (pools s) (pools_told s)
                         (clients s) (clients_told s) rest)
  end.

Definition void (r : result bool) : result unit := match r with Ok _ => Ok tt | Err e => Err e end.
(** A call that does not suspend cannot be cancelled. *)
Definition sync (r : result bool) : result unit :=
  match r with Err e => if is_Exception e then Err e else Ok tt | Ok _ => Ok tt end.

Definition set_redis c s := Conns c (r_pool s) (m_client s) (m_db s) (pools s) (pools_told s) (clients s) (clients_told s) (script s).
Definition set_pool p s := Conns (r_client s) p (m_client s) (m_db s) (pools s) (pools_told s) (clients s) (clients_told s) (script s).
Definition set_mongo c s := Conns (r_client s) (r_pool s) c (m_db s) (pools s) (pools_told s) (clients s) (clients_told s) (script s).
Definition set_db d s := Conns (r_client s) (r_pool s) (m_client s) d (pools s) (pools_told s) (clients s) (clients_told s) (script s).
Definition add_pool s := Conns (r_client s) (r_pool s) (m_client s) (m_db s) (S (pools s)) (pools_told s) (clients s) (clients_told s) (script s).
Definition drop_pool p s := Conns (r_client s) (r_pool s) (m_client s) (m_db s) (pools s) (p :: pools_told s) (clients s) (clients_told s) (script s).
Definition add_client s := Conns (r_client s) (r_pool s) (m_client s) (m_db s) (pools s) (pools_told s) (S (clients s)) (clients_told s) (script s).
Definition drop_client c s := Conns (r_client s) (r_pool s) (m_client s) (m_db s) (pools s) (pools_told s) (clients s) (c :: clients_told s) (script s).

Definition handler : forall X, conn X -> conns -> result X * conns :=
  fun X ev =>
    match ev in conn X return conns -> result X * conns with
    | GetRedis => fun s => (Ok (r_client s), s)
    | SetRedis c => fun s => (Ok tt, set_redis c s)
    | GetPool => fun s => (Ok (r_pool s), s)
    | SetPool p => fun s => (Ok tt, set_pool p s)
    | GetMongo => fun s => (Ok (m_client s), s)
    | SetMongo c => fun s => (Ok tt, set_mongo c s)
    | SetDb d => fun s => (Ok tt, set_db d s)
    | NewPool _ => fun s => let '(a, s) := answer s in
        match sync a with Ok _ => (Ok (pools s), add_pool s) | Err e => (Err e, s) end
    | RedisPing _ | RedisAclose _ | MongoPing _ => fun s => let '(a, s) := answer s in (void a, s)
    | PoolAclose p => fun s => let '(a, s) := answer s in (void a, drop_pool p s)
    | ResolvConfExists => fun s => let '(a, s) := answer s in (Ok (ok_or true a), s)
    | InstallResolver => fun s => let '(a, s) := answer s in (sync a, s)
    | NewMongo _ => fun s => let '(a, s) := answer s in
        match sync a with Ok _ => (Ok (clients s), add_client s) | Err e => (Err e, s) end
    | MongoClose c => fun s => let '(a, s) := answer s in (sync a, drop_client c s)
    end.

Abbreviation cio := (prog conn).
Abbreviation cends := (ends handler).

Module RedisClient.

Definition close : cio unit :=
  c <- call GetRedis ;;
  (match c with
   | Some c =>
       r <- attempt (try_except (call (RedisAclose c)) (fun _ => Ret tt)) ;;
       call (SetRedis None) ;;;
       of_result r
   | None => Ret tt
   end) ;;;
  pool <- call GetPool ;;
  call (SetPool None) ;;;
  match pool with
  | Some p => try_except (call (PoolAclose p)) (fun _ => Ret tt)
  | None => Ret tt
  end.

Section redis.
Context (_hiredis_available : bool).

Definition connect (url : string) : cio unit :=
  if negb _hiredis_available then Raise (RuntimeError "hiredis C extension is required when REDIS_URL is set. Install with: uv add 'redis[hiredis]'")
  else
    close ;;;
    pool <- call (NewPool url) ;;
    try_except (call (RedisPing pool))
      (fun exc => try_except (call (PoolAclose pool)) (fun _ => Ret tt) ;;; Raise exc) ;;;
    call (SetRedis (Some pool)) ;;;
    call (SetPool (Some pool)).

(** [if cfg.redis_url]: an unset and an empty URL alike. *)
Definition connect_if_configured (redis_url : option string) : cio unit :=
  match redis_url with
  | Some url => if truthy_str url then try_except (connect url) (fun _ => Ret tt) else Ret tt
  | None => Ret tt
  end.

Inductive redis_op : cio unit -> Prop :=
  | op_connect url : redis_op (connect url)
  | op_configured url : redis_op (connect_if_configured url)
  | op_close : redis_op close.
End redis.

(** What Redis was last seen to do, and the log lines about it. *)
Inductive health_line := UNHEALTHY | HEALTHY.

Definition mark_op (ok : bool) (_liveness : option bool) : option bool * list health_line :=
  (Some ok,
   match ok, _liveness with
   | false, Some false => []
   | false, _ => [UNHEALTHY]
   | true, Some false => [HEALTHY]
   | true, _ => []
   end).

Fixpoint mark_ops (oks : list bool) (_liveness : option bool) : option bool * list health_line :=
  match oks with
  | [] => (_liveness, [])
  | ok :: oks => let '(l, ls) := mark_op ok _liveness in let '(l', ls') := mark_ops oks l in (l', ls ++ ls')
  end.
End RedisClient.

Module Mongos.

(** Keyword arguments of a client. *)
Inductive kwval := KInt (z : Z) | KStr (s : string) | KBool (b : bool) | KStrs (l : list string).
Abbreviation kwargs := (list (string * kwval)).

Definition kw_has (k : string) (d : kwargs) : bool := existsb (fun p => String.eqb k p.1) d.
Definition setdefault (k : string) (v : kwval) (d : kwargs) : kwargs := if kw_has k d then d else d ++ [(k, v)].

Definition _MONGO_SERVER_SELECTION_MS : Z := 10000.
Definition _MONGO_CONNECT_TIMEOUT_MS : Z := 10000.
Definition _MONGO_SOCKET_TIMEOUT_MS : Z := 45000.
Definition _MONGO_MAX_POOL_SIZE : Z := 20.
Definition _MONGO_MIN_POOL_SIZE : Z := 2.
Definition _MONGO_MAX_IDLE_MS : Z := 60000.
Definition _MONGO_HEARTBEAT_MS : Z := 30000.

Definition _ID_ALPHABET : string := "abcdefghijklmnopqrstuvwxyz0123456789".

(** [draws]: what [secrets.choice] picks, as positions in the alphabet. *)
Definition make_short_id (draws : list nat) : ustr :=
  map (fun n => nth (n mod String.length _ID_ALPHABET)%nat (u _ID_ALPHABET) 0) draws.

Definition mongo_client_kwargs `{UCD} (mongodb_uri : string) (certifi_where : string) : kwargs :=
  let kw := if negb (contains (str_lower (u mongodb_uri)) (u "tlscafile")) then [("tlsCAFile"%string, KStr certifi_where)] else [] in
  setdefault "connectTimeoutMS" (KInt _MONGO_CONNECT_TIMEOUT_MS)
    (setdefault "serverSelectionTimeoutMS" (KInt _MONGO_SERVER_SELECTION_MS) kw).

Definition mongo_jobstore_kwargs : kwargs :=
  [("socketTimeoutMS", KInt _MONGO_SOCKET_TIMEOUT_MS); ("maxPoolSize", KInt 2); ("minPoolSize", KInt 0);
   ("maxIdleTimeMS", KInt _MONGO_MAX_IDLE_MS); ("heartbeatFrequencyMS", KInt _MONGO_HEARTBEAT_MS)]%string.

(** The keyword arguments [connect] builds its client with. *)
Definition connect_kwargs `{UCD} (mongodb_uri certifi_where : string) : kwargs :=
  [("socketTimeoutMS", KInt _MONGO_SOCKET_TIMEOUT_MS); ("maxPoolSize", KInt _MONGO_MAX_POOL_SIZE);
   ("minPoolSize", KInt _MONGO_MIN_POOL_SIZE); ("maxIdleTimeMS", KInt _MONGO_MAX_IDLE_MS);
   ("heartbeatFrequencyMS", KInt _MONGO_HEARTBEAT_MS); ("compressors", KStrs ["zlib"]);
   ("retryWrites", KBool true); ("retryReads", KBool true)]%string
  ++ mongo_client_kwargs mongodb_uri certifi_where.

Definition _patch_dns_if_needed : cio unit :=
  found <- call ResolvConfExists ;;
  if negb found then try_except (call InstallResolver) (fun _ => Ret tt) else Ret tt.

(** The breaker around the ping is part of the ping's answer
    ([CircuitBreaker.cb_call]). *)
Definition connect (mongodb_uri : string) : cio unit :=
  _patch_dns_if_needed ;;;
  client <- call (NewMongo mongodb_uri) ;;
  call (MongoPing client) ;;;
  call (SetMongo (Some client)) ;;;
  call (SetDb (Some client)).

Definition close : cio unit :=
  client <- call GetMongo ;;
  call (SetMongo None) ;;;
  call (SetDb None) ;;;
  match client with
  | Some c => try_except (call (MongoClose c)) (fun _ => Ret tt)
  | None => Ret tt
  end.

(** [db()], and [col(name)] which takes a collection of it. *)
Definition db (s : conns) : result nat :=
  match m_db s with Some d => Ok d | None => Err (RuntimeError "DB not initialised; call connect() first.") end.
Definition col (name : string) (s : conns) : result (nat * string) :=
  match db s with Ok d => Ok (d, name) | Err e => Err e end.
Definition is_connected (s : conns) : bool := match m_db s with Some _ => true | None => false end.

Inductive mongo_op : cio unit -> Prop :=
  | op_connect uri : mongo_op (connect uri)
  | op_close : mongo_op close.
End Mongos.

(** * Redis: no pool is lost *)

(** The cancellations still to come. *)
Definition cancels (s : conns) : nat := length (List.filter is_cancel (script s)).

(** Every pool that was made is the current one, was told to close, or is one
    of the [lost]; the client is the current pool's; and the lost ones are no
    more than the cancellations that came, of the [n] there are in all. *)
Record accounted (n : nat) (lost : list nat) (s : conns) : Prop := Accounted {
  acc_lost : (length lost + cancels s <= n)%nat;
  acc_held : forall p, (p < pools s)%nat -> In p (pools_told s) \/ r_pool s = Some p \/ In p lost;
  acc_live : forall p, r_pool s = Some p -> (p < pools s)%nat;
  acc_past : forall p, In p (pools_told s ++ lost) -> (p < pools s)%nat;
  acc_open : forall p, r_pool s = Some p -> ~ In p (pools_told s ++ lost);
  acc_client : forall c, r_client s = Some c -> r_pool s = Some c
}.

Definition all_released (lost : list nat) (s : conns) : Prop :=
  r_client s = None /\ r_pool s = None /\ forall p, (p < pools s)%nat -> In p (pools_told s) \/ In p lost.

(** The same but for the script. *)
Definition same_conns (s s' : conns) : Prop :=
  exists l, s' = Conns (r_client s) (r_pool s) (m_client s) (m_db s) (pools s) (pools_told s) (clients s) (clients_told s) l.

Lemma answer_spec s a s' :
  answer s = (a, s') -> same_conns s s' /\ ((if is_cancel a then 1 else 0) + cancels s' <= cancels s)%nat.
Proof.
  unfold answer, cancels, same_conns. destruct s as [rc rp mc md p pc c cc l]. cbn.
  destruct l as [|b l]; intros [= <- <-]; cbn; [by eauto|]. split; [by eauto|]. destruct (is_cancel b); cbn; lia.
Qed.

Lemma answer_same s a s' : answer s = (a, s') -> same_conns s s'.
Proof. by intros [? _]%answer_spec. Qed.

Module RedisProofs.
Import RedisClient.

Lemma exception_cancel (a : result bool) e : void a = Err e -> is_cancel a = negb (is_Exception e).
Proof. destruct a as [|e']; [done|]. cbn. intros [= <-]. by destruct e'. Qed.

(** An awaited call whose [Exception] is swallowed: it ends, or it was
    cancelled. *)
Lemma swallow_ends (ev : conn unit) (f : conns -> conns) s :
  (forall s, handler unit ev s = let '(a, s1) := answer s in (void a, f s1)) ->
  cends (try_except (call ev) (fun _ => Ret tt))
    (fun r s' => exists s1, same_conns s s1 /\ s' = f s1 /\
       ((r = Ok tt /\ cancels s1 <= cancels s)%nat \/ (r = Err CancelledError /\ cancels s1 < cancels s)%nat)) s.
Proof.
  intros Hev. hoare_step. hoare_step. rewrite Hev. destruct (answer s) as [a s1] eqn:Ha. cbn.
  destruct (answer_spec _ _ _ Ha) as [Hs Hn]. destruct (void a) as [[]|e] eqn:Hv.
  - exists s1. split; [done|]. split; [done|]. left. split; [done|lia].
  - rewrite (exception_cancel _ _ Hv) in Hn. destruct (is_Exception e) eqn:He; cbn in Hn.
    + hoare_step. exists s1. split; [done|]. split; [done|]. left. split; [done|lia].
    + exists s1. split; [done|]. split; [done|]. right. by destruct e.
Qed.

(** [close] lets everything go, or was cancelled on the way and has lost
    nothing. *)
Definition close_outcome n lost (s : conns) (r : result unit) (s' : conns) : Prop :=
  accounted n lost s' /\ pools s' = pools s /\
  ((r = Ok tt /\ all_released lost s') \/ r = Err CancelledError).

Lemma close_ends n lost s : accounted n lost s -> cends close (close_outcome n lost s) s.
Proof.
  intros [Hc Hheld Hlive Hpast Hopen Hcl].
  destruct s as [rc rp mc md m told k kc l]. unfold cancels in Hc. cbn in *.
  unfold close, close_outcome. hoare_step. hoare_step. cbn.
  apply hoare_bind. eapply hoare_mono with (Q := fun r s' => exists l',
    s' = Conns None rp mc md m told k kc l' /\ (cancels s' <= length (List.filter is_cancel l))%nat /\
    (r = Ok tt \/ r = Err CancelledError)).
  { destruct rc as [c|]; cbn match; [|hoare_step; exists l; split; [done|by split; [|left]]].
    hoare_step. hoare_step. eapply hoare_mono; [by apply (swallow_ends _ (fun s => s))|].
    unfold cancels. cbn.
    intros r s' (s1 & [l' ->] & -> & Hr). cbn in Hr. hoare_step. hoare_step. cbn.
    unfold of_result. destruct Hr as [[-> Hn]|[-> Hn]]; hoare_step; exists l'; (split; [done|]);
      (split; [cbn; lia|by (left + right)]). }
  intros r s' (l' & -> & Hn & [->| ->]); unfold cancels in Hn; cbn in Hn.
  2: { cbn. split; [|by split; [|right]]. split; cbn; try done. unfold cancels. cbn. lia. }
  do 4 (hoare_step; cbn).
  destruct rp as [p|]; cbn match.
  - eapply hoare_mono; [by apply (swallow_ends _ (drop_pool p))|]. unfold cancels. cbn.
    intros r s' (s1 & [l2 ->] & -> & Hr). cbn in *.
    assert (forall q, (q < m)%nat -> (p = q \/ In q told) \/ In q lost) as Hcov.
    { intros q Hq. destruct (Hheld q Hq) as [?|[[= ->]|?]]; auto. }
    split; [|split; [done|]].
    + split; cbn; try done.
      * unfold cancels. cbn. lia.
      * intros q Hq. destruct (Hcov q Hq); auto.
      * intros q [<-|Hq]; [by apply Hlive|by apply Hpast].
    + destruct Hr as [[-> _]|[-> _]]; [left|by right]. by split; [|split; [|split; [|exact Hcov]]].
  - hoare_step. split; [|split; [done|left]].
    + split; cbn; try done. unfold cancels. cbn. lia.
    + split; [done|]. split; [done|]. split; [done|]. intros q Hq. cbn in *. destruct (Hheld q Hq) as [?|[[=]|?]]; auto.
Qed.

(** What a connection attempt leaves behind: the new pool as the only one not
    told to close; or, after any failure, none; or, cancelled, at most its own
    pool lost. *)
Definition connect_outcome n lost (s : conns) (r : result unit) (s' : conns) : Prop :=
  match r with
  | Ok _ => accounted n lost s' /\ r_client s' = Some (pools s) /\ r_pool s' = Some (pools s) /\
            forall p, (p < pools s)%nat -> In p (pools_told s') \/ In p lost
  | Err e =>
      if is_Exception e then accounted n lost s' /\ all_released lost s'
      else accounted n lost s' \/ accounted n (pools s :: lost) s'
  end.

(** The new pool of a connect whose old one has been let go. *)
Lemma fresh_pool_ends n lost s :
  accounted n lost s -> all_released lost s -> forall s1, s1 = add_pool s ->
  cends (try_except (call (RedisPing (pools s)))
           (fun exc => try_except (call (PoolAclose (pools s))) (fun _ => Ret tt) ;;; Raise exc) ;;;
         call (SetRedis (Some (pools s))) ;;; call (SetPool (Some (pools s))))
    (connect_outcome n lost s) s1.
Proof.
  intros [Hc _ _ Hpast _ _] (Hrc & Hrp & Hall) s1 ->.
  destruct s as [rc rp mc md m told k kc l]. unfold cancels in Hc. cbn in *. subst rc rp. unfold add_pool. cbn.
  hoare_step. hoare_step. hoare_step. cbn. destruct (answer _) as [a s2] eqn:Ha.
  destruct (answer_spec _ _ _ Ha) as [[l2 ->] Hn]. unfold cancels in Hn. cbn in Hn.
  assert (forall p, In p (told ++ lost) -> (p < S m)%nat) as Hpast' by (intros p Hp; specialize (Hpast p Hp); lia).
  destruct (void a) as [[]|e] eqn:Hv; cbn.
  - do 2 (hoare_step; cbn). hoare_step. cbn. split; [|by split; [|split]]. split; cbn; try done.
    + unfold cancels. cbn. lia.
    + intros p Hp. destruct (decide (p = m)) as [->|]; [auto|]. destruct (Hall p); auto. lia.
    + intros p [= <-]. lia.
    + intros p [= <-] Hin. specialize (Hpast m Hin). lia.
  - rewrite (exception_cancel _ _ Hv) in Hn. unfold connect_outcome. destruct (is_Exception e) eqn:He; cbn in Hn.
    2: { right. split; cbn; try done.
         - unfold cancels. cbn. lia.
         - intros p Hp. destruct (decide (p = m)) as [->|]; [auto|]. destruct (Hall p); auto. lia.
         - intros p Hp. apply in_app_iff in Hp as [Hp|[<-|Hp]]; [|lia|]; apply Hpast', in_app_iff; auto. }
    hoare_step. eapply hoare_mono; [by apply (swallow_ends _ (drop_pool m))|]. unfold cancels. cbn.
    intros r s' (s2 & [l3 ->] & -> & Hr). cbn in Hr.
    assert (forall p, (p < S m)%nat -> (m = p \/ In p told) \/ In p lost) as Hcov.
    { intros p Hp. destruct (decide (m = p)); [auto|]. destruct (Hall p); auto. lia. }
    assert (accounted n lost (drop_pool m (Conns None None mc md (S m) told k kc l3))) as Hacc.
    { split; cbn; try done.
      - unfold cancels. cbn. lia.
      - intros p Hp. destruct (Hcov p Hp); auto.
      - intros p [<-|Hp]; [lia|by apply Hpast']. }
    destruct Hr as [[-> _]|[-> _]]; [cbn; rewrite He|by left]. by split; [|split; [|split]].
Qed.

Lemma connect_ends n lost url s : accounted n lost s -> cends (connect true url) (connect_outcome n lost s) s.
Proof.
  intros Hacc. unfold connect. cbn [negb]. hoare_step. eapply hoare_mono; [by apply close_ends|].
  intros r s1 (Hacc1 & Hn & [[-> Hrel]| ->]); [|by left].
  unfold connect_outcome. rewrite <- Hn. clear Hacc s Hn.
  hoare_step. hoare_step. cbn. destruct (answer s1) as [a s2] eqn:Ha.
  assert (accounted n lost s2 /\ all_released lost s2 /\ pools s2 = pools s1) as (Hacc2 & Hrel2 & <-).
  { destruct (answer_spec _ _ _ Ha) as [[l2 ->] Hc]. destruct Hacc1. by repeat split; cbn in *; try done; try lia; apply Hrel. }
  destruct (sync a) as [[]|e] eqn:Hsy; cbn; [by apply fresh_pool_ends|].
  assert (is_Exception e = true) as -> by (by destruct a as [|[]]; inversion Hsy). done.
Qed.

Lemma connect_accounted av n lost url s :
  accounted n lost s -> exists lost', accounted n lost' (run_state handler (connect av url) s).
Proof.
  intros H. destruct av; [|by exists lost]. pose proof (connect_ends n lost url s H) as Ho. unfold ends, connect_outcome in Ho.
  destruct (run_result handler (connect true url) s) as [u|e]; [by exists lost; apply Ho|].
  destruct (is_Exception e); [by exists lost; apply Ho|]. destruct Ho; eauto.
Qed.

Lemma op_accounted av n p s :
  redis_op av p -> (exists lost, accounted n lost s) -> exists lost, accounted n lost (run_state handler p s).
Proof.
  intros Hp [lost H]. destruct Hp as [url|url|].
  - by eapply connect_accounted.
  - destruct url as [url|]; [|by exists lost]. cbn. destruct (truthy_str url); [|by exists lost].
    destruct (connect_accounted av n lost url s H) as [lost' H'].
    assert (cends (try_except (connect av url) (fun _ => Ret tt)) (fun _ => accounted n lost') s) as Hend; [|by exists lost'].
    hoare_step. unfold ends. destruct (run_result handler (connect av url) s) as [[]|e]; [done|].
    by destruct (is_Exception e).
  - exists lost. apply (close_ends n lost s H).
Qed.
End RedisProofs.

(** Connections that were never opened. *)
Definition fresh (answers : list (result bool)) : conns := Conns None None None None 0 [] 0 [] answers.

Lemma fresh_accounted answers : accounted (cancels (fresh answers)) [] (fresh answers).
Proof. split; cbn; try done. lia. Qed.

(** C38: however often the bot connects to Redis, reconnects and closes,
    whatever fails and whatever is cancelled on the way: every pool that was
    made is the current one, was told to close, or was lost to a cancellation,
    and there are never more lost pools than cancellations that came - none
    without one; the shared client is the current pool's.  A further attempt
    that succeeds leaves its own pool as the only one not told to close or
    lost; one that fails leaves no current pool and its own told to close; one
    that is cancelled adds at most its own to the lost
    ([cancelled_ping_orphans_pool]).  That a pool was told to close does not say
    that the driver's close succeeded. *)
Theorem pools_accounted av answers s' :
  reachable handler (RedisClient.redis_op av) (fresh answers) s' ->
  exists lost, accounted (cancels (fresh answers)) lost s' /\
    forall url, RedisProofs.connect_outcome (cancels (fresh answers)) lost s'
                  (run_result handler (RedisClient.connect true url) s')
                  (run_state handler (RedisClient.connect true url) s').
Proof.
  intros Hr. assert (exists lost, accounted (cancels (fresh answers)) lost s') as [lost Hacc].
  { eapply (reachable_inv handler _ (fun s => exists lost, accounted (cancels (fresh answers)) lost s)); [|exact Hr|].
    - intros p s. apply RedisProofs.op_accounted.
    - exists []. apply fresh_accounted. }
  exists lost. split; [done|]. intros url. by apply RedisProofs.connect_ends.
Qed.

(** A connect that is cancelled at its ping, and one over a Redis that does not
    answer: one pool is lost, the other one told to close. *)
Lemma pools_accounted_witness :
  let calls := [Ok true; Err CancelledError; Ok true; Err (OtherException "ConnectionError")] in
  let s := run_state handler (RedisClient.connect true "redis://a") (fresh calls) in
  let s' := run_state handler (RedisClient.connect true "redis://b") s in
  pools s' = 2%nat /\ pools_told s' = [1%nat] /\
  run_result handler (RedisClient.connect true "redis://b") s = Err (OtherException "ConnectionError") /\
  exists lost, accounted 1 lost s' /\ lost = [0%nat].
Proof.
  split; [done|split; [done|split; [done|]]].
  destruct (pools_accounted true [Ok true; Err CancelledError; Ok true; Err (OtherException "ConnectionError")]
    (run_state handler (RedisClient.connect true "redis://b")
       (run_state handler (RedisClient.connect true "redis://a")
          (fresh [Ok true; Err CancelledError; Ok true; Err (OtherException "ConnectionError")])))) as (lost & Hacc & _).
  { eapply reach_step; [apply (RedisClient.op_connect true "redis://a")|].
    eapply reach_step; [apply (RedisClient.op_connect true "redis://b")|apply reach_refl]. }
  exists lost. split; [exact Hacc|]. destruct Hacc as [Hl Hheld _ _ _ _].
  change (length lost + 0 <= 1)%nat in Hl.
  destruct (Hheld 0%nat) as [Ht|[Hp|H0]]; [vm_compute; lia|by destruct Ht|discriminate Hp|].
  destruct lost as [|x [|y lost]]; [destruct H0| |cbn in Hl; lia]. by destruct H0 as [->|[]].
Defined.

(** The exception: a connect that is cancelled while it waits for the ping
    leaves its pool open and known to nobody. *)
Example cancelled_ping_orphans_pool :
  let s := run_state handler (RedisClient.connect true "redis://a") (fresh [Ok true; Err CancelledError]) in
  pools s = 1%nat /\ pools_told s = [] /\ r_pool s = None.
Proof. done. Qed.

(** [connect_if_configured] ends without an [Exception], whatever happens. *)
Theorem configured_degrades av url s e :
  is_Exception e = true -> run_result handler (RedisClient.connect_if_configured av url) s <> Err e.
Proof.
  assert (cends (RedisClient.connect_if_configured av url)
            (fun r _ => is_Exception e = true -> r <> Err e) s) as H; [|exact H].
  unfold RedisClient.connect_if_configured. destruct url as [url|]; [|done]. destruct (truthy_str url); [|done].
  hoare_step. unfold ends. destruct (run_result handler (RedisClient.connect av url) s) as [[]|e']; [done|].
  destruct (is_Exception e') eqn:He'; [done|]. intros He [= ->]. congruence.
Qed.

Lemma configured_degrades_witness :
  let s := fresh [Ok true; Err (OtherException "ConnectionError")] in
  run_result handler (RedisClient.connect true "redis://a") s = Err (OtherException "ConnectionError") /\
  run_result handler (RedisClient.connect_if_configured true (Some "redis://a")) s <> Err (OtherException "ConnectionError").
Proof. split; [done|]. by apply configured_degrades. Defined.

(** * The log of Redis's health *)

(** Lines of the two kinds in turn, beginning with [first]. *)
Fixpoint in_turn (first : RedisClient.health_line) (ls : list RedisClient.health_line) : bool :=
  match ls, first with
  | [], _ => true
  | RedisClient.UNHEALTHY :: ls, RedisClient.UNHEALTHY => in_turn RedisClient.HEALTHY ls
  | RedisClient.HEALTHY :: ls, RedisClient.HEALTHY => in_turn RedisClient.UNHEALTHY ls
  | _, _ => false
  end.

(** An outage is logged once when it begins and once when it ends: the lines
    alternate, and the last one tells the state Redis is in. *)
Theorem outages_logged_once oks l :
  in_turn (match l with Some false => RedisClient.HEALTHY | _ => RedisClient.UNHEALTHY end)
          (RedisClient.mark_ops oks l).2 = true /\
  (oks <> [] -> (RedisClient.mark_ops oks l).1 = last oks).
Proof.
  revert l. induction oks as [|ok oks IH]; intros l; [by destruct l as [[]|]|].
  cbn. destruct (RedisClient.mark_ops oks (Some ok)) as [l' ls'] eqn:Hm. specialize (IH (Some ok)). rewrite Hm in IH.
  destruct IH as [IH Hlast]. split.
  - destruct ok, l as [[]|]; cbn in *; done.
  - intros _. destruct oks as [|ok' oks]; [by injection Hm as <- _|]. by apply Hlast.
Qed.

Lemma outages_logged_once_witness :
  let ops := [true; false; false; true] in
  (RedisClient.mark_ops ops None).2 = [RedisClient.UNHEALTHY; RedisClient.HEALTHY] /\
  (RedisClient.mark_ops ops None).1 = Some true.
Proof. split; [done|]. by rewrite (proj2 (outages_logged_once [true; false; false; true] None)). Defined.

(** * MongoDB *)

(** The two variables of the module agree. *)
Definition paired (s : conns) : Prop := m_db s = m_client s.


Module MongosProofs.
Import Mongos.

(** What [connect] leaves: a new client in both variables, or the old one. *)
Definition mongo_connect_outcome (s : conns) (r : result unit) (s' : conns) : Prop :=
  clients_told s' = clients_told s /\ r_client s' = r_client s /\ r_pool s' = r_pool s /\
  match r with
  | Ok _ => m_client s' = Some (clients s) /\ m_db s' = Some (clients s)
  | Err _ => m_client s' = m_client s /\ m_db s' = m_db s
  end.

Lemma patch_ends s : cends _patch_dns_if_needed (fun r s' => r = Ok tt /\ same_conns s s') s.
Proof.
  unfold _patch_dns_if_needed. hoare_step. hoare_step. cbn. destruct (answer s) as [a s1] eqn:Ha.
  apply answer_same in Ha as [l ->]. cbn. destruct (negb (ok_or true a)); [|hoare_step; split; [done|eexists; done]].
  hoare_step. hoare_step. cbn. destruct (answer _) as [b s2] eqn:Hb. apply answer_same in Hb as [l2 ->]. cbn.
  destruct (sync b) as [[]|e] eqn:Hs; [split; [done|eexists; done]|].
  assert (is_Exception e = true) as -> by (by destruct b as [|[]]; inversion Hs).
  hoare_step. split; [done|eexists; done].
Qed.

Lemma mongo_connect_ends uri s : cends (connect uri) (mongo_connect_outcome s) s.
Proof.
  unfold connect, mongo_connect_outcome. hoare_step. eapply hoare_mono; [apply patch_ends|]. intros r s1 (-> & [l1 ->]).
  hoare_step. hoare_step. cbn. destruct (answer _) as [a s2] eqn:Ha. apply answer_same in Ha as [l2 ->].
  destruct (sync a) as [[]|e]; cbn; [|done].
  hoare_step. hoare_step. cbn. destruct (answer _) as [b s3] eqn:Hb. apply answer_same in Hb as [l3 ->].
  destruct (void b) as [[]|e]; cbn; [|done].
  do 2 (hoare_step; cbn). by hoare_step.
Qed.

Lemma mongo_close_ends s :
  cends close (fun r s' => r = Ok tt /\ m_client s' = None /\ m_db s' = None /\
                 clients_told s' = match m_client s with Some c => c :: clients_told s | None => clients_told s end) s.
Proof.
  unfold close. do 6 (hoare_step; cbn). destruct (m_client s) as [c|]; cbn match; [|by hoare_step].
  hoare_step. hoare_step. cbn. destruct (answer _) as [b s2] eqn:Hb. apply answer_same in Hb as [l2 ->]. cbn.
  destruct (sync b) as [[]|e] eqn:Hs; [done|].
  assert (is_Exception e = true) as -> by (by destruct b as [|[]]; inversion Hs). by hoare_step.
Qed.

Lemma op_paired p s : mongo_op p -> paired s -> paired (run_state handler p s).
Proof.
  unfold paired. intros [uri|] H.
  - destruct (mongo_connect_ends uri s) as (_ & _ & _ & Ho).
    destruct (run_result handler (connect uri) s); destruct Ho as [-> ->]; done.
  - destruct (mongo_close_ends s) as (_ & -> & -> & _). done.
Qed.
End MongosProofs.

(** The database is there exactly while a client is: what [db()] answers after
    any sequence of connects and closes is the client of the last [connect] that
    worked, or the error that tells to connect first. *)
Theorem database_follows_connection answers s' uri :
  reachable handler Mongos.mongo_op (fresh answers) s' ->
  Mongos.is_connected s' = bool_decide (m_client s' <> None) /\
  let s1 := run_state handler (Mongos.connect uri) s' in
  let s2 := run_state handler Mongos.close s' in
  (is_err (run_result handler (Mongos.connect uri) s') = false -> Mongos.db s1 = Ok (clients s')) /\
  (is_err (run_result handler (Mongos.connect uri) s') = true -> Mongos.db s1 = Mongos.db s') /\
  is_err (Mongos.db s2) = true /\ (forall c, Mongos.db s' = Ok c -> In c (clients_told s2)).
Proof.
  intros Hr. assert (paired s') as Hp.
  { eapply reachable_inv; [|exact Hr|done]. intros p s. apply MongosProofs.op_paired. }
  unfold Mongos.is_connected, Mongos.db. destruct (MongosProofs.mongo_connect_ends uri s') as (_ & _ & _ & Ho).
  destruct (MongosProofs.mongo_close_ends s') as (_ & _ & -> & ->). unfold paired in Hp. rewrite Hp.
  split; [by destruct (m_client s')|]. cbn zeta. split; [|split; [|split; [done|]]].
  - intros He. destruct (run_result handler (Mongos.connect uri) s'); [|done]. by destruct Ho as [_ ->].
  - intros He. destruct (run_result handler (Mongos.connect uri) s'); [done|]. destruct Ho as [_ ->]. by rewrite Hp.
  - intros c. destruct (m_client s') as [c'|]; [|done]. intros [= ->]. by left.
Qed.

Lemma database_follows_connection_witness :
  let s := run_state handler (Mongos.connect "mongodb://a") (fresh []) in
  Mongos.db s = Ok 0%nat /\ In 0%nat (clients_told (run_state handler Mongos.close s)).
Proof.
  split; [done|].
  destruct (database_follows_connection [] (run_state handler (Mongos.connect "mongodb://a") (fresh [])) "mongodb://b"%string)
    as (_ & _ & _ & _ & H); [|by apply H].
  eapply reach_step; [apply (Mongos.op_connect "mongodb://a")|apply reach_refl].
Defined.

(** A client whose ping fails, and one a second [connect] replaces, is never
    closed. *)
Example failed_ping_drops_client :
  let s := run_state handler (Mongos.connect "mongodb://a") (fresh [Ok true; Ok true; Err (PyMongoError "unreachable")]) in
  clients s = 1%nat /\ clients_told s = [] /\ m_client s = None.
Proof. done. Qed.

Example reconnect_drops_client :
  let s := run_state handler (Mongos.connect "mongodb://a") (run_state handler (Mongos.connect "mongodb://a") (fresh [])) in
  clients s = 2%nat /\ clients_told s = [] /\ m_client s = Some 1%nat.
Proof. done. Qed.

(** * Keyword arguments and ids *)

(** No keyword is passed twice, whatever the URI: neither to the Motor client
    nor to the scheduler's job store, which adds its own to the shared ones. *)
Theorem no_keyword_twice `{UCD} uri where_ :
  NoDup (map fst (Mongos.connect_kwargs uri where_)) /\
  NoDup (map fst ([("database", Mongos.KStr ""); ("host", Mongos.KStr uri)]%string
                    ++ Mongos.mongo_client_kwargs uri where_ ++ Mongos.mongo_jobstore_kwargs)).
Proof.
  unfold Mongos.connect_kwargs, Mongos.mongo_client_kwargs.
  destruct (contains _ _); split; apply NoDup_ListNoDup; cbn;
    repeat (constructor; [cbn; intuition discriminate|]); constructor.
Qed.

(** An id is as long as asked for and of the characters a tap's pattern accepts. *)
Theorem short_id_alphabet draws :
  length (Mongos.make_short_id draws) = length draws /\
  Forall (fun c => ascii_lower_letter c || ((48 <=? c) && (c <=? 57)) = true) (Mongos.make_short_id draws).
Proof.
  split; [apply length_map|]. apply List.Forall_forall. intros c Hc.
  unfold Mongos.make_short_id in Hc. apply in_map_iff in Hc as (n & <- & _).
  assert (forallb (fun c => ascii_lower_letter c || ((48 <=? c) && (c <=? 57))) (u Mongos._ID_ALPHABET) = true) as Hall
    by (vm_compute; done).
  rewrite forallb_forall in Hall. apply Hall, nth_In.
  replace (length (u Mongos._ID_ALPHABET)) with (String.length Mongos._ID_ALPHABET) by (vm_compute; done).
  apply Nat.mod_upper_bound. by vm_compute.
Qed.
