(* ===== verification/Scheduler.v ===== *)
(** The job scheduler of the process ([database/scheduler/]): the background
    task that owns it, the recurring jobs it registers, and how it is started,
    stopped and asked whether it is ready.

    The background task is a program of its own, kept by the event loop and
    advanced whenever [start] or [stop] wait; it suspends only at
    [await _sched_stop.wait()].  What APScheduler, the clock and the callers'
    cancellation do is scripted. *)

From S2P Require Import Prelude Prog Hoare.

(** * The package's variables *)
Record vars := Vars {
  _scheduler : bool;
  _sched_task : bool;
  _sched_ready : option bool;
  _sched_stop : option bool;
  _sched_error : option exn;
  _sync_bot : bool
}.

(** [None] everywhere: what the module starts with. *)
Definition no_vars : vars := Vars false false None None None false.

Definition put_scheduler b v := Vars b (_sched_task v) (_sched_ready v) (_sched_stop v) (_sched_error v) (_sync_bot v).
Definition put_task b v := Vars (_scheduler v) b (_sched_ready v) (_sched_stop v) (_sched_error v) (_sync_bot v).
Definition put_ready r v := Vars (_scheduler v) (_sched_task v) r (_sched_stop v) (_sched_error v) (_sync_bot v).
Definition put_stop r v := Vars (_scheduler v) (_sched_task v) (_sched_ready v) r (_sched_error v) (_sync_bot v).
Definition put_error e v := Vars (_scheduler v) (_sched_task v) (_sched_ready v) (_sched_stop v) e (_sync_bot v).
Definition put_bot b v := Vars (_scheduler v) (_sched_task v) (_sched_ready v) (_sched_stop v) (_sched_error v) b.

Definition is_ready (v : vars) : bool :=
  _scheduler v && match _sched_ready v with Some b => b | None => false end
  && match _sched_error v with None => true | Some _ => false end.

(** * The background task *)
Inductive jobs : Type -> Type :=
  | JRead : jobs vars
  | JPut (f : vars -> vars) : jobs unit
  (* APScheduler *)
  | NewJobStore : jobs unit
  | NewScheduler : jobs unit
  | AddJob (id : string) (hours : Z) (args : list Z) (misfire_grace_time : Z) : jobs unit
  | RemoveJob (id : string) : jobs unit
  | SchedulerStart : jobs unit
  | SchedulerShutdown : jobs unit
  (* [await _sched_stop.wait()] *)
  | WaitStop : jobs unit.

Definition _WARN_EXPIRY_SCHEDULE_ID : string := "tcbot.warn_expiry_daily".
Definition _SYNC_SCHEDULE_ID : string := "tcbot.enforcement_sync".
Definition _CLEANUP_SCHEDULE_ID : string := "tcbot.db_cleanup_weekly".

Definition remove_quietly (id : string) : prog jobs unit := try_except (call (RemoveJob id)) (fun _ => Ret tt).

Definition _register_periodic_schedules (warn_expiry_days sync_interval_hours : Z) : prog jobs unit :=
  (if 0 <? warn_expiry_days then call (AddJob _WARN_EXPIRY_SCHEDULE_ID 24 [warn_expiry_days] 86400)
   else remove_quietly _WARN_EXPIRY_SCHEDULE_ID) ;;;
  remove_quietly _CLEANUP_SCHEDULE_ID ;;;
  v <- call JRead ;;
  if (0 <? sync_interval_hours) && _sync_bot v
  then call (AddJob _SYNC_SCHEDULE_ID sync_interval_hours [] 86400)
  else remove_quietly _SYNC_SCHEDULE_ID.

(** From the start of the scheduler to its shutdown. *)
Definition serve : prog jobs unit :=
  v <- call JRead ;;
  match _sched_ready v, _sched_stop v with
  | None, _ => Raise (RuntimeError "_sched_ready event not initialised before _scheduler_background ran")
  | _, None => Raise (RuntimeError "_sched_stop event not initialised before _scheduler_background ran")
  | Some _, Some _ =>
      call (JPut (put_ready (Some true))) ;;;
      call WaitStop ;;;
      call SchedulerShutdown
  end.

(** The [except] and [finally] of the task. *)
Definition wind_up (started : bool) (r : result unit) : prog jobs unit :=
  (match r with
   | Err exc =>
       if is_Exception exc then
         call (JPut (put_error (Some exc))) ;;;
         v <- call JRead ;;
         match _sched_ready v with
         | Some false => call (JPut (put_ready (Some true)))
         | _ => Ret tt
         end
       else Ret tt
   | Ok _ => Ret tt
   end) ;;;
  (if started then try_except (call SchedulerShutdown) (fun _ => Ret tt) else Ret tt) ;;;
  call (JPut (put_scheduler false)) ;;;
  match r with
  | Err exc => if is_Exception exc then Ret tt else Raise exc
  | Ok _ => Ret tt
  end.

Definition _scheduler_background (warn_expiry_days sync_interval_hours : Z) : prog jobs unit :=
  call NewJobStore ;;;
  call NewScheduler ;;;
  call (JPut (put_scheduler true)) ;;;
  r <- attempt (_register_periodic_schedules warn_expiry_days sync_interval_hours ;;; call SchedulerStart) ;;
  match r with
  | Err e => wind_up false (Err e)
  | Ok _ => r <- attempt serve ;; wind_up (is_err r) r
  end.

(** * The event loop *)

(** The task: not yet run, suspended, or over. *)
Inductive task :=
  | Created (p : prog jobs unit)
  | Waiting (p : prog jobs unit)
  | Ended (r : result unit).

(** An answer from outside; [early]: a cancellation that arrives before the
    background task has had its turn. *)
Record reply := Reply { early : bool; how : result unit }.

(** [up]: the schedulers that were started and not shut down.  [refusals]: the
    shutdowns that raised, after which a scheduler may be running that nobody
    refers to.  [lost]: a task was replaced while it was alive. *)
Record sys := Sys {
  sv : vars;
  bg : option task;
  cancel_req : bool;
  up : nat;
  refusals : nat;
  lost : bool;
  added : list string;
  replies : list reply
}.

Definition next (s : sys) : reply * sys :=
  match replies s with
  | [] => (Reply false (Ok tt), s)
  | r :: rs => (r, Sys (sv s) (bg s) (cancel_req s) (up s) (refusals s) (lost s) (added s) rs)
  end.
Definition at_vars (f : vars -> vars) s := Sys (f (sv s)) (bg s) (cancel_req s) (up s) (refusals s) (lost s) (added s) (replies s).
Definition at_bg t s := Sys (sv s) t (cancel_req s) (up s) (refusals s) (lost s) (added s) (replies s).
Definition at_cancel b s := Sys (sv s) (bg s) b (up s) (refusals s) (lost s) (added s) (replies s).
Definition at_started s := Sys (sv s) (bg s) (cancel_req s) (S (up s)) (refusals s) (lost s) (added s) (replies s).
Definition at_shut s := Sys (sv s) (bg s) (cancel_req s) (pred (up s)) (refusals s) (lost s) (added s) (replies s).
Definition at_refused s := Sys (sv s) (bg s) (cancel_req s) (up s) (S (refusals s)) (lost s) (added s) (replies s).
Definition at_lost b s := Sys (sv s) (bg s) (cancel_req s) (up s) (refusals s) (lost s || b) (added s) (replies s).
Definition at_added id s := Sys (sv s) (bg s) (cancel_req s) (up s) (refusals s) (lost s) (id :: added s) (replies s).

(** A call that does not suspend is never cancelled. *)
Definition uncancelled (r : result unit) : result unit :=
  match r with Err CancelledError => Ok tt | _ => r end.

(** The calls of the background task; [None]: it stays suspended. *)
Definition jobs_handler : forall X, jobs X -> sys -> option (result X * sys) :=
  fun X ev =>
    match ev in jobs X return sys -> option (result X * sys) with
    | JRead => fun s => Some (Ok (sv s), s)
    | JPut f => fun s => Some (Ok tt, at_vars f s)
    | NewJobStore | NewScheduler | RemoveJob _ => fun s => let '(r, s) := next s in Some (uncancelled (how r), s)
    | AddJob id _ _ _ => fun s => let '(r, s) := next s in
        match uncancelled (how r) with Ok _ => Some (Ok tt, at_added id s) | Err e => Some (Err e, s) end
    | SchedulerStart => fun s => let '(r, s) := next s in
        match uncancelled (how r) with Ok _ => Some (Ok tt, at_started s) | Err e => Some (Err e, s) end
    | SchedulerShutdown => fun s => let '(r, s) := next s in
        match uncancelled (how r) with Ok _ => Some (Ok tt, at_shut s) | Err e => Some (Err e, at_refused s) end
    | WaitStop => fun s =>
        if cancel_req s then Some (Err CancelledError, at_cancel false s)
        else match _sched_stop (sv s) with Some true => Some (Ok tt, s) | _ => None end
    end.

(** Run a program until it ends or is suspended.  The task gathers nothing. *)
Inductive progress (A : Type) := Done (r : result A) (s : sys) | Blocked (p : prog jobs A) (s : sys).
Arguments Done {A} r s.
Arguments Blocked {A} p s.

Fixpoint advance {A} (p : prog jobs A) (s : sys) : progress A :=
  match p with
  | Ret a => Done (Ok a) s
  | Raise e => Done (Err e) s
  | Vis ev k => match jobs_handler _ ev s with Some (x, s') => advance (k x) s' | None => Blocked p s end
  | Par _ _ _ => Blocked p s
  end.

Definition park (x : progress unit) : sys :=
  match x with Done r s => at_bg (Some (Ended r)) s | Blocked p s => at_bg (Some (Waiting p)) s end.

(** One turn of the background task. *)
Definition take_turn (s : sys) : sys :=
  match bg s with
  | Some (Created p) =>
      if cancel_req s then at_bg (Some (Ended (Err CancelledError))) (at_cancel false s) else park (advance p s)
  | Some (Waiting p) => park (advance p s)
  | _ => s
  end.

Definition alive (s : sys) : bool := match bg s with Some (Created _) | Some (Waiting _) => true | _ => false end.

(** * [start], [stop] *)
Inductive sch : Type -> Type :=
  | SRead : sch vars
  | SPut (f : vars -> vars) : sch unit
  | CreateTask (p : prog jobs unit) : sch unit
  | TaskDone : sch bool
  | CancelTask : sch unit
  (* each within its timeout: [_sched_ready.wait()]; the task; its gathering *)
  | WaitReady (ms : Z) : sch unit
  | WaitTask (ms : Z) : sch unit
  | GatherTask (ms : option Z) : sch unit.

(** Waiting for what [cond] tells: the background has its turn unless the
    caller is cancelled first; [interrupted] is what giving up does.  Only a
    wait with a timeout is given up while [cond] would do. *)
Definition wait_for (timed : bool) (cond : sys -> option (result unit)) (interrupted : sys -> sys) (s : sys)
  : result unit * sys :=
  let '(a, s) := next s in
  if is_cancel (how a) then (Err CancelledError, interrupted (if early a then s else take_turn s))
  else
    let s := take_turn s in
    match cond s with
    | Some x => if is_err (how a) && timed then (Err TimeoutError, interrupted s) else (x, s)
    | None => (Err TimeoutError, interrupted s)
    end.

Definition cancel_alive (s : sys) : sys := if alive s then at_cancel true s else s.
Definition task_result (s : sys) : option (result unit) := match bg s with Some (Ended r) => Some r | _ => None end.
Definition is_set (e : option bool) : option (result unit) := match e with Some true => Some (Ok tt) | _ => None end.

Definition gathered (s : sys) : option (result unit) := match task_result s with Some _ => Some (Ok tt) | None => None end.

Definition handler : forall X, sch X -> sys -> result X * sys :=
  fun X ev =>
    match ev in sch X return sys -> result X * sys with
    | SRead => fun s => (Ok (sv s), s)
    | SPut f => fun s => (Ok tt, at_vars f s)
    | CreateTask p => fun s => (Ok tt, at_bg (Some (Created p)) (at_cancel false (at_lost (alive s) s)))
    | TaskDone => fun s => (Ok (negb (alive s)), s)
    | CancelTask => fun s => (Ok tt, cancel_alive s)
    | WaitReady _ => wait_for true (fun s => is_set (_sched_ready (sv s))) id
    | WaitTask _ => wait_for true task_result cancel_alive
    | GatherTask ms => wait_for (match ms with None => false | Some _ => true end) gathered cancel_alive
    end.

Definition _STOP_TIMEOUT_S : Z := 10.

Definition live_task : prog sch bool :=
  v <- call SRead ;;
  if _sched_task v then d <- call TaskDone ;; Ret (negb d) else Ret false.

(** [try: await wait_for(gather(task), 2.0)  except TimeoutError] *)
Definition gather_bounded_2s : prog sch unit :=
  r <- attempt (call (GatherTask (Some 2000))) ;;
  match r with
  | Err TimeoutError => Ret tt
  | r => of_result r
  end.

(** The four variables [start] gives back. *)
Definition clear (v : vars) : vars := put_task false (put_ready None (put_stop None (put_error None v))).

(** After the wait for readiness: an error with the task over, or readiness. *)
Definition start_waited : prog sch unit :=
  r <- attempt (call (WaitReady (1000 * _STOP_TIMEOUT_S))) ;;
  match r with
  | Err CancelledError =>
      live <- live_task ;;
      (if live : bool then call CancelTask ;;; call (GatherTask None) else Ret tt) ;;;
      call (SPut clear) ;;;
      Raise CancelledError
  | Err TimeoutError =>
      call (SPut (put_error (Some TimeoutError))) ;;;
      live <- live_task ;;
      if live : bool then call CancelTask ;;; gather_bounded_2s else Ret tt
  | r => of_result r
  end.

(** The end of [start]: with its error, or ready. *)
Definition start_verdict : prog sch unit :=
  v <- call SRead ;;
  match _sched_error v with
  | Some _ =>
      (if _sched_task v then gather_bounded_2s else Ret tt) ;;;
      call (SPut clear) ;;;
      Raise (RuntimeError "APScheduler failed to start.")
  | None => Ret tt
  end.

Definition start (warn_expiry_days : Z) (bot : bool) (sync_interval_hours : Z) : prog sch unit :=
  running <- live_task ;;
  if running : bool then Raise (RuntimeError "APScheduler already started.")
  else
    call (SPut (fun v => put_bot bot (put_error None (put_stop (Some false) (put_ready (Some false) v))))) ;;;
    call (CreateTask (_scheduler_background warn_expiry_days sync_interval_hours)) ;;;
    call (SPut (put_task true)) ;;;
    start_waited ;;;
    start_verdict.

Definition stop : prog sch unit :=
  v <- call SRead ;;
  (match _sched_stop v with Some _ => call (SPut (put_stop (Some true))) | None => Ret tt end) ;;;
  (if _sched_task v then
     r <- attempt (call (WaitTask (1000 * _STOP_TIMEOUT_S))) ;;
     match r with
     | Err TimeoutError =>
         d <- call TaskDone ;;
         if negb d then call CancelTask ;;; gather_bounded_2s else Ret tt
     | r => of_result r
     end
   else Ret tt) ;;;
  call (SPut (fun v => put_bot false (clear v))).

(** * Turns of the background task *)

(** [p] ends with [D] or is suspended with [B]. *)
Definition goes {A} (p : prog jobs A) (D : result A -> sys -> Prop) (B : prog jobs A -> sys -> Prop) (s : sys) : Prop :=
  match advance p s with Done r s' => D r s' | Blocked p' s' => B p' s' end.

Lemma goes_bind {A C} (p : prog jobs A) (f : A -> prog jobs C) D B s :
  goes p (fun r s' => match r with Ok a => goes (f a) D B s' | Err e => D (Err e) s' end)
         (fun p' => B (bind p' f)) s ->
  goes (bind p f) D B s.
Proof.
  unfold goes. revert f s. induction p as [A a|A e|A X ev k IH|A X Y p1 _ p2 _ k _]; intros f s; [exact (fun H => H)..| |exact (fun H => H)].
  change (bind (Vis ev k) f) with (Vis ev (fun r => bind (k r) f)). cbn.
  destruct (jobs_handler X ev s) as [[x s']|]; [apply IH|done].
Qed.

Lemma goes_attempt {A} (p : prog jobs A) D B s :
  goes p (fun r => D (Ok r)) (fun p' => B (attempt p')) s -> goes (attempt p) D B s.
Proof.
  unfold goes. revert s. induction p as [A a|A e|A X ev k IH|A X Y p1 _ p2 _ k _]; intros s; [exact (fun H => H)..| |exact (fun H => H)].
  change (attempt (Vis ev k)) with (Vis ev (fun r => attempt (k r))). cbn.
  destruct (jobs_handler X ev s) as [[x s']|]; [apply IH|done].
Qed.

Lemma goes_call {X} (ev : jobs X) D B s :
  match jobs_handler X ev s with Some (x, s') => D x s' | None => B (call ev) s end -> goes (call ev) D B s.
Proof. unfold goes, call. cbn. destruct (jobs_handler X ev s) as [[[a|e] s']|]; done. Qed.

Lemma goes_mono {A} (p : prog jobs A) (D D' : result A -> sys -> Prop) (B B' : prog jobs A -> sys -> Prop) s :
  goes p D B s -> (forall r s', D r s' -> D' r s') -> (forall p' s', B p' s' -> B' p' s') -> goes p D' B' s.
Proof. unfold goes. destruct (advance p s); eauto. Qed.

Ltac goes_step :=
  lazymatch goal with
  | |- goes (bind _ _) _ _ _ => apply goes_bind
  | |- goes (attempt _) _ _ _ => apply goes_attempt
  | |- goes (call _) _ _ _ => apply goes_call
  | |- goes (Ret _) _ _ _ => unfold goes; cbn
  | |- goes (Raise _) _ _ _ => unfold goes; cbn
  end; cbn beta iota.

(** The same but for the jobs added and the script. *)
Definition same_sys (s s' : sys) : Prop :=
  exists a l, s' = Sys (sv s) (bg s) (cancel_req s) (up s) (refusals s) (lost s) a l.

Lemma next_same s r s' : next s = (r, s') -> same_sys s s'.
Proof. unfold next, same_sys. destruct s as [v b c u0 rf l a [|x rs]]; cbn; intros [= <- <-]; eauto. Qed.

Lemma same_trans s1 s2 s3 : same_sys s1 s2 -> same_sys s2 s3 -> same_sys s1 s3.
Proof. intros (a & l & ->) (a' & l' & ->). cbn. by exists a', l'. Qed.

Definition uncancelled_result {A} (r : result A) : Prop := is_cancel r = false.

Lemma uncancelled_spec r : uncancelled_result (uncancelled r).
Proof. by destruct r as [|[]]. Qed.

(** Programs that neither wait nor touch more than the jobs. *)
Definition plain (p : prog jobs unit) : Prop :=
  forall s, goes p (fun r s' => is_cancel r = false /\ same_sys s s') (fun _ _ => False) s.

Lemma plain_bind (p : prog jobs unit) (f : unit -> prog jobs unit) : plain p -> (forall a, plain (f a)) -> plain (bind p f).
Proof.
  intros Hp Hf s. goes_step. eapply goes_mono; [apply Hp| |done].
  intros [a|e] s' [Hr Hs]; [|done]. eapply goes_mono; [apply Hf| |done]. intros r s2 [Hr2 Hs2].
  split; [done|]. by eapply same_trans.
Qed.

Lemma plain_remove id : plain (remove_quietly id).
Proof.
  intros s. unfold remove_quietly, try_except. goes_step. goes_step. goes_step. cbn.
  destruct (next s) as [r s'] eqn:Hn. apply next_same in Hn. pose proof (uncancelled_spec (how r)) as Hu.
  destruct (uncancelled (how r)) as [[]|e]; [by goes_step|]. destruct e; try done; by goes_step.
Qed.

Lemma plain_add id h args m : plain (call (AddJob id h args m)).
Proof.
  intros s. goes_step. cbn. destruct (next s) as [r s'] eqn:Hn. apply next_same in Hn as (a & l & ->).
  pose proof (uncancelled_spec (how r)) as Hu.
  destruct (uncancelled (how r)) as [[]|e]; (split; [done|]); by eexists _, _.
Qed.

Lemma plain_register w h : plain (_register_periodic_schedules w h).
Proof.
  unfold _register_periodic_schedules. apply plain_bind; [|intros _; apply plain_bind].
  - destruct (0 <? w); [apply plain_add|apply plain_remove].
  - apply plain_remove.
  - intros _ s. goes_step. goes_step. cbn. destruct ((0 <? h) && _sync_bot (sv s)); [apply plain_add|apply plain_remove].
Qed.

(** A shutdown, if there is one: done, or refused. *)
Definition wound (started : bool) (n m u rf : nat) : Prop :=
  if started then (u = pred n /\ rf = m) \/ (u = n /\ rf = S m) else u = n /\ rf = m.

(** What [wind_up] leaves in the variables. *)
Definition closing (r : result unit) (v : vars) : vars :=
  put_scheduler false
    match r with
    | Err exc =>
        if is_Exception exc then
          let v := put_error (Some exc) v in
          match _sched_ready v with Some false => put_ready (Some true) v | _ => v end
        else v
    | Ok _ => v
    end.

(** A program that neither waits nor touches more than the variables. *)
Lemma goes_then (p : prog jobs unit) (f : unit -> prog jobs unit) (P : result unit -> sys -> Prop) D B s :
  goes p P (fun _ _ => False) s ->
  (forall r s', P r s' -> match r with Ok a => goes (f a) D B s' | Err e => D (Err e) s' end) ->
  goes (bind p f) D B s.
Proof. intros Hp H. goes_step. eapply goes_mono; [exact Hp|exact H|done]. Qed.

Lemma shutdown_turn s :
  goes (call SchedulerShutdown)
    (fun r s' => is_cancel r = false /\
       exists a l u rf, s' = Sys (sv s) (bg s) (cancel_req s) u rf (lost s) a l /\
         match r with Ok _ => u = pred (up s) /\ rf = refusals s | Err _ => u = up s /\ rf = S (refusals s) end)
    (fun _ _ => False) s.
Proof.
  goes_step. cbn. destruct (next s) as [a s1] eqn:Hn. apply next_same in Hn as (ad' & l' & ->).
  pose proof (uncancelled_spec (how a)) as Hu. destruct (uncancelled (how a)) as [[]|e]; cbn; (split; [done|]);
    by eexists _, _, _, _.
Qed.

Lemma wind_up_turn started r s :
  goes (wind_up started r)
    (fun r' s' => r' = (if is_cancel r then r else Ok tt) /\
       exists a l u rf, s' = Sys (closing r (sv s)) (bg s) (cancel_req s) u rf (lost s) a l /\ wound started (up s) (refusals s) u rf)
    (fun _ _ => False) s.
Proof.
  destruct s as [v b c up0 rf0 lo ad rs]. unfold wind_up.
  eapply goes_then with (P := fun r' s' => r' = Ok tt /\
    exists v', s' = Sys v' b c up0 rf0 lo ad rs /\ put_scheduler false v' = closing r v).
  { destruct r as [[]|e]; [goes_step; eauto|]. cbn. destruct (is_Exception e) eqn:He; unfold closing; rewrite He; [|goes_step; eauto].
    do 4 (goes_step; cbn). destruct (_sched_ready v) as [[]|] eqn:Hr; goes_step; cbn; rewrite ?Hr; eauto. }
  intros _ _ (-> & v' & -> & Hv).
  eapply goes_then with (P := fun r' s' => r' = Ok tt /\
        exists a l u rf, s' = Sys v' b c u rf lo a l /\ wound started up0 rf0 u rf).
  { destruct started; [|goes_step; split; [done|]; by eexists _, _, _, _]. unfold try_except. goes_step. goes_step.
    eapply goes_mono; [apply shutdown_turn| |done]. cbn.
    intros [[]|e] s1 (Hc & a & l & u & rf & -> & Hu); cbn; [|destruct e; try done; unfold goes; cbn];
      (split; [done|]); eexists _, _, _, _; (split; [done|]); auto. }
  intros _ _ (-> & a & l & u & rf & -> & Hw). goes_step. goes_step. cbn. unfold at_vars. cbn. rewrite Hv.
  destruct r as [[]|[]]; cbn [is_Exception]; cbn match; goes_step; (split; [done|]); by eexists _, _, _, _.
Qed.

(** The suspended task, and what becomes of it when it is resumed. *)
Definition suspended : prog jobs unit :=
  r <- attempt (call WaitStop ;;; call SchedulerShutdown) ;; wind_up (is_err r) r.

(** Between its turns: suspended with the scheduler up, or over with the
    scheduler down; a scheduler beside it is one whose shutdown raised. *)
Definition is_over (s : sys) : Prop := (up s <= refusals s)%nat /\ _scheduler (sv s) = false.
Definition is_up (s : sys) : Prop := (1 <= up s <= S (refusals s))%nat.

Lemma wound_over started n m u rf :
  wound started n m u rf -> (n <= if started then S m else m)%nat -> (u <= rf)%nat.
Proof. unfold wound. destruct started; lia. Qed.

Lemma suspended_turn s :
  is_up s -> _scheduler (sv s) = true -> _sched_ready (sv s) = Some true ->
  goes suspended
    (fun _ s' => is_over s' /\ lost s' = lost s /\ _sched_task (sv s') = _sched_task (sv s) /\
                 _sched_stop (sv s') = _sched_stop (sv s) /\ (_sched_error (sv s) <> None -> _sched_error (sv s') <> None))
    (fun p' s' => p' = suspended /\ s' = s /\ cancel_req s = false /\ _sched_stop (sv s) <> Some true) s.
Proof.
  destruct s as [v b c u0 rf lo ad rs]. cbn. intros Hup Hs Hr. unfold suspended.
  goes_step. goes_step. goes_step. goes_step. cbn. destruct c.
  - eapply goes_mono; [apply wind_up_turn| |done]. cbn. intros r s' (-> & a & l & u & rf' & -> & Hw). cbn.
    apply (wound_over true) in Hw; [|unfold is_up in Hup; cbn in *; lia]. unfold is_over. cbn.
    destruct v as [x1 x2 x3 x4 x5 x6]. cbn in *. done.
  - destruct (_sched_stop v) as [[]|] eqn:Hst; [|done..].
    eapply goes_mono; [apply shutdown_turn| |done]. cbn. intros r s1 (Hc & a & l & u & rf' & -> & Hu). cbn.
    eapply goes_mono; [apply wind_up_turn| |done]. cbn. intros r' s' (-> & a2 & l2 & u2 & rf2 & -> & Hw). cbn.
    apply wound_over in Hw; [|destruct r as [[]|e]; destruct Hu; unfold is_up in Hup; cbn in *; lia]. unfold is_over. cbn.
    destruct v as [x1 x2 x3 x4 x5 x6]. cbn in *. subst x3 x4.
    destruct r as [[]|e]; cbn; [done|]. destruct (is_Exception e); cbn; done.
Qed.

(** The first turn of a task [start] has just made. *)
Definition unborn (s : sys) : Prop :=
  is_over s /\ lost s = false /\ cancel_req s = false /\ _sched_ready (sv s) = Some false /\ _sched_stop (sv s) <> None.

Lemma plain_sync (ev : jobs unit) :
  (forall s, jobs_handler unit ev s = (let '(r, s1) := next s in Some (uncancelled (how r), s1))) -> plain (call ev).
Proof.
  intros Hev s. goes_step. rewrite Hev. destruct (next s) as [r s'] eqn:Hn. apply next_same in Hn. cbn.
  split; [apply uncancelled_spec|exact Hn].
Qed.

Definition first_over (s s' : sys) : Prop :=
  is_over s' /\ lost s' = false /\ _sched_task (sv s') = _sched_task (sv s) /\ _sched_stop (sv s') = _sched_stop (sv s) /\
  (_sched_error (sv s) <> None -> _sched_error (sv s') <> None) /\
  (_sched_stop (sv s) = Some false -> _sched_ready (sv s') = Some true -> _sched_error (sv s') <> None).

Definition first_blocked (s : sys) (p' : prog jobs unit) (s' : sys) : Prop :=
  p' = suspended /\ is_up s' /\ lost s' = false /\ cancel_req s' = false /\
  sv s' = put_ready (Some true) (put_scheduler true (sv s)) /\ _sched_stop (sv s) = Some false.

(** The part of the task that runs with its scheduler up. *)
Lemma serve_turn v b u0 rf lo ad rs :
  (1 <= u0 <= S rf)%nat ->
  _sched_ready v = Some false -> _sched_stop v <> None -> _scheduler v = true ->
  let s := Sys v b false u0 rf lo ad rs in
  goes (r <- attempt serve ;; wind_up (is_err r) r)
    (fun _ s' => is_over s' /\ lost s' = lo /\ _sched_task (sv s') = _sched_task v /\ _sched_stop (sv s') = _sched_stop v /\
       (_sched_error v <> None -> _sched_error (sv s') <> None) /\ _sched_stop v <> Some false)
    (fun p' s' => p' = suspended /\ s' = Sys (put_ready (Some true) v) b false u0 rf lo ad rs /\ _sched_stop v = Some false) s.
Proof.
  intros Hup Hr Hst Hsc s. subst s. unfold serve. do 4 goes_step. cbn. rewrite Hr. destruct (_sched_stop v) as [st|] eqn:Hs; [|done].
  do 4 (goes_step; cbn). unfold at_vars. cbn. rewrite Hs. destruct st; [|done].
  eapply goes_mono; [apply shutdown_turn| |done]. cbn. intros r s1 (Hc & a & l & u & rf' & -> & Hu). cbn.
  eapply goes_mono; [apply wind_up_turn| |done]. cbn. intros r' s' (-> & a2 & l2 & u2 & rf2 & -> & Hw). cbn.
  apply wound_over in Hw; [|destruct r as [[]|e]; destruct Hu; cbn in *; lia]. unfold is_over. cbn.
  destruct v as [x1 x2 x3 x4 x5 x6]. cbn in *. subst x3 x4.
  destruct r as [[]|e]; cbn; [done|]. destruct (is_Exception e); cbn; done.
Qed.

Lemma first_turn w h s : unborn s -> goes (_scheduler_background w h) (fun _ => first_over s) (first_blocked s) s.
Proof.
  destruct s as [v b c u0 rf lo ad rs]. unfold unborn, is_over. cbn. intros ((Hup & Hsc) & -> & -> & Hr & Hst).
  unfold _scheduler_background.
  eapply goes_then; [by apply plain_sync|]. intros [[]|e] s1 [He (a1 & l1 & ->)].
  2: { unfold first_over, is_over. cbn. by rewrite Hr. }
  eapply goes_then; [by apply plain_sync|]. intros [[]|e] s1 [He2 (a2 & l2 & ->)].
  2: { unfold first_over, is_over. cbn. by rewrite Hr. }
  goes_step. goes_step. cbn. unfold at_vars. cbn. goes_step. goes_step.
  eapply goes_then; [apply plain_register|]. intros [[]|e] s1 [He3 (a3 & l3 & ->)]; cbn.
  2: { eapply goes_mono; [apply wind_up_turn| |done]. cbn. intros r s' (-> & a4 & l & u & rf' & -> & Hw).
       apply (wound_over false) in Hw; [|done]. unfold first_over, is_over. cbn.
       destruct v as [x1 x2 x3 x4 x5 x6]. cbn in *. subst x3. destruct e; done. }
  goes_step. cbn. destruct (next _) as [a s1] eqn:Hn. apply next_same in Hn as (ad' & l' & ->). cbn.
  pose proof (uncancelled_spec (how a)) as Hu. destruct (uncancelled (how a)) as [[]|e]; cbn.
  2: { eapply goes_mono; [apply wind_up_turn| |done]. cbn. intros r s' (-> & a4 & l & u & rf' & -> & Hw).
       apply (wound_over false) in Hw; [|done]. unfold first_over, is_over. cbn.
       destruct v as [x1 x2 x3 x4 x5 x6]. cbn in *. subst x3. destruct e; done. }
  eapply goes_mono; [apply serve_turn; [cbn; lia|done..]| |]; cbn.
  - unfold first_over. cbn. intros _ s' (Ho & Hl & Ht & Hs & Hee & Hns). done.
  - intros p' s' (-> & -> & Hs). unfold first_blocked, is_up. cbn. repeat split; try done; lia.
Qed.

(** * The invariant *)

(** No task was lost; a task that lives is the one the package refers to; a
    scheduler runs while the task is suspended on it, and no other one but those
    whose shutdown raised. *)
Definition wf (s : sys) : Prop :=
  lost s = false /\
  match bg s with
  | Some (Created p) =>
      (exists w h, p = _scheduler_background w h) /\ is_over s /\ _sched_task (sv s) = true /\
      _sched_ready (sv s) = Some false /\ _sched_stop (sv s) <> None
  | Some (Waiting p) =>
      p = suspended /\ is_up s /\ _scheduler (sv s) = true /\ _sched_task (sv s) = true /\
      _sched_ready (sv s) = Some true /\ _sched_stop (sv s) <> None
  | Some (Ended _) => is_over s
  | None => is_over s /\ _sched_task (sv s) = false
  end.

(** What a turn of the task changes. *)
Record settled (s s' : sys) : Prop := Settled {
  set_wf : wf s';
  set_made : bg s' = None -> bg s = None;
  set_task : _sched_task (sv s') = _sched_task (sv s);
  set_stop : _sched_stop (sv s') = _sched_stop (sv s);
  set_error : _sched_error (sv s) <> None -> _sched_error (sv s') <> None;
  set_alive : alive s' = true ->
    alive s = true /\ cancel_req s = false /\ _sched_stop (sv s) <> Some true /\ _sched_error (sv s') = _sched_error (sv s);
  set_new : (exists p, bg s = Some (Created p)) -> _sched_stop (sv s) = Some false ->
    _sched_ready (sv s') = Some true -> _sched_error (sv s') = None -> alive s' = true
}.

Lemma settle_spec s : wf s -> settled s (take_turn s).
Proof.
  destruct s as [v b c u0 rf lo ad rs]. unfold wf, take_turn. cbn. intros [-> Hb]. destruct b as [[p|p|r]|].
  - destruct Hb as ((w & h & ->) & Ho & Ht & Hr & Hs). destruct c.
    + split; cbn; unfold wf; cbn; try done. intros _ _ Hr'. congruence.
    + pose proof (first_turn w h (Sys v (Some (Created (_scheduler_background w h))) false u0 rf false ad rs)) as Hf.
      assert (unborn (Sys v (Some (Created (_scheduler_background w h))) false u0 rf false ad rs)) as Hu by done.
      specialize (Hf Hu). clear Hu. unfold goes in Hf. destruct (advance _ _) as [r s'|p s']; cbn in *.
      * destruct Hf as (Hov & Hl & Ht' & Hs' & He & Hn). split; cbn; unfold wf; cbn; try done.
        intros _ Hst Hrd Her. by destruct (Hn Hst Hrd).
      * destruct Hf as (-> & Hup & Hl & Hc & Hv & Hs'). cbn in *. split; cbn; unfold wf; cbn; rewrite ?Hv; cbn; try done.
        intros _. rewrite Hs'. done.
  - destruct Hb as (-> & Hup & Hsc & Ht & Hr & Hs).
    pose proof (suspended_turn (Sys v (Some (Waiting suspended)) c u0 rf false ad rs) Hup Hsc Hr) as Hf.
    unfold goes in Hf. destruct (advance _ _) as [r s'|p s']; cbn in *.
    + destruct Hf as (Hov & Hl & Ht' & Hs' & He). split; cbn; unfold wf; cbn; try done; by intros [? ?].
    + destruct Hf as (-> & -> & Hc & Hst). split; cbn; unfold wf; cbn; try done; by intros [? ?].
  - split; cbn; unfold wf; cbn; try done; by intros [? ?].
  - split; cbn; unfold wf; cbn; try done; by intros [? ?].
Qed.

Lemma settled_same s s1 s' : same_sys s s1 -> settled s1 s' -> settled s s'.
Proof. intros (a & l & ->) [H1 H2 H3 H4 H5 H6 H7]. by split. Qed.

Lemma wf_same s s' : same_sys s s' -> wf s -> wf s'.
Proof. by intros (a & l & ->). Qed.

Lemma wf_cancel s : wf s -> wf (cancel_alive s).
Proof. unfold cancel_alive. by destruct (alive s). Qed.

(** How a wait ends: with what it waited for, after its timeout, or cancelled,
    perhaps before the background had its turn. *)
Inductive waited (timed : bool) (cond : sys -> option (result unit)) (interrupted : sys -> sys) (s : sys)
  : result unit -> sys -> Prop :=
  | waited_for r s' : settled s s' -> cond s' = Some r -> waited timed cond interrupted s r s'
  | waited_long s1 : settled s s1 -> timed = true \/ cond s1 = None ->
      waited timed cond interrupted s (Err TimeoutError) (interrupted s1)
  | waited_cancelled s1 : settled s s1 \/ same_sys s s1 ->
      waited timed cond interrupted s (Err CancelledError) (interrupted s1).

Lemma wait_for_spec timed cond interrupted s :
  wf s -> waited timed cond interrupted s (wait_for timed cond interrupted s).1 (wait_for timed cond interrupted s).2.
Proof.
  intros Hwf. unfold wait_for. destruct (next s) as [a s1] eqn:Hn. apply next_same in Hn.
  assert (settled s (take_turn s1)) as Hset by (eapply settled_same; [exact Hn|]; by apply settle_spec, (wf_same s)).
  destruct (is_cancel (how a)) eqn:Hcan.
  { apply waited_cancelled. destruct (early a); auto. }
  destruct (cond (take_turn s1)) as [r|] eqn:Hc; [|by apply waited_long; auto].
  destruct (is_err (how a) && timed) eqn:Ht; [|by apply waited_for].
  apply waited_long; [done|]. left. by destruct timed; [|rewrite andb_false_r in Ht].
Qed.

Abbreviation sends := (ends handler).

Lemma live_task_ends s : sends live_task (fun r s' => r = Ok (_sched_task (sv s) && alive s) /\ s' = s) s.
Proof.
  unfold live_task. do 2 (hoare_step; cbn). destruct (_sched_task (sv s)); [|by hoare_step].
  do 2 (hoare_step; cbn). hoare_step. by rewrite negb_involutive.
Qed.

Lemma wf_not_task s : wf s -> _sched_task (sv s) = false -> alive s = false.
Proof. unfold wf, alive. intros [_ Hb] Ht. destruct (bg s) as [[p|p|r]|]; intuition congruence. Qed.

Lemma wf_made s : wf s -> _sched_task (sv s) = true -> bg s <> None.
Proof. unfold wf. intros [_ Hb] Ht He. rewrite He in Hb. destruct Hb. congruence. Qed.

(** Gathering a task that was told to end, or is over already, sees its end. *)
Definition dying (s : sys) : Prop := alive s = false \/ cancel_req s = true.

Lemma settled_dead s s' : dying s -> settled s s' -> alive s' = false.
Proof.
  intros Hd Hs. destruct (alive s') eqn:Ha; [|done]. destruct (set_alive _ _ Hs Ha) as (? & ? & _). destruct Hd; congruence.
Qed.

Lemma cancel_dying s : dying (cancel_alive s).
Proof. unfold dying, cancel_alive. destruct (alive s) eqn:Ha; [by right|by left]. Qed.

Lemma gather_ends ms s :
  wf s -> dying s -> bg s <> None ->
  sends (call (GatherTask ms)) (fun r s' => wf s' /\
    (r = Err CancelledError /\ dying s' \/ settled s s' /\ alive s' = false /\ (r = Ok tt \/ r = Err TimeoutError /\ ms <> None))) s.
Proof.
  intros Hwf Hdy Hb. hoare_step. cbn.
  destruct (wait_for_spec (match ms with None => false | Some _ => true end) gathered cancel_alive s Hwf) as [r s' Hs Hr|s1 Hs Ht|s1 Hs].
  - split; [apply Hs|]. right. split; [done|]. split; [by eapply settled_dead|]. left.
    unfold gathered in Hr. by destruct (task_result s'); inversion Hr.
  - pose proof (settled_dead _ _ Hdy Hs) as Hd. unfold cancel_alive. rewrite Hd. split; [apply Hs|].
    right. split; [done|]. split; [done|]. right. split; [done|]. intros ->. destruct Ht as [Ht|Ht]; [done|].
    unfold gathered, task_result, alive in *. destruct (bg s1) as [[]|] eqn:Hb1; try done. by apply (set_made _ _ Hs) in Hb1.
  - split; [|left; split; [done|apply cancel_dying]]. apply wf_cancel. destruct Hs as [Hs|Hs]; [apply Hs|by eapply wf_same].
Qed.

Lemma gather_2s_ends s :
  wf s -> dying s -> bg s <> None ->
  sends gather_bounded_2s (fun r s' => wf s' /\ (r = Err CancelledError /\ dying s' \/ r = Ok tt /\ settled s s' /\ alive s' = false)) s.
Proof.
  intros Hwf Hdy Hb. unfold gather_bounded_2s. hoare_step. hoare_step.
  eapply hoare_mono; [by apply gather_ends|]. intros r s' (Hw & [[-> ?]|(Hs & Ha & [->|[-> _]])]); hoare_step; auto.
Qed.

(** Every run of [start] and [stop] keeps the invariant, and what each returns
    tells the state it leaves. *)
Definition cleared (v : vars) : Prop :=
  _sched_task v = false /\ _sched_ready v = None /\ _sched_stop v = None /\ _sched_error v = None.

(** A task that still lives is referred to, has been told to end, and ends, its
    scheduler with it, when it has its turn. *)
Definition doomed (s : sys) : Prop :=
  alive s = true ->
  _sched_task (sv s) = true /\ cancel_req s = true /\ alive (take_turn s) = false /\ is_over (take_turn s).

Lemma dying_doomed s : wf s -> dying s -> doomed s.
Proof.
  intros Hwf Hd Ha. pose proof (settle_spec s Hwf) as Hset. pose proof (settled_dead _ _ Hd Hset) as Hdead.
  split; [|split; [by destruct Hd; [congruence|]|split; [done|]]].
  - destruct (_sched_task (sv s)) eqn:Ht; [done|]. by rewrite (wf_not_task s Hwf Ht) in Ha.
  - destruct (set_wf _ _ Hset) as [_ Hb]. unfold alive in Hdead.
    destruct (bg (take_turn s)) as [[p|p|r]|]; try done. by destruct Hb.
Qed.

Lemma dead_doomed s : alive s = false -> doomed s.
Proof. unfold doomed. congruence. Qed.

Definition start_outcome (s : sys) (r : result unit) (s' : sys) : Prop :=
  wf s' /\
  match r with
  | Ok _ => is_ready (sv s') = true /\ is_up s'
  | Err CancelledError => doomed s'
  | Err _ => (alive s = true /\ s' = s) \/ (alive s' = false /\ is_over s' /\ cleared (sv s'))
  end.

Lemma wf_clear s : wf s -> alive s = false -> wf (at_vars clear s) /\ is_over s.
Proof.
  destruct s as [v b c u0 rf lo ad rs]. unfold wf, alive, is_over. cbn. intros [Hl Hb] Ha.
  destruct b as [[p|p|r]|]; try done; cbn; unfold is_over in *; destruct v; cbn in *; intuition.
Qed.

Lemma verdict_ends s0 s :
  wf s -> match _sched_error (sv s) with
          | Some _ => alive s = false
          | None => is_ready (sv s) = true /\ is_up s
          end ->
  sends start_verdict (start_outcome s0) s.
Proof.
  intros Hwf He. unfold start_verdict. do 2 (hoare_step; cbn). destruct (_sched_error (sv s)) as [e|] eqn:Hee.
  2: { hoare_step. done. }
  hoare_step. eapply hoare_mono with (Q := fun r s' => wf s' /\ (r = Err CancelledError /\ dying s' \/ r = Ok tt /\ alive s' = false)).
  { destruct (_sched_task (sv s)) eqn:Ht; [|hoare_step; auto].
    eapply hoare_mono; [apply gather_2s_ends; [done|by left|by apply wf_made]|]. intros r s' (Hw & [[-> ?]|(-> & _ & Ha)]); auto. }
  intros r s' (Hw & [[-> Hd]|[-> Ha]]); [by split; [|apply dying_doomed]|].
  do 2 (hoare_step; cbn). hoare_step. destruct (wf_clear s' Hw Ha) as [Hw' Ho]. split; [done|]. right. split; [done|].
  destruct s' as [[] ? ? ? ? ? ?]. done.
Qed.

(** The state in which [start] waits for its task. *)
Lemma created_wf s w h bot :
  wf s -> alive s = false ->
  let s1 := at_vars (put_task true)
              (at_bg (Some (Created (_scheduler_background w h)))
                 (at_cancel false
                    (at_lost (alive s)
                       (at_vars (fun v => put_bot bot (put_error None (put_stop (Some false) (put_ready (Some false) v)))) s)))) in
  wf s1 /\ _sched_task (sv s1) = true /\ _sched_stop (sv s1) = Some false /\ _sched_error (sv s1) = None.
Proof.
  intros Hwf Ha. destruct (wf_clear s Hwf Ha) as [_ [Hup Hsc]]. destruct Hwf as [Hl _].
  destruct s as [[x1 x2 x3 x4 x5 x6] b c u0 rf lo ad rs]. unfold wf, is_over. cbn in *.
  unfold alive in *. cbn in *. rewrite Ha, Hl. cbn. split; [|done]. split; [done|]. split; [eauto|done].
Qed.

Definition ready_or_failed (s : sys) : Prop :=
  wf s /\ match _sched_error (sv s) with
          | Some _ => alive s = false
          | None => is_ready (sv s) = true /\ is_up s
          end.

(** Giving up on it: the task is told to end and awaited. *)
Lemma timed_out_ends s :
  wf s ->
  sends (live <- live_task ;; if live : bool then call CancelTask ;;; gather_bounded_2s else Ret tt)
    (fun r s' => match r with Ok _ => ready_or_failed s' | Err e => e = CancelledError /\ wf s' /\ doomed s' end)
    (at_vars (put_error (Some TimeoutError)) s).
Proof.
  intros Hwf. assert (wf (at_vars (put_error (Some TimeoutError)) s)) as Hwf1.
  { destruct s as [[] b ? ? ? ? ?]. unfold wf, is_over in *. cbn in *. done. }
  hoare_step. eapply hoare_mono; [apply live_task_ends|]. intros r s' [-> ->]. cbn.
  destruct (_sched_task (sv s) && alive _) eqn:Hlive.
  - apply andb_true_iff in Hlive as [Ht Ha]. hoare_step. hoare_step. cbn.
    eapply hoare_mono; [apply gather_2s_ends; [by apply wf_cancel|right; unfold cancel_alive; by rewrite Ha|]|].
    { unfold cancel_alive. rewrite Ha. by apply (wf_made s). }
    intros r s' (Hw' & [[-> Hd]|(-> & Hs' & Ha')]); [by split; [|split; [|apply dying_doomed]]|]. split; [done|].
    assert (_sched_error (sv s') <> None) as Hne.
    { apply (set_error _ _ Hs'). unfold cancel_alive. by destruct (alive _). }
    by destruct (_sched_error (sv s')).
  - hoare_step. split; [done|]. cbn. apply andb_false_iff in Hlive as [Ht|Ha]; [|done].
    by apply (wf_not_task s).
Qed.

(** Cancelled: the same, and the variables are given back. *)
Lemma cancelled_ends s :
  wf s ->
  sends (live <- live_task ;;
         (if live : bool then call CancelTask ;;; call (GatherTask None) else Ret tt) ;;;
         call (SPut clear) ;;;
         Raise (A := unit) CancelledError)
    (fun r s' => r = Err CancelledError /\ wf s' /\ doomed s') s.
Proof.
  intros Hwf. hoare_step. eapply hoare_mono; [apply live_task_ends|]. intros r s' [-> ->]. cbn. hoare_step.
  eapply hoare_mono with (Q := fun r s' => wf s' /\ (r = Err CancelledError /\ dying s' \/ r = Ok tt /\ alive s' = false)).
  { destruct (_sched_task (sv s) && alive s) eqn:Hlive.
    - apply andb_true_iff in Hlive as [Ht Ha]. hoare_step. hoare_step. cbn.
      eapply hoare_mono; [apply gather_ends; [by apply wf_cancel|right; unfold cancel_alive; by rewrite Ha|]|].
      { unfold cancel_alive. rewrite Ha. by apply (wf_made s). }
      intros r s' (Hw' & [[-> ?]|(Hs' & Ha' & [->|[_ ?]])]); auto. done.
    - hoare_step. split; [done|]. right. split; [done|]. apply andb_false_iff in Hlive as [Ht|Ha]; [|done].
      by apply wf_not_task. }
  intros r s' (Hw & [[-> Hd]|[-> Ha]]); [by split; [|split; [|apply dying_doomed]]|].
  do 2 (hoare_step; cbn). hoare_step. split; [done|]. split; [by apply wf_clear|].
  intros Ha'. change (alive s' = true) in Ha'. congruence.
Qed.

(** Waiting for readiness alone. *)
Lemma ready_ends s :
  wf s -> (exists p, bg s = Some (Created p)) -> _sched_stop (sv s) = Some false -> _sched_error (sv s) = None ->
  sends start_waited (fun r s' => match r with Ok _ => ready_or_failed s' | Err e => e = CancelledError /\ wf s' /\ doomed s' end) s.
Proof.
  intros Hwf Hb Hst He. unfold start_waited. do 3 hoare_step. cbn.
  destruct (wait_for_spec true (fun s => is_set (_sched_ready (sv s))) id s Hwf) as [r s' Hs Hr|s1 Hs _|s1 Hs].
  - assert (r = Ok tt /\ _sched_ready (sv s') = Some true) as [-> Hrd]
      by (destruct (_sched_ready (sv s')) as [[]|]; by inversion Hr).
    hoare_step. split; [apply Hs|]. destruct (_sched_error (sv s')) as [e|] eqn:He'.
    + destruct (alive s') eqn:Ha; [|done]. destruct (set_alive _ _ Hs Ha) as (_ & _ & _ & ?). congruence.
    + pose proof (set_new _ _ Hs Hb Hst Hrd He') as Ha. destruct (set_wf _ _ Hs) as [_ Hw]. unfold alive in Ha.
      unfold is_ready. rewrite Hrd, He'. destruct (bg s') as [[p|p|?]|]; try done.
      * destruct Hw as (_ & _ & _ & ? & _). congruence.
      * destruct Hw as (_ & ? & -> & _). done.
  - do 2 (hoare_step; cbn). unfold id. eapply hoare_mono; [apply timed_out_ends, Hs|done].
  - eapply hoare_mono; [apply cancelled_ends; destruct Hs as [Hs|Hs]; [apply Hs|by eapply wf_same]|by intros r s' (-> & ? & ?)].
Qed.

Lemma start_ends w bot h s : wf s -> sends (start w bot h) (start_outcome s) s.
Proof.
  intros Hwf. unfold start. hoare_step. eapply hoare_mono; [apply live_task_ends|]. intros r s' [-> ->].
  destruct (_sched_task (sv s) && alive s) eqn:Hlive.
  { hoare_step. apply andb_true_iff in Hlive as [_ Ha]. split; [done|]. by left. }
  assert (alive s = false) as Ha.
  { apply andb_false_iff in Hlive as [Ht|Ha]; [|done]. by apply wf_not_task. }
  do 6 (hoare_step; cbn). destruct (created_wf s w h bot Hwf Ha) as (Hw1 & _ & Hst & He).
  hoare_step. eapply hoare_mono; [apply ready_ends; [exact Hw1|cbn; eauto|exact Hst|exact He]|].
  intros [[]|e] s' Hs'; [|by destruct Hs' as (-> & ? & ?)]. destruct Hs' as [Hw Hr]. by apply verdict_ends.
Qed.

(** What [stop] returns on. *)
Definition stop_outcome (r : result unit) (s' : sys) : Prop :=
  wf s' /\
  match r with
  | Ok _ => is_over s' /\ alive s' = false /\ cleared (sv s') /\ is_ready (sv s') = false
  | Err _ => doomed s'
  end.

Lemma stop_ends s : wf s -> sends stop stop_outcome s.
Proof.
  intros Hwf. unfold stop. do 2 (hoare_step; cbn).
  hoare_step. set (s1 := match _sched_stop (sv s) with Some _ => at_vars (put_stop (Some true)) s | None => s end).
  assert (wf s1 /\ _sched_task (sv s1) = _sched_task (sv s) /\ (alive s1 = true -> _sched_stop (sv s1) = Some true)) as (Hw1 & Ht1 & Hst1).
  { subst s1. destruct s as [[x1 x2 x3 x4 x5 x6] b c u0 rf lo ad rs]. unfold wf, is_over, alive in *. cbn in *.
    destruct x4, b as [[]|]; cbn in *; try done; destruct Hwf as (Hl & Hx); cbn in *; intuition congruence. }
  eapply hoare_mono with (Q := fun r s' => r = Ok tt /\ s' = s1).
  { subst s1. destruct (_sched_stop (sv s)); [by hoare_step|by hoare_step]. }
  intros r s' [-> ->]. hoare_step.
  eapply hoare_mono with (Q := fun r s' => wf s' /\ match r with Ok _ => alive s' = false | Err _ => doomed s' end).
  2: { intros [[]|e] s' [Hw Ha]; [|done]. hoare_step. cbn. destruct (wf_clear s' Hw Ha) as [Hw' Ho].
       destruct s' as [[x1 x2 x3 x4 x5 x6] b c u0 rf lo ad rs]. unfold stop_outcome, wf, is_over, alive, is_ready in *. cbn in *.
       destruct Ho as [Hup ->]. destruct Hw as [-> _]. unfold cleared. destruct b as [[p|p|r]|]; try done; by cbn. }
  destruct (_sched_task (sv s)) eqn:Ht.
  2: { hoare_step. split; [done|]. by apply wf_not_task. }
  hoare_step. hoare_step. hoare_step. cbn.
  destruct (wait_for_spec true task_result cancel_alive s1 Hw1) as [r s' Hs Hr|s2 Hs _|s2 Hs].
  - assert (alive s' = false) as Ha by (unfold task_result, alive in *; by destruct (bg s') as [[]|]).
    assert (sends (_ <- call TaskDone ;; Ret tt) (fun _ s2 => s2 = s') s') as _ by (do 2 hoare_step; done).
    pose proof (set_wf _ _ Hs) as Hw. destruct r as [[]|e]; [by hoare_step|].
    pose proof (dead_doomed s' Ha) as Hd. destruct e; try by hoare_step.
    do 2 (hoare_step; cbn). rewrite Ha. by hoare_step.
  - assert (alive s2 = false) as Ha.
    { destruct (alive s2) eqn:Ha; [|done]. destruct (set_alive _ _ Hs Ha) as (Ha1 & _ & Hn & _). by rewrite Hst1 in Hn. }
    unfold cancel_alive. rewrite Ha. do 2 (hoare_step; cbn). rewrite Ha. hoare_step. split; [apply Hs|done].
  - hoare_step. assert (wf s2) as Hw2 by (destruct Hs as [Hs|Hs]; [apply Hs|by eapply wf_same]).
    split; [by apply wf_cancel|]. apply dying_doomed; [by apply wf_cancel|apply cancel_dying].
Qed.

(** * What the scheduler promises *)

Inductive sched_op : prog sch unit -> Prop :=
  | op_start w bot h : sched_op (start w bot h)
  | op_stop : sched_op stop.

(** The module as imported, with what the outside will answer. *)
Definition imported (answers : list reply) : sys := Sys no_vars None false 0 0 false [] answers.

Lemma op_wf p s : sched_op p -> wf s -> wf (run_state handler p s).
Proof. intros [w bot h|] Hwf; [apply (start_ends w bot h s Hwf)|apply (stop_ends s Hwf)]. Qed.

Lemma reachable_wf answers s : reachable handler sched_op (imported answers) s -> wf s.
Proof. intros Hr. eapply reachable_inv; [|exact Hr|done]. intros p s' Hp. by apply op_wf. Qed.

(** C39: over any sequence of starts and stops, whatever the scheduler library
    raises and however the waits time out or are cancelled: no task is replaced
    while it lives; besides the scheduler of the living task only schedulers run
    whose shutdown raised - so at most one when none did - and [is_ready] is true
    only of a running one.  A start that returns leaves it ready; one that is
    refused, which happens only while a task lives, changes nothing; one that
    fails leaves no task and the variables as at import; one that is cancelled
    leaves no living task, or one that is still referred to, has been told to
    end, and ends with its scheduler at its next turn.  A stop that returns has
    ended the task and cleared the variables, its scheduler shut down unless the
    shutdown raised; a stop that raises leaves what a cancelled start leaves. *)
Theorem one_scheduler answers s w bot h :
  reachable handler sched_op (imported answers) s ->
  lost s = false /\
  ((if alive s then 0 else up s) <= refusals s)%nat /\ (up s <= 1 + refusals s)%nat /\
  (is_ready (sv s) = true -> alive s = true /\ (1 <= up s)%nat) /\
  start_outcome s (run_result handler (start w bot h) s) (run_state handler (start w bot h) s) /\
  stop_outcome (run_result handler stop s) (run_state handler stop s).
Proof.
  intros Hr. pose proof (reachable_wf _ _ Hr) as Hwf.
  assert (start_outcome s (run_result handler (start w bot h) s) (run_state handler (start w bot h) s) /\
          stop_outcome (run_result handler stop s) (run_state handler stop s)) as Hops
    by (split; [by apply start_ends|by apply stop_ends]).
  destruct Hwf as [Hl Hb]. unfold alive, is_ready, is_over, is_up in *.
  split; [done|]. destruct (bg s) as [[p|p|r]|].
  - destruct Hb as (_ & [Hup Hsc] & _). rewrite Hsc. split; [lia|]. split; [lia|]. by split.
  - destruct Hb as (_ & Hup & _). split; [lia|]. split; [lia|]. split; [|done]. intros _. split; [done|lia].
  - destruct Hb as [Hup Hsc]. rewrite Hsc. split; [lia|]. split; [lia|]. by split.
  - destruct Hb as [[Hup Hsc] _]. rewrite Hsc. split; [lia|]. split; [lia|]. by split.
Qed.

(** A start, a second one that is refused, and a stop. *)
Lemma one_scheduler_witness :
  let s := run_state handler (start 30 true 6) (imported []) in
  is_ready (sv s) = true /\ added s = [_SYNC_SCHEDULE_ID; _WARN_EXPIRY_SCHEDULE_ID] /\
  run_result handler (start 30 true 6) s = Err (RuntimeError "APScheduler already started.") /\
  run_result handler stop s = Ok tt /\ refusals (run_state handler stop s) = 0%nat /\
  up (run_state handler stop s) = 0%nat.
Proof.
  split; [done|split; [done|split; [done|split; [done|split; [done|]]]]].
  assert (reachable handler sched_op (imported []) (run_state handler (start 30 true 6) (imported []))) as Hr.
  { eapply reach_step; [apply (op_start 30 true 6)|apply reach_refl]. }
  destruct (one_scheduler _ _ 30 true 6 Hr) as (_ & _ & _ & _ & _ & _ & Hstop).
  change (is_over (run_state handler stop (run_state handler (start 30 true 6) (imported []))) /\
          alive (run_state handler stop (run_state handler (start 30 true 6) (imported []))) = false /\
          cleared (sv (run_state handler stop (run_state handler (start 30 true 6) (imported [])))) /\
          is_ready (sv (run_state handler stop (run_state handler (start 30 true 6) (imported [])))) = false) in Hstop.
  destruct Hstop as [[Hup _] _]. change (up (run_state handler stop (run_state handler (start 30 true 6) (imported []))) <= 0)%nat in Hup.
  lia.
Defined.

Definition fine : reply := Reply false (Ok tt).

(** A start that times out and is cancelled while it gathers its task: the
    variables stay set and, until the task has its turn, a further start is
    refused and the scheduler runs. *)
Example cancelled_twice_leaves_traces :
  let s := run_state handler (start 30 true 6)
             (imported [fine; fine; fine; fine; fine; fine; fine; fine]) in
  let slow := [Reply false (Err TimeoutError); fine; fine; fine; fine; fine; fine; Reply true (Err CancelledError)] in
  let s' := run_state handler (start 30 true 6) (imported slow) in
  is_ready (sv s) = true /\
  run_result handler (start 30 true 6) (imported slow) = Err CancelledError /\
  up s' = 1%nat /\ _sched_task (sv s') = true /\
  run_result handler (start 30 true 6) s' = Err (RuntimeError "APScheduler already started.") /\
  up (take_turn s') = 0%nat.
Proof. vm_compute. done. Qed.

(** A stop after that start is answered with the cancellation of the task, and
    so is every further one: the variables are never given back. *)
Example stop_after_cancelled_start :
  let slow := [Reply false (Err TimeoutError); fine; fine; fine; fine; fine; fine; Reply true (Err CancelledError)] in
  let s := run_state handler (start 30 true 6) (imported slow) in
  let s1 := run_state handler stop s in
  run_result handler stop s = Err CancelledError /\ up s1 = 0%nat /\ _sched_task (sv s1) = true /\
  run_result handler stop s1 = Err CancelledError /\ _sched_task (sv (run_state handler stop s1)) = true.
Proof. vm_compute. done. Qed.

(** A scheduler whose shutdown raises, and raises again, is let go of while it
    may be running: the stop returns, and the next start begins a second one. *)
Example refused_shutdown_runs_on :
  let s := run_state handler (start 30 true 6) (imported
             [fine; fine; fine; fine; fine; fine; fine; fine;
              Reply false (Err (OtherException "SchedulerError")); Reply false (Err (OtherException "SchedulerError"))]) in
  let s1 := run_state handler stop s in
  run_result handler stop s = Ok tt /\ up s1 = 1%nat /\ is_ready (sv s1) = false /\
  up (run_state handler (start 30 true 6) s1) = 2%nat.
Proof. vm_compute. done. Qed.

(** * The recurring jobs *)

(** The jobs a configuration asks for, the last registered first. *)
Definition wanted (warn_expiry_days sync_interval_hours : Z) (bot : bool) : list string :=
  (if (0 <? sync_interval_hours) && bot then [_SYNC_SCHEDULE_ID] else [])
  ++ (if 0 <? warn_expiry_days then [_WARN_EXPIRY_SCHEDULE_ID] else []).

Lemma remove_adds id s : goes (remove_quietly id) (fun r s' => r = Ok tt /\ added s' = added s /\ sv s' = sv s) (fun _ _ => False) s.
Proof.
  unfold remove_quietly, try_except. do 3 goes_step. cbn.
  assert (added (next s).2 = added s /\ sv (next s).2 = sv s) as Hsame by (unfold next; by destruct (replies s)).
  destruct (next s) as [a s1]. pose proof (uncancelled_spec (how a)) as Hu. cbn in *.
  destruct (uncancelled (how a)) as [[]|e]; [by goes_step|].
  destruct e; try done; cbn [is_Exception]; cbn match; by goes_step.
Qed.

Lemma add_adds id h args m s :
  goes (call (AddJob id h args m))
    (fun r s' => match r with Ok _ => added s' = id :: added s | Err _ => added s' = added s end /\ sv s' = sv s)
    (fun _ _ => False) s.
Proof.
  goes_step. cbn. unfold next. destruct (replies s) as [|a l]; cbn; [done|]. by destruct (uncancelled (how a)).
Qed.

(** A registration that succeeds has registered exactly the jobs the
    configuration asks for. *)
Theorem jobs_registered w h s :
  goes (_register_periodic_schedules w h)
    (fun r s' => r = Ok tt -> added s' = wanted w h (_sync_bot (sv s)) ++ added s) (fun _ _ => False) s.
Proof.
  unfold _register_periodic_schedules, wanted.
  eapply goes_then with (P := fun r s' => sv s' = sv s /\
    (r = Ok tt -> added s' = (if 0 <? w then [_WARN_EXPIRY_SCHEDULE_ID] else []) ++ added s)).
  { destruct (0 <? w); [eapply goes_mono; [apply add_adds| |done]|eapply goes_mono; [apply remove_adds| |done]].
    - by intros [[]|e] s' [? ?].
    - by intros r s' (-> & ? & ?). }
  intros [[]|e] s1 [Hv Ha]; [|done]. specialize (Ha eq_refl).
  eapply goes_then; [apply remove_adds|]. intros r s2 (-> & Ha2 & Hv2). goes_step. goes_step. cbn.
  rewrite Hv2, Hv. rewrite <- Ha2 in Ha. destruct ((0 <? h) && _sync_bot (sv s)); cbn.
  - eapply goes_mono; [apply add_adds| |done]. intros r s' [Hr _] ->. by rewrite Hr, Ha.
  - eapply goes_mono; [apply remove_adds| |done]. intros r s' (-> & Hr & _) _. by rewrite Hr, Ha.
Qed.

(** * Order *)

#[export] Instance jobs_env : Env jobs := fun _ _ _ => True.

Definition obs_register (o : obs jobs) : bool :=
  match o with Obs ev _ => match ev with AddJob _ _ _ _ | RemoveJob _ => true | _ => false end end.
Definition obs_started (o : obs jobs) : bool :=
  match o with Obs ev _ => match ev with SchedulerStart => true | _ => false end end.

(** Nothing is registered or removed once the scheduler was started. *)
Fixpoint registered_first (t : trace jobs) : bool :=
  match t with
  | [] => true
  | o :: t => if obs_started o then forallb (fun o => negb (obs_register o)) t else registered_first t
  end.

Lemma quiet_registered_first t : Forall (fun o => obs_register o = false) t -> registered_first t = true.
Proof.
  induction 1 as [|o t Ho Ht IH]; [done|]. cbn. destruct (obs_started o); [|done].
  apply forallb_forall. intros x Hx. rewrite (proj1 (List.Forall_forall _ _) Ht x Hx). done.
Qed.

Lemma registered_first_before t1 t2 :
  Forall (fun o => obs_started o = false) t1 -> registered_first t2 = true -> registered_first (t1 ++ t2) = true.
Proof. induction 1 as [|o t Ho _ IH]; [done|]. intros H. cbn. rewrite Ho. by apply IH. Qed.

Lemma registered_first_after t1 t2 :
  registered_first t1 = true -> Forall (fun o => obs_register o = false) t2 -> registered_first (t1 ++ t2) = true.
Proof.
  induction t1 as [|o t1 IH]; intros H1 H2; [by apply quiet_registered_first|]. cbn in *.
  destruct (obs_started o); [|by apply IH]. rewrite forallb_app, H1. cbn.
  apply forallb_forall. intros x Hx. by rewrite (proj1 (List.Forall_forall _ _) H2 x Hx).
Qed.

Lemma register_never_starts w h : never obs_started (_register_periodic_schedules w h).
Proof.
  unfold _register_periodic_schedules, remove_quietly. destruct (0 <? w); never_auto; try (by apply never_call); case_match; never_auto; by apply never_call.
Qed.

Lemma wind_up_never_registers started r : never obs_register (wind_up started r).
Proof. unfold wind_up. repeat (first [never_step | case_match]); try (by apply never_call); never_auto. Qed.

Lemma serve_never_registers : never obs_register serve.
Proof. unfold serve. repeat (first [never_step | case_match]); by apply never_call. Qed.

(** The recurring jobs are added and removed before the scheduler is
    started, in every run. *)
Theorem registers_before_start w h : wp (_scheduler_background w h) (fun t _ => registered_first t = true).
Proof.
  assert (forall {A B} (p : prog jobs A) (k : A -> prog jobs B), never obs_started p ->
            (forall a, wp (k a) (fun t _ => registered_first t = true)) ->
            wp (bind p k) (fun t _ => registered_first t = true)) as Hbefore.
  { intros A B p k Hp Hk. apply wp_bind. eapply wp_mono; [exact Hp|]. intros t [a|e] Ht.
    - eapply wp_mono; [apply Hk|]. intros t' r. by apply registered_first_before.
    - rewrite <- (app_nil_r t). by apply registered_first_before. }
  unfold _scheduler_background.
  do 3 (apply Hbefore; [by apply never_call|intros _]).
  apply wp_bind, wp_attempt. eapply wp_mono.
  { apply (Hbefore _ _ _ _ (register_never_starts w h)). intros _. apply wp_call. intros x _. done. }
  intros t r Ht. assert (never obs_register match r with
                         | Ok _ => r <- attempt serve ;; wind_up (is_err r) r
                         | Err e => wind_up false (Err e) end) as Hn.
  { destruct r; [never_step; [never_step; apply serve_never_registers|]|]; apply wind_up_never_registers. }
  eapply wp_mono; [exact Hn|]. intros t' r' Ht'. by apply registered_first_after.
Qed.
