(* ===== verification/Startup.v ===== *)
(** The life of the process: the indexes of the database
    ([database/mongos/indexes.py]), what happens before the first update and
    after the last one ([runtime/lifecycle.py], [runtime/entry.py]), and the
    draining of background tasks ([utils/dispatch.py], [cache/mutations.py]).

    The parts that are started and stopped here are calls: their own models are
    [Clients], [Scheduler], [Lease], [Roles] and [Reporter]. *)

From S2P Require Import Prelude Prog World.

(** * Calls *)

(** The options of an index: an expiry in seconds for a TTL index, a filter for
    a partial one. *)
Record index := Index {
  ix_keys : list (string * Z);
  ix_unique : bool;
  ix_sparse : bool;
  ix_partial : option doc;
  ix_expire : option Z
}.

(** An index the database reports: its name, and whether it is a TTL index. *)
Record index_info := IndexInfo { ix_name : option string; ix_ttl : bool }.

(** The sets of background tasks that are drained at shutdown. *)
Inductive task_set := MemberCache | StartupWarmup | AsyncReports | AdminHarvest | LogShipping.

(** The handlers of the PTB application. *)
Inductive app_handler := RateLimitHandler | ModuleHandler (n : nat) | MemberCacheHandler.

Inductive boot : Type -> Type :=
  | ListIndexes (c : string) : boot (list index_info)
  | DropIndex (c name : string) : boot unit
  | CreateIndex (c : string) (i : index) : boot unit
  (* the parts *)
  | ConnectMongo : boot unit
  | EnsureInitialOwner : boot unit
  | ConnectRedis : boot unit
  | StartMtproto : boot bool
  | StartScheduler : boot unit
  | AttachReporter : boot unit
  | SetExceptionHandler : boot unit
  | SpawnWarmup : boot unit
  | GetOwnerId : boot (option Z)
  | ActiveGroups : boot unit
  | GetEffectiveRole (user : Z) : boot unit
  | StopScheduler : boot unit
  | CloseRedis : boot unit
  | StopMtproto : boot unit
  | CloseMongo : boot unit
  (* background tasks: how many live, waiting for them, cancelling them *)
  | LiveTasks (s : task_set) : boot nat
  | AwaitTasks (s : task_set) (ms : Z) : boot unit
  | CancelTasks (s : task_set) : boot unit
  | PendingMutations : boot nat
  | AwaitMutations (ms : Z) : boot unit
  (* python-telegram-bot *)
  | AddSignalHandlers : boot unit
  | AddHandler (h : app_handler) (group : Z) : boot unit
  | GetHandlers : boot nat
  | AddErrorHandler : boot unit
  | AppInitialize : boot unit
  | AppStart : boot unit
  | AppStop : boot unit
  | AppShutdown : boot unit
  | SetWebhook (url : string) : boot unit
  | GetWebhookInfo : boot string
  | RegisterWebhook : boot unit
  | WaitShutdown : boot unit
  | DeleteWebhook : boot unit
  | RunPolling : boot unit
  | BuildApplication (polling : bool) : boot unit
  (* the process *)
  | SetupLogging : boot unit
  | StartKeepalive : boot unit
  | PrintFatal (stage : string) (e : exn) : boot unit.

(** Waiting for tasks with [gather(..., return_exceptions=True)] ends, times out
    or is cancelled; what stays inside the process returns. *)
#[export] Instance boot_env : Env boot :=
  fun X ev r =>
    match ev with
    | AwaitTasks _ _ | AwaitMutations _ =>
        match r with Err CancelledError | Err TimeoutError | Ok _ => True | Err _ => False end
    | LiveTasks _ | CancelTasks _ | PendingMutations | AttachReporter | SetExceptionHandler | SpawnWarmup
    | CloseMongo | AddSignalHandlers | AddHandler _ _ | AddErrorHandler | PrintFatal _ _ => is_err r = false
    | _ => True
    end.

Abbreviation bio := (prog boot).

(** * Indexes *)

Definition _MEMBER_CACHE_TTL_DAYS : Z := 90.
Definition _MEMBER_CACHE_EXPIRE_S : Z := _MEMBER_CACHE_TTL_DAYS * 86400.
Definition _LEGACY_UNTIL_DATE_INDEX : string := "until_date_1".

Definition plain_index ks := Index ks false false None None.
Definition unique_index ks := Index ks true false None None.
Definition sparse_index ks := Index ks false true None None.
Definition ttl_index ks s := Index ks false false None (Some s).

Definition index_specs : list (string * index) :=
  [("bans", plain_index [("banned_user_id", 1); ("is_active", 1); ("timestamp", -1); ("ban_id", -1)]);
   ("bans", unique_index [("ban_id", 1)]);
   ("tc_owners", unique_index [("user_id", 1)]);
   ("bans", sparse_index [("banned_user_id", 1); ("appeal_log_msg_id", 1)]);
   ("bans", plain_index [("is_active", 1); ("banned_user_id", 1)]);
   ("mtproto_state", sparse_index [("usernames", 1)]);
   ("mtproto_state", sparse_index [("phone_number", 1)]);
   ("bans", plain_index [("is_active", 1); ("timestamp", -1); ("ban_id", -1)]);
   ("bans", plain_index [("banned_user_id", 1); ("timestamp", -1); ("ban_id", -1)]);
   ("tc_admins", unique_index [("user_id", 1)]);
   ("tc_roles", unique_index [("user_id", 1)]);
   ("tc_roles", plain_index [("role", 1)]);
   ("federated_groups", plain_index [("chat_id", 1); ("is_active", 1)]);
   ("federated_groups", unique_index [("chat_id", 1)]);
   ("pending_joins", unique_index [("chat_id", 1)]);
   ("member_cache", unique_index [("user_id", 1)]);
   ("member_cache", plain_index [("user_id", 1); ("first_name", 1); ("username", 1); ("last_name", 1)]);
   ("member_cache", plain_index [("username", 1)]);
   ("user_settings", unique_index [("user_id", 1)]);
   ("member_cache", plain_index [("first_name", 1)]);
   ("warns", plain_index [("user_id", 1); ("chat_id", 1); ("timestamp", -1)]);
   ("warns", plain_index [("user_id", 1); ("timestamp", -1)]);
   ("warns", plain_index [("user_id", 1); ("chat_id", 1); ("timestamp", 1)]);
   ("warns", plain_index [("timestamp", 1)]);
   ("warns", plain_index [("chat_id", 1)]);
   ("warn_counts", unique_index [("user_id", 1); ("chat_id", 1)]);
   ("warn_counts", plain_index [("updated_at", 1)]);
   ("warn_counts", plain_index [("user_id", 1); ("count", 1); ("updated_at", -1)]);
   ("warn_counts", plain_index [("chat_id", 1)]);
   ("kicks", plain_index [("user_id", 1); ("timestamp", -1)]);
   ("mutes", plain_index [("user_id", 1); ("timestamp", -1)]);
   ("promotion_requests", unique_index [("request_id", 1)]);
   ("promotion_requests", plain_index [("target_id", 1); ("status", 1)]);
   ("promotion_requests", Index [("target_id", 1)] true false (Some [("status", BStr "pending")]) None);
   ("promotion_requests", plain_index [("status", 1); ("requested_date", 1)]);
   ("kicks", plain_index [("chat_id", 1)]);
   ("mutes", plain_index [("chat_id", 1)]);
   ("federated_groups", plain_index [("is_active", 1)]);
   ("active_mutes", unique_index [("user_id", 1)]);
   ("active_mutes", plain_index [("user_id", 1); ("until_date", 1)]);
   ("active_mutes", ttl_index [("until_date", 1)] 0);
   ("member_cache", ttl_index [("last_updated", 1)] _MEMBER_CACHE_EXPIRE_S)]%string.

(** The loop over the indexes found: the first of the legacy name decides. *)
Fixpoint drop_legacy (existing : list index_info) : bio unit :=
  match existing with
  | [] => Ret tt
  | spec :: existing =>
      if negb (bool_decide (ix_name spec = Some _LEGACY_UNTIL_DATE_INDEX)) then drop_legacy existing
      else if ix_ttl spec then Ret tt
      else try_except (call (DropIndex "active_mutes" _LEGACY_UNTIL_DATE_INDEX)) (fun _ => Ret tt)
  end.

Definition _drop_legacy_active_mutes_index : bio unit :=
  existing <- try_except (o <- call (ListIndexes "active_mutes") ;; Ret (Some o)) (fun _ => Ret None) ;;
  match existing with
  | Some existing => drop_legacy existing
  | None => Ret tt
  end.

(** [failed[0]] *)
Fixpoint first_failure {X} (results : list (result X)) : option exn :=
  match results with
  | [] => None
  | Ok _ :: results => first_failure results
  | Err e :: _ => Some e
  end.

Definition create_spec (p : string * index) : bio unit := call (CreateIndex p.1 p.2).

Definition ensure_indexes : bio unit :=
  _drop_legacy_active_mutes_index ;;;
  results <- gather_list (map create_spec index_specs) ;;
  match first_failure results with
  | Some e => Raise e
  | None => Ret tt
  end.

(** * Draining *)

(** [drain_tasks(tasks, label=..., timeout=5.0)] *)
Definition drain_tasks (s : task_set) : bio unit :=
  live <- call (LiveTasks s) ;;
  if (live =? 0)%nat then Ret tt
  else
    r <- attempt (call (AwaitTasks s 5000)) ;;
    match r with
    | Err TimeoutError =>
        call (CancelTasks s) ;;;
        r <- attempt (call (AwaitTasks s 5000)) ;;
        match r with
        | Err TimeoutError => Ret tt
        | r => of_result r
        end
    | r => of_result r
    end.

Definition drain_redis_mutations : bio unit :=
  pending <- call PendingMutations ;;
  if (pending =? 0)%nat then Ret tt
  else
    r <- attempt (call (AwaitMutations 5000)) ;;
    match r with
    | Err TimeoutError => Ret tt
    | r => of_result r
    end.

Definition drain_harvest_tasks : bio unit := drain_tasks AdminHarvest.
Definition drain_pending : bio unit := drain_tasks LogShipping.

(** * Boot and shutdown *)

Definition _warm_hot_caches : bio unit :=
  try_except
    (let! (owner_id_r, _) := gather2 (call GetOwnerId) (call ActiveGroups) in
     match owner_id_r with
     | Ok (Some owner_id) => call (GetEffectiveRole owner_id)
     | _ => Ret tt
     end)
    (fun _ => Ret tt).

Definition _post_init (mtproto_enabled : bool) : bio unit :=
  if negb mtproto_enabled then
    Raise (RuntimeError "API_ID/API_HASH are required for MTProto identity resolution; refusing to boot degraded.")
  else
    call ConnectMongo ;;;
    let! (indexes_r, owner_r, _, _mtproto_r) :=
      gather4 ensure_indexes (call EnsureInitialOwner) (call ConnectRedis) (call StartMtproto) in
    of_result indexes_r ;;;
    of_result _mtproto_r ;;;
    call StartScheduler ;;;
    call SpawnWarmup ;;;
    call AttachReporter ;;;
    call SetExceptionHandler.

Definition _post_shutdown : bio unit :=
  drain_tasks MemberCache ;;;
  drain_tasks StartupWarmup ;;;
  drain_tasks AsyncReports ;;;
  drain_harvest_tasks ;;;
  drain_pending ;;;
  drain_redis_mutations ;;;
  gather3 (call StopScheduler) (call CloseRedis) (call StopMtproto) ;;;
  call CloseMongo.

Definition _HANDLER_GROUP_RATE_LIMITER : Z := -1.
Definition _HANDLER_GROUP_CACHE : Z := 10.

(** The modules' handlers go to the default group, 0. *)
Definition _register_handlers : bio unit :=
  call (AddHandler RateLimitHandler _HANDLER_GROUP_RATE_LIMITER) ;;;
  modules <- call GetHandlers ;;
  for_each (seq 0 modules) (fun n => call (AddHandler (ModuleHandler n) 0)) ;;;
  call (AddHandler MemberCacheHandler _HANDLER_GROUP_CACHE) ;;;
  call AddErrorHandler.

(** * Transports *)

(** From the registration of the webhook to the end of the wait. *)
Definition webhook_serve (full_url : string) : bio unit :=
  call (SetWebhook full_url) ;;;
  info <- call GetWebhookInfo ;;
  if negb (String.eqb info full_url) then Raise (RuntimeError "Webhook URL mismatch after set_webhook")
  else
    call RegisterWebhook ;;;
    call WaitShutdown.

(** The [finally]: it runs whatever [webhook_serve] ended with. *)
Definition webhook_teardown : bio unit :=
  try_except (call DeleteWebhook) (fun _ => Ret tt) ;;;
  call AppStop ;;;
  _post_shutdown.

(** The body of [async with app]. *)
Definition webhook_body (mtproto_enabled : bool) (full_url : string) : bio unit :=
  _post_init mtproto_enabled ;;;
  call AppStart ;;;
  r <- attempt (webhook_serve full_url) ;;
  webhook_teardown ;;;
  match r with
  | Err CancelledError => Ret tt
  | r => of_result r
  end.

(** [async with app] shuts the application down also when entering it fails
    with an [Exception]. *)
Definition _run_webhook_mode (mtproto_enabled : bool) (full_url : string) : bio unit :=
  call AddSignalHandlers ;;;
  try_except (call AppInitialize) (fun e => call AppShutdown ;;; Raise e) ;;;
  r <- attempt (webhook_body mtproto_enabled full_url) ;;
  call AppShutdown ;;;
  of_result r.

(** * The process *)

(** The stages of [main], up to the first that raises. *)
Fixpoint run_stages (stages : list (string * bio unit)) : bio (option (string * exn)) :=
  match stages with
  | [] => Ret None
  | (stage, p) :: stages =>
      r <- attempt p ;;
      match r with
      | Ok _ => run_stages stages
      | Err e => Ret (Some (stage, e))
      end
  end.

Definition system_exit : exn := OtherException "SystemExit".
Definition keyboard_interrupt : exn := OtherException "KeyboardInterrupt".

Definition main_stages (use_webhook mtproto_enabled : bool) (full_url : string) : list (string * bio unit) :=
  [("logging setup", call SetupLogging);
   ("keepalive server", call StartKeepalive);
   ("PTB application build", call (BuildApplication (negb use_webhook)));
   ("handler registration", _register_handlers);
   if use_webhook then ("webhook", _run_webhook_mode mtproto_enabled full_url) else ("polling", call RunPolling)]%string.

Definition main (use_webhook mtproto_enabled : bool) (full_url : string) : bio unit :=
  failed <- run_stages (main_stages use_webhook mtproto_enabled full_url) ;;
  match failed with
  | None => Ret tt
  | Some (stage, e) =>
      if bool_decide (e = system_exit) then Raise e
      else if bool_decide (e = keyboard_interrupt) then Ret tt
      else call (PrintFatal stage e) ;;; Raise system_exit
  end.

(** * Nothing is served before the boot is complete *)

Definition obs_live (o : obs boot) : bool := match o with Obs ev _ => match ev with RegisterWebhook => true | _ => false end end.

(** What must have come before.  The start of MTProto is settled when it
    returns: with the client connected, or without it, which is how the bot runs
    when the client is disabled or its lease is held elsewhere
    ([Lease.v]). *)
Definition obs_connected (o : obs boot) : bool := match o with Obs ev r => match ev with ConnectMongo => negb (is_err r) | _ => false end end.
Definition obs_mtproto_settled (o : obs boot) : bool := match o with Obs ev r => match ev with StartMtproto => negb (is_err r) | _ => false end end.
Definition obs_scheduler (o : obs boot) : bool := match o with Obs ev r => match ev with StartScheduler => negb (is_err r) | _ => false end end.
Definition obs_dispatching (o : obs boot) : bool := match o with Obs ev r => match ev with AppStart => negb (is_err r) | _ => false end end.
Definition obs_reporter (o : obs boot) : bool := match o with Obs ev r => match ev with AttachReporter => true | _ => false end end.
Definition obs_confirmed (url : string) (o : obs boot) : bool :=
  match o with
  | Obs ev r => match ev in boot X return result X -> bool with
                | GetWebhookInfo => fun r => match r with Ok info => String.eqb info url | Err _ => false end
                | _ => fun _ => false
                end r
  end.

Definition ix_eqb (i j : index) : bool :=
  bool_decide (ix_keys i = ix_keys j) && eqb (ix_unique i) (ix_unique j) && eqb (ix_sparse i) (ix_sparse j)
  && bool_decide (ix_expire i = ix_expire j) && eqb (bool_decide (is_Some (ix_partial i))) (bool_decide (is_Some (ix_partial j))).
Definition obs_created (p : string * index) (o : obs boot) : bool :=
  match o with
  | Obs ev r => match ev with CreateIndex c i => String.eqb c p.1 && ix_eqb i p.2 && negb (is_err r) | _ => false end
  end.

Lemma ix_eqb_refl i : ix_eqb i i = true.
Proof. unfold ix_eqb. rewrite !bool_decide_true by done. by rewrite !eqb_reflx. Qed.

Definition succeeded {A} (r : result A) : bool := negb (is_err r).

(** Awaited calls in parallel: each outcome is the answer its call had. *)
Lemma wp_gather_calls {E : Type -> Type} `{HE : Env E} {X Y} (ev : Y -> E X) (ys : list Y) :
  wp (gather_list (map (fun y => call (ev y)) ys))
    (fun t r => match r with
                | Ok rs => Forall2 (fun y x => In (Obs (ev y) x) t) ys rs
                | Err e => e = CancelledError
                end).
Proof.
  induction ys as [|y ys IH]; cbn [gather_list map]; [by apply wp_ret|].
  assert (wp (call (ev y)) (fun t x => In (Obs (ev y) x) t)) as Hy by (apply wp_call; intros x _; by left).
  apply wp_bind. eapply wp_gather2; [exact Hy|exact IH|].
  cbn beta iota. intros t1 t2 t r1 r2 H1 H2 Hi. split; [|done]. apply wp_bind.
  destruct r2 as [rs|e]; cbn [of_result]; [|by apply wp_raise].
  apply wp_ret, wp_ret. rewrite !app_nil_r. pose proof (fun x => interleave_In x _ _ _ Hi) as Hin. constructor.
  - apply Hin. by left.
  - eapply Forall2_impl; [exact H2|]. intros q x Hq. apply Hin. by right.
Qed.

Lemma first_failure_spec {X} (rs : list (result X)) :
  match first_failure rs with
  | Some e => In (Err e) rs
  | None => Forall (fun r => exists x, r = Ok x) rs
  end.
Proof.
  induction rs as [|[x|e] rs IH]; cbn; [constructor| |by left].
  destruct (first_failure rs); [by right|]. constructor; eauto.
Qed.

(** A run that raises was cancelled. *)
Definition only_cancelled {A} (p : bio A) : Prop := wp p (fun _ r => match r with Err e => e = CancelledError | Ok _ => True end).

Lemma only_cancelled_try {A} (p : bio A) (a : exn -> A) : only_cancelled (try_except p (fun e => Ret (a e))).
Proof. apply wp_try, wp_intro. intros t [x|e] _; [done|]. destruct (is_Exception e) eqn:He; [by apply wp_ret|by destruct e]. Qed.

Lemma only_cancelled_bind {A B} (p : bio A) (k : A -> bio B) :
  only_cancelled p -> (forall a, only_cancelled (k a)) -> only_cancelled (bind p k).
Proof.
  intros Hp Hk. apply wp_bind. eapply wp_mono; [exact Hp|]. intros t [a|e] H; [|done].
  eapply wp_mono; [apply Hk|]. done.
Qed.

Lemma only_cancelled_ret {A} (a : A) : only_cancelled (Ret a).
Proof. by apply wp_ret. Qed.

Lemma drop_legacy_cancelled l : only_cancelled (drop_legacy l).
Proof.
  induction l as [|x l IH]; cbn; [apply only_cancelled_ret|]. destruct (negb _); [done|].
  destruct (ix_ttl x); [apply only_cancelled_ret|apply (only_cancelled_try _ (fun _ => tt))].
Qed.

Lemma legacy_index_cancelled : only_cancelled _drop_legacy_active_mutes_index.
Proof.
  unfold _drop_legacy_active_mutes_index. apply only_cancelled_bind; [apply (only_cancelled_try _ (fun _ => None))|].
  intros [l|]; [apply drop_legacy_cancelled|apply only_cancelled_ret].
Qed.

(** The boot goes on only when every index exists, and otherwise raises what
    one of the failed creations raised (or its own cancellation). *)
Theorem indexes_fail_fast t r :
  exec ensure_indexes t r ->
  match r with
  | Ok _ => Forall (fun p => In (Obs (CreateIndex p.1 p.2) (Ok tt)) t) index_specs
  | Err e => e = CancelledError \/ exists p, In p index_specs /\ In (Obs (CreateIndex p.1 p.2) (Err e)) t
  end.
Proof.
  unfold ensure_indexes. intros [(t1 & [] & t2 & _ & H2 & ->)|(e & H1 & ->)]%exec_bind.
  2: { left. exact (legacy_index_cancelled _ _ H1). }
  apply exec_bind in H2 as [(t3 & rs & t4 & H3 & H4 & ->)|(e & H3 & ->)]; pose proof (wp_gather_calls _ _ _ _ H3) as Hc.
  - cbn in Hc. pose proof (first_failure_spec rs) as Hf. destruct (first_failure rs) as [e|].
    + destruct H4 as [-> ->]. right. apply list_elem_of_In, list_elem_of_lookup in Hf as [n Hn].
      destruct (Forall2_lookup_r _ _ _ n (Err e) Hc Hn) as (p & Hp & Hin).
      exists p. split; [by eapply list_elem_of_In, list_elem_of_lookup_2|]. rewrite !in_app_iff. auto.
    + destruct H4 as [-> ->]. apply List.Forall_forall. intros p Hp. apply list_elem_of_In, list_elem_of_lookup in Hp as [n Hn].
      destruct (Forall2_lookup_l _ _ _ n p Hc Hn) as (x & Hx & Hin).
      destruct (Forall_lookup_1 _ _ _ _ Hf Hx) as [[] ->]. rewrite !in_app_iff. auto.
  - left. exact Hc.
Qed.

(** * Draining never fails *)

Lemma await_bounded_cancelled (ev : boot unit) (k : bio unit) :
  (forall r, admits ev r -> match r with Ok _ | Err CancelledError | Err TimeoutError => True | _ => False end) ->
  only_cancelled k ->
  only_cancelled (r <- attempt (call ev) ;; match r with Err TimeoutError => k | r => of_result r end).
Proof.
  intros Hev Hk. apply wp_bind, wp_attempt, wp_call. intros r Hr. specialize (Hev r Hr).
  destruct r as [[]|[]]; try done; try exact Hk; [by apply wp_ret|by apply wp_raise].
Qed.

Lemma drain_tasks_cancelled ts : only_cancelled (drain_tasks ts).
Proof.
  unfold drain_tasks. apply only_cancelled_bind.
  - apply wp_call. intros [n|e] H; [done|discriminate H].
  - intros n. destruct (n =? 0)%nat; [apply only_cancelled_ret|].
    apply await_bounded_cancelled; [by intros [|[]]|]. apply only_cancelled_bind.
    + apply wp_call. intros [[]|e] H; [done|discriminate H].
    + intros _. apply await_bounded_cancelled; [by intros [|[]]|apply only_cancelled_ret].
Qed.

Lemma drain_mutations_cancelled : only_cancelled drain_redis_mutations.
Proof.
  unfold drain_redis_mutations. apply only_cancelled_bind.
  - apply wp_call. intros [n|e] H; [done|discriminate H].
  - intros n. destruct (n =? 0)%nat; [apply only_cancelled_ret|].
    apply await_bounded_cancelled; [by intros [|[]]|apply only_cancelled_ret].
Qed.

Definition obs_close_mongo (o : obs boot) : bool := match o with Obs ev _ => match ev with CloseMongo => true | _ => false end end.
Definition obs_stop_scheduler (o : obs boot) : bool := match o with Obs ev _ => match ev with StopScheduler => true | _ => false end end.
Definition obs_close_redis (o : obs boot) : bool := match o with Obs ev _ => match ev with CloseRedis => true | _ => false end end.
Definition obs_stop_mtproto (o : obs boot) : bool := match o with Obs ev _ => match ev with StopMtproto => true | _ => false end end.

(** How a shutdown ends: everything stopped and the database closed after it,
    or cancelled with the database still open. *)
Definition shut_down (t : trace boot) (r : result unit) : Prop :=
  match r with
  | Ok _ => exists t', t = t' ++ [Obs CloseMongo (Ok tt)] /\ existsb obs_close_mongo t' = false /\
              existsb obs_stop_scheduler t' = true /\ existsb obs_close_redis t' = true /\ existsb obs_stop_mtproto t' = true
  | Err e => e = CancelledError /\ existsb obs_close_mongo t = false
  end.

Lemma shut_down_after (p : bio unit) (k : bio unit) :
  only_cancelled p -> never obs_close_mongo p -> wp k shut_down -> wp (p ;;; k) shut_down.
Proof.
  intros Hc Hn Hk. apply wp_bind. eapply wp_mono; [exact (wp_conj _ _ _ Hc Hn)|].
  intros t [[]|e] [H1 H2%existsb_false_Forall]; [|done]. eapply wp_mono; [exact Hk|]. intros t2 [[]|e]; cbn.
  - intros (t' & -> & H3 & H4 & H5 & H6). exists (t ++ t'). rewrite app_assoc, !existsb_app, H2, H3, H4, H5, H6.
    by rewrite !orb_true_r.
  - intros [-> H]. by rewrite existsb_app, H2, H.
Qed.

Lemma drain_never_closes ts : never obs_close_mongo (drain_tasks ts).
Proof. unfold drain_tasks. never_auto. Qed.

Lemma mutations_never_close : never obs_close_mongo drain_redis_mutations.
Proof. unfold drain_redis_mutations. never_auto. Qed.

(** The shared database client is closed last: after every drain, and after
    the scheduler, Redis and the MTProto client were told to stop, whatever those
    raised; a shutdown that raises was cancelled, and has closed nothing. *)
Theorem shutdown_closes_last t r : exec _post_shutdown t r -> shut_down t r.
Proof.
  revert t r. assert (wp _post_shutdown shut_down) as H; [|exact H]. unfold _post_shutdown.
  do 5 (apply shut_down_after; [apply drain_tasks_cancelled|apply drain_never_closes|]).
  apply shut_down_after; [apply drain_mutations_cancelled|apply mutations_never_close|].
  apply wp_bind. eapply wp_gather3 with (P1 := fun t r => t = [Obs StopScheduler r]) (P2 := fun t r => t = [Obs CloseRedis r])
    (P3 := fun t r => t = [Obs StopMtproto r]); [by apply wp_call; intros r _..|].
  intros t1 t2 t3 t23 t r1 r2 r3 -> -> -> H23 Ht.
  assert (forall f, existsb f t = f (Obs StopScheduler r1) || f (Obs CloseRedis r2) || f (Obs StopMtproto r3)) as Hf.
  { intros f. rewrite (interleave_existsb f _ _ _ Ht), (interleave_existsb f _ _ _ H23). cbn. by rewrite !orb_false_r, orb_assoc. }
  split; [|split; [done|by rewrite Hf]]. apply wp_call. intros [[]|e] He; [|discriminate He]. exists t. by rewrite !Hf.
Qed.

(** * Order of the boot *)

Lemma indexes_never_live : never obs_live ensure_indexes.
Proof.
  unfold ensure_indexes, _drop_legacy_active_mutes_index. apply never_bind; [|intros _; apply never_bind].
  - apply never_bind; [never_auto|]. intros [l|]; [|apply never_ret]. induction l as [|x l IH]; cbn; never_auto; exact IH.
  - apply never_gather_list. apply Forall_forall. intros p Hp. apply list_elem_of_In, in_map_iff in Hp as (q & <- & _).
    by apply never_call.
  - intros rs. destruct (first_failure rs); [apply never_raise|apply never_ret].
Qed.

Definition requirements (full_url : string) : list (obs boot -> bool) :=
  [obs_connected; obs_mtproto_settled; obs_scheduler; obs_reporter; obs_dispatching; obs_confirmed full_url]
  ++ map obs_created index_specs.

Lemma waits_call (f : obs boot -> bool) {X} (ev : boot X) :
  (forall r, obs_live (Obs ev r) = false) -> (forall r, succeeded r = true -> f (Obs ev r) = true) ->
  waits f obs_live succeeded (call ev).
Proof.
  intros Hl Hf. apply waits_from; [by apply never_call|]. apply wp_call. intros r _ Hr. cbn. by rewrite (Hf r Hr).
Qed.

(** [p] is the step that satisfies the requirement: what comes after it is free. *)
Lemma waits_here (f : obs boot -> bool) {A B} (p : bio A) (k : A -> bio B) :
  waits f obs_live succeeded p -> waits f obs_live succeeded (bind p k).
Proof. intros H. eapply waits_then; [exact H|done|done]. Qed.

Lemma indexes_wait p : In p index_specs -> waits (obs_created p) obs_live succeeded ensure_indexes.
Proof.
  intros Hp. apply waits_from; [apply indexes_never_live|]. apply wp_intro. intros t r Hr Hs.
  apply indexes_fail_fast in Hr. destruct r as [[]|e]; [|done]. apply existsb_exists.
  exists (Obs (CreateIndex p.1 p.2) (Ok tt)). split; [exact (proj1 (List.Forall_forall _ _) Hr p Hp)|].
  cbn. by rewrite String.eqb_refl, ix_eqb_refl.
Qed.

Lemma never_live_call {X} (ev : boot X) : (forall r, obs_live (Obs ev r) = false) -> never obs_live (call ev).
Proof. apply never_call. Qed.

(** What follows the parallel part when one of its outcomes is raised. *)
Definition post_parallel (indexes_r : result unit) (mtproto_r : result bool) : bio unit :=
  of_result indexes_r ;;;
  of_result mtproto_r ;;;
  call StartScheduler ;;;
  call SpawnWarmup ;;;
  call AttachReporter ;;;
  call SetExceptionHandler.

Lemma post_parallel_raises f ri rm :
  succeeded ri && succeeded rm = false -> waits f obs_live succeeded (post_parallel ri rm).
Proof.
  destruct ri as [[]|e]; [destruct rm as [b|e]; [done|]|]; intros _; unfold post_parallel; cbn [of_result];
    rewrite ?bind_ret, ?bind_raise; (apply waits_never; [apply never_raise|by intros t r [-> ->]]).
Qed.

Lemma post_parallel_waits f ri rm :
  f = obs_scheduler \/ f = obs_reporter -> waits f obs_live succeeded (post_parallel ri rm).
Proof.
  intros Hf. destruct (succeeded ri && succeeded rm) eqn:Hs; [|by apply post_parallel_raises].
  destruct ri as [[]|e]; [|done]. destruct rm as [b|e]; [|done]. unfold post_parallel. cbn [of_result]. rewrite !bind_ret.
  destruct Hf as [-> | ->]; [by apply waits_here, waits_call|].
  apply waits_after; [by apply never_call|intros _|done]. apply waits_after; [by apply never_call|intros _|done].
  apply waits_here. apply waits_from; [by apply never_call|]. by apply wp_call.
Qed.

Lemma post_init_waits m f :
  In f ([obs_connected; obs_mtproto_settled; obs_scheduler; obs_reporter] ++ map obs_created index_specs) ->
  waits f obs_live succeeded (_post_init m).
Proof.
  intros Hf. unfold _post_init. destruct (negb m); [apply waits_never; [apply never_raise|by intros t r [-> ->]]|].
  cbn [app In] in Hf. destruct Hf as [<-|Hf]; [by apply waits_here, waits_call|].
  apply waits_after; [by apply never_call|intros _|done].
  assert (never obs_live (gather4 ensure_indexes (call EnsureInitialOwner) (call ConnectRedis) (call StartMtproto))) as Hn.
  { unfold gather4. apply never_bind; [repeat apply never_gather2; try (by apply never_call); apply indexes_never_live|].
    intros [[?|?] [?|?]]; cbn [of_result]; rewrite ?bind_ret, ?bind_raise; [apply never_ret|apply never_raise..]. }
  destruct Hf as [<-|[Hf|[Hf|Hf]]].
  - eapply waits_then; [apply (waits_gather4_last _ _ succeeded); [apply indexes_never_live|by apply never_call..|by apply waits_call]| |done].
    intros [[[ri ro] rr] rm] Hrm. apply (post_parallel_raises _ ri rm). by rewrite Hrm, andb_false_r.
  - apply waits_after; [exact Hn| |done]. intros [[[ri ro] rr] rm]. apply (post_parallel_waits _ ri rm). auto.
  - apply waits_after; [exact Hn| |done]. intros [[[ri ro] rr] rm]. apply (post_parallel_waits _ ri rm). auto.
  - apply in_map_iff in Hf as (p & <- & Hp).
    eapply waits_then; [apply (waits_gather4_first _ _ succeeded); [by apply indexes_wait|by apply never_call..]| |done].
    intros [[[ri ro] rr] rm] Hri. apply (post_parallel_raises _ ri rm). by rewrite Hri.
Qed.

Lemma post_init_never_live m : never obs_live (_post_init m).
Proof.
  unfold _post_init. destruct (negb m); [apply never_raise|]. apply never_bind; [by apply never_call|intros _].
  unfold gather4. apply never_bind.
  - apply never_bind; [repeat apply never_gather2; try (by apply never_call); apply indexes_never_live|].
    intros [[?|?] [?|?]]; cbn [of_result]; rewrite ?bind_ret, ?bind_raise; [apply never_ret|apply never_raise..].
  - intros [[[ri ro] rr] rm]. never_auto.
Qed.

Lemma drains_never_live : never obs_live _post_shutdown.
Proof.
  unfold _post_shutdown, drain_harvest_tasks, drain_pending, drain_tasks, drain_redis_mutations.
  repeat (apply never_bind; [|intros ?]); try (by apply never_call); never_auto.
Qed.

Lemma teardown_never_live r :
  never obs_live (webhook_teardown ;;; match r with Err CancelledError => Ret tt | r => of_result r end).
Proof.
  apply never_bind; [|intros _; destruct r as [|[]]; never_auto].
  unfold webhook_teardown. never_step; [|never_step; [|apply drains_never_live]]; never_auto.
Qed.

Lemma serve_waits url : waits (obs_confirmed url) obs_live (fun _ => false) (webhook_serve url).
Proof.
  unfold webhook_serve. apply waits_after; [by apply never_call|intros _|done].
  apply waits_then with (P := fun r => match r with Ok info => String.eqb info url | Err _ => false end); [| |done].
  - apply waits_from; [by apply never_call|]. apply wp_call. intros [info|e] _ Hi; [|done]. cbn. by rewrite Hi.
  - intros info Hi. rewrite Hi. cbn [negb]. apply waits_never; [apply never_raise|done].
Qed.

(** C40: a bot that serves a webhook from its own process accepts no update
    before the boot is complete: when the webhook is wired to the application,
    the calls that connect the database, create each index, start the scheduler
    and start the dispatcher have returned without an error, the start of the
    MTProto client has returned - with the client, or degraded without it - the
    error reporter was attached and Telegram has confirmed the address.  The
    serverless entry, which serves without scheduler and MTProto, is not this
    one ([Intake.v]). *)
Theorem boot_before_updates m url t r f :
  exec (_run_webhook_mode m url) t r -> In f (requirements url) -> guarded f obs_live t = true.
Proof.
  intros Hr Hf. revert t r Hr.
  assert (waits f obs_live (fun _ => false) (_run_webhook_mode m url)) as Hw; [|intros t r Hr; exact (proj1 (Hw t r Hr))].
  unfold _run_webhook_mode. apply waits_after; [by apply never_call|intros _|done].
  apply waits_after; [never_auto; by apply never_call|intros _|done].
  assert (waits f obs_live (fun _ => false) (webhook_body m url)) as Hb.
  2: { eapply waits_then; [apply waits_attempt, Hb| |done]. intros a _. apply waits_never; [|done].
       apply never_bind; [by apply never_call|intros _; destruct a; [apply never_ret|apply never_raise]]. }
  unfold webhook_body. unfold requirements in Hf.
  assert (In f ([obs_connected; obs_mtproto_settled; obs_scheduler; obs_reporter] ++ map obs_created index_specs) \/
          f = obs_dispatching \/ f = obs_confirmed url) as [Hin|[-> | ->]].
  { cbn [app In] in *. intuition. }
  - eapply waits_then; [by apply post_init_waits|done|done].
  - apply waits_after; [apply post_init_never_live|intros _|done]. eapply waits_then; [by apply waits_call|done|done].
  - apply waits_after; [apply post_init_never_live|intros _|done].
    apply waits_after; [by apply never_call|intros _|done].
    eapply waits_then; [apply waits_attempt, serve_waits| |done]. intros a _. apply waits_never; [apply teardown_never_live|done].
Qed.

(** * Teardown *)

Definition obs_unregister (o : obs boot) : bool := match o with Obs ev _ => match ev with DeleteWebhook => true | _ => false end end.
Definition obs_leaving (o : obs boot) : bool := match o with Obs ev _ => match ev with AppShutdown => true | _ => false end end.

(** A call made in every run of the first part is made in every run. *)
Lemma seen_first {A B} (g : obs boot -> bool) (p : bio A) (k : A -> bio B) :
  wp p (fun t _ => existsb g t = true) -> wp (bind p k) (fun t _ => existsb g t = true).
Proof.
  intros Hp. apply wp_bind. eapply wp_mono; [exact Hp|]. intros t [a|e] Ht; [|done].
  apply wp_intro. intros t' r _. by rewrite existsb_app, Ht.
Qed.

Lemma teardown_unregisters : wp webhook_teardown (fun t _ => existsb obs_unregister t = true).
Proof.
  unfold webhook_teardown. apply seen_first, wp_try, wp_call. intros [[]|e] _; [done|].
  destruct (is_Exception e); [by apply wp_ret|done].
Qed.

Lemma post_init_never_dispatches m : never obs_dispatching (_post_init m).
Proof.
  unfold _post_init. destruct (negb m); [apply never_raise|]. apply never_bind; [by apply never_call|intros _].
  assert (never obs_dispatching ensure_indexes) as Hi.
  { unfold ensure_indexes, _drop_legacy_active_mutes_index. apply never_bind; [|intros _; apply never_bind].
    - apply never_bind; [never_auto|]. intros [l|]; [|apply never_ret]. induction l as [|x l IH]; cbn; never_auto; exact IH.
    - apply never_gather_list. apply Forall_forall. intros p Hp. apply list_elem_of_In, in_map_iff in Hp as (q & <- & _).
      by apply never_call.
    - intros rs. destruct (first_failure rs); [apply never_raise|apply never_ret]. }
  unfold gather4. apply never_bind.
  - apply never_bind; [repeat apply never_gather2; try (by apply never_call); exact Hi|].
    intros [[?|?] [?|?]]; cbn [of_result]; rewrite ?bind_ret, ?bind_raise; [apply never_ret|apply never_raise..].
  - intros [[[ri ro] rr] rm]. never_auto.
Qed.

(** Once the dispatcher runs, the webhook is given back to Telegram, whatever
    ended the wait: a refused registration, a cancellation or the signal. *)
Theorem webhook_given_back m url t r :
  exec (webhook_body m url) t r -> existsb obs_dispatching t = true -> existsb obs_unregister t = true.
Proof.
  unfold webhook_body. intros [(t1 & [] & t2 & H1 & H2 & ->)|(e & H1 & _)]%exec_bind;
    apply (never_elim _ _ _ _ (post_init_never_dispatches m)), existsb_false_Forall in H1; [|congruence].
  rewrite !existsb_app, H1. cbn [orb]. intros Hd.
  apply exec_bind in H2 as [(t3 & [] & t4 & H3 & H4 & ->)|(e & (x & t' & _ & -> & H3) & _)].
  - rewrite existsb_app. apply orb_true_iff. right.
    apply exec_bind in H4 as [(t5 & a & t6 & _ & H6 & ->)|(e & (ra & ? & _)%exec_attempt & _)]; [|done].
    rewrite existsb_app, (seen_first _ _ _ teardown_unregisters _ _ H6). by rewrite !orb_true_r.
  - destruct x as [[]|e']; [by destruct H3|]. destruct H3 as [-> _]. cbn in Hd. done.
Qed.

(** * What the process ends with *)

Lemma run_stages_spec stages t r :
  exec (run_stages stages) t r -> exists f, r = Ok f /\ match f with Some (st, _) => In st (map fst stages) | None => True end.
Proof.
  revert t. induction stages as [|[st p] stages IH]; intros t; [intros [_ ->]; by exists None|].
  cbn [run_stages]. intros [(t1 & a & t2 & _ & H2 & ->)|(e & (ra & ? & _)%exec_attempt & _)]%exec_bind; [|done].
  destruct a as [[]|e]; [|destruct H2 as [_ ->]; eexists; split; [done|by left]].
  apply IH in H2 as (f & -> & Hf). exists f. split; [done|]. destruct f as [[st' e]|]; [by right|done].
Qed.

(** The process ends with a plain return or with [SystemExit]: any other failure
    of a stage is printed with the stage's name, and exits with it. *)
Theorem main_exits w m url t r :
  exec (main w m url) t r ->
  r = Ok tt \/ r = Err system_exit.
Proof.
  unfold main. intros [(t1 & f & t2 & _ & H2 & ->)|(e & (f & ? & _)%run_stages_spec & _)]%exec_bind; [|done].
  destruct f as [[st e]|]; [|left; by destruct H2]. revert H2. case_bool_decide as He; [intros [_ ->]; subst; by right|].
  case_bool_decide; [intros [_ ->]; by left|].
  intros [(t3 & [] & t4 & _ & [_ ->] & _)|(e' & (x & t' & Hx & _ & Hr) & ->)]%exec_bind; [by right|].
  destruct x as [[]|e2]; [by destruct Hr|discriminate Hx].
Qed.

(** * Runs *)

(** Everything answers; [scheduler] is how the scheduler starts. *)
Definition answers (url : string) (scheduler : result unit) : forall X, boot X -> unit -> result X * unit :=
  fun X ev s =>
    match ev in boot X return result X * unit with
    | ListIndexes _ => (Ok [IndexInfo (Some _LEGACY_UNTIL_DATE_INDEX) false], s)
    | StartMtproto => (Ok true, s)
    | StartScheduler => (scheduler, s)
    | GetOwnerId => (Ok (Some 1), s)
    | LiveTasks _ | PendingMutations => (Ok 0%nat, s)
    | GetHandlers => (Ok 1%nat, s)
    | GetWebhookInfo => (Ok url, s)
    | DropIndex _ _ | CreateIndex _ _ | ConnectMongo | EnsureInitialOwner | ConnectRedis | AttachReporter | SetExceptionHandler
    | SpawnWarmup | ActiveGroups | GetEffectiveRole _ | StopScheduler | CloseRedis | StopMtproto | CloseMongo | AwaitTasks _ _
    | CancelTasks _ | AwaitMutations _ | AddSignalHandlers | AddHandler _ _ | AddErrorHandler | AppInitialize | AppStart | AppStop
    | AppShutdown | SetWebhook _ | RegisterWebhook | WaitShutdown | DeleteWebhook | RunPolling | BuildApplication _ | SetupLogging
    | StartKeepalive | PrintFatal _ _ => (Ok tt, s)
    end.

Lemma answers_admitted url sch X (ev : boot X) s : admits ev (answers url sch X ev s).1.
Proof. by destruct ev. Qed.

Definition trace_of {A} (url : string) (sch : result unit) (p : bio A) : trace boot := run_trace (answers url sch) p tt.

Lemma trace_of_exec {A} url sch (p : bio A) : exec p (trace_of url sch p) (run_result (answers url sch) p tt).
Proof.
  unfold trace_of, run_trace, run_result. destruct (run (answers url sch) p tt) as [[t r] s] eqn:Hr.
  eapply run_exec; [|exact Hr]. intros. apply answers_admitted.
Qed.

(** A boot that serves: the webhook is wired, behind each of its requirements. *)
Lemma boot_before_updates_witness :
  let t := trace_of "https://bot" (Ok tt) (_run_webhook_mode true "https://bot") in
  existsb obs_live t = true /\ guarded obs_scheduler obs_live t = true.
Proof.
  split; [by vm_compute|].
  eapply (boot_before_updates true "https://bot"%string); [apply trace_of_exec|]. right. right. by left.
Defined.

Lemma shutdown_closes_last_witness : exists t', trace_of "" (Ok tt) _post_shutdown = t' ++ [Obs CloseMongo (Ok tt)].
Proof.
  pose proof (shutdown_closes_last _ _ (trace_of_exec "" (Ok tt) _post_shutdown)) as H.
  destruct H as (t' & Ht & _). exists t'. exact Ht.
Defined.

Lemma indexes_fail_fast_witness :
  In (Obs (CreateIndex "bans" (unique_index [("ban_id"%string, 1)])) (Ok tt)) (trace_of "" (Ok tt) ensure_indexes).
Proof.
  pose proof (indexes_fail_fast _ _ (trace_of_exec "" (Ok tt) ensure_indexes)) as H.
  change (run_result (answers "" (Ok tt)) ensure_indexes tt) with (Ok (A := unit) tt) in H.
  exact (proj1 (List.Forall_forall _ _) H ("bans"%string, unique_index [("ban_id"%string, 1)]) (or_intror (or_introl eq_refl))).
Defined.

Lemma webhook_given_back_witness :
  existsb obs_unregister (trace_of "https://other" (Ok tt) (webhook_body true "https://bot")) = true.
Proof. eapply webhook_given_back; [apply trace_of_exec|]. by vm_compute. Defined.

Lemma main_exits_witness : run_result (answers "" (Err (RuntimeError "x"))) (main true true "https://bot") tt = Err system_exit.
Proof.
  destruct (main_exits true true "https://bot"%string _ _ (trace_of_exec "" (Err (RuntimeError "x")) (main true true "https://bot")))
    as [H|H]; [|exact H]. vm_compute in H. discriminate H.
Defined.

(** A boot that fails after the MTProto client has started never stops it, nor
    closes the database: its lease lapses by itself. *)
Example failed_boot_stops_nothing :
  let t := trace_of "https://bot" (Err (RuntimeError "APScheduler failed to start.")) (_run_webhook_mode true "https://bot") in
  existsb obs_mtproto_settled t = true /\ existsb obs_stop_mtproto t = false /\ existsb obs_close_mongo t = false.
Proof. by vm_compute. Qed.
