(* ===== verification/Schema.v ===== *)
(** The document schemas of [tcbot/database/documents.py], and what the
    database layer writes against them: every field an insert or an update
    stores is one its collection's [TypedDict] declares, with a value of the
    declared type. *)

From S2P Require Import Prelude Prog Text World I18n Dispatch Cache Locale Roles Replies Auth Records Warns ProofUpload DemoteFlow BanFlow WarnFlow MuteFlow KickFlow WarnManage AppealReview JoinFlow Prefixes Extract Handler AppealSubmit PromoteFlow Admins ConnectedFlow Syncing Maintenance Language Jobs Identity BanSession Commands ReasonFlow Drills CheckViews Stats.

(** * Schemas *)

(** The annotations: [int], [str], [bool], [datetime], [ObjectId], a
    [Literal], and [T | None]. *)
Inductive field_type : Type :=
  | TyInt
  | TyStr
  | TyBool
  | TyDate
  | TyObjectId
  | TyLiteral (values : list string)
  | TyOptional (t : field_type).

Definition RoleName : field_type := TyLiteral ["founder"; "admin"; "developer"; "tester"]%string.
Definition RequestStatus : field_type := TyLiteral ["pending"; "approved"; "rejected"]%string.

(** A [TypedDict] with [total=False]: any of the fields, and no other. *)
Definition schema : Type := list (string * field_type).


Definition AdminDoc : schema :=
  [("user_id", TyInt); ("promoted_by", TyInt); ("promoted_date", TyDate)]%string.

Definition BanDoc : schema :=
  [("ban_id", TyStr); ("banned_user_id", TyInt); ("reason", TyStr); ("admin_user_id", TyInt);
   ("proof_message_id", TyInt); ("log_message_id", TyInt);
   ("previous_proof_message_id", TyOptional TyInt); ("previous_log_message_id", TyOptional TyInt);
   ("timestamp", TyDate); ("updated_timestamp", TyOptional TyDate); ("until_date", TyOptional TyDate);
   ("duration_str", TyOptional TyStr); ("is_active", TyBool); ("update_count", TyInt);
   ("review_message_id", TyOptional TyInt); ("review_timestamp", TyOptional TyDate);
   ("appeal_log_msg_id", TyOptional TyInt); ("appeal_submitted_at", TyOptional TyDate);
   ("appeal_link", TyOptional TyStr); ("rejected_by_id", TyOptional TyInt);
   ("rejected_by_name", TyOptional TyStr); ("rejected_at", TyOptional TyDate)]%string.

Definition GroupDoc : schema :=
  [("chat_id", TyInt); ("title", TyStr); ("added_by", TyInt); ("added_date", TyDate);
   ("is_active", TyBool); ("locale", TyOptional TyStr)]%string.

Definition PendingGroupDoc : schema :=
  [("chat_id", TyInt); ("title", TyStr); ("owner_id", TyInt); ("message_id", TyInt);
   ("added_date", TyDate)]%string.

Definition RoleDoc : schema :=
  [("user_id", TyInt); ("role", RoleName); ("assigned_by", TyInt); ("assigned_at", TyDate)]%string.

Definition RoleRefDoc : schema := [("user_id", TyInt)]%string.

Definition UserDoc : schema :=
  [("user_id", TyInt); ("username", TyOptional TyStr); ("first_name", TyOptional TyStr);
   ("last_name", TyOptional TyStr); ("commit_date", TyDate); ("last_updated", TyDate)]%string.

Definition UserSettingsDoc : schema := [("user_id", TyInt); ("locale", TyOptional TyStr)]%string.

Definition KickDoc : schema :=
  [("user_id", TyInt); ("chat_id", TyInt); ("reason", TyStr); ("admin_id", TyInt);
   ("timestamp", TyDate)]%string.

Definition MuteDoc : schema :=
  [("user_id", TyInt); ("chat_id", TyInt); ("reason", TyStr); ("admin_id", TyInt);
   ("timestamp", TyDate); ("duration_secs", TyOptional TyInt)]%string.

Definition ActiveMuteDoc : schema :=
  [("user_id", TyInt); ("until_date", TyOptional TyDate); ("timestamp", TyDate)]%string.

Definition WarnDoc : schema :=
  [("_id", TyObjectId); ("user_id", TyInt); ("reason", TyStr); ("admin_id", TyInt);
   ("chat_id", TyInt); ("timestamp", TyDate)]%string.

Definition WarnCountDoc : schema :=
  [("user_id", TyInt); ("chat_id", TyInt); ("count", TyInt); ("updated_at", TyDate)]%string.

Definition PromotionRequestDoc : schema :=
  [("request_id", TyStr); ("target_id", TyInt); ("username", TyOptional TyStr); ("first_name", TyStr);
   ("promoted_by", TyInt); ("status", RequestStatus); ("requested_date", TyDate);
   ("resolved_date", TyOptional TyDate); ("resolved_by", TyOptional TyInt)]%string.

(** The collection whose documents each class describes: its docstring says
    so, and the accessors of the database modules are annotated with it. *)
Definition schema_of (collection : string) : option schema :=
  assoc collection
    [("tc_admins", AdminDoc); ("bans", BanDoc); ("federated_groups", GroupDoc);
     ("pending_joins", PendingGroupDoc); ("tc_roles", RoleDoc); ("tc_owners", RoleRefDoc);
     ("member_cache", UserDoc); ("user_settings", UserSettingsDoc); ("kicks", KickDoc);
     ("mutes", MuteDoc); ("active_mutes", ActiveMuteDoc); ("warns", WarnDoc);
     ("warn_counts", WarnCountDoc); ("promotion_requests", PromotionRequestDoc)]%string.

(** * Typed values and writes *)
Fixpoint has_type (ty : field_type) (v : bson) : bool :=
  match ty, v with
  | TyInt, BInt _ | TyStr, BStr _ | TyBool, BBool _ | TyDate, BDate _ | TyObjectId, BId _ => true
  | TyLiteral values, BStr s => existsb (String.eqb s) values
  | TyOptional _, BNull => true
  | TyOptional t, v => has_type t v
  | _, _ => false
  end.

(** Some of the declared fields, each with a value of its type. *)
Definition typed_doc (s : schema) (d : doc) : bool :=
  forallb (fun '(k, v) => match assoc k s with Some ty => has_type ty v | None => false end) d.

(** The operators of an update document that store values, and [$unset],
    which may drop any declared field. *)
Definition typed_operator (s : schema) (op : string * bson) : bool :=
  match op.2 with
  | BDoc fields =>
      if existsb (String.eqb op.1) ["$set"; "$setOnInsert"]%string then typed_doc s fields
      else if String.eqb op.1 "$inc" then
        forallb (fun '(k, v) => match assoc k s, v with Some TyInt, BInt _ => true | _, _ => false end) fields
      else if String.eqb op.1 "$unset" then
        forallb (fun '(k, _) => match assoc k s with Some _ => true | None => false end) fields
      else false
  | _ => false
  end.

(** An upsert also stores what its filter asks for. *)
Definition typed_update (s : schema) (filter up : doc) (upsert : bool) : bool :=
  forallb (typed_operator s) up && (negb upsert || typed_doc s filter).

Definition typed_in (collection : string) (ok : schema -> bool) : bool :=
  match schema_of collection with Some s => ok s | None => false end.

(** A write that stores anything its collection does not declare. *)
Definition obs_untyped (o : obs eff) : bool :=
  match o with
  | Obs ev _ =>
      negb match ev with
           | InsertOne c d => typed_in c (fun s => typed_doc s d)
           | UpdateOne c f up upsert => typed_in c (fun s => typed_update s f up upsert)
           | UpdateMany c f up => typed_in c (fun s => typed_update s f up false)
           | ReplaceOne c f d upsert => typed_in c (fun s => typed_doc s d)
           | FindOneAndUpdate c f up upsert => typed_in c (fun s => typed_update s f up upsert)
           | FindOneAndReplace c f d upsert _ => typed_in c (fun s => typed_doc s d)
           | _ => true
           end
  end.

(** A program all of whose writes are typed, whatever it is answered. *)
Abbreviation typed := (never obs_untyped).

(** * Typed programs *)
Lemma has_type_opt ty v : has_type ty v = true -> has_type (TyOptional ty) v = true.
Proof. by destruct v. Qed.

Lemma typed_optstr o : has_type (TyOptional TyStr) (boptstr o) = true.
Proof. by destruct o. Qed.

Lemma talk_typed o : obs_talk o = true -> obs_untyped o = false.
Proof. destruct o as [X [] r]; done. Qed.

Lemma locale_typed o : obs_locale o = true -> obs_untyped o = false.
Proof. destruct o as [X [] r]; done. Qed.

Lemma cache_typed c k o : cache_obs c k o = true -> obs_untyped o = false.
Proof. destruct o as [X [] r]; done. Qed.

Lemma fetch_typed c k p : typed p -> typed (get_or_fetch c k p).
Proof. apply get_or_fetch_never. intros. by eapply cache_typed. Qed.

Lemma fan_out_typed {T} (coros : list (io T)) : (forall c, In c coros -> typed c) -> typed (fan_out coros).
Proof. by apply fan_out_never. Qed.

Lemma for_each_typed {X} (xs : list X) (body : X -> io unit) : (forall x, typed (body x)) -> typed (for_each xs body).
Proof. intros Hb. induction xs as [|x xs IH]; cbn [for_each]; [apply never_ret|]. by apply never_bind. Qed.

Lemma gather_bounded_typed {T} (coros : list (io T)) : (forall c, In c coros -> typed c) -> typed (gather_bounded coros).
Proof.
  intros H%List.Forall_forall. unfold gather_bounded. destruct coros as [|c cs]; [apply never_ret|].
  apply never_bind; [|intros; apply never_bind; [apply throw_never|intros; apply never_ret]].
  apply never_gather_list, Forall_map. eapply Forall_impl; [exact H|]. intros p Hp.
  apply never_bind; [by apply never_attempt|]. intros [a|e]; never_auto.
Qed.

#[export] Hint Resolve talk_typed locale_typed fetch_typed : never.
#[export] Hint Resolve throw_never : never.

Create HintDb written.
#[export] Hint Unfold boptstr request_doc pending_filter : written.

(** The calls of a concrete write are evaluated; what is left is the type of
    an argument. *)
Ltac typed_list :=
  lazymatch goal with
  | |- Forall _ (map _ _) => apply Forall_map, Forall_forall; intros ? _
  | |- Forall _ (_ ++ _) => apply Forall_app; split; typed_list
  | |- Forall _ (_ :: _) => constructor; [|typed_list]
  | |- Forall _ [] => constructor
  | |- Forall _ (if ?b then _ else _) => destruct b; typed_list
  | |- Forall _ (match ?x with _ => _ end) => destruct x; typed_list
  end.
Ltac typed_each :=
  intros ?; first [intros (? & <- & _)%in_map_iff | intros [<-|(? & <- & _)%in_map_iff]].
Ltac typed_step :=
  lazymatch goal with
  | |- never _ (gather3 _ _ _) => apply never_gather3
  | |- never _ (gather_list _) => apply never_gather_list; typed_list
  | |- never _ (fan_out _) => apply fan_out_typed; typed_each
  | |- never _ (gather_bounded _) => apply gather_bounded_typed; typed_each
  | |- never _ (for_each _ _) => apply for_each_typed; intros ?
  | |- never _ (get_or_fetch _ _ _) => apply fetch_typed
  | |- never _ (call _) =>
      apply never_call; intros ?; autounfold with written;
      repeat match goal with |- context [match ?x with Some _ => _ | None => _ end] => is_var x; destruct x end;
      reflexivity
  | _ => never_step
  end.
Ltac head t := lazymatch t with ?f _ => head f | _ => t end.
Ltac typed_unfold := lazymatch goal with |- never _ ?p => let h := head p in unfold h end.
Ltac typed_auto :=
  repeat (first [typed_step | solve [eauto 3 with never] | typed_unfold]; cbn beta iota zeta).
Ltac op := intros; typed_auto.

(** ** The operations of the database layer *)
Lemma put_typed c k v : typed (put c k v).
Proof. op. Qed.

Lemma invalidate_typed c k : typed (invalidate c k).
Proof. op. Qed.

Lemma clear_all_typed c : typed (clear_all c).
Proof. op. Qed.

#[export] Hint Resolve put_typed invalidate_typed clear_all_typed : never.

Lemma create_ban_typed t r a p l bid until ds :
  has_type (TyOptional TyDate) until = true -> typed (create_ban t r a p l bid until ds).
Proof. destruct until; try done; unfold create_ban; op. Qed.

Lemma update_ban_typed bid r a new_p l old_p old_l until ds :
  has_type TyInt new_p = true -> has_type (TyOptional TyInt) old_p = true ->
  has_type (TyOptional TyDate) until = true -> typed (update_ban bid r a new_p l old_p old_l until ds).
Proof. destruct new_p; try done; destruct old_p; try done; destruct until; try done; op. Qed.

Lemma set_log_message_id_typed bid m : typed (set_log_message_id bid m).
Proof. op. Qed.

Lemma deactivate_ban_typed bid : typed (deactivate_ban bid).
Proof. op. Qed.

Lemma deactivate_all_active_bans_typed uid : typed (deactivate_all_active_bans uid).
Proof. op. Qed.

Lemma deactivate_extra_active_bans_typed uid keep : typed (deactivate_extra_active_bans uid keep).
Proof. op. Qed.

Lemma set_review_typed bid m : typed (set_review bid m).
Proof. op. Qed.

Lemma set_review_if_absent_typed bid m : typed (set_review_if_absent bid m).
Proof. op. Qed.

Lemma clear_review_typed bid : typed (clear_review bid).
Proof. op. Qed.

Lemma set_rejected_by_typed bid a n : typed (set_rejected_by bid a n).
Proof. op. Qed.

Lemma set_appeal_log_msg_typed bid m at_ link : typed (set_appeal_log_msg bid m at_ link).
Proof. op. Qed.

Lemma refresh_group_title_typed cid title : typed (refresh_group_title cid title).
Proof. op. Qed.

Lemma is_connected_typed cid : typed (is_connected cid).
Proof. op. Qed.

Lemma add_group_typed cid title by_ : typed (add_group cid title by_).
Proof. op. Qed.

Lemma deactivate_group_typed cid : typed (deactivate_group cid).
Proof. op. Qed.

Lemma active_groups_typed : typed active_groups.
Proof. op. Qed.

Lemma migrate_group_typed old new : typed (migrate_group old new).
Proof. op. Qed.

Lemma add_pending_typed cid title o m : typed (add_pending cid title o m).
Proof. op. Qed.

Lemma upsert_user_typed uid un fn ln : typed (upsert_user uid un fn ln).
Proof. op. Qed.

Lemma harvest_user_identity_typed uid un fn ln : typed (harvest_user_identity uid un fn ln).
Proof. op. Qed.

Lemma log_kick_typed uid cid r a : typed (log_kick uid cid r a).
Proof. op. Qed.

Lemma migrate_kicks_typed old new : typed (migrate_kicks old new).
Proof. op. Qed.

Lemma log_mute_typed uid cid r a d : typed (log_mute uid cid r a d).
Proof. op. Qed.

Lemma set_active_mute_typed uid until : typed (set_active_mute uid until).
Proof. op. Qed.

Lemma inc_loop_typed uid cid attempts : typed (inc_loop uid cid attempts).
Proof. induction attempts as [|n attempts IH]; cbn [inc_loop]; op. Qed.

Lemma delete_counts_typed f attempts : typed (delete_counts_loop f attempts).
Proof. induction attempts as [|n attempts IH]; cbn [delete_counts_loop]; op. Qed.

Lemma converge_owner_typed uid attempts : typed (converge_owner uid attempts).
Proof. induction attempts as [|n attempts IH]; cbn [converge_owner]; op. Qed.

Lemma merge_counters_typed docs old new b : typed (merge_counters docs old new b).
Proof. revert b. induction docs as [|d docs IH]; intros b; cbn [merge_counters]; op. Qed.

#[export] Hint Resolve inc_loop_typed delete_counts_typed converge_owner_typed merge_counters_typed : never.

Lemma add_warn_typed uid r a cid : typed (add_warn uid r a cid).
Proof. op. Qed.

Lemma clear_warns_typed uid cid : typed (clear_warns uid cid).
Proof. op. Qed.

Lemma clear_all_warns_typed uid : typed (clear_all_warns uid).
Proof. op. Qed.

Lemma remove_last_warn_typed uid cid : typed (remove_last_warn uid cid).
Proof. op. Qed.

Lemma warn_count_typed uid cid : typed (warn_count uid cid).
Proof. op. Qed.

Lemma set_owner_typed uid : typed (set_owner uid).
Proof. op. Qed.

Lemma add_admin_typed uid by_ : typed (add_admin uid by_).
Proof. op. Qed.

Lemma set_user_locale_typed uid l : typed (set_user_locale uid l).
Proof. op. Qed.

Lemma set_group_locale_typed cid l : typed (set_group_locale cid l).
Proof. op. Qed.

Lemma enqueue_typed uid un fn by_ : typed (enqueue uid un fn by_).
Proof. op. Qed.

Lemma migrate_records_typed old new : typed (migrate_records old new).
Proof. unfold migrate_records; op. Qed.

(** A refused role or status never reaches the database. *)
Lemma checked_typed {A} (values : list string) s (p q : io A) :
  typed p -> (forall v, In v values -> s = v -> typed q) ->
  typed (if negb (existsb (String.eqb s) values) then p else q).
Proof.
  intros Hp Hq. destruct (existsb (String.eqb s) values) eqn:He; [|done].
  apply existsb_exists in He as (v & Hin & ->%String.eqb_eq). by eapply Hq.
Qed.

Lemma set_role_typed uid role by_ : typed (set_role uid role by_).
Proof. apply checked_typed; [op|]. intros v Hv ->. destruct Hv as [<-|[<-|[]]]; op. Qed.

Lemma resolve_typed rid status by_ : typed (resolve rid status by_).
Proof. apply checked_typed; [op|]. intros v Hv ->. destruct Hv as [<-|[<-|[]]]; op. Qed.

#[export] Hint Resolve set_log_message_id_typed deactivate_ban_typed deactivate_all_active_bans_typed
  deactivate_extra_active_bans_typed set_review_typed set_review_if_absent_typed clear_review_typed
  set_rejected_by_typed set_appeal_log_msg_typed refresh_group_title_typed is_connected_typed
  add_group_typed deactivate_group_typed active_groups_typed migrate_group_typed add_pending_typed
  upsert_user_typed harvest_user_identity_typed log_kick_typed migrate_kicks_typed log_mute_typed
  set_active_mute_typed add_warn_typed clear_warns_typed clear_all_warns_typed remove_last_warn_typed
  warn_count_typed set_owner_typed add_admin_typed set_user_locale_typed set_group_locale_typed
  enqueue_typed migrate_records_typed set_role_typed resolve_typed : never.

(** ** What the executors share *)
Lemma passive_typed o : obs_passive o = true -> obs_untyped o = false.
Proof. destruct o as [X [] r]; done. Qed.

Lemma quiet_typed {A} (p : io A) : wp p (fun t _ => passive t) -> typed p.
Proof. apply passive_never, passive_typed. Qed.

Lemma role_typed uid : typed (get_effective_role uid).
Proof. apply get_effective_role_never, passive_typed. Qed.

Lemma reply_typed m txt : typed (safe_reply m txt).
Proof. apply reply_never, talk_typed. Qed.

Lemma reply_if_typed m txt : typed (reply_if m txt).
Proof. apply reply_if_never, talk_typed. Qed.

Lemma reply_kb_typed m txt kb : typed (safe_reply_kb m txt kb).
Proof. apply reply_kb_never, talk_typed. Qed.

Lemma note_typed c m txt kb : typed (safe_edit_message c m txt kb true).
Proof. apply note_never, talk_typed. Qed.

Lemma upload_docs_typed c ch th n docs first : typed (upload_docs c ch th n docs first).
Proof. revert n first. induction docs as [|d docs IH]; intros; cbn [upload_docs]; op. Qed.

#[export] Hint Resolve role_typed reply_typed reply_if_typed reply_kb_typed note_typed upload_docs_typed : never.

Lemma upload_typed c ch th msgs : typed (upload_proof c ch th msgs).
Proof. op. Qed.

#[export] Hint Resolve upload_typed : never.

(** A program made ready, then awaited later. *)
Lemma prepared_typed {A B} (p : io (io A)) (k : io A -> io B) :
  wp p (fun t r => Forall (fun o => obs_untyped o = false) t /\ forall q, r = Ok q -> typed q) ->
  (forall q, typed q -> typed (k q)) -> typed (bind p k).
Proof.
  intros Hp Hk. apply wp_bind. eapply wp_mono; [exact Hp|]. intros t [q|e] [Ht Hq]; [|done].
  eapply wp_mono; [by apply Hk, Hq|]. intros t' r Ht'. by apply Forall_app.
Qed.

Lemma harvest_typed admins : typed (_harvest_admin_identities admins).
Proof. unfold _harvest_admin_identities. destruct (List.filter _ _) as [|u us]; cbn [map]; op. Qed.

Lemma beside_typed admins p : typed p -> typed (beside_harvest admins p).
Proof.
  intros Hp. unfold beside_harvest. destruct admins as [[|u us]|e]; try done.
  apply never_bind; [apply never_gather2; [apply harvest_typed|done]|]. intros [r1 r2]. destruct r2; never_auto.
Qed.

Section executors.
Context {CAT : Catalog} (cfg : config) (bot_id : Z) (bot_username : string) (prefixes : list ustr) (bot : option ustr).

Lemma update_locale_typed upd : typed (locale_for_update upd).
Proof. apply locale_for_update_never, locale_typed. Qed.

Lemma user_locale_typed uid : typed (locale_for_user uid).
Proof. apply locale_for_user_never, locale_typed. Qed.

Lemma chat_locale_typed ct cid : typed (locale_for_chat ct cid).
Proof. apply locale_for_chat_never, locale_typed. Qed.

#[local] Hint Resolve update_locale_typed user_locale_typed chat_locale_typed : never.


Lemma first_hit_typed probed : typed (first_hit probed).
Proof. apply first_hit_silent. Qed.

#[local] Hint Resolve first_hit_typed : never.

(** Target extraction, one message entity at a time. *)
Lemma text_mention_typed ents : typed (text_mention ents).
Proof. induction ents as [|ent ents IH]; cbn [text_mention]; op. Qed.

Lemma at_mention_typed text ents : typed (at_mention text ents).
Proof. induction ents as [|ent ents IH]; cbn [at_mention]; op. Qed.

(** The evidence is uploaded beside the record, when there is some. *)
Lemma prepared_upload_typed {A} (msgs : list proof_message) (caption : Z -> text) ch th (k : io (option Z) -> io A) :
  (forall q, typed q -> typed (k q)) ->
  typed (bind match msgs with
              | [] => Ret (Ret None)
              | _ => now <- call UtcNow ;; Ret (upload_proof (caption now) ch th msgs)
              end k).
Proof.
  intros Hk. apply prepared_typed; [|exact Hk]. destruct msgs as [|m ms].
  - apply wp_ret. split; [constructor|]. intros q [= <-]. op.
  - apply wp_bind, wp_call. intros [now|e] _; cbn.
    + apply wp_ret. split; [by repeat constructor|]. intros q [= <-]. apply upload_typed.
    + split; [by repeat constructor|]. done.
Qed.

Lemma replay_typed chat title owner fname un bans mutes : typed (replay_and_log cfg chat title owner fname un bans mutes).
Proof. op. Qed.

#[local] Hint Resolve text_mention_typed at_mention_typed beside_typed replay_typed : never.

Lemma execute_warn_typed upd w proofs : typed (execute_warn cfg upd w proofs).
Proof.
  unfold execute_warn. destruct (effective_message upd), (effective_chat upd), (effective_user upd); try solve [op].
  destruct (cfg_proofs cfg) as [pc pt]. apply never_bind; [op|intros locale].
  apply (prepared_upload_typed proofs (fun now => TBuild "parse_logmsg.proof_caption_new"
    [TInt (w_target_id w); TInt (w_admin_id w); TStr (w_admin_fname w); TInt now])).
  intros q Hq. op.
Qed.

Lemma execute_kick_typed upd k : typed (execute_kick cfg upd k).
Proof.
  unfold execute_kick.
  destruct (effective_user upd) as [aid|], (effective_chat upd) as [[]|], (effective_message upd); try solve [op].
  apply never_bind; [op|intros locale]. destruct (cfg_proofs cfg) as [pc pt] eqn:Hp.
  apply (prepared_upload_typed (kick_proof_msgs k) (fun now => TBuild "parse_logmsg.proof_caption_new"
    [TInt (kick_target_id k); TInt aid; TStr (kick_admin_fname k); TInt now])).
  intros q Hq. op.
Qed.

Lemma handle_typed state upd i : typed (AppealSubmit.handle cfg prefixes bot state upd i).
Proof.
  unfold AppealSubmit.handle, build_handler. destruct state, i;
    repeat match goal with |- context [if ?b then _ else _] => destruct b end; op.
Qed.

#[local] Hint Resolve execute_warn_typed execute_kick_typed handle_typed : never.

(** The conversations that collect a reason and evidence. *)
Lemma executor_typed a title c : typed (fl_executor (flow_of cfg a title) c).
Proof. destruct a; cbn [flow_of kick_flow mute_flow warn_flow fl_executor]; op. Qed.

#[local] Hint Resolve executor_typed : never.

Lemma conversation_typed a title state i c : typed (ReasonFlow.handle (flow_of cfg a title) state i c).
Proof.
  unfold ReasonFlow.handle, build, fallbacks. pose proof (executor_typed a title) as He.
  destruct (flow_of cfg a title) as [action role execute]. cbn [fl_executor] in He.
  destruct state, i; repeat match goal with |- context [if ?b then _ else _] => destruct b end; op.
Qed.

(** The drill-down views only read, user by user and row by row. *)
Lemma cached_triples_typed uids : typed (cached_triples uids).
Proof. induction uids as [|uid uids IH]; cbn [cached_triples]; op. Qed.

Lemma store_found_typed docs seen : typed (store_found docs seen).
Proof. revert seen. induction docs as [|d docs IH]; intros seen; cbn [store_found]; op. Qed.

Lemma store_absent_typed missing seen : typed (store_absent missing seen).
Proof. revert seen. induction missing as [|uid missing IH]; intros seen; cbn [store_absent]; op. Qed.

Lemma names_typed triples : typed (names_of triples).
Proof. induction triples as [|[uid v] triples IH]; cbn [names_of]; op. Qed.

Lemma titles_typed docs : typed (titles_of docs).
Proof. induction docs as [|d docs IH]; cbn [titles_of]; op. Qed.

#[local] Hint Resolve conversation_typed cached_triples_typed store_found_typed store_absent_typed names_typed titles_typed : never.

Lemma fetch_page_typed {B} count (beside : io B) rows page :
  typed count -> typed beside -> (forall a b, typed (rows a b)) -> typed (fetch_page count beside rows page).
Proof. intros Hc Hb Hr. unfold fetch_page. op. Qed.

Lemma ban_list_typed tid page locale v :
  (forall a b, typed (db_call_of v tid a b)) -> typed (count_call v tid) -> typed (_ban_list_render tid page locale v).
Proof. intros Hr Hc. unfold _ban_list_render. apply never_bind; [by apply fetch_page_typed; [|op|]|]. op. Qed.

Lemma event_list_typed tid page v locale :
  (forall a b, typed (ev_rows v tid a b)) -> typed (ev_count v tid) -> typed (_per_chat_event_list tid page v locale).
Proof. intros Hr Hc. unfold _per_chat_event_list. apply never_bind; [by apply fetch_page_typed; [|op|]|]. op. Qed.

Lemma bans_list_typed tid page locale : typed (bans_list tid page locale).
Proof. apply ban_list_typed; cbn; op. Qed.
Lemma appeals_list_typed tid page locale : typed (appeals_list tid page locale).
Proof. apply ban_list_typed; cbn; op. Qed.
Lemma kicks_list_typed tid page locale : typed (kicks_list tid page locale).
Proof. apply event_list_typed; cbn; op. Qed.
Lemma mutes_list_typed tid page locale : typed (mutes_list tid page locale).
Proof. apply event_list_typed; cbn; op. Qed.

#[local] Hint Resolve bans_list_typed appeals_list_typed kicks_list_typed mutes_list_typed : never.

Lemma on_view_typed {X} upd q (parse : ustr -> option X) render :
  (forall a locale, typed (render a locale)) -> typed (on_view upd q parse render).
Proof. intros Hr. unfold on_view. op. Qed.

Lemma view_typed v upd q : typed (body_of cfg bot_id v upd q).
Proof. destruct v; apply on_view_typed; intros a locale; repeat destruct a as [a ?]; op. Qed.

#[local] Hint Resolve view_typed : never.

#[local] Hint Resolve view_typed : never.

(** The programs the property is about, each with its arguments: executors,
    conversations, handlers and command bodies ([W_]), and every function of
    the database layer that stores into a collection with a [TypedDict] ([D_],
    and the [W_] ones of locales, roles and the first owner).  Arguments have
    the types of their annotations; the three that are passed as they were read
    from a document or left out have them by hypothesis. *)
Inductive writer : forall {A}, io A -> Prop :=
  | W_ban msgs meta : writer (_execute_ban cfg bot_username msgs meta)
  | W_warn upd w proofs : writer (execute_warn cfg upd w proofs)
  | W_unwarn upd w : writer (execute_unwarn cfg upd w)
  | W_resetwarns upd w : writer (execute_resetwarns cfg upd w)
  | W_mute upd m : writer (_execute_mute cfg upd m)
  | W_unmute upd admin tid name : writer (execute_unmute cfg upd admin tid name)
  | W_kick upd k : writer (execute_kick cfg upd k)
  | W_unban upd admin tid name pre : writer (execute_unban cfg upd admin tid name pre)
  | W_demote tid name role aid admin trigger : writer (DemoteFlow.execute cfg tid name role aid admin trigger)
  | W_promote c : writer (cmd_promote_body cfg bot_id c)
  | W_promote_role c q : writer (on_promote_role_btn_body cfg c q)
  | W_promote_request c : writer (cmd_promote_request_body cfg c)
  | W_promo_decision c q : writer (on_promo_decision_body cfg c q)
  | W_transfer c : writer (cmd_transfer_body cfg bot_id c)
  | W_appeal state upd i : writer (AppealSubmit.handle cfg prefixes bot state upd i)
  | W_review upd q data admin : writer (on_decision cfg upd q data admin)
  | W_new_member upd ms : writer (on_new_member cfg bot_username upd ms)
  | W_left_member upd m : writer (on_left_member cfg upd m)
  | W_migration upd old : writer (on_chat_migration upd old)
  | W_bot_added upd m : writer (on_bot_added cfg upd m)
  | W_join_decision c title q : writer (on_join_decision cfg bot_id c title q)
  | W_tcconnect c title : writer (cmd_tcconnect_body cfg bot_id c title)
  | W_tcdisconnect c title : writer (cmd_tcdisconnect_body cfg c title)
  | W_rmtc c : writer (cmd_rmtc_body cfg c)
  | W_sync c : writer (cmd_sync_body c)
  | W_cleanup c : writer (cmd_cleanup_body cfg bot_id c)
  | W_leaveall c : writer (cmd_leaveall_body cfg c)
  | W_language c q : writer (on_lang_set_body c q)
  | W_identity uid age : writer (sync_user_identity uid age)
  | W_user_locale uid locale : writer (set_user_locale uid locale)
  | W_group_locale cid locale : writer (set_group_locale cid locale)
  | W_role uid role by_ : writer (set_role uid role by_)
  | W_owner uid : writer (ensure_initial_owner uid)
  | W_tcban c : writer (cmd_ban_start_body cfg bot_id c)
  | W_tckick c : writer (cmd_kick_body cfg bot_id c)
  | W_tcmute c : writer (cmd_mute_body cfg bot_id c)
  | W_tcunban c : writer (cmd_unban_body cfg bot_id c)
  | W_manage c m : writer (manage cfg bot_id c m)
  | W_conversation a title state i c : writer (ReasonFlow.handle (flow_of cfg a title) state i c)
  | W_demote_confirm c q : writer (on_demote_confirm_body cfg c q)
  | W_check c : writer (cmd_check_body bot_id c)
  | W_check_view v upd q : writer (body_of cfg bot_id v upd q)
  | W_join_request req : writer (on_join_request cfg req)
  | W_join_approved u_ : writer (on_join_request_approved cfg u_)
  | W_stats c : writer (cmd_stats_body cfg c)
  | W_stats_main upd q : writer (on_stats_main_body cfg upd q)
  | D_create_ban tid reason aid proof log bid until text :
      has_type (TyOptional TyDate) until = true -> writer (create_ban tid reason aid proof log bid until text)
  | D_update_ban bid reason aid new_proof log old_proof old_log until text :
      has_type TyInt new_proof = true -> has_type (TyOptional TyInt) old_proof = true ->
      has_type (TyOptional TyDate) until = true ->
      writer (update_ban bid reason aid new_proof log old_proof old_log until text)
  | D_set_log_message_id bid m : writer (set_log_message_id bid m)
  | D_deactivate_ban bid : writer (deactivate_ban bid)
  | D_deactivate_all_active_bans uid : writer (deactivate_all_active_bans uid)
  | D_deactivate_extra_active_bans uid keep : writer (deactivate_extra_active_bans uid keep)
  | D_set_review bid m : writer (set_review bid m)
  | D_set_review_if_absent bid m : writer (set_review_if_absent bid m)
  | D_clear_review bid : writer (clear_review bid)
  | D_set_rejected_by bid aid name : writer (set_rejected_by bid aid name)
  | D_set_appeal_log_msg bid m at_ link : writer (set_appeal_log_msg bid m at_ link)
  | D_add_group cid title by_ : writer (add_group cid title by_)
  | D_deactivate_group cid : writer (deactivate_group cid)
  | D_refresh_group_title cid title : writer (refresh_group_title cid title)
  | D_migrate_group old new : writer (migrate_group old new)
  | D_add_pending cid title owner m : writer (add_pending cid title owner m)
  | D_upsert_user uid username first last : writer (upsert_user uid username first last)
  | D_upsert_user_if_changed uid username first last : writer (upsert_user_if_changed uid username first last)
  | D_log_kick uid cid reason aid : writer (log_kick uid cid reason aid)
  | D_migrate_kicks old new : writer (migrate_kicks old new)
  | D_log_mute uid cid reason aid secs : writer (log_mute uid cid reason aid secs)
  | D_set_active_mute uid until : writer (set_active_mute uid until)
  | D_migrate_mutes old new : writer (migrate_mutes old new)
  | D_add_warn uid reason aid cid : writer (add_warn uid reason aid cid)
  | D_warn_count uid cid : writer (warn_count uid cid)
  | D_clear_warns uid cid : writer (clear_warns uid cid)
  | D_clear_all_warns uid : writer (clear_all_warns uid)
  | D_remove_last_warn uid cid : writer (remove_last_warn uid cid)
  | D_migrate_warns old new : writer (migrate_records old new)
  | D_set_owner uid : writer (set_owner uid)
  | D_add_admin uid by_ : writer (add_admin uid by_)
  | D_enqueue uid username first by_ : writer (enqueue uid username first by_)
  | D_resolve rid status by_ : writer (resolve rid status by_).

Lemma writer_typed {A} (p : io A) : writer p -> typed p.
Proof. destruct 1; try solve [op]; [by apply create_ban_typed|by apply update_ban_typed]. Qed.
End executors.

(** * Property *)

(** C30: whatever the calls of a run answer, and however its parts interleave,
    the functions of the database layer, called with arguments of their
    annotated types, and the executors, conversations, handlers and command
    bodies of [writer] store in the collections with a [TypedDict] only what
    these declare: each document inserted and each field set, incremented or
    taken from an upsert's filter is a field of that [TypedDict], with a value
    of the declared type - a role or a request status among the literals the
    annotation lists.  What they read back from a document and store again is
    taken to have been of its declared type. *)
Theorem writes_typed {CAT : Catalog} (cfg : config) (bot_id : Z) (bot_username : string)
    (prefixes : list ustr) (bot : option ustr) {A} (p : io A) (t : trace eff) (r : result A) :
  writer cfg bot_id bot_username prefixes bot p -> exec p t r ->
  Forall (fun o => obs_untyped o = false) t.
Proof. intros Hp Hr. by eapply never_elim; [eapply writer_typed|]. Qed.

(** User 9, banned before, is banned anew: the record is updated. *)
Definition banned_before : script := fun X ev =>
  match ev in eff X return option (result X) with
  | FindOne "bans" _ _ => Some (Ok (Some ["ban_id" ~> BStr "b1"; "banned_user_id" ~> BInt 9; "proof_message_id" ~> BInt 4]))
  | _ => None
  end.

Definition rebanned := replay banned_before
  (@_execute_ban demo_catalog demo_config "bot" [] (BanMeta 9 "x" (u "en") "spam" 7 "boss" 5 6)).

(** The run updates the record, and every write of it is typed. *)
Lemma writes_typed_witness :
  existsb (fun o => match o with Obs ev _ => match ev with FindOneAndUpdate "bans" _ _ _ => true | _ => false end end) rebanned.1 = true /\
  Forall (fun o => obs_untyped o = false) rebanned.1.
Proof.
  split; [vm_compute; reflexivity|].
  exact (@writes_typed demo_catalog demo_config 1 "bot" [] None unit _ _ _
    (W_ban _ _ _ _ _ _ _) (replay_exec banned_before _)).
Defined.

(** The schemas do tell writes apart. *)
Example untyped_reason : obs_untyped (Obs (UpdateOne "bans" ["ban_id" ~> BStr "b1"] ["$set" ~> BDoc ["reason" ~> BNull]] false)
  (Ok (UpdateResult 1 1 false))) = true.
Proof. reflexivity. Qed.
